(* ===== verification/_CoqProject ===== *)
-Q . S2P
Prelude.v
GoStrings.v
GoStringsFacts.v
Strconv.v
Hardware.v
GoAny.v
GoSort.v
GoPath.v
HostFS.v
GoTime.v
Glog.v
GlogFiles.v
Auth.v
Tunnel.v
Base64.v
AccessToken.v
CertGen.v
Archive.v
ArchiveProofs.v
Engines.v
NodeIdentity.v
Probe.v
Prereq.v
NodeConfig.v
AdminHttp.v
LogStream.v
UdpMux.v
Prometheus.v
Signal.v
NodeClient.v
ClientConc.v
ClientConcLogic.v
ClientConcCalls.v
ClientConcTheorems.v
ClientConcAlone.v
SessionCache.v
RvTypes.v
RvAuth.v
RvCommand.v
RvService.v
RvServer.v
RvProofs.v
RvTheorems.v
RvNet.v
RvWitness.v
RvSections.v
RvSectionsLaws.v
RvSectionsProofs.v
RvListen.v
RvWire.v
NodeRecovery.v
RvRest.v
RvRestProofs.v
MarketStore.v
MarketStoreProofs.v
MarketStoreTheorems.v
MarketVersions.v
MarketConc.v
MarketApi.v
MarketConcLogic.v
MarketConcProofs.v
MarketConcPut.v
MarketConcTheorems.v
MarketConcRuns.v
MarketInterface.v
MarketRefines.v
MarketFailures.v
RecipeParser.v
RecipeParserProofs.v
RecipeText.v
RecipeRequires.v
RecipeExpand.v
RecipeRuntime.v
MarketServer.v
MarketConfig.v
MarketServerProofs.v
MarketServerConc.v
MarketServerConcProofs.v
MarketServerRefines.v
MarketServerRuns.v
