(* ===== verification/Prelude.v ===== *)
(** * Verification of the iSANN central servers

    ** The program

    The repository is the central infrastructure of the iSANN network: two
    servers and the libraries they share with the node software.

    - The _market_ ([cmd/market], [pkg/market]) is an HTTP server over a SQL
      database that stores "assets" (recipes an author publishes under a name,
      in immutable versions).  Reads are open, private assets excepted; every
      write carries an eth_sign signature of the author.  On a push the server
      parses the uploaded recipe and derives the listed metadata from it.
    - The _rendezvous_ server ([cmd/rendezvous], [pkg/rendezvous]) keeps the
      roster of live nodes.  A node holds one TCP control connection: it says
      hello, registers (with signatures in protected mode), pings, reports its
      services; the server pushes punch requests on that connection.  UDP
      punches teach the server the node's public address.  Timers purge silent
      nodes; REST endpoints list what is known.
    - The shared packages: recipes ([pkg/recipe]: parser, path expansion,
      runner), signatures and route permissions ([pkg/auth]), the node's side of
      the network ([pkg/tunnel]: wire records, credentials, client, settings,
      administration, multiplexing), control frames ([pkg/signal]), set-up of a
      node ([pkg/setup]: hardware, identity, engines, prerequisites), logs
      ([pkg/glog]) and certificates ([pkg/certgen]).

    The market calls the recipe parser and the signatures; the rendezvous
    server calls the signatures, the digests, the session cache and the control
    frames; both generate certificates at start-up.  The two servers share no
    state.  The node's client talks to the rendezvous server over the control
    frames.

    ** Files

    Library level (what the code uses of Go and the operating system):
    - [Prelude]: scope, notations, [result], tactics, generic lemmas;
    - [GoStrings], [GoStringsFacts]: package [strings] on byte strings;
    - [Strconv]: package [strconv] and [encoding/binary], fixed-width integers;
    - [GoAny]: values of type [any] and the float operations on [spec_float];
      [GoSort]: sorting by keys; [GoPath]: [path/filepath]; [GoTime]: instants,
      durations, RFC 3339; [Base64]: [encoding/base64] and PEM;
    - [HostFS]: a file system of directories and files, with the errors of
      creating, opening and looking up.

    Shared packages:
    - [Hardware], [Probe]: [detect.go], [detect_linux.go],
      [detect_windows.go]: records, fingerprint, the parsers of what the system
      says of itself;
    - [NodeIdentity]: [nodeid.go], [tpm.go], [filehash.go]; and [tpm.go] on
      [tpm_windows.go] and [tpm_linux.go], over what the chip holds;
    - [Archive], [ArchiveProofs]: zip and tar extraction of [setup.go];
      [Engines]: [project_sd.go], [project_llama.go], [github.go] and [Ensure] of
      [setup.go]; [Prereq]: [prereq.go] and its two platforms;
    - [Auth]: [pkg/auth/ethereum.go] and [routes.go];
    - [Tunnel]: [rendezvous.go], [access.go], [metrics.go] of [pkg/tunnel] and
      the digests of [session.go]; [AccessToken]: the pasted token of
      [access.go]; [SessionCache]: tokens and the cache of [session.go];
    - [NodeConfig]: [config.go], [runtime.go], [base.go]; [AdminHttp]:
      [admin.go], [webdav.go]; [LogStream]: the log streams of [admin.go] over
      the ring of [Glog]; [UdpMux]: [mux.go]; [Prometheus]: [prometheus.go];
      [NodeClient]: [isannd_client.go], one call at a time;
    - [ClientConc]: the calls of [isannd_client.go] as programs of the actions
      between which another goroutine may run, and the machine that interleaves
      them; [ClientConcLogic]: its invariant, rely/guarantee, triples and the
      actions; [ClientConcCalls]: the calls; [ClientConcTheorems]: every
      history, and that calls return; [ClientConcAlone]: a call alone and calls
      that race;
    - [Signal]: [pkg/signal/proto.go]; [Glog], [GlogFiles]: [pkg/glog];
      [CertGen]: [pkg/certgen].

    Rendezvous ([pkg/rendezvous]):
    - [RvTypes]: [Server], [ProxyInfo] and the role policy of [server.go];
    - [RvAuth]: [session.go] (register and ping signatures) and [rv_auth.go];
    - [RvCommand]: [cmd/rendezvous/main.go] and [Server.Run];
    - [RvService]: service rows of [lifecycle.go] and [control_tcp.go];
    - [RvServer]: the handlers of [control_tcp.go], [punch_udp.go] and the
      ticks of [heartbeat.go]; an [event] is one thing the server reacts to,
      [sys_step] its handler, [run] a history of whole handlers;
    - [RvSections]: the same handlers as programs of critical sections, each
      with the lock it runs under, over a roster of shared objects; [frun] a
      history of single sections; [RvSectionsLaws]: what each section may touch;
      [RvSectionsProofs]: theorems, concrete interleavings;
    - [RvListen]: the punch listener's and the accept loop of [punch_udp.go] and
      [control_tcp.go], over the outcomes of their reads;
    - [RvRest]: the REST handlers of [server.go] and [heartbeat.go];
    - [RvProofs], [RvTheorems], [RvNet], [RvRestProofs]: lemmas, theorems;
      [RvWitness]: a concrete server and history;
    - [RvWire]: the server behind the framing of [Signal], and what it reads
      from the sockets of the client of [ClientConc]; [NodeRecovery]: the
      client of [NodeClient] and the server together.

    Market ([pkg/market]):
    - [MarketStore]: [sqlstore.go], tables and statements; [MarketStoreProofs],
      [MarketStoreTheorems], [MarketVersions]: its theorems;
    - [MarketConc]: the store's methods as programs of SQL statements and the
      requests in flight; [MarketConcLogic]: a rely/guarantee logic for them;
      [MarketConcProofs], [MarketConcPut], [MarketConcTheorems],
      [MarketConcRuns]: theorems, concrete interleavings;
    - [MarketApi]: [store.go], the interface as the class [Store], its SQL
      implementation once as functions and once as programs of statements;
      [MarketInterface]: the laws [StoreLaws] of the interface over an abstract
      machine; [MarketRefines]: the SQL store meets them; [MarketFailures]: what
      a request that fails leaves behind;
    - [MarketServer]: [server.go], [auth_write.go], [recipe_meta.go],
      [recipe_app_validate.go], against [Store] and over any computations that
      spend nonces ([ServerM]); [MarketServerProofs]: the handlers as functions;
      [MarketServerConc], [MarketServerConcProofs]: the same handlers as
      programs that interleave, and who may write; [MarketServerRefines],
      [MarketServerRuns]: the server as a client of the concurrent store;
    - [MarketConfig]: [config.go], [cmd/market/main.go], [Server.Run]
      and the DDL of [sqlstore.go].

    Recipes ([pkg/recipe]):
    - [RecipeParser]: [parser.go]; [RecipeParserProofs], [RecipeText]: its
      theorems; [RecipeRequires]: [requires.go];
    - [RecipeExpand]: [expand.go] with its theorems;
    - [RecipeRuntime]: [runtime.go] with its theorems, its standard input and
      dry-run plan.

    ** How code is modelled

    A Go string is [String.string] (its characters are the 256 bytes); an
    [int64] is a [Z] with the wrap-around of [Strconv] written out where the
    code can overflow; a [float64] is the Standard Library's [spec_float]; a
    map is a [gmap]; a nil pointer or slice is [None] where the code tells it
    from an empty one.  A Go function that returns an error is a [result] whose
    error type has one constructor per error built.

    The rendezvous server is a state and handlers [state → state * pushes]; the
    clock is an argument of each.  Go holds [s.mu] for parts of a handler only:
    [RvSections] has each handler as a sequence of sections with their locks
    (and the accesses made without one), each reading the clock for itself, and
    interleaves the sections of any number of handlers; a handler that nobody
    interrupts is the function of [RvServer] ([handlers_alone]).  The REST
    handlers only read and stay whole.

    The store is a monad over the tables and a schedule that fails any chosen
    SQL statements: the theorems on the store hold for every schedule.  In [MarketConc] each method is a program
    whose actions are the statements the database executes as one (a
    transaction is one action), and a history interleaves the statements of any
    number of requests, starts new ones and abandons others; a request that
    nobody interrupts is the method of [MarketStore].  The handlers of the HTTP
    server are one definition over two instances of a class: functions of the
    nonce cache and the tables, and programs that use the cache under its lock
    and the database statement by statement ([serve_alone]: alone, the second is
    the first); the clock of a request is read between its actions.

    The node's client is treated alike: [ClientConc] has each call as a program
    whose actions are the sections under [stateMu], the operations on the atomic
    flags, a dial, each of the two [Write]s of a frame and each [Close] of a
    socket; [writeMu] blocks; a history interleaves any number of calls with
    server pushes and broken connections, and lets any action of the network
    fail.  A call that nobody interrupts is the function of [NodeClient]
    ([ClientConcAlone.client_call_refines]).

    Code that writes files is a function of a file system: [HostFS] (locations
    are stacks of path components; an oracle says where the process may write)
    for set-up, settings and certificates, a directory of lines for the logs.  A
    program that is run, a system call or an HTTP request is an argument holding
    its answer; the prerequisite checks also record the commands they issue.

    What the repository calls and does not contain is a class: Unicode tables
    ([GoUnicode]), Keccak and secp256k1 ([EthCrypto], with laws [EthLaws]),
    SHA-256 ([Sha256]), key derivation ([KeyDerivation]), float parsing and
    formatting ([ParseFloat], [GoFormat]), JSON texts (decoders, with the round
    trip as a law where a theorem saves and loads), the order of an unordered
    SELECT, the world of a running recipe ([Host]).  Theorems quantify over
    every instance; what they need of one is a named law, and the witnesses
    instantiate the classes by concrete functions.

    ** Theorems

    - Market: however requests interleave, every action that changes more than
      a download count is covered by a signature of the author whose nonce was
      accepted and touches only that author's rows; a signed request is accepted
      once if the lock is taken in the order of the clock readings (and twice in
      a history where it is not); versions are immutable; deletion is
      atomic under failures, a push is not; what was pushed is what is
      installed; listings show public assets only and their pages are complete;
      numeric versions are totally ordered and "latest" is a maximum; a loaded
      configuration is complete.  The SQL store refines an abstract map of
      shelves, and a client is proved against the interface alone.  Under any
      interleaving of statements: the tables' keys and references hold, nobody's
      asset is touched by a request for another; every history of the HTTP
      server is one of the store, of two HTTP pushes of one version at most
      one is answered 201, an install that arrives after a 201 gives what was pushed,
      every HTTP request is answered; the races the code does have
      (a stale "latest", a lost first push, an orphan row) are theorems too.
    - Rendezvous: the connection registry refines "the last hello wins, a
      close removes only its own connection"; discovery counters equal the
      counts over the roster; one connection changes only the entry of its own
      node id; a roster entry of a protected server was signed and admitted, or
      came in a delta register (the gap is a theorem); exact characterisations
      of admission, signatures, punches, cleanup, the limiter, connect and the
      directory; framing delivers messages whole; a node whose entry was lost
      is listed again after two rounds of its client; cadences and start-up follow
      the configuration.  Under any interleaving of critical sections: the
      counters are exact, entries are of signed registers only, a section changes
      only the entry of the node it serves, and two sections that are next at
      the same time share a lock or commute, except in [handleConnect], whose
      unlocked reads are shown to race.
    - Recipes: an accepted recipe is the linearisation of a block-structured
      program and running it with branch frames is the structured semantics;
      parsing terminates; quoting round-trips; path evaluation is denotational;
      requirements are met exactly as declared; reads are the input's lines.
    - Formats: credentials and access tokens round-trip and the two credential
      families are disjoint; digests bind what they sign up to hash collisions;
      Base64 decoding inverts encoding; the metrics text is aggregated exactly.
    - The node's client: whatever its goroutines do, every socket carries whole
      frames of one identity, the hello first, and at most one torn frame at the
      end; a send that reports success is on a socket; when all calls have
      returned one socket at most is open, the current connection; no call
      waits for ever; the server that reads its sockets changes only what it
      holds of the client's node.  A send or a [Close] during a dial, and two [Connect]s,
      race as the last theorems of [ClientConcAlone] show.
    - The node: extraction lays out exactly the planned files, stays below the
      destination when names do, and escapes otherwise (a theorem); [Ensure] is
      idempotent, leaves no download behind and installs what is required;
      settings survive a restart; the log endpoint cannot leave its directory;
      the log ring refines "the last lines", and any number of streams over it
      neither panic nor reorder lines nor stay subscribed; rotation keeps exactly the newest
      files; the multiplexer hands every packet to one reader; the identity is a
      function of the hardware alone; probing never boots a virtual machine;
      the TPM is left as it was found on every path.

    ** Fuel

    Recursion that is not structural carries fuel, and a lemma shows the fuel
    given is enough: the decimal printer gets the bits of its number
    ([Strconv]), integer loops over version components run over the longer
    list, a walk of a path expression gets the length of the path
    ([RecipeExpand]), include depth gets one more than the number of files
    ([RecipeParserProofs.Parse_terminates]; the code ends because a file that
    is on the include stack is refused).  The twelve levels of
    [NodeConfig.FindRoot] are the code's own bound.  A store request has no
    loop: ten actions end any of them ([MarketConcRuns.request_finishes]), eleven
    an HTTP request ([MarketServerRuns.http_request_finishes]), sixteen a call
    of the client ([ClientConcTheorems.client_calls_return]), and a handler of
    [RvSections] is a finite tree of sections.

    ** Not modelled

    Sockets, TLS, HTTP routing and JSON text; MySQL (the store is modelled in
    its SQLite dialect, without collations; [MarketConfig] tells the dialects
    apart and compares their tables); the commands' flags and
    signals; the order in which goroutines of one process write a log line; the
    strings the linker sets ([version.go]), which are constants; the isolation
    levels of a MySQL server (a statement and a transaction are atomic); the
    lock inside a TCP socket (each [Write] of the client is one action); in
    [handleConnect] the fields of the target are taken to be read at one
    moment. *)

From Stdlib Require Import ZArith Lia Bool Ascii String.
From stdpp Require Import base option list gmap strings.

(** ** Notation scope of the development *)

Declare Scope go_scope.
Delimit Scope go_scope with go.

(** Let [simpl] unfold concatenation on a constructor (stdpp seals it). *)
#[global] Arguments String.append : simpl nomatch.

(** Byte-string concatenation, Go's [+] on strings. *)
Infix "++s" := String.append (at level 60, right associativity) : go_scope.
(** Boolean equality on strings and bytes, Go's [==]. *)
Infix "=s?" := String.eqb (at level 70, no associativity) : go_scope.
Infix "=c?" := Ascii.eqb (at level 70, no associativity) : go_scope.

(** ** The result type of fallible Go functions

    A Go function returning [(T, error)] is modelled by [result E T]: [Ok v]
    for a nil error, [Err e] for a non-nil one, with [E] an inductive type that
    has one constructor per error the source builds. *)

Inductive result (E T : Type) : Type :=
  | Ok (v : T)
  | Err (e : E).
Arguments Ok {E T} v.
Arguments Err {E T} e.

Definition res_bind {E A B} (r : result E A) (k : A → result E B) : result E B :=
  match r with Ok v => k v | Err e => Err e end.

Definition res_map {E A B} (f : A → B) (r : result E A) : result E B :=
  match r with Ok v => Ok (f v) | Err e => Err e end.

Definition is_ok {E T} (r : result E T) : bool :=
  match r with Ok _ => true | Err _ => false end.

Notation "'let!' x := r 'in' k" := (res_bind r (λ x, k))
  (at level 10, x pattern, r at level 100, k at level 200,
   format "'let!'  x  :=  r  'in' '//' k") : go_scope.

(** ** Tactics *)

(** [case_if]: split on the boolean guard of a conditional in the goal or in a
    hypothesis, turning the guard into a proposition where it is a comparison. *)
Ltac breflect H :=
  lazymatch type of H with
  | andb _ _ = true => apply andb_true_iff in H; destruct H as [? ?]
  | andb _ _ = false => apply andb_false_iff in H
  | orb _ _ = true => apply orb_true_iff in H
  | orb _ _ = false => apply orb_false_iff in H; destruct H as [? ?]
  | negb _ = true => apply negb_true_iff in H
  | negb _ = false => apply negb_false_iff in H
  | String.eqb _ _ = true => apply String.eqb_eq in H
  | String.eqb _ _ = false => apply String.eqb_neq in H
  | Ascii.eqb _ _ = true => apply Ascii.eqb_eq in H
  | Ascii.eqb _ _ = false => apply Ascii.eqb_neq in H
  | Z.leb _ _ = true => apply Z.leb_le in H
  | Z.leb _ _ = false => apply Z.leb_gt in H
  | Z.ltb _ _ = true => apply Z.ltb_lt in H
  | Z.ltb _ _ = false => apply Z.ltb_ge in H
  | Z.eqb _ _ = true => apply Z.eqb_eq in H
  | Z.eqb _ _ = false => apply Z.eqb_neq in H
  | Nat.leb _ _ = true => apply Nat.leb_le in H
  | Nat.leb _ _ = false => apply Nat.leb_gt in H
  | Nat.ltb _ _ = true => apply Nat.ltb_lt in H
  | Nat.ltb _ _ = false => apply Nat.ltb_ge in H
  | Nat.eqb _ _ = true => apply Nat.eqb_eq in H
  | Nat.eqb _ _ = false => apply Nat.eqb_neq in H
  | bool_decide _ = true => apply bool_decide_eq_true in H
  | bool_decide _ = false => apply bool_decide_eq_false in H
  end.

Ltac breflect_all :=
  repeat match goal with
  | H : _ = true |- _ => progress breflect H
  | H : _ = false |- _ => progress breflect H
  end.

Ltac case_if :=
  match goal with
  | |- context [if ?b then _ else _] =>
      lazymatch type of b with
      | bool => let E := fresh "Eif" in destruct b eqn:E; try breflect E
      end
  | H : context [if ?b then _ else _] |- _ =>
      lazymatch type of b with
      | bool => let E := fresh "Eif" in destruct b eqn:E; try breflect E
      end
  end.

(** [vm_refl]: an equation of closed terms, by the virtual machine. *)
Ltac vm_refl := match goal with |- ?a = ?b => exact (@eq_refl _ b <: a = b) end.

(** [case_match_eq]: like [case_if] for any scrutinee. *)
Ltac case_scrut :=
  match goal with
  | |- context [match ?x with _ => _ end] => let E := fresh "Ecs" in destruct x eqn:E
  | H : context [match ?x with _ => _ end] |- _ => let E := fresh "Ecs" in destruct x eqn:E
  end.

(** Hint databases: [go] holds resolution lemmas about the Go runtime
    functions, [go_rw] their rewriting equations. *)
Create HintDb go.
Create Rewrite HintDb go_rw.

(** ** Generic lemmas *)

Section result_lemmas.
Context {E A B C : Type}.

Lemma res_bind_Ok_inv (r : result E A) (k : A → result E B) b :
  res_bind r k = Ok b → ∃ a, r = Ok a ∧ k a = Ok b.
Proof. destruct r; simpl; [eauto | done]. Qed.

Lemma res_bind_assoc (r : result E A) (k : A → result E B) (h : B → result E C) :
  res_bind (res_bind r k) h = res_bind r (λ a, res_bind (k a) h).
Proof. by destruct r. Qed.

Lemma res_bind_Ok_r (r : result E A) : res_bind r Ok = r.
Proof. by destruct r. Qed.

Lemma is_ok_true (r : result E A) : is_ok r = true ↔ ∃ v, r = Ok v.
Proof. destruct r; simpl; naive_solver. Qed.
End result_lemmas.

(** Peel one successful [res_bind] off a hypothesis. *)
Ltac inv_bind H :=
  let a := fresh "v" in let E := fresh "Ebind" in
  apply res_bind_Ok_inv in H; destruct H as (a & E & H).

(** A list fold seen as a left fold over an appended list. *)
Lemma fold_left_snoc {A B} (f : A → B → A) l x a :
  fold_left f (l ++ [x]) a = f (fold_left f l a) x.
Proof. by rewrite fold_left_app. Qed.

(** An invariant preserved by each step of a fold holds at its end. *)
Lemma fold_left_inv {A B} (P : A → Prop) (f : A → B → A) l a :
  P a → (∀ a b, b ∈ l → P a → P (f a b)) → P (fold_left f l a).
Proof.
  revert a; induction l as [|b l IH]; simpl; intros a Ha Hf; [done|].
  apply IH; [apply Hf; [left|done] | intros; apply Hf; [by right|done]].
Qed.

(** ** Counting the entries of a map that satisfy a boolean *)

Definition b2z (b : bool) : Z := if b then 1%Z else 0%Z.

Section count.
Context {A : Type}.
Implicit Types (f : A → bool) (m : gmap string A).

Definition count f m : Z := Z.of_nat (size (filter (λ kv, f kv.2 = true) m)).

Lemma count_empty f : count f ∅ = 0%Z.
Proof. unfold count. by rewrite map_filter_empty, map_size_empty. Qed.

Lemma count_insert_None f m k v :
  m !! k = None → count f (<[k:=v]> m) = (count f m + b2z (f v))%Z.
Proof.
  intros Hk. unfold count, b2z. destruct (f v) eqn:Ef.
  - rewrite map_filter_insert_True by done. rewrite map_size_insert_None; [lia|].
    apply map_lookup_filter_None. by left.
  - rewrite map_filter_insert_False by (simpl; congruence). rewrite delete_id by done. lia.
Qed.

Lemma count_delete f m k o :
  m !! k = Some o → count f (delete k m) = (count f m - b2z (f o))%Z.
Proof.
  intros Hk.
  assert (count f (<[k:=o]> (delete k m)) = count f (delete k m) + b2z (f o))%Z as Hc
    by (apply count_insert_None, lookup_delete_eq).
  rewrite insert_delete_id in Hc by done. lia.
Qed.

Lemma count_insert_Some f m k o v :
  m !! k = Some o → count f (<[k:=v]> m) = (count f m - b2z (f o) + b2z (f v))%Z.
Proof.
  intros Hk. rewrite <-insert_delete_eq, count_insert_None by apply lookup_delete_eq.
  by rewrite (count_delete f m k o).
Qed.

Lemma count_bound f m : (0 ≤ count f m ≤ Z.of_nat (size m))%Z.
Proof.
  unfold count. split; [lia|]. apply Nat2Z.inj_le, map_subseteq_size, map_filter_subseteq.
Qed.

(** Replacing an entry by one with the same answer changes no count. *)
Lemma count_update f m k o v :
  m !! k = Some o → f v = f o → count f (<[k:=v]> m) = count f m.
Proof. intros Hk Hf. rewrite (count_insert_Some _ _ _ o) by done. rewrite Hf. lia. Qed.
End count.

(** ** Reachability: the reflexive transitive closure of a step relation *)

Section reach.
Context {S : Type} (step : S → S → Prop).

(** An invariant of the initial state preserved by every step holds in every
    reachable state. *)
Lemma rtc_invariant (I : S → Prop) s s' :
  (∀ x y, I x → step x y → I y) → I s → rtc step s s' → I s'.
Proof. intros Hstep Hs Hr. induction Hr; eauto. Qed.
End reach.
