(* ===== verification/GoStrings.v ===== *)
(** * The parts of Go's [strings] package the servers use

    Go strings are byte sequences; they are modelled by [String.string], whose
    [ascii] characters are exactly the 256 bytes.  Whitespace ([TrimSpace],
    [Fields]) is Go's [unicode.IsSpace]: the six ASCII blanks and the UTF-8
    encodings of U+0085, U+00A0, U+1680, U+2000..U+200A, U+2028, U+2029,
    U+202F, U+205F and U+3000, recognised on the bytes.  Case mapping is
    concrete on ASCII; on a string with a byte above 0x7f it is the [GoUnicode]
    operation, whose tables the model does not reproduce. *)

From S2P Require Import Prelude.
From Stdlib Require Import ZArith Lia ZifyBool Bool Ascii String.
From stdpp Require Import base option list gmap strings.

Open Scope go_scope.

(** ** Bytes *)

Definition byte_val (c : ascii) : nat := nat_of_ascii c.
Definition ch (n : nat) : ascii := ascii_of_nat n.
Definition str1 (c : ascii) : string := String c "".

Definition is_lower_ascii (c : ascii) : bool := (97 <=? byte_val c) && (byte_val c <=? 122).
Definition is_upper_ascii (c : ascii) : bool := (65 <=? byte_val c) && (byte_val c <=? 90).
Definition is_digit (c : ascii) : bool := (48 <=? byte_val c) && (byte_val c <=? 57).
Definition is_ascii_byte (c : ascii) : bool := byte_val c <? 128.

Definition lower_byte (c : ascii) : ascii :=
  if is_upper_ascii c then ch (byte_val c + 32) else c.
Definition upper_byte (c : ascii) : ascii :=
  if is_lower_ascii c then ch (byte_val c - 32) else c.

Fixpoint smap (f : ascii → ascii) (s : string) : string :=
  match s with "" => "" | String c s' => String (f c) (smap f s') end%string.

Fixpoint sforall (p : ascii → bool) (s : string) : bool :=
  match s with EmptyString => true | String c s' => p c && sforall p s' end.

Fixpoint contains_byte (c : ascii) (s : string) : bool :=
  match s with EmptyString => false | String d s' => (c =c? d) || contains_byte c s' end.

Definition is_ascii (s : string) : bool := sforall is_ascii_byte s.

(** ** Prefixes, suffixes, search *)

Fixpoint has_prefix (s p : string) {struct p} : bool :=
  match p, s with
  | EmptyString, _ => true
  | String c p', String d s' => (c =c? d) && has_prefix s' p'
  | String _ _, EmptyString => false
  end.

Fixpoint drop_str (n : nat) (s : string) : string :=
  match n, s with
  | O, _ => s
  | S n', String _ s' => drop_str n' s'
  | S _, EmptyString => ""%string
  end.

Fixpoint take_str (n : nat) (s : string) : string :=
  match n, s with
  | O, _ => ""%string
  | S n', String c s' => String c (take_str n' s')
  | S _, EmptyString => ""%string
  end.

Definition trim_prefix (s p : string) : string :=
  if has_prefix s p then drop_str (String.length p) s else s.

Definition has_suffix (s p : string) : bool :=
  (String.length p <=? String.length s) && (drop_str (String.length s - String.length p) s =s? p).

Definition trim_suffix (s p : string) : string :=
  if has_suffix s p then take_str (String.length s - String.length p) s else s.

(** [strings.Index]: offset of the first occurrence of [sub]. *)
Fixpoint index_str (s sub : string) : option nat :=
  if has_prefix s sub then Some 0
  else match s with
       | EmptyString => None
       | String _ s' => S <$> index_str s' sub
       end.

Definition contains_str (s sub : string) : bool := bool_decide (is_Some (index_str s sub)).

(** [strings.IndexByte] *)
Fixpoint index_byte (s : string) (c : ascii) : option nat :=
  match s with
  | EmptyString => None
  | String d s' => if c =c? d then Some 0 else S <$> index_byte s' c
  end.

(** [strings.LastIndex] of a one-byte separator *)
Fixpoint last_index_byte (s : string) (c : ascii) : option nat :=
  match s with
  | EmptyString => None
  | String d s' =>
      match last_index_byte s' c with
      | Some i => Some (S i)
      | None => if c =c? d then Some 0 else None
      end
  end.

(** ** Split, Join, Cut, Fields *)

(** [strings.Split(s, sep)] for a one-byte separator. *)
Fixpoint split_byte (sep : ascii) (s : string) : list string :=
  match s with
  | EmptyString => [""%string]
  | String c s' =>
      if sep =c? c then ""%string :: split_byte sep s'
      else match split_byte sep s' with
           | [] => [str1 c]
           | h :: t => String c h :: t
           end
  end.

Fixpoint join_str (sep : string) (l : list string) : string :=
  match l with
  | [] => ""%string
  | [x] => x
  | x :: l' => x ++s sep ++s join_str sep l'
  end.

(** [strings.Cut(s, sep)] for a one-byte separator: (before, after, found). *)
Definition cut_byte (sep : ascii) (s : string) : string * string * bool :=
  match index_byte s sep with
  | Some i => (take_str i s, drop_str (S i) s, true)
  | None => (s, ""%string, false)
  end.

(** [strings.ReplaceAll(s, old, new)] for a non-empty [old]; [skip] counts the
    bytes of a match still to be dropped. *)
Fixpoint replace_go (old new : string) (skip : nat) (s : string) : string :=
  match s with
  | EmptyString => ""%string
  | String c s' =>
      match skip with
      | S k => replace_go old new k s'
      | O => if has_prefix s old then new ++s replace_go old new (String.length old - 1) s'
             else String c (replace_go old new 0 s')
      end
  end.
Definition replace_all (s old new : string) : string := replace_go old new 0 s.

(** Number of bytes of the white-space rune [s] starts with, 0 when it does not
    start with one ([unicode.IsSpace] on the first rune). *)
Definition space_width (s : string) : nat :=
  match s with
  | EmptyString => 0
  | String a s1 =>
      let x := byte_val a in
      if ((9 <=? x) && (x <=? 13)) || (x =? 32) then 1
      else match s1 with
           | EmptyString => 0
           | String b s2 =>
               let y := byte_val b in
               if (x =? 194) && ((y =? 133) || (y =? 160)) then 2
               else match s2 with
                    | EmptyString => 0
                    | String c _ =>
                        let z := byte_val c in
                        if ((x =? 225) && (y =? 154) && (z =? 128))
                           || ((x =? 226) && (y =? 128) && (128 <=? z) && (z <=? 138))
                           || ((x =? 226) && (y =? 128) && ((z =? 168) || (z =? 169) || (z =? 175)))
                           || ((x =? 226) && (y =? 129) && (z =? 159))
                           || ((x =? 227) && (y =? 128) && (z =? 128))
                        then 3 else 0
                    end
           end
  end.

Fixpoint srev_app (s acc : string) : string :=
  match s with EmptyString => acc | String c s' => srev_app s' (String c acc) end.
Definition srev (s : string) : string := srev_app s "".

(** [space_width] of the reversed string: the last rune of the original. *)
Definition space_width_rev (r : string) : nat :=
  match r with
  | EmptyString => 0
  | String c r1 =>
      if space_width (str1 c) =? 1 then 1
      else match r1 with
           | EmptyString => 0
           | String b r2 =>
               if space_width (String b (str1 c)) =? 2 then 2
               else match r2 with
                    | EmptyString => 0
                    | String a _ =>
                        if space_width (String a (String b (str1 c))) =? 3 then 3 else 0
                    end
           end
  end.

Fixpoint trim_left_by (width : string → nat) (skip : nat) (s : string) : string :=
  match s with
  | EmptyString => ""%string
  | String _ s' =>
      match skip with
      | S k => trim_left_by width k s'
      | O => match width s with O => s | S w => trim_left_by width w s' end
      end
  end.

Definition trim_left_space (s : string) : string := trim_left_by space_width 0 s.
Definition trim_right_space (s : string) : string :=
  srev (trim_left_by space_width_rev 0 (srev s)).
(** [strings.TrimSpace] *)
Definition trim_space (s : string) : string := trim_right_space (trim_left_space s).

(** [strings.TrimRight]/[Trim] with a cutset given as a predicate on bytes. *)
Fixpoint trim_left_pred (p : ascii → bool) (s : string) : string :=
  match s with
  | EmptyString => ""%string
  | String c s' => if p c then trim_left_pred p s' else s
  end.
Definition trim_right_pred (p : ascii → bool) (s : string) : string :=
  srev (trim_left_pred p (srev s)).
Definition trim_pred (p : ascii → bool) (s : string) : string :=
  trim_right_pred p (trim_left_pred p s).

Definition emit_field (cur : string) : list string :=
  match cur with EmptyString => [] | _ => [cur] end.

(** [strings.Fields] *)
Fixpoint fields_go (skip : nat) (cur s : string) : list string :=
  match s with
  | EmptyString => emit_field cur
  | String c s' =>
      match skip with
      | S k => fields_go k cur s'
      | O => match space_width s with
             | O => fields_go 0 (cur ++s str1 c) s'
             | S w => emit_field cur ++ fields_go w "" s'
             end
      end
  end.
Definition fields (s : string) : list string := fields_go 0 "" s.

(** Go's [<] on strings: byte-wise lexicographic. *)
Fixpoint str_ltb (a b : string) : bool :=
  match a, b with
  | _, EmptyString => false
  | EmptyString, String _ _ => true
  | String x a', String y b' =>
      if x =c? y then str_ltb a' b' else byte_val x <? byte_val y
  end.

(** ** Quoting *)

Definition hex_lower (d : nat) : ascii := if d <? 10 then ch (48 + d) else ch (87 + d).

(** One ASCII byte inside a double-quoted Go literal. *)
Definition quote_byte (c : ascii) : string :=
  let v := byte_val c in
  let esc d := String "\" (str1 d) in
  if (v =? 34) || (v =? 92) then esc c
  else if v =? 7 then esc "a"%char else if v =? 8 then esc "b"%char else if v =? 12 then esc "f"%char
  else if v =? 10 then esc "n"%char else if v =? 13 then esc "r"%char else if v =? 9 then esc "t"%char
  else if v =? 11 then esc "v"%char
  else if (v <? 32) || (v =? 127) then
    String "\" (String "x" (String (hex_lower (v / 16)) (str1 (hex_lower (v mod 16)))))
  else str1 c.

Fixpoint quote_body (s : string) : string :=
  match s with EmptyString => ""%string | String c s' => quote_byte c ++s quote_body s' end.

(** ** Case mapping *)

(** Go's Unicode case tables, on strings with a non-ASCII byte. *)
Class GoUnicode := {
  uni_lower : string → string;
  uni_upper : string → string;
  uni_equal_fold : string → string → bool;
  uni_quote : string → string
}.

(** What the model relies on about those tables, where a theorem says so. *)
Class GoUnicodeLaws (U : GoUnicode) : Prop := {
  (** lower-casing twice is lower-casing once *)
  uni_lower_idem : ∀ s, is_ascii s = false → is_ascii (uni_lower s) = false →
                        uni_lower (uni_lower s) = uni_lower s;
  (** a string that lower-cases to ASCII lower-cases to lower-case ASCII *)
  uni_lower_ascii : ∀ s, is_ascii s = false → is_ascii (uni_lower s) = true →
                         smap lower_byte (uni_lower s) = uni_lower s;
  uni_upper_idem : ∀ s, is_ascii s = false → is_ascii (uni_upper s) = false →
                        uni_upper (uni_upper s) = uni_upper s;
  uni_upper_ascii : ∀ s, is_ascii s = false → is_ascii (uni_upper s) = true →
                         smap upper_byte (uni_upper s) = uni_upper s;
  (** ':' is the upper case of no other rune *)
  uni_upper_colon : ∀ s, contains_byte ":" s = false → contains_byte ":" (uni_upper s) = false;
  (** nor the lower case of one *)
  uni_lower_colon : ∀ s, contains_byte ":" s = false → contains_byte ":" (uni_lower s) = false
}.

(** The instance that leaves non-ASCII bytes alone, used to evaluate witnesses. *)
Definition ascii_tables : GoUnicode := {|
  uni_lower := smap lower_byte;
  uni_upper := smap upper_byte;
  uni_equal_fold := λ a b, smap lower_byte a =s? smap lower_byte b;
  uni_quote := λ s, s
|}.

Section case.
Context {U : GoUnicode}.

(** [strings.ToLower], [strings.ToUpper], [strings.EqualFold] *)
Definition to_lower (s : string) : string :=
  if is_ascii s then smap lower_byte s else uni_lower s.
Definition to_upper (s : string) : string :=
  if is_ascii s then smap upper_byte s else uni_upper s.
Definition equal_fold (a b : string) : bool :=
  if is_ascii a && is_ascii b then smap lower_byte a =s? smap lower_byte b
  else uni_equal_fold a b.

(** [strconv.Quote], the [%q] verb *)
Definition go_quote (s : string) : string :=
  if is_ascii s then str1 (ch 34) ++s quote_body s ++s str1 (ch 34) else uni_quote s.
End case.
