(* ===== verification/GoStringsFacts.v ===== *)
(** * Lemmas on the Go string functions, shared by every component *)

From S2P Require Import Prelude GoStrings.
From Stdlib Require Import ZArith Lia ZifyBool Bool Ascii String.
From stdpp Require Import base option list gmap strings.

Open Scope go_scope.

(** ** Concatenation *)

Lemma sapp_assoc a b c : (a ++s b) ++s c = a ++s (b ++s c).
Proof. induction a as [|x a IH]; simpl; [done|by rewrite IH]. Qed.

Lemma sapp_nil_r a : a ++s "" = a.
Proof. induction a as [|x a IH]; simpl; [done|by rewrite IH]. Qed.

Lemma slength_app a b : String.length (a ++s b) = String.length a + String.length b.
Proof. induction a as [|x a IH]; simpl; [done|by rewrite IH]. Qed.

Lemma sapp_inj_l a b c : a ++s b = a ++s c → b = c.
Proof. induction a as [|x a IH]; simpl; [done|intros [= H]; auto]. Qed.

Lemma sapp_inj_len a b c d :
  String.length a = String.length c → a ++s b = c ++s d → a = c ∧ b = d.
Proof.
  revert c; induction a as [|x a IH]; intros [|y c]; simpl; try done.
  intros [= Hl] [= -> Hr]. destruct (IH _ Hl Hr) as [-> ->]. done.
Qed.

Lemma str1_app c s : str1 c ++s s = String c s.
Proof. done. Qed.

(** ** Bytes and case *)

Lemma byte_val_lt c : byte_val c < 256.
Proof. unfold byte_val. apply nat_ascii_bounded. Qed.

Lemma byte_val_ch n : n < 256 → byte_val (ch n) = n.
Proof. intros. unfold byte_val, ch. by apply nat_ascii_embedding. Qed.

Lemma ch_byte_val c : ch (byte_val c) = c.
Proof. apply ascii_nat_embedding. Qed.

Lemma byte_val_inj c d : byte_val c = byte_val d → c = d.
Proof. intros H. rewrite <- (ch_byte_val c), <- (ch_byte_val d). by rewrite H. Qed.

Lemma lower_byte_val c :
  byte_val (lower_byte c) =
  if is_upper_ascii c then byte_val c + 32 else byte_val c.
Proof.
  unfold lower_byte. destruct (is_upper_ascii c) eqn:E; [|done].
  rewrite byte_val_ch; [done|]. unfold is_upper_ascii in E.
  apply andb_true_iff in E as [_ E%Nat.leb_le]. lia.
Qed.

Lemma upper_byte_val c :
  byte_val (upper_byte c) =
  if is_lower_ascii c then byte_val c - 32 else byte_val c.
Proof.
  unfold upper_byte. destruct (is_lower_ascii c) eqn:E; [|done].
  rewrite byte_val_ch; [done|]. pose proof (byte_val_lt c). lia.
Qed.

(** Case analysis on the byte-range tests of the goal; each case ends in [lia],
    which knows the boolean comparisons. *)
Ltac byte_cases :=
  repeat match goal with
  | |- context [if ?b then _ else _] =>
      lazymatch b with context [if _ then _ else _] => fail | _ => destruct b eqn:? end
  end;
  unfold is_upper_ascii, is_lower_ascii, is_ascii_byte, is_digit in *;
  try done; lia.

Lemma lower_byte_idem c : lower_byte (lower_byte c) = lower_byte c.
Proof.
  apply byte_val_inj. rewrite lower_byte_val. unfold is_upper_ascii at 1.
  rewrite lower_byte_val. byte_cases.
Qed.

Lemma upper_byte_idem c : upper_byte (upper_byte c) = upper_byte c.
Proof.
  apply byte_val_inj. rewrite upper_byte_val. unfold is_lower_ascii at 1.
  rewrite upper_byte_val. byte_cases.
Qed.

Lemma lower_byte_ascii c : is_ascii_byte (lower_byte c) = is_ascii_byte c.
Proof. unfold is_ascii_byte. rewrite lower_byte_val. byte_cases. Qed.

Lemma upper_byte_ascii c : is_ascii_byte (upper_byte c) = is_ascii_byte c.
Proof. unfold is_ascii_byte. rewrite upper_byte_val. byte_cases. Qed.

Lemma lower_upper_byte c : lower_byte (upper_byte c) = lower_byte c.
Proof.
  apply byte_val_inj. rewrite !lower_byte_val. unfold is_upper_ascii.
  rewrite !upper_byte_val. byte_cases.
Qed.

(** ':' is fixed by both case maps and is the image of no other byte. *)
Lemma upper_byte_colon c : (":" =c? upper_byte c) = (":" =c? c).
Proof.
  destruct (Ascii.eqb_spec ":" c) as [<-|Hne]; [done|].
  destruct (Ascii.eqb_spec ":" (upper_byte c)) as [He|]; [|done].
  exfalso. apply Hne. apply (f_equal byte_val) in He.
  rewrite upper_byte_val in He. change (byte_val ":") with 58 in He.
  apply byte_val_inj. change (byte_val ":") with 58. revert He; byte_cases.
Qed.

Lemma lower_byte_colon c : (":" =c? lower_byte c)%char = (":" =c? c)%char.
Proof.
  destruct (Ascii.eqb_spec ":" c) as [<-|Hne]; [done|].
  apply Ascii.eqb_neq. intros He. apply Hne. apply (f_equal byte_val) in He.
  rewrite lower_byte_val in He. apply byte_val_inj.
  change (byte_val ":") with 58%nat in *. revert He; byte_cases.
Qed.

Lemma smap_app f a b : smap f (a ++s b) = smap f a ++s smap f b.
Proof. induction a as [|x a IH]; simpl; [done|by rewrite IH]. Qed.

Lemma smap_idem f s : (∀ c, f (f c) = f c) → smap f (smap f s) = smap f s.
Proof. intros Hf. induction s as [|x a IH]; simpl; [done|by rewrite Hf, IH]. Qed.

Lemma sforall_smap p f s : (∀ c, p (f c) = p c) → sforall p (smap f s) = sforall p s.
Proof. intros Hf. induction s as [|x a IH]; simpl; [done|by rewrite Hf, IH]. Qed.

Lemma sforall_app p a b : sforall p (a ++s b) = sforall p a && sforall p b.
Proof. induction a as [|x a IH]; simpl; [done|by rewrite IH, andb_assoc]. Qed.

Lemma sforall_impl (p q : ascii → bool) s :
  (∀ c, p c = true → q c = true) → sforall p s = true → sforall q s = true.
Proof.
  intros Hpq. induction s as [|x a IH]; simpl; [done|].
  intros [H1 H2]%andb_true_iff. by rewrite (Hpq _ H1), (IH H2).
Qed.

Section case_facts.
Context {U : GoUnicode}.

Lemma to_lower_is_ascii s : is_ascii s = true → to_lower s = smap lower_byte s.
Proof. unfold to_lower. by intros ->. Qed.

Lemma is_ascii_lower s : is_ascii s = true → is_ascii (to_lower s) = true.
Proof.
  intros H. rewrite (to_lower_is_ascii _ H). unfold is_ascii in *.
  by rewrite sforall_smap by apply lower_byte_ascii.
Qed.

Lemma to_lower_idem `{!GoUnicodeLaws U} s : to_lower (to_lower s) = to_lower s.
Proof.
  destruct (is_ascii s) eqn:E.
  - unfold to_lower at 1. rewrite is_ascii_lower by done.
    rewrite to_lower_is_ascii by done. by rewrite smap_idem by apply lower_byte_idem.
  - unfold to_lower. rewrite E. destruct (is_ascii (uni_lower s)) eqn:E2.
    + by apply uni_lower_ascii.
    + by apply uni_lower_idem.
Qed.

Lemma to_upper_idem `{!GoUnicodeLaws U} s : to_upper (to_upper s) = to_upper s.
Proof.
  destruct (is_ascii s) eqn:E.
  - unfold to_upper. rewrite E. unfold is_ascii in *.
    rewrite sforall_smap by apply upper_byte_ascii. rewrite E.
    by rewrite smap_idem by apply upper_byte_idem.
  - unfold to_upper. rewrite E. destruct (is_ascii (uni_upper s)) eqn:E2.
    + by apply uni_upper_ascii.
    + by apply uni_upper_idem.
Qed.

Lemma to_upper_colon `{!GoUnicodeLaws U} s :
  contains_byte ":" s = false → contains_byte ":" (to_upper s) = false.
Proof.
  unfold to_upper. destruct (is_ascii s).
  - induction s as [|c s IH]; cbn [smap contains_byte]; [done|].
    intros [Hc Hs]%orb_false_iff. rewrite upper_byte_colon, Hc. auto.
  - apply uni_upper_colon.
Qed.

Lemma to_lower_colon `{!GoUnicodeLaws U} s :
  contains_byte ":" s = false → contains_byte ":" (to_lower s) = false.
Proof.
  unfold to_lower. destruct (is_ascii s).
  - induction s as [|c s IH]; cbn [smap contains_byte]; [done|].
    intros [Hc Hs]%orb_false_iff. rewrite lower_byte_colon, Hc. auto.
  - apply uni_lower_colon.
Qed.
End case_facts.

#[export] Instance ascii_tables_laws : GoUnicodeLaws ascii_tables.
Proof.
  split; simpl; intros.
  - by rewrite smap_idem by apply lower_byte_idem.
  - by rewrite smap_idem by apply lower_byte_idem.
  - by rewrite smap_idem by apply upper_byte_idem.
  - by rewrite smap_idem by apply upper_byte_idem.
  - revert H. induction s as [|c s IH]; cbn [smap contains_byte]; [done|].
    intros [Hc Hs]%orb_false_iff. rewrite upper_byte_colon, Hc. auto.
  - revert H. induction s as [|c s IH]; cbn [smap contains_byte]; [done|].
    intros [Hc Hs]%orb_false_iff. rewrite lower_byte_colon, Hc. auto.
Qed.

(** ** Prefixes and slices *)

Lemma has_prefix_app p t : has_prefix (p ++s t) p = true.
Proof. induction p as [|c p IH]; simpl; [done|]. by rewrite Ascii.eqb_refl. Qed.

Lemma has_prefix_spec s p : has_prefix s p = true ↔ ∃ t, s = p ++s t.
Proof.
  split.
  - revert s; induction p as [|c p IH]; intros s; [by exists s|].
    destruct s as [|d s]; simpl; [done|].
    intros [->%Ascii.eqb_eq H]%andb_true_iff.
    destruct (IH _ H) as [t ->]. by exists t.
  - intros [t ->]. apply has_prefix_app.
Qed.

Lemma drop_str_app p t : drop_str (String.length p) (p ++s t) = t.
Proof. induction p; simpl; done. Qed.

Lemma drop_str_S_app p c t : drop_str (S (String.length p)) (p ++s String c t) = t.
Proof. induction p; simpl; done. Qed.

Lemma take_str_app p t : take_str (String.length p) (p ++s t) = p.
Proof. induction p as [|c p IH]; simpl; [done|by rewrite IH]. Qed.

Lemma trim_prefix_app p t : trim_prefix (p ++s t) p = t.
Proof. unfold trim_prefix. by rewrite has_prefix_app, drop_str_app. Qed.

Lemma take_drop_str n s : take_str n s ++s drop_str n s = s.
Proof.
  revert s; induction n as [|n IH]; intros [|c s]; simpl; rewrite ?IH; done.
Qed.

Lemma drop_str_length n s : String.length (drop_str n s) = String.length s - n.
Proof. revert s; induction n as [|n IH]; intros [|c s]; simpl; rewrite ?IH; done. Qed.

Lemma take_str_length n s : String.length (take_str n s) = min n (String.length s).
Proof. revert s; induction n as [|n IH]; intros [|c s]; simpl; rewrite ?IH; done. Qed.

Lemma has_suffix_app p t : has_suffix (t ++s p) p = true.
Proof.
  unfold has_suffix. rewrite slength_app.
  replace (String.length t + String.length p - String.length p) with (String.length t) by lia.
  rewrite drop_str_app. apply andb_true_iff; split; [apply Nat.leb_le; lia|apply String.eqb_refl].
Qed.

Lemma trim_suffix_app p t : trim_suffix (t ++s p) p = t.
Proof.
  unfold trim_suffix. rewrite has_suffix_app, slength_app.
  replace (String.length t + String.length p - String.length p) with (String.length t) by lia.
  apply take_str_app.
Qed.

(** ** IndexByte and Cut *)

Lemma index_byte_None s c : index_byte s c = None ↔ contains_byte c s = false.
Proof.
  induction s as [|d s IH]; simpl; [done|].
  destruct (c =c? d); simpl; [done|]. by rewrite fmap_None.
Qed.

Lemma index_byte_Some s c i :
  index_byte s c = Some i →
  ∃ a b, s = a ++s String c b ∧ String.length a = i ∧ contains_byte c a = false.
Proof.
  revert i; induction s as [|d s IH]; simpl; intros i; [done|].
  destruct (Ascii.eqb_spec c d) as [<-|Hne].
  - intros [= <-]. exists ""%string, s. done.
  - intros (j & Hj & ->)%fmap_Some. destruct (IH _ Hj) as (a & b & -> & <- & Ha).
    exists (String d a), b. split_and!; [done|done|]. simpl.
    rewrite Ha, orb_false_r. by apply Ascii.eqb_neq.
Qed.

Lemma index_byte_app a c b :
  contains_byte c a = false → index_byte (a ++s String c b) c = Some (String.length a).
Proof.
  induction a as [|d a IH]; simpl; [by rewrite Ascii.eqb_refl|].
  intros [-> H]%orb_false_iff. by rewrite IH.
Qed.

Lemma cut_byte_app a c b :
  contains_byte c a = false → cut_byte c (a ++s String c b) = (a, b, true).
Proof.
  intros H. unfold cut_byte. rewrite index_byte_app by done.
  rewrite take_str_app. f_equal; f_equal.
  change (String c b) with (str1 c ++s b). rewrite <- sapp_assoc.
  rewrite <- (drop_str_app (a ++s str1 c) b) at 2. rewrite slength_app. simpl.
  by rewrite Nat.add_1_r.
Qed.

Lemma cut_byte_true s c a b :
  cut_byte c s = (a, b, true) → s = a ++s String c b ∧ contains_byte c a = false.
Proof.
  unfold cut_byte. destruct (index_byte s c) as [i|] eqn:E; [|done].
  destruct (index_byte_Some _ _ _ E) as (x & y & -> & <- & Hx).
  intros H. assert (cut_byte c (x ++s String c y) = (a, b, true)) as H'.
  { unfold cut_byte. by rewrite E. }
  rewrite cut_byte_app in H' by done. by simplify_eq.
Qed.

Lemma contains_byte_app c a b : contains_byte c (a ++s b) = contains_byte c a || contains_byte c b.
Proof. induction a as [|d a IH]; simpl; [done|]. by rewrite IH, orb_assoc. Qed.

(** ** Split and Join *)

Lemma split_byte_not_nil sep s : split_byte sep s ≠ [].
Proof. destruct s as [|c s]; simpl; [done|]. case_if; [done|]. by destruct (split_byte sep s). Qed.

Lemma join_split sep s : join_str (str1 sep) (split_byte sep s) = s.
Proof.
  induction s as [|c s IH]; simpl; [done|].
  destruct (Ascii.eqb_spec sep c) as [<-|Hne].
  - destruct (split_byte sep s) eqn:E; [by destruct (split_byte_not_nil sep s)|].
    simpl in *. by rewrite IH.
  - destruct (split_byte sep s) as [|h t] eqn:E; [by destruct (split_byte_not_nil sep s)|].
    destruct t; simpl in *; by rewrite <- IH.
Qed.

Lemma split_byte_plain sep s : contains_byte sep s = false → split_byte sep s = [s].
Proof.
  induction s as [|c s IH]; simpl; [done|]. intros [-> H]%orb_false_iff. by rewrite IH.
Qed.

Lemma split_byte_app sep a b :
  contains_byte sep a = false → split_byte sep (a ++s String sep b) = a :: split_byte sep b.
Proof.
  induction a as [|c a IH]; simpl; [by rewrite Ascii.eqb_refl|].
  intros [-> H]%orb_false_iff. by rewrite IH.
Qed.

Lemma split_join sep l :
  l ≠ [] → Forall (λ x, contains_byte sep x = false) l →
  split_byte sep (join_str (str1 sep) l) = l.
Proof.
  induction l as [|x [|y l] IH]; intros Hne Hl; [done| |].
  - simpl. inversion Hl; subst. by apply split_byte_plain.
  - inversion Hl; subst. cbn [join_str]. rewrite str1_app.
    rewrite split_byte_app by done. f_equal. by apply IH.
Qed.

Lemma split_byte_Forall sep s : Forall (λ x, contains_byte sep x = false) (split_byte sep s).
Proof.
  induction s as [|c s IH]; simpl; [by repeat constructor|].
  destruct (sep =c? c) eqn:E; [by constructor|].
  destruct (split_byte sep s); inversion IH; subst; constructor; simpl; rewrite ?E; done.
Qed.

(** ** White space *)

(** A printable ASCII byte that is not a blank. *)
Definition is_plain (c : ascii) : bool := (33 <=? byte_val c) && (byte_val c <=? 126).

Lemma space_width_plain c s : is_plain c = true → space_width (String c s) = 0.
Proof.
  unfold is_plain. intros [H1%Nat.leb_le H2%Nat.leb_le]%andb_true_iff.
  cbn [space_width].
  rewrite (proj2 (Nat.leb_gt (byte_val c) 13)) by lia.
  rewrite (proj2 (Nat.eqb_neq (byte_val c) 32)) by lia.
  rewrite (proj2 (Nat.eqb_neq (byte_val c) 194)) by lia.
  rewrite (proj2 (Nat.eqb_neq (byte_val c) 225)) by lia.
  rewrite (proj2 (Nat.eqb_neq (byte_val c) 226)) by lia.
  rewrite (proj2 (Nat.eqb_neq (byte_val c) 227)) by lia.
  rewrite andb_false_r. simpl. destruct s as [|b [|d s]]; done.
Qed.

Lemma is_plain_cases c :
  is_plain c = true → byte_val c < 128 ∧ ∀ n, n = 133 ∨ n = 160 ∨ n ≥ 128 → byte_val c ≠ n.
Proof.
  unfold is_plain. intros [H1%Nat.leb_le H2%Nat.leb_le]%andb_true_iff.
  split; [lia|]. intros n [->|[->|?]]; lia.
Qed.

Lemma space_width_2_last b c s : is_plain c = true → space_width (String b (String c s)) ≠ 2.
Proof.
  intros (Hc & Hn)%is_plain_cases. cbn [space_width].
  rewrite (proj2 (Nat.eqb_neq (byte_val c) 133)) by (apply Hn; auto).
  rewrite (proj2 (Nat.eqb_neq (byte_val c) 160)) by (apply Hn; auto).
  rewrite andb_false_r. case_if; [done|]. destruct s; [done|]. by case_if.
Qed.

Lemma space_width_3_last a b c s :
  is_plain c = true → space_width (String a (String b (String c s))) ≠ 3.
Proof.
  intros (Hc & Hn)%is_plain_cases. cbn [space_width].
  case_if; [done|]. case_if; [done|].
  rewrite !(proj2 (Nat.eqb_neq (byte_val c) _)) by (apply Hn; lia).
  rewrite (proj2 (Nat.leb_gt 128 (byte_val c))) by lia.
  by rewrite !andb_false_r.
Qed.

Lemma space_width_rev_plain c r : is_plain c = true → space_width_rev (String c r) = 0.
Proof.
  intros Hc. cbn [space_width_rev]. unfold str1. rewrite space_width_plain by done. cbn [Nat.eqb].
  destruct r as [|b [|a r]]; [done| |].
  - rewrite (proj2 (Nat.eqb_neq _ 2)) by by apply space_width_2_last. by cbn [Nat.eqb].
  - rewrite (proj2 (Nat.eqb_neq _ 2)) by by apply space_width_2_last.
    by rewrite (proj2 (Nat.eqb_neq _ 3)) by by apply space_width_3_last.
Qed.

Lemma srev_app_spec s acc : srev_app s acc = srev s ++s acc.
Proof.
  unfold srev. revert acc. induction s as [|c s IH]; intros acc; simpl; [done|].
  rewrite IH, (IH (String c "")). by rewrite sapp_assoc.
Qed.

Lemma srev_cons c s : srev (String c s) = srev s ++s str1 c.
Proof. unfold srev at 1. simpl. apply srev_app_spec. Qed.

Lemma srev_app_distr a b : srev (a ++s b) = srev b ++s srev a.
Proof.
  induction a as [|c a IH]; simpl; [by rewrite sapp_nil_r|].
  by rewrite !srev_cons, IH, sapp_assoc.
Qed.

Lemma srev_involutive s : srev (srev s) = s.
Proof. induction s as [|c s IH]; [done|]. by rewrite srev_cons, srev_app_distr, IH. Qed.

Lemma sforall_srev p s : sforall p (srev s) = sforall p s.
Proof.
  induction s as [|c s IH]; [done|]. rewrite srev_cons, sforall_app, IH. simpl.
  by rewrite andb_true_r, andb_comm.
Qed.

(** [TrimSpace] is the identity on strings of printable non-blank ASCII. *)
Lemma trim_space_plain s : sforall is_plain s = true → trim_space s = s.
Proof.
  intros H. unfold trim_space, trim_left_space.
  assert (trim_left_by space_width 0 s = s) as ->.
  { destruct s as [|c s]; [done|]. simpl in H. apply andb_true_iff in H as [Hc _].
    cbn [trim_left_by]. by rewrite space_width_plain. }
  unfold trim_right_space.
  assert (trim_left_by space_width_rev 0 (srev s) = srev s) as ->.
  { rewrite <- sforall_srev in H. destruct (srev s) as [|c r]; [done|]. simpl in H.
    apply andb_true_iff in H as [Hc _]. cbn [trim_left_by]. by rewrite space_width_rev_plain. }
  apply srev_involutive.
Qed.

(** ** Lexicographic order *)

Lemma str_ltb_irrefl s : str_ltb s s = false.
Proof. induction s as [|c s IH]; simpl; [done|]. by rewrite Ascii.eqb_refl. Qed.

Lemma str_ltb_trans a b c : str_ltb a b = true → str_ltb b c = true → str_ltb a c = true.
Proof.
  revert b c; induction a as [|x a IH]; intros [|y b] [|z c]; simpl; try done.
  destruct (Ascii.eqb_spec x y) as [->|Hxy].
  - destruct (y =c? z); [apply IH|done].
  - destruct (Ascii.eqb_spec y z) as [->|Hyz].
    + rewrite (proj2 (Ascii.eqb_neq x z)) by done. done.
    + rewrite !Nat.ltb_lt. intros. rewrite (proj2 (Ascii.eqb_neq x z)).
      * apply Nat.ltb_lt. lia.
      * intros ->. lia.
Qed.

Lemma str_ltb_total a b : str_ltb a b = false → str_ltb b a = false → a = b.
Proof.
  revert b; induction a as [|x a IH]; intros [|y b]; simpl; try done.
  rewrite (Ascii.eqb_sym y x). destruct (Ascii.eqb_spec x y) as [<-|Hxy].
  - intros. f_equal. eauto.
  - rewrite !Nat.ltb_ge. intros. destruct Hxy. apply byte_val_inj. lia.
Qed.

#[export] Hint Resolve has_prefix_app str_ltb_irrefl split_byte_not_nil : go.
#[export] Hint Rewrite sapp_assoc sapp_nil_r slength_app trim_prefix_app drop_str_app
  take_str_app srev_involutive : go_rw.
