(* ===== verification/Strconv.v ===== *)
(** * The parts of Go's [strconv] and [encoding/binary] the servers use

    [ParseUint]/[ParseInt]/[Atoi] in base 10 and 64 bits with their overflow
    handling, [FormatInt], and the big-endian byte encodings. *)

From S2P Require Import Prelude GoStrings GoStringsFacts.
From Stdlib Require Import ZArith Lia ZifyBool Bool Ascii String.
From stdpp Require Import base option list gmap strings.

Open Scope go_scope.
Open Scope Z_scope.

(** ** Machine integers *)

Definition max_u64 : Z := 18446744073709551615.
Definition max_i64 : Z := 9223372036854775807.
Definition min_i64 : Z := -9223372036854775808.
Definition in_i64 (z : Z) : Prop := min_i64 ≤ z ≤ max_i64.

(** Range side conditions on closed integers. *)
Ltac solve_i64 := split; vm_compute; discriminate.

(** Wrap-around of 64-bit arithmetic. *)
Definition wrap_u64 (z : Z) : Z := z mod 18446744073709551616.
Definition wrap_i64 (z : Z) : Z :=
  (z + 9223372036854775808) mod 18446744073709551616 - 9223372036854775808.

(** ** Parsing *)

Inductive num_error := ErrSyntax | ErrRange.

Definition digit_val (c : ascii) : option Z :=
  if is_digit c then Some (Z.of_nat (byte_val c) - 48) else None.

(** The digit loop of [strconv.ParseUint(s, 10, 64)]: a bad byte is a syntax
    error, an overflow returns the maximum at once. *)
Fixpoint parse_uint_loop (n : Z) (s : string) : Z * option num_error :=
  match s with
  | EmptyString => (n, None)
  | String c s' =>
      match digit_val c with
      | None => (0, Some ErrSyntax)
      | Some d =>
          if max_u64 / 10 + 1 <=? n then (max_u64, Some ErrRange)
          else if max_u64 <? n * 10 + d then (max_u64, Some ErrRange)
          else parse_uint_loop (n * 10 + d) s'
      end
  end.

Definition parse_uint (s : string) : Z * option num_error :=
  match s with
  | EmptyString => (0, Some ErrSyntax)
  | _ => parse_uint_loop 0 s
  end.

(** [strconv.ParseInt(s, 10, 64)]; [strconv.Atoi] returns the same pair on a
    64-bit platform. *)
Definition parse_int (s : string) : Z * option num_error :=
  match s with
  | EmptyString => (0, Some ErrSyntax)
  | String c s' =>
      let neg := (c =c? "-")%char in
      let body := if neg || (c =c? "+")%char then s' else s in
      let '(un, err) := parse_uint body in
      match err with
      | Some ErrSyntax => (0, Some ErrSyntax)
      | _ =>
          if negb neg && (9223372036854775808 <=? un) then (max_i64, Some ErrRange)
          else if neg && (9223372036854775808 <? un) then (min_i64, Some ErrRange)
          else (if neg then - un else un, None)
      end
  end.
Definition atoi := parse_int.

(** ** Formatting *)

Definition digit_char (d : Z) : ascii := ch (Z.to_nat (d + 48)).

Fixpoint dec_digits (fuel : nat) (n : Z) (acc : string) : string :=
  match fuel with
  | O => acc
  | S f =>
      let acc' := String (digit_char (n mod 10)) acc in
      if n <? 10 then acc' else dec_digits f (n / 10) acc'
  end.

(** Enough fuel: one step per binary digit. *)
Definition format_uint (n : Z) : string := dec_digits (S (Z.to_nat (Z.log2 n))) n "".

(** [strconv.FormatInt(n, 10)] *)
Definition format_int (n : Z) : string :=
  if n <? 0 then String "-" (format_uint (- n)) else format_uint n.

(** ** Big-endian encodings ([binary.BigEndian.PutUint32], [PutUint64], [Uint32]) *)

Fixpoint be_bytes (k : nat) (n : Z) : string :=
  match k with
  | O => ""
  | S k' => String (ch (Z.to_nat ((n / 256 ^ Z.of_nat k') mod 256))) (be_bytes k' n)
  end.

Fixpoint be_val_go (acc : Z) (s : string) : Z :=
  match s with
  | EmptyString => acc
  | String c s' => be_val_go (acc * 256 + Z.of_nat (byte_val c)) s'
  end.
Definition be_val (s : string) : Z := be_val_go 0 s.

Definition put_u32 (n : Z) : string := be_bytes 4 (n mod 4294967296).
Definition put_u64 (n : Z) : string := be_bytes 8 (wrap_u64 n).

(** ** Round trips *)

Lemma digit_val_char d : 0 ≤ d < 10 → digit_val (digit_char d) = Some d.
Proof.
  intros H. unfold digit_val, digit_char, is_digit. rewrite byte_val_ch by lia.
  replace ((48 <=? Z.to_nat (d + 48))%nat && (Z.to_nat (d + 48) <=? 57)%nat) with true by lia.
  f_equal. lia.
Qed.

Lemma digit_char_plain d : 0 ≤ d < 10 → is_digit (digit_char d) = true.
Proof.
  intros H. unfold digit_char, is_digit. rewrite byte_val_ch by lia. lia.
Qed.

(** The value the digit loop reads from the digits of [n] put before [acc]. *)
Lemma parse_dec_digits fuel n acc m :
  0 ≤ n < 2 ^ Z.of_nat fuel → (0 < fuel)%nat → 0 ≤ m →
  (∀ k, 0 ≤ k → n < 10 ^ k → (10 ^ (k - 1) ≤ n ∨ k = 1) → m * 10 ^ k + n ≤ max_u64) →
  ∃ k, 1 ≤ k ∧ n < 10 ^ k ∧ (10 ^ (k - 1) ≤ n ∨ k = 1) ∧
       parse_uint_loop m (dec_digits fuel n acc) = parse_uint_loop (m * 10 ^ k + n) acc.
Proof.
  revert n acc m. induction fuel as [|f IH]; intros n acc m Hn Hf Hm Hb; [lia|].
  cbn [dec_digits]. destruct (Z.ltb_spec n 10) as [Hlt|Hge].
  - exists 1. rewrite Z.mod_small by lia. split_and!; [lia|lia|by right|].
    cbn [parse_uint_loop]. rewrite digit_val_char by lia.
    specialize (Hb 1 ltac:(lia) ltac:(lia) ltac:(auto)).
    change (10 ^ 1) with 10 in *. unfold max_u64 in *.
    replace (18446744073709551615 / 10 + 1 <=? m) with false.
    2:{ symmetry. change (18446744073709551615 / 10 + 1) with 1844674407370955162. lia. }
    replace (18446744073709551615 <? m * 10 + n) with false by lia. done.
  - assert (f ≠ 0%nat) by (intros ->; change (2 ^ Z.of_nat 1) with 2 in Hn; lia).
    assert (0 ≤ n / 10 < 2 ^ Z.of_nat f) as Hq.
    { rewrite Nat2Z.inj_succ, Z.pow_succ_r in Hn by lia.
      split; [apply Z.div_pos; lia|]. apply Z.div_lt_upper_bound; lia. }
    pose proof (Z.mod_pos_bound n 10 ltac:(lia)) as Hr.
    pose proof (Z.div_mod n 10 ltac:(lia)) as Hdm.
    assert (∀ k, 0 ≤ k → 10 ^ (k + 1) = 10 * 10 ^ k) as Hp.
    { intros k Hk. rewrite Z.pow_add_r by lia. lia. }
    destruct (IH (n / 10) (String (digit_char (n mod 10)) acc) m) as (k & Hk1 & Hk2 & Hk3 & Hk4);
      [done|lia|done| |].
    { intros k Hk H1 H2. specialize (Hb (k + 1) ltac:(lia)).
      rewrite Hp in Hb by lia. replace (k + 1 - 1) with k in Hb by lia.
      assert (10 ^ k ≤ n ∨ k + 1 = 1) as H3.
      { destruct H2 as [H2| ->].
        - left. destruct (Z.eq_dec k 0) as [->|]; [simpl in *; lia|].
          replace k with (k - 1 + 1) by lia. rewrite Hp by lia. lia.
        - left. change (10 ^ 1) with 10. lia. }
      specialize (Hb ltac:(lia) H3). nia. }
    exists (k + 1). rewrite Hp by lia. replace (k + 1 - 1) with k by lia.
    split_and!; [lia|lia| |].
    { left. destruct Hk3 as [Hk3| ->].
      - replace k with (k - 1 + 1) by lia. rewrite Hp by lia. lia.
      - change (10 ^ 1) with 10. lia. }
    rewrite Hk4. cbn [parse_uint_loop]. rewrite digit_val_char by lia.
    specialize (Hb (k + 1) ltac:(lia)). rewrite Hp in Hb by lia.
    replace (k + 1 - 1) with k in Hb by lia.
    assert (m * (10 * 10 ^ k) + n ≤ max_u64) as Hfin.
    { apply Hb; [lia|]. left. destruct Hk3 as [Hk3| ->].
      - replace k with (k - 1 + 1) by lia. rewrite Hp by lia. lia.
      - change (10 ^ 1) with 10. lia. }
    unfold max_u64 in *.
    change (18446744073709551615 / 10 + 1) with 1844674407370955162.
    assert (0 < 10 ^ k) by (apply Z.pow_pos_nonneg; lia).
    replace (1844674407370955162 <=? m * 10 ^ k + n / 10) with false by lia.
    replace (18446744073709551615 <? (m * 10 ^ k + n / 10) * 10 + n mod 10) with false by lia.
    f_equal. lia.
Qed.

Lemma dec_digits_nonempty fuel n acc : (0 < fuel)%nat → dec_digits fuel n acc ≠ ""%string.
Proof.
  revert n acc. induction fuel as [|f IH]; intros n acc H; [lia|]. cbn [dec_digits].
  case_if; [done|]. destruct f; [done|]. apply IH. lia.
Qed.

Lemma format_uint_fuel n : 0 ≤ n → 0 ≤ n < 2 ^ Z.of_nat (S (Z.to_nat (Z.log2 n))).
Proof.
  intros Hn. split; [done|]. rewrite Nat2Z.inj_succ, Z2Nat.id by apply Z.log2_nonneg.
  destruct (Z.eq_dec n 0) as [->|]; [by vm_compute|]. apply Z.log2_spec. lia.
Qed.

Lemma parse_uint_format n : 0 ≤ n ≤ max_u64 → parse_uint (format_uint n) = (n, None).
Proof.
  intros H. unfold parse_uint, format_uint.
  pose proof (format_uint_fuel n ltac:(lia)) as Hf.
  destruct (parse_dec_digits (S (Z.to_nat (Z.log2 n))) n "" 0) as (k & _ & _ & _ & Hk);
    [done|lia|lia|intros; lia|].
  destruct (dec_digits _ n "") eqn:E.
  - by apply dec_digits_nonempty in E; [|lia].
  - by rewrite Hk.
Qed.

(** Every byte of a printed number is a digit. *)
Lemma dec_digits_digits fuel n acc :
  sforall is_digit acc = true → sforall is_digit (dec_digits fuel n acc) = true.
Proof.
  revert n acc. induction fuel as [|f IH]; intros n acc H; cbn [dec_digits]; [done|].
  assert (sforall is_digit (String (digit_char (n mod 10)) acc) = true) as H'.
  { cbn [sforall]. rewrite digit_char_plain, H; [done|]. apply Z.mod_pos_bound. lia. }
  case_if; auto.
Qed.

Lemma format_uint_digits n : sforall is_digit (format_uint n) = true.
Proof. by apply dec_digits_digits. Qed.

Lemma format_uint_nonempty n : format_uint n ≠ ""%string.
Proof. apply dec_digits_nonempty. lia. Qed.

Lemma digits_plain s : sforall is_digit s = true → sforall is_plain s = true.
Proof. apply sforall_impl. intros c. unfold is_digit, is_plain. lia. Qed.

Lemma format_int_plain i : sforall is_plain (format_int i) = true.
Proof.
  unfold format_int. destruct (i <? 0); [|by apply digits_plain, format_uint_digits].
  cbn [sforall]. apply andb_true_iff. split; [done|]. apply digits_plain, format_uint_digits.
Qed.

(** A printed number holds only digits and '-'. *)
Lemma format_int_no_byte c n :
  is_digit c = false → c ≠ "-"%char → contains_byte c (format_int n) = false.
Proof.
  intros Hc Hm.
  assert (∀ s, sforall is_digit s = true → contains_byte c s = false) as Hd.
  { induction s as [|d s IH]; simpl; [done|]. intros [H1 H2]%andb_true_iff.
    rewrite IH by done. destruct (Ascii.eqb_spec c d) as [->|]; [congruence|done]. }
  unfold format_int. case_if; cbn [contains_byte].
  - rewrite Hd by apply format_uint_digits. rewrite (proj2 (Ascii.eqb_neq c "-"%char)); done.
  - apply Hd, format_uint_digits.
Qed.

Lemma parse_int_format n : in_i64 n → parse_int (format_int n) = (n, None).
Proof.
  unfold in_i64, min_i64, max_i64. intros H. unfold format_int, parse_int.
  destruct (Z.ltb_spec n 0) as [Hn|Hn].
  - change (("-" =c? "-")%char) with true. cbn [orb negb andb].
    rewrite parse_uint_format by (unfold max_u64; lia).
    replace (9223372036854775808 <? - n) with false by lia. f_equal. lia.
  - pose proof (format_uint_digits n) as Hd. pose proof (format_uint_nonempty n) as Hne.
    destruct (format_uint n) as [|c s] eqn:E; [done|]. simpl in Hd.
    apply andb_true_iff in Hd as [Hc _].
    rewrite (proj2 (Ascii.eqb_neq c "-"%char)) by (intros ->; done).
    rewrite (proj2 (Ascii.eqb_neq c "+"%char)) by (intros ->; done).
    cbn [orb negb andb]. rewrite <- E, parse_uint_format by (unfold max_u64; lia).
    by replace (9223372036854775808 <=? n) with false by lia.
Qed.

Lemma format_int_inj n m : in_i64 n → in_i64 m → format_int n = format_int m → n = m.
Proof.
  intros Hn Hm H. apply (f_equal parse_int) in H. rewrite !parse_int_format in H by done.
  by simplify_eq.
Qed.

(** [parse_int] answers inside the 64-bit range, on errors too. *)
Lemma wrap_i64_bounds z : in_i64 (wrap_i64 z).
Proof.
  unfold wrap_i64, in_i64, min_i64, max_i64.
  pose proof (Z.mod_pos_bound (z + 9223372036854775808) 18446744073709551616 eq_refl). lia.
Qed.

(** The wrapped value as an unknown congruent integer in range, for [lia]. *)
Lemma wrap_i64_spec z :
  ∃ k, wrap_i64 z = z - k * 18446744073709551616 ∧ in_i64 (wrap_i64 z).
Proof.
  exists ((z + 9223372036854775808) / 18446744073709551616).
  split; [|apply wrap_i64_bounds]. unfold wrap_i64.
  pose proof (Z.div_mod (z + 9223372036854775808) 18446744073709551616). lia.
Qed.

Lemma wrap_i64_id z : in_i64 z → wrap_i64 z = z.
Proof. unfold wrap_i64, in_i64, min_i64, max_i64. intros ?. rewrite Z.mod_small; lia. Qed.

Lemma wrap_i64_add a b : wrap_i64 (wrap_i64 a + b) = wrap_i64 (a + b).
Proof.
  unfold wrap_i64. f_equal.
  replace ((a + 9223372036854775808) mod 18446744073709551616 - 9223372036854775808 + b
           + 9223372036854775808)
    with ((a + 9223372036854775808) mod 18446744073709551616 + b) by lia.
  rewrite Zplus_mod_idemp_l. f_equal. lia.
Qed.

Lemma parse_uint_loop_bounds n s :
  0 ≤ n ≤ max_u64 → 0 ≤ (parse_uint_loop n s).1 ≤ max_u64.
Proof.
  unfold max_u64. revert n. induction s as [|c s IH]; intros n Hn; cbn [parse_uint_loop]; [done|].
  unfold digit_val. case_if; [|simpl; lia].
  unfold is_digit in Eif. pose proof (byte_val_lt c). unfold max_u64.
  repeat case_if; simpl; try lia. apply IH. lia.
Qed.

Lemma parse_int_bounds s : in_i64 (parse_int s).1.
Proof.
  unfold in_i64, min_i64, max_i64, parse_int. destruct s as [|c s]; [simpl; lia|].
  set (body := if _ || _ then s else String c s). clearbody body.
  assert (0 ≤ (parse_uint body).1 ≤ max_u64).
  { unfold parse_uint. destruct body; [unfold max_u64; simpl; lia|].
    apply parse_uint_loop_bounds. unfold max_u64; lia. }
  destruct (parse_uint body) as [un err]. simpl in *. unfold max_i64, min_i64.
  destruct err as [[]|]; simpl; destruct (c =c? "-")%char; simpl; repeat case_if; simpl; lia.
Qed.

Lemma be_bytes_length k n : String.length (be_bytes k n) = k.
Proof. induction k as [|k IH]; simpl; [done|by rewrite IH]. Qed.

Lemma be_val_go_bytes k n acc s :
  0 ≤ n → be_val_go acc (be_bytes k n ++s s) =
          be_val_go (acc * 256 ^ Z.of_nat k + n mod 256 ^ Z.of_nat k) s.
Proof.
  intros Hn. revert acc. induction k as [|k IH]; intros acc.
  - simpl. rewrite Z.mod_1_r. f_equal. lia.
  - cbn [be_bytes String.append be_val_go].
    assert (0 < 256 ^ Z.of_nat k) by (apply Z.pow_pos_nonneg; lia).
    pose proof (Z.mod_pos_bound (n / 256 ^ Z.of_nat k) 256 ltac:(lia)).
    rewrite byte_val_ch by lia. rewrite Z2Nat.id by lia. rewrite IH.
    rewrite Nat2Z.inj_succ, Z.pow_succ_r by lia. f_equal.
    rewrite (Z.mul_comm 256 (256 ^ Z.of_nat k)).
    rewrite (Z.rem_mul_r n (256 ^ Z.of_nat k) 256) by lia. lia.
Qed.

Lemma be_val_put_u32 n : 0 ≤ n < 4294967296 → be_val (put_u32 n) = n.
Proof.
  intros H. unfold be_val, put_u32. rewrite Z.mod_small by lia.
  rewrite <- (sapp_nil_r (be_bytes 4 n)), be_val_go_bytes by lia. simpl be_val_go.
  change (256 ^ Z.of_nat 4) with 4294967296. rewrite Z.mod_small; lia.
Qed.

Lemma put_u32_inj n m :
  0 ≤ n < 4294967296 → 0 ≤ m < 4294967296 → put_u32 n = put_u32 m → n = m.
Proof. intros Hn Hm H. apply (f_equal be_val) in H. by rewrite !be_val_put_u32 in H. Qed.

Lemma put_u64_inj n m : in_i64 n → in_i64 m → put_u64 n = put_u64 m → n = m.
Proof.
  unfold in_i64, min_i64, max_i64, put_u64, wrap_u64. intros Hn Hm H.
  pose proof (Z.mod_pos_bound n 18446744073709551616 ltac:(lia)).
  pose proof (Z.mod_pos_bound m 18446744073709551616 ltac:(lia)).
  apply (f_equal be_val) in H. unfold be_val in H.
  rewrite <- (sapp_nil_r (be_bytes 8 (n mod _))), <- (sapp_nil_r (be_bytes 8 (m mod _))) in H.
  rewrite !be_val_go_bytes in H by lia. simpl be_val_go in H.
  change (256 ^ Z.of_nat 8) with 18446744073709551616 in H.
  rewrite !Z.mod_mod in H by lia.
  apply (f_equal wrap_i64) in H. unfold wrap_i64 in H.
  rewrite !Z.add_0_l, !Zplus_mod_idemp_l in H.
  rewrite !Z.mod_small in H by lia. lia.
Qed.

Lemma put_u32_length n : String.length (put_u32 n) = 4%nat.
Proof. apply be_bytes_length. Qed.
Lemma put_u64_length n : String.length (put_u64 n) = 8%nat.
Proof. apply be_bytes_length. Qed.
