(* ===== verification/Hardware.v ===== *)
(** * pkg/setup: hardware specifications and service records

    The wire records [setup.HardwareSpec] and [setup.ServiceInfo], the
    stable/volatile views of a hardware snapshot and the FNV-1a fingerprint
    that the node and the rendezvous server must agree on.  A Go [float64] is a
    [spec_float] (the Standard Library's executable IEEE-754 model); a nil
    slice or pointer is [None]. *)

From S2P Require Import Prelude GoStrings GoStringsFacts Strconv.
From Stdlib Require Import ZArith Lia ZifyBool Bool Ascii String SpecFloat.
From stdpp Require Import base option list gmap strings.

Open Scope go_scope.
Open Scope Z_scope.

Abbreviation float64 := spec_float.
Definition f_zero : float64 := S754_zero false.

(** [strconv.ParseFloat(s, 64)]; [None] is an error. *)
Class ParseFloat := { parse_float : string → option float64 }.

(** pkg/setup/detect.go:225-230 [CPUSpec] *)
Record CPUSpec := mkCPU {
  cpu_Name : string; cpu_Cores : Z; cpu_ClockMHz : float64; cpu_TempC : Z
}.

(** pkg/setup/detect.go:233-240 [GPUSpec] *)
Record GPUSpec := mkGPU {
  gpu_Name : string; gpu_Driver : string; gpu_VramTotalGB : float64;
  gpu_TempC : Z; gpu_UtilPct : Z; gpu_VramFreeGB : float64
}.

(** pkg/setup/detect.go:243-246 [RAMSpec] *)
Record RAMSpec := mkRAM { ram_TotalGB : float64; ram_FreeGB : float64 }.

(** pkg/setup/detect.go:249-253 [HardwareSpec] *)
Record HardwareSpec := mkHW {
  hw_CPUs : option (list CPUSpec); hw_GPUs : option (list GPUSpec); hw_RAM : option RAMSpec
}.

(** A nil slice ranges like an empty one. *)
Definition range {A} (l : option (list A)) : list A := default [] l.

(** pkg/setup/detect.go:346-400 [ServiceInfo] *)
Record ServiceInfo := mkSvc {
  svc_Name : string; svc_Type : string; svc_Engine : string; svc_Launcher : string;
  svc_Version : string; svc_BinHash : string;
  svc_Model : string; svc_ModelHash : string; svc_ModelOriginURL : string;
  svc_ServerReady : bool; svc_ServerLoading : bool;
  svc_ChildPID : Z; svc_ChildName : string;
  svc_QueueDepth : Z; svc_Progress : Z; svc_EstimatedWaitSec : option Z;
  svc_LastJobAt : Z; svc_TotalJobsDone : Z; svc_AvgJobSec : option Z;
  svc_MaxQueue : Z; svc_Concurrency : Z; svc_QueueDisabled : bool;
  svc_Inspect : option (gmap string string);
  svc_InspectLabels : option (gmap string string);
  svc_InspectOrder : option (list string)
}.

(** The zero value of the struct with its name set. *)
Definition named_service (name : string) : ServiceInfo :=
  mkSvc name "" "" "" "" "" "" "" "" false false 0 "" 0 0 None 0 0 None 0 0 false None None None.

(** The per-element copies of the two views. *)
Definition stable_cpu (c : CPUSpec) : CPUSpec := mkCPU (cpu_Name c) (cpu_Cores c) (cpu_ClockMHz c) 0.
Definition stable_gpu (g : GPUSpec) : GPUSpec :=
  mkGPU (gpu_Name g) (gpu_Driver g) (gpu_VramTotalGB g) 0 0 f_zero.
Definition volatile_cpu (c : CPUSpec) : CPUSpec := mkCPU "" 0 f_zero (cpu_TempC c).
Definition volatile_gpu (g : GPUSpec) : GPUSpec :=
  mkGPU "" "" f_zero (gpu_TempC g) (gpu_UtilPct g) (gpu_VramFreeGB g).

(** pkg/setup/detect.go:504-527 [StableHardware] *)
Definition StableHardware (hw : option HardwareSpec) : option HardwareSpec :=
  match hw with
  | None => None
  | Some h =>
      Some (mkHW (option_map (map stable_cpu) (hw_CPUs h))
                 (option_map (map stable_gpu) (hw_GPUs h))
                 (option_map (λ r, mkRAM (ram_TotalGB r) f_zero) (hw_RAM h)))
  end.

(** pkg/setup/detect.go:531-554 [VolatileHardware] *)
Definition VolatileHardware (hw : option HardwareSpec) : option HardwareSpec :=
  match hw with
  | None => None
  | Some h =>
      Some (mkHW (option_map (map volatile_cpu) (hw_CPUs h))
                 (option_map (map volatile_gpu) (hw_GPUs h))
                 (option_map (λ r, mkRAM f_zero (ram_FreeGB r)) (hw_RAM h)))
  end.

(** The index loop [for i := range xs { if i < len(ys) { xs[i] = f xs[i] ys[i] } }]. *)
Fixpoint merge_range {A} (f : A → A → A) (xs ys : list A) : list A :=
  match xs, ys with
  | x :: xs', y :: ys' => f x y :: merge_range f xs' ys'
  | _, _ => xs
  end.

(** Overwriting the volatile fields of one CPU or GPU. *)
Definition merge_cpu (c d : CPUSpec) : CPUSpec :=
  mkCPU (cpu_Name c) (cpu_Cores c) (cpu_ClockMHz c) (cpu_TempC d).
Definition merge_gpu (g d : GPUSpec) : GPUSpec :=
  mkGPU (gpu_Name g) (gpu_Driver g) (gpu_VramTotalGB g)
        (gpu_TempC d) (gpu_UtilPct d) (gpu_VramFreeGB d).

(** pkg/setup/detect.go:557-576 [MergeHardware]: the updated [stable]. *)
Definition MergeHardware (stable vol : option HardwareSpec) : option HardwareSpec :=
  match stable, vol with
  | Some s, Some v =>
      Some (mkHW
        (option_map (λ cpus, merge_range merge_cpu cpus (range (hw_CPUs v))) (hw_CPUs s))
        (option_map (λ gpus, merge_range merge_gpu gpus (range (hw_GPUs v))) (hw_GPUs s))
        (match hw_RAM s, hw_RAM v with
         | Some r, Some r' => Some (mkRAM (ram_TotalGB r) (ram_FreeGB r'))
         | r, _ => r
         end))
  | s, _ => s
  end.

(** ** The FNV-1a fingerprint *)

Definition fnv_offset : Z := 14695981039346656037.
Definition fnv_prime : Z := 1099511628211.

Fixpoint fnv1a (h : Z) (data : string) : Z :=
  match data with
  | EmptyString => h
  | String b data' => fnv1a (wrap_u64 (Z.lxor h (Z.of_nat (byte_val b)) * fnv_prime)) data'
  end.

Definition hex_digit (d : Z) : ascii :=
  if d <? 10 then ch (Z.to_nat (d + 48)) else ch (Z.to_nat (d + 87)).

(** [fmt.Sprintf("%016x", h)] of a 64-bit value. *)
Fixpoint hex_fixed (k : nat) (h : Z) : string :=
  match k with
  | O => ""
  | S k' => String (hex_digit (Z.land (Z.shiftr h (4 * Z.of_nat k')) 15)) (hex_fixed k' h)
  end.

(** [json.Marshal] of a hardware record; [None] is a marshalling error. *)
Class HardwareJSON := { marshal_hardware : HardwareSpec → option string }.

Section hash.
Context {J : HardwareJSON}.

(** pkg/setup/detect.go:260-276 [HashHardware] *)
Definition HashHardware (hw : option HardwareSpec) : string :=
  match hw with
  | None => ""
  | Some h => match marshal_hardware h with
              | None => ""
              | Some data => hex_fixed 16 (fnv1a fnv_offset data)
              end
  end.

(** pkg/rendezvous/session.go:20-36 [hashHardwareForVerify] *)
Definition hashHardwareForVerify (hw : option HardwareSpec) : string :=
  match hw with
  | None => ""
  | Some h => match marshal_hardware h with
              | None => ""
              | Some data => hex_fixed 16 (fnv1a fnv_offset data)
              end
  end.
End hash.

(** pkg/rendezvous/server.go:1059-1069 [hasGPUName] *)
Definition hasGPUName {U : GoUnicode} (hw : option HardwareSpec) (needle : string) : bool :=
  match hw with
  | None => false
  | Some h => existsb (λ g, contains_str (to_lower (gpu_Name g)) needle) (range (hw_GPUs h))
  end.

(** pkg/rendezvous/server.go:1072-1083 [maxGPUVRAM] *)
Definition maxGPUVRAM (hw : option HardwareSpec) : float64 :=
  match hw with
  | None => f_zero
  | Some h => fold_left (λ mx g, if SFltb mx (gpu_VramTotalGB g) then gpu_VramTotalGB g else mx)
                (range (hw_GPUs h)) f_zero
  end.

(** ** Theorems *)

Lemma merge_range_map {A} (f : A → A → A) (g h : A → A) l :
  (∀ x, f (g x) (h x) = x) → merge_range f (map g l) (map h l) = l.
Proof. intros Hf. induction l as [|x l IH]; simpl; [done|]. by rewrite Hf, IH. Qed.

Lemma merge_range_length {A} (f : A → A → A) xs ys :
  length (merge_range f xs ys) = length xs.
Proof. revert ys; induction xs as [|x xs IH]; intros [|y ys]; simpl; auto. Qed.

(** splitting a hardware snapshot into its stable and volatile views loses
    nothing: merging the volatile view back into the stable one restores the
    snapshot exactly, nil slices and pointers included. *)
Theorem merge_stable_volatile hw :
  MergeHardware (StableHardware hw) (VolatileHardware hw) = hw.
Proof.
  destruct hw as [[cpus gpus ram]|]; [|done]. simpl. f_equal. f_equal.
  - destruct cpus as [l|]; [|done]. simpl. f_equal. apply merge_range_map. by intros [].
  - destruct gpus as [l|]; [|done]. simpl. f_equal. apply merge_range_map. by intros [].
  - by destruct ram as [[]|].
Qed.
