(* ===== verification/GoAny.v ===== *)
(** * Go's [any] as the servers use it

    The dynamic values a decoded JSON document is made of ([json.Unmarshal]
    into [any]: nil, bool, float64, string, []any, map[string]any) and the
    [int64] a path expression can compute.  A [map[string]any] is an
    association list with one entry per key. *)

From S2P Require Import Prelude GoStrings GoStringsFacts Strconv Hardware.
From Stdlib Require Import ZArith Lia ZifyBool Bool Ascii String SpecFloat.
From stdpp Require Import base option list gmap strings.

Open Scope go_scope.

Inductive any : Type :=
  | ANil
  | ABool (b : bool)
  | AInt (n : Z)
  | AFloat (f : float64)
  | AStr (s : string)
  | AArr (l : list any)
  | AObj (m : list (string * any)).

(** Map lookup [v, ok := m[k]]. *)
Fixpoint obj_get (m : list (string * any)) (k : string) : option any :=
  match m with
  | [] => None
  | (k', v) :: m' => if k =s? k' then Some v else obj_get m' k
  end.

(** The comma-ok type assertions [v.(string)], [v.(float64)],
    [v.(map[string]any)] and [v.([]any)], on the value of a map lookup (a
    missing key is the nil interface, on which every assertion fails). *)
Definition as_string (v : option any) : option string :=
  match v with Some (AStr s) => Some s | _ => None end.
Definition as_float (v : option any) : option float64 :=
  match v with Some (AFloat f) => Some f | _ => None end.
Definition as_obj (v : option any) : option (list (string * any)) :=
  match v with Some (AObj m) => Some m | _ => None end.
Definition as_arr (v : option any) : option (list any) :=
  match v with Some (AArr l) => Some l | _ => None end.

(** [int(f)] for a float64: truncation toward zero; NaN, infinities and values
    outside the 64-bit range give the minimum integer, as on amd64. *)
Definition float_to_int (f : float64) : Z :=
  match f with
  | S754_zero _ => 0
  | S754_finite sgn m e =>
      let mag := (if 0 <=? e then Zpos m * 2 ^ e else Zpos m / 2 ^ (- e))%Z in
      let z := (if sgn then - mag else mag)%Z in
      if ((min_i64 <=? z) && (z <=? max_i64))%Z then z else min_i64
  | _ => min_i64
  end.

(** [float64(n)] for an integer: round to nearest even on 53 bits. *)
Definition int_to_float (n : Z) : float64 := binary_normalize 53 1024 n 0 false.

(** * Go's [float64] as the node's hardware code uses it

    IEEE-754 binary64 on the Standard Library's [spec_float]: conversion,
    division, [math.Round], comparison and the [%.1f] verb; and the order that
    the comparisons induce. *)

Open Scope go_scope.
Open Scope Z_scope.

(** [float64(n)] *)
Definition f_of_Z (n : Z) : float64 := binary_normalize 53 1024 n 0 false.
Definition f_mul : float64 → float64 → float64 := SFmul 53 1024.
Definition f_div : float64 → float64 → float64 := SFdiv 53 1024.
Definition f_lt : float64 → float64 → bool := SFltb.

(** [m * 2^e] rounded to an integer: half away from zero, half to even. *)
Definition half_away (m e : Z) : Z :=
  if 0 <=? e then Z.shiftl m e else Z.shiftr (m + Z.shiftl 1 (- e - 1)) (- e).
Definition half_even (m e : Z) : Z :=
  if 0 <=? e then Z.shiftl m e
  else let q := Z.shiftr m (- e) in
       let r := m - Z.shiftl q (- e) in
       let h := Z.shiftl 1 (- e - 1) in
       if (h <? r) || ((h =? r) && Z.odd q) then q + 1 else q.

(** [math.Round] *)
Definition f_round (f : float64) : float64 :=
  match f with
  | S754_finite s m e =>
      if 0 <=? e then f
      else match half_away (Zpos m) e with
           | 0 => S754_zero s
           | n => binary_normalize 53 1024 (if s then - n else n) 0 s
           end
  | _ => f
  end.

(** [fmt.Sprintf("%.1f", f)] *)
Definition format_f1 (f : float64) : string :=
  let tenths s n := (if s : bool then "-" else "") ++s format_uint (n / 10) ++s "." ++s format_uint (n mod 10) in
  match f with
  | S754_zero s => tenths s 0
  | S754_finite s m e => tenths s (half_even (10 * Zpos m) e)
  | S754_infinity s => if s then "-Inf" else "+Inf"
  | S754_nan => "NaN"
  end.

(** ** The order *)

(** A key that orders the floats other than NaN. *)
Definition f_key (f : float64) : option (Z * Z * Z) :=
  match f with
  | S754_nan => None
  | S754_infinity s => Some (if s then -2 else 2, 0, 0)
  | S754_zero _ => Some (0, 0, 0)
  | S754_finite s m e => Some (if s then (-1, - e, Zneg m) else (1, e, Zpos m))
  end.

Definition lex_lt (a b : Z * Z * Z) : bool :=
  let '(a1, a2, a3) := a in let '(b1, b2, b3) := b in
  (a1 <? b1) || ((a1 =? b1) && ((a2 <? b2) || ((a2 =? b2) && (a3 <? b3)))).

Lemma f_lt_key f g :
  f_lt f g = match f_key f, f_key g with Some a, Some b => lex_lt a b | _, _ => false end.
Proof.
  unfold f_lt, SFltb, SFcompare.
  destruct f as [s|s| |s m e], g as [s'|s'| |s' m' e']; try destruct s; try destruct s';
    cbn [f_key lex_lt]; try done;
    rewrite ?Pos.compare_cont_spec; cbn; destruct (Z.compare_spec e e'); subst;
    try (destruct (Pos.compare_spec m m')); subst; cbn; lia.
Qed.

Definition is_num (f : float64) : bool := match f with S754_nan => false | _ => true end.

Lemma is_num_key f : is_num f = true ↔ is_Some (f_key f).
Proof. destruct f; simpl; split; try done; intros; eauto; by destruct H. Qed.

(** "At least": both are numbers and the first is not below the second. *)
Definition f_ge (f g : float64) : bool := is_num f && is_num g && negb (f_lt f g).

Lemma lex_trans a b c : lex_lt b a = false → lex_lt c b = false → lex_lt c a = false.
Proof. destruct a as [[??]?], b as [[??]?], c as [[??]?]. cbn. lia. Qed.
Lemma lex_asym a b : lex_lt a b = true → lex_lt b a = false.
Proof. destruct a as [[??]?], b as [[??]?]. cbn. lia. Qed.

Lemma f_ge_trans f g h : f_ge f g = true → f_ge g h = true → f_ge f h = true.
Proof.
  unfold f_ge. rewrite !andb_true_iff, !negb_true_iff, !is_num_key, !f_lt_key.
  intros [[[a Ha] [b Hb]] H1] [[_ [c Hc]] H2]. rewrite Ha, Hb, Hc in *.
  split_and!; [by eexists|by eexists|]. by eapply lex_trans.
Qed.

Lemma f_lt_ge f g : f_lt f g = true → f_ge g f = true.
Proof.
  unfold f_ge. rewrite !andb_true_iff, !negb_true_iff, !is_num_key, !f_lt_key.
  destruct (f_key f) as [a|], (f_key g) as [b|]; try done. intros H.
  split_and!; [by eexists|by eexists|]. by apply lex_asym.
Qed.

Lemma f_ge_refl f : is_num f = true → f_ge f f = true.
Proof.
  intros Hn. unfold f_ge. rewrite Hn. cbn [andb]. apply negb_true_iff. rewrite f_lt_key.
  destruct (f_key f) as [[[a b] c]|]; [|done]. cbn. lia.
Qed.

Lemma f_ge_not_lt f g : f_ge f g = true → f_lt f g = false.
Proof. unfold f_ge. rewrite !andb_true_iff, negb_true_iff. by intros [_ ?]. Qed.

Lemma f_not_lt_ge f g : is_num f = true → is_num g = true → f_lt f g = false → f_ge f g = true.
Proof. unfold f_ge. by intros -> -> ->. Qed.

Example fmt_75 : format_f1 (f_div (f_of_Z 15) (f_of_Z 2)) = "7.5"%string.
Proof. reflexivity. Qed.
Example round_24564 : format_f1 (f_div (f_round (f_mul (f_div (f_of_Z 24564) (f_of_Z 1024)) (f_of_Z 10))) (f_of_Z 10)) = "24.0"%string.
Proof. reflexivity. Qed.
