(* ===== verification/GoSort.v ===== *)
(** * Sorting by a string key

    [sort.Slice] and [sort.Strings] on keys: insertion sort by the byte-wise
    order, a permutation with increasing keys.  On distinct keys every sort
    gives the same list, so the library's unstable algorithm is not modelled. *)

From S2P Require Import Prelude GoStrings GoStringsFacts.
From Stdlib Require Import ZArith Lia Bool Ascii String Sorted.
From stdpp Require Import base option list strings.

Open Scope go_scope.

Section sorting.
Context {A : Type} (key : A → string).
Fixpoint insert_by (x : A) (l : list A) : list A :=
  match l with
  | [] => [x]
  | y :: l' => if str_ltb (key y) (key x) then y :: insert_by x l' else x :: l
  end.
Definition sort_by (l : list A) : list A := foldr insert_by [] l.
End sorting.

Section sort_lemmas.
Context {A : Type} (key : A → string).

Lemma insert_by_perm x l : insert_by key x l ≡ₚ x :: l.
Proof.
  induction l as [|y l IH]; simpl; [done|]. case_if; [|done].
  rewrite IH. apply Permutation_swap.
Qed.

Lemma sort_by_perm l : sort_by key l ≡ₚ l.
Proof. induction l as [|x l IH]; simpl; [done|]. by rewrite insert_by_perm, IH. Qed.

(** Strictly increasing keys. *)
Definition increasing (l : list A) : Prop :=
  StronglySorted (λ a b, str_ltb (key a) (key b) = true) l.

Lemma insert_by_increasing x l :
  (∀ y, y ∈ l → key y ≠ key x) → increasing l → increasing (insert_by key x l).
Proof.
  intros Hne Hl. induction Hl as [|y l Hl IH Hy]; simpl; [by repeat constructor|].
  destruct (str_ltb (key y) (key x)) eqn:Hyx.
  - constructor; [apply IH; intros z Hz; apply Hne; by right|].
    apply Forall_forall. intros z Hz. rewrite insert_by_perm in Hz.
    apply elem_of_cons in Hz as [-> | Hz]; [done|]. by apply (proj1 (Forall_forall _ _) Hy).
  - assert (str_ltb (key x) (key y) = true) as Hxy.
    { destruct (str_ltb (key x) (key y)) eqn:Hxy; [done|].
      destruct (Hne y); [by left|]. by apply str_ltb_total. }
    constructor; [by constructor|]. constructor; [done|].
    eapply Forall_impl; [exact Hy|]. intros z Hz. by eapply str_ltb_trans.
Qed.

Lemma sort_by_increasing l : NoDup (map key l) → increasing (sort_by key l).
Proof.
  induction l as [|x l IH]; simpl; [by constructor|]. intros [Hx Hl]%NoDup_cons.
  apply insert_by_increasing; [|by apply IH]. intros y Hy He. apply Hx. rewrite <-He.
  rewrite sort_by_perm in Hy. apply list_elem_of_In, in_map, list_elem_of_In, Hy.
Qed.

(** In an increasing list every element before a cut is below every one after. *)
Lemma increasing_cut l k x y :
  increasing l → x ∈ take k l → y ∈ drop k l → str_ltb (key x) (key y) = true.
Proof.
  intros Hl. revert k. induction Hl as [|z l Hl IH Hz]; intros k.
  { rewrite take_nil. by intros ?%not_elem_of_nil. }
  destruct k as [|k]; [by intros ?%not_elem_of_nil|]. cbn [take drop].
  intros [->|Hx]%elem_of_cons Hy; [|by eapply IH].
  rewrite Forall_forall in Hz. apply Hz. rewrite <-(take_drop k l).
  apply elem_of_app. by right.
Qed.
End sort_lemmas.

Lemma str_ltb_between x y z : str_ltb z y = true → str_ltb z x = false → str_ltb x y = true.
Proof.
  intros Hy Hx. destruct (str_ltb x y) eqn:E; [done|]. destruct (str_ltb y x) eqn:E'.
  - by rewrite (str_ltb_trans _ _ _ Hy E') in Hx.
  - apply str_ltb_total in E; [congruence|done].
Qed.

(** Sorting strings does not depend on the order they come in, equal ones
    included. *)
Lemma insert_string_comm x y l :
  insert_by id x (insert_by id y l) = insert_by id y (insert_by id x l).
Proof.
  induction l as [|z l IH]; cbn [insert_by id].
  - destruct (str_ltb y x) eqn:E1, (str_ltb x y) eqn:E2; try done.
    + pose proof (str_ltb_trans _ _ _ E1 E2) as Hx. by rewrite str_ltb_irrefl in Hx.
    + by rewrite (str_ltb_total _ _ E1 E2).
  - destruct (str_ltb z y) eqn:Ezy, (str_ltb z x) eqn:Ezx; cbn [insert_by id];
      rewrite ?Ezy, ?Ezx; cbn [insert_by id]; rewrite ?Ezy, ?Ezx; [by rewrite IH|..].
    + assert (str_ltb x y = true) as -> by by eapply str_ltb_between.
      cbn [insert_by id]. by rewrite ?Ezy, ?Ezx.
    + assert (str_ltb y x = true) as -> by by eapply str_ltb_between.
      cbn [insert_by id]. by rewrite ?Ezy, ?Ezx.
    + destruct (str_ltb y x) eqn:E1, (str_ltb x y) eqn:E2; rewrite ?Ezx, ?Ezy; try done.
      * pose proof (str_ltb_trans _ _ _ E1 E2) as Hx. by rewrite str_ltb_irrefl in Hx.
      * by rewrite (str_ltb_total _ _ E1 E2).
Qed.

#[export] Instance sort_strings_perm : Proper ((≡ₚ) ==> eq) (sort_by (@id string)).
Proof.
  intros l l' H. induction H as [|x l l' _ IH|x y l|l l' l'' _ IH1 _ IH2]; cbn [sort_by foldr].
  - done.
  - unfold sort_by in IH. by rewrite IH.
  - apply insert_string_comm.
  - by rewrite IH1.
Qed.
