(* ===== verification/GoPath.v ===== *)
(** * Go's [path/filepath] on Unix, as the servers use it

    [Clean], [Join], [Dir], [Base], [Ext], [IsAbs].  A path is resolved to a
    root flag and a stack of components (innermost first); cleaning prints the
    stack.  A relative path may keep leading ".." components. *)

From S2P Require Import Prelude GoStrings GoStringsFacts.
From Stdlib Require Import ZArith Lia ZifyBool Bool Ascii String.
From stdpp Require Import base option list strings.

Open Scope go_scope.

Definition slash : ascii := "/"%char.
Definition dotdot : string := "..".

(** ** Resolution *)

Definition is_abs (p : string) : bool := has_prefix p "/".

(** One component over the stack below it. *)
Definition push_comp (rooted : bool) (st : list string) (c : string) : list string :=
  if (c =s? "") || (c =s? ".") then st
  else if c =s? dotdot then
    match st with
    | x :: st' => if x =s? dotdot then dotdot :: st else st'
    | [] => if rooted then [] else [dotdot]
    end
  else c :: st.

Definition push_path (rooted : bool) (st : list string) (p : string) : list string :=
  fold_left (push_comp rooted) (split_byte slash p) st.

Definition stack_of (p : string) : list string := push_path (is_abs p) [] p.

Definition print_stack (rooted : bool) (st : list string) : string :=
  let body := join_str "/" (rev st) in
  if rooted then "/" ++s body else if body =s? "" then "." else body.

(** [filepath.Clean] *)
Definition path_clean (p : string) : string :=
  if p =s? "" then "." else print_stack (is_abs p) (stack_of p).

(** [filepath.Join] *)
Definition path_join_list (l : list string) : string :=
  match filter (λ s, s ≠ ""%string) l with
  | [] => ""
  | l' => path_clean (join_str "/" l')
  end.
Definition path_join2 (a b : string) : string := path_join_list [a; b].

Definition up_to_slash (p : string) : string :=
  match last_index_byte p slash with Some i => take_str (S i) p | None => ""%string end.
Definition after_slash (p : string) : string :=
  match last_index_byte p slash with Some i => drop_str (S i) p | None => p end.

(** [filepath.Dir] *)
Definition path_dirname (p : string) : string := path_clean (up_to_slash p).

(** [filepath.Base] *)
Definition path_base (p : string) : string :=
  if p =s? "" then "."
  else let q := trim_right_pred (λ c, c =c? slash) p in
       if q =s? "" then "/" else after_slash q.

(** [filepath.Ext]: from the last dot of the last element. *)
Definition path_ext (p : string) : string :=
  let b := after_slash p in
  match last_index_byte b "." with Some i => drop_str i b | None => ""%string end.

(** ** Cleaned stacks *)

(** A component a path keeps. *)
Definition comp_ok (c : string) : Prop :=
  c ≠ ""%string ∧ c ≠ "."%string ∧ contains_byte slash c = false.

(** Ordinary components above leading ".." ones (none of these when rooted). *)
Definition stack_ok (rooted : bool) (st : list string) : Prop :=
  Forall comp_ok st ∧
  ∃ a n, st = a ++ replicate n dotdot ∧ Forall (λ c, c ≠ dotdot) a ∧ (rooted = true → n = 0).

Lemma dotdot_ok : comp_ok dotdot.
Proof. done. Qed.

Lemma push_comp_ok rooted st c :
  contains_byte slash c = false → stack_ok rooted st → stack_ok rooted (push_comp rooted st c).
Proof.
  intros Hc [Hf (a & n & -> & Ha & Hr)]. unfold push_comp.
  destruct (String.eqb_spec c ""); [by split; eauto|].
  destruct (String.eqb_spec c "."); [by split; eauto|]. cbn [orb].
  destruct (String.eqb_spec c dotdot) as [->|Hd].
  - destruct a as [|x a]; cbn [app].
    + destruct n as [|n]; cbn [replicate].
      * destruct rooted; [by split; [|exists [], 0]|].
        split; [by repeat constructor|]. exists [], 1. by split_and!.
      * change (dotdot =s? dotdot) with true. cbn iota. split; [by constructor; [apply dotdot_ok|]|].
        exists [], (S (S n)). split_and!; [done|done|]. intros H%Hr. done.
    + inversion Ha; subst. destruct (String.eqb_spec x dotdot); [done|].
      inversion Hf; subst. split; [done|]. by exists a, n.
  - split; [constructor; [done|done]|]. exists (c :: a), n. split_and!; [done|by constructor|done].
Qed.

Lemma push_path_ok rooted st p : stack_ok rooted st → stack_ok rooted (push_path rooted st p).
Proof.
  intros Hs. unfold push_path. apply (fold_left_inv (stack_ok rooted)); [done|].
  intros s c Hc Hs'. apply push_comp_ok; [|done].
  pose proof (split_byte_Forall slash p) as Hf. rewrite Forall_forall in Hf. by apply Hf.
Qed.

Lemma stack_ok_nil rooted : stack_ok rooted [].
Proof. split; [done|]. exists [], 0. by split_and!. Qed.

Lemma stack_of_ok p : stack_ok (is_abs p) (stack_of p).
Proof. apply push_path_ok, stack_ok_nil. Qed.

Lemma rev_replicate {A} n (x : A) : rev (replicate n x) = replicate n x.
Proof. rewrite rev_alt. apply reverse_replicate. Qed.

(** Pushing back what a stack prints rebuilds it. *)
Lemma push_stack rooted st : stack_ok rooted st →
  fold_left (push_comp rooted) (rev st) [] = st.
Proof.
  intros [Hf (a & n & -> & Ha & Hr)]. apply Forall_app in Hf as [Hfa _].
  rewrite rev_app_distr, fold_left_app.
  assert (fold_left (push_comp rooted) (rev (replicate n dotdot)) [] = replicate n dotdot) as ->.
  { rewrite rev_replicate. destruct rooted; [by rewrite Hr|]. clear.
    assert (∀ k m, fold_left (push_comp false) (replicate k dotdot) (replicate m dotdot)
                   = replicate (k + m) dotdot) as Hg.
    { intros k; induction k as [|k IH]; intros m; [done|]. cbn [replicate fold_left].
      replace (push_comp false (replicate m dotdot) dotdot) with (replicate (S m) dotdot) by by destruct m.
      rewrite IH. by rewrite Nat.add_succ_r. }
    specialize (Hg n 0). by rewrite Nat.add_0_r in Hg. }
  revert Ha Hfa. induction a as [|c a IH]; intros Ha Hfa; [done|].
  apply Forall_cons in Ha as [Hc Ha]. apply Forall_cons in Hfa as [(H1 & H2 & _) Hfa].
  cbn [rev]. rewrite fold_left_app, IH by done.
  cbn [fold_left app]. unfold push_comp.
  destruct (String.eqb_spec c ""); [done|]. destruct (String.eqb_spec c "."); [done|].
  by destruct (String.eqb_spec c dotdot).
Qed.

(** ** Cleaning, joining *)

Lemma split_print st : Forall comp_ok st → st ≠ [] → split_byte slash (join_str "/" (rev st)) = rev st.
Proof.
  intros Hf Hne. apply split_join.
  - intros H. apply Hne. rewrite <-(rev_involutive st). by rewrite H.
  - apply Forall_rev. by eapply Forall_impl; [exact Hf|]; intros c (_ & _ & ?).
Qed.

Lemma print_nonempty st : Forall comp_ok st → st ≠ [] → join_str "/" (rev st) ≠ ""%string.
Proof.
  intros Hf Hne He. pose proof (split_print st Hf Hne) as Hs. rewrite He in Hs.
  assert (""%string ∈ rev st) as Hin by (rewrite <-Hs; left).
  rewrite <-(rev_involutive st) in Hf. apply Forall_rev in Hf. rewrite rev_involutive in Hf.
  rewrite Forall_forall in Hf. apply Hf in Hin as [? _]. done.
Qed.

Lemma print_not_abs st : Forall comp_ok st → st ≠ [] → is_abs (join_str "/" (rev st)) = false.
Proof.
  intros Hf Hne. pose proof (split_print st Hf Hne) as Hs. pose proof (print_nonempty st Hf Hne).
  unfold is_abs. destruct (join_str "/" (rev st)) as [|c b] eqn:E; [done|].
  cbn [has_prefix]. destruct (Ascii.eqb_spec "/" c) as [<-|]; [|done].
  cbn [split_byte] in Hs. change (slash =c? "/")%char with true in Hs. cbn iota in Hs.
  assert (""%string ∈ rev st) as Hin by (rewrite <-Hs; left).
  apply Forall_rev in Hf. rewrite Forall_forall in Hf. apply Hf in Hin as [? _]. done.
Qed.

(** Printing a stack and resolving the path gives the stack back. *)
Lemma stack_of_print rooted st :
  stack_ok rooted st → is_abs (print_stack rooted st) = rooted ∧ stack_of (print_stack rooted st) = st.
Proof.
  intros Hok. pose proof Hok as [Hf _]. unfold print_stack, stack_of. destruct rooted.
  - split; [done|]. unfold push_path.
    change (is_abs ("/" ++s join_str "/" (rev st))) with true.
    cbn [String.append split_byte]. change (slash =c? "/")%char with true. cbn iota. cbn [fold_left].
    change (push_comp true [] "") with (@nil string).
    destruct (decide (st = [])) as [->|Hne]; [done|].
    rewrite split_print by done. by apply push_stack.
  - destruct (decide (st = [])) as [->|Hne]; [done|].
    pose proof (print_nonempty st Hf Hne) as Hp.
    destruct (String.eqb_spec (join_str "/" (rev st)) ""); [done|].
    rewrite print_not_abs by done. split; [done|]. unfold push_path.
    rewrite split_print by done. by apply push_stack.
Qed.

Lemma print_stack_not_empty rooted st : stack_ok rooted st → print_stack rooted st ≠ ""%string.
Proof. unfold print_stack. intros _. destruct rooted; [done|]. case_if; done. Qed.

(** [Clean] is idempotent. *)
Lemma path_clean_idem p : path_clean (path_clean p) = path_clean p.
Proof.
  unfold path_clean at 2 3. destruct (String.eqb_spec p ""); [done|].
  pose proof (stack_of_ok p) as Hok. destruct (stack_of_print _ _ Hok) as [Ha Hs].
  unfold path_clean. rewrite (proj2 (String.eqb_neq _ _)) by by eapply print_stack_not_empty.
  by rewrite Ha, Hs.
Qed.

Lemma is_abs_join d n : d ≠ ""%string → is_abs (d ++s n) = is_abs d.
Proof. by destruct d. Qed.

Lemma split_byte_join d n :
  split_byte slash (d ++s "/" ++s n) = split_byte slash d ++ split_byte slash n.
Proof.
  change ("/" ++s n) with (String slash n).
  induction d as [|c d IH]; [done|]. cbn [String.append split_byte].
  destruct (slash =c? c); [cbn [app]; by f_equal|].
  rewrite IH. pose proof (split_byte_not_nil slash d). by destruct (split_byte slash d).
Qed.

(** [Join(d, n)] walks [n] from the directory [d]. *)
Lemma path_join2_spec d n :
  d ≠ ""%string → n ≠ ""%string →
  path_join2 d n = print_stack (is_abs d) (push_path (is_abs d) (stack_of d) n).
Proof.
  intros Hd Hn. unfold path_join2, path_join_list.
  rewrite !filter_cons_True by done. cbn [filter list_filter join_str].
  unfold path_clean. destruct (String.eqb_spec (d ++s "/" ++s n) ""); [by destruct d|].
  rewrite is_abs_join by done. f_equal. unfold stack_of. rewrite is_abs_join by done.
  unfold push_path. by rewrite split_byte_join, fold_left_app.
Qed.

(** ** Staying below a directory *)

(** The relative path [n], resolved on its own, keeps no leading "..". *)
Definition stays_below (n : string) : bool :=
  bool_decide (dotdot ∉ push_path false [] n).

(** [p] is [d] or lies below it. *)
Definition under (d p : string) : Prop :=
  is_abs p = is_abs d ∧ ∃ a, stack_of p = a ++ stack_of d.

Lemma push_comp_last rooted st c x :
  last st = Some x → x = dotdot → last (push_comp rooted st c) = Some x.
Proof.
  intros Hl ->. unfold push_comp. case_if; [done|]. case_if.
  - destruct st as [|y st]; [done|]. destruct (String.eqb_spec y dotdot) as [->|Hy].
    + by rewrite last_cons, Hl.
    + rewrite last_cons in Hl. destruct (last st) eqn:E; [done|].
      injection Hl as ->. done.
  - by rewrite last_cons, Hl.
Qed.

Lemma push_fold_last rooted l st :
  last st = Some dotdot → dotdot ∈ fold_left (push_comp rooted) l st.
Proof.
  revert st. induction l as [|c l IH]; intros st Hl; cbn [fold_left].
  - apply last_Some in Hl as [l' ->]. apply elem_of_app. right. left.
  - by apply IH, push_comp_last.
Qed.

Lemma push_comp_below rooted a st c :
  dotdot ∉ a →
  push_comp false a c = [dotdot] ∨
  dotdot ∉ push_comp false a c ∧ push_comp rooted (a ++ st) c = push_comp false a c ++ st.
Proof.
  intros Ha. unfold push_comp. case_if; [by right|]. case_if.
  - destruct a as [|x a]; [by left|]. right. cbn [app].
    destruct (String.eqb_spec x dotdot) as [->|Hx]; [exfalso; apply Ha; left|].
    split; [|done]. intros ?. apply Ha. by right.
  - right. split; [|done]. rewrite not_elem_of_cons. done.
Qed.

(** A walk that never leaves its start is the same from every start. *)
Lemma push_fold_below rooted l st : ∀ a,
  dotdot ∉ a → dotdot ∉ fold_left (push_comp false) l a →
  fold_left (push_comp rooted) l (a ++ st) = fold_left (push_comp false) l a ++ st.
Proof.
  induction l as [|c l IH]; intros a Ha Hl; [done|]. cbn [fold_left] in *.
  destruct (push_comp_below rooted a st c Ha) as [He|[Hn ->]]; [|by apply IH].
  rewrite He in Hl. exfalso. apply Hl. by apply push_fold_last.
Qed.

Lemma push_path_below rooted st n :
  stays_below n = true → push_path rooted st n = push_path false [] n ++ st.
Proof.
  intros Hb%bool_decide_eq_true. unfold push_path in *.
  apply (push_fold_below rooted _ st []); [apply not_elem_of_nil|done].
Qed.

(** Joining a name that stays below puts the result under the directory. *)
Lemma join_under d n :
  d ≠ ""%string → n ≠ ""%string → stays_below n = true → under d (path_join2 d n).
Proof.
  intros Hd Hn Hb. rewrite path_join2_spec by done.
  pose proof (push_path_ok (is_abs d) (stack_of d) n (stack_of_ok d)) as Hok.
  destruct (stack_of_print _ _ Hok) as [Ha Hs]. unfold under. rewrite Ha, Hs. split; [done|].
  rewrite push_path_below by done. by eexists.
Qed.

(** ** A file below a directory: its directory and its name *)

Lemma last_index_byte_app a c b :
  contains_byte c b = false → last_index_byte (a ++s String c b) c = Some (String.length a).
Proof.
  intros Hb. assert (last_index_byte b c = None) as Hn.
  { induction b as [|d b IH]; [done|]. cbn [contains_byte last_index_byte] in *.
    destruct (c =c? d); [done|]. by rewrite IH. }
  induction a as [|d a IH]; cbn [String.append last_index_byte String.length].
  - by rewrite Hn, Ascii.eqb_refl.
  - by rewrite IH.
Qed.

Lemma last_index_byte_None c b : contains_byte c b = false → last_index_byte b c = None.
Proof.
  induction b as [|d b IH]; [done|]. cbn [contains_byte last_index_byte].
  destruct (c =c? d); [done|]. intros H. by rewrite IH.
Qed.

Lemma join_snoc l x : l ≠ [] → join_str "/" (l ++ [x]) = join_str "/" l ++s "/" ++s x.
Proof.
  induction l as [|y l IH]; [done|]. intros _. destruct l as [|z l]; [done|].
  change ((y :: z :: l) ++ [x]) with (y :: (z :: l) ++ [x]).
  change (join_str "/" (y :: (z :: l) ++ [x])) with (y ++s "/" ++s join_str "/" ((z :: l) ++ [x])).
  rewrite IH by done. change (join_str "/" (y :: z :: l)) with (y ++s "/" ++s join_str "/" (z :: l)).
  by rewrite !sapp_assoc.
Qed.

(** A printed non-empty stack: what precedes the last component. *)
Lemma print_cons rooted st n :
  comp_ok n →
  ∃ pre, print_stack rooted (n :: st) = pre ++s n ∧
    (pre = ""%string ∧ rooted = false ∧ st = [] ∨
     ∃ p, pre = p ++s "/" ∧ (st = [] ∧ p = ""%string ∧ rooted = true ∨
            st ≠ [] ∧ p = (if rooted then "/" else "") ++s join_str "/" (rev st))).
Proof.
  intros (Hn & _). unfold print_stack. cbn [rev]. destruct (decide (st = [])) as [->|Hne].
  - cbn [rev app join_str]. destruct rooted.
    + exists "/"%string. split; [done|]. right. exists ""%string. split; [done|]. by left.
    + exists ""%string. destruct (String.eqb_spec n ""); [done|]. split; [done|]. by left.
  - rewrite join_snoc by (intros H; apply Hne; rewrite <-(rev_involutive st); by rewrite H).
    exists ((if rooted then "/" else "") ++s join_str "/" (rev st) ++s "/"). split.
    + destruct rooted; rewrite !sapp_assoc; [done|]. change ("" ++s ?x)%string with x.
      destruct (String.eqb_spec (join_str "/" (rev st) ++s "/" ++s n) "") as [He|]; [|done].
      by destruct (join_str "/" (rev st)).
    + right. eexists. rewrite <-sapp_assoc. split; [done|]. right. done.
Qed.

Lemma path_dirname_print rooted st n :
  stack_ok rooted st → comp_ok n → path_dirname (print_stack rooted (n :: st)) = print_stack rooted st.
Proof.
  intros Hok Hn. pose proof Hn as (_ & _ & Hsl). unfold path_dirname, up_to_slash.
  destruct (print_cons rooted st n Hn) as (pre & -> & [(-> & -> & ->)|(p & -> & Hp)]).
  { cbn [String.append]. by rewrite last_index_byte_None. }
  rewrite sapp_assoc. change ("/" ++s n) with (String slash n). rewrite last_index_byte_app by done.
  assert (take_str (S (String.length p)) (p ++s String slash n) = p ++s "/") as ->.
  { clear. induction p as [|c p IH]; [done|]. cbn [String.length String.append take_str]. by f_equal. }
  destruct Hp as [(-> & -> & ->)|(Hst & ->)]; [done|].
  destruct (stack_of_print _ _ Hok) as [Ha Hs].
  assert ((if rooted then "/" else "") ++s join_str "/" (rev st) = print_stack rooted st) as Hpr.
  { unfold print_stack. destruct rooted; [done|]. cbn [String.append].
    destruct (String.eqb_spec (join_str "/" (rev st)) "") as [He|]; [|done].
    exfalso. by eapply print_nonempty; [apply Hok|..]. }
  rewrite Hpr. pose proof (print_stack_not_empty _ _ Hok) as Hpn. unfold path_clean.
  destruct (String.eqb_spec (print_stack rooted st ++s "/") ""); [by destruct (print_stack rooted st)|].
  rewrite is_abs_join, Ha by done. f_equal. rewrite <-Hs at 2. unfold stack_of. rewrite is_abs_join by done.
  unfold push_path. change "/"%string with ("/" ++s "")%string. rewrite split_byte_join, fold_left_app. done.
Qed.

Lemma trim_right_last (f : ascii → bool) a c : f c = false → trim_right_pred f (a ++s str1 c) = a ++s str1 c.
Proof.
  intros Hc. unfold trim_right_pred. rewrite srev_app_distr. change (srev (str1 c)) with (str1 c).
  change (str1 c ++s srev a) with (String c (srev a)). cbn [trim_left_pred]. rewrite Hc.
  change (String c (srev a)) with (str1 c ++s srev a). by rewrite srev_app_distr, srev_involutive.
Qed.

Lemma string_snoc s : s ≠ ""%string → ∃ a c, s = a ++s str1 c.
Proof.
  induction s as [|c s IH]; [done|]. intros _. destruct s as [|d s]; [by exists "", c|].
  destruct IH as (a & e & ->); [done|]. by exists (String c a), e.
Qed.

Lemma path_base_print rooted st n :
  comp_ok n → path_base (print_stack rooted (n :: st)) = n.
Proof.
  intros Hn. pose proof Hn as (Hne & _ & Hsl). unfold path_base.
  destruct (print_cons rooted st n Hn) as (pre & -> & Hpre).
  destruct (string_snoc n Hne) as (a & c & ->).
  assert ((c =c? slash) = false) as Hc.
  { rewrite contains_byte_app in Hsl. apply orb_false_iff in Hsl as [_ Hsl]. cbn in Hsl.
    rewrite orb_false_r in Hsl. by rewrite Ascii.eqb_sym. }
  destruct (String.eqb_spec (pre ++s a ++s str1 c) ""); [by destruct pre, a|].
  rewrite <-sapp_assoc, trim_right_last, sapp_assoc by done.
  destruct (String.eqb_spec (pre ++s a ++s str1 c) ""); [done|]. unfold after_slash.
  destruct Hpre as [(-> & _)|(p & -> & _)].
  - cbn [String.append]. by rewrite last_index_byte_None.
  - rewrite sapp_assoc. change ("/" ++s a ++s str1 c) with (String slash (a ++s str1 c)).
    rewrite last_index_byte_app by done. apply drop_str_S_app.
Qed.

(** Directory and name of [Join(d, n)] for a plain name [n]. *)
Lemma join_dir_base d n :
  d ≠ ""%string → comp_ok n → n ≠ dotdot →
  path_dirname (path_join2 d n) = path_clean d ∧ path_base (path_join2 d n) = n.
Proof.
  intros Hd Hn Hdd. pose proof Hn as (Hne & Hdot & Hsl). rewrite path_join2_spec by done.
  assert (push_path (is_abs d) (stack_of d) n = n :: stack_of d) as ->.
  { unfold push_path. rewrite split_byte_plain by done. cbn [fold_left]. unfold push_comp.
    destruct (String.eqb_spec n ""); [done|]. destruct (String.eqb_spec n "."); [done|].
    by destruct (String.eqb_spec n dotdot). }
  rewrite path_dirname_print, path_base_print by (done || apply stack_of_ok). split; [|done].
  unfold path_clean. by destruct (String.eqb_spec d "").
Qed.

(** All plain names of a directory are joined with one prefix. *)
Lemma join_prefix d : d ≠ ""%string →
  ∃ pre, ∀ n, comp_ok n → n ≠ dotdot → path_join2 d n = pre ++s n.
Proof.
  intros Hd.
  exists (match stack_of d with
          | [] => if is_abs d then "/" else ""
          | st => (if is_abs d then "/" else "") ++s join_str "/" (rev st) ++s "/"
          end)%string.
  intros n Hn Hdd. pose proof Hn as (Hne & Hdot & Hsl). rewrite path_join2_spec by done.
  unfold push_path. rewrite split_byte_plain by done. cbn [fold_left]. unfold push_comp.
  destruct (String.eqb_spec n ""); [done|]. destruct (String.eqb_spec n "."); [done|].
  destruct (String.eqb_spec n dotdot); [done|]. cbn [orb].
  destruct (print_cons (is_abs d) (stack_of d) n Hn) as (pre & -> & [(-> & -> & ->)|(q & -> & Hq)]); [done|].
  destruct Hq as [(-> & -> & ->)|(Hne' & ->)]; [done|].
  destruct (stack_of d); [done|]. by rewrite !sapp_assoc.
Qed.

Lemma join_after_slash d n :
  d ≠ ""%string → comp_ok n → n ≠ dotdot → after_slash (path_join2 d n) = n.
Proof.
  intros Hd Hn Hdd. pose proof Hn as (Hne & Hdot & Hsl). rewrite path_join2_spec by done.
  unfold push_path. rewrite split_byte_plain by done. cbn [fold_left]. unfold push_comp.
  destruct (String.eqb_spec n ""); [done|]. destruct (String.eqb_spec n "."); [done|].
  destruct (String.eqb_spec n dotdot); [done|]. cbn [orb]. unfold after_slash.
  destruct (print_cons (is_abs d) (stack_of d) n Hn) as (pre & -> & [(-> & _)|(q & -> & _)]).
  - cbn [String.append]. by rewrite last_index_byte_None.
  - rewrite sapp_assoc. change ("/" ++s n) with (String slash n).
    rewrite last_index_byte_app by done. apply drop_str_S_app.
Qed.
