(* ===== verification/HostFS.v ===== *)
(** * The file system the node set-up writes to

    A location is the stack of components of an absolute path (innermost
    first); relative paths are resolved from the working directory.  There are
    no symbolic links (the extractors create none), and [W] tells at which
    locations the operating system lets the process create and write. *)

From S2P Require Import Prelude GoStrings GoStringsFacts GoPath.
From Stdlib Require Import ZArith Lia ZifyBool Bool Ascii String.
From stdpp Require Import base option list gmap strings.

Open Scope go_scope.

Abbreviation loc := (list string).

Inductive node := NDir | NFile (data : string) (mtime : Z).

Abbreviation hostfs := (gmap (list string) node).

(** The location a path names. *)
Definition resolve (cwd : loc) (p : string) : loc :=
  push_path true (if is_abs p then [] else cwd) p.

Definition is_dir (l : loc) (fs : hostfs) : bool :=
  match l with [] => true | _ => match fs !! l with Some NDir => true | _ => false end end.

(** ** Looking a location up *)

Inductive stat_res := Found (n : node) | NotExist | NotDirectory.

(** What stops the walk to a missing location. *)
Fixpoint missing_below (l : loc) (fs : hostfs) : stat_res :=
  match l with
  | [] => NotExist
  | _ :: l' => match fs !! l with
               | Some NDir => NotExist
               | Some (NFile _ _) => NotDirectory
               | None => missing_below l' fs
               end
  end.

(** [os.Stat] *)
Definition stat (l : loc) (fs : hostfs) : stat_res :=
  match l with
  | [] => Found NDir
  | _ :: l' => match fs !! l with Some n => Found n | None => missing_below l' fs end
  end.

(** [os.IsNotExist] of a [Stat] error: not true of "not a directory". *)
Definition IsNotExist (r : stat_res) : bool := match r with NotExist => true | _ => false end.

Definition read_file (l : loc) (fs : hostfs) : option string :=
  match fs !! l with Some (NFile d _) => Some d | _ => None end.

(** ** Changing it *)

Section ops.
Context (W : loc → bool).

(** [os.MkdirAll]: success and the file system, changed even on failure. *)
Fixpoint mkdir_all (l : loc) (fs : hostfs) : bool * hostfs :=
  match l with
  | [] => (true, fs)
  | _ :: l' =>
      match fs !! l with
      | Some NDir => (true, fs)
      | Some (NFile _ _) => (false, fs)
      | None => let '(ok, fs) := mkdir_all l' fs in
                if ok && W l then (true, <[l := NDir]> fs) else (false, fs)
      end
  end.

(** [os.OpenFile] with [O_WRONLY|O_CREATE|O_TRUNC], at time [now]. *)
Definition open_trunc (now : Z) (l : loc) (fs : hostfs) : option hostfs :=
  match l with
  | [] => None
  | _ :: l' =>
      if negb (W l) then None
      else match fs !! l with
           | Some NDir => None
           | Some (NFile _ _) => Some (<[l := NFile "" now]> fs)
           | None => if is_dir l' fs then Some (<[l := NFile "" now]> fs) else None
           end
  end.
End ops.

(** Writing to an open file. *)
Definition write_data (now : Z) (l : loc) (data : string) (fs : hostfs) : hostfs :=
  alter (λ n, match n with NFile d _ => NFile (d ++s data) now | NDir => NDir end) l fs.

(** [os.Chtimes], its error dropped. *)
Definition chtimes (l : loc) (t : Z) (fs : hostfs) : hostfs :=
  alter (λ n, match n with NFile d _ => NFile d t | NDir => NDir end) l fs.

(** [os.Remove], its error dropped: a file or an empty directory. *)
Definition has_child (l : loc) (fs : hostfs) : bool :=
  existsb (λ kv, bool_decide (tail kv.1 = l) && negb (bool_decide (kv.1 = []))) (map_to_list fs).
Definition os_remove (l : loc) (fs : hostfs) : hostfs :=
  match fs !! l with
  | Some (NFile _ _) => delete l fs
  | Some NDir => if has_child l fs then fs else delete l fs
  | None => fs
  end.

(** ** Paths and locations *)

Lemma push_comp_ordinary rooted st c :
  c ≠ ""%string → c ≠ "."%string → c ≠ dotdot → push_comp rooted st c = c :: st.
Proof.
  intros H1 H2 H3. unfold push_comp. rewrite !(proj2 (String.eqb_neq _ _)) by done. done.
Qed.

Lemma push_comp_skip rooted st c : c = ""%string ∨ c = "."%string → push_comp rooted st c = st.
Proof. by intros [-> | ->]. Qed.

Lemma resolve_clean_step cwd st c :
  Forall comp_ok st →
  fold_left (push_comp true) (rev (push_comp false st c)) cwd =
  push_comp true (fold_left (push_comp true) (rev st) cwd) c.
Proof.
  intros Hf. destruct (decide (c = "" ∨ c = ".")%string) as [Hc|Hc].
  { by rewrite !push_comp_skip by done. }
  assert (c ≠ ""%string ∧ c ≠ "."%string) as [H1 H2] by naive_solver.
  destruct (decide (c = dotdot)) as [->|Hd].
  - destruct st as [|x st]; [done|]. inversion Hf as [|?? (H3 & H4 & _) _]; subst.
    destruct (decide (x = dotdot)) as [->|Hx].
    { change (push_comp false (dotdot :: st) dotdot) with (dotdot :: dotdot :: st).
      generalize (dotdot :: st). intros l. cbn [rev]. by rewrite fold_left_app. }
    change (push_comp false (x :: st) dotdot) with (if x =s? dotdot then dotdot :: x :: st else st).
    rewrite (proj2 (String.eqb_neq x dotdot)) by done. cbn [rev]. rewrite fold_left_app. cbn [fold_left].
    rewrite (push_comp_ordinary true _ x) by done. set (f := fold_left _ _ _).
    change (push_comp true (x :: f) dotdot) with (if x =s? dotdot then dotdot :: x :: f else f).
    by rewrite (proj2 (String.eqb_neq x dotdot)) by done.
  - rewrite (push_comp_ordinary false) by done. cbn [rev]. by rewrite fold_left_app.
Qed.

(** Cleaning a relative path does not change where it leads. *)
Lemma push_printed cwd l st :
  Forall (λ c, contains_byte slash c = false) l → stack_ok false st →
  fold_left (push_comp true) (rev (fold_left (push_comp false) l st)) cwd =
  fold_left (push_comp true) l (fold_left (push_comp true) (rev st) cwd).
Proof.
  revert st. induction l as [|c l IH]; intros st Hl Hst; [done|]. cbn [fold_left].
  apply Forall_cons in Hl as [Hc Hl]. rewrite IH by (done || by apply push_comp_ok).
  f_equal. apply resolve_clean_step, Hst.
Qed.

Lemma resolve_print cwd rooted st :
  stack_ok rooted st →
  resolve cwd (print_stack rooted st) = fold_left (push_comp true) (rev st) (if rooted then [] else cwd).
Proof.
  intros Hok. destruct (stack_of_print _ _ Hok) as [Ha _]. unfold resolve. rewrite Ha.
  destruct (decide (st = [])) as [->|Hne]; [by destruct rooted|].
  unfold print_stack, push_path. destruct rooted.
  - cbn [String.append split_byte]. change (slash =c? "/")%char with true. cbn iota. cbn [fold_left].
    change (push_comp true [] "") with (@nil string). by rewrite split_print by apply Hok || done.
  - pose proof (print_nonempty st (proj1 Hok) Hne).
    destruct (String.eqb_spec (join_str "/" (rev st)) ""); [done|].
    by rewrite split_print by apply Hok || done.
Qed.

Lemma resolve_join cwd d n :
  d ≠ ""%string → n ≠ ""%string →
  resolve cwd (path_join2 d n) = push_path true (resolve cwd d) n.
Proof.
  intros Hd Hn. rewrite path_join2_spec by done.
  rewrite resolve_print by apply push_path_ok, stack_of_ok. unfold resolve.
  pose proof (stack_of_ok d) as Hst. destruct (is_abs d) eqn:Hab.
  - change (fold_left (push_comp true) (rev (push_path true (stack_of d) n)) [] =
            push_path true (push_path true [] d) n).
    rewrite push_stack by by apply push_path_ok. unfold stack_of. by rewrite Hab.
  - unfold push_path. rewrite push_printed by (done || apply split_byte_Forall). f_equal.
    unfold stack_of, push_path. rewrite Hab.
    by rewrite push_printed by (apply split_byte_Forall || apply stack_ok_nil).
Qed.

(** A name that stays below a directory leads to a location below it. *)
Lemma resolve_below cwd d n :
  d ≠ ""%string → n ≠ ""%string → stays_below n = true →
  resolve cwd (path_join2 d n) = push_path false [] n ++ resolve cwd d.
Proof. intros. rewrite resolve_join by done. by apply push_path_below. Qed.

(** ** What a change leaves alone *)

(** [fs'] differs from [fs] only at locations of [P]. *)
Definition same_off (P : loc → Prop) (fs fs' : hostfs) : Prop := ∀ l, ¬ P l → fs' !! l = fs !! l.

#[export] Instance same_off_preorder P : PreOrder (same_off P).
Proof.
  split; [done|]. intros a b c Hab Hbc l Hl. rewrite (Hbc l Hl). by apply Hab.
Qed.

Lemma same_off_mono (P Q : loc → Prop) fs fs' :
  (∀ l, P l → Q l) → same_off P fs fs' → same_off Q fs fs'.
Proof. intros H Hs l Hl. apply Hs. naive_solver. Qed.

Lemma insert_same_off (P : loc → Prop) (l : loc) (n : node) (fs : hostfs) : P l → same_off P fs (<[l := n]> fs).
Proof. intros Hl l' Hl'. rewrite lookup_insert_ne; [done|]. by intros ->. Qed.

Lemma alter_same_off (P : loc → Prop) (l : loc) (f : node → node) (fs : hostfs) : P l → same_off P fs (alter f l fs).
Proof. intros Hl l' Hl'. rewrite lookup_alter_ne; [done|]. by intros ->. Qed.

(** Creating a directory touches it and its ancestors. *)
Lemma mkdir_all_same_off W l fs : same_off (λ l', suffix l' l) fs (mkdir_all W l fs).2.
Proof.
  induction l as [|c l IH]; [done|]. cbn [mkdir_all]. destruct (fs !! (c :: l)) as [[]|]; [done|done|].
  destruct (mkdir_all W l fs) as [ok fs1]. cbn [snd] in *.
  assert (same_off (λ l', suffix l' (c :: l)) fs fs1) as H1.
  { eapply same_off_mono; [|exact IH]. intros l' [k ->]. by exists (c :: k). }
  destruct (ok && W (c :: l)); [|done]. cbn [snd]. etransitivity; [exact H1|]. by apply insert_same_off.
Qed.

Lemma suffix_cons_cases (l' l : loc) c : suffix l' (c :: l) → l' = c :: l ∨ suffix l' l.
Proof.
  intros [[|d k] H]; [by left|]. cbn in H. injection H as <- H. right. by exists k.
Qed.

(** It succeeds when nothing but directories is in the way. *)
Lemma mkdir_all_ok W l fs :
  (∀ l', suffix l' l → l' ≠ [] → W l' = true ∧ ∀ d t, fs !! l' ≠ Some (NFile d t)) →
  (mkdir_all W l fs).1 = true ∧
  (∀ l', suffix l' l → l' ≠ [] → is_Some (fs !! l') → (mkdir_all W l fs).2 !! l' = fs !! l') ∧
  is_dir l (mkdir_all W l fs).2 = true.
Proof.
  induction l as [|c l IH]; intros Hl; [by split_and!|].
  assert (W (c :: l) = true ∧ ∀ d t, fs !! (c :: l) ≠ Some (NFile d t)) as [Hw Hn] by by apply Hl.
  cbn [mkdir_all]. destruct (fs !! (c :: l)) as [[|d t]|] eqn:E; [|by destruct (Hn d t)|].
  { split_and!; [done|done|]. cbn. by rewrite E. }
  destruct IH as (H1 & H2 & H3).
  { intros l' Hs. apply Hl. by apply suffix_cons_r. }
  destruct (mkdir_all W l fs) as [ok fs1] eqn:Em. cbn [fst snd] in *. subst ok. rewrite Hw. cbn [andb].
  split_and!; [done| |].
  - cbn [fst snd]. intros l' Hs Hne Hsome. rewrite lookup_insert_ne by (intros <-; rewrite E in Hsome; by destruct Hsome).
    apply suffix_cons_cases in Hs as [->|Hs]; [rewrite E in Hsome; by destruct Hsome|]. by apply H2.
  - cbn. by rewrite lookup_insert_eq.
Qed.

(** It makes no file and removes none. *)
Lemma mkdir_all_files W l fs l' d t :
  (mkdir_all W l fs).2 !! l' = Some (NFile d t) ↔ fs !! l' = Some (NFile d t).
Proof.
  revert l'. induction l as [|c l IH]; intros l'; [done|]. cbn [mkdir_all].
  destruct (fs !! (c :: l)) as [[]|] eqn:E; [done|done|].
  specialize (IH l'). destruct (mkdir_all W l fs) as [ok fs1] eqn:Em. cbn [snd] in IH.
  destruct (ok && W (c :: l)); [|done]. cbn [snd]. destruct (decide (l' = c :: l)) as [->|Hne].
  - rewrite lookup_insert_eq, E. done.
  - by rewrite lookup_insert_ne by done.
Qed.

(** What exists stays as it is. *)
Lemma mkdir_all_keeps W l fs l' n : fs !! l' = Some n → (mkdir_all W l fs).2 !! l' = Some n.
Proof.
  induction l as [|c l IH]; [done|]. intros H. cbn [mkdir_all].
  destruct (fs !! (c :: l)) as [[]|] eqn:E; [done|done|]. specialize (IH H).
  destruct (mkdir_all W l fs) as [ok fs1]. cbn [snd] in IH. destruct (ok && W (c :: l)); [|done]. cbn [snd].
  rewrite lookup_insert_ne; [done|]. intros <-. congruence.
Qed.

Lemma open_trunc_same_off W now l fs fs' :
  open_trunc W now l fs = Some fs' → same_off (eq l) fs fs' ∧ fs' !! l = Some (NFile "" now).
Proof.
  unfold open_trunc. destruct l as [|c l]; [done|]. destruct (W (c :: l)); [cbn [negb]|done].
  destruct (fs !! (c :: l)) as [[]|]; [done|..|case_if; [|done]];
    intros [= <-]; (split; [by apply insert_same_off|by rewrite lookup_insert_eq]).
Qed.

(** ** The directory of a joined path *)

Lemma path_clean_print p : p ≠ ""%string → path_clean p = print_stack (is_abs p) (stack_of p).
Proof. intros Hp. unfold path_clean. by rewrite (proj2 (String.eqb_neq _ _) Hp). Qed.

(** [Dir] of a printed path leads to the parent, unless the path ends in "..". *)
Lemma resolve_dirname_print cwd rooted c st :
  stack_ok rooted (c :: st) → stack_ok rooted st →
  resolve cwd (print_stack rooted (c :: st)) =
  push_comp true (resolve cwd (path_dirname (print_stack rooted (c :: st)))) c.
Proof.
  intros Hok Hok'. rewrite path_dirname_print; [|done|].
  2: { destruct Hok as [Hf _]. by inversion Hf. }
  rewrite !resolve_print by done. cbn [rev]. by rewrite fold_left_app.
Qed.

Lemma stack_ok_tail rooted c st : stack_ok rooted (c :: st) → stack_ok rooted st.
Proof.
  intros [Hf (a & n & E & Ha & Hr)]. inversion Hf; subst. split; [done|].
  destruct a as [|x a]; cbn [app] in E.
  - destruct n as [|n]; [done|]. injection E as -> ->. exists [], n. split_and!; [done|done|].
    intros H%Hr. done.
  - injection E as -> ->. inversion Ha; subst. by exists a, n.
Qed.

(** The three places the directory of a path can be, seen from the path. *)
Lemma resolve_dirname cwd d n :
  d ≠ ""%string → n ≠ ""%string →
  let p := path_join2 d n in
  let l := resolve cwd p in let l' := resolve cwd (path_dirname p) in
  l = l' ∨ (∃ c, l = c :: l') ∨ l = tail l'.
Proof.
  intros Hd Hn p l l'. subst p l l'. rewrite path_join2_spec by done.
  set (st := push_path (is_abs d) (stack_of d) n).
  assert (stack_ok (is_abs d) st) as Hok by apply push_path_ok, stack_of_ok.
  destruct st as [|c st]; [by destruct (is_abs d); left|].
  rewrite resolve_dirname_print by (exact Hok || exact (stack_ok_tail _ _ _ Hok)).
  set (l' := resolve _ _). unfold push_comp. case_if; [by left|]. case_if; [|right; left; by eexists].
  destruct l' as [|x l']; [by left|]. case_if; [|by right; right]. right; left. by eexists.
Qed.

(** A file below the directory lies in the directory [Dir] names. *)
Lemma resolve_dirname_below cwd d n :
  d ≠ ""%string → n ≠ ""%string → stays_below n = true → push_path false [] n ≠ [] →
  resolve cwd (path_dirname (path_join2 d n)) = tail (push_path false [] n) ++ resolve cwd d.
Proof.
  intros Hd Hn Hb Hne. pose proof (resolve_below cwd d n Hd Hn Hb) as Hl.
  rewrite path_join2_spec in * by done. rewrite push_path_below in * by done.
  pose proof (push_path_ok false [] n (stack_ok_nil false)) as Hrel.
  destruct (push_path false [] n) as [|c a] eqn:E; [done|]. cbn [app tail] in *.
  assert (c ≠ dotdot) as Hc.
  { apply bool_decide_eq_true in Hb. rewrite E in Hb. intros ->. apply Hb. left. }
  assert (comp_ok c) as (H1 & H2 & H3) by (destruct Hrel as [Hf _]; by inversion Hf).
  assert (stack_ok (is_abs d) (c :: a ++ stack_of d)) as Hok.
  { rewrite app_comm_cons, <-E, <-(push_path_below (is_abs d)) by done. apply push_path_ok, stack_of_ok. }
  rewrite resolve_dirname_print in Hl by (exact Hok || exact (stack_ok_tail _ _ _ Hok)).
  rewrite push_comp_ordinary in Hl by done. by injection Hl.
Qed.

Lemma suffix_comparable (x y z : loc) : suffix x z → suffix y z → suffix x y ∨ suffix y x.
Proof.
  intros [k ->] [m E]. revert m E. induction k as [|c k IH]; intros m E; cbn [app] in E.
  - right. by exists m.
  - destruct m as [|e m]; cbn [app] in E; [left; by exists (c :: k)|].
    injection E as _ E. by apply (IH m).
Qed.

(** Only a regular file is found as one. *)
Lemma stat_file l fs d t : stat l fs = Found (NFile d t) → fs !! l = Some (NFile d t).
Proof.
  unfold stat. destruct l as [|c l]; [done|]. destruct (fs !! (c :: l)) as [n|]; [by intros [= ->]|].
  induction l as [|x l IH]; cbn [missing_below]; [done|]. by destruct (fs !! (x :: l)) as [[]|].
Qed.
