(* ===== verification/GoTime.v ===== *)
(** * The parts of Go's [time] package the servers use

    A [time.Time] is its number of nanoseconds since the Unix epoch (the zero
    [Time], year 1, is [time_zero]); a [time.Duration] is an int64 number of
    nanoseconds.  [Sub] saturates as the library does.  [RFC3339] formatting is
    written out with the proleptic Gregorian calendar. *)

From S2P Require Import Prelude GoStrings GoStringsFacts Strconv.
From Stdlib Require Import ZArith Lia ZifyBool Bool Ascii String.
From stdpp Require Import base option list.

Open Scope go_scope.
Open Scope Z_scope.

Definition time := Z.
Definition duration := Z.

Definition millisecond : duration := 1000000.
Definition second : duration := 1000000000.
Definition minute : duration := 60 * second.
Definition hour : duration := 60 * minute.

Definition time_zero : time := -62135596800 * second.
Definition is_zero (t : time) : bool := t =? time_zero.

(** [t.Sub(u)], saturated to an int64. *)
Definition time_sub (t u : time) : duration := Z.max min_i64 (Z.min max_i64 (t - u)).
Definition time_add (t : time) (d : duration) : time := t + d.
Definition time_after (t u : time) : bool := u <? t.
Definition time_before (t u : time) : bool := t <? u.
(** [t.Truncate(time.Second)] *)
Definition truncate_second (t : time) : time := t - t mod second.
(** [t.UnixMilli()], [t.Unix()] *)
Definition unix_milli (t : time) : Z := wrap_i64 (t / millisecond).
Definition unix_sec (t : time) : Z := t / second.
(** [uint32(d.Seconds())] for a duration of at most an hour: the float sum of
    the whole seconds and the fraction never reaches the next integer. *)
Definition seconds_u32 (d : duration) : Z := d / second.

(** ** Calendar *)

(** Year, month and day of a day number (days since 1970-01-01). *)
Definition civil_of_days (days : Z) : Z * Z * Z :=
  let z := days + 719468 in
  let era := z / 146097 in
  let doe := z mod 146097 in
  let yoe := (doe - doe / 1460 + doe / 36524 - doe / 146096) / 365 in
  let doy := doe - (365 * yoe + yoe / 4 - yoe / 100) in
  let mp := (5 * doy + 2) / 153 in
  let d := doy - (153 * mp + 2) / 5 + 1 in
  let m := if mp <? 10 then mp + 3 else mp - 9 in
  let y := yoe + era * 400 + (if m <=? 2 then 1 else 0) in
  (y, m, d).

(** Decimal with leading zeros up to [w] characters. *)
Definition pad_int (w : nat) (n : Z) : string :=
  let s := format_int n in
  Nat.iter (w - String.length s) (λ acc, String "0" acc) s.

(** [t.UTC().Format(time.RFC3339)] *)
Definition rfc3339 (t : time) : string :=
  let secs := unix_sec t in
  let '(y, m, d) := civil_of_days (secs / 86400) in
  let sod := secs mod 86400 in
  pad_int 4 y ++s "-" ++s pad_int 2 m ++s "-" ++s pad_int 2 d ++s "T" ++s
  pad_int 2 (sod / 3600) ++s ":" ++s pad_int 2 (sod mod 3600 / 60) ++s ":" ++s
  pad_int 2 (sod mod 60) ++s "Z".

(** ** Lemmas *)

Lemma time_sub_exact t u : in_i64 (t - u) → time_sub t u = t - u.
Proof. unfold time_sub, in_i64. lia. Qed.

Lemma time_sub_mono t t' u : t ≤ t' → time_sub t u ≤ time_sub t' u.
Proof. unfold time_sub. lia. Qed.

Lemma truncate_second_le t : truncate_second t ≤ t < truncate_second t + second.
Proof. unfold truncate_second. pose proof (Z.mod_pos_bound t second eq_refl). lia. Qed.

Lemma truncate_second_mono t u : t ≤ u → truncate_second t ≤ truncate_second u.
Proof.
  intros H. unfold truncate_second.
  assert (Hd : ∀ x, x - x mod second = second * (x / second)).
  { intros x. pose proof (Z.div_mod x second). unfold second in *. lia. }
  rewrite !Hd. pose proof (Z.div_le_mono t u second eq_refl H). unfold second in *. lia.
Qed.

Lemma rfc3339_epoch : rfc3339 0 = "1970-01-01T00:00:00Z"%string.
Proof. reflexivity. Qed.
