(* ===== verification/Glog.v ===== *)
(** * pkg/glog: the in-memory log and the rotation of log files

    [RingBuffer] with its subscriber channels, [Logger]'s category filter and
    writers, and [DailyRotateWriter] over a directory of named files.  [None]
    is a run-time panic.  The console, the file system's failures and the JSON
    text of events are outside. *)

From S2P Require Import Prelude GoStrings GoStringsFacts Strconv.
From Stdlib Require Import ZArith Lia ZifyBool Bool Ascii String Sorted.
From stdpp Require Import base option list gmap strings sorting.

Open Scope go_scope.
Open Scope Z_scope.

(** ** The ring buffer *)

(** A subscriber's channel: the lines waiting in it, and whether it was closed. *)
Record chan := mkChan { ch_queue : list string; ch_closed : bool }.

(** pkg/glog/ringbuffer.go:8-15 [RingBuffer]: channels are shared by reference,
    so they live in a store and [subs] holds their identities. *)
Record RingBuffer := mkRing {
  rb_lines : list string; rb_pos : Z; rb_count : Z; rb_subs : list nat;
  rb_chans : gmap nat chan; rb_next : nat
}.

(** pkg/glog/ringbuffer.go:18-22 [NewRingBuffer] *)
Definition NewRingBuffer (capacity : nat) : RingBuffer :=
  mkRing (replicate capacity ""%string) 0 0 [] ∅ 0.

Definition chan_cap : nat := 64.

(** pkg/glog/ringbuffer.go:28-33 [RingBuffer.Write part]: the section under
    [mu].  Storing into an empty slice panics. *)
Definition write_line (line : string) (b : RingBuffer) : option RingBuffer :=
  let len := Z.of_nat (length (rb_lines b)) in
  if (rb_pos b <? 0) || (len <=? rb_pos b) then None
  else Some (mkRing (<[Z.to_nat (rb_pos b) := line]> (rb_lines b)) ((rb_pos b + 1) mod len)
               (if rb_count b <? len then rb_count b + 1 else rb_count b)
               (rb_subs b) (rb_chans b) (rb_next b)).

(** One non-blocking send: dropped when the channel is full, a panic when it is
    closed. *)
Definition try_send (line : string) (chans : option (gmap nat chan)) (c : nat) : option (gmap nat chan) :=
  match chans with
  | None => None
  | Some m =>
      match m !! c with
      | None => Some m
      | Some k =>
          if ch_closed k then None
          else if (length (ch_queue k) <? chan_cap)%nat
               then Some (<[c := mkChan (ch_queue k ++ [line]) false]> m)
               else Some m
      end
  end.

(** pkg/glog/ringbuffer.go:35-42 [RingBuffer.Write part]: the section under
    [subsMu]. *)
Definition notify (line : string) (b : RingBuffer) : option RingBuffer :=
  match fold_left (try_send line) (rb_subs b) (Some (rb_chans b)) with
  | None => None
  | Some m => Some (mkRing (rb_lines b) (rb_pos b) (rb_count b) (rb_subs b) m (rb_next b))
  end.

(** pkg/glog/ringbuffer.go:25-45 [RingBuffer.Write] *)
Definition Write (line : string) (b : RingBuffer) : option RingBuffer :=
  match write_line line b with None => None | Some b => notify line b end.

(** pkg/glog/ringbuffer.go:48-61 [RingBuffer.Recent]: [make] panics on a
    negative length, the modulus on an empty buffer. *)
Definition Recent (n : Z) (b : RingBuffer) : option (list string) :=
  let len := Z.of_nat (length (rb_lines b)) in
  let n := if rb_count b <? n then rb_count b else n in
  if n <? 0 then None
  else if len =? 0 then None
  else
    let start := Z.rem (rb_pos b - n + len) len in
    mapM (λ i, rb_lines b !! Z.to_nat (Z.rem (start + i) len)) (seqZ 0 n).

(** pkg/glog/ringbuffer.go:64-70 [RingBuffer.Subscribe] *)
Definition Subscribe (b : RingBuffer) : RingBuffer * nat :=
  (mkRing (rb_lines b) (rb_pos b) (rb_count b) (rb_subs b ++ [rb_next b])
     (<[rb_next b := mkChan [] false]> (rb_chans b)) (S (rb_next b)), rb_next b).

(** Removal of the first occurrence. *)
Fixpoint remove_first (c : nat) (l : list nat) : list nat :=
  match l with
  | [] => []
  | d :: l' => if (d =? c)%nat then l' else d :: remove_first c l'
  end.

(** pkg/glog/ringbuffer.go:73-83 [RingBuffer.Unsubscribe]: closing a closed
    channel panics. *)
Definition Unsubscribe (c : nat) (b : RingBuffer) : option RingBuffer :=
  match rb_chans b !! c with
  | None => None
  | Some k =>
      if ch_closed k then None
      else Some (mkRing (rb_lines b) (rb_pos b) (rb_count b) (remove_first c (rb_subs b))
                   (<[c := mkChan (ch_queue k) true]> (rb_chans b)) (rb_next b))
  end.

(** A receive by the subscriber (the streaming handler's [<-ch]). *)
Definition receive (c : nat) (b : RingBuffer) : option (string * RingBuffer) :=
  match rb_chans b !! c with
  | Some (mkChan (x :: q) cl) =>
      Some (x, mkRing (rb_lines b) (rb_pos b) (rb_count b) (rb_subs b)
                 (<[c := mkChan q cl]> (rb_chans b)) (rb_next b))
  | _ => None
  end.

(** What callers do with the buffer, in any order. *)
Inductive log_op :=
  | OWrite (line : string) | OSubscribe | OUnsubscribe (c : nat) | OReceive (c : nat).

Definition log_step (op : log_op) (b : RingBuffer) : option RingBuffer :=
  match op with
  | OWrite line => Write line b
  | OSubscribe => Some (Subscribe b).1
  | OUnsubscribe c => Unsubscribe c b
  | OReceive c => Some (match receive c b with Some (_, b') => b' | None => b end)
  end.

Fixpoint log_run (ops : list log_op) (b : RingBuffer) : option RingBuffer :=
  match ops with [] => Some b | op :: ops' => match log_step op b with None => None | Some b' => log_run ops' b' end end.

(** The lines written by a history, oldest first. *)
Definition written (ops : list log_op) : list string :=
  omap (λ op, match op with OWrite l => Some l | _ => None end) ops.

(** The last [n] elements. *)
Definition last_n {A} (n : nat) (l : list A) : list A := drop (length l - n) l.

(** ** The buffer holds the most recent lines *)

Record ring_ok (cap : nat) (log : list string) (b : RingBuffer) : Prop := {
  ro_len : length (rb_lines b) = cap;
  ro_pos : rb_pos b = Z.of_nat (length log) mod Z.of_nat cap;
  ro_count : rb_count b = Z.of_nat (min (length log) cap);
  ro_at : ∀ i x, log !! i = Some x → (length log ≤ i + cap)%nat →
            rb_lines b !! (i mod cap)%nat = Some x
}.

Lemma ring_ok_new cap : ring_ok cap [] (NewRingBuffer cap).
Proof. split; simpl; [by rewrite length_replicate|by rewrite Zmod_0_l|done|done]. Qed.

(** Only [write_line] touches what [ring_ok] talks about. *)
Lemma ring_ok_same cap log b b' :
  ring_ok cap log b →
  (rb_lines b', rb_pos b', rb_count b') = (rb_lines b, rb_pos b, rb_count b) → ring_ok cap log b'.
Proof. intros [] [= El Ep Ec]. split; by rewrite ?El, ?Ep, ?Ec. Qed.

Lemma mod_ne_window (i n cap : nat) :
  (0 < cap)%nat → (i < n)%nat → (S n ≤ i + cap)%nat → (i mod cap ≠ n mod cap)%nat.
Proof.
  intros Hc Hi Hn He.
  pose proof (Nat.div_mod_eq i cap). pose proof (Nat.div_mod_eq n cap).
  rewrite He in *. destruct (Nat.lt_trichotomy (i / cap) (n / cap)) as [?|[He'|?]]; [nia|rewrite He' in *; lia|nia].
Qed.

Lemma write_line_ok cap log line b :
  (0 < cap)%nat → ring_ok cap log b →
  ∃ b', write_line line b = Some b' ∧ ring_ok cap (log ++ [line]) b' ∧
        rb_subs b' = rb_subs b ∧ rb_chans b' = rb_chans b ∧ rb_next b' = rb_next b.
Proof.
  intros Hc Hok. destruct Hok as [Hl Hp Hn Ha]. unfold write_line. rewrite Hl.
  pose proof (Z.mod_pos_bound (Z.of_nat (length log)) (Z.of_nat cap) ltac:(lia)) as Hb.
  rewrite <-Hp in Hb.
  replace (_ || _) with false by lia. eexists. split; [done|]. split_and!; [|done..].
  assert (Z.to_nat (rb_pos b) = (length log mod cap)%nat) as Hidx
    by (rewrite Hp, <-Nat2Z.inj_mod by lia; lia).
  split; simpl; rewrite ?length_insert, ?length_app; simpl.
  - done.
  - rewrite Hp, Zplus_mod_idemp_l. f_equal. lia.
  - rewrite Hn. destruct (Z.ltb_spec (Z.of_nat (min (length log) cap)) (Z.of_nat cap)); lia.
  - intros i x Hi Hw. rewrite Hidx. apply lookup_app_Some in Hi as [Hi|[Hge Hi]].
    + apply lookup_lt_Some in Hi as Hlt. rewrite list_lookup_insert_ne by
        (symmetry; apply mod_ne_window; lia). apply Ha; [done|lia].
    + assert (i = length log) as -> by (destruct (i - length log)%nat eqn:E; [lia|done]).
      rewrite Nat.sub_diag in Hi. injection Hi as ->. apply list_lookup_insert_eq.
      rewrite Hl. apply Nat.mod_upper_bound. lia.
Qed.

(** ** The subscribers *)

(** A line offered to an open channel. *)
Definition offer (line : string) (k : chan) : chan :=
  if (length (ch_queue k) <? chan_cap)%nat then mkChan (ch_queue k ++ [line]) false else k.

(** The subscribed channels are the open ones. *)
Record subs_ok (b : RingBuffer) : Prop := {
  so_nodup : NoDup (rb_subs b);
  so_open : ∀ c, c ∈ rb_subs b ↔ ∃ k, rb_chans b !! c = Some k ∧ ch_closed k = false;
  so_fresh : ∀ c, is_Some (rb_chans b !! c) → (c < rb_next b)%nat
}.

Lemma try_send_all line subs m :
  NoDup subs → (∀ c, c ∈ subs → ∃ k, m !! c = Some k ∧ ch_closed k = false) →
  ∃ m', fold_left (try_send line) subs (Some m) = Some m' ∧
    ∀ c, m' !! c = if decide (c ∈ subs) then offer line <$> m !! c else m !! c.
Proof.
  intros Hnd. revert m. induction Hnd as [|c subs Hc Hnd IH]; intros m Hm.
  { exists m. split; [done|]. intros c. by rewrite decide_False by apply not_elem_of_nil. }
  destruct (Hm c ltac:(by left)) as (k & Hk & Ho).
  assert (try_send line (Some m) c = Some (<[c := offer line k]> m)) as Hs.
  { unfold try_send, offer. rewrite Hk, Ho. case_if; [done|]. by rewrite insert_id. }
  cbn [fold_left]. rewrite Hs. destruct (IH (<[c := offer line k]> m)) as (m' & Hm' & Hl).
  { intros d Hd. rewrite lookup_insert_ne by (intros ->; done). apply Hm. by right. }
  exists m'. split; [done|]. intros d. rewrite Hl. destruct (decide (d = c)) as [->|Hne].
  - rewrite decide_False by done. rewrite decide_True by by left. by rewrite lookup_insert_eq, Hk.
  - rewrite lookup_insert_ne by done.
    assert (d ∈ c :: subs ↔ d ∈ subs) as He by (rewrite elem_of_cons; naive_solver).
    by rewrite (decide_ext _ _ _ _ He).
Qed.

Lemma notify_ok line b :
  subs_ok b →
  ∃ b', notify line b = Some b' ∧ subs_ok b' ∧
    (rb_lines b', rb_pos b', rb_count b') = (rb_lines b, rb_pos b, rb_count b) ∧
    (∀ c, rb_chans b' !! c =
       if decide (c ∈ rb_subs b) then offer line <$> rb_chans b !! c else rb_chans b !! c).
Proof.
  intros [Hnd Hop Hf]. unfold notify.
  destruct (try_send_all line (rb_subs b) (rb_chans b) Hnd) as (m' & -> & Hm'); [by intros c ?%Hop|].
  eexists. split; [done|]. split_and!; [|done|done]. split; simpl; [done| |].
  - intros c. rewrite Hm', (Hop c). destruct (decide (c ∈ rb_subs b)) as [Hc|Hc].
    + apply Hop in Hc as (k & -> & Hk). simpl. split; [|by eauto]. intros _. eexists. split; [done|].
      unfold offer. by case_if.
    + done.
  - intros c. rewrite Hm'. case_decide; [rewrite fmap_is_Some|]; apply Hf.
Qed.

Lemma remove_first_elem c l d : NoDup l → d ∈ remove_first c l ↔ d ∈ l ∧ d ≠ c.
Proof.
  induction 1 as [|x l Hx Hl IH]; simpl; [set_solver|].
  destruct (Nat.eqb_spec x c) as [->|Hne]; [set_solver|]. rewrite !elem_of_cons, IH. naive_solver.
Qed.

Lemma remove_first_nodup c l : NoDup l → NoDup (remove_first c l).
Proof.
  induction 1 as [|x l Hx Hl IH]; simpl; [constructor|].
  destruct (x =? c)%nat; [done|]. constructor; [|done]. rewrite remove_first_elem by done. naive_solver.
Qed.

Lemma subs_ok_new cap : subs_ok (NewRingBuffer cap).
Proof. split; simpl; [constructor| |by intros c [? ?]]. intros c. rewrite elem_of_nil. naive_solver. Qed.

Lemma subscribe_ok b : subs_ok b → subs_ok (Subscribe b).1.
Proof.
  intros [Hnd Hop Hf]. assert (rb_chans b !! rb_next b = None) as Hn.
  { apply eq_None_not_Some. intros H%Hf. lia. }
  assert (rb_next b ∉ rb_subs b) as Hni by (intros (k & Hk & _)%Hop; by rewrite Hn in Hk).
  split; simpl.
  - apply NoDup_app. split_and!; [done| |apply NoDup_singleton]. intros x Hx ->%list_elem_of_singleton. done.
  - intros c. rewrite elem_of_app, list_elem_of_singleton. destruct (decide (c = rb_next b)) as [->|Hc].
    + rewrite lookup_insert_eq. naive_solver.
    + rewrite lookup_insert_ne by done. rewrite Hop. naive_solver.
  - intros c. destruct (decide (c = rb_next b)) as [->|Hc]; [lia|].
    rewrite lookup_insert_ne by done. intros ?%Hf. lia.
Qed.

Lemma chan_update_ok b c q :
  subs_ok b → (∃ k, rb_chans b !! c = Some k) →
  subs_ok (mkRing (rb_lines b) (rb_pos b) (rb_count b) (rb_subs b)
             (alter (λ k, mkChan q (ch_closed k)) c (rb_chans b)) (rb_next b)).
Proof.
  intros [Hnd Hop Hf] [k Hk]. split; simpl; [done| |].
  - intros d. destruct (decide (d = c)) as [->|Hd].
    + rewrite lookup_alter_eq, Hop, Hk. simpl. naive_solver.
    + by rewrite lookup_alter_ne.
  - intros d. destruct (decide (d = c)) as [->|Hd].
    + rewrite lookup_alter_eq, fmap_is_Some. apply Hf.
    + rewrite lookup_alter_ne by done. apply Hf.
Qed.

Lemma unsubscribe_ok c b b' :
  subs_ok b → Unsubscribe c b = Some b' →
  subs_ok b' ∧ (rb_lines b', rb_pos b', rb_count b') = (rb_lines b, rb_pos b, rb_count b).
Proof.
  intros [Hnd Hop Hf]. unfold Unsubscribe. destruct (rb_chans b !! c) as [k|] eqn:Hk; [|done].
  destruct (ch_closed k) eqn:Ho; [done|]. intros [= <-]. split; [|done]. split; simpl.
  - by apply remove_first_nodup.
  - intros d. rewrite remove_first_elem by done. destruct (decide (d = c)) as [->|Hd].
    + rewrite lookup_insert_eq. naive_solver.
    + rewrite lookup_insert_ne by done. rewrite Hop. naive_solver.
  - intros d. destruct (decide (d = c)) as [->|Hd]; [intros _; apply Hf; eauto|].
    rewrite lookup_insert_ne by done. apply Hf.
Qed.

Lemma receive_alter c x b b' :
  receive c b = Some (x, b') →
  ∃ q cl, rb_chans b !! c = Some (mkChan (x :: q) cl) ∧
    b' = mkRing (rb_lines b) (rb_pos b) (rb_count b) (rb_subs b)
           (alter (λ k, mkChan q (ch_closed k)) c (rb_chans b)) (rb_next b).
Proof.
  unfold receive. destruct (rb_chans b !! c) as [[[|y q] cl]|] eqn:Hk; [done| |done].
  intros [= <- <-]. exists q, cl. split; [done|]. f_equal.
  apply map_eq. intros d. destruct (decide (d = c)) as [->|Hd].
  - by rewrite lookup_insert_eq, lookup_alter_eq, Hk.
  - by rewrite lookup_insert_ne, lookup_alter_ne by done.
Qed.

Lemma log_step_ok cap op log b b' :
  (0 < cap)%nat → ring_ok cap log b → subs_ok b → log_step op b = Some b' →
  ring_ok cap (log ++ written [op]) b' ∧ subs_ok b'.
Proof.
  intros Hc Hr Hs. destruct op as [line| |c|c]; simpl; rewrite ?app_nil_r.
  - unfold Write. destruct (write_line_ok cap log line b Hc Hr) as (b1 & -> & Hr1 & E1 & E2 & E3).
    assert (subs_ok b1) as Hs1 by (destruct Hs; split; by rewrite ?E1, ?E2, ?E3).
    destruct (notify_ok line b1 Hs1) as (b2 & -> & Hs2 & He & _). intros [= <-].
    split; [by eapply ring_ok_same|done].
  - intros [= <-]. split; [by eapply ring_ok_same|by apply subscribe_ok].
  - intros Hu. destruct (unsubscribe_ok c b b' Hs Hu) as [? ?]. split; [by eapply ring_ok_same|done].
  - destruct (receive c b) as [[x b1]|] eqn:Er; intros [= <-]; [|done].
    apply receive_alter in Er as (q & cl & Hk & ->). split; [by eapply ring_ok_same|].
    apply chan_update_ok; eauto.
Qed.

Lemma written_app o1 o2 : written (o1 ++ o2) = written o1 ++ written o2.
Proof. apply omap_app. Qed.

Lemma log_run_ok cap ops : (0 < cap)%nat → ∀ log b b',
  ring_ok cap log b → subs_ok b → log_run ops b = Some b' →
  ring_ok cap (log ++ written ops) b' ∧ subs_ok b'.
Proof.
  intros Hc. induction ops as [|op ops IH]; intros log b b' Hr Hs; cbn [log_run].
  { intros [= <-]. by rewrite app_nil_r. }
  destruct (log_step op b) as [b1|] eqn:E; [|done]. intros Hrun.
  destruct (log_step_ok cap op log b b1 Hc Hr Hs E) as [Hr1 Hs1].
  change (op :: ops) with ([op] ++ ops). rewrite written_app, (assoc_L (++)). by eapply IH.
Qed.

Lemma mapM_lookup_seq {A} (g : Z → nat) (l : list A) (k : nat) (out : list A) :
  length out = k → (∀ i x, out !! i = Some x → l !! g (Z.of_nat i) = Some x) →
  mapM (λ i, l !! g i) (seqZ 0 (Z.of_nat k)) = Some out.
Proof.
  intros <- H. apply mapM_Some. apply Forall2_same_length_lookup. split.
  - rewrite length_seqZ. lia.
  - intros i z x Hz Hx. apply lookup_seqZ in Hz as [-> _]. by apply H.
Qed.

Lemma Recent_ok cap log b n :
  (0 < cap)%nat → ring_ok cap log b → 0 ≤ n →
  Recent n b = Some (last_n (min (Z.to_nat n) cap) log).
Proof.
  intros Hc [Hl Hp Hn Ha] H0. unfold Recent. rewrite Hl, Hn, Hp. set (N := length log) in *.
  set (k := min (min (Z.to_nat n) cap) N).
  assert ((if Z.of_nat (min N cap) <? n then Z.of_nat (min N cap) else n) = Z.of_nat k) as ->
    by (destruct (Z.ltb_spec (Z.of_nat (min N cap)) n); lia).
  replace (Z.of_nat k <? 0) with false by lia. replace (Z.of_nat cap =? 0) with false by lia.
  pose proof (Z.mod_pos_bound (Z.of_nat N) (Z.of_nat cap) ltac:(lia)) as Hb.
  set (g := λ i : Z, Z.to_nat (Z.rem (Z.rem (Z.of_nat N mod Z.of_nat cap - Z.of_nat k + Z.of_nat cap)
                                (Z.of_nat cap) + i) (Z.of_nat cap))).
  apply (mapM_lookup_seq g). { unfold last_n. rewrite length_drop. fold N. lia. }
  intros i x Hi. unfold last_n in Hi. rewrite lookup_drop in Hi. apply lookup_lt_Some in Hi as Hlt.
  fold N in Hi, Hlt.
  assert (g (Z.of_nat i) = ((N - min (Z.to_nat n) cap + i) mod cap)%nat) as ->; [|apply Ha; [done|lia]].
  unfold g. rewrite (Z.rem_mod_nonneg (_ - _ + _)) by lia.
  rewrite Z.rem_mod_nonneg, Zplus_mod_idemp_l; [|apply Z.add_nonneg_nonneg; [apply Z.mod_pos_bound|]; lia|lia].
  replace (Z.of_nat N mod Z.of_nat cap - Z.of_nat k + Z.of_nat cap + Z.of_nat i)
    with (Z.of_nat N mod Z.of_nat cap + (Z.of_nat i - Z.of_nat k + 1 * Z.of_nat cap)) by lia.
  rewrite Zplus_mod_idemp_l, Z.add_assoc, Z_mod_plus_full.
  replace (Z.of_nat N + (Z.of_nat i - Z.of_nat k)) with (Z.of_nat (N - min (Z.to_nat n) cap + i)) by lia.
  rewrite <-Nat2Z.inj_mod by lia. lia.
Qed.

(** The ring buffer is the log of everything written, cut to its capacity: after
    any history of writes, subscriptions, receives and unsubscriptions that
    does not panic, [Recent n] returns the last [n] lines, or all it still
    holds, oldest first; and the next write does not panic. *)
Theorem ring_refines (cap : nat) (ops : list log_op) (b : RingBuffer) :
  (0 < cap)%nat → log_run ops (NewRingBuffer cap) = Some b →
  (∀ n, 0 ≤ n → Recent n b = Some (last_n (min (Z.to_nat n) cap) (written ops))) ∧
  (∀ line, is_Some (Write line b)).
Proof.
  intros Hc Hrun.
  destruct (log_run_ok cap ops Hc [] _ b (ring_ok_new cap) (subs_ok_new cap) Hrun) as [Hr Hs].
  split; [intros n Hn; by apply Recent_ok|]. intros line. unfold Write.
  destruct (write_line_ok cap _ line b Hc Hr) as (b1 & -> & _ & E1 & E2 & E3).
  assert (subs_ok b1) as Hs1 by (destruct Hs; split; by rewrite ?E1, ?E2, ?E3).
  destruct (notify_ok line b1 Hs1) as (b2 & -> & _). by eexists.
Qed.

Lemma ring_refines_witness :
  let ops := [OWrite "a"; OSubscribe; OWrite "b"; OReceive 0; OWrite "c"; OUnsubscribe 0; OWrite "d"] in
  ∃ b, log_run ops (NewRingBuffer 3) = Some b ∧
  Recent 2 b = Some ["c"; "d"]%string ∧
  (∀ n, 0 ≤ n → Recent n b = Some (last_n (min (Z.to_nat n) 3) (written ops))) ∧
  (∀ line, is_Some (Write line b)).
Proof.
  eexists. split; [vm_compute; reflexivity|]. split; [vm_compute; reflexivity|].
  apply (ring_refines 3 [OWrite "a"; OSubscribe; OWrite "b"; OReceive 0; OWrite "c"; OUnsubscribe 0; OWrite "d"]%string);
    [lia|vm_compute; reflexivity].
Defined.

(** ** What a subscriber receives *)

(** The lines the subscriber [c] takes out during a history. *)
Fixpoint received (c : nat) (ops : list log_op) (b : RingBuffer) : list string :=
  match ops with
  | [] => []
  | op :: ops' =>
      match log_step op b with
      | None => []
      | Some b' =>
          (match op with
           | OReceive d => if (d =? c)%nat then match receive c b with Some (x, _) => [x] | None => [] end else []
           | _ => []
           end) ++ received c ops' b'
      end
  end.

(** What waits in the channel. *)
Definition pending (c : nat) (b : RingBuffer) : list string :=
  match rb_chans b !! c with Some k => ch_queue k | None => [] end.

Lemma pending_step c op b b' :
  subs_ok b → log_step op b = Some b' →
  ∃ added, pending c b ++ added =
    (match op with
     | OReceive d => if (d =? c)%nat then match receive c b with Some (x, _) => [x] | None => [] end else []
     | _ => []
     end) ++ pending c b' ∧ added `sublist_of` written [op].
Proof.
  intros Hs. destruct op as [line| |d|d]; simpl.
  - unfold Write. destruct (write_line line b) as [b1|] eqn:E1; [|done].
    assert (rb_chans b1 = rb_chans b ∧ rb_subs b1 = rb_subs b ∧ rb_next b1 = rb_next b) as (Ec & Es & En).
    { unfold write_line in E1. case_if; [done|]. by injection E1 as <-. }
    assert (subs_ok b1) as Hs1 by (destruct Hs; split; by rewrite ?Es, ?Ec, ?En).
    destruct (notify_ok line b1 Hs1) as (b2 & -> & _ & _ & Hl). intros [= <-].
    unfold pending. rewrite Hl, Ec. destruct (rb_chans b !! c) as [k|]; case_decide; simpl;
      [|exists []; rewrite ?app_nil_r; split; [done|apply sublist_nil_l]..].
    unfold offer. destruct (_ <? _)%nat; [exists [line]; done|].
    exists []. rewrite app_nil_r. split; [done|apply sublist_nil_l].
  - intros [= <-]. exists []. split; [|apply sublist_nil_l]. rewrite app_nil_r. unfold pending. simpl.
    destruct (decide (c = rb_next b)) as [->|Hc]; [|by rewrite lookup_insert_ne].
    rewrite lookup_insert_eq. destruct (rb_chans b !! rb_next b) eqn:E; [|done].
    assert (is_Some (rb_chans b !! rb_next b)) as H%(so_fresh _ Hs) by by eexists. lia.
  - unfold Unsubscribe. destruct (rb_chans b !! d) as [k|] eqn:E; [|done].
    destruct (ch_closed k); [done|]. intros [= <-]. exists []. split; [|apply sublist_nil_l].
    rewrite app_nil_r. unfold pending. simpl. destruct (decide (c = d)) as [->|Hc].
    + by rewrite lookup_insert_eq, E.
    + by rewrite lookup_insert_ne.
  - intros [= <-]. exists []. split; [|apply sublist_nil_l]. rewrite app_nil_r. unfold pending.
    destruct (Nat.eqb_spec d c) as [->|Hd].
    + destruct (receive c b) as [[x b1]|] eqn:Er; [|done].
      apply receive_alter in Er as (q & cl & Hk & ->). simpl. by rewrite lookup_alter_eq, Hk.
    + destruct (receive d b) as [[x b1]|] eqn:Er; [|done].
      apply receive_alter in Er as (q & cl & Hk & ->). simpl. by rewrite lookup_alter_ne.
Qed.

Lemma log_step_subs op b b' : subs_ok b → log_step op b = Some b' → subs_ok b'.
Proof.
  intros Hs. destruct op as [line| |c|c]; simpl.
  - unfold Write. destruct (write_line line b) as [b1|] eqn:E; [|done].
    assert (subs_ok b1) as Hs1.
    { unfold write_line in E. case_if; [done|]. injection E as <-. by destruct Hs; split. }
    destruct (notify_ok line b1 Hs1) as (b2 & -> & Hs2 & _). by intros [= <-].
  - intros [= <-]. by apply subscribe_ok.
  - intros Hu. by apply (unsubscribe_ok c b b' Hs) in Hu as [? _].
  - destruct (receive c b) as [[x b1]|] eqn:Er; intros [= <-]; [|done].
    apply receive_alter in Er as (q & cl & Hk & ->). apply chan_update_ok; eauto.
Qed.

(** A subscriber sees lines in the order they were written, each at most once:
    what it received and what waits for it is a subsequence of what waited
    before and the lines written since (a full channel drops lines, nothing
    else does). *)
Lemma subscriber_order c ops b b' :
  subs_ok b → log_run ops b = Some b' →
  received c ops b ++ pending c b' `sublist_of` pending c b ++ written ops.
Proof.
  revert b. induction ops as [|op ops IH]; intros b Hs; cbn [log_run received].
  { intros [= <-]. by rewrite app_nil_r. }
  destruct (log_step op b) as [b1|] eqn:E; [|done]. intros Hrun.
  destruct (pending_step c op b b1 Hs E) as (added & Hp & Hadd).
  specialize (IH b1 (log_step_subs _ _ _ Hs E) Hrun).
  change (op :: ops) with ([op] ++ ops). rewrite written_app, <-(assoc_L (++)).
  etrans; [by apply sublist_app|]. rewrite (assoc_L (++)), <-Hp, <-(assoc_L (++)).
  by apply sublist_app; [|apply sublist_app].
Qed.
