(* ===== verification/GlogFiles.v ===== *)
(** * pkg/glog: daily rotation, the category filter, the event log

    Files are named by their directory and their name; a directory listing is
    the names filed under it (sub-directories are not listed as files).  The
    date of the day and whether an open succeeds are arguments.  Then the writer
    that ends the lines of a Windows console. *)

From S2P Require Import Prelude GoStrings GoStringsFacts Strconv GoSort GoPath Glog.
From Stdlib Require Import ZArith Lia ZifyBool Bool Ascii String Sorted.
From stdpp Require Import base option list gmap strings.

Open Scope go_scope.
Open Scope Z_scope.

(** ** Files *)

Abbreviation logfs := (gmap (string * string) string).

Definition at_path (p : string) : string * string := (path_dirname p, path_base p).

(** [os.OpenFile(p, O_CREATE|O_APPEND|O_WRONLY)] *)
Definition open_append (ok : bool) (p : string) (fs : logfs) : bool * logfs :=
  if negb ok then (false, fs)
  else match fs !! at_path p with Some _ => (true, fs) | None => (true, <[at_path p := ""%string]> fs) end.

Definition append_file (p data : string) (fs : logfs) : logfs :=
  alter (λ c, c ++s data) (at_path p) fs.

(** [os.Rename], its error dropped. *)
Definition rename (old new : string) (fs : logfs) : logfs :=
  match fs !! at_path old with
  | Some c => <[at_path new := c]> (delete (at_path old) fs)
  | None => fs
  end.

(** The names [os.ReadDir] lists, directories aside. *)
Definition read_dir (dir : string) (fs : logfs) : list string :=
  omap (λ kv, if kv.1.1 =s? path_clean dir then Some kv.1.2 else None) (map_to_list fs).

Definition remove_all (dir : string) (names : list string) (fs : logfs) : logfs :=
  fold_left (λ fs n, delete (at_path (path_join2 dir n)) fs) names fs.

(** ** Rotation *)

(** pkg/glog/rotate.go:22-28 [DailyRotateWriter] *)
Record DailyRotateWriter := mkDRW {
  w_basePath : string; w_curDate : string; w_maxFiles : Z; w_file : bool
}.

(** pkg/glog/rotate.go:33-55 [NewDailyRotateWriter] *)
Definition NewDailyRotateWriter (basePath : string) (maxFiles : Z) (today : string) (ok : bool)
  (fs : logfs) : DailyRotateWriter * logfs :=
  let maxFiles := if maxFiles <=? 0 then 10 else maxFiles in
  let '(opened, fs) := open_append ok basePath fs in
  (mkDRW basePath today maxFiles opened, fs).

(** pkg/glog/rotate.go:114-123 [DailyRotateWriter.cleanup part]: the rotated files of this log. *)
Definition rotated_name (w : DailyRotateWriter) (base ext name : string) : bool :=
  negb (name =s? path_base (w_basePath w)) &&
  (has_prefix name (path_base base ++s ".") && has_suffix name ext).

(** pkg/glog/rotate.go:99-136 [DailyRotateWriter.cleanup] *)
Definition cleanup (w : DailyRotateWriter) (base ext : string) (fs : logfs) : logfs :=
  let dir := path_dirname base in
  let dir := if dir =s? "" then "."%string else dir in
  let rotated := filter (λ n, rotated_name w base ext n = true) (read_dir dir fs) in
  if Z.of_nat (length rotated) <=? w_maxFiles w then fs
  else remove_all dir
         (take (Z.to_nat (Z.of_nat (length rotated) - w_maxFiles w)) (sort_by id rotated)) fs.

(** pkg/glog/rotate.go:75-96 [DailyRotateWriter.rotate] *)
Definition rotate (today : string) (ok : bool) (w : DailyRotateWriter) (fs : logfs)
  : DailyRotateWriter * logfs :=
  let ext := path_ext (w_basePath w) in
  let base := trim_suffix (w_basePath w) ext in
  let rotatedName := base ++s "." ++s w_curDate w ++s ext in
  let fs := rename (w_basePath w) rotatedName fs in
  let '(opened, fs) := open_append ok (w_basePath w) fs in
  let w := mkDRW (w_basePath w) today (w_maxFiles w) opened in
  (w, cleanup w base ext fs).

(** pkg/glog/rotate.go:58-71 [DailyRotateWriter.Write] *)
Definition write_log (p today : string) (ok : bool) (w : DailyRotateWriter) (fs : logfs)
  : DailyRotateWriter * logfs :=
  let '(w, fs) := if negb (today =s? w_curDate w) then rotate today ok w fs else (w, fs) in
  if negb (w_file w) then (w, fs) else (w, append_file (w_basePath w) p fs).

(** ** Categories *)

(** pkg/glog/glog.go:21-21 [allCategories] *)
Definition allCategories : list string := ["lifecycle"; "connection"; "request"; "error"; "debug"]%string.

(** pkg/glog/glog.go:48-56 [New part]: the categories a configuration enables. *)
Definition enabled_categories (categories : list string) : list string :=
  match categories with [] => allCategories | _ => categories end.

(** pkg/glog/glog.go:104-111 [Logger.Log] *)
Definition Log (categories : list string) (cat line : string) (b : RingBuffer) : option RingBuffer :=
  if bool_decide (cat ∈ enabled_categories categories) then Write line b else Some b.

(** Where a line goes: the ring buffer always, then the console and the file. *)
Inductive log_target := TRing | TConsole | TFile.

(** pkg/glog/glog.go:58-99 [New part] *)
Definition log_targets (output : string) (file_opened : bool) : list log_target :=
  let file := if file_opened then [TFile] else [] in
  TRing :: (if output =s? "both" then TConsole :: file
            else if output =s? "file" then file
            else if output =s? "disabled" then []
            else [TConsole]).

(** ** Events *)

(** pkg/glog/events.go:37-43 [EventWriter] *)
Record EventWriter := mkEW { ew_enabled : bool; ew_buf : option RingBuffer; ew_service : string }.

(** pkg/glog/events.go:53-86 [NewEventWriter part]: the in-memory side. *)
Definition NewEventWriter (enabled : bool) (file service : string) : EventWriter :=
  if negb enabled || (file =s? "") || (service =s? "") then mkEW false None ""
  else mkEW true (Some (NewRingBuffer 500)) service.

(** [json.Marshal] of an event's keys and values; [None] is an error. *)
Class EventJSON := { json_string : string → string; json_value : string → option string }.

(** pkg/glog/events.go:94-137 [EventWriter.Emit part]: the line.  [fields] is
    the map in the order Go ranges over it; a value is its JSON source. *)
Definition event_line `{EventJSON} (ts event service : string) (fields : list (string * string)) : string :=
  let kv k v := json_string k ++s ":" ++s json_string v in
  let body := fold_left (λ b '(k, v),
    if (k =s? "ts") || (k =s? "event") || (k =s? "service") then b
    else match json_value v with
         | None => b ++s ","
         | Some j => b ++s "," ++s json_string k ++s ":" ++s j
         end) fields
    ("{" ++s kv "ts" ts ++s "," ++s kv "event" event ++s "," ++s kv "service" service) in
  body ++s "}".

(** pkg/glog/events.go:94-137 [EventWriter.Emit part]: the effect on the buffer. *)
Definition Emit (line : string) (w : EventWriter) : option EventWriter :=
  if negb (ew_enabled w) then Some w
  else match ew_buf w with
       | None => Some w
       | Some b => match Write line b with
                   | None => None
                   | Some b' => Some (mkEW true (Some b') (ew_service w))
                   end
       end.

(** pkg/glog/events.go:142-147 [EventWriter.Tail]: the outer [None] is a panic. *)
Definition Tail (n : Z) (w : EventWriter) : option (list string) :=
  if negb (ew_enabled w) then Some []
  else match ew_buf w with None => Some [] | Some b => Recent n b end.

(** ** What a directory listing shows *)

Definition plain (n : string) : Prop := comp_ok n ∧ n ≠ dotdot.
Definition fs_ok (fs : logfs) : Prop := ∀ d n, is_Some (fs !! (d, n)) → plain n.

Lemma elem_read_dir dir fs n : n ∈ read_dir dir fs ↔ is_Some (fs !! (path_clean dir, n)).
Proof.
  unfold read_dir. rewrite list_elem_of_omap. split.
  - intros ([[d m] c] & Hin & Hn). cbn in Hn. destruct (String.eqb_spec d (path_clean dir)) as [->|]; [|done].
    injection Hn as <-. apply elem_of_map_to_list in Hin. by eexists.
  - intros [c Hc]. exists ((path_clean dir, n), c). cbn. rewrite String.eqb_refl.
    split; [by apply elem_of_map_to_list|done].
Qed.

Lemma omap_NoDup {A B} (f : A → option B) l :
  NoDup l → (∀ x y z, f x = Some z → f y = Some z → x = y) → NoDup (omap f l).
Proof.
  intros Hl Hf. induction Hl as [|x l Hx Hl IH]; simpl; [constructor|].
  destruct (f x) as [z|] eqn:E; [|done]. constructor; [|done].
  intros (y & Hy & Hz)%list_elem_of_omap. by rewrite (Hf x y z E Hz) in Hx.
Qed.

Lemma read_dir_NoDup dir fs : NoDup (read_dir dir fs).
Proof.
  unfold read_dir.
  assert (NoDup (map_to_list fs).*1) as Hnd by apply NoDup_fst_map_to_list.
  assert (∀ l : list (string * string * string), NoDup l.*1 →
    NoDup (omap (λ kv, if kv.1.1 =s? path_clean dir then Some kv.1.2 else None) l)) as Hg; [|by apply Hg].
  induction l as [|[[d m] c] l IH]; simpl; [constructor|]. intros [Hx Hl]%NoDup_cons.
  destruct (String.eqb_spec d (path_clean dir)) as [->|]; [|by apply IH].
  constructor; [|by apply IH]. intros ([[d' m'] c'] & Hin & Hn)%list_elem_of_omap. cbn in Hn.
  destruct (String.eqb_spec d' (path_clean dir)) as [->|]; [|done]. injection Hn as ->.
  apply Hx. apply list_elem_of_fmap. by exists (path_clean dir, m, c').
Qed.

Lemma at_join d n : d ≠ ""%string → plain n → at_path (path_join2 d n) = (path_clean d, n).
Proof. intros Hd [Hn Hdd]. unfold at_path. by destruct (join_dir_base d n Hd Hn Hdd) as [-> ->]. Qed.

Lemma remove_all_lookup dir names fs k :
  dir ≠ ""%string → Forall plain names →
  remove_all dir names fs !! k =
  if decide (k.1 = path_clean dir ∧ k.2 ∈ names) then None else fs !! k.
Proof.
  intros Hd Hn. unfold remove_all. revert fs. induction Hn as [|n names Hp Hn IH]; intros fs; cbn [fold_left].
  - rewrite decide_False; [done|]. intros [_ H]. by apply not_elem_of_nil in H.
  - rewrite IH, at_join by done. destruct k as [d m]. cbn [fst snd].
    destruct (decide (d = path_clean dir ∧ m = n)) as [[-> ->]|Hne].
    + rewrite lookup_delete_eq, (decide_True (P := path_clean dir = _ ∧ n ∈ n :: names)) by (split; [done|left]).
      by destruct (decide _).
    + rewrite lookup_delete_ne by naive_solver.
      assert ((d = path_clean dir ∧ m ∈ names) ↔ (d = path_clean dir ∧ m ∈ n :: names)) as He
        by (rewrite elem_of_cons; naive_solver).
      by rewrite (decide_ext _ _ _ _ He).
Qed.

Section cleanup.
Variables (w : DailyRotateWriter) (base ext : string) (fs : logfs).
Hypothesis Hfs : fs_ok fs.

Let dir := path_dirname base.
Let matching := filter (λ n, rotated_name w base ext n = true) (read_dir dir fs).
Let k := Z.to_nat (Z.of_nat (length matching) - w_maxFiles w).

Lemma dirname_not_empty p : path_dirname p ≠ ""%string.
Proof.
  unfold path_dirname, path_clean. case_if; [done|]. apply print_stack_not_empty, stack_of_ok.
Qed.

Lemma clean_dir : path_clean dir = dir.
Proof. apply path_clean_idem. Qed.

Lemma matching_NoDup : NoDup matching.
Proof. apply NoDup_filter, read_dir_NoDup. Qed.

Lemma matching_plain : Forall plain matching.
Proof.
  apply Forall_forall. intros n [_ Hn]%list_elem_of_filter. apply elem_read_dir in Hn. by eapply Hfs.
Qed.

Lemma sorted_perm : sort_by id matching ≡ₚ matching.
Proof. apply sort_by_perm. Qed.

(** [cleanup] removes the [k] smallest rotated names and nothing else. *)
Lemma cleanup_lookup d n :
  cleanup w base ext fs !! (d, n) =
  if decide (d = dir ∧ n ∈ take k (sort_by id matching)) then None else fs !! (d, n).
Proof.
  unfold cleanup. fold dir. rewrite (proj2 (String.eqb_neq dir "")) by apply dirname_not_empty.
  fold matching. destruct (Z.leb_spec (Z.of_nat (length matching)) (w_maxFiles w)).
  - rewrite decide_False; [done|]. replace k with 0%nat by (unfold k; lia). intros [_ Hn].
    by apply not_elem_of_nil in Hn.
  - fold k. rewrite remove_all_lookup; [|apply dirname_not_empty|].
    + cbn [fst snd]. by rewrite clean_dir.
    + apply Forall_take. rewrite sorted_perm. apply matching_plain.
Qed.

(** At most [maxFiles] rotated files are left, the greatest names. *)
Lemma cleanup_retention :
  0 ≤ w_maxFiles w →
  filter (λ n, rotated_name w base ext n = true) (read_dir dir (cleanup w base ext fs))
    ≡ₚ drop k (sort_by id matching) ∧
  Z.of_nat (length (drop k (sort_by id matching))) ≤ w_maxFiles w.
Proof.
  intros Hm. assert (length (sort_by id matching) = length matching) as Hl
    by (apply Permutation_length, sorted_perm). split; [|rewrite length_drop, Hl; unfold k; lia].
  pose proof matching_NoDup as Hnd. rewrite <-sorted_perm in Hnd.
  rewrite <-(take_drop k (sort_by id matching)) in Hnd. apply NoDup_app in Hnd as (_ & Hdis & Hd).
  apply NoDup_Permutation; [apply NoDup_filter, read_dir_NoDup|done|].
  intros n. rewrite list_elem_of_filter, elem_read_dir, clean_dir, cleanup_lookup.
  assert (rotated_name w base ext n = true ∧ is_Some (fs !! (dir, n)) ↔ n ∈ sort_by id matching) as Hin.
  { rewrite sorted_perm. unfold matching. rewrite list_elem_of_filter, elem_read_dir, clean_dir. done. }
  rewrite <-(take_drop k (sort_by id matching)), elem_of_app in Hin.
  destruct (decide (dir = dir ∧ n ∈ take k (sort_by id matching))) as [[_ Ht]|Hnt].
  - split; [by intros [_ [? ?]]|]. intros Hnd. by destruct (Hdis n Ht).
  - naive_solver.
Qed.
End cleanup.

(** ** A rotation *)

Section rotation.
Variables (d stem e : string) (w : DailyRotateWriter) (fs : logfs).
Let cur := stem ++s "." ++s e.
Let dated := stem ++s "." ++s w_curDate w ++s "." ++s e.
Hypotheses (Hd : d ≠ ""%string) (Hstem : plain stem) (He : contains_byte "." e = false)
  (Hesl : contains_byte slash e = false) (Hdate : contains_byte slash (w_curDate w) = false)
  (Hbase : w_basePath w = path_join2 d cur) (Hfs : fs_ok fs).

Lemma plain_app s t : plain s → t ≠ ""%string → contains_byte slash t = false → has_prefix t "." = true →
  plain (s ++s t) .
Proof.
  intros [(Hs & Hdot & Hsl) Hdd] Ht Htsl Hp. destruct t as [|c t]; [done|].
  assert (c = "."%char) as -> by (apply andb_true_iff in Hp as [Hp _]; symmetry; by apply Ascii.eqb_eq).
  assert (∀ x, (String.length x < 2)%nat → s ++s String "." t ≠ x) as Hlen.
  { intros x Hx Heq. apply (f_equal String.length) in Heq. rewrite slength_app in Heq.
    destruct s; [done|]. cbn in Heq. lia. }
  split; [split_and!|].
  - by apply Hlen; cbn; lia.
  - by apply Hlen; cbn; lia.
  - by rewrite contains_byte_app, Hsl, Htsl.
  - intros Heq. destruct s as [|a [|b s]]; [done| |].
    + cbn in Heq. injection Heq as -> ->. done.
    + cbn in Heq. injection Heq as _ _ Heq. by destruct s.
Qed.

Lemma plain_cur : plain cur.
Proof. apply plain_app; [done|done| |done]. change ("." ++s e) with (String "." e). cbn. by rewrite Hesl. Qed.

Lemma plain_dated : plain dated.
Proof.
  apply plain_app; [done|done| |done].
  rewrite !contains_byte_app, Hdate, Hesl. done.
Qed.

Lemma cur_ne_dated : cur ≠ dated.
Proof.
  intros H. apply sapp_inj_l in H. apply (f_equal String.length) in H. rewrite !slength_app in H.
  cbn [String.length] in H. lia.
Qed.

(** The paths [rotate] builds from the base path. *)
Lemma rotate_paths :
  let ext := path_ext (w_basePath w) in
  let base := trim_suffix (w_basePath w) ext in
  ext = ("." ++s e)%string ∧ base = path_join2 d stem ∧
  base ++s "." ++s w_curDate w ++s ext = path_join2 d dated.
Proof.
  cbv zeta. destruct (join_prefix d Hd) as [pre Hpre].
  pose proof plain_cur as [Hc1 Hc2]. pose proof plain_dated as [Hd1 Hd2].
  assert (path_ext (w_basePath w) = "." ++s e)%string as ->.
  { unfold path_ext. rewrite Hbase, join_after_slash by done. unfold cur.
    change ("." ++s e)%string with (String "." e). rewrite last_index_byte_app by done. apply drop_str_app. }
  assert (trim_suffix (w_basePath w) ("." ++s e) = path_join2 d stem) as ->.
  { rewrite Hbase, Hpre, (Hpre stem) by apply Hstem || done. unfold cur.
    by rewrite <-sapp_assoc, trim_suffix_app. }
  split_and!; [done|done|]. rewrite (Hpre stem), (Hpre dated) by apply Hstem || done.
  unfold dated. by rewrite !sapp_assoc.
Qed.

Lemma fs_ok_insert n c f : fs_ok f → plain n → fs_ok (<[(path_clean d, n) := c]> f).
Proof.
  intros Hf Hn d' n' [x Hx]. apply lookup_insert_Some in Hx as [[[= <- <-] _]|[_ Hx]]; [done|].
  by eapply Hf.
Qed.

Lemma fs_ok_delete k f : fs_ok f → fs_ok (delete k f).
Proof. intros Hf d' n' [x [_ Hx]%lookup_delete_Some]. by eapply Hf. Qed.

Lemma read_dir_dom dir f g :
  (∀ n, is_Some (f !! (path_clean dir, n)) ↔ is_Some (g !! (path_clean dir, n))) →
  read_dir dir f ≡ₚ read_dir dir g.
Proof.
  intros H. apply NoDup_Permutation; [apply read_dir_NoDup..|]. intros n. by rewrite !elem_read_dir.
Qed.

Let D := path_clean d.
Let pat (n : string) : Prop := rotated_name w (path_join2 d stem) ("." ++s e) n = true.

Lemma rotated_dated : pat dated.
Proof.
  unfold pat, rotated_name. rewrite Hbase. pose proof plain_cur as [? ?].
  destruct (join_dir_base d cur) as [_ ->]; [done..|].
  destruct (join_dir_base d stem) as [_ ->]; [by try apply Hstem..|].
  rewrite (proj2 (String.eqb_neq dated cur)) by (intros Heq; by apply cur_ne_dated). cbn [negb andb].
  apply andb_true_iff. split.
  - unfold dated. rewrite <-sapp_assoc. apply has_prefix_app.
  - unfold dated. rewrite <-!sapp_assoc, sapp_assoc. apply has_suffix_app.
Qed.

Lemma rotated_cur : ¬ pat cur.
Proof.
  unfold pat, rotated_name. rewrite Hbase. pose proof plain_cur as [? ?].
  destruct (join_dir_base d cur) as [_ ->]; [done..|]. by rewrite String.eqb_refl.
Qed.

(** The directory after the rename and the new file. *)
Definition renamed (old : string) : logfs :=
  <[(path_clean d, stem ++s "." ++s e) := ""%string]>
    (<[(path_clean d, stem ++s "." ++s w_curDate w ++s "." ++s e) := old]>
       (delete (path_clean d, stem ++s "." ++s e) fs)).

Lemma renamed_ok old : fs_ok (renamed old).
Proof.
  apply fs_ok_insert; [apply fs_ok_insert; [by apply fs_ok_delete|apply plain_dated]|apply plain_cur].
Qed.

Lemma write_log_rotates today line old :
  today ≠ w_curDate w → fs !! (path_clean d, cur) = Some old →
  let w2 := mkDRW (w_basePath w) today (w_maxFiles w) true in
  write_log line today true w fs =
  (w2, append_file (w_basePath w) line (cleanup w2 (path_join2 d stem) ("." ++s e) (renamed old))).
Proof.
  cbv zeta. intros Hday Hold. unfold write_log. rewrite (proj2 (String.eqb_neq _ _)) by done. cbn [negb].
  unfold rotate. destruct rotate_paths as (-> & -> & Hdt). rewrite Hdt. unfold rename, open_append. cbn [negb].
  rewrite Hbase, !at_join by (done || apply plain_cur || apply plain_dated). rewrite Hold.
  rewrite lookup_insert_ne by (intros [= H]; by apply cur_ne_dated). by rewrite lookup_delete_eq.
Qed.

Section rotated.
Variables (today line old : string).
Hypothesis (Hm : 0 < w_maxFiles w).

Let w2 := mkDRW (w_basePath w) today (w_maxFiles w) true.
Let f3 := cleanup w2 (path_join2 d stem) ("." ++s e) (renamed old).
Let f' := append_file (w_basePath w) line f3.
Let M := filter pat (read_dir D (renamed old)).
Let k := Z.to_nat (Z.of_nat (length M) - w_maxFiles w).
Let S := sort_by id M.

Lemma clean_D : path_clean D = D.
Proof. apply path_clean_idem. Qed.

Lemma stem_dir : path_dirname (path_join2 d stem) = D.
Proof. by destruct (join_dir_base d stem Hd (proj1 Hstem) (proj2 Hstem)). Qed.

Lemma after_alter : f' = alter (λ c, c ++s line) (D, cur) f3.
Proof. unfold f', append_file. by rewrite Hbase, at_join by (done || apply plain_cur). Qed.

Lemma f3_lookup d' n :
  f3 !! (d', n) = if decide (d' = D ∧ n ∈ take k S) then None else renamed old !! (d', n).
Proof.
  pose proof (cleanup_lookup w2 (path_join2 d stem) ("." ++s e) (renamed old) (renamed_ok old)) as H.
  rewrite stem_dir in H. apply H.
Qed.

Lemma elem_S n : n ∈ S ↔ pat n ∧ is_Some (renamed old !! (D, n)).
Proof. unfold S. rewrite sort_by_perm. unfold M. by rewrite list_elem_of_filter, elem_read_dir, clean_D. Qed.

Lemma take_S n : n ∈ take k S → n ∈ S.
Proof. intros Hn. rewrite <-(take_drop k S). apply elem_of_app. by left. Qed.

Lemma kept_perm : filter pat (read_dir D f') ≡ₚ drop k S.
Proof.
  pose proof (cleanup_retention w2 (path_join2 d stem) ("." ++s e) (renamed old) (renamed_ok old)
    ltac:(cbn [w_maxFiles w2]; lia)) as [H _]. rewrite stem_dir in H.
  transitivity (filter pat (read_dir D f3)); [|exact H].
  apply filter_Permutation, read_dir_dom. intros n. rewrite clean_D, after_alter.
  destruct (decide (n = cur)) as [->|Hn]; [by rewrite lookup_alter_eq, fmap_is_Some|].
  by rewrite lookup_alter_ne by congruence.
Qed.

Lemma length_S : length S = length M.
Proof. apply Permutation_length, sort_by_perm. Qed.

Lemma evicted_below x y : x ∈ take k S → y ∈ filter pat (read_dir D f') → str_ltb x y = true.
Proof.
  intros Hx Hy. rewrite kept_perm in Hy. eapply (increasing_cut id S k); [|done|done].
  apply sort_by_increasing. rewrite map_id. apply NoDup_filter, read_dir_NoDup.
Qed.

Lemma after_lookup d' n :
  (d', n) ≠ (D, cur) →
  f' !! (d', n) = if decide (d' = D ∧ n ∈ take k S) then None else renamed old !! (d', n).
Proof. intros Hn. rewrite after_alter, lookup_alter_ne by done. apply f3_lookup. Qed.

Lemma after_cur : f' !! (D, cur) = Some line.
Proof.
  rewrite after_alter, lookup_alter_eq, f3_lookup, decide_False.
  - unfold renamed. by rewrite lookup_insert_eq.
  - intros [_ H%take_S%elem_S]. by apply rotated_cur, (proj1 H).
Qed.

(** The first write of a new day closes the day's file under its dated name and
    starts an empty one: afterwards the log holds exactly the new line; the
    closed day's content is under the dated name, or was evicted because
    [maxFiles] greater names are kept; at most [maxFiles] rotated files are
    left and every evicted name is smaller than every kept one; files whose
    name does not match the pattern are untouched. *)
Theorem rotation_exact :
  today ≠ w_curDate w → fs !! (path_clean d, cur) = Some old →
  let '(w', fs') := write_log line today true w fs in
  let is_rotated n := (rotated_name w (path_join2 d stem) ("." ++s e) n = true)%string in
  let kept := filter is_rotated (read_dir (path_clean d) fs') in
  w_curDate w' = today ∧ fs' !! (path_clean d, cur) = Some line ∧
  (fs' !! (path_clean d, dated) = Some old ∨
   Z.of_nat (length kept) = w_maxFiles w ∧ ∀ y, y ∈ kept → str_ltb dated y = true) ∧
  Z.of_nat (length kept) ≤ w_maxFiles w ∧
  (∀ n c, fs !! (path_clean d, n) = Some c → n ≠ cur → fs' !! (path_clean d, n) = None →
     is_rotated n ∧ ∀ y, y ∈ kept → str_ltb n y = true) ∧
  (∀ k, k ≠ (path_clean d, cur) → ¬ (k.1 = path_clean d ∧ is_rotated k.2) → fs' !! k = fs !! k).
Proof.
  intros Hday Hold. rewrite (write_log_rotates today line old Hday Hold). cbv zeta.
  fold w2 D pat. fold f3. fold f'. split_and!; [done|apply after_cur| | | |].
  - destruct (decide (dated ∈ take k S)) as [Ht|Ht].
    + right. split; [|by intros y; apply evicted_below]. rewrite kept_perm, length_drop, length_S.
      assert (k ≠ 0%nat) by (intros Hk0; rewrite Hk0 in Ht; by apply not_elem_of_nil in Ht).
      unfold k in *. lia.
    + left. rewrite after_lookup, decide_False by (naive_solver || (intros [= Heq]; by apply cur_ne_dated)).
      unfold renamed. rewrite lookup_insert_ne by (intros [= Heq]; by apply cur_ne_dated).
      by rewrite lookup_insert_eq.
  - rewrite kept_perm, length_drop, length_S. unfold k. lia.
  - intros n c Hn Hne Hnone. rewrite after_lookup in Hnone by (intros [= Heq]; by destruct Hne).
    case_decide as Ht.
    + destruct Ht as [_ Ht]. split; [by apply elem_S, take_S|by intros y; apply evicted_below].
    + unfold renamed in Hnone.
      apply lookup_insert_None in Hnone as [Hnone _]. apply lookup_insert_None in Hnone as [Hnone _].
      rewrite lookup_delete_ne in Hnone by (intros [= Heq]; by destruct Hne). by rewrite Hn in Hnone.
  - intros [d' n] Hne Hnp. assert ((D, cur) ≠ (d', n)) as H1 by by apply not_eq_sym.
    assert ((D, dated) ≠ (d', n)) as H2
      by (intros [= <- <-]; apply Hnp; split; [done|apply rotated_dated]).
    rewrite after_lookup, decide_False by (done || (intros [-> H%take_S%elem_S]; naive_solver)).
    unfold renamed. rewrite lookup_insert_ne by apply H1. rewrite lookup_insert_ne by apply H2.
    by rewrite lookup_delete_ne by apply H1.
Qed.
End rotated.
End rotation.

Definition demo_fs : logfs :=
  <[("logs", "rv.log") := "day2"]> (<[("logs", "rv.2026-01-01.log") := "day1"]> ∅)%string.
Definition demo_writer : DailyRotateWriter := mkDRW "logs/rv.log" "2026-01-02" 1 true.

Lemma demo_fs_ok : fs_ok demo_fs.
Proof.
  intros d n [c Hc]. unfold demo_fs in Hc.
  apply lookup_insert_Some in Hc as [[[= <- <-] _]|[_ Hc]]; [done|].
  apply lookup_insert_Some in Hc as [[[= <- <-] _]|[_ Hc]]; done.
Qed.

Lemma rotation_exact_witness :
  map_to_list (write_log "day3" "2026-01-03" true demo_writer demo_fs).2
    = [(("logs", "rv.2026-01-02.log"), "day2"); (("logs", "rv.log"), "day3")]%string ∧
  let '(w', fs') := write_log "day3" "2026-01-03" true demo_writer demo_fs in
  let is_rotated n := rotated_name demo_writer (path_join2 "logs" "rv") ".log" n = true in
  let kept := filter is_rotated (read_dir (path_clean "logs") fs') in
  w_curDate w' = "2026-01-03"%string ∧ fs' !! (path_clean "logs", "rv.log"%string) = Some "day3"%string ∧
  (fs' !! (path_clean "logs", "rv.2026-01-02.log"%string) = Some "day2"%string ∨
   Z.of_nat (length kept) = 1 ∧ ∀ y, y ∈ kept → str_ltb "rv.2026-01-02.log" y = true) ∧
  Z.of_nat (length kept) ≤ 1 ∧
  (∀ n c, demo_fs !! (path_clean "logs", n) = Some c → n ≠ "rv.log"%string →
     fs' !! (path_clean "logs", n) = None →
     is_rotated n ∧ ∀ y, y ∈ kept → str_ltb n y = true) ∧
  (∀ k, k ≠ (path_clean "logs", "rv.log"%string) → ¬ (k.1 = path_clean "logs" ∧ is_rotated k.2) →
     fs' !! k = demo_fs !! k).
Proof.
  split; [vm_compute; reflexivity|].
  apply (rotation_exact "logs" "rv" "log" demo_writer demo_fs); try done.
  apply demo_fs_ok.
Defined.

(** The pattern is a prefix and a suffix, not a date: rotating one log deletes
    the live log of another component whose name extends its own. *)
Theorem cleanup_takes_foreign_log :
  let fs : logfs := <[("logs", "rv.log") := "a"]> (<[("logs", "rv.2026-01-01.log") := "b"]>
                    (<[("logs", "rv.000-audit.log") := "live"]> ∅))%string in
  let fs' := (write_log "c" "2026-01-03" true (mkDRW "logs/rv.log" "2026-01-02" 2 true) fs).2 in
  fs !! ("logs", "rv.000-audit.log")%string = Some "live"%string ∧
  fs' !! ("logs", "rv.000-audit.log")%string = None.
Proof. split; vm_compute; reflexivity. Qed.

(** An event with a field that cannot be encoded keeps the comma written before
    it: the line ends in ",}" and is not a JSON object. *)
Theorem event_dangling_comma `{EventJSON} ts event service k v :
  k ≠ "ts"%string → k ≠ "event"%string → k ≠ "service"%string → json_value v = None →
  has_suffix (event_line ts event service [(k, v)]) ",}" = true.
Proof.
  intros H1 H2 H3 Hv. unfold event_line. cbn [fold_left].
  rewrite (proj2 (String.eqb_neq k _) H1), (proj2 (String.eqb_neq k _) H2), (proj2 (String.eqb_neq k _) H3).
  cbn [orb]. rewrite Hv. rewrite sapp_assoc. apply (has_suffix_app ",}").
Qed.

(** A disabled writer emits nothing and has nothing; an enabled one keeps the
    last events: [Tail] after any sequence of emitted lines. *)
Lemma tail_recent (lines : list string) (n : Z) (service : string) :
  0 ≤ n → service ≠ ""%string →
  ∃ w, fold_left (λ o l, match o with Some w => Emit l w | None => None end) lines
         (Some (NewEventWriter true "f" service)) = Some w ∧
       Tail n w = Some (last_n (min (Z.to_nat n) 500) lines).
Proof.
  intros Hn Hs. unfold NewEventWriter. rewrite (proj2 (String.eqb_neq service "")) by done.
  cbn [negb orb String.eqb].
  assert (∀ log b, ring_ok 500 log b → subs_ok b →
    ∃ w, fold_left (λ o l, match o with Some w => Emit l w | None => None end) lines
           (Some (mkEW true (Some b) service)) = Some w ∧
         Tail n w = Some (last_n (min (Z.to_nat n) 500) (log ++ lines))) as Hg.
  { induction lines as [|l lines IH]; intros log b Hr Hsub; cbn [fold_left].
    - eexists. split; [done|]. rewrite app_nil_r. cbn. by apply Recent_ok; [lia|..].
    - cbn [Emit ew_enabled negb ew_buf ew_service].
      destruct (write_line_ok 500 log l b ltac:(lia) Hr) as (b1 & Hb1 & Hr1 & E1 & E2 & E3).
      assert (subs_ok b1) as Hs1 by (destruct Hsub; split; by rewrite ?E1, ?E2, ?E3).
      destruct (notify_ok l b1 Hs1) as (b2 & Hb2 & Hs2 & He & _). unfold Emit.
      cbn [ew_enabled negb ew_buf ew_service]. unfold Write. rewrite Hb1, Hb2.
      destruct (IH (log ++ [l]) b2 (ring_ok_same _ _ _ _ Hr1 He) Hs2) as (w & Hw & Ht).
      exists w. split; [exact Hw|]. by rewrite <-(assoc_L (++)) in Ht. }
  apply (Hg [] (NewRingBuffer 500)); [apply ring_ok_new|apply subs_ok_new].
Qed.

(** * pkg/glog/console_windows.go, console_other.go: the console writer

    The writer that ends lines with CR LF on a Windows console, one [Write] at a
    time: what it adds, what it leaves alone, and what the cut between two
    [Write]s costs. *)

Open Scope go_scope.

Definition CR : ascii := "013".
Definition LF : ascii := "010".

(** pkg/glog/console_windows.go:15-21 [crlfWriter.Write part]: [cr] says that
    the byte before in the same slice is a CR. *)
Fixpoint crlf_from (cr : bool) (p : string) : string :=
  match p with
  | EmptyString => ""
  | String b p =>
      let rest := String b (crlf_from (b =? CR)%char p) in
      if (b =? LF)%char && negb cr then String CR rest else rest
  end.

Definition crlf (p : string) : string := crlf_from false p.

Section write.
Context {W : Type} (write : string → W → bool * W).

(** pkg/glog/console_windows.go:14-28 [crlfWriter.Write]: the count and whether
    it succeeded. *)
Definition crlfWrite (p : string) (w : W) : nat * bool * W :=
  match write (crlf p) w with
  | (false, w) => (O, false, w)
  | (true, w) => (String.length p, true, w)
  end.

(** pkg/glog/console_windows.go:30-30 [wrapConsole] *)
Definition wrapConsole_windows : string → W → nat * bool * W := crlfWrite.

(** pkg/glog/console_other.go:10-10 [wrapConsole] *)
Definition wrapConsole_other : string → W → bool * W := write.

(** The sequence of [Write]s of a program, until one fails. *)
Fixpoint crlfWrites (ps : list string) (w : W) : nat * W :=
  match ps with
  | [] => (O, w)
  | p :: ps =>
      match crlfWrite p w with
      | (_, false, w) => (O, w)
      | (_, true, w) => let '(n, w) := crlfWrites ps w in (S n, w)
      end
  end.
End write.

(** ** What it does to a text *)

(** Every LF follows a CR; [cr] says that one came before. *)
Fixpoint ended (cr : bool) (s : string) : bool :=
  match s with
  | EmptyString => true
  | String b s => (negb (b =? LF)%char || cr) && ended (b =? CR)%char s
  end.

Lemma crlf_from_ended cr p : ended cr (crlf_from cr p) = true.
Proof.
  revert cr. induction p as [|b p IH]; intros cr; cbn [crlf_from]; [done|].
  destruct (Ascii.eqb_spec b LF) as [-> |Hb]; destruct cr; cbn [andb negb ended]; rewrite ?IH; try done.
  - rewrite (proj2 (Ascii.eqb_neq b LF)) by done. done.
  - rewrite (proj2 (Ascii.eqb_neq b LF)) by done. done.
Qed.

Lemma crlf_from_same cr s : ended cr s = true → crlf_from cr s = s.
Proof.
  revert cr. induction s as [|b s IH]; intros cr; cbn [ended crlf_from]; [done|].
  intros [Hb Hs]%andb_true_iff. rewrite IH by done. destruct (b =? LF)%char, cr; by cbn in *.
Qed.

(** A text with a CR before each LF passes unchanged, so the writer is
    idempotent, and what it writes has no bare LF. *)
Theorem crlf_idempotent p : ended false (crlf p) = true ∧ crlf (crlf p) = crlf p.
Proof. split; [apply crlf_from_ended|]. apply crlf_from_same, crlf_from_ended. Qed.

Fixpoint ends_cr (cr : bool) (s : string) : bool :=
  match s with EmptyString => cr | String b s => ends_cr (b =? CR)%char s end.

Lemma crlf_from_app cr p q : crlf_from cr (p ++s q) = crlf_from cr p ++s crlf_from (ends_cr cr p) q.
Proof.
  revert cr. induction p as [|b p IH]; intros cr; [done|].
  change (String b p ++s q) with (String b (p ++s q)). cbn [crlf_from ends_cr]. rewrite IH.
  by destruct ((b =? LF)%char && negb cr).
Qed.

Lemma crlf_from_cr q : has_prefix q (str1 LF) = false → crlf_from true q = crlf q.
Proof. destruct q as [|b q]; [done|]. cbn. destruct (Ascii.eqb_spec b LF) as [-> |]; [by destruct q|done]. Qed.

(** Two [Write]s are one unless they cut a CR LF; then a CR too many is
    written. *)
Theorem crlf_cut p q :
  crlf (p ++s q) =
    crlf p ++s (if ends_cr false p && has_prefix q (str1 LF) then drop_str 1 (crlf q) else crlf q).
Proof.
  unfold crlf at 1. rewrite crlf_from_app. change (crlf_from false p) with (crlf p). f_equal.
  destruct (ends_cr false p); cbn [andb]; [|done]. destruct (has_prefix q (str1 LF)) eqn:E; [|by apply crlf_from_cr].
  destruct q as [|b q]; [done|]. unfold str1 in E. cbn [has_prefix] in E.
  destruct (Ascii.eqb_spec LF b) as [<-|Hb]; done.
Qed.

(** The comment promises that input already in CR LF passes unchanged; cut
    between the two bytes it does not. *)
Theorem crlf_cut_doubles : crlf (str1 CR) ++s crlf (str1 LF) = (str1 CR ++s str1 CR ++s str1 LF)%string.
Proof. done. Qed.

(** ** Log lines *)

(** A console that takes everything. *)
Definition console_takes (s out : string) : bool * string := (true, out ++s s).

Definition line_plain (l : string) : Prop := sforall (λ c, negb (c =? LF)%char && negb (c =? CR)%char) l = true.

Lemma crlf_plain l : line_plain l → crlf (l ++s str1 LF) = (l ++s str1 CR ++s str1 LF)%string.
Proof.
  unfold crlf, line_plain. intros Hl. rewrite crlf_from_app.
  assert (∀ cr, crlf_from cr l = l ∧ ends_cr cr l = match l with EmptyString => cr | _ => false end) as H.
  { induction l as [|c l IH]; intros cr; cbn [crlf_from ends_cr]; [done|]. cbn in Hl.
    destruct (c =? LF)%char, (c =? CR)%char; try done. cbn in Hl |- *.
    destruct (IH Hl false) as [-> ->]. by destruct l. }
  destruct (H false) as [-> ->]. by destruct l.
Qed.

(** The log package writes a line and its LF in one [Write]: every line reaches
    the console whole, in order, with one CR LF, and no [Write] is cut short. *)
Theorem console_lines ls out :
  Forall line_plain ls →
  crlfWrites console_takes (map (λ l, l ++s str1 LF) ls) out =
    (length ls, out ++s join_str "" (map (λ l, l ++s str1 CR ++s str1 LF) ls)).
Proof.
  intros Hls. revert out. induction Hls as [|l ls Hl Hls IH]; intros out; cbn [crlfWrites map join_str length].
  - by rewrite sapp_nil_r.
  - unfold crlfWrite, console_takes at 1. rewrite crlf_plain by done. rewrite IH. f_equal.
    rewrite sapp_assoc. f_equal. destruct ls; cbn [map join_str]; [by rewrite sapp_nil_r|done].
Qed.
