(* ===== verification/Auth.v ===== *)
(** * pkg/auth: eth_sign signatures and route classification

    The canonical request string, signing and address recovery with the
    eth_sign prefix, and the table that gives every broker route its permission
    level.  go-ethereum's cryptography is the class [EthCrypto]; what the
    theorems rely on about it is [EthLaws]. *)

From S2P Require Import Prelude GoStrings GoStringsFacts Strconv.
From Stdlib Require Import ZArith Lia ZifyBool Bool Ascii String.
From stdpp Require Import base option list.

Open Scope go_scope.

(** ** encoding/hex *)

Definition hex_val (c : ascii) : option nat :=
  let v := byte_val c in
  if (48 <=? v) && (v <=? 57) then Some (v - 48)
  else if (97 <=? v) && (v <=? 102) then Some (v - 87)
  else if (65 <=? v) && (v <=? 70) then Some (v - 55)
  else None.

(** [hex.DecodeString]; [None] on an odd length or a foreign byte. *)
Fixpoint hex_decode (s : string) : option string :=
  match s with
  | EmptyString => Some ""%string
  | String a (String b s') =>
      match hex_val a, hex_val b with
      | Some x, Some y => String (ch (16 * x + y)) <$> hex_decode s'
      | _, _ => None
      end
  | String _ EmptyString => None
  end.

Definition hex_char (d : nat) : ascii := if d <? 10 then ch (48 + d) else ch (87 + d).

(** [hex.EncodeToString] *)
Fixpoint hex_encode (s : string) : string :=
  match s with
  | EmptyString => ""%string
  | String c s' =>
      String (hex_char (byte_val c / 16)) (String (hex_char (byte_val c mod 16)) (hex_encode s'))
  end.

(** ** go-ethereum *)

(** Addresses are their 20 raw bytes, signatures their 65 raw bytes. *)
Class EthCrypto := {
  keccak256 : string → string;
  (** [crypto.SigToPub] followed by [crypto.PubkeyToAddress] *)
  sig_to_addr : string → string → option string;
  (** [crypto.Sign] with a private key; keys are abstract numbers *)
  eth_sign : string → Z → option string;
  (** the address of a private key *)
  key_addr : Z → string;
  (** [common.IsHexAddress], [common.HexToAddress], [Address.Hex] *)
  is_hex_address : string → bool;
  hex_to_address : string → string;
  addr_hex : string → string
}.

Class EthLaws (E : EthCrypto) : Prop := {
  (** crypto.Sign returns r, s and a recovery id 0 or 1, and recovers to the signer *)
  eth_sign_shape : ∀ h k sig, eth_sign h k = Some sig →
    ∃ rs v, String.length rs = 64 ∧ (v < 2)%nat ∧ sig = rs ++s str1 (ch v);
  eth_sign_recovers : ∀ h k sig, eth_sign h k = Some sig → sig_to_addr h sig = Some (key_addr k);
  (** Hex prints 20 bytes so that HexToAddress reads them back *)
  addr_hex_inv : ∀ h sig a, sig_to_addr h sig = Some a → hex_to_address (addr_hex a) = a
}.

Inductive auth_error :=
  | EInvalidHex
  | ESigLen (n : nat)
  | ERecover
  | ESign.

Definition newline : string := str1 (ch 10).

(** pkg/auth/ethereum.go:20-22 [BuildCanonical] *)
Definition BuildCanonical
  (method pathQuery bodyHashHex targetNodeID nonce timestamp : string) : string :=
  join_str newline [method; pathQuery; bodyHashHex; targetNodeID; nonce; timestamp].

(** The eth_sign prefix for a message of [n] bytes. *)
Definition eth_prefix (n : nat) : string :=
  str1 (ch 25) ++s "Ethereum Signed Message:" ++s newline ++s format_int (Z.of_nat n).

(** [sig[64] += 27] and [if sig[64] >= 27 { sig[64] -= 27 }] on a 65-byte string. *)
Definition set_byte64 (f : ascii → ascii) (sig : string) : string :=
  match drop_str 64 sig with
  | String v rest => take_str 64 sig ++s String (f v) rest
  | EmptyString => sig
  end.
Definition add27 (v : ascii) : ascii := ch ((byte_val v + 27) mod 256).
Definition sub27 (v : ascii) : ascii := if 27 <=? byte_val v then ch (byte_val v - 27) else v.

Section eth.
Context {E : EthCrypto}.

(** pkg/auth/ethereum.go:31-40 [SignMessage] *)
Definition SignMessage (message : string) (pk : Z) : result auth_error string :=
  let hash := keccak256 (eth_prefix (String.length message) ++s message) in
  match eth_sign hash pk with
  | None => Err ESign
  | Some sig => Ok (hex_encode (set_byte64 add27 sig))
  end.

(** pkg/auth/ethereum.go:43-62 [RecoverAddress] *)
Definition RecoverAddress (message signatureHex : string) : result auth_error string :=
  let sigHex := trim_prefix signatureHex "0x" in
  match hex_decode sigHex with
  | None => Err EInvalidHex
  | Some sigBytes =>
      if negb (String.length sigBytes =? 65) then Err (ESigLen (String.length sigBytes))
      else
        let sigBytes := set_byte64 sub27 sigBytes in
        let hash := keccak256 (eth_prefix (String.length message) ++s message) in
        match sig_to_addr hash sigBytes with
        | None => Err ERecover
        | Some a => Ok (addr_hex a)
        end
  end.

(** pkg/auth/ethereum.go:64-83 [VerifySignature] *)
Definition VerifySignature (message signatureHex expectedAddress : string) : result auth_error bool :=
  let sigHex := trim_prefix signatureHex "0x" in
  match hex_decode sigHex with
  | None => Err EInvalidHex
  | Some sigBytes =>
      if negb (String.length sigBytes =? 65) then Err (ESigLen (String.length sigBytes))
      else
        let sigBytes := set_byte64 sub27 sigBytes in
        let hash := keccak256 (eth_prefix (String.length message) ++s message) in
        match sig_to_addr hash sigBytes with
        | None => Err ERecover
        | Some a => Ok (a =s? hex_to_address expectedAddress)
        end
  end.
End eth.

(** ** Routes *)

Definition LevelNone : string := "none".
Definition LevelUser : string := "user".
Definition LevelAdmin : string := "admin".

(** pkg/auth/routes.go:23-84 [ClassifyRoute] *)
Definition ClassifyRoute {U : GoUnicode} (method path : string) : string :=
  let method := to_upper method in
  if (path =s? "/") || (path =s? "/health") || (path =s? "/info") || (path =s? "/node-id")
     || (path =s? "/v1/nodes") || (path =s? "/v1/auth/verify") then LevelNone
  else if negb (has_prefix path "/v1/") && negb (has_prefix path "/node/")
          && negb (has_prefix path "/gate/") && negb (has_prefix path "/rendezvous/")
          && negb (has_prefix path "/auth") then LevelNone
  else if has_prefix path "/gate/" then LevelNone
  else if has_prefix path "/rendezvous/" then LevelNone
  else if has_prefix path "/v1/my-nodes/" then LevelAdmin
  else if has_prefix path "/v1/admin/" then LevelAdmin
  else if has_prefix path "/node/" then
    let rest := trim_prefix path "/node/" in
    match index_str rest "/" with
    | Some idx =>
        let sub := drop_str (idx + 1) rest in
        if has_prefix sub "svc/" then LevelUser
        else if (method =s? "GET") && ((sub =s? "provider/emblem") || (sub =s? "provider/about")
                || (sub =s? "provider/file") || (sub =s? "provider/gallery")) then LevelNone
        else if has_prefix sub "provider/" || has_prefix sub "installer/" then LevelAdmin
        else LevelAdmin
    | None => LevelAdmin
    end
  else LevelAdmin.

(** ** Lemmas *)

Lemma hex_val_char d : (d < 16)%nat → hex_val (hex_char d) = Some d.
Proof. intros H. do 16 (destruct d as [|d]; [reflexivity|]). lia. Qed.

Lemma hex_decode_encode s : hex_decode (hex_encode s) = Some s.
Proof.
  induction s as [|c s IH]; [done|]. cbn [hex_encode hex_decode].
  pose proof (byte_val_lt c).
  rewrite !hex_val_char; [|apply Nat.mod_upper_bound; lia|apply Nat.Div0.div_lt_upper_bound; lia].
  rewrite IH, <-Nat.div_mod_eq, ch_byte_val. done.
Qed.

Lemma hex_encode_no_x s : has_prefix (hex_encode s) "0x" = false.
Proof.
  destruct s as [|c s]; [done|]. cbn [hex_encode has_prefix].
  apply andb_false_iff; right. apply andb_false_iff; left.
  assert (Hd : (byte_val c mod 16 < 16)%nat) by (apply Nat.mod_upper_bound; lia).
  revert Hd. generalize (byte_val c mod 16). intros d Hd.
  do 16 (destruct d as [|d]; [reflexivity|]). lia.
Qed.

Lemma set_byte64_app f rs v :
  String.length rs = 64 → set_byte64 f (rs ++s str1 v) = rs ++s str1 (f v).
Proof.
  intros H. unfold set_byte64. rewrite <-H. rewrite drop_str_app, take_str_app. done.
Qed.

Lemma sub_add_27 v : (v < 2)%nat → sub27 (add27 (ch v)) = ch v.
Proof. intros H. do 2 (destruct v as [|v]; [reflexivity|]). lia. Qed.

Section eth_theorems.
Context {E : EthCrypto}.

(** [RecoverAddress] inverts [SignMessage]: whenever signing succeeds, the
    recovered address is the signer's, for every message and key. *)
Theorem sign_recover {L : EthLaws E} message pk sig :
  SignMessage message pk = Ok sig → RecoverAddress message sig = Ok (addr_hex (key_addr pk)).
Proof.
  unfold SignMessage, RecoverAddress. intros H.
  destruct (eth_sign _ pk) as [raw|] eqn:Hs; [|done]. injection H as <-.
  destruct (eth_sign_shape _ _ _ Hs) as (rs & v & Hl & Hv & ->).
  unfold trim_prefix. rewrite hex_encode_no_x, hex_decode_encode.
  rewrite set_byte64_app by done.
  assert (Hlen : String.length (rs ++s str1 (add27 (ch v))) = 65) by (rewrite slength_app; simpl; lia).
  rewrite Hlen. cbn [Nat.eqb negb]. rewrite set_byte64_app by done.
  rewrite sub_add_27 by done. by rewrite (eth_sign_recovers _ _ _ Hs).
Qed.

(** [VerifySignature] and [RecoverAddress] never disagree: they fail on the
    same inputs with the same error, and verification answers whether the
    recovered address is the expected one. *)
Theorem verify_agrees_recover {L : EthLaws E} message sig expected :
  VerifySignature message sig expected =
  res_map (λ a, hex_to_address a =s? hex_to_address expected) (RecoverAddress message sig).
Proof.
  unfold VerifySignature, RecoverAddress.
  destruct (hex_decode _) as [b|]; [|done]. case_if; [done|].
  destruct (sig_to_addr _ _) as [a|] eqn:Ha; [|done]. simpl.
  by rewrite (addr_hex_inv _ _ _ Ha).
Qed.
End eth_theorems.

(** A signature scheme to evaluate the laws on: the address is the key padded
    to 20 bytes and a signature carries it. *)
Definition toy_eth : EthCrypto := {|
  keccak256 := λ s, s;
  sig_to_addr := λ _ sig, Some (take_str 20 sig);
  eth_sign := λ h k, Some (take_str 20 (be_bytes 20 k) ++s be_bytes 44 0 ++s str1 (ch 0));
  key_addr := λ k, take_str 20 (be_bytes 20 k);
  is_hex_address := λ s, (String.length s =? 42) && has_prefix s "0x";
  hex_to_address := λ s, default ""%string (hex_decode (trim_prefix (to_lower (U:=ascii_tables) s) "0x"));
  addr_hex := λ a, "0x" ++s hex_encode a
|}.

Lemma be_take_20 k : take_str 20 (be_bytes 20 k) = be_bytes 20 k.
Proof. rewrite <-(be_bytes_length 20 k) at 1. rewrite <-(sapp_nil_r (be_bytes 20 k)) at 2. apply take_str_app. Qed.

Lemma hex_encode_ascii_lower s :
  is_ascii (hex_encode s) = true ∧ smap lower_byte (hex_encode s) = hex_encode s.
Proof.
  assert (Hc : ∀ d, (d < 16)%nat →
    is_ascii_byte (hex_char d) = true ∧ lower_byte (hex_char d) = hex_char d).
  { intros d Hd. do 16 (destruct d as [|d]; [by split|]). lia. }
  induction s as [|c s [IH1 IH2]]; [by split|].
  pose proof (byte_val_lt c).
  destruct (Hc (byte_val c / 16)%nat) as [A1 A2]; [apply Nat.Div0.div_lt_upper_bound; lia|].
  destruct (Hc (byte_val c mod 16)%nat) as [B1 B2]; [apply Nat.mod_upper_bound; lia|].
  unfold is_ascii in *. cbn [hex_encode sforall smap].
  rewrite A1, A2, B1, B2, IH2. split; [done|done].
Qed.

Lemma toy_addr_hex_inv (a : string) :
  @hex_to_address toy_eth (@addr_hex toy_eth a) = a.
Proof.
  cbn [hex_to_address addr_hex toy_eth]. destruct (hex_encode_ascii_lower a) as [H1 H2].
  assert (H0 : is_ascii ("0x" ++s hex_encode a) = true) by exact H1.
  unfold to_lower. rewrite H0, smap_app, H2.
  change (smap lower_byte "0x") with "0x"%string.
  by rewrite trim_prefix_app, hex_decode_encode.
Qed.

#[export] Instance toy_eth_laws : EthLaws toy_eth.
Proof.
  split.
  - intros h k sig [= <-]. exists (take_str 20 (be_bytes 20 k) ++s be_bytes 44 0), 0%nat.
    rewrite be_take_20. split_and!; [by rewrite slength_app, !be_bytes_length|lia|].
    by rewrite sapp_assoc.
  - intros h k sig [= <-]. cbn [sig_to_addr toy_eth key_addr]. f_equal.
  - intros h sig a _. apply toy_addr_hex_inv.
Qed.

Lemma sign_recover_witness :
  let E := toy_eth in
  RecoverAddress "hi" (hex_encode (set_byte64 add27 (be_bytes 20 7 ++s be_bytes 44 0 ++s str1 (ch 0))))
  = Ok (addr_hex (key_addr 7)).
Proof. intros E. apply (@sign_recover toy_eth toy_eth_laws "hi" 7). reflexivity. Defined.

Lemma verify_agrees_recover_witness :
  let E := toy_eth in
  VerifySignature "hi" "00" "0x00" =
  res_map (λ a, hex_to_address a =s? hex_to_address "0x00") (RecoverAddress "hi" "00").
Proof. intros E. apply (@verify_agrees_recover toy_eth toy_eth_laws). Defined.

(** the canonical request string is unambiguous: when no field holds a
    newline, two requests with one canonical string are the same request. *)
Theorem BuildCanonical_inj m p b t n s m' p' b' t' n' s' :
  Forall (λ x, contains_byte (ch 10) x = false) [m; p; b; t; n; s; m'; p'; b'; t'; n'; s'] →
  BuildCanonical m p b t n s = BuildCanonical m' p' b' t' n' s' →
  (m, p, b, t, n, s) = (m', p', b', t', n', s').
Proof.
  intros HF H. rewrite !Forall_cons in HF. destruct_and!.
  apply (f_equal (split_byte (ch 10))) in H. unfold BuildCanonical, newline in H.
  rewrite !split_join in H; [by simplify_eq|..]; try done; by repeat constructor.
Qed.

Lemma BuildCanonical_inj_witness :
  BuildCanonical "GET" "/v1" "00" "P:0x1" "n" "17" = BuildCanonical "GET" "/v1" "00" "P:0x1" "n" "17" ∧
  ("GET", "/v1", "00", "P:0x1", "n", "17")%string = ("GET", "/v1", "00", "P:0x1", "n", "17")%string.
Proof.
  split; [reflexivity|]. apply BuildCanonical_inj; [by repeat constructor | reflexivity].
Defined.
