(* ===== verification/Tunnel.v ===== *)
(** * pkg/tunnel: the wire records, credentials and signed digests

    [RendezvousMsg] and [ServiceMetrics] with the source's fields; the
    canonical strings an issuer signs for admission ([CredentialMessage]) and
    for inference access ([AccessMessage]) with their parsers; the
    length-prefixed digests a node signs.  The theorems: parsing inverts
    printing, the two credential families cannot be confused, and two different
    registers with one digest exhibit a SHA-256 collision. *)

From S2P Require Import Prelude GoStrings GoStringsFacts Strconv Hardware GoAny.
From Stdlib Require Import ZArith Lia ZifyBool Bool Ascii String SpecFloat.
From stdpp Require Import base option list gmap strings.

Open Scope go_scope.
Open Scope Z_scope.

(** pkg/tunnel/metrics.go:6-18 [ServiceMetrics] *)
Record ServiceMetrics := mkMetrics {
  sm_Service : string; sm_Status : string;
  sm_QueueDepth : Z; sm_RunningCount : Z; sm_TotalJobsDone : Z;
  sm_AvgJobSec : float64; sm_LastJobMs : Z; sm_RunningJobID : string; sm_TimestampMs : Z
}.

(** pkg/tunnel/rendezvous.go:45-174 [RendezvousMsg] *)
Record RendezvousMsg := mkMsg {
  m_V : Z; m_Type : string; m_Role : string; m_ID : string; m_Addr : string;
  m_LocalAddr : string; m_Candidates : list string; m_CertHash : string;
  m_PunchCount : Z; m_PunchIntervalMs : Z; m_PreDialWaitMs : Z;
  m_ReplyBurstCount : Z; m_ReplyBurstIntervalMs : Z;
  m_Version : string; m_BinHash : string; m_OwnerAddress : string;
  m_Emblem : string; m_AuthMode : string;
  m_Hardware : option HardwareSpec; m_Services : option (list ServiceInfo);
  m_Seq : Z; m_FullSync : bool; m_Resync : bool;
  m_EKCert : string; m_AKName : string; m_TPMCredBlob : string; m_TPMEncSecret : string;
  m_TPMResponse : string; m_TPMVerified : bool;
  m_Signature : string; m_TimestampMs : Z;
  m_SessionToken : string; m_SessionKey : string; m_SessionExpiresMs : Z;
  m_CredSig : string; m_CredIssuedMs : Z; m_CredExpireMs : Z;
  m_PingIntervalSec : Z; m_RegisterIntervalSec : Z;
  m_Event : string; m_ServiceName : string; m_ServiceInfo : option (list (string * any));
  m_Metrics : option ServiceMetrics; m_MetricsBatch : list ServiceMetrics
}.

(** The struct's zero value, and the message [&RendezvousMsg{V: 1, Type: t, ID: id, Addr: a}]
    most replies are built as. *)
Definition zero_msg : RendezvousMsg :=
  mkMsg 0 "" "" "" "" "" [] "" 0 0 0 0 0 "" "" "" "" "" None None 0 false false
        "" "" "" "" "" false "" 0 "" "" 0 "" 0 0 0 0 "" "" None None [].

Definition simple_msg (t id addr : string) (cands : list string) : RendezvousMsg :=
  mkMsg 1 t "" id addr "" cands "" 0 0 0 0 0 "" "" "" "" "" None None 0 false false
        "" "" "" "" "" false "" 0 "" "" 0 "" 0 0 0 0 "" "" None None [].

(** [msg.ID = id] *)
Definition set_msg_ID (id : string) (m : RendezvousMsg) : RendezvousMsg :=
  mkMsg (m_V m) (m_Type m) (m_Role m) id (m_Addr m) (m_LocalAddr m) (m_Candidates m)
    (m_CertHash m) (m_PunchCount m) (m_PunchIntervalMs m) (m_PreDialWaitMs m)
    (m_ReplyBurstCount m) (m_ReplyBurstIntervalMs m) (m_Version m) (m_BinHash m)
    (m_OwnerAddress m) (m_Emblem m) (m_AuthMode m) (m_Hardware m) (m_Services m) (m_Seq m)
    (m_FullSync m) (m_Resync m) (m_EKCert m) (m_AKName m) (m_TPMCredBlob m) (m_TPMEncSecret m)
    (m_TPMResponse m) (m_TPMVerified m) (m_Signature m) (m_TimestampMs m) (m_SessionToken m)
    (m_SessionKey m) (m_SessionExpiresMs m) (m_CredSig m) (m_CredIssuedMs m) (m_CredExpireMs m)
    (m_PingIntervalSec m) (m_RegisterIntervalSec m) (m_Event m) (m_ServiceName m)
    (m_ServiceInfo m) (m_Metrics m) (m_MetricsBatch m).

(** ** Credential strings *)

Definition cred_prefix : string := "ISANN-CREDENTIAL:".
(** pkg/tunnel/access.go:36-36 [accessPrefix part] *)
Definition accessPrefix : string := "ISANN-ACCESS:".

Section creds.
Context {U : GoUnicode}.

(** pkg/tunnel/job.go:4-13 [JobProgress] *)
Record JobProgress := mkJob {
  jp_JobID : string; jp_Status : string; jp_Progress : Z; jp_URL : string;
  jp_B64Image : string; jp_Token : string; jp_Seed : Z; jp_Error : string
}.

(** pkg/tunnel/rendezvous.go:18-21 [CredentialMessage] *)
Definition CredentialMessage (nodeAddr : string) (issuedMs expireMs : Z) : string :=
  cred_prefix ++s to_lower nodeAddr ++s ":" ++s format_int issuedMs ++s ":" ++s format_int expireMs.

(** pkg/tunnel/rendezvous.go:26-42 [ParseCredentialMessage]: [None] is ok=false. *)
Definition ParseCredentialMessage (msg : string) : option (string * Z * Z) :=
  if negb (has_prefix msg cred_prefix) then None
  else
    match split_byte ":" (trim_prefix msg cred_prefix) with
    | [p0; p1; p2] =>
        let node := to_lower (trim_space p0) in
        let '(issuedMs, e1) := parse_int p1 in
        let '(expireMs, e2) := parse_int p2 in
        match e1, e2 with
        | None, None => Some (node, issuedMs, expireMs)
        | _, _ => None
        end
    | _ => None
    end.

(** pkg/tunnel/access.go:58-61 [AccessMessage] *)
Definition AccessMessage (buyerAddr : string) (issuedMs expireMs : Z) : string :=
  accessPrefix ++s to_lower buyerAddr ++s ":" ++s format_int issuedMs ++s ":" ++s format_int expireMs.

(** pkg/tunnel/access.go:66-68 [IsAccessMessage] *)
Definition IsAccessMessage (msg : string) : bool := has_prefix msg accessPrefix.

(** pkg/tunnel/access.go:73-88 [ParseAccessMessage] *)
Definition ParseAccessMessage (msg : string) : option (string * Z * Z) :=
  if negb (has_prefix msg accessPrefix) then None
  else
    match split_byte ":" (trim_prefix msg accessPrefix) with
    | [p0; p1; p2] =>
        let buyer := to_lower (trim_space p0) in
        let '(issuedMs, err1) := parse_int p1 in
        let '(expireMs, err2) := parse_int p2 in
        match err1, err2 with
        | None, None => Some (buyer, issuedMs, expireMs)
        | _, _ => None
        end
    | _ => None
    end.
End creds.

(** ** Signed digests *)

(** One [appendField]: label, 32-bit length, value. *)
Definition append_field (label value : string) : string :=
  label ++s put_u32 (Z.of_nat (String.length value)) ++s value.

(** The bytes hashed by [RegisterDigest], in the order they are written. *)
Definition register_preimage
  (nodeID certHash version binHash ownerAddress hardwareHash : string) (timestampMs : Z) : string :=
  append_field "id" nodeID ++s append_field "cert" certHash ++s append_field "ver" version ++s
  append_field "bin" binHash ++s append_field "own" ownerAddress ++s
  append_field "hw" hardwareHash ++s "ts" ++s put_u64 timestampMs.

Definition ping_preimage (role : string) (timestampMs : Z) : string :=
  append_field "role" role ++s "ts" ++s put_u64 timestampMs.

(** SHA-256, an uninterpreted function of the bytes. *)
Class Sha256 := { sha256 : string → string }.

Section digests.
Context {H : Sha256}.

(** pkg/tunnel/session.go:84-106 [RegisterDigest] *)
Definition RegisterDigest (nodeID certHash version binHash ownerAddress hardwareHash : string)
  (timestampMs : Z) : string :=
  sha256 (register_preimage nodeID certHash version binHash ownerAddress hardwareHash timestampMs).

(** pkg/tunnel/session.go:115-127 [PingDigest] *)
Definition PingDigest (role : string) (timestampMs : Z) : string :=
  sha256 (ping_preimage role timestampMs).
End digests.

(** Two inputs on which the hash collides. *)
Definition collision {H : Sha256} (a b : string) : Prop := a ≠ b ∧ sha256 a = sha256 b.

(** ** Lemmas *)

(** A value short enough for its 32-bit length prefix. *)
Definition fits_u32 (s : string) : Prop := Z.of_nat (String.length s) < 4294967296.

Lemma append_field_inj label v1 v2 r1 r2 :
  fits_u32 v1 → fits_u32 v2 →
  append_field label v1 ++s r1 = append_field label v2 ++s r2 → v1 = v2 ∧ r1 = r2.
Proof.
  unfold append_field, fits_u32. intros H1 H2. rewrite !sapp_assoc.
  intros H%sapp_inj_l.
  apply sapp_inj_len in H as [Hl H]; [|by rewrite !put_u32_length].
  apply put_u32_inj in Hl; [|lia..]. apply sapp_inj_len in H; [done|lia].
Qed.

Lemma register_preimage_inj i1 c1 v1 b1 o1 h1 t1 i2 c2 v2 b2 o2 h2 t2 :
  Forall fits_u32 [i1; c1; v1; b1; o1; h1; i2; c2; v2; b2; o2; h2] →
  in_i64 t1 → in_i64 t2 →
  register_preimage i1 c1 v1 b1 o1 h1 t1 = register_preimage i2 c2 v2 b2 o2 h2 t2 →
  (i1, c1, v1, b1, o1, h1, t1) = (i2, c2, v2, b2, o2, h2, t2).
Proof.
  intros HF Ht1 Ht2 H. rewrite !Forall_cons in HF. destruct_and!.
  unfold register_preimage in H.
  repeat (apply append_field_inj in H as [-> H]; [|done..]).
  apply sapp_inj_l, put_u64_inj in H; [|done..]. by subst.
Qed.

Section cred_lemmas.
Context {U : GoUnicode}.

(** Splitting the three fields back out of a printed credential body. *)
Lemma split_three a b c :
  contains_byte ":" a = false → contains_byte ":" b = false → contains_byte ":" c = false →
  split_byte ":" (a ++s ":" ++s b ++s ":" ++s c) = [a; b; c].
Proof.
  intros Ha Hb Hc. cbn [String.append].
  rewrite split_byte_app by done. f_equal.
  rewrite split_byte_app by done. f_equal. by apply split_byte_plain.
Qed.

Lemma format_int_no_colon n : contains_byte ":" (format_int n) = false.
Proof. by apply format_int_no_byte. Qed.
End cred_lemmas.

(** A node address as credentials carry it: printable ASCII without ':'. *)
Definition addr_like (a : string) : bool := sforall is_plain a && negb (contains_byte ":" a).

Lemma is_plain_ascii a : sforall is_plain a = true → is_ascii a = true.
Proof. apply sforall_impl. intros c. unfold is_plain, is_ascii_byte. lia. Qed.

Lemma is_plain_lower c : is_plain c = true → is_plain (lower_byte c) = true.
Proof. unfold is_plain. rewrite lower_byte_val. byte_cases. Qed.

Lemma addr_like_lower {U : GoUnicode} a : addr_like a = true → addr_like (to_lower a) = true.
Proof.
  unfold addr_like. intros [Hp Hc]%andb_true_iff.
  rewrite to_lower_is_ascii by by apply is_plain_ascii.
  apply andb_true_iff; split.
  - clear Hc. induction a as [|c a IH]; simpl in *; [done|].
    apply andb_true_iff in Hp as [H1 H2]. rewrite is_plain_lower by done. auto.
  - clear Hp. induction a as [|c a IH]; [done|].
    cbn [contains_byte smap] in Hc |- *. rewrite lower_byte_colon.
    destruct (":" =c? c)%char; [done|]. by apply IH.
Qed.

(** ** Theorems *)

Section cred_theorems.
Context {U : GoUnicode}.

(** The printed fields are read back: the address, the issue time, the expiry. *)
Lemma printed_fields node issued expire :
  addr_like node = true →
  split_byte ":" (to_lower node ++s ":" ++s format_int issued ++s ":" ++s format_int expire)
  = [to_lower node; format_int issued; format_int expire] ∧
  to_lower (trim_space (to_lower node)) = to_lower node.
Proof.
  intros Ha. pose proof (addr_like_lower _ Ha) as Hl. unfold addr_like in Hl.
  apply andb_true_iff in Hl as [Hp Hc%negb_true_iff]. split.
  { by rewrite split_three by eauto using format_int_no_colon. }
  rewrite trim_space_plain by done.
  unfold addr_like in Ha. apply andb_true_iff in Ha as [Hp' _].
  rewrite (to_lower_is_ascii node) by by apply is_plain_ascii.
  rewrite (to_lower_is_ascii (smap _ _)).
  - by rewrite smap_idem by apply lower_byte_idem.
  - unfold is_ascii. rewrite sforall_smap by apply lower_byte_ascii. by apply is_plain_ascii.
Qed.

(** parsing a printed admission credential gives back the lower-cased
    node, the issue time and the expiry; the empty (bearer) node included. *)
Theorem credential_roundtrip node issued expire :
  addr_like node = true → in_i64 issued → in_i64 expire →
  ParseCredentialMessage (CredentialMessage node issued expire)
  = Some (to_lower node, issued, expire).
Proof.
  intros Ha Hi He. unfold ParseCredentialMessage, CredentialMessage.
  rewrite has_prefix_app, trim_prefix_app. cbn [negb].
  destruct (printed_fields node issued expire Ha) as [-> ->]. by rewrite !parse_int_format.
Qed.

(** The same for an access message. *)
Lemma access_message_roundtrip node issued expire :
  addr_like node = true → in_i64 issued → in_i64 expire →
  ParseAccessMessage (AccessMessage node issued expire) = Some (to_lower node, issued, expire).
Proof.
  intros Ha Hi He. unfold ParseAccessMessage, AccessMessage.
  rewrite has_prefix_app, trim_prefix_app. cbn [negb].
  destruct (printed_fields node issued expire Ha) as [-> ->]. by rewrite !parse_int_format.
Qed.

(** an inference-access grant and an admission credential are never read
    as one another, whatever their fields: each parser rejects the strings
    the other family's printer builds. *)
Theorem credential_families_disjoint node issued expire :
  ParseAccessMessage (CredentialMessage node issued expire) = None ∧
  ParseCredentialMessage (AccessMessage node issued expire) = None.
Proof. split; reflexivity. Qed.
End cred_theorems.

Lemma credential_roundtrip_witness :
  @ParseCredentialMessage ascii_tables
    (@CredentialMessage ascii_tables "0xAbC1" 1700000000000 (-5))
  = Some ("0xabc1"%string, 1700000000000, -5).
Proof.
  apply (@credential_roundtrip ascii_tables "0xAbC1" 1700000000000 (-5));
    [reflexivity | solve_i64 | solve_i64].
Defined.

(** C37: the register digest binds every field: two registers with the same
    digest agree on all seven fields, or their pre-images are an explicit
    SHA-256 collision (fields shorter than 4 GiB, 64-bit timestamps). *)
Theorem register_digest_binds {H : Sha256} i1 c1 v1 b1 o1 h1 t1 i2 c2 v2 b2 o2 h2 t2 :
  Forall fits_u32 [i1; c1; v1; b1; o1; h1; i2; c2; v2; b2; o2; h2] →
  in_i64 t1 → in_i64 t2 →
  RegisterDigest i1 c1 v1 b1 o1 h1 t1 = RegisterDigest i2 c2 v2 b2 o2 h2 t2 →
  (i1, c1, v1, b1, o1, h1, t1) = (i2, c2, v2, b2, o2, h2, t2) ∨
  collision (register_preimage i1 c1 v1 b1 o1 h1 t1) (register_preimage i2 c2 v2 b2 o2 h2 t2).
Proof.
  intros HF Ht1 Ht2 HD.
  destruct (String.eqb_spec (register_preimage i1 c1 v1 b1 o1 h1 t1)
                            (register_preimage i2 c2 v2 b2 o2 h2 t2)) as [He|Hne].
  - left. by apply register_preimage_inj.
  - by right.
Qed.

Lemma register_digest_binds_witness :
  let H := {| sha256 := λ s, s |} in
  RegisterDigest "P:0x1" "ab" "v1" "" "" "" 7 = RegisterDigest "P:0x1" "ab" "v1" "" "" "" 7 ∧
  (("P:0x1", "ab", "v1", "", "", "", 7)%string = ("P:0x1", "ab", "v1", "", "", "", 7)%string ∨
   collision (register_preimage "P:0x1" "ab" "v1" "" "" "" 7)
             (register_preimage "P:0x1" "ab" "v1" "" "" "" 7)).
Proof.
  split; [reflexivity|]. apply register_digest_binds;
    [repeat constructor | solve_i64 | solve_i64 | reflexivity].
Defined.
