(* ===== verification/Base64.v ===== *)
(** * Base64 and PEM

    [encoding/base64] and [encoding/pem] as the repository uses them: the
    URL alphabet without padding, decoded leniently (line breaks are skipped and
    trailing bits ignored, as the Go decoder does), and the padded standard
    alphabet in 64-column lines inside a PEM block.  Decoding inverts encoding. *)

From S2P Require Import Prelude GoStrings GoStringsFacts.
From Stdlib Require Import ZArith Lia ZifyNat Bool Ascii String.
From stdpp Require Import base option list strings.

Open Scope go_scope.

#[local] Ltac Zify.zify_post_hook ::= Z.to_euclidean_division_equations.

Definition alphabet_url : string := "ABCDEFGHIJKLMNOPQRSTUVWXYZabcdefghijklmnopqrstuvwxyz0123456789-_".
Definition alphabet_std : string := "ABCDEFGHIJKLMNOPQRSTUVWXYZabcdefghijklmnopqrstuvwxyz0123456789+/".

(** The character of a six-bit value, and the value of a character. *)
Definition sextet (alph : string) (v : nat) : ascii := default "A"%char (String.get v alph).

Section codec.
Context (alph : string).

(** [Encoding.EncodeToString]; [pad] is empty for the raw encodings. *)
Fixpoint b64_encode (pad s : string) : string :=
  match s with
  | EmptyString => EmptyString
  | String a EmptyString =>
      let x := byte_val a in
      String (sextet alph (x / 4)) (String (sextet alph (x mod 4 * 16)) (pad ++s pad))
  | String a (String b EmptyString) =>
      let x := byte_val a in let y := byte_val b in
      String (sextet alph (x / 4)) (String (sextet alph (x mod 4 * 16 + y / 16))
        (String (sextet alph (y mod 16 * 4)) pad))
  | String a (String b (String c s')) =>
      let x := byte_val a in let y := byte_val b in let z := byte_val c in
      String (sextet alph (x / 4)) (String (sextet alph (x mod 4 * 16 + y / 16))
        (String (sextet alph (y mod 16 * 4 + z / 64)) (String (sextet alph (z mod 64)) (b64_encode pad s'))))
  end.

(** The quanta of the raw decoder: four characters, or two or three at the end. *)
Fixpoint b64_quanta (s : string) : option string :=
  match s with
  | EmptyString => Some EmptyString
  | String a (String b (String c (String d s'))) =>
      v ← index_byte alph a; w ← index_byte alph b; x ← index_byte alph c; y ← index_byte alph d;
      r ← b64_quanta s';
      Some (String (ch (v * 4 + w / 16)) (String (ch (w mod 16 * 16 + x / 4)) (String (ch (x mod 4 * 64 + y)) r)))
  | String a (String b (String c EmptyString)) =>
      v ← index_byte alph a; w ← index_byte alph b; x ← index_byte alph c;
      Some (String (ch (v * 4 + w / 16)) (String (ch (w mod 16 * 16 + x / 4)) EmptyString))
  | String a (String b EmptyString) =>
      v ← index_byte alph a; w ← index_byte alph b;
      Some (String (ch (v * 4 + w / 16)) EmptyString)
  | String _ EmptyString => None
  end.

(** Line breaks, which the decoder passes over. *)
Fixpoint drop_breaks (s : string) : string :=
  match s with
  | EmptyString => EmptyString
  | String c s' => if (c =c? ch 10) || (c =c? ch 13) then drop_breaks s' else String c (drop_breaks s')
  end.

(** [Encoding.DecodeString] of a raw encoding. *)
Definition b64_decode (s : string) : option string := b64_quanta (drop_breaks s).

(** ** Decoding inverts encoding *)

Definition good_alphabet : bool :=
  forallb (λ v, bool_decide (index_byte alph (sextet alph v) = Some v)
             && negb ((sextet alph v =c? ch 10) || (sextet alph v =c? ch 13))
             && is_plain (sextet alph v)) (seq 0 64).

Context (Hgood : good_alphabet = true).

Lemma sextet_good v : v < 64 →
  index_byte alph (sextet alph v) = Some v ∧
  (sextet alph v =c? ch 10) || (sextet alph v =c? ch 13) = false ∧ is_plain (sextet alph v) = true.
Proof.
  intros Hv. unfold good_alphabet in Hgood. rewrite forallb_forall in Hgood.
  specialize (Hgood v). rewrite in_seq in Hgood. specialize (Hgood ltac:(lia)).
  apply andb_true_iff in Hgood as [[H1 H2]%andb_true_iff H3].
  apply bool_decide_eq_true in H1. by apply negb_true_iff in H2.
Qed.

Lemma ch_of_val c n : n = byte_val c → ch n = c.
Proof. intros ->. apply ascii_nat_embedding. Qed.

Lemma string_ind3 (P : string → Prop) :
  P EmptyString → (∀ a, P (String a EmptyString)) → (∀ a b, P (String a (String b EmptyString))) →
  (∀ a b c s, P s → P (String a (String b (String c s)))) → ∀ s, P s.
Proof. intros H0 H1 H2 H3. fix IH 1. intros [|a [|b [|c s]]]; [exact H0|apply H1|apply H2|apply H3, IH]. Qed.

Lemma sextets_bound x y z : x < 256 → y < 256 → z < 256 →
  x / 4 < 64 ∧ x mod 4 * 16 < 64 ∧ x mod 4 * 16 + y / 16 < 64 ∧ y mod 16 * 4 < 64 ∧
  y mod 16 * 4 + z / 64 < 64 ∧ z mod 64 < 64.
Proof. intros. split_and!; lia. Qed.

Lemma encode_plain s : sforall is_plain (b64_encode "" s) = true.
Proof.
  induction s as [|a|a b|a b c s IH] using string_ind3; [done|..]; cbn [b64_encode sforall String.append];
    [destruct (sextets_bound (byte_val a) 0 0) as (H1 & H2 & H3 & H4 & H5 & H6); try lia; try apply byte_val_lt
    |destruct (sextets_bound (byte_val a) (byte_val b) 0) as (H1 & H2 & H3 & H4 & H5 & H6); try lia; try apply byte_val_lt
    |destruct (sextets_bound (byte_val a) (byte_val b) (byte_val c)) as (H1 & H2 & H3 & H4 & H5 & H6); try apply byte_val_lt];
    rewrite ?(proj2 (proj2 (sextet_good _ H1))), ?(proj2 (proj2 (sextet_good _ H2))),
      ?(proj2 (proj2 (sextet_good _ H3))), ?(proj2 (proj2 (sextet_good _ H4))),
      ?(proj2 (proj2 (sextet_good _ H5))), ?(proj2 (proj2 (sextet_good _ H6))); done.
Qed.

Lemma drop_breaks_plain s : sforall is_plain s = true → drop_breaks s = s.
Proof.
  induction s as [|c s IH]; [done|]. cbn [sforall drop_breaks]. intros [Hc Hs]%andb_true_iff.
  unfold is_plain in Hc. apply andb_true_iff in Hc as [H1%Nat.leb_le _].
  assert (c <> ch 10 /\ c <> ch 13) as [Hn Hr] by (split; intros ->; vm_compute in H1; lia).
  rewrite (proj2 (Ascii.eqb_neq _ _) Hn), (proj2 (Ascii.eqb_neq _ _) Hr). cbn [orb]. by rewrite IH.
Qed.

Theorem b64_decode_encode s : b64_decode (b64_encode "" s) = Some s.
Proof.
  unfold b64_decode. rewrite drop_breaks_plain by apply encode_plain.
  induction s as [|a|a b|a b c s IH] using string_ind3; [done|..]; cbn [b64_encode b64_quanta String.append].
  - pose proof (byte_val_lt a) as Ha. destruct (sextets_bound (byte_val a) 0 0) as (H1 & H2 & _); try lia.
    rewrite (proj1 (sextet_good _ H1)), (proj1 (sextet_good _ H2)). cbn [mbind option_bind].
    by rewrite (ch_of_val a) by lia.
  - pose proof (byte_val_lt a) as Ha. pose proof (byte_val_lt b) as Hb.
    destruct (sextets_bound (byte_val a) (byte_val b) 0) as (H1 & _ & H3 & H4 & _); try lia.
    rewrite (proj1 (sextet_good _ H1)), (proj1 (sextet_good _ H3)), (proj1 (sextet_good _ H4)). cbn [mbind option_bind].
    by rewrite (ch_of_val a), (ch_of_val b) by lia.
  - pose proof (byte_val_lt a) as Ha. pose proof (byte_val_lt b) as Hb. pose proof (byte_val_lt c) as Hc.
    destruct (sextets_bound (byte_val a) (byte_val b) (byte_val c)) as (H1 & _ & H3 & _ & H5 & H6); try lia.
    rewrite (proj1 (sextet_good _ H1)), (proj1 (sextet_good _ H3)), (proj1 (sextet_good _ H5)),
      (proj1 (sextet_good _ H6)). cbn [mbind option_bind]. rewrite IH. cbn [option_bind].
    by rewrite (ch_of_val a), (ch_of_val b), (ch_of_val c) by lia.
Qed.
End codec.

Lemma url_alphabet_good : good_alphabet alphabet_url = true.
Proof. vm_compute. reflexivity. Qed.

(** ** PEM *)

(** The body in lines of 64 characters; [n] counts down to the next break. *)
Fixpoint pem_lines (n : nat) (s : string) : string :=
  match s with
  | EmptyString => if n =? 64 then "" else String (ch 10) ""
  | String c s' =>
      match n with
      | 0 | 1 => String c (String (ch 10) (pem_lines 64 s'))
      | S n => String c (pem_lines n s')
      end
  end.

(** [pem.Encode] of a block without headers. *)
Definition pem_encode (typ der : string) : string :=
  "-----BEGIN " ++s typ ++s "-----" ++s String (ch 10) ""
  ++s pem_lines 64 (b64_encode alphabet_std "=" der)
  ++s "-----END " ++s typ ++s "-----" ++s String (ch 10) "".

Lemma pem_not_empty typ der : pem_encode typ der ≠ ""%string.
Proof. done. Qed.
