(* ===== verification/AccessToken.v ===== *)
(** * pkg/tunnel/access.go: the copy-and-paste access token

    A grant is a message an issuer signs; the token is both in one string.  The
    theorem follows a grant from the issuer to the node: what the buyer pastes
    decodes to the signed message, whose fields and signer are the issuer's. *)

From S2P Require Import Prelude GoStrings GoStringsFacts Strconv Hardware GoAny Auth Tunnel Base64.
From Stdlib Require Import ZArith Lia ZifyBool Bool Ascii String.
From stdpp Require Import base option list strings.

Open Scope go_scope.
Open Scope Z_scope.

(** pkg/tunnel/access.go:39-39 [AccessTokenPrefix part] *)
Definition AccessTokenPrefix : string := "ianacc_".

(** [json.Marshal] and [json.Unmarshal] of [accessTokenPayload]. *)
Class TokenJSON := {
  tok_enc : string → string → string;
  tok_dec : string → option (string * string)
}.

(** Printable ASCII without spaces survives. *)
Class TokenJSONLaws (J : TokenJSON) : Prop := {
  tok_dec_enc m s : sforall is_plain m = true → sforall is_plain s = true →
    tok_dec (tok_enc m s) = Some (m, s)
}.

Inductive token_err := TNoPrefix | TBase64 | TJSON | TMissing.

Section token.
Context {U : GoUnicode} {J : TokenJSON}.

(** pkg/tunnel/access.go:99-102 [EncodeAccessToken] *)
Definition EncodeAccessToken (message sig : string) : string :=
  AccessTokenPrefix ++s b64_encode alphabet_url "" (tok_enc message sig).

(** pkg/tunnel/access.go:106-123 [DecodeAccessToken] *)
Definition DecodeAccessToken (token : string) : result token_err (string * string) :=
  let s := trim_space token in
  if negb (has_prefix s AccessTokenPrefix) then Err TNoPrefix
  else
    match b64_decode alphabet_url (trim_prefix s AccessTokenPrefix) with
    | None => Err TBase64
    | Some raw =>
        match tok_dec raw with
        | None => Err TJSON
        | Some (msg, sig) =>
            if (msg =s? "") || (sig =s? "") then Err TMissing else Ok (msg, sig)
        end
    end.
End token.

(** ** Round trips *)

Section facts.
Context {U : GoUnicode} {J : TokenJSON} {JL : TokenJSONLaws J}.

Lemma token_roundtrip m s :
  sforall is_plain m = true → sforall is_plain s = true → m ≠ ""%string → s ≠ ""%string →
  DecodeAccessToken (EncodeAccessToken m s) = Ok (m, s).
Proof.
  intros Hm Hs Hm0 Hs0. unfold DecodeAccessToken, EncodeAccessToken.
  rewrite trim_space_plain.
  2: { rewrite sforall_app. by rewrite (encode_plain _ url_alphabet_good). }
  rewrite has_prefix_app, trim_prefix_app, (b64_decode_encode _ url_alphabet_good), tok_dec_enc by done.
  cbn [negb]. by rewrite (proj2 (String.eqb_neq _ _) Hm0), (proj2 (String.eqb_neq _ _) Hs0).
Qed.

(** A decoded token carries both parts. *)
Lemma decoded_parts token m s : DecodeAccessToken token = Ok (m, s) → m ≠ ""%string ∧ s ≠ ""%string.
Proof.
  unfold DecodeAccessToken. repeat case_scrut; try done. intros [= -> ->].
  by apply orb_false_iff in Ecs3 as [?%String.eqb_neq ?%String.eqb_neq].
Qed.

Lemma hex_encode_plain s : sforall is_plain (hex_encode s) = true.
Proof.
  assert (Hc : ∀ d, (d < 16)%nat → is_plain (hex_char d) = true).
  { intros d Hd. do 16 (destruct d as [|d]; [done|]). lia. }
  induction s as [|c s IH]; [done|]. pose proof (byte_val_lt c).
  cbn [hex_encode sforall]. rewrite !Hc, IH; [done|..].
  - apply Nat.mod_upper_bound. lia.
  - apply Nat.Div0.div_lt_upper_bound. lia.
Qed.

Lemma access_message_plain a i e : addr_like a = true → sforall is_plain (AccessMessage a i e) = true.
Proof.
  intros [Hp _]%addr_like_lower%andb_true_iff. unfold AccessMessage.
  rewrite !sforall_app, Hp, !format_int_plain. done.
Qed.

(** A grant survives the token: whatever the buyer (the anonymous one
    included) and the times, if the issuer's signature of the access message
    succeeds then the token built from both decodes to exactly that message and
    signature, the message parses to the lower-cased buyer and the two times, the
    recovered signer is the issuer, and the admission door does not accept it. *)
Theorem access_grant_roundtrip {E : EthCrypto} {L : EthLaws E} buyer issued expire pk sig :
  addr_like buyer = true → in_i64 issued → in_i64 expire →
  SignMessage (AccessMessage buyer issued expire) pk = Ok sig →
  ∃ m s, DecodeAccessToken (EncodeAccessToken (AccessMessage buyer issued expire) sig) = Ok (m, s) ∧
    ParseAccessMessage m = Some (to_lower buyer, issued, expire) ∧
    RecoverAddress m s = Ok (addr_hex (key_addr pk)) ∧
    ParseCredentialMessage m = None.
Proof.
  intros Hb Hi He Hs. exists (AccessMessage buyer issued expire), sig.
  split; [|split; [by apply access_message_roundtrip|split; [by apply sign_recover|reflexivity]]].
  assert (∃ b, sig = hex_encode b ∧ b ≠ ""%string) as (b & -> & Hb0).
  { unfold SignMessage in Hs. destruct (eth_sign _ pk) as [raw|] eqn:Hr; [|done]. injection Hs as <-.
    destruct (eth_sign_shape _ _ _ Hr) as (rs & v & Hl & _ & ->). eexists. split; [done|].
    rewrite set_byte64_app by done. intros Hn%(f_equal String.length).
    rewrite slength_app in Hn. cbn in Hn. lia. }
  apply token_roundtrip; [by apply access_message_plain|apply hex_encode_plain|done|by destruct b].
Qed.
End facts.

(** ** Witness *)

(** Two words with a space between them. *)
Definition toy_token_json : TokenJSON := {|
  tok_enc := λ m s, m ++s " " ++s s;
  tok_dec := λ t, let '(m, s, ok) := cut_byte " " t in if ok then Some (m, s) else None
|}.

#[export] Instance toy_token_laws : TokenJSONLaws toy_token_json.
Proof.
  split. intros m s Hm _. cbn [tok_enc tok_dec toy_token_json String.append].
  rewrite cut_byte_app; [done|].
  induction m as [|c m IH]; [done|]. cbn [sforall contains_byte] in *.
  apply andb_true_iff in Hm as [Hc Hm]. rewrite IH by done.
  destruct (Ascii.eqb_spec " " c) as [<-|]; [by vm_compute in Hc|done].
Qed.

Lemma access_grant_roundtrip_witness :
  let E := toy_eth in
  ∃ m s, @DecodeAccessToken toy_token_json
           (@EncodeAccessToken toy_token_json (@AccessMessage ascii_tables "0xAb" 5 900)
              (hex_encode (set_byte64 add27 (be_bytes 20 7 ++s be_bytes 44 0 ++s str1 (ch 0))))) = Ok (m, s) ∧
    @ParseAccessMessage ascii_tables m = Some ("0xab"%string, 5, 900) ∧
    RecoverAddress m s = Ok (addr_hex (key_addr 7)) ∧
    @ParseCredentialMessage ascii_tables m = None.
Proof.
  intros E. apply (@access_grant_roundtrip ascii_tables toy_token_json toy_token_laws toy_eth toy_eth_laws "0xAb" 5 900 7);
    [reflexivity|solve_i64|solve_i64|reflexivity].
Defined.
