(* ===== verification/CertGen.v ===== *)
(** * pkg/certgen: self-signed certificates on demand

    [EnsureSelfSigned] over the file system of [HostFS].  What crypto/rand,
    crypto/x509 and the key encoder answer in one call is a record; the files
    are written as PEM ([Base64]).  The theorems: after a success both files are
    there, a complete pair is left alone, an incomplete one is replaced by one
    matching pair and nothing else is touched; with the directories in order the
    call succeeds; an existing certificate is lost when only its key is missing. *)

From S2P Require Import Prelude GoStrings GoStringsFacts GoPath HostFS Base64.
From Stdlib Require Import ZArith Lia ZifyBool Bool Ascii String.
From stdpp Require Import base option list gmap strings.

Open Scope go_scope.

Inductive cert_err := CKey | CSerial | CCert | CMarshal | CMkdir | COpen.

(** What the library calls of one run answer: a key and a serial number were
    drawn, the DER bytes of the certificate and of the key. *)
Record keygen := mkGen {
  g_key : bool; g_serial : bool; g_cert : option string; g_keyDER : option string
}.

Section certgen.
Context (W : loc → bool) (cwd : loc) (now : Z).

(** pkg/certgen/certgen.go:64-70 [fileExists] *)
Definition fileExists (p : string) (fs : hostfs) : bool :=
  if p =s? "" then false
  else match stat (resolve cwd p) fs with
       | Found (NFile d _) => negb (d =s? "")
       | _ => false
       end.

(** pkg/certgen/certgen.go:72-84 [writePEM] *)
Definition writePEM (path typ der : string) (fs : hostfs) : result cert_err () * hostfs :=
  let dir := path_dirname path in
  let '(ok, fs) := if negb (dir =s? ".") && negb (dir =s? "")
                   then mkdir_all W (resolve cwd dir) fs else (true, fs) in
  if negb ok then (Err CMkdir, fs)
  else match (if path =s? "" then None else open_trunc W now (resolve cwd path) fs) with
       | None => (Err COpen, fs)
       | Some fs => (Ok (), write_data now (resolve cwd path) (pem_encode typ der) fs)
       end.

(** pkg/certgen/certgen.go:26-62 [EnsureSelfSigned] *)
Definition EnsureSelfSigned (g : keygen) (certPath keyPath : string) (fs : hostfs)
  : result cert_err () * hostfs :=
  if fileExists certPath fs && fileExists keyPath fs then (Ok (), fs)
  else if negb (g_key g) then (Err CKey, fs)
  else if negb (g_serial g) then (Err CSerial, fs)
  else match g_cert g with
       | None => (Err CCert, fs)
       | Some der =>
           match writePEM certPath "CERTIFICATE" der fs with
           | (Err e, fs) => (Err e, fs)
           | (Ok _, fs) =>
               match g_keyDER g with
               | None => (Err CMarshal, fs)
               | Some keyDER => writePEM keyPath "EC PRIVATE KEY" keyDER fs
               end
           end
       end.

(** ** One file *)

(** A file written: its content, and every other file as it was. *)
Definition only_file (l : loc) (data : string) (fs fs' : hostfs) : Prop :=
  l ≠ [] ∧ fs' !! l = Some (NFile data now) ∧
  ∀ l' d t, l' ≠ l → fs' !! l' = Some (NFile d t) ↔ fs !! l' = Some (NFile d t).

Lemma write_open l data fs fs' :
  open_trunc W now l fs = Some fs' → only_file l data fs (write_data now l data fs').
Proof.
  intros Ho. pose proof Ho as [Hs Hl]%open_trunc_same_off. unfold write_data. split.
  { intros ->. done. }
  split; [by rewrite lookup_alter_eq, Hl|].
  intros l' d t Hne. rewrite lookup_alter_ne by done. by rewrite Hs by done.
Qed.

Lemma writePEM_ok path typ der fs fs' :
  writePEM path typ der fs = (Ok (), fs') →
  path ≠ ""%string ∧ only_file (resolve cwd path) (pem_encode typ der) fs fs'.
Proof.
  unfold writePEM. set (mk := if _ && _ then _ else _). destruct mk as [ok fs1] eqn:Emk.
  destruct ok; [cbn [negb]|done]. destruct (String.eqb_spec path ""); [done|].
  destruct (open_trunc W now _ fs1) as [fs2|] eqn:Eo; [|done]. intros [= <-]. split; [done|].
  destruct (write_open _ (pem_encode typ der) _ _ Eo) as (H0 & H1 & H2). split; [done|]. split; [done|].
  intros l' d t Hne. rewrite H2 by done. subst mk. case_if; [|by injection Emk as <-].
  pose proof (mkdir_all_files W (resolve cwd (path_dirname path)) fs l' d t) as Hm.
  by rewrite Emk in Hm.
Qed.

Lemma exists_file p d fs t :
  p ≠ ""%string → d ≠ ""%string → resolve cwd p ≠ [] → fs !! resolve cwd p = Some (NFile d t) →
  fileExists p fs = true.
Proof.
  intros Hp Hd Hne Hf. unfold fileExists. rewrite (proj2 (String.eqb_neq _ _) Hp). unfold stat.
  destruct (resolve cwd p); [done|]. by rewrite Hf, (proj2 (String.eqb_neq _ _) Hd).
Qed.

(** When writing is possible: the directory can be made, and the path names
    neither a directory nor, when there is none, a place outside one. *)
Record place_ok (path : string) (fs : hostfs) : Prop := {
  pl_path : path ≠ ""%string;
  pl_below : ∃ n, resolve cwd path = n :: resolve cwd (path_dirname path);
  pl_write : W (resolve cwd path) = true;
  pl_free : fs !! resolve cwd path ≠ Some NDir;
  pl_dirs : ∀ l', suffix l' (resolve cwd (path_dirname path)) → l' ≠ [] →
    W l' = true ∧ ∀ d t, fs !! l' ≠ Some (NFile d t);
  pl_cwd : path_dirname path = "."%string ∨ path_dirname path = ""%string →
    is_dir (resolve cwd (path_dirname path)) fs = true
}.

Lemma suffix_not_longer (c : string) (l : loc) : ¬ suffix (c :: l) l.
Proof. intros [k H]. apply (f_equal length) in H. rewrite length_app in H. cbn in H. lia. Qed.

Lemma writePEM_total path typ der fs :
  place_ok path fs → ∃ fs', writePEM path typ der fs = (Ok (), fs') ∧
    same_off (λ l, suffix l (resolve cwd path)) fs fs' ∧
    ∀ l, fs !! l = Some NDir → fs' !! l = Some NDir.
Proof.
  intros [Hp [n Hn] Hw Hf Hd Hc]. unfold writePEM. set (l := resolve cwd (path_dirname path)) in *.
  set (mk := if _ && _ then _ else _).
  assert (mk.1 = true ∧ is_dir l mk.2 = true ∧ mk.2 !! resolve cwd path = fs !! resolve cwd path ∧
    same_off (λ l', suffix l' l) fs mk.2 ∧ ∀ l', fs !! l' = Some NDir → mk.2 !! l' = Some NDir)
    as (H1 & H2 & H3 & H4 & H5).
  { subst mk. case_if.
    - destruct (mkdir_all_ok W l fs Hd) as (H1 & _ & H2). split_and!; [done|done| |apply mkdir_all_same_off|intros l1; apply mkdir_all_keeps].
      apply (mkdir_all_same_off W l fs). rewrite Hn. apply suffix_not_longer.
    - destruct Eif as [?%negb_false_iff%String.eqb_eq|?%negb_false_iff%String.eqb_eq];
        split_and!; try done; apply Hc; auto. }
  destruct mk as [ok fs1]. cbn [fst snd] in *. subst ok. cbn [negb].
  rewrite (proj2 (String.eqb_neq _ _) Hp).
  assert (is_Some (open_trunc W now (resolve cwd path) fs1)) as [fs2 Ho].
  { unfold open_trunc. rewrite Hn in *. rewrite Hw. cbn [negb]. rewrite H3.
    destruct (fs !! (n :: l)) as [[|d t]|]; [done|by eexists|]. rewrite H2. by eexists. }
  rewrite Ho. eexists. split; [done|].
  apply open_trunc_same_off in Ho as [Ho Ho'].
  split.
  2: { intros l' Hl'. assert (l' ≠ resolve cwd path) by (intros ->; done).
       unfold write_data. rewrite lookup_alter_ne, Ho by congruence. by apply H5. }
  transitivity fs1; [|transitivity fs2].
  - eapply same_off_mono; [|exact H4]. intros l' Hs. rewrite Hn. by apply suffix_cons_r.
  - eapply same_off_mono; [|exact Ho]. by intros l' <-.
  - by apply alter_same_off.
Qed.

(** ** The pair *)

(** A success leaves both files in place, non-empty. A complete pair is not
    touched; otherwise both files are of one generation, and no other file is. *)
Theorem ensure_self_signed g c k fs fs' :
  EnsureSelfSigned g c k fs = (Ok (), fs') →
  fileExists c fs' = true ∧ fileExists k fs' = true ∧
  (fs' = fs ∨
   ∃ der keyDER, g_cert g = Some der ∧ g_keyDER g = Some keyDER ∧
     (fileExists c fs = false ∨ fileExists k fs = false) ∧
     (resolve cwd c ≠ resolve cwd k →
      fs' !! resolve cwd c = Some (NFile (pem_encode "CERTIFICATE" der) now)) ∧
     fs' !! resolve cwd k = Some (NFile (pem_encode "EC PRIVATE KEY" keyDER) now) ∧
     ∀ l d t, l ≠ resolve cwd c → l ≠ resolve cwd k →
       fs' !! l = Some (NFile d t) ↔ fs !! l = Some (NFile d t)).
Proof.
  unfold EnsureSelfSigned. destruct (fileExists c fs && fileExists k fs) eqn:Eb.
  { intros [= <-]. apply andb_true_iff in Eb as [-> ->]. split_and!; [done..|by left]. }
  destruct (g_key g), (g_serial g); try done. cbn [negb].
  destruct (g_cert g) as [der|]; [|done]. destruct (writePEM c _ der fs) as [[[]|e] fs1] eqn:E1; [|done].
  destruct (g_keyDER g) as [kd|]; [|done]. intros E2.
  apply writePEM_ok in E1 as (Hc & Hc0 & Hcf & Hco). apply writePEM_ok in E2 as (Hk & Hk0 & Hkf & Hko).
  assert (∃ d, d ≠ ""%string ∧ fs' !! resolve cwd c = Some (NFile d now)) as (d & Hd & Hd').
  { destruct (decide (resolve cwd c = resolve cwd k)) as [->|Hne].
    - eexists. split; [|exact Hkf]. apply pem_not_empty.
    - eexists. split; [apply (pem_not_empty "CERTIFICATE" der)|]. by apply Hko. }
  split; [by eapply exists_file|]. split; [eapply exists_file; [done|apply pem_not_empty|done|done]|].
  right. exists der, kd. split_and!; [done|done| |intros Hne; by apply Hko|done|].
  - by apply andb_false_iff in Eb.
  - intros l d' t Hl1 Hl2. by rewrite Hko, Hco.
Qed.

(** With a key, a certificate and both places in order the call succeeds; the
    certificate's path must not be a directory of the key's. *)
Theorem ensure_self_signed_total g c k fs :
  g_key g = true → g_serial g = true → is_Some (g_cert g) → is_Some (g_keyDER g) →
  place_ok c fs → place_ok k fs →
  resolve cwd c ≠ resolve cwd (path_dirname k) → ¬ suffix (resolve cwd c) (resolve cwd (path_dirname k)) →
  ¬ suffix (resolve cwd k) (resolve cwd (path_dirname c)) →
  ∃ fs', EnsureSelfSigned g c k fs = (Ok (), fs').
Proof.
  intros Hg Hs [der Hder] [kd Hkd] Hc Hk Hne Hnk Hkn. unfold EnsureSelfSigned.
  destruct (_ && _); [by eexists|]. rewrite Hg, Hs, Hder, Hkd. cbn [negb].
  destruct (writePEM_total c "CERTIFICATE" der fs Hc) as (fs1 & Hw & Hs1 & Hd1). rewrite Hw.
  apply writePEM_ok in Hw as (_ & _ & Hcf & Hco).
  destruct (writePEM_total k "EC PRIVATE KEY" kd fs1) as (fs2 & Hw & _ & _); [|by eexists].
  destruct Hk as [Hp [n Hn] HW Hf Hd Hcw]. destruct Hc as [_ [m Hm] _ _ _ _].
  split; [done|by exists n|done| | |].
  - destruct (decide (resolve cwd k = resolve cwd c)) as [->|Hd0]; [by rewrite Hcf|].
    rewrite (Hs1 (resolve cwd k)); [done|]. intros Hsuf. rewrite Hm in Hsuf.
    apply suffix_cons_cases in Hsuf as [Heq|Hsuf]; [congruence|done].
  - intros l' Hl' Hl0. destruct (Hd l' Hl' Hl0) as [H1 H2]. split; [done|].
    intros d t Hx. apply (H2 d t). rewrite <-Hco; [done|]. by intros ->.
  - intros H. specialize (Hcw H). unfold is_dir in *. destruct (resolve cwd (path_dirname k)); [done|].
    destruct (fs !! _) as [[]|] eqn:E in Hcw; try done. by rewrite (Hd1 _ E).
Qed.

(** The certificate that was there is lost when only the key is missing, even
    when the key then cannot be written and the server refuses to start. *)
Theorem lone_certificate_lost g c k fs fs1 der kd :
  fileExists k fs = false → g = mkGen true true (Some der) (Some kd) →
  writePEM c "CERTIFICATE" der fs = (Ok (), fs1) → W (resolve cwd k) = false →
  ∃ e fs', EnsureSelfSigned g c k fs = (Err e, fs') ∧
    fs' !! resolve cwd c = Some (NFile (pem_encode "CERTIFICATE" der) now).
Proof.
  intros Hk -> Hw Hnw. unfold EnsureSelfSigned. rewrite Hk, andb_false_r. cbn [g_key g_serial g_cert g_keyDER negb].
  rewrite Hw. pose proof (writePEM_ok _ _ _ _ _ Hw) as (_ & _ & Hcf & _). unfold writePEM.
  set (mk := if _ && _ then _ else _).
  assert (mk.2 !! resolve cwd c = Some (NFile (pem_encode "CERTIFICATE" der) now)) as Hm.
  { subst mk. case_if; [|done]. by apply mkdir_all_keeps. }
  destruct mk as [ok fs2]. cbn [snd] in Hm. destruct ok; cbn [negb]; [|by eexists _, _].
  case_if; [by eexists _, _|]. unfold open_trunc. destruct (resolve cwd k); [by eexists _, _|].
  rewrite Hnw. by eexists _, _.
Qed.
End certgen.

(** ** Witnesses *)

Definition demo_gen : keygen := mkGen true true (Some "cert"%string) (Some "key"%string).
Definition demo_home : hostfs := <[["home"%string] := NDir]> ∅.
Definition demo_certs : hostfs := (EnsureSelfSigned (λ _, true) ["home"%string] 7 demo_gen "certs/tls.crt" "certs/tls.key" demo_home).2.

Example demo_cert_text :
  read_file ["tls.crt"; "certs"; "home"]%string demo_certs
  = Some ("-----BEGIN CERTIFICATE-----" ++s String (ch 10) ("Y2VydA==" ++s String (ch 10)
          ("-----END CERTIFICATE-----" ++s String (ch 10) "")))%string.
Proof. vm_compute. reflexivity. Qed.

Lemma ensure_self_signed_witness :
  fileExists ["home"%string] "certs/tls.crt" demo_certs = true ∧
  fileExists ["home"%string] "certs/tls.key" demo_certs = true.
Proof.
  destruct (ensure_self_signed (λ _, true) ["home"%string] 7 demo_gen "certs/tls.crt" "certs/tls.key" demo_home
              demo_certs) as (H1 & H2 & _); [vm_refl|by split].
Defined.
