(* ===== verification/Archive.v ===== *)
(** * pkg/setup: unpacking release archives

    [ExtractZipWithOptions] and [ExtractTarGz] over the file system of HostFS.v.
    An archive is the entry list the standard library's readers return; times
    are nanoseconds since Go's zero time.  Permission bits are not modelled. *)

From S2P Require Import Prelude GoStrings GoStringsFacts GoPath HostFS Auth Tunnel.
From Stdlib Require Import ZArith Lia ZifyBool Bool Ascii String.
From stdpp Require Import base option list gmap strings.

Open Scope go_scope.

(** ** Archives *)

(** An [archive/zip] entry: its name and attributes, whether [Open] succeeds,
    what reading it yields and whether the copy ends without error. *)
Record zip_file := mkZF {
  z_Name : string; z_dirattr : bool; z_size : Z; z_Modified : Z;
  z_opens : bool; z_data : string; z_copies : bool
}.

(** [f.FileInfo().IsDir()] *)
Definition z_IsDir (f : zip_file) : bool := z_dirattr f || has_suffix (z_Name f) "/".

Inductive tar_type := TypeDir | TypeReg | TypeOther.

(** An [archive/tar] entry; a tar stream ends with EOF or with a read error. *)
Record tar_hdr := mkTH {
  t_Name : string; t_Typeflag : tar_type; t_Size : Z; t_ModTime : Z; t_data : string
}.
Record tar_stream := mkTS { ts_entries : list tar_hdr; ts_eof : bool }.

(** pkg/setup/setup.go:167-172 [ExtractedFile] *)
Record ExtractedFile := mkEF {
  ef_Path : string; ef_Size : Z; ef_Hash : string; ef_ModifiedAt : Z
}.

(** pkg/setup/setup.go:186-186 [StripMode] *)
Inductive StripMode := StripAuto | StripNone | StripForce.

Inductive extract_err := EOpenArchive | EReadArchive | EMkdir | EOpenEntry | ECreate | ECopy.

(** ** The common top-level directory *)

(** pkg/setup/setup.go:336-352 [detectZipPrefixRaw] *)
Definition detectZipPrefixRaw (files : list string) : string :=
  match files with
  | [] => ""
  | first :: _ =>
      match index_byte first "/" with
      | None => ""
      | Some sep =>
          let prefix := take_str (S sep) first in
          if forallb (λ n, has_prefix n prefix) files then prefix else ""
      end
  end.

(** pkg/setup/setup.go:379-383 [detectZipPrefix part] *)
Definition layout_dirs : list string :=
  ["packages"; "bin"; "conf"; "lib"; "ai"; "models"; "manifests";
   "keystores"; "logs"; "certs"; "src"; "docs"]%string.

(** pkg/setup/setup.go:362-385 [detectZipPrefix] *)
Definition detectZipPrefix (files : list string) : string :=
  match files with
  | [] => ""
  | first :: _ =>
      match index_byte first "/" with
      | None => ""
      | Some sep =>
          let prefix := take_str (S sep) first in
          if forallb (λ n, has_prefix n prefix) files then
            if bool_decide (trim_suffix prefix "/" ∈ layout_dirs) then "" else prefix
          else ""
      end
  end.

(** pkg/setup/setup.go:476-492 [detectTarPrefix] *)
Definition detectTarPrefix (names : list string) : string :=
  match names with
  | [] => ""
  | first :: _ =>
      match index_byte first "/" with
      | None => ""
      | Some sep =>
          let prefix := take_str (S sep) first in
          if forallb (λ n, has_prefix n prefix) names then prefix else ""
      end
  end.

(** pkg/setup/setup.go:229-241 [ExtractZipWithOptions part]: the prefix to strip. *)
Definition zip_prefix (strip : StripMode) (files : list zip_file) : string :=
  replace_all
    (match strip with
     | StripNone => ""
     | StripForce => detectZipPrefixRaw (map z_Name files)
     | StripAuto => detectZipPrefix (map z_Name files)
     end) "\" "/".

(** pkg/setup/setup.go:251-256 [ExtractZipWithOptions part]; lines 432-438 of
    [ExtractTarGz] are the same: [None] continues with the next entry. *)
Definition strip_name (prefix name : string) : option string :=
  if prefix =s? "" then Some name
  else let name := trim_prefix name prefix in if name =s? "" then None else Some name.

(** pkg/setup/setup.go:250-256 [ExtractZipWithOptions part] *)
Definition zip_name (prefix : string) (f : zip_file) : option string :=
  strip_name prefix (replace_all (z_Name f) "\" "/").

(** ** Extraction *)

Inductive step_res := Continue | Extracted (e : ExtractedFile) | Failed (e : extract_err).

Section extract.
Context {S256 : Sha256} (W : loc → bool) (cwd : loc) (now : Z) (destDir : string).

(** pkg/setup/filehash.go:17-19 [FileMtime] *)
Definition FileMtime (mtime : Z) : Z := mtime - mtime mod 1000000000.

(** pkg/setup/filehash.go:22-35 [FileHash] *)
Definition FileHash (l : loc) (fs : hostfs) : string :=
  match read_file l fs with Some d => hex_encode (sha256 d) | None => "" end.

(** The recorded modification time: zero when the file cannot be inspected. *)
Definition stat_mtime (l : loc) (fs : hostfs) : Z :=
  match stat l fs with Found (NFile _ t) => FileMtime t | _ => 0 end.

(** pkg/setup/setup.go:308-332 [extractZipFile] *)
Definition extractZipFile (f : zip_file) (l : loc) (fs : hostfs) : option extract_err * hostfs :=
  if negb (z_opens f) then (Some EOpenEntry, fs)
  else match open_trunc W now l fs with
       | None => (Some ECreate, fs)
       | Some fs =>
           let fs := write_data now l (z_data f) fs in
           if negb (z_copies f) then (Some ECopy, fs)
           else (None, if z_Modified f =? 0 then fs else chtimes l (z_Modified f) fs)%Z
       end.

(** pkg/setup/setup.go:268-282 [ExtractZipWithOptions part]: the file kept on disk. *)
Definition kept_file (skip : option (string → bool)) (name : string) (l : loc) (fs : hostfs)
  : option ExtractedFile :=
  match skip with
  | None => None
  | Some skip =>
      if skip name then
        match stat l fs with
        | Found (NFile d t) =>
            Some (mkEF name (Z.of_nat (String.length d)) (FileHash l fs) (FileMtime t))
        | _ => None
        end
      else None
  end.

(** pkg/setup/setup.go:244-304 [ExtractZipWithOptions part]: one entry. *)
Definition zip_step (skip : option (string → bool)) (prefix : string) (f : zip_file) (fs : hostfs)
  : step_res * hostfs :=
  match zip_name prefix f with
  | None => (Continue, fs)
  | Some name =>
      let destPath := path_join2 destDir name in
      let l := resolve cwd destPath in
      if z_IsDir f || has_suffix name "/" then (Continue, (mkdir_all W l fs).2)
      else
        match kept_file skip name l fs with
        | Some e => (Extracted e, fs)
        | None =>
            let '(ok, fs) := mkdir_all W (resolve cwd (path_dirname destPath)) fs in
            if negb ok then (Failed EMkdir, fs)
            else
              match extractZipFile f l fs with
              | (Some e, fs) => (Failed e, fs)
              | (None, fs) =>
                  (Extracted (mkEF (path_join_list [name]) (z_size f) (FileHash l fs) (stat_mtime l fs)), fs)
              end
        end
  end.

(** pkg/setup/setup.go:440-471 [ExtractTarGz part]: one entry. *)
Definition tar_step (prefix : string) (h : tar_hdr) (fs : hostfs) : step_res * hostfs :=
  match strip_name prefix (t_Name h) with
  | None => (Continue, fs)
  | Some name =>
      let destPath := path_join2 destDir name in
      let l := resolve cwd destPath in
      match t_Typeflag h with
      | TypeDir => (Continue, (mkdir_all W l fs).2)
      | TypeOther => (Continue, fs)
      | TypeReg =>
          let '(ok, fs) := mkdir_all W (resolve cwd (path_dirname destPath)) fs in
          if negb ok then (Failed EMkdir, fs)
          else
            match open_trunc W now l fs with
            | None => (Failed ECreate, fs)
            | Some fs =>
                let fs := write_data now l (t_data h) fs in
                let fs := if (t_ModTime h =? 0)%Z then fs else chtimes l (t_ModTime h) fs in
                (Extracted (mkEF name (t_Size h) (FileHash l fs) (stat_mtime l fs)), fs)
            end
      end
  end.

(** The extraction loop: the first failure ends it, the work done stays. *)
Fixpoint extract_loop {A} (step : A → hostfs → step_res * hostfs) (l : list A)
  (acc : list ExtractedFile) (fs : hostfs) : result extract_err (list ExtractedFile) * hostfs :=
  match l with
  | [] => (Ok acc, fs)
  | a :: l =>
      match step a fs with
      | (Continue, fs) => extract_loop step l acc fs
      | (Extracted e, fs) => extract_loop step l (acc ++ [e]) fs
      | (Failed e, fs) => (Err e, fs)
      end
  end.

(** pkg/setup/setup.go:222-306 [ExtractZipWithOptions]; [None] is an archive
    that does not open. *)
Definition ExtractZipWithOptions (files : option (list zip_file)) (skip : option (string → bool))
  (strip : StripMode) (fs : hostfs) : result extract_err (list ExtractedFile) * hostfs :=
  match files with
  | None => (Err EOpenArchive, fs)
  | Some files => extract_loop (zip_step skip (zip_prefix strip files)) files [] fs
  end.

(** pkg/setup/setup.go:205-207 [ExtractZip] *)
Definition ExtractZip (files : option (list zip_file)) := ExtractZipWithOptions files None StripAuto.

(** pkg/setup/setup.go:212-214 [ExtractZipFiltered] *)
Definition ExtractZipFiltered (files : option (list zip_file)) (skip : option (string → bool)) :=
  ExtractZipWithOptions files skip StripAuto.

(** pkg/setup/setup.go:388-474 [ExtractTarGz]: the stream is read twice. *)
Definition ExtractTarGz (ar : option tar_stream) (fs : hostfs)
  : result extract_err (list ExtractedFile) * hostfs :=
  match ar with
  | None => (Err EOpenArchive, fs)
  | Some ar =>
      if negb (ts_eof ar) then (Err EReadArchive, fs)
      else extract_loop (tar_step (detectTarPrefix (map t_Name (ts_entries ar)))) (ts_entries ar) [] fs
  end.
End extract.
