(* ===== verification/ArchiveProofs.v ===== *)
(** * What unpacking an archive does to the file system

    Containment, the slip outside the destination, and the exact result: an
    archive that fits is laid out as its plan says, file by file. *)

From S2P Require Import Prelude GoStrings GoStringsFacts GoPath HostFS Auth Tunnel Archive.
From Stdlib Require Import ZArith Lia ZifyBool Bool Ascii String.
From stdpp Require Import base option list gmap strings.

Open Scope go_scope.

(** ** The specification: a plan *)

(** What an entry stands for: nothing, a directory, or a file with its content,
    its modification time and its record. *)
Inductive action :=
  | ASkip
  | ADir (l : loc)
  | AFile (l : loc) (data : string) (mtime : Z) (e : ExtractedFile).

Definition targets (acts : list action) : list loc :=
  omap (λ a, match a with AFile l _ _ _ => Some l | _ => None end) acts.
Definition records (acts : list action) : list ExtractedFile :=
  omap (λ a, match a with AFile _ _ _ e => Some e | _ => None end) acts.

(** The file location [l] is not on the way to what [a] creates. *)
Definition no_clash (l : loc) (a : action) : bool :=
  match a with
  | ASkip => true
  | ADir l' => negb (bool_decide (suffix l l'))
  | AFile l' _ _ _ => negb (bool_decide (suffix l l')) || bool_decide (l = l')
  end.

(** The ancestors of [l], itself included, the root not. *)
Fixpoint ancestors (l : loc) : list loc :=
  match l with [] => [] | _ :: l' => l :: ancestors l' end.

(** Nothing on disk prevents the file [l]. *)
Definition clear (W : loc → bool) (fs : hostfs) (l : loc) : bool :=
  match l with
  | [] => false
  | _ :: l' =>
      forallb W (ancestors l) &&
      forallb (λ x, match fs !! x with Some (NFile _ _) => false | _ => true end) (ancestors l') &&
      match fs !! l with Some NDir => false | _ => true end
  end.

Definition plan_ok (W : loc → bool) (fs : hostfs) (acts : list action) : bool :=
  bool_decide (NoDup (targets acts)) &&
  forallb (λ l, clear W fs l && forallb (no_clash l) acts) (targets acts).

Lemma elem_ancestors l x : x ∈ ancestors l ↔ suffix x l ∧ x ≠ [].
Proof.
  induction l as [|c l IH]; cbn [ancestors].
  - split; [by intros ?%elem_of_nil|]. intros [Hx%suffix_nil_inv Hne]. done.
  - rewrite elem_of_cons, IH. split.
    + intros [->|[H Hne]]; [by split|]. split; [by apply suffix_cons_r|done].
    + intros [[->|H]%suffix_cons_cases Hne]; [by left|by right].
Qed.

Lemma clear_spec W fs l :
  clear W fs l = true →
  ∃ c l', l = c :: l' ∧
    (∀ x, suffix x l → x ≠ [] → W x = true) ∧
    (∀ x, suffix x l' → x ≠ [] → ∀ d t, fs !! x ≠ Some (NFile d t)) ∧
    fs !! l ≠ Some NDir.
Proof.
  unfold clear. destruct l as [|c l]; [done|]. rewrite !andb_true_iff, !forallb_forall.
  intros [[Hw Hf] Hd]. exists c, l. split_and!; [done|..].
  - intros x Hx Hne. apply Hw, list_elem_of_In, elem_ancestors. done.
  - intros x Hx Hne d t E. specialize (Hf x). rewrite <-list_elem_of_In, elem_ancestors, E in Hf.
    discriminate (Hf (conj Hx Hne)).
  - intros E. by rewrite E in Hd.
Qed.

(** ** One entry *)

Section steps.
Context {S256 : Sha256} (W : loc → bool) (cwd : loc) (now : Z) (destDir : string).

(** The same files, except possibly at [l]. *)
Definition same_files (l : loc) (fs fs' : hostfs) : Prop :=
  ∀ x d t, x ≠ l → (fs' !! x = Some (NFile d t) ↔ fs !! x = Some (NFile d t)).

(** A step carries an action out. *)
Definition does (step : hostfs → step_res * hostfs) (a : action) : Prop :=
  match a with
  | ASkip => ∀ fs, step fs = (Continue, fs)
  | ADir l => ∀ fs, step fs = (Continue, (mkdir_all W l fs).2)
  | AFile l d t e => ∀ fs, clear W fs l = true →
      ∃ fs', step fs = (Extracted e, fs') ∧ fs' !! l = Some (NFile d t) ∧
        same_files l fs fs' ∧ same_off (λ x, suffix x l) fs fs'
  end.

(** Creating the directory of a file, then the file. *)
Lemma create_file fs c l0 d (m : Z) :
  let l := c :: l0 in
  clear W fs l = true →
  ∃ fs1 fs2, mkdir_all W l0 fs = (true, fs1) ∧ open_trunc W now l fs1 = Some fs2 ∧
    let fs3 := write_data now l d fs2 in
    let fs4 := if (m =? 0)%Z then fs3 else chtimes l m fs3 in
    fs4 !! l = Some (NFile d (if (m =? 0)%Z then now else m)) ∧
    same_files l fs fs4 ∧ same_off (λ x, suffix x l) fs fs4.
Proof.
  intros l (? & ? & [= <- <-] & Hw & Hf & Hd)%clear_spec.
  destruct (mkdir_all_ok W l0 fs) as (Hok & _ & Hdir).
  { intros x Hx Hne. split; [|by apply Hf]. apply Hw; [by apply suffix_cons_r|done]. }
  pose proof (mkdir_all_same_off W l0 fs) as Hoff. pose proof (mkdir_all_files W l0 fs) as Hfiles.
  destruct (mkdir_all W l0 fs) as [ok fs1]. cbn [fst snd] in *. subst ok.
  assert (fs1 !! l = fs !! l) as Hl.
  { apply Hoff. intros Hs%suffix_length. cbn in Hs. lia. }
  assert (∃ fs2, open_trunc W now l fs1 = Some fs2) as [fs2 Ho].
  { unfold open_trunc, l. rewrite Hw by (done || apply suffix_refl). cbn [negb]. fold l. rewrite Hl.
    destruct (fs !! l) as [[|]|]; [done|by eexists|]. rewrite Hdir. by eexists. }
  exists fs1, fs2. split; [done|]. split; [done|].
  destruct (open_trunc_same_off _ _ _ _ _ Ho) as [Hoff2 Hl2].
  set (fs3 := write_data now l d fs2).
  assert (fs3 !! l = Some (NFile d now)) as H3.
  { unfold fs3, write_data. rewrite lookup_alter_eq, Hl2. done. }
  assert (same_off (eq l) fs2 fs3) as Hoff3 by by apply alter_same_off.
  cbn zeta. set (fs4 := if (m =? 0)%Z then fs3 else chtimes l m fs3).
  assert (same_off (eq l) fs3 fs4) as Hoff4.
  { unfold fs4. case_if; [done|]. by apply alter_same_off. }
  assert (same_off (eq l) fs1 fs4) as Hoff14 by by do 2 (etransitivity; [eassumption|]).
  split_and!.
  - unfold fs4. case_if; [done|]. unfold chtimes. by rewrite lookup_alter_eq, H3.
  - intros x d' t' Hne. rewrite (Hoff14 x) by done. by rewrite Hfiles.
  - etransitivity; [eapply same_off_mono, Hoff|eapply same_off_mono, Hoff14].
    + intros x Hx. by apply suffix_cons_r.
    + by intros x <-.
Qed.

Lemma clear_mono fs fs' l :
  (∀ x d t, suffix x l → x ≠ l → fs' !! x = Some (NFile d t) → fs !! x = Some (NFile d t)) →
  (fs' !! l = Some NDir → fs !! l = Some NDir) →
  clear W fs l = true → clear W fs' l = true.
Proof.
  intros Hf Hd Hc. pose proof (clear_spec _ _ _ Hc) as (c & l' & -> & _ & Hn & Hnd).
  unfold clear in *. apply andb_true_iff in Hc as [[Hw _]%andb_true_iff _]. rewrite Hw. cbn [andb].
  apply andb_true_iff. split.
  - apply forallb_forall. intros x Hx%list_elem_of_In%elem_ancestors. destruct Hx as [Hx Hne].
    destruct (fs' !! x) as [[|d t]|] eqn:E; [done| |done]. exfalso. eapply (Hn x Hx Hne), Hf, E.
    + by apply suffix_cons_r.
    + intros ->. apply suffix_length in Hx. cbn in Hx. lia.
  - destruct (fs' !! (c :: l')) as [[]|]; [|done|done]. by destruct Hnd; apply Hd.
Qed.

(** An action keeps the way clear for the files it does not clash with. *)
Lemma does_clear step a fs l :
  does step a → no_clash l a = true →
  (∀ l' d t e, a = AFile l' d t e → l ≠ l' ∧ clear W fs l' = true ∧ (suffix l' l → l' = l)) →
  clear W fs l = true → clear W (step fs).2 l = true.
Proof.
  intros Hdoes Hcl Ha. destruct a as [|l'|l' d t e]; cbn [does no_clash] in *.
  - by rewrite Hdoes.
  - rewrite Hdoes. cbn [snd]. apply clear_mono.
    + intros x d t _ _. by rewrite mkdir_all_files.
    + apply negb_true_iff, bool_decide_eq_false in Hcl. by rewrite mkdir_all_same_off.
  - destruct (Ha _ _ _ _ eq_refl) as (Hne & Hc' & Hsuf).
    destruct (Hdoes fs Hc') as (fs' & -> & _ & Hfiles & Hoff). cbn [snd]. apply clear_mono.
    + intros x d' t' Hx Hxl Hx'. apply Hfiles; [|done]. intros ->. by apply Hxl, Hsuf.
    + rewrite Hoff; [done|]. apply orb_true_iff in Hcl as [Hcl|Hcl].
      * by apply negb_true_iff, bool_decide_eq_false in Hcl.
      * by apply bool_decide_eq_true in Hcl.
Qed.

Lemma targets_elem acts l d t e : AFile l d t e ∈ acts → l ∈ targets acts.
Proof. intros H. apply list_elem_of_omap. by exists (AFile l d t e). Qed.

Lemma plan_ok_spec fs acts :
  plan_ok W fs acts = true ↔
  NoDup (targets acts) ∧
  ∀ l, l ∈ targets acts → clear W fs l = true ∧ ∀ a, a ∈ acts → no_clash l a = true.
Proof.
  unfold plan_ok. rewrite andb_true_iff, bool_decide_eq_true, forallb_forall. f_equiv. split.
  - intros H l Hl%list_elem_of_In. apply H, andb_true_iff in Hl as [? Hn]. split; [done|].
    intros a Ha%list_elem_of_In. by eapply forallb_forall in Ha.
  - intros H l Hl%list_elem_of_In. apply H in Hl as [-> Hn]. cbn [andb]. apply forallb_forall.
    intros a Ha%list_elem_of_In. by apply Hn.
Qed.

Lemma plan_ok_step step a acts fs :
  does step a → plan_ok W fs (a :: acts) = true → plan_ok W (step fs).2 acts = true.
Proof.
  intros Hdoes [Hnd Hall]%plan_ok_spec. apply plan_ok_spec. split.
  { destruct a; cbn in Hnd; [done|done|]. by inversion Hnd. }
  intros l Hl. assert (l ∈ targets (a :: acts)) as Hl'.
  { destruct a; cbn; [done|done|by right]. }
  destruct (Hall l Hl') as [Hc Hcl]. split; [|intros b Hb; apply Hcl; by right].
  eapply does_clear; [done|apply Hcl; left|..|done]. intros l' d t e ->.
  assert (l' ∈ targets (AFile l' d t e :: acts)) as Hin by left.
  destruct (Hall l' Hin) as [Hc' Hcl']. cbn in Hnd. inversion Hnd; subst.
  split; [by intros ->|]. split; [done|]. intros Hs.
  apply list_elem_of_omap in Hl as ([|?|l2 d2 t2 e2] & Hb & Hbl); [done|done|]. injection Hbl as ->.
  specialize (Hcl' (AFile l d2 t2 e2) ltac:(by right)). cbn in Hcl'.
  apply orb_true_iff in Hcl' as [H%negb_true_iff|H]; [|by apply bool_decide_eq_true in H].
  by apply bool_decide_eq_false in H.
Qed.

(** The loop lays the plan out. *)
Lemma loop_plan {A} (step : A → hostfs → step_res * hostfs) l acts acc fs :
  Forall2 (λ a act, does (step a) act) l acts → plan_ok W fs acts = true →
  ∃ fs', extract_loop step l acc fs = (Ok (acc ++ records acts), fs') ∧
    (∀ x d t e, AFile x d t e ∈ acts → fs' !! x = Some (NFile d t)) ∧
    (∀ x d t, x ∉ targets acts → (fs' !! x = Some (NFile d t) ↔ fs !! x = Some (NFile d t))).
Proof.
  intros Hl. revert acc fs. induction Hl as [|a act l acts Ha Hl IH]; intros acc fs Hok.
  { exists fs. cbn. rewrite app_nil_r. split_and!; [done| |done]. by intros ???? ?%elem_of_nil. }
  pose proof (plan_ok_step _ _ _ _ Ha Hok) as Hok'. apply plan_ok_spec in Hok as [Hnd Hall].
  cbn [extract_loop]. destruct act as [|x|x d t e].
  - cbn [does] in Ha. rewrite Ha in *. cbn [snd] in *.
    destruct (IH acc fs Hok') as (fs' & H1 & H2 & H3). exists fs'. split_and!; [done| |done].
    intros ???? [?|?]%elem_of_cons; [done|by eapply H2].
  - cbn [does] in Ha. rewrite Ha in *. cbn [snd] in *.
    destruct (IH acc _ Hok') as (fs' & H1 & H2 & H3). exists fs'. split_and!; [done|..].
    + intros ???? [?|?]%elem_of_cons; [done|by eapply H2].
    + intros y d t Hy. rewrite H3 by done. apply mkdir_all_files.
  - destruct (Ha fs) as (fs1 & Hst & Hx & Hfiles & _); [by apply Hall; left|]. rewrite Hst in *.
    cbn [snd] in *. destruct (IH (acc ++ [e]) _ Hok') as (fs' & H1 & H2 & H3).
    exists fs'. rewrite <-app_assoc in H1. cbn in Hnd. inversion Hnd; subst. split_and!; [done|..].
    + intros ???? [[= -> -> -> ->]|?]%elem_of_cons; [|by eapply H2]. by rewrite H3.
    + cbn. intros y d' t' [Hy1 Hy2]%not_elem_of_cons. rewrite H3 by done. by apply Hfiles.
Qed.
End steps.

(** ** What the entries of an archive ask for *)

Section plans.
Context {S256 : Sha256} (W : loc → bool) (cwd : loc) (now : Z) (destDir : string).
Hypothesis (Hdest : destDir ≠ ""%string).

(** The location below the destination a name denotes; none for a name that
    is empty or leaves the destination. *)
Definition below (name : string) : option loc :=
  if (name =s? "") || negb (stays_below name) then None
  else Some (push_path false [] name ++ resolve cwd destDir).

Definition file_action (name path data : string) (size mtime : Z) : option action :=
  match below name with
  | Some l =>
      if bool_decide (push_path false [] name = []) then None
      else let t := if (mtime =? 0)%Z then now else mtime in
           Some (AFile l data t (mkEF path size (hex_encode (sha256 data)) (FileMtime t)))
  | None => None
  end.

Definition zip_action (prefix : string) (f : zip_file) : option action :=
  match zip_name prefix f with
  | None => Some ASkip
  | Some name =>
      if z_IsDir f || has_suffix name "/" then ADir <$> below name
      else if z_opens f && z_copies f
           then file_action name (path_join_list [name]) (z_data f) (z_size f) (z_Modified f)
           else None
  end.

Definition tar_action (prefix : string) (h : tar_hdr) : option action :=
  match strip_name prefix (t_Name h) with
  | None => Some ASkip
  | Some name =>
      match t_Typeflag h with
      | TypeDir => ADir <$> below name
      | TypeOther => Some ASkip
      | TypeReg => file_action name name (t_data h) (t_Size h) (t_ModTime h)
      end
  end.

Lemma below_spec name l :
  below name = Some l →
  name ≠ ""%string ∧ stays_below name = true ∧ l = push_path false [] name ++ resolve cwd destDir ∧
  resolve cwd (path_join2 destDir name) = l.
Proof.
  unfold below. destruct (String.eqb_spec name ""); [done|]. destruct (stays_below name) eqn:Hb; [|done].
  cbn. intros [= <-]. split_and!; [done..|]. by apply resolve_below.
Qed.

Lemma file_action_spec name path data size mtime a :
  file_action name path data size mtime = Some a →
  ∃ c l0 t, a = AFile (c :: l0) data t (mkEF path size (hex_encode (sha256 data)) (FileMtime t)) ∧
    t = (if (mtime =? 0)%Z then now else mtime) ∧
    resolve cwd (path_join2 destDir name) = c :: l0 ∧
    resolve cwd (path_dirname (path_join2 destDir name)) = l0.
Proof.
  unfold file_action. destruct (below name) as [l|] eqn:Eb; [|done].
  apply below_spec in Eb as (Hn & Hb & -> & Hr).
  destruct (bool_decide (push_path false [] name = [])) eqn:Ep; [done|].
  apply bool_decide_eq_false in Ep. intros [= <-].
  pose proof (resolve_dirname_below cwd destDir name Hdest Hn Hb Ep) as Hdir. rewrite Hr.
  destruct (push_path false [] name) as [|c a]; [done|]. cbn [app tail] in *.
  by exists c, (a ++ resolve cwd destDir), (if (mtime =? 0)%Z then now else mtime).
Qed.

Lemma stat_mtime_file l fs d t : fs !! l = Some (NFile d t) → l ≠ [] → stat_mtime l fs = FileMtime t.
Proof. intros H Hl. unfold stat_mtime, stat. destruct l; [done|]. by rewrite H. Qed.

Lemma FileHash_file l fs d t : fs !! l = Some (NFile d t) → FileHash l fs = hex_encode (sha256 d).
Proof. intros H. unfold FileHash, read_file. by rewrite H. Qed.

Lemma zip_step_does prefix f a :
  zip_action prefix f = Some a → does W (zip_step W cwd now destDir None prefix f) a.
Proof.
  unfold zip_action, zip_step. destruct (zip_name prefix f) as [name|]; [|by intros [= <-]].
  destruct (z_IsDir f || has_suffix name "/").
  { destruct (below name) as [l|] eqn:E; [|done]. intros [= <-]. by apply below_spec in E as (_ & _ & _ & ->). }
  destruct (z_opens f) eqn:Eo; [|done]. destruct (z_copies f) eqn:Ec; [|done]. cbn [andb kept_file].
  intros (c & l0 & t & -> & -> & Hl & Hdir)%file_action_spec fs Hc. rewrite Hl, Hdir.
  destruct (create_file W now fs c l0 (z_data f) (z_Modified f) Hc) as (fs1 & fs2 & Hm & Ho & Hx & Hf & Hs).
  rewrite Hm. cbn [negb]. unfold extractZipFile. rewrite Eo, Ho, Ec. cbn [negb]. eexists.
  rewrite (FileHash_file _ _ _ _ Hx), (stat_mtime_file _ _ _ _ Hx) by done. done.
Qed.

Lemma tar_step_does prefix h a :
  tar_action prefix h = Some a → does W (tar_step W cwd now destDir prefix h) a.
Proof.
  unfold tar_action, tar_step. destruct (strip_name prefix (t_Name h)) as [name|]; [|by intros [= <-]].
  destruct (t_Typeflag h).
  - destruct (below name) as [l|] eqn:E; [|done]. intros [= <-]. by apply below_spec in E as (_ & _ & _ & ->).
  - intros (c & l0 & t & -> & -> & Hl & Hdir)%file_action_spec fs Hc. rewrite Hl, Hdir.
    destruct (create_file W now fs c l0 (t_data h) (t_ModTime h) Hc) as (fs1 & fs2 & Hm & Ho & Hx & Hf & Hs).
    rewrite Hm, Ho. cbn [negb]. eexists.
    rewrite (FileHash_file _ _ _ _ Hx), (stat_mtime_file _ _ _ _ Hx) by done. done.
  - by intros [= <-].
Qed.

Lemma file_action_hash name path data size mtime x d t e :
  file_action name path data size mtime = Some (AFile x d t e) → ef_Hash e = hex_encode (sha256 d).
Proof. by intros (? & ? & ? & [= -> -> -> ->] & _)%file_action_spec. Qed.

Lemma zip_action_hash prefix f a :
  zip_action prefix f = Some a → ∀ x d t e, a = AFile x d t e → ef_Hash e = hex_encode (sha256 d).
Proof.
  intros Ha x d t e ->. unfold zip_action in Ha. destruct (zip_name _ f) as [name|]; [|done].
  case_if; [by destruct (below name)|]. case_if; [|done]. by eapply file_action_hash.
Qed.

Lemma tar_action_hash prefix h a :
  tar_action prefix h = Some a → ∀ x d t e, a = AFile x d t e → ef_Hash e = hex_encode (sha256 d).
Proof.
  intros Ha x d t e ->. unfold tar_action in Ha. destruct (strip_name _ _) as [name|]; [|done].
  destruct (t_Typeflag h); [by destruct (below name)|by eapply file_action_hash|done].
Qed.

(** What a plan promises of a run. *)
Definition laid_out (acts : list action) (fs : hostfs)
  (r : result extract_err (list ExtractedFile) * hostfs) : Prop :=
  r.1 = Ok (records acts) ∧
  (∀ l d t e, AFile l d t e ∈ acts → r.2 !! l = Some (NFile d t) ∧ FileHash l r.2 = ef_Hash e) ∧
  (∀ l d t, l ∉ targets acts → (r.2 !! l = Some (NFile d t) ↔ fs !! l = Some (NFile d t))).

Lemma mapM_hash {A} (f : A → option action) l acts :
  (∀ a act, f a = Some act → ∀ x d t e, act = AFile x d t e → ef_Hash e = hex_encode (sha256 d)) →
  mapM f l = Some acts → ∀ x d t e, AFile x d t e ∈ acts → ef_Hash e = hex_encode (sha256 d).
Proof.
  intros Hf Hm%mapM_Some x d t e Hin. induction Hm as [|a act l acts Ha Hm IH]; [by apply elem_of_nil in Hin|].
  apply elem_of_cons in Hin as [<-|Hin]; [by eapply Hf|by apply IH].
Qed.

Lemma loop_laid_out {A} (step : A → hostfs → step_res * hostfs) (f : A → option action) l acts fs :
  (∀ a act, f a = Some act → does W (step a) act) →
  (∀ a act, f a = Some act → ∀ x d t e, act = AFile x d t e → ef_Hash e = hex_encode (sha256 d)) →
  mapM f l = Some acts → plan_ok W fs acts = true → laid_out acts fs (extract_loop step l [] fs).
Proof.
  intros Hdoes Hhash Hm Hok. pose proof (mapM_hash f l acts Hhash Hm) as Hh.
  apply mapM_Some in Hm. assert (Forall2 (λ a act, does W (step a) act) l acts) as H2.
  { eapply Forall2_impl; [exact Hm|]. intros. by apply Hdoes. }
  destruct (loop_plan W step l acts [] fs H2 Hok) as (fs' & -> & Hf & Ho). split; [done|]. split; [|done].
  intros x d t e Hin. cbn [snd]. pose proof (Hf _ _ _ _ Hin) as Hx. split; [done|].
  rewrite (FileHash_file _ _ _ _ Hx). symmetry. by eapply Hh.
Qed.

(** A zip archive whose entries stay below the destination, clash neither
    with each other nor with the disk, and read without error is unpacked
    exactly: the returned records are those of its files in order, every file
    holds its content under its time stamp and hashes to the recorded hash, and
    no other file of the disk changes. *)
Theorem unzip_exact files strip fs acts :
  mapM (zip_action (zip_prefix strip files)) files = Some acts → plan_ok W fs acts = true →
  laid_out acts fs (ExtractZipWithOptions W cwd now destDir (Some files) None strip fs).
Proof.
  intros Hm Hok. eapply loop_laid_out; [apply zip_step_does|apply zip_action_hash|done..].
Qed.

(** A tar archive that ends properly, whose entries stay below the
    destination and clash with nothing is unpacked exactly. *)
Theorem untar_exact entries fs acts :
  mapM (tar_action (detectTarPrefix (map t_Name entries))) entries = Some acts → plan_ok W fs acts = true →
  laid_out acts fs (ExtractTarGz W cwd now destDir (Some (mkTS entries true)) fs).
Proof.
  intros Hm Hok. eapply loop_laid_out; [apply tar_step_does|apply tar_action_hash|done..].
Qed.
End plans.

(** ** Containment *)

Section containment.
Context {S256 : Sha256} (W : loc → bool) (cwd : loc) (now : Z) (destDir : string).
Hypothesis (Hdest : destDir ≠ ""%string).

Let dest := resolve cwd destDir.

(** The destination, what lies below it and the directories leading to it. *)
Definition near (l : loc) : Prop := suffix dest l ∨ suffix l dest.

Definition stays (name : option string) : Prop :=
  match name with Some n => n ≠ ""%string ∧ stays_below n = true | None => True end.

Lemma near_suffix l l' : suffix dest l → suffix l' l → near l'.
Proof. intros H1 H2. by apply (suffix_comparable _ _ l). Qed.

Lemma near_mkdir l fs : suffix dest l → same_off near fs (mkdir_all W l fs).2.
Proof.
  intros Hl. eapply same_off_mono; [|apply mkdir_all_same_off]. intros l'. by apply near_suffix.
Qed.

Lemma near_mkdir' l fs : near l → same_off near fs (mkdir_all W l fs).2.
Proof.
  intros [Hl|Hl]; [by apply near_mkdir|]. eapply same_off_mono; [|apply mkdir_all_same_off].
  intros l' Hl'. right. by transitivity l.
Qed.

(** Where the directory of an unpacked file is. *)
Lemma near_dirname n :
  n ≠ ""%string → stays_below n = true →
  suffix dest (resolve cwd (path_join2 destDir n)) ∧
  near (resolve cwd (path_dirname (path_join2 destDir n))).
Proof.
  intros Hn Hb. assert (suffix dest (resolve cwd (path_join2 destDir n))) as Hs.
  { rewrite resolve_below by done. by eexists. }
  split; [done|]. destruct (resolve_dirname cwd destDir n Hdest Hn) as [<-|[[c Hc]|Ht]].
  - by left.
  - eapply near_suffix; [exact Hs|]. rewrite Hc. by apply suffix_cons_r.
  - rewrite Ht in Hs. destruct (resolve cwd (path_dirname _)) as [|x l]; [by left|].
    cbn in Hs. left. by apply suffix_cons_r.
Qed.

Lemma near_write l now' d fs : near l → same_off near fs (write_data now' l d fs).
Proof. intros Hl. by apply alter_same_off. Qed.

Lemma near_open l fs fs' : near l → open_trunc W now l fs = Some fs' → same_off near fs fs'.
Proof.
  intros Hl [H _]%open_trunc_same_off. eapply same_off_mono; [|exact H]. by intros x <-.
Qed.

Lemma extractZipFile_near f l fs : near l → same_off near fs (extractZipFile W now f l fs).2.
Proof.
  intros Hl. unfold extractZipFile. destruct (z_opens f); [cbn [negb]|done].
  destruct (open_trunc W now l fs) as [fs1|] eqn:E; [|done]. apply near_open in E; [|done].
  assert (same_off near fs (write_data now l (z_data f) fs1)) as H1 by (etransitivity; [exact E|by apply near_write]).
  destruct (z_copies f); [|done]. cbn [negb snd]. case_if; [done|].
  etransitivity; [exact H1|]. by apply alter_same_off.
Qed.

Lemma zip_step_near skip prefix f fs :
  stays (zip_name prefix f) → same_off near fs (zip_step W cwd now destDir skip prefix f fs).2.
Proof.
  unfold zip_step. destruct (zip_name prefix f) as [n|]; [|done]. cbn [stays]. intros [Hn Hb].
  destruct (near_dirname n Hn Hb) as [Hl Hd]. case_if; [by apply near_mkdir|].
  destruct (kept_file skip n _ fs); [done|]. pose proof (near_mkdir' _ fs Hd) as Hm.
  destruct (mkdir_all W _ fs) as [[] fs1]; [|done]. cbn [negb snd] in *.
  pose proof (extractZipFile_near f (resolve cwd (path_join2 destDir n)) fs1 (or_introl Hl)) as Hx.
  destruct (extractZipFile W now f _ fs1) as [[e|] fs2]; cbn [snd] in *; etransitivity; eassumption.
Qed.

Lemma tar_step_near prefix h fs :
  stays (strip_name prefix (t_Name h)) → same_off near fs (tar_step W cwd now destDir prefix h fs).2.
Proof.
  unfold tar_step. destruct (strip_name prefix (t_Name h)) as [n|]; [|done]. cbn [stays]. intros [Hn Hb].
  destruct (near_dirname n Hn Hb) as [Hl Hd].
  destruct (t_Typeflag h); [by apply near_mkdir| |done]. pose proof (near_mkdir' _ fs Hd) as Hm.
  destruct (mkdir_all W _ fs) as [[] fs1]; [|done]. cbn [negb snd] in *.
  destruct (open_trunc W now _ fs1) as [fs2|] eqn:E; [|done]. apply near_open in E; [|by left].
  cbn [snd]. etransitivity; [exact Hm|]. etransitivity; [exact E|].
  case_if; [apply near_write; by left|]. etransitivity; [apply near_write; by left|].
  apply alter_same_off. by left.
Qed.

Lemma extract_loop_near {A} (step : A → hostfs → step_res * hostfs) l acc fs :
  Forall (λ a, ∀ fs, same_off near fs (step a fs).2) l →
  same_off near fs (extract_loop step l acc fs).2.
Proof.
  intros Hl. revert acc fs. induction Hl as [|a l Ha Hl IH]; intros acc fs; [done|]. cbn [extract_loop].
  specialize (Ha fs). destruct (step a fs) as [[] fs1]; [| |done];
    cbn [snd] in *; (etransitivity; [exact Ha|apply IH]).
Qed.


End containment.

(** ** The slip *)

Lemma has_suffix_slash a n :
  n ≠ ""%string → contains_byte slash n = false → has_suffix (a ++s n) "/" = false.
Proof.
  intros Hn Hs. destruct (string_snoc n Hn) as (b & c & ->). rewrite <-sapp_assoc.
  rewrite contains_byte_app in Hs. apply orb_false_iff in Hs as [_ Hs]. cbn in Hs. rewrite orb_false_r in Hs.
  unfold has_suffix. rewrite slength_app. change (String.length (str1 c)) with 1.
  change (String.length "/") with 1. replace (String.length (a ++s b) + 1 - 1) with (String.length (a ++s b)) by lia.
  rewrite drop_str_app. apply andb_false_iff. right.
  destruct (String.eqb_spec (str1 c) "/") as [[= ->]|]; done.
Qed.

(** An archive of two regular files, the second named above the destination. *)
Definition slip (n data : string) : list zip_file :=
  [mkZF "a" false 0 0 true "" true; mkZF ("../" ++s n) false 0 0 true data true].

Lemma push_up rooted l n :
  comp_ok n → n ≠ dotdot → push_path rooted l ("../" ++s n) = n :: push_comp rooted l dotdot.
Proof.
  intros Hn Hd. pose proof Hn as (H1 & H2 & H3). unfold push_path.
  change ("../" ++s n)%string with (dotdot ++s "/" ++s n). rewrite split_byte_join, fold_left_app.
  rewrite (split_byte_plain slash n) by done. cbn [fold_left].
  change (split_byte slash dotdot) with [dotdot]. cbn [fold_left]. by rewrite push_comp_ordinary.
Qed.

(** [../n] from a directory: the file [n] beside it. *)
Lemma resolve_up cwd d n c parent :
  d ≠ ""%string → resolve cwd d = c :: parent → c ≠ dotdot → comp_ok n → n ≠ dotdot →
  resolve cwd (path_join2 d ("../" ++s n)) = n :: parent ∧
  resolve cwd (path_dirname (path_join2 d ("../" ++s n))) = parent.
Proof.
  intros Hd Hr Hc Hn Hnd. pose proof Hn as (H1 & H2 & H3).
  assert (resolve cwd (path_join2 d ("../" ++s n)) = n :: parent) as Hl.
  { rewrite resolve_join, Hr, push_up by done. f_equal.
    change (push_comp true (c :: parent) dotdot) with (if c =s? dotdot then dotdot :: c :: parent else parent).
    by rewrite (proj2 (String.eqb_neq _ _)). }
  split; [done|]. rewrite path_join2_spec in * by done.
  pose proof (push_path_ok (is_abs d) (stack_of d) ("../" ++s n) (stack_of_ok d)) as Hok.
  rewrite push_up in * by done. rewrite resolve_dirname_print in Hl by (exact Hok || exact (stack_ok_tail _ _ _ Hok)).
  rewrite push_comp_ordinary in Hl by done. by injection Hl.
Qed.

Section slip.
Context {S256 : Sha256} (W : loc → bool) (cwd : loc) (now : Z) (destDir : string).

(** The names of an archive are not checked: whatever the strip mode, an
    archive with an entry [../n] overwrites the file [n] beside the
    destination, and the extraction reports success. *)
Theorem zip_slip strip n data fs c parent :
  destDir ≠ ""%string → resolve cwd destDir = c :: parent → c ≠ dotdot →
  comp_ok n → n ≠ dotdot → n ≠ c → replace_all ("../" ++s n) "\" "/" = ("../" ++s n)%string →
  clear W fs ("a" :: c :: parent)%string = true → clear W fs (n :: parent) = true →
  let '(r, fs') := ExtractZipWithOptions W cwd now destDir (Some (slip n data)) None strip fs in
  is_ok r = true ∧ fs' !! (n :: parent) = Some (NFile data now).
Proof.
  intros Hdest Hd Hc Hn Hnd Hnc Hrep Hca Hcn. pose proof Hn as (Hn1 & Hn2 & Hn3).
  cbn [ExtractZipWithOptions].
  replace (zip_prefix strip (slip n data)) with ""%string by by destruct strip.
  set (f0 := mkZF "a" false 0 0 true "" true). set (f1 := mkZF ("../" ++s n) false 0 0 true data true).
  assert (∃ t e, zip_action cwd now destDir "" f0 = Some (AFile ("a" :: c :: parent)%string "" t e)) as (t & e & Ha).
  { unfold zip_action, f0, file_action, below. cbn. rewrite Hd. by do 2 eexists. }
  apply (zip_step_does W) in Ha; [|done].
  change (slip n data) with [f0; f1]. cbn [extract_loop].
  assert (clear W (zip_step W cwd now destDir None "" f0 fs).2 (n :: parent) = true) as Hcn'.
  { eapply does_clear; [exact Ha| |..|exact Hcn].
    - cbn [no_clash]. apply orb_true_iff. left. apply negb_true_iff, bool_decide_eq_false.
      intros [Hx|Hx]%suffix_cons_cases; [|apply suffix_cons_cases in Hx as [Hx|Hx]].
      + apply (f_equal length) in Hx. cbn in Hx. lia.
      + by injection Hx.
      + apply suffix_length in Hx. cbn in Hx. lia.
    - intros l' d' t' e' [= <- <- <- <-]. split_and!.
      + intros Hx. apply (f_equal length) in Hx. cbn in Hx. lia.
      + done.
      + intros Hx%suffix_length. cbn in Hx. lia. }
  destruct (Ha fs Hca) as (fs1 & Hst & _). rewrite Hst in *. cbn [snd] in Hcn'.
  assert (zip_name "" f1 = Some ("../" ++s n)%string) as Hz1 by (unfold zip_name, f1; cbn [z_Name]; by rewrite Hrep).
  destruct (resolve_up cwd destDir n c parent) as [Hl Hdir]; [done..|].
  destruct (create_file W now fs1 n parent data 0 Hcn') as (fs2 & fs3 & Hm & Ho & Hx & _).
  unfold zip_step. rewrite Hz1. unfold z_IsDir, f1. cbn [z_dirattr z_Name orb].
  rewrite !has_suffix_slash by done. cbn [orb kept_file]. rewrite Hl, Hdir, Hm. cbn [negb].
  unfold extractZipFile. cbn [z_opens z_data z_copies z_Modified negb]. rewrite Ho. by split.
Qed.
End slip.

(** Only a raw slash makes a wrapper: a zip written with backslashes keeps its
    top-level directory in every strip mode. *)
Lemma backslash_wrapper_kept strip files :
  Forall (λ f, contains_byte slash (z_Name f) = false) files → zip_prefix strip files = ""%string.
Proof.
  intros Hf. unfold zip_prefix. destruct files as [|f files]; [by destruct strip|].
  apply Forall_cons in Hf as [Hf _]. apply index_byte_None in Hf. cbn [map].
  unfold detectZipPrefix, detectZipPrefixRaw. change "/"%char with slash. rewrite Hf. by destruct strip.
Qed.

(** ** Witnesses *)

Definition plain_hash : Sha256 := {| sha256 := λ s, s |}.
#[local] Existing Instance plain_hash.

Definition opt_disk : hostfs := {[ ["opt"%string] := NDir; ["cfg"; "opt"]%string := NFile "keep" 7 ]}.
Definition any_loc (_ : loc) : bool := true.

Definition rel_zip : list zip_file :=
  [mkZF "rel-1/" true 0 0 true "" true;
   mkZF "rel-1/bin/server" false 3 5000000001 true "elf" true;
   mkZF "rel-1\README" false 2 0 true "hi" true;
   mkZF "rel-1/lib/" true 0 0 true "" true].
Definition rel_tar : list tar_hdr :=
  [mkTH "rel-1/" TypeDir 0 0 ""; mkTH "rel-1/bin/server" TypeReg 3 5000000001 "elf";
   mkTH "rel-1/link" TypeOther 0 0 ""].

Definition rel_acts : list action :=
  [ADir ["rel-1"; "llama"; "opt"]%string;
   AFile ["server"; "bin"; "rel-1"; "llama"; "opt"]%string "elf" 5000000001
     (mkEF "rel-1/bin/server" 3 "656c66" 5000000000);
   AFile ["README"; "rel-1"; "llama"; "opt"]%string "hi" 9000000009 (mkEF "rel-1/README" 2 "6869" 9000000000);
   ADir ["lib"; "rel-1"; "llama"; "opt"]%string].

Example unzip_exact_witness :
  mapM (zip_action [] 9000000009 "/opt/llama" (zip_prefix StripAuto rel_zip)) rel_zip = Some rel_acts ∧
  laid_out rel_acts opt_disk
    (ExtractZipWithOptions any_loc [] 9000000009 "/opt/llama" (Some rel_zip) None StripAuto opt_disk).
Proof.
  split; [by vm_compute|].
  apply (unzip_exact any_loc [] 9000000009 "/opt/llama" ltac:(done)); by vm_compute.
Defined.

Example untar_exact_witness :
  laid_out
    [ASkip; AFile ["server"; "bin"; "llama"; "opt"]%string "elf" 5000000001 (mkEF "bin/server" 3 "656c66" 5000000000);
     ASkip] opt_disk
    (ExtractTarGz any_loc [] 9 "/opt/llama" (Some (mkTS rel_tar true)) opt_disk).
Proof. apply (untar_exact any_loc [] 9 "/opt/llama" ltac:(done)); by vm_compute. Defined.


Example zip_slip_witness :
  (ExtractZip any_loc [] 9 "/opt/llama" (Some (slip "cfg" "owned")) opt_disk).2 !! ["cfg"; "opt"]%string
  = Some (NFile "owned" 9).
Proof.
  pose proof (zip_slip any_loc [] 9 "/opt/llama" StripAuto "cfg" "owned" opt_disk "llama" ["opt"%string]) as H.
  unfold ExtractZip. destruct (ExtractZipWithOptions _ _ _ _ _ _ _ _) as [r fs']. apply H; by vm_compute.
Defined.
