(* ===== verification/Engines.v ===== *)
(** * pkg/setup: installing an engine release

    Which release asset is chosen for a machine (project_sd.go,
    project_llama.go) and [Ensure], which downloads and unpacks it. *)

From S2P Require Import Prelude GoStrings GoStringsFacts GoPath HostFS Auth Tunnel Archive ArchiveProofs.
From Stdlib Require Import ZArith Lia ZifyBool Bool Ascii String.
From stdpp Require Import base option list gmap strings.

Open Scope go_scope.

(** pkg/setup/detect.go:21-28 [SystemInfo] *)
Record SystemInfo := mkSys {
  sys_OS : string; sys_Arch : string; HasCUDA : bool; HasAVX : bool; HasAVX2 : bool; HasAVX512 : bool
}.

(** pkg/setup/github.go:17-21 [Asset] *)
Record Asset := mkAssetG { ga_Name : string; ga_URL : string; ga_Size : Z }.

(** pkg/setup/github.go:11-14 [Release] *)
Record Release := mkRelease { rel_TagName : string; rel_Assets : list Asset }.

(** pkg/setup/github.go:59-65 [Release.AssetNames] *)
Definition AssetNames (r : Release) : list string := map ga_Name (rel_Assets r).

(** pkg/setup/github.go:68-75 [Release.FindAsset] *)
Definition FindAsset (r : Release) (name : string) : option Asset :=
  find (λ a, ga_Name a =s? name) (rel_Assets r).

(** What a GET answers: no response at all, or a status and a body. *)
Abbreviation http_answer := (option (Z * string)).

Inductive release_err := EBadRequest | EFetch | ERateLimited | EStatus (code : Z) | EDecodeRelease.

(** pkg/setup/github.go:25-56 [LatestRelease]: [get] is the client, given the
    URL and the headers; [decode] is [json.Decode] into [Release]. *)
Definition LatestRelease (owner repo token : string) (url_ok : string → bool)
  (get : string → list (string * string) → http_answer) (decode : string → option Release)
  : result release_err Release :=
  let url := "https://api.github.com/repos/" ++s owner ++s "/" ++s repo ++s "/releases/latest" in
  if negb (url_ok url) then Err EBadRequest
  else
    let headers := ("Accept", "application/vnd.github.v3+json")%string ::
                   (if negb (token =s? "") then [("Authorization", "Bearer " ++s token)%string] else []) in
    match get url headers with
    | None => Err EFetch
    | Some (code, body) =>
        if (code =? 403)%Z then Err ERateLimited
        else if negb (code =? 200)%Z then Err (EStatus code)
        else match decode body with None => Err EDecodeRelease | Some r => Ok r end
    end.

Section select.
Context {U : GoUnicode}.

Inductive select_err := NoVariant | NoPlatform.

(** ** stable-diffusion.cpp *)

(** pkg/setup/project_sd.go:78-104 [matchesPlatform] *)
Definition matchesPlatform (sys : SystemInfo) (asset : string) : bool :=
  let a := to_lower asset in
  let os_ok :=
    if sys_OS sys =s? "windows" then contains_str a "win"
    else if sys_OS sys =s? "linux" then contains_str a "linux"
    else if sys_OS sys =s? "darwin" then contains_str a "darwin"
    else false in
  if negb os_ok then false
  else if sys_Arch sys =s? "amd64" then contains_str a "x64" || contains_str a "x86_64"
  else if sys_Arch sys =s? "arm64" then contains_str a "arm64"
  else false.

(** pkg/setup/project_sd.go:118-120 [matchesVariant part] *)
Definition is_alnum (c : ascii) : bool := is_lower_ascii c || is_digit c.

(** pkg/setup/project_sd.go:108-133 [matchesVariant] *)
Definition matchesVariant (asset variant : string) : bool :=
  let a := to_lower asset in
  match index_str a variant with
  | None => false
  | Some idx =>
      let before := match idx with
                    | 0 => false
                    | S i => match String.get i a with Some c => is_alnum c | None => false end
                    end in
      let after := match String.get (idx + String.length variant) a with
                   | Some c => is_alnum c
                   | None => false
                   end in
      negb before && negb after
  end.

(** pkg/setup/project_sd.go:51-60 [selectSDAsset part] *)
Definition sd_variants (sys : SystemInfo) : list (string * bool) :=
  [("cuda12", HasCUDA sys); ("avx512", HasAVX512 sys); ("avx2", HasAVX2 sys);
   ("avx", HasAVX sys); ("noavx", true)]%string.

(** pkg/setup/project_sd.go:61-71 [selectSDAsset part]: the first enabled
    variant some candidate matches. *)
Fixpoint pick_variant (vs : list (string * bool)) (candidates : list string) : option string :=
  match vs with
  | [] => None
  | (kw, ok) :: vs =>
      if negb ok then pick_variant vs candidates
      else match find (λ a, matchesVariant a kw) candidates with
           | Some a => Some a
           | None => pick_variant vs candidates
           end
  end.

(** pkg/setup/project_sd.go:27-76 [selectSDAsset]; [variant] is [SD_VARIANT]. *)
Definition selectSDAsset (variant : string) (assets : list string) (sys : SystemInfo)
  : result select_err string :=
  if negb (variant =s? "") then
    match find (λ a, contains_str a variant && matchesPlatform sys a) assets with
    | Some a => Ok a
    | None => Err NoVariant
    end
  else
    match filter (λ a, matchesPlatform sys a = true) assets with
    | [] => Err NoPlatform
    | (first :: _) as candidates =>
        if (sys_OS sys =s? "windows") && (sys_Arch sys =s? "amd64") then
          match pick_variant (sd_variants sys) candidates with Some a => Ok a | None => Ok first end
        else Ok first
    end.

(** ** llama.cpp *)

(** pkg/setup/project_llama.go:70-102 [matchesLlamaPlatform] *)
Definition matchesLlamaPlatform (sys : SystemInfo) (asset : string) : bool :=
  let a := to_lower asset in
  if contains_str a "src" || contains_str a "source" then false
  else
    let os_ok :=
      if sys_OS sys =s? "windows" then contains_str a "win"
      else if sys_OS sys =s? "linux" then contains_str a "ubuntu" || contains_str a "linux"
      else if sys_OS sys =s? "darwin" then contains_str a "macos" || contains_str a "darwin"
      else false in
    if negb os_ok then false
    else if sys_Arch sys =s? "amd64" then
      contains_str a "x64" || contains_str a "x86_64" || negb (contains_str a "arm64")
    else if sys_Arch sys =s? "arm64" then contains_str a "arm64"
    else false.

(** pkg/setup/project_llama.go:27-68 [selectLlamaAsset]; [variant] is [LLAMA_VARIANT]. *)
Definition selectLlamaAsset (variant : string) (assets : list string) (sys : SystemInfo)
  : result select_err string :=
  if negb (variant =s? "") then
    match find (λ a, contains_str a variant && matchesLlamaPlatform sys a) assets with
    | Some a => Ok a
    | None => Err NoVariant
    end
  else
    match filter (λ a, matchesLlamaPlatform sys a = true) assets with
    | [] => Err NoPlatform
    | (first :: _) as candidates =>
        if sys_OS sys =s? "windows" then
          let cuda := if HasCUDA sys then find (λ a, contains_str (to_lower a) "cuda") candidates else None in
          match cuda with
          | Some a => Ok a
          | None =>
              match find (λ a, contains_str (to_lower a) "cpu") candidates with
              | Some a => Ok a
              | None => Ok first
              end
          end
        else Ok first
    end.
End select.

(** ** Installation *)

(** pkg/setup/setup.go:18-25 [Project] *)
Record Project := mkProject {
  p_Name : string; p_Owner : string; p_Repo : string; p_DestDir : string;
  p_RequiredFiles : list string;
  p_SelectAsset : list string → SystemInfo → result select_err string
}.

(** pkg/setup/project_llama.go:11-25 [NewLlamaProject] *)
Definition NewLlamaProject `{GoUnicode} (goos variant destDir : string) : Project :=
  let required := if goos =s? "windows" then ["llama-server.exe"; "llama-cli.exe"]%string
                  else ["llama-server"; "llama-cli"]%string in
  mkProject "llama.cpp" "ggerganov" "llama.cpp" destDir required (selectLlamaAsset variant).

(** pkg/setup/project_sd.go:11-25 [NewSDProject] *)
Definition NewSDProject `{GoUnicode} (goos variant destDir : string) : Project :=
  let required := if goos =s? "windows" then ["sd-server.exe"; "sd-cli.exe"; "stable-diffusion.dll"]%string
                  else ["sd-server"; "sd-cli"]%string in
  mkProject "stable-diffusion.cpp" "leejet" "stable-diffusion.cpp" destDir required (selectSDAsset variant).

(** An HTTP download: no response, or a status and a body that may break off. *)
Inductive http_res := NoResponse | Response (status : Z) (body : string) (complete : bool).

Inductive ensure_err :=
  | ERelease | ESelect (e : select_err) | EAssetMissing | EMkdirDest | EDownload
  | EExtract (e : extract_err) | EStillMissing (missing : list string).

Section ensure.
Context {S256 : Sha256} (W : loc → bool) (cwd : loc) (now : Z).
(** The entry lists the standard library reads from an archive's bytes. *)
Context (zip_open : string → option (list zip_file)) (tar_open : string → option tar_stream).
(** The machine, GitHub's answer and the download of a URL. *)
Context (sys : SystemInfo) (latest : option Release) (fetch : string → http_res).

(** pkg/setup/setup.go:31-37 [Ensure part]; lines 93-99 collect the same files. *)
Definition absent (p : Project) (fs : hostfs) (f : string) : bool :=
  IsNotExist (stat (resolve cwd (path_join2 (p_DestDir p) f)) fs).

(** pkg/setup/setup.go:109-134 [download]: success and the file system. *)
Definition download (url : string) (l : loc) (fs : hostfs) : bool * hostfs :=
  match fetch url with
  | NoResponse => (false, fs)
  | Response status body complete =>
      if negb (status =? 200)%Z then (false, fs)
      else match open_trunc W now l fs with
           | None => (false, fs)
           | Some fs => (complete, write_data now l body fs)
           end
  end.

(** pkg/setup/setup.go:74-74 [Ensure part] *)
Definition tmp_loc (p : Project) : loc := resolve cwd (path_join2 (p_DestDir p) ".download-tmp").

(** pkg/setup/setup.go:80-90 [Ensure part]: unpack what was downloaded. *)
Definition unpack (p : Project) (name : string) (fs : hostfs)
  : result extract_err (list ExtractedFile) * hostfs :=
  let data := read_file (tmp_loc p) fs in
  if has_suffix name ".tar.gz" || has_suffix name ".tgz"
  then ExtractTarGz W cwd now (p_DestDir p) (data ≫= tar_open) fs
  else ExtractZip W cwd now (p_DestDir p) (data ≫= zip_open) fs.

(** pkg/setup/setup.go:28-106 [Ensure] *)
Definition Ensure (p : Project) (fs : hostfs) : result ensure_err () * hostfs :=
  if negb (existsb (absent p fs) (p_RequiredFiles p)) then (Ok (), fs)
  else
    match latest with
    | None => (Err ERelease, fs)
    | Some release =>
        match p_SelectAsset p (AssetNames release) sys with
        | Err e => (Err (ESelect e), fs)
        | Ok assetName =>
            match FindAsset release assetName with
            | None => (Err EAssetMissing, fs)
            | Some asset =>
                let '(ok, fs) := mkdir_all W (resolve cwd (p_DestDir p)) fs in
                if negb ok then (Err EMkdirDest, fs)
                else
                  let '(ok, fs) := download (ga_URL asset) (tmp_loc p) fs in
                  if negb ok then (Err EDownload, os_remove (tmp_loc p) fs)
                  else
                    let '(r, fs) := unpack p (ga_Name asset) fs in
                    let fs := os_remove (tmp_loc p) fs in
                    match r with
                    | Err e => (Err (EExtract e), fs)
                    | Ok _ =>
                        let missing := filter (λ f, absent p fs f = true) (p_RequiredFiles p) in
                        match missing with
                        | [] => (Ok (), fs)
                        | _ => (Err (EStillMissing missing), fs)
                        end
                    end
            end
        end
    end.
End ensure.

(** ** Asset selection *)

Section select_facts.
Context {U : GoUnicode}.

Lemma pick_variant_Some vs cands a :
  pick_variant vs cands = Some a → a ∈ cands ∧ ∃ kw, (kw, true) ∈ vs ∧ matchesVariant a kw = true.
Proof.
  induction vs as [|[kw ok] vs IH]; [done|]. cbn [pick_variant]. destruct ok; cbn [negb].
  - destruct (find _ cands) as [b|] eqn:E.
    + intros [= <-]. apply find_some in E as [Hb Hm]. split; [by apply list_elem_of_In|].
      exists kw. split; [left|done].
    + intros (Ha & kw' & Hin & Hm)%IH. split; [done|]. exists kw'. split; [by right|done].
  - intros (Ha & kw' & Hin & Hm)%IH. split; [done|]. exists kw'. split; [by right|done].
Qed.

Lemma pick_variant_best pre kw post cands b :
  b ∈ cands → matchesVariant b kw = true →
  ∃ a kw', pick_variant (pre ++ (kw, true) :: post) cands = Some a ∧ a ∈ cands ∧
    (kw', true) ∈ pre ++ [(kw, true)] ∧ matchesVariant a kw' = true.
Proof.
  intros Hb Hm. induction pre as [|[k ok] pre IH]; cbn [app pick_variant].
  - cbn [negb]. destruct (find _ cands) as [a|] eqn:E.
    + apply find_some in E as [Ha Hma]. exists a, kw. split_and!; [done|by apply list_elem_of_In|left|done].
    + apply list_elem_of_In in Hb. apply (find_none _ _ E) in Hb. by rewrite Hm in Hb.
  - destruct IH as (a & kw' & IH & Ha & Hk & Hma).
    destruct ok; cbn [negb]; [destruct (find _ cands) as [a'|] eqn:E|].
    + apply find_some in E as [Ha' Hma']. exists a', k. split_and!; [done|by apply list_elem_of_In|left|done].
    + exists a, kw'. split_and!; [done|done|by right|done].
    + exists a, kw'. split_and!; [done|done|by right|done].
Qed.

(** Without an override the stable-diffusion asset is one of the release's
    assets for the platform, there is one exactly when some asset matches, and
    on 64-bit Windows it has a variant the CPU or GPU supports that is at least
    as good as every supported variant on offer. *)
Theorem sd_asset_best assets sys :
  (selectSDAsset "" assets sys = Err NoPlatform ↔ Forall (λ a, matchesPlatform sys a = false) assets) ∧
  ∀ a, selectSDAsset "" assets sys = Ok a →
    a ∈ assets ∧ matchesPlatform sys a = true ∧
    (sys_OS sys = "windows"%string → sys_Arch sys = "amd64"%string →
     ∀ pre kw post b, sd_variants sys = pre ++ (kw, true) :: post →
       b ∈ assets → matchesPlatform sys b = true → matchesVariant b kw = true →
       ∃ kw', (kw', true) ∈ pre ++ [(kw, true)] ∧ matchesVariant a kw' = true).
Proof.
  unfold selectSDAsset. change (negb ("" =s? "")) with false. cbn iota.
  assert (∀ b, b ∈ filter (λ a, matchesPlatform sys a = true) assets ↔
               matchesPlatform sys b = true ∧ b ∈ assets) as Hin by (intros b; by rewrite list_elem_of_filter).
  destruct (filter (λ a, matchesPlatform sys a = true) assets) as [|x l] eqn:E.
  { split; [split; [intros _|done]|done]. apply Forall_forall. intros b Hb.
    destruct (matchesPlatform sys b) eqn:Hm; [|done]. exfalso.
    assert (b ∈ []) as []%elem_of_nil by by apply Hin. }
  assert (matchesPlatform sys x = true ∧ x ∈ assets) as [Hx Hxa] by (apply Hin; left).
  split.
  - split; [by repeat case_match|]. rewrite Forall_forall. intros H. by rewrite H in Hx.
  - intros a. destruct ((sys_OS sys =s? "windows") && (sys_Arch sys =s? "amd64")) eqn:Eos.
    2: { intros [= <-]. split_and!; [done|done|]. intros H1 H2. by rewrite H1, H2 in Eos. }
    destruct (pick_variant (sd_variants sys) (x :: l)) as [a'|] eqn:Ep.
    + intros [= <-]. apply pick_variant_Some in Ep as Hp. destruct Hp as [[Hpl Has]%Hin _]. split_and!; [done|done|].
      intros _ _ pre kw post b Hvs Hb Hbm Hv.
      destruct (pick_variant_best pre kw post (x :: l) b) as (c & kw' & Hc & _ & Hk & Hm); [by apply Hin|done|].
      rewrite <-Hvs, Ep in Hc. injection Hc as <-. by exists kw'.
    + intros [= <-]. split_and!; [done|done|]. intros _ _ pre kw post b Hvs Hb Hbm Hv.
      destruct (pick_variant_best pre kw post (x :: l) b) as (c & kw' & Hc & _); [by apply Hin|done|].
      by rewrite <-Hvs, Ep in Hc.
Qed.

(** "win" is found in "darwin" and every name without "arm64" counts as
    amd64: Windows on ARM is given the macOS build of stable-diffusion.cpp, and
    a Linux PC the s390x build of llama.cpp. *)
Theorem foreign_platform_selected :
  selectSDAsset "" ["sd-master-bin-Darwin-macOS-arm64.zip"; "sd-master-bin-win-avx2-x64.zip"]%string
    (mkSys "windows" "arm64" false false false false) = Ok "sd-master-bin-Darwin-macOS-arm64.zip"%string ∧
  selectLlamaAsset "" ["llama-b1-bin-ubuntu-s390x.tar.gz"; "llama-b1-bin-ubuntu-x64.tar.gz"]%string
    (mkSys "linux" "amd64" false true true false) = Ok "llama-b1-bin-ubuntu-s390x.tar.gz"%string.
Proof. by split. Qed.

(** Only the first occurrence of the keyword is examined. *)
Lemma variant_first_occurrence : matchesVariant "sd-noavx-avx-x64.zip" "avx" = false.
Proof. done. Qed.
End select_facts.

(** ** Installation *)

Section ensure_facts.
Context {S256 : Sha256} (W : loc → bool) (cwd : loc) (now : Z).
Context (zip_open : string → option (list zip_file)) (tar_open : string → option tar_stream).
Context (sys : SystemInfo) (latest : option Release) (fetch : string → http_res).

Abbreviation ensure := (Ensure W cwd now zip_open tar_open sys latest fetch).

Lemma existsb_filter {A} (f : A → bool) l : existsb f l = false ↔ filter (λ x, f x = true) l = [].
Proof.
  induction l as [|x l IH]; [done|]. cbn [existsb]. destruct (f x) eqn:E; cbn [orb].
  - by rewrite filter_cons_True.
  - rewrite filter_cons_False by by rewrite E. done.
Qed.

(** When [Ensure] reports success no required file is missing, and running
    it again changes nothing and succeeds, whatever the network does. *)
Theorem ensure_idempotent p fs fs' latest' fetch' :
  ensure p fs = (Ok (), fs') →
  Forall (λ f, absent cwd p fs' f = false) (p_RequiredFiles p) ∧
  Ensure W cwd now zip_open tar_open sys latest' fetch' p fs' = (Ok (), fs').
Proof.
  intros H. assert (existsb (absent cwd p fs') (p_RequiredFiles p) = false) as Hx.
  { revert H. unfold Ensure. destruct (existsb (absent cwd p fs) _) eqn:E0; cbn [negb]; [|by intros [= <-]].
    destruct latest as [rel|]; [|done]. destruct (p_SelectAsset p _ sys) as [n|]; [|done].
    destruct (FindAsset rel n) as [a|]; [|done]. destruct (mkdir_all W _ fs) as [[] fs1]; [|done].
    cbn [negb]. destruct (download _ _ _ _ _ fs1) as [[] fs2]; [|done]. cbn [negb].
    destruct (unpack _ _ _ _ _ p _ fs2) as [[r|] fs3]; [|done].
    destruct (filter _ _) eqn:Ef; [|done]. intros [= <-]. by apply existsb_filter. }
  split.
  - apply Forall_forall. intros f Hf. apply not_true_is_false. intros Hab.
    apply not_true_iff_false in Hx. apply Hx, existsb_exists. exists f. by rewrite <-list_elem_of_In.
  - unfold Ensure. by rewrite Hx.
Qed.

Lemma remove_no_file l l' fs d t : os_remove l fs !! l' = Some (NFile d t) → fs !! l' = Some (NFile d t) ∧ l' ≠ l.
Proof.
  unfold os_remove. destruct (fs !! l) as [[|d0 t0]|] eqn:E; [case_if|..];
    (destruct (decide (l' = l)) as [->|Hne]; [try rewrite E; try rewrite lookup_delete_eq; done|]);
    try rewrite lookup_delete_ne by done; done.
Qed.

(** Whatever fails, [Ensure] leaves no downloaded archive behind. *)
Theorem ensure_no_leftover p fs :
  (∀ d t, fs !! tmp_loc cwd p ≠ Some (NFile d t)) →
  ∀ d t, (ensure p fs).2 !! tmp_loc cwd p ≠ Some (NFile d t).
Proof.
  intros H d t. unfold Ensure. destruct (negb _); [done|]. destruct latest as [rel|]; [|done].
  destruct (p_SelectAsset p _ sys) as [n|]; [|done]. destruct (FindAsset rel n) as [a|]; [|done].
  pose proof (mkdir_all_files W (resolve cwd (p_DestDir p)) fs (tmp_loc cwd p)) as Hm.
  destruct (mkdir_all W _ fs) as [[] fs1]; cbn [negb snd] in *; [|by rewrite Hm].
  destruct (download _ _ _ _ _ fs1) as [[] fs2]; cbn [negb snd]; [|by intros [_ ?]%remove_no_file].
  destruct (unpack _ _ _ _ _ p _ fs2) as [[r|] fs3]; [destruct (filter _ _)|]; cbn [snd];
    by intros [_ ?]%remove_no_file.
Qed.

(** [Stat] of a name inside a regular file is not a "does not exist"
    error: when the destination is a file, [Ensure] reports the engine present
    without looking further, and nothing is installed. *)
Theorem ensure_accepts_file p fs d t :
  p_DestDir p ≠ ""%string → resolve cwd (p_DestDir p) ≠ [] →
  fs !! resolve cwd (p_DestDir p) = Some (NFile d t) →
  Forall (λ f, comp_ok f ∧ f ≠ dotdot ∧ fs !! (f :: resolve cwd (p_DestDir p)) = None) (p_RequiredFiles p) →
  ensure p fs = (Ok (), fs).
Proof.
  intros Hd Hne Hf Hr. unfold Ensure.
  assert (existsb (absent cwd p fs) (p_RequiredFiles p) = false) as ->; [|done].
  apply not_true_is_false. intros (f & Hin%list_elem_of_In & Ha)%existsb_exists.
  rewrite Forall_forall in Hr. apply Hr in Hin as (Hc & Hdd & Hn). pose proof Hc as (H1 & H2 & H3).
  revert Ha. unfold absent. rewrite resolve_join by done. unfold push_path.
  rewrite split_byte_plain by done. cbn [fold_left]. rewrite push_comp_ordinary by done.
  cbn [stat]. rewrite Hn. destruct (resolve cwd (p_DestDir p)); [done|]. cbn [missing_below]. by rewrite Hf.
Qed.

(** The plan of a release archive: none when it cannot be unpacked cleanly. *)
Definition release_plan (p : Project) (name data : string) : option (list action) :=
  if has_suffix name ".tar.gz" || has_suffix name ".tgz" then
    tar_open data ≫= λ ar,
      if ts_eof ar
      then mapM (tar_action cwd now (p_DestDir p) (detectTarPrefix (map t_Name (ts_entries ar)))) (ts_entries ar)
      else None
  else
    zip_open data ≫= λ files, mapM (zip_action cwd now (p_DestDir p) (zip_prefix StripAuto files)) files.

Lemma unpack_laid_out p name data fs acts :
  p_DestDir p ≠ ""%string → read_file (tmp_loc cwd p) fs = Some data →
  release_plan p name data = Some acts → plan_ok W fs acts = true →
  laid_out acts fs (unpack W cwd now zip_open tar_open p name fs).
Proof.
  intros Hd Hr. unfold release_plan, unpack. rewrite Hr. cbn [mbind option_bind]. case_if.
  - destruct (tar_open data) as [ar|]; [|done]. cbn [mbind option_bind].
    unfold ExtractTarGz. destruct (ts_eof ar); [|done]. cbn [negb]. intros Hm Hok.
    eapply loop_laid_out; [by apply tar_step_does|apply tar_action_hash, Hd|done..].
  - destruct (zip_open data) as [files|]; [|done]. cbn [mbind option_bind]. intros Hm Hok.
    eapply loop_laid_out; [by apply zip_step_does|apply zip_action_hash, Hd|done..].
Qed.

Lemma tmp_loc_eq p : p_DestDir p ≠ ""%string → tmp_loc cwd p = ".download-tmp"%string :: resolve cwd (p_DestDir p).
Proof.
  intros Hd. unfold tmp_loc. rewrite resolve_join by done.
  change (push_path true (resolve cwd (p_DestDir p)) ".download-tmp")
    with (push_comp true (resolve cwd (p_DestDir p)) ".download-tmp"). by rewrite push_comp_ordinary.
Qed.

(** Fetching the archive, as a step of the plan. *)
Definition fetch_step (p : Project) (url : string) (e : ExtractedFile) (fs : hostfs) : step_res * hostfs :=
  match mkdir_all W (resolve cwd (p_DestDir p)) fs with
  | (true, fs) => match download W now fetch url (tmp_loc cwd p) fs with
                  | (true, fs) => (Extracted e, fs)
                  | (false, fs) => (Failed ECreate, fs)
                  end
  | (false, fs) => (Failed EMkdir, fs)
  end.

Lemma fetch_step_does p url body e :
  p_DestDir p ≠ ""%string → fetch url = Response 200 body true →
  does W (fetch_step p url e) (AFile (tmp_loc cwd p) body now e).
Proof.
  intros Hd Hf fs Hc. unfold fetch_step, download. rewrite Hf. rewrite tmp_loc_eq in * by done.
  destruct (create_file W now fs _ _ body 0 Hc) as (fs1 & fs2 & Hm & Ho & Hx & Hs & Hoff).
  rewrite Hm. change (negb (200 =? 200)%Z) with false. cbn iota. rewrite Ho. by eexists.
Qed.

Definition the_archive (p : Project) (body : string) : action :=
  AFile (tmp_loc cwd p) body now (mkEF "" 0 "" 0).

(** C22: When the release is found, the download completes and its archive fits
    the disk and provides the required files, [Ensure] succeeds: every file of
    the archive is installed with its content, the archive itself is gone and
    no other file changed. *)
Theorem ensure_installs p fs rel n asset body acts :
  p_DestDir p ≠ ""%string →
  existsb (absent cwd p fs) (p_RequiredFiles p) = true →
  latest = Some rel → p_SelectAsset p (AssetNames rel) sys = Ok n → FindAsset rel n = Some asset →
  fetch (ga_URL asset) = Response 200 body true →
  release_plan p (ga_Name asset) body = Some acts →
  plan_ok W fs (the_archive p body :: acts) = true →
  Forall (λ f, resolve cwd (path_join2 (p_DestDir p) f) ∈ targets acts) (p_RequiredFiles p) →
  ∃ fs', ensure p fs = (Ok (), fs') ∧ fs' !! tmp_loc cwd p = None ∧
    (∀ l d t e, AFile l d t e ∈ acts → fs' !! l = Some (NFile d t)) ∧
    (∀ l d t, l ∉ targets acts → l ≠ tmp_loc cwd p → (fs' !! l = Some (NFile d t) ↔ fs !! l = Some (NFile d t))).
Proof.
  intros Hd Hab -> Hsel Hfind Hf Hplan Hok Hreq. unfold Ensure.
  rewrite Hab, Hsel, Hfind. cbn [negb]. set (e := mkEF "" 0 "" 0).
  pose proof (fetch_step_does p (ga_URL asset) body e Hd Hf) as Hdoes.
  pose proof (plan_ok_step W _ _ _ _ Hdoes Hok) as Hok'.
  apply plan_ok_spec in Hok as [Hnd Hall]. destruct (Hall (tmp_loc cwd p)) as [Hct _]; [left|].
  cbn in Hnd. inversion Hnd as [|?? Hnotin _]; subst.
  destruct (Hdoes fs Hct) as (fs2 & Hst & Htmp & Hsame & _). rewrite Hst in Hok'. cbn [snd] in Hok'.
  unfold fetch_step in Hst. destruct (mkdir_all W _ fs) as [[] fs1]; [|done]. cbn [negb].
  destruct (download _ _ _ _ _ fs1) as [[] fs2']; [|done]. injection Hst as ->. cbn [negb].
  assert (read_file (tmp_loc cwd p) fs2 = Some body) as Hr by by unfold read_file; rewrite Htmp.
  destruct (unpack_laid_out p (ga_Name asset) body fs2 acts Hd Hr Hplan Hok') as (H1 & H2 & H3).
  destruct (unpack _ _ _ _ _ p (ga_Name asset) fs2) as [r fs3]. cbn [fst snd] in *. subst r.
  assert (fs3 !! tmp_loc cwd p = Some (NFile body now)) as Ht3 by by apply H3.
  unfold os_remove. rewrite Ht3.
  assert (∀ l d t e, AFile l d t e ∈ acts → delete (tmp_loc cwd p) fs3 !! l = Some (NFile d t)) as Hinst.
  { intros l d t e' Hin. rewrite lookup_delete_ne; [by eapply H2|].
    intros <-. apply Hnotin. by eapply targets_elem. }
  assert (filter (λ f, absent cwd p (delete (tmp_loc cwd p) fs3) f = true) (p_RequiredFiles p) = []) as ->.
  { apply existsb_filter, not_true_is_false. intros (f & Hf1%list_elem_of_In & Ha)%existsb_exists.
    rewrite Forall_forall in Hreq. apply Hreq, list_elem_of_omap in Hf1 as ([|?|l d t e'] & Hin & Hl); [done..|].
    injection Hl as Hl. apply Hinst in Hin. revert Ha. unfold absent. rewrite <-Hl.
    unfold stat. destruct l; [done|]. by rewrite Hin. }
  exists (delete (tmp_loc cwd p) fs3). split_and!; [done|by rewrite lookup_delete_eq|done|].
  intros l d t Hl1 Hl2. rewrite lookup_delete_ne, H3 by done. by apply Hsame.
Qed.
End ensure_facts.

(** ** Witnesses *)

#[local] Existing Instance plain_hash.
#[local] Existing Instance ascii_tables.

Definition demo_project : Project := NewLlamaProject "linux" "" "/opt/llama".
Definition demo_release : Release :=
  mkRelease "b1" [mkAssetG "llama-b1-bin-win-cpu-x64.zip" "u0" 1;
                  mkAssetG "llama-b1-bin-ubuntu-x64.zip" "u1" 10].
Definition demo_zip (data : string) : option (list zip_file) :=
  if data =s? "zip" then
    Some [mkZF "build/llama-server" false 1 0 true "s" true; mkZF "build/llama-cli" false 1 0 true "c" true]
  else None.
Definition demo_fetch (url : string) : http_res := if url =s? "u1" then Response 200 "zip" true else NoResponse.
Definition demo_sys : SystemInfo := mkSys "linux" "amd64" false true true false.

Example ensure_installs_witness :
  ∃ fs', Ensure any_loc [] 9 demo_zip (λ _, None) demo_sys (Some demo_release) demo_fetch demo_project opt_disk
         = (Ok (), fs') ∧ fs' !! ["llama-cli"; "llama"; "opt"]%string = Some (NFile "c" 9).
Proof.
  destruct (ensure_installs any_loc [] 9 demo_zip (λ _, None) demo_sys (Some demo_release) demo_fetch
    demo_project opt_disk demo_release "llama-b1-bin-ubuntu-x64.zip"
    (mkAssetG "llama-b1-bin-ubuntu-x64.zip" "u1" 10) "zip"
    [AFile ["llama-server"; "llama"; "opt"]%string "s" 9 (mkEF "llama-server" 1 "73" 0);
     AFile ["llama-cli"; "llama"; "opt"]%string "c" 9 (mkEF "llama-cli" 1 "63" 0)])
    as (fs' & H1 & _ & H3 & _); [done|by vm_compute|done|by vm_compute|by vm_compute|by vm_compute|by vm_compute
      |by vm_compute|apply (bool_decide_eq_true_1 _); by vm_compute|].
  exists fs'. split; [exact H1|]. eapply H3. right. left.
Defined.

Definition cfg_project : Project := mkProject "e" "o" "r" "/opt" ["cfg"]%string (λ _ _, Err NoPlatform).

Example ensure_idempotent_witness :
  Forall (λ f, absent [] cfg_project opt_disk f = false) ["cfg"]%string ∧
  Ensure any_loc [] 9 demo_zip (λ _, None) demo_sys None demo_fetch cfg_project opt_disk = (Ok (), opt_disk).
Proof.
  exact (ensure_idempotent any_loc [] 9 demo_zip (λ _, None) demo_sys (Some demo_release) demo_fetch cfg_project
    opt_disk opt_disk None demo_fetch eq_refl).
Defined.

Example ensure_accepts_file_witness :
  Ensure any_loc [] 9 demo_zip (λ _, None) demo_sys (Some demo_release) demo_fetch
    (NewLlamaProject "linux" "" "/opt/cfg") opt_disk = (Ok (), opt_disk).
Proof.
  apply (ensure_accepts_file any_loc [] 9 demo_zip (λ _, None) demo_sys (Some demo_release) demo_fetch
    (NewLlamaProject "linux" "" "/opt/cfg") opt_disk "keep" 7); [done|by vm_compute|by vm_compute|].
  apply Forall_cons; split; [|apply Forall_cons; split; [|done]]; (split; [done|split; [done|by vm_compute]]).
Defined.

Example ensure_no_leftover_witness :
  ∀ d t, (Ensure any_loc [] 9 demo_zip (λ _, None) demo_sys (Some demo_release) demo_fetch demo_project
    opt_disk).2 !! tmp_loc [] demo_project ≠ Some (NFile d t).
Proof. apply ensure_no_leftover. intros d t. by vm_compute. Defined.
