(* ===== verification/NodeIdentity.v ===== *)
(** * pkg/setup: the identity a node derives from its hardware

    nodeid.go over the probes of detect_linux.go and the TPM reader; the output
    of a probe program is an argument, [None] when it fails.  Then the TPM
    functions of both platforms as programs over what the chip holds. *)

From S2P Require Import Prelude GoStrings GoStringsFacts Strconv GoSort Auth Tunnel.
From Stdlib Require Import ZArith Lia ZifyBool Bool Ascii String Sorted.
From stdpp Require Import base option list sorting strings.

Open Scope go_scope.

Definition nl : ascii := ch 10.

(** ** Probes *)

(** pkg/setup/detect_linux.go:54-74 [fetchCPUProcessorID] *)
Definition fetchCPUProcessorID (out : option string) : string :=
  match out with
  | None => "unknown-cpu"
  | Some out =>
      let ids := omap (λ line, let line := trim_space line in
                   if has_prefix line "ID:" then
                     let id := trim_space (trim_prefix line "ID:") in
                     if id =s? "" then None else Some id
                   else None) (split_byte nl out) in
      match ids with
      | [] => "unknown-cpu"
      | _ => join_str ":" (sort_by id ids)
      end
  end.

(** pkg/setup/detect_linux.go:147-157 [fetchMainboardUUID] *)
Definition fetchMainboardUUID (out : option string) : string :=
  match out with
  | None => ""
  | Some out =>
      let uuid := trim_space out in
      if (uuid =s? "") || (uuid =s? "Not Settable") || has_prefix uuid "Not" then "" else uuid
  end.

(** pkg/setup/detect_linux.go:160-180 [fetchGPUUUID] *)
Definition fetchGPUUUID (out : option string) : string :=
  match out with
  | None => "no-gpu"
  | Some out =>
      let uuids := omap (λ line, let line := trim_space line in
                     if line =s? "" then None else Some line) (split_byte nl out) in
      match uuids with
      | [] => "no-gpu"
      | _ => join_str ":" (sort_by id uuids)
      end
  end.

(** ** The TPM *)

(** pkg/setup/tpm.go:11-15 [TPMInfo] *)
Record TPMInfo := mkTPM { tpm_Fingerprint : string; tpm_EKCertRaw : string; tpm_EKCertIssuer : string }.

(** An endorsement key: the DER of its public half if it marshals, and the raw
    bytes and issuer of its certificate if it has one. *)
Record ek_handle := mkEK { ek_der : option string; ek_cert : option (string * string) }.

Inductive tpm_err := ETpmOpen | ETpmReadEK | ETpmMarshal.

(** pkg/setup/tpm.go:19-49 [ReadTPMInfo]; [readEK] is the platform's. *)
Definition ReadTPMInfo `{Sha256} (opens : bool) (readEK : option ek_handle) : result tpm_err TPMInfo :=
  if negb opens then Err ETpmOpen
  else match readEK with
       | None => Err ETpmReadEK
       | Some ek =>
           match ek_der ek with
           | None => Err ETpmMarshal
           | Some der =>
               let fp := hex_encode (sha256 der) in
               match ek_cert ek with
               | Some (raw, issuer) => Ok (mkTPM fp raw issuer)
               | None => Ok (mkTPM fp "" "")
               end
           end
       end.

(** pkg/setup/tpm_linux.go:28-30 [readEK] *)
Definition readEK_linux : option ek_handle := None.

(** pkg/setup/tpm_linux.go:11-19 [openTPM]: the first device that opens. *)
Definition openTPM_linux (opens : string → bool) : bool :=
  existsb opens ["/dev/tpmrm0"; "/dev/tpm0"]%string.

(** ** The identity *)

(** golang.org/x/crypto/hkdf and go-ethereum's key conversions. *)
Class KeyDerivation := {
  hkdf32 : string → string → string;
  to_ecdsa : string → option Z;
  from_ecdsa : Z → string
}.

(** pkg/setup/nodeid.go:15-23 [NodeIdentity] *)
Record NodeIdentity := mkNodeId {
  ni_Address : string; ni_MainboardUUID : string; ni_TPMFingerprint : string; ni_GPUUUID : string;
  ni_EKCertRaw : string; ni_EKCertIssuer : string; ni_privateKey : Z
}.

Section identity.
Context {S256 : Sha256} {E : EthCrypto} {K : KeyDerivation}.

(** pkg/setup/nodeid.go:84-95 [derivePrivateKey] *)
Definition derivePrivateKey (part1 part2 : string) : option Z :=
  to_ecdsa (hkdf32 (part1 ++s "|" ++s part2) "iann-node-v1").

(** pkg/setup/nodeid.go:32-67 [DeriveNodeIdentity]: the results of the probes
    are arguments. *)
Definition DeriveNodeIdentity (mainboardUUID : string) (tpm : result tpm_err TPMInfo) (gpuUUID : string)
  : option NodeIdentity :=
  let fallback :=
    match derivePrivateKey mainboardUUID gpuUUID with
    | None => None
    | Some k => Some (mkNodeId (addr_hex (key_addr k)) mainboardUUID "" gpuUUID "" "" k)
    end in
  match tpm with
  | Ok t =>
      if negb (tpm_Fingerprint t =s? "") then
        match derivePrivateKey mainboardUUID (tpm_Fingerprint t) with
        | None => None
        | Some k => Some (mkNodeId (addr_hex (key_addr k)) mainboardUUID (tpm_Fingerprint t) ""
                            (tpm_EKCertRaw t) (tpm_EKCertIssuer t) k)
        end
      else fallback
  | Err _ => fallback
  end.

(** pkg/setup/nodeid.go:70-72 [NodeIdentity.Sign] *)
Definition Sign (n : NodeIdentity) (msgHash : string) : option string := eth_sign msgHash (ni_privateKey n).

(** pkg/setup/nodeid.go:75-77 [NodeIdentity.PrivateKeyHex] *)
Definition PrivateKeyHex (n : NodeIdentity) : string := hex_encode (from_ecdsa (ni_privateKey n)).

(** pkg/setup/nodeid.go:80-82 [NodeIdentity.HasTPM] *)
Definition HasTPM (n : NodeIdentity) : bool := negb (ni_TPMFingerprint n =s? "").

(** The identity of a Linux machine, from what its probe programs print. *)
Record machine := mkMachine {
  m_tpm : string → bool; m_system_uuid : option string; m_gpu_uuids : option string
}.
Definition linux_identity (m : machine) : option NodeIdentity :=
  DeriveNodeIdentity (fetchMainboardUUID (m_system_uuid m))
    (ReadTPMInfo (openTPM_linux (m_tpm m)) readEK_linux) (fetchGPUUUID (m_gpu_uuids m)).

(** ** Properties *)

Definition str_le (a b : string) : Prop := str_ltb b a = false.

#[local] Instance str_le_total : Total str_le.
Proof.
  intros a b. unfold str_le. destruct (str_ltb b a) eqn:H; [right|by left].
  apply not_true_is_false. intros H'. pose proof (str_ltb_trans _ _ _ H H') as Hr.
  by rewrite str_ltb_irrefl in Hr.
Qed.
#[local] Instance str_le_trans : Transitive str_le.
Proof.
  unfold str_le. intros a b c Hab Hbc. apply not_true_is_false. intros Hca.
  destruct (str_ltb a b) eqn:Hab'.
  - pose proof (str_ltb_trans _ _ _ Hca Hab') as H. by rewrite Hbc in H.
  - rewrite (str_ltb_total a b) in Hca by done. by rewrite Hbc in Hca.
Qed.
#[local] Instance str_le_antisymm : AntiSymm (=) str_le.
Proof. intros a b Hab Hba. by apply str_ltb_total. Qed.

Lemma insert_by_sorted x l : StronglySorted str_le l → StronglySorted str_le (insert_by id x l).
Proof.
  induction 1 as [|y l Hl IH Hy]; cbn [insert_by]; [repeat constructor|]. case_if.
  - constructor; [done|]. rewrite insert_by_perm. constructor; [|done].
    unfold str_le. destruct (str_le_total y x) as [?|Hxy]; [done|]. unfold str_le, id in *. congruence.
  - constructor; [by constructor|]. constructor; [done|]. eapply Forall_impl; [exact Hy|].
    intros z Hz. by transitivity y.
Qed.

Lemma sort_by_sorted l : StronglySorted str_le (sort_by id l).
Proof. induction l as [|x l IH]; [constructor|]. by apply insert_by_sorted. Qed.

Lemma sort_by_perm_eq (l l' : list string) : l ≡ₚ l' → sort_by id l = sort_by id l'.
Proof.
  intros H. apply (StronglySorted_unique str_le); [apply sort_by_sorted..|]. by rewrite !sort_by_perm.
Qed.

(** The order in which the driver lists the GPUs does not matter. *)
Lemma gpu_uuid_order out out' :
  split_byte nl out ≡ₚ split_byte nl out' → fetchGPUUUID (Some out) = fetchGPUUUID (Some out').
Proof.
  intros H. cbn [fetchGPUUUID]. set (f := λ line, if trim_space line =s? "" then None else Some (trim_space line)).
  assert (omap f (split_byte nl out) ≡ₚ omap f (split_byte nl out')) as Hp by by rewrite H.
  change (λ line : string, _) with f. pose proof (sort_by_perm_eq _ _ Hp) as Hs.
  destruct (omap f (split_byte nl out)) as [|x l].
  - apply Permutation_nil in Hp. by rewrite Hp.
  - destruct (omap f (split_byte nl out')) as [|y l']; [by apply Permutation_sym, Permutation_nil_cons in Hp|]. by rewrite Hs.
Qed.

(** The identity depends only on the hardware identifiers: two Linux
    machines' worth of probe output that list the same board and, in any order,
    the same GPUs give the same identity, and it never claims a TPM. *)
Theorem identity_stable m m' :
  fetchMainboardUUID (m_system_uuid m) = fetchMainboardUUID (m_system_uuid m') →
  (∃ o o', m_gpu_uuids m = Some o ∧ m_gpu_uuids m' = Some o' ∧ split_byte nl o ≡ₚ split_byte nl o') →
  linux_identity m = linux_identity m' ∧ ∀ n, linux_identity m = Some n → HasTPM n = false.
Proof.
  intros Hb (o & o' & Ho & Ho' & Hp). unfold linux_identity. rewrite Hb, Ho, Ho', (gpu_uuid_order o o' Hp).
  assert (∀ d g n, DeriveNodeIdentity d (ReadTPMInfo (openTPM_linux (m_tpm m)) readEK_linux) g = Some n →
                   HasTPM n = false) as Htpm.
  { intros d g n. unfold DeriveNodeIdentity, ReadTPMInfo, readEK_linux.
    destruct (openTPM_linux (m_tpm m)), (derivePrivateKey d g); cbn; intros [= <-]; done. }
  split; [|by intros n ?%Htpm]. unfold ReadTPMInfo, readEK_linux. by destruct (openTPM_linux _), (openTPM_linux _).
Qed.

(** A Linux machine whose board UUID cannot be read (dmidecode needs root)
    and that has no NVIDIA GPU derives its private key from the constant
    "|no-gpu": all such machines have one identity, and anyone can compute it. *)
Theorem bare_identity_shared m :
  fetchMainboardUUID (m_system_uuid m) = ""%string → m_gpu_uuids m = None →
  linux_identity m =
    match to_ecdsa (hkdf32 "|no-gpu" "iann-node-v1") with
    | Some k => Some (mkNodeId (addr_hex (key_addr k)) "" "" "no-gpu" "" "" k)
    | None => None
    end.
Proof.
  intros Hb Hg. unfold linux_identity. rewrite Hb, Hg. unfold ReadTPMInfo, readEK_linux.
  by destruct (openTPM_linux _).
Qed.

(** What an identity signs recovers to its address. *)
Theorem identity_sign_recovers `{!EthLaws E} board tpm gpu n h sig :
  DeriveNodeIdentity board tpm gpu = Some n → Sign n h = Some sig →
  ∃ a, sig_to_addr h sig = Some a ∧ ni_Address n = addr_hex a.
Proof.
  intros Hd Hs. apply eth_sign_recovers in Hs. eexists. split; [exact Hs|].
  revert Hd. unfold DeriveNodeIdentity. destruct tpm as [t|]; [case_if|];
    (destruct (derivePrivateKey _ _); [by intros [= <-]|done]).
Qed.
End identity.

(** ** Hashes of files *)

(** Eight bytes, least significant first. *)
Definition put_u64_le (n : Z) : string := srev (put_u64 n).

(** pkg/setup/filehash.go:40-67 [FileHashShort]: [size] is what [Stat] reports,
    [head] the first 64 KB that can be read; [None] when the file cannot be
    opened or inspected. *)
Definition FileHashShort `{Sha256} (file : option (Z * string)) : string :=
  match file with
  | None => ""
  | Some (size, head) => take_str 12 (hex_encode (sha256 (put_u64_le size ++s take_str 65536 head)))
  end.

(** Files of one length that agree on the first 64 KB have the same short
    hash. *)
Lemma short_hash_head `{Sha256} (head tail1 tail2 : string) :
  String.length head = 65536%nat → String.length tail1 = String.length tail2 →
  let file d := Some (Z.of_nat (String.length d), d) in
  FileHashShort (file (head ++s tail1)) = FileHashShort (file (head ++s tail2)).
Proof.
  intros Hh Ht file. unfold file, FileHashShort. rewrite !slength_app, Ht, <-Hh, !take_str_app. done.
Qed.

(** ** Release hashes *)

(** pkg/setup/filehash.go:83-95 [NormalizeSHA256 part] *)
Definition is_hex_lower (c : ascii) : bool :=
  is_digit c || ((97 <=? byte_val c) && (byte_val c <=? 102))%nat.

(** pkg/setup/filehash.go:82-95 [NormalizeSHA256]; [range] over a string of 64
    bytes meets a non-ASCII rune exactly when some byte is not a hex digit. *)
Definition NormalizeSHA256 `{GoUnicode} (h : string) : string :=
  let h := to_lower (trim_space h) in
  let h := trim_prefix h "sha256:" in
  let h := trim_prefix h "0x" in
  if negb (String.length h =? 64)%nat then ""
  else if sforall is_hex_lower h then h else "".

Lemma is_hex_lower_plain c : is_hex_lower c = true → is_plain c = true ∧ lower_byte c = c ∧ is_ascii_byte c = true.
Proof.
  unfold is_hex_lower, is_digit, is_plain, lower_byte, is_ascii_byte, is_upper_ascii. intros H.
  split_and!; [lia| |lia]. case_if; [lia|done].
Qed.

Lemma hex_lower_id s : sforall is_hex_lower s = true → smap lower_byte s = s.
Proof.
  induction s as [|c s IH]; [done|]. cbn [sforall smap]. intros [Hc Hs]%andb_true_iff.
  by rewrite IH, (proj1 (proj2 (is_hex_lower_plain c Hc))).
Qed.

(** A normalised hash is empty or 64 lower-case hex digits, and
    normalising it again changes nothing. *)
Theorem normalize_sha256_canonical `{GoUnicode} (h : string) :
  (NormalizeSHA256 h = ""%string ∨
   String.length (NormalizeSHA256 h) = 64 ∧ sforall is_hex_lower (NormalizeSHA256 h) = true) ∧
  NormalizeSHA256 (NormalizeSHA256 h) = NormalizeSHA256 h.
Proof.
  assert (NormalizeSHA256 h = ""%string ∨
   String.length (NormalizeSHA256 h) = 64 ∧ sforall is_hex_lower (NormalizeSHA256 h) = true) as Hc.
  { unfold NormalizeSHA256. set (x := trim_prefix (trim_prefix _ _) _).
    destruct (String.length x =? 64)%nat eqn:Hl; cbn [negb]; [|by left]. apply Nat.eqb_eq in Hl.
    destruct (sforall is_hex_lower x) eqn:Hs; [right; by split|by left]. }
  split; [done|]. destruct Hc as [->|[Hl Hs]]; [done|]. revert Hl Hs. generalize (NormalizeSHA256 h). clear h.
  intros h Hl Hs. unfold NormalizeSHA256 at 1.
  rewrite trim_space_plain by (revert Hs; apply sforall_impl; intros c Hc; by apply is_hex_lower_plain in Hc as (? & ? & ?)).
  rewrite to_lower_is_ascii by (revert Hs; apply sforall_impl; intros c Hc; by apply is_hex_lower_plain in Hc as (? & ? & ?)).
  rewrite hex_lower_id by done.
  assert (∀ p, (∃ c, contains_byte c p = true ∧ is_hex_lower c = false) → trim_prefix h p = h) as Hp.
  { intros p (c & Hp & Hc). unfold trim_prefix. destruct (has_prefix h p) eqn:Hpre; [|done].
    apply has_prefix_spec in Hpre as [t ->]. rewrite sforall_app in Hs. apply andb_true_iff in Hs as [Hs _].
    exfalso. revert Hp. clear -Hs Hc. induction p as [|d p IH]; [done|]. cbn [sforall contains_byte] in *.
    apply andb_true_iff in Hs as [Hd Hs]. intros [He|He]%orb_true_iff; [|by apply IH].
    apply Ascii.eqb_eq in He as <-. by rewrite Hc in Hd. }
  rewrite (Hp "sha256:"%string) by by exists ":"%char. rewrite (Hp "0x"%string) by by exists "x"%char.
  by rewrite Hl, Hs.
Qed.

(** ** Witnesses *)

#[local] Existing Instance toy_eth.
#[local] Existing Instance toy_eth_laws.

Definition toy_kdf : KeyDerivation :=
  {| hkdf32 := λ s _, s; to_ecdsa := λ s, Some (be_val s); from_ecdsa := λ k, put_u64 k |}.
#[local] Existing Instance toy_kdf.
Definition id_hash : Sha256 := {| sha256 := λ s, s |}.
#[local] Existing Instance id_hash.

Definition two_gpus (a b : string) : machine :=
  mkMachine (λ _, true) (Some ("4c4c-1" ++s str1 nl)) (Some (a ++s str1 nl ++s b)).

Example identity_stable_witness :
  linux_identity (two_gpus "GPU-2" "GPU-1") = linux_identity (two_gpus "GPU-1" "GPU-2").
Proof.
  refine (proj1 (identity_stable (two_gpus "GPU-2" "GPU-1") (two_gpus "GPU-1" "GPU-2") eq_refl _)).
  do 2 eexists. split; [done|split; [done|]]. apply Permutation_swap.
Defined.

Example bare_identity_shared_witness :
  linux_identity (mkMachine (λ _, true) (Some "Not Settable") None) =
  Some (mkNodeId (addr_hex (key_addr (be_val "|no-gpu"))) "" "" "no-gpu" "" "" (be_val "|no-gpu")).
Proof. exact (bare_identity_shared (mkMachine (λ _, true) (Some "Not Settable"%string) None) eq_refl eq_refl). Defined.

Definition toy_id : NodeIdentity :=
  mkNodeId (addr_hex (key_addr (be_val "board|GPU-1"))) "board" "" "GPU-1" "" "" (be_val "board|GPU-1").

Example identity_sign_recovers_witness :
  DeriveNodeIdentity "board" (Err ETpmOpen) "GPU-1" = Some toy_id ∧
  ∃ a, sig_to_addr "hash" (default "" (Sign toy_id "hash")) = Some a ∧ ni_Address toy_id = addr_hex a.
Proof.
  split; [by vm_compute|].
  apply (identity_sign_recovers "board" (Err ETpmOpen) "GPU-1"); by vm_compute.
Defined.

(** * pkg/setup/tpm_windows.go, tpm.go: what the TPM is left holding

    The functions that talk to the chip, on both platforms, as programs over the
    open transports and the loaded objects: every path closes what it opened, in
    an order in which closing still works, and the two functions that hash the
    endorsement key agree.  [NodeIdentity.ReadTPMInfo] is what [ReadTPMInfo]
    answers. *)

Open Scope go_scope.
Open Scope Z_scope.

(** Transports open, and objects in the chip. *)
Record tpm_state := mkTpmSt { ts_conns : nat; ts_objects : list Z }.

(** The libraries and the chip: whether the transport opens;
    [client.EndorsementKeyRSA], which leaves the key in the chip;
    [tpm2.CreatePrimary]; [tpm2.Sign] of a digest with a loaded key. *)
Class TpmChip := {
  chip_opens : bool;
  chip_ek : list Z → option (Z * ek_handle);
  chip_create : list Z → option Z;
  chip_sign : Z → string → option string
}.

(** An object gets a handle of its own. *)
Class TpmChipLaws (C : TpmChip) : Prop := {
  chip_ek_fresh : ∀ objs h ek, chip_ek objs = Some (h, ek) → h ∉ objs;
  chip_create_fresh : ∀ objs h, chip_create objs = Some h → h ∉ objs
}.

Inductive tpm_fail := TOpen | TNoDevice | TEK | TMarshal | TCreate | TSign | TNotTested.

Definition tpm (A : Type) := tpm_state → result tpm_fail A * tpm_state.
Definition tret {A} (r : result tpm_fail A) : tpm A := λ s, (r, s).
Definition tbind {A B} (m : tpm A) (k : A → tpm B) : tpm B :=
  λ s, match m s with (Ok a, s) => k a s | (Err e, s) => (Err e, s) end.
(** [defer clean()] before [m]. *)
Definition tdefer {A} (clean : tpm_state → tpm_state) (m : tpm A) : tpm A :=
  λ s, let '(r, s) := m s in (r, clean s).

Notation "'tpm~' x := m 'in' k" := (tbind m (λ x, k))
  (at level 10, x pattern, m at level 100, k at level 200,
   format "'tpm~'  x  :=  m  'in' '//' k") : go_scope.

(** [rwc.Close]; [FlushContext], which needs a transport. *)
Definition close_conn (s : tpm_state) : tpm_state := mkTpmSt (pred (ts_conns s)) (ts_objects s).
Definition flush (h : Z) (s : tpm_state) : tpm_state :=
  match ts_conns s with
  | O => s
  | S _ => mkTpmSt (ts_conns s) (filter (λ k, k ≠ h) (ts_objects s))
  end.

(** A platform: the functions of its file. *)
Record tpm_platform := mkPlatform {
  p_open : tpm unit;
  p_readEK : tpm (Z * ek_handle);
  p_decrypt : string → tpm string;
  p_akhash : tpm string
}.

Section chip.
Context {S256 : Sha256} {C : TpmChip}.

(** pkg/setup/tpm_windows.go:15-17 [openTPM] *)
Definition openTPM_windows : tpm unit :=
  λ s, if chip_opens then (Ok tt, mkTpmSt (S (ts_conns s)) (ts_objects s)) else (Err TOpen, s).

Definition load_ek : tpm (Z * ek_handle) :=
  λ s, match chip_ek (ts_objects s) with
       | Some (h, ek) => (Ok (h, ek), mkTpmSt (ts_conns s) (h :: ts_objects s))
       | None => (Err TEK, s)
       end.

Definition create_primary : tpm Z :=
  λ s, match chip_create (ts_objects s) with
       | Some h => (Ok h, mkTpmSt (ts_conns s) (h :: ts_objects s))
       | None => (Err TCreate, s)
       end.

Definition sign_with (h : Z) (digest : string) : tpm string :=
  λ s, if existsb (Z.eqb h) (ts_objects s)
       then match chip_sign h digest with Some sig => (Ok sig, s) | None => (Err TSign, s) end
       else (Err TSign, s).

(** pkg/setup/tpm_windows.go:19-30 [readEK]: the key with its handle, which
    [close] flushes. *)
Definition readEK_windows : tpm (Z * ek_handle) := load_ek.

(** pkg/setup/tpm_windows.go:35-67 [decryptWithEK]: a signature over the digest
    of the nonce with a key made for it. *)
Definition decryptWithEK_windows (nonce : string) : tpm string :=
  tpm~ h := create_primary in
  tdefer (flush h) (sign_with h (sha256 nonce)).

Definition marshal_ek (ek : ek_handle) : tpm string :=
  tret (match ek_der ek with Some der => Ok der | None => Err TMarshal end).

(** pkg/setup/tpm_windows.go:70-89 [ReadAKPublicHash] *)
Definition ReadAKPublicHash_windows : tpm string :=
  tpm~ _ := openTPM_windows in
  tdefer close_conn
    (tpm~ (h, ek) := load_ek in
     tdefer (flush h) (tpm~ der := marshal_ek ek in tret (Ok (sha256 der)))).

Definition windows : tpm_platform :=
  mkPlatform openTPM_windows readEK_windows decryptWithEK_windows ReadAKPublicHash_windows.

(** pkg/setup/tpm_linux.go:11-19 [openTPM]: [opens] says which device opens. *)
Definition openTPM_unix (opens : string → bool) : tpm unit :=
  λ s, if openTPM_linux opens then (Ok tt, mkTpmSt (S (ts_conns s)) (ts_objects s)) else (Err TNoDevice, s).

(** pkg/setup/tpm_linux.go:32-34 [decryptWithEK]: with [readEK] and
    [ReadAKPublicHash], which fail too. *)
Definition linux (opens : string → bool) : tpm_platform :=
  mkPlatform (openTPM_unix opens) (tret (Err TNotTested)) (λ _, tret (Err TNotTested)) (tret (Err TNotTested)).

(** pkg/setup/tpm.go:19-49 [ReadTPMInfo] *)
Definition ReadTPMInfo_on (P : tpm_platform) : tpm TPMInfo :=
  tpm~ _ := p_open P in
  tdefer close_conn
    (tpm~ (h, ek) := p_readEK P in
     tdefer (flush h)
       (tpm~ der := marshal_ek ek in
        let fp := hex_encode (sha256 der) in
        tret (Ok (match ek_cert ek with
                  | Some (raw, issuer) => mkTPM fp raw issuer
                  | None => mkTPM fp "" ""
                  end)))).

(** pkg/setup/tpm.go:53-61 [SignWithTPM] *)
Definition SignWithTPM (P : tpm_platform) (nonce : string) : tpm string :=
  tpm~ _ := p_open P in
  tdefer close_conn (p_decrypt P nonce).

(** ** Nothing is left behind *)

Definition restores {A} (m : tpm A) : Prop := ∀ s, (m s).2 = s.

Lemma flush_loaded h n objs : h ∉ objs → flush h (mkTpmSt (S n) (h :: objs)) = mkTpmSt (S n) objs.
Proof.
  intros Hh. unfold flush. cbn [ts_conns ts_objects]. rewrite filter_cons_False by auto. f_equal.
  induction objs as [|k objs IH]; [done|]. apply not_elem_of_cons in Hh as [Hk Hh].
  rewrite filter_cons_True by auto. by rewrite IH.
Qed.

Lemma sign_restores h d : restores (sign_with h d).
Proof. intros s. unfold sign_with. destruct (existsb _ _); [|done]. by destruct (chip_sign h d). Qed.

Lemma marshal_restores {A} ek (k : string → A) : restores (tpm~ der := marshal_ek ek in tret (Ok (k der))).
Proof. intros s. unfold tbind, marshal_ek, tret. by destruct (ek_der ek). Qed.

Context {L : TpmChipLaws C}.

(** What is loaded, used and flushed while a transport is open. *)
Lemma load_ek_restores {A} (k : ek_handle → tpm A) n objs :
  (∀ ek, restores (k ek)) →
  ((tpm~ (h, ek) := load_ek in tdefer (flush h) (k ek)) (mkTpmSt (S n) objs)).2 = mkTpmSt (S n) objs.
Proof.
  intros Hk. unfold tbind, load_ek. cbn [ts_conns ts_objects].
  destruct (chip_ek objs) as [[h ek]|] eqn:E; [|done].
  unfold tdefer. specialize (Hk ek (mkTpmSt (S n) (h :: objs))).
  destruct (k ek _) as [r s]. cbn [snd] in *. subst s. apply flush_loaded. by eapply chip_ek_fresh.
Qed.

Lemma decrypt_restores nonce n objs :
  (decryptWithEK_windows nonce (mkTpmSt (S n) objs)).2 = mkTpmSt (S n) objs.
Proof.
  unfold decryptWithEK_windows, tbind, create_primary. cbn. destruct (chip_create objs) as [h|] eqn:E; [|done].
  unfold tdefer. pose proof (sign_restores h (sha256 nonce) (mkTpmSt (S n) (h :: objs))) as Hs.
  destruct (sign_with h _ _) as [r s]. cbn in *. subst s. apply flush_loaded. by eapply chip_create_fresh.
Qed.

(** A program run over an open transport that closes it. *)
Lemma open_restores {A} (m : tpm A) :
  (∀ n objs, (m (mkTpmSt (S n) objs)).2 = mkTpmSt (S n) objs) →
  restores (tpm~ _ := openTPM_windows in tdefer close_conn m).
Proof.
  intros Hm [n objs]. unfold tbind, openTPM_windows. cbn. destruct chip_opens; [|done].
  unfold tdefer. specialize (Hm n objs). destruct (m _) as [r s]. cbn in *. by subst s.
Qed.

(** Whatever the chip refuses and whatever the nonce, the three functions leave
    the transports and the chip's few object slots as they found them. *)
Theorem tpm_leaves_nothing nonce :
  restores (ReadTPMInfo_on windows) ∧ restores (SignWithTPM windows nonce) ∧ restores ReadAKPublicHash_windows.
Proof.
  split_and!; apply open_restores; intros n objs.
  - apply load_ek_restores. intros ek. apply (marshal_restores ek).
  - apply decrypt_restores.
  - apply load_ek_restores. intros ek. apply (marshal_restores ek).
Qed.

(** ** What they answer *)

Definition chip_answers (objs : list Z) : option ek_handle := snd <$> chip_ek objs.

(** [ReadTPMInfo] on Windows is [NodeIdentity.ReadTPMInfo] of what the chip
    answers; on the other platforms there is never one. *)
Theorem ReadTPMInfo_answers opens s :
  (∀ info, (ReadTPMInfo_on windows s).1 = Ok info ↔ ReadTPMInfo chip_opens (chip_answers (ts_objects s)) = Ok info) ∧
  (∀ info, (ReadTPMInfo_on (linux opens) s).1 ≠ Ok info).
Proof.
  split; intros info; unfold ReadTPMInfo_on, tbind, tdefer; cbn.
  - unfold openTPM_windows, ReadTPMInfo, chip_answers, readEK_windows, load_ek.
    destruct chip_opens; simpl; [|split; discriminate].
    destruct (chip_ek (ts_objects s)) as [[h ek]|]; simpl; [|split; discriminate].
    unfold marshal_ek, tret. destruct (ek_der ek); simpl; [|split; discriminate].
    destruct (ek_cert ek) as [[raw issuer]|]; simpl; split; intros [= <-]; reflexivity.
  - unfold openTPM_unix. by destruct (openTPM_linux opens).
Qed.

(** The hash the challenge is bound to is the fingerprint of the node's
    identity, in hexadecimal. *)
Theorem ak_hash_is_fingerprint s hash :
  (ReadAKPublicHash_windows s).1 = Ok hash →
  ∃ info, (ReadTPMInfo_on windows s).1 = Ok info ∧ tpm_Fingerprint info = hex_encode hash.
Proof.
  unfold ReadAKPublicHash_windows, ReadTPMInfo_on, windows, tbind, tdefer, openTPM_windows, readEK_windows, load_ek.
  cbn. destruct chip_opens; [|done]. cbn. destruct (chip_ek (ts_objects s)) as [[h ek]|]; [|done]. cbn.
  unfold marshal_ek, tret. destruct (ek_der ek) as [der|]; [|done]. cbn. intros [= <-].
  eexists. split; [done|]. by destruct (ek_cert ek) as [[raw issuer]|].
Qed.

(** [SignWithTPM] signs the digest of the nonce with a key made for the call, so
    two signatures need not come from one key; nothing ties it to the
    endorsement key. *)
Theorem sign_fresh_key nonce s sig :
  (SignWithTPM windows nonce s).1 = Ok sig →
  ∃ h, chip_create (ts_objects s) = Some h ∧ chip_sign h (sha256 nonce) = Some sig.
Proof.
  unfold SignWithTPM, windows, tbind, tdefer, openTPM_windows, decryptWithEK_windows, create_primary, tbind, tdefer.
  cbn. destruct chip_opens; [|done]. cbn. destruct (chip_create (ts_objects s)) as [h|]; [|done].
  unfold sign_with. cbn. rewrite Z.eqb_refl. cbn. destruct (chip_sign h (sha256 nonce)) eqn:E; [|done].
  intros [= <-]. by exists h.
Qed.
End chip.

(** ** A chip *)

Lemma le_foldr_max h objs : h ∈ objs → h ≤ foldr Z.max 0 objs.
Proof. induction objs as [|k objs IH]; [by intros ?%elem_of_nil|]. intros [-> |Hh]%elem_of_cons; cbn; [lia|]. specialize (IH Hh). lia. Qed.

(** It has a key without certificate and gives every object the next handle. *)
Definition toy_chip : TpmChip := {|
  chip_opens := true;
  chip_ek objs := Some (1 + foldr Z.max 0 objs, mkEK (Some "ek"%string) None);
  chip_create objs := Some (1 + foldr Z.max 0 objs);
  chip_sign h d := if h =? 8 then None else Some d
|}.

Lemma toy_chip_laws : TpmChipLaws toy_chip.
Proof. split; intros objs h; [intros ek|]; cbn; intros [= <-]; intros Hh%le_foldr_max; lia. Qed.

Definition toy_hash : Sha256 := {| sha256 s := s |}.

(** A signature that fails flushes its key. *)
Lemma tpm_leaves_nothing_witness :
  let W := windows (S256:=toy_hash) (C:=toy_chip) in
  (SignWithTPM W "n" (mkTpmSt 0 [7])).1 = Err TSign ∧
  restores (ReadTPMInfo_on (S256:=toy_hash) W) ∧ restores (SignWithTPM W "n") ∧
  restores (ReadAKPublicHash_windows (S256:=toy_hash) (C:=toy_chip)).
Proof.
  split; [by vm_compute|]. apply (tpm_leaves_nothing (S256:=toy_hash) (C:=toy_chip) (L:=toy_chip_laws) "n").
Defined.
