(* ===== verification/Probe.v ===== *)
(** * pkg/setup: reading the hardware

    The parsers of nvidia-smi, /proc and /sys output (detect.go,
    detect_linux.go) and the assembled specifications.  The
    text of a file or of a program's output is an argument, [None] when the
    file does not open or the program fails.  Then the same for the answers of
    wmic (detect_windows.go). *)

From S2P Require Import Prelude GoStrings GoStringsFacts Strconv Hardware GoAny GoSort HostFS GoTime Auth.
From S2P Require Import Tunnel Archive Engines NodeIdentity.
From Stdlib Require Import ZArith Lia ZifyBool Bool Ascii String SpecFloat.
From stdpp Require Import base option list strings.

Open Scope go_scope.
Open Scope Z_scope.

(** The value [strconv.ParseFloat(s, 64)] returns, with or without an error. *)
Class FloatValue := { float_value : string → float64 }.

(** [strings.SplitN(s, sep, n)] for a non-empty separator. *)
Fixpoint split_n (n : nat) (sep s : string) : list string :=
  match n with
  | O => []
  | S O => [s]
  | S n' => match index_str s sep with
            | None => [s]
            | Some i => take_str i s :: split_n n' sep (drop_str (i + String.length sep) s)
            end
  end.

(** [bufio.Scanner] by lines. *)
Definition scan_lines (s : string) : list string :=
  let l := split_byte nl s in
  let l := match last l with Some EmptyString => removelast l | _ => l end in
  map (λ x, trim_suffix x (str1 (ch 13))) l.

(** The same with a buffer of [max] bytes: the lines before the first one that
    does not fit, and whether one was found. *)
Definition scan_max (max : Z) (s : string) : list string * bool :=
  let l := split_byte nl s in
  let l := match last l with Some EmptyString => removelast l | _ => l end in
  let fix fits (l : list string) : list string * bool :=
    match l with
    | [] => ([], true)
    | x :: l => if (Z.of_nat (String.length x) <? max)%Z
                then let '(r, ok) := fits l in (trim_suffix x (str1 (ch 13)) :: r, ok)
                else ([], false)
    end in
  fits l.

(** ** Machine descriptions *)

(** pkg/setup/detect.go:40-48 [CPUInfo] *)
Record CPUInfo := mkCPUInfo {
  ci_Name : string; ci_Cores : Z; ci_Threads : Z; ci_ClockMHz : float64;
  ci_AVX : bool; ci_AVX2 : bool; ci_AVX512 : bool
}.
(** pkg/setup/detect.go:50-52 [MemInfo] *)
Record MemInfo := mkMem { mi_TotalGB : float64 }.
(** pkg/setup/detect.go:54-61 [GPUInfo] *)
Record GPUInfo := mkGPUInfo {
  gi_Available : bool; gi_Name : string; gi_VRAMGB : float64; gi_CUDASupport : bool;
  gi_DriverVersion : string; gi_CUDAVersion : string
}.
(** pkg/setup/detect.go:63-66 [DiskInfo] *)
Record DiskInfo := mkDisk { di_ModelDir : string; di_FreeGB : float64 }.
(** pkg/setup/detect.go:31-38 [FullSystemInfo] *)
Record FullSystemInfo := mkFull {
  fs_OS : string; fs_Arch : string; fs_CPU : CPUInfo; fs_Mem : MemInfo; fs_GPU : GPUInfo; fs_Disk : DiskInfo
}.

(** pkg/setup/detect.go:216-218 [roundGB] *)
Definition roundGB (bytes : Z) : float64 :=
  f_div (f_round (f_mul (f_div (f_div (f_div (f_of_Z bytes) (f_of_Z 1024)) (f_of_Z 1024)) (f_of_Z 1024))
                   (f_of_Z 10))) (f_of_Z 10).

Section probe.
Context {U : GoUnicode} {FV : FloatValue}.

(** ** GPUs *)

(** pkg/setup/detect.go:421-422 [detectGPUsStatic part] *)
Definition vram_gb (field : string) : float64 :=
  f_div (f_round (f_mul (f_div (float_value (trim_space field)) (f_of_Z 1024)) (f_of_Z 10))) (f_of_Z 10).

Definition smi_lines (out : string) : list string :=
  omap (λ line, let line := trim_space line in if line =s? "" then None else Some line)
    (split_byte nl (trim_space out)).

(** The n-th comma-separated field, trimmed. *)
Definition field (parts : list string) (n : nat) : option string := trim_space <$> parts !! n.

(** pkg/setup/detect.go:407-436 [detectGPUsStatic] *)
Definition detectGPUsStatic (out : option string) : option (list GPUSpec) :=
  match out with
  | None => None
  | Some out =>
      match smi_lines out with
      | [] => None
      | lines =>
          Some (map (λ line,
            let parts := split_n 3 ", " line in
            mkGPU (default ""%string (field parts 0)) (default ""%string (field parts 2))
              (from_option vram_gb f_zero (parts !! 1%nat)) 0 0 f_zero) lines)
      end
  end.

(** pkg/setup/detect.go:439-473 [detectGPUsDynamic] *)
Definition detectGPUsDynamic (out : option string) : option (list GPUSpec) :=
  match out with
  | None => None
  | Some out =>
      match smi_lines out with
      | [] => None
      | lines =>
          Some (map (λ line,
            let parts := split_n 4 ", " line in
            mkGPU (default ""%string (field parts 0)) "" f_zero
              (from_option (λ s, (atoi s).1) 0 (field parts 1)) (from_option (λ s, (atoi s).1) 0 (field parts 2))
              (from_option vram_gb f_zero (parts !! 3%nat))) lines)
      end
  end.

(** pkg/setup/detect.go:137-149 [detectGPU part]: the version behind "CUDA Version:". *)
Fixpoint cuda_version (lines : list string) : string :=
  match lines with
  | [] => ""
  | line :: lines =>
      match index_str line "CUDA Version:" with
      | None => cuda_version lines
      | Some idx =>
          let ver := trim_space (drop_str (idx + 13) line) in
          let sp := match index_byte ver " ", index_byte ver "|" with
                    | Some a, Some b => Some (Nat.min a b)
                    | Some a, None => Some a
                    | None, o => o
                    end in
          let ver := match sp with Some (S i) => take_str (S i) ver | _ => ver end in
          trim_space ver
      end
  end.

(** pkg/setup/detect.go:108-156 [detectGPU]: the query's output, then the plain output. *)
Definition detectGPU (out smi : option string) : GPUInfo :=
  match out with
  | None => mkGPUInfo false "" f_zero false "" ""
  | Some out =>
      let line := trim_space out in
      let line := match index_byte line nl with Some (S i) => take_str (S i) line | _ => line end in
      let parts := split_n 3 ", " line in
      mkGPUInfo true (default ""%string (field parts 0)) (from_option vram_gb f_zero (parts !! 1%nat)) true
        (default ""%string (field parts 2))
        (match smi with Some s => cuda_version (split_byte nl s) | None => ""%string end)
  end.

(** ** Memory, disk, clock *)

(** The number of kilobytes on the first line with the prefix. *)
Fixpoint meminfo_gb (key : string) (lines : list string) : float64 :=
  match lines with
  | [] => f_zero
  | line :: lines =>
      match has_prefix line key, fields line with
      | true, _ :: kb :: _ => roundGB (wrap_u64 ((parse_uint kb).1 * 1024))
      | _, _ => meminfo_gb key lines
      end
  end.

(** pkg/setup/detect.go:158-177 [detectMemoryLinux] *)
Definition detectMemoryLinux (meminfo : option string) : MemInfo :=
  match meminfo with
  | None => mkMem f_zero
  | Some s => mkMem (meminfo_gb "MemTotal:" (scan_lines s))
  end.

(** pkg/setup/detect_linux.go:77-95 [detectRAMFreeGB] *)
Definition detectRAMFreeGB (meminfo : option string) : float64 :=
  match meminfo with
  | None => f_zero
  | Some s => meminfo_gb "MemAvailable:" (scan_lines s)
  end.

(** pkg/setup/detect.go:179-193 [detectDiskLinux] *)
Definition detectDiskLinux (dir : string) (df : option string) : DiskInfo :=
  if dir =s? "" then mkDisk dir f_zero
  else match df with
       | None => mkDisk dir f_zero
       | Some out =>
           match split_byte nl (trim_space out) with
           | _ :: l :: _ => mkDisk dir (roundGB (parse_uint (trim_space l)).1)
           | _ => mkDisk dir f_zero
           end
       end.

(** pkg/setup/detect_linux.go:33-42 [FreeDiskBytes] *)
Definition FreeDiskBytes (dir : string) (statfs : option (Z * Z)) : option Z :=
  if dir =s? "" then None
  else match statfs with None => None | Some (bavail, bsize) => Some (wrap_u64 (bavail * bsize)) end.

(** The value after the colon of the first line with the prefix. *)
Fixpoint cpuinfo_value (key : string) (lines : list string) : option string :=
  match lines with
  | [] => None
  | line :: lines =>
      if has_prefix line key then
        match split_n 2 ":" line with
        | [_; v] => Some (trim_space v)
        | _ => cpuinfo_value key lines
        end
      else cpuinfo_value key lines
  end.

(** pkg/setup/detect.go:195-214 [detectCPUClockLinux] *)
Definition detectCPUClockLinux (cpuinfo : option string) : float64 :=
  match cpuinfo ≫= λ s, cpuinfo_value "cpu MHz" (scan_lines s) with
  | Some v => f_round (float_value v)
  | None => f_zero
  end.

(** pkg/setup/detect_linux.go:117-141 [detectCPUsDynamic part]: an entry of
    /sys/class/hwmon is the contents of its two files. *)
Fixpoint hwmon_temp (entries : list (option string * option string)) : Z :=
  match entries with
  | [] => -1
  | (name, temp) :: entries =>
      match name with
      | None => hwmon_temp entries
      | Some n =>
          let n := trim_space n in
          if negb (n =s? "coretemp") && negb (n =s? "k10temp") then hwmon_temp entries
          else match temp with
               | None => hwmon_temp entries
               | Some t => match atoi (trim_space t) with
                           | (v, None) => v ÷ 1000
                           | (_, Some _) => hwmon_temp entries
                           end
               end
      end
  end.

(** pkg/setup/detect_linux.go:98-144 [detectCPUsDynamic] *)
Definition detectCPUsDynamic (cpuinfo : option string) (hwmon : option (list (option string * option string)))
  : option (list CPUSpec) :=
  let name := default ""%string (cpuinfo ≫= λ s, cpuinfo_value "model name" (scan_lines s)) in
  Some [mkCPU name 0 f_zero (from_option hwmon_temp (-1) hwmon)].

(** ** Specifications *)

(** What the probes see of a Linux machine: the CPU identification library's
    answers, the run-time's CPU count, and the files and program outputs. *)
Record sensors := mkSensors {
  sn_os : string; sn_arch : string; sn_brand : string; sn_cores : Z; sn_threads : Z;
  sn_avx : bool; sn_avx2 : bool; sn_avx512 : bool;
  sn_cpuinfo : option string; sn_meminfo : option string; sn_df : option string;
  sn_hwmon : option (list (option string * option string));
  sn_smi : option string; sn_smi_static : option string; sn_smi_dynamic : option string
}.

(** pkg/setup/detect.go:88-106 [DetectSystemFull] *)
Definition DetectSystemFull (m : sensors) (modelDir : string) : FullSystemInfo :=
  mkFull (sn_os m) (sn_arch m)
    (mkCPUInfo (sn_brand m) (sn_cores m) (sn_threads m) (detectCPUClockLinux (sn_cpuinfo m))
       (sn_avx m) (sn_avx2 m) (sn_avx512 m))
    (detectMemoryLinux (sn_meminfo m)) (detectGPU (sn_smi_static m) (sn_smi m))
    (detectDiskLinux modelDir (sn_df m)).

(** pkg/setup/detect.go:477-491 [DetectHardwareStatic] *)
Definition DetectHardwareStatic (m : sensors) (modelDir : string) : HardwareSpec :=
  let full := DetectSystemFull m modelDir in
  mkHW (Some [mkCPU (ci_Name (fs_CPU full)) (ci_Cores (fs_CPU full)) (ci_ClockMHz (fs_CPU full)) 0])
    (if gi_Available (fs_GPU full) then detectGPUsStatic (sn_smi_static m) else None)
    (Some (mkRAM (mi_TotalGB (fs_Mem full)) f_zero)).

(** pkg/setup/detect.go:494-500 [DetectHardwareDynamic] *)
Definition DetectHardwareDynamic (m : sensors) : HardwareSpec :=
  mkHW (detectCPUsDynamic (sn_cpuinfo m) (sn_hwmon m)) (detectGPUsDynamic (sn_smi_dynamic m))
    (Some (mkRAM f_zero (detectRAMFreeGB (sn_meminfo m)))).
End probe.

(** ** Examples *)

Definition small_float : FloatValue := {| float_value := λ s, f_of_Z (parse_uint s).1 |}.
#[local] Existing Instance small_float.

Example gpus_of_smi :
  detectGPUsStatic (Some ("NVIDIA A10, 24564, 550.54" ++s str1 nl ++s " " ++s str1 nl ++s "T4, [N/A]" ++s str1 nl))
  = Some [mkGPU "NVIDIA A10" "550.54" (f_of_Z 24) 0 0 f_zero; mkGPU "T4" "" f_zero 0 0 f_zero].
Proof. reflexivity. Qed.

(** * pkg/setup: probing a Windows machine, and what set-up prints

    The parsers of wmic and nvidia-smi output of detect_windows.go, the system
    selection of [DetectSystem], and the progress and summary texts of setup.go
    and detect.go.  What a system call or a program answers is an argument.  The
    theorems: the device ids, and so the node's identity, do not depend on the
    order in which devices are listed; the last progress line says 100%. *)

(** ** wmic *)

(** What follows the key on the lines "key=value" of [wmic ... /value]. *)
Definition wmic_values (key out : string) : list string :=
  omap (λ line, let line := trim_space line in
          if has_prefix line key then Some (trim_prefix line key) else None) (split_byte nl out).

(** pkg/setup/detect_windows.go:85-105 [fetchCPUProcessorID] *)
Definition fetchCPUProcessorID_windows (out : option string) : string :=
  match out with
  | None => "unknown-cpu"
  | Some out =>
      let ids := omap (λ v, let id := trim_space v in if id =s? "" then None else Some id)
                   (wmic_values "ProcessorId=" out) in
      match ids with
      | [] => "unknown-cpu"
      | _ => join_str ":" (sort_by id ids)
      end
  end.

(** pkg/setup/detect_windows.go:108-128 [fetchGPUUUID]: the same text as the
    Linux build's. *)
Definition fetchGPUUUID_windows (out : option string) : string :=
  match out with
  | None => "no-gpu"
  | Some out =>
      let uuids := omap (λ line, let line := trim_space line in
                     if line =s? "" then None else Some line) (split_byte nl out) in
      match uuids with
      | [] => "no-gpu"
      | _ => join_str ":" (sort_by id uuids)
      end
  end.

(** pkg/setup/detect_windows.go:131-146 [fetchMainboardUUID] *)
Definition fetchMainboardUUID_windows (out : option string) : string :=
  match out with
  | None => ""
  | Some out =>
      default ""%string
        (head (omap (λ v, let uuid := trim_space v in
                 if negb (uuid =s? "") && negb (uuid =s? "FFFFFFFF-FFFF-FFFF-FFFF-FFFFFFFFFFFF")
                 then Some uuid else None) (wmic_values "UUID=" out)))
  end.

Section windows.
Context {FV : FloatValue}.

(** pkg/setup/detect_windows.go:22-42 [detectMemoryWindows] *)
Definition detectMemoryWindows (totalPhys : Z) : MemInfo := mkMem (roundGB totalPhys).

(** pkg/setup/detect_windows.go:149-167 [detectRAMFreeGB] *)
Definition detectRAMFreeGB_windows (availPhys : Z) : float64 := roundGB availPhys.

(** pkg/setup/detect_windows.go:44-54 [detectDisk]: a failed call leaves zero. *)
Definition detectDisk_windows (dir : string) (free : option Z) : DiskInfo :=
  if dir =s? "" then mkDisk dir f_zero else mkDisk dir (roundGB (default 0 free)).

(** pkg/setup/detect_windows.go:63-76 [FreeDiskBytes] *)
Definition FreeDiskBytes_windows (dir : string) (utf16_ok : bool) (free : option Z) : option Z :=
  if dir =s? "" then None else if negb utf16_ok then None else free.

(** pkg/setup/detect_windows.go:171-208 [detectCPUsDynamic] *)
Definition detectCPUsDynamic_windows (names temps : option string) : option (list CPUSpec) :=
  let name := default ""%string (trim_space <$> (names ≫= λ o, head (wmic_values "Name=" o))) in
  let temp v := match atoi (trim_space v) with
                | (n, None) => if 0 <? n then Some ((n - 2731) ÷ 10) else None
                | _ => None
                end in
  let tempC := default (-1) (temps ≫= λ o, head (omap temp (wmic_values "CurrentTemperature=" o))) in
  Some [mkCPU name 0 f_zero tempC].

(** pkg/setup/detect_windows.go:210-224 [detectCPUClock] *)
Definition detectCPUClock_windows (out : option string) : float64 :=
  match out ≫= λ o, head (wmic_values "MaxClockSpeed=" o) with
  | Some v => float_value (trim_space v)
  | None => f_zero
  end.
End windows.

(** pkg/setup/detect.go:69-85 [DetectSystem]: the platform, the instruction
    sets, whether nvidia-smi runs and whether the CUDA run-time loads. *)
Definition DetectSystem (os arch : string) (avx avx2 avx512 smi_runs cuda12 : bool) : SystemInfo :=
  mkSys os arch (smi_runs && cuda12) avx avx2 avx512.

(** ** Texts *)

(** pkg/setup/setup.go:494-510 [formatBytes] *)
Definition formatBytes (b : Z) : string :=
  let kb := 1024 in let mb := kb * 1024 in let gb := mb * 1024 in
  if gb <=? b then format_f1 (f_div (f_of_Z b) (f_of_Z gb)) ++s " GB"
  else if mb <=? b then format_f1 (f_div (f_of_Z b) (f_of_Z mb)) ++s " MB"
  else if kb <=? b then format_f1 (f_div (f_of_Z b) (f_of_Z kb)) ++s " KB"
  else format_int b ++s " B".

(** pkg/setup/setup.go:137-141 [progressDisplay] *)
Record progressDisplay := mkProgress { pd_written : Z; pd_total : Z; pd_lastTime : time }.

(** pkg/setup/setup.go:143-158 [progressDisplay.Write]: [n] bytes at [now]; the
    line printed, if any. *)
Definition progress_write (n : Z) (now : time) (p : progressDisplay) : progressDisplay * option string :=
  let written := wrap_i64 (pd_written p + n) in
  if (200 * millisecond <=? time_sub now (pd_lastTime p)) || (written =? pd_total p) then
    let pct := if 0 <? pd_total p then wrap_i64 (written * 100) ÷ pd_total p else 0 in
    (mkProgress written (pd_total p) now,
     Some (str1 (ch 13) ++s "[setup] " ++s formatBytes written ++s " / " ++s formatBytes (pd_total p)
           ++s " (" ++s format_int pct ++s "%)"))
  else (mkProgress written (pd_total p) (pd_lastTime p), None).

(** pkg/setup/detect.go:579-595 [LogSystemInfo]: the line logged. *)
Definition LogSystemInfo (sys : SystemInfo) : string :=
  let gpu := if HasCUDA sys then "NVIDIA (CUDA)" else "none" in
  let cpu := if HasAVX512 sys then "AVX512" else if HasAVX2 sys then "AVX2" else if HasAVX sys then "AVX" else "noavx" in
  "[setup] Detected: " ++s sys_OS sys ++s " " ++s sys_Arch sys ++s ", GPU: " ++s gpu ++s ", CPU: " ++s cpu.

(** pkg/setup/detect.go:598-605 [FormatSystemSummary] *)
Definition FormatSystemSummary (info : FullSystemInfo) : string :=
  let g := fs_GPU info in
  let gpu := if gi_Available g then gi_Name g ++s " (" ++s format_f1 (gi_VRAMGB g) ++s " GB)" else "none" in
  "CPU: " ++s ci_Name (fs_CPU info) ++s " (" ++s format_int (ci_Cores (fs_CPU info)) ++s " cores), RAM: "
  ++s format_f1 (mi_TotalGB (fs_Mem info)) ++s " GB, GPU: " ++s gpu ++s ", Disk free: "
  ++s format_f1 (di_FreeGB (fs_Disk info)) ++s " GB".

(** ** Theorems *)

#[export] Instance omap_perm {A B} (f : A → option B) : Proper ((≡ₚ) ==> (≡ₚ)) (omap f).
Proof.
  intros l l' H. induction H as [|x l l' _ IH|x y l|l l' l'' _ IH1 _ IH2]; simpl; [done|..].
  - destruct (f x); by rewrite ?IH.
  - destruct (f x), (f y); try done. apply Permutation_swap.
  - by rewrite IH1.
Qed.

(** A non-empty list of ids is printed sorted, an empty one by a default. *)
Lemma joined_ids_perm (l l' : list string) d : l ≡ₚ l' →
  match l with [] => d | _ => join_str ":" (sort_by id l) end
  = match l' with [] => d | _ => join_str ":" (sort_by id l') end.
Proof.
  intros H. destruct l as [|x l].
  - apply Permutation_nil in H. by rewrite H.
  - destruct l' as [|y l']; [by apply Permutation_sym, Permutation_nil in H|]. by rewrite H.
Qed.

(** The device ids do not depend on the order in which the tools list the
    devices, devices with equal ids included, on either platform. *)
Theorem device_ids_order_free out out' :
  split_byte nl out ≡ₚ split_byte nl out' →
  fetchCPUProcessorID (Some out) = fetchCPUProcessorID (Some out') ∧
  fetchCPUProcessorID_windows (Some out) = fetchCPUProcessorID_windows (Some out') ∧
  fetchGPUUUID (Some out) = fetchGPUUUID (Some out') ∧
  fetchGPUUUID_windows (Some out) = fetchGPUUUID_windows (Some out').
Proof.
  intros H. unfold fetchCPUProcessorID, fetchCPUProcessorID_windows, fetchGPUUUID, fetchGPUUUID_windows, wmic_values.
  split_and!; apply joined_ids_perm; by rewrite H.
Qed.

(** So the node keeps its identity when nvidia-smi enumerates the cards in
    another order, with or without a TPM. *)
Theorem identity_enumeration_free {S256 : Sha256} {E : EthCrypto} {K : KeyDerivation} board tpm out out' :
  split_byte nl out ≡ₚ split_byte nl out' →
  DeriveNodeIdentity board tpm (fetchGPUUUID (Some out)) = DeriveNodeIdentity board tpm (fetchGPUUUID (Some out')).
Proof.
  intros H. unfold fetchGPUUUID. f_equal. apply joined_ids_perm. by rewrite H.
Qed.

(** The write that completes a download prints a line, and it says 100%. *)
Theorem progress_completes n now p :
  0 < pd_total p → pd_total p * 100 ≤ max_i64 → pd_written p + n = pd_total p →
  progress_write n now p =
  (mkProgress (pd_total p) (pd_total p) now,
   Some (str1 (ch 13) ++s "[setup] " ++s formatBytes (pd_total p) ++s " / " ++s formatBytes (pd_total p) ++s " (100%)")).
Proof.
  intros H0 H1 H2. unfold progress_write. rewrite H2.
  rewrite (wrap_i64_id (pd_total p)) by (unfold in_i64, min_i64, max_i64 in *; lia).
  rewrite Z.eqb_refl, orb_true_r, (proj2 (Z.ltb_lt _ _) H0).
  rewrite wrap_i64_id by (unfold in_i64, min_i64, max_i64 in *; lia).
  by rewrite Z.mul_comm, Z.quot_mul by lia.
Qed.

(** ** Examples *)

Example wmic_cpus :
  fetchCPUProcessorID_windows (Some (str1 nl ++s "ProcessorId=B2 " ++s str1 (ch 13) ++s str1 nl ++s "ProcessorId=A1")%string)
  = "A1:B2"%string.
Proof. vm_compute. reflexivity. Qed.
Example bytes_mb : formatBytes 1572864 = "1.5 MB"%string.
Proof. vm_compute. reflexivity. Qed.
Example celsius :
  detectCPUsDynamic_windows None (Some "CurrentTemperature=3132"%string) = Some [mkCPU "" 0 f_zero 40].
Proof. vm_compute. reflexivity. Qed.
