(* ===== verification/Prereq.v ===== *)
(** * pkg/setup: the operating-system prerequisites of a node

    prereq.go with both detectors: prereq_other.go, and prereq_windows.go,
    whose probe programs run inside WSL.  [wsl args] is the output of [wsl.exe]
    and whether it succeeded; running [-e] in a stopped distribution boots it. *)

From S2P Require Import Prelude GoStrings GoStringsFacts Strconv Hardware GoAny NodeIdentity Probe.
From Stdlib Require Import ZArith Lia ZifyBool Bool Ascii String SpecFloat.
From stdpp Require Import base option list strings.

Open Scope go_scope.

(** pkg/setup/prereq.go:24-24 [PrereqState] *)
Inductive PrereqState := PrereqOK | PrereqMissing | PrereqNA | PrereqUnknown.
#[export] Instance PrereqState_eq_dec : EqDecision PrereqState.
Proof. solve_decision. Defined.

(** pkg/setup/prereq.go:34-40 [PrereqWSL2] *)
Definition PrereqWSL2 : string := "WSL2".
Definition PrereqDistro : string := "Linux distro".
Definition PrereqDocker : string := "Docker Engine".
Definition PrereqToolkit : string := "nvidia-container-toolkit".
Definition PrereqDriver : string := "NVIDIA driver".

(** pkg/setup/prereq.go:43-48 [PrereqComponent] *)
Record PrereqComponent := mkComp {
  pc_Name : string; pc_Status : PrereqState; pc_Detail : string; pc_AutoFix : bool
}.
(** pkg/setup/prereq.go:61-65 [DesktopInfo] *)
Record DesktopInfo := mkDesk { dk_Installed : bool; dk_Running : bool; dk_SocketConflict : bool }.
(** pkg/setup/prereq.go:51-56 [PrereqStatus] *)
Record PrereqStatus := mkPS {
  ps_OS : string; ps_Components : list PrereqComponent; ps_DockerReady : bool; ps_Desktop : option DesktopInfo
}.

(** pkg/setup/prereq.go:79-87 [newPrereqStatus] *)
Definition newPrereqStatus (osName : string) (comps : list PrereqComponent) : PrereqStatus :=
  mkPS osName comps
    (existsb (λ c, (pc_Name c =s? PrereqDocker) && bool_decide (pc_Status c = PrereqOK)) comps) None.

(** pkg/setup/prereq.go:69-74 [DetectPrereqs] *)
Definition DetectPrereqs (goos : string) (detected : list PrereqComponent * option DesktopInfo) : PrereqStatus :=
  let '(comps, desktop) := detected in
  let st := newPrereqStatus goos comps in
  mkPS (ps_OS st) (ps_Components st) (ps_DockerReady st) desktop.

Section status.
Context {U : GoUnicode}.

(** pkg/setup/prereq.go:97-108 [PrereqStatus.WSLDistro] *)
Definition WSLDistro (s : PrereqStatus) : string :=
  match find (λ c, (pc_Name c =s? PrereqDistro) && bool_decide (pc_Status c = PrereqOK)) (ps_Components s) with
  | None => ""
  | Some c =>
      let name := match index_byte (pc_Detail c) "," with
                  | Some i => take_str i (pc_Detail c)
                  | None => pc_Detail c
                  end in
      trim_space name
  end.

(** pkg/setup/prereq.go:112-120 [PrereqStatus.MissingAutoFix] *)
Definition MissingAutoFix (s : PrereqStatus) : list string :=
  omap (λ c, if pc_AutoFix c && bool_decide (pc_Status c = PrereqMissing) then Some (pc_Name c) else None)
    (ps_Components s).

(** pkg/setup/prereq.go:125-144 [driverComponent] *)
Definition driverComponent (gpu : GPUInfo) : PrereqComponent :=
  if negb (gi_Available gpu) then
    mkComp PrereqDriver PrereqMissing
      "nvidia-smi not found - install driver manually for GPU nodes (ignore on CPU-only nodes)" false
  else
    let detail :=
      if gi_DriverVersion gpu =s? "" then gi_Name gpu
      else gi_Name gpu ++s " (driver " ++s gi_DriverVersion gpu ++s
           (if gi_CUDAVersion gpu =s? "" then "" else ", CUDA " ++s gi_CUDAVersion gpu) ++s ")" in
    mkComp PrereqDriver PrereqOK detail false.

(** ** Linux and macOS *)

(** pkg/setup/prereq_other.go:70-78 [dockerServerVersion] *)
Definition dockerServerVersion (out : option string) : string :=
  match out with None => "" | Some o => trim_space o end.

(** pkg/setup/prereq_other.go:82-95 [nvidiaContainerToolkitPresent] *)
Definition nvidiaContainerToolkitPresent (in_path : bool) (exists_file : string → bool) : bool :=
  in_path || existsb exists_file
    ["/usr/bin/nvidia-container-runtime"; "/usr/local/bin/nvidia-container-runtime"]%string.

(** pkg/setup/prereq_other.go:20-61 [detectPrereqs] *)
Definition detectPrereqs_other (docker_in_path : bool) (docker_version : option string)
  (toolkit_in_path : bool) (exists_file : string → bool) (gpu : GPUInfo)
  : list PrereqComponent * option DesktopInfo :=
  let docker :=
    if negb docker_in_path then mkComp PrereqDocker PrereqMissing "docker not installed" true
    else let v := dockerServerVersion docker_version in
         if negb (v =s? "") then mkComp PrereqDocker PrereqOK ("engine " ++s v) true
         else mkComp PrereqDocker PrereqMissing
                "docker installed, daemon not running (systemctl start docker)" true in
  let toolkit :=
    if nvidiaContainerToolkitPresent toolkit_in_path exists_file
    then mkComp PrereqToolkit PrereqOK "nvidia-container-runtime present" true
    else mkComp PrereqToolkit PrereqMissing "for GPU containers (optional on CPU-only nodes)" true in
  ([mkComp PrereqWSL2 PrereqNA "Windows only" false; mkComp PrereqDistro PrereqNA "Windows only" false;
    docker; toolkit; driverComponent gpu], None).

(** ** Windows *)

(** pkg/setup/prereq_windows.go:341-343 [stripBOM] *)
Definition bom : string := str1 (ch 239) ++s str1 (ch 187) ++s str1 (ch 191).
Definition stripBOM (s : string) : string := trim_prefix s bom.

(** pkg/setup/prereq_windows.go:204-207 [wslDistro] *)
Record wslDistro := mkWD { wd_Name : string; wd_Running : bool }.

(** pkg/setup/prereq_windows.go:218-239 [wslDistros part]: one line. *)
Definition distro_line (line : string) : option wslDistro :=
  match fields (trim_space line) with
  | [] => None
  | f :: fs =>
      match (if f =s? "*" then fs else f :: fs) with
      | [] => None
      | n :: rest =>
          if equal_fold n "NAME" then None
          else Some (mkWD n (existsb (λ tok, equal_fold tok "Running") rest))
      end
  end.

(** pkg/setup/prereq_windows.go:211-242 [wslDistros] *)
Definition wslDistros (out : string * bool) : list wslDistro :=
  let '(out, ok) := out in
  if negb ok then [] else omap distro_line (split_byte nl (stripBOM out)).

(** pkg/setup/prereq_windows.go:247-253 [isDockerDesktopDistro] *)
Definition isDockerDesktopDistro (name : string) : bool :=
  let n := to_lower (trim_space name) in (n =s? "docker-desktop") || (n =s? "docker-desktop-data").

(** pkg/setup/prereq_windows.go:260-267 [DockerDesktopRunning] *)
Definition DockerDesktopRunning (listing : string * bool) : bool :=
  existsb (λ d, isDockerDesktopDistro (wd_Name d) && wd_Running d) (wslDistros listing).

(** pkg/setup/prereq_windows.go:273-280 [wslNativeDockerArgs] *)
Definition wslNativeDockerArgs (distro : string) (dockerArgs : list string) : list string :=
  (if negb (distro =s? "") then ["-d"%string; distro] else []) ++
  ["-e"; "/usr/bin/docker"; "-H"; "unix:///var/run/docker.sock"]%string ++ dockerArgs.

(** What a probe program said, and with which arguments it was asked. *)
Context (wsl : list string → string * bool) (wsl_in_path : bool).

(** pkg/setup/prereq_windows.go:190-201 [wslFeaturePresent] *)
Definition wslFeaturePresent : bool :=
  if negb wsl_in_path then false
  else let '(out, ok) := wsl ["--status"]%string in
       if negb ok then negb (trim_space (stripBOM out) =s? "") else true.

Definition docker_info_args (distro : string) : list string :=
  wslNativeDockerArgs distro ["info"; "--format"; "{{.ServerVersion}}|{{.OperatingSystem}}|{{.Name}}"]%string.

(** pkg/setup/prereq_windows.go:287-308 [dockerDaemonInWSL] *)
Definition dockerDaemonInWSL (distro : string) : string * bool :=
  let '(out, ok) := wsl (docker_info_args distro) in
  if negb ok then (""%string, false)
  else
    let line := trim_space (stripBOM out) in
    if line =s? "" then (""%string, false)
    else
      let parts := split_n 3 "|" line in
      let version := trim_space (default ""%string (parts !! 0%nat)) in
      let id := default ""%string (parts !! 1%nat) ++s
                match parts !! 2%nat with Some n => " " ++s n | None => "" end in
      let id := to_lower id in
      (version, contains_str id "docker desktop" || contains_str id "docker-desktop").

Definition toolkit_args (distro : string) : list string :=
  (if negb (distro =s? "") then ["-d"%string; distro] else []) ++
  ["-e"; "sh"; "-c"; "command -v nvidia-container-runtime || true"]%string.

(** pkg/setup/prereq_windows.go:327-338 [toolkitInWSL] *)
Definition toolkitInWSL (distro : string) : bool :=
  let '(out, ok) := wsl (toolkit_args distro) in
  if negb ok then false else negb (trim_space (stripBOM out) =s? "").

(** pkg/setup/prereq_windows.go:313-324 [dockerDesktopInstalledExe] *)
Definition dockerDesktopInstalledExe (getenv : string → string) (exists_file : string → bool) : bool :=
  existsb (λ env, let root := getenv env in
             negb (root =s? "") && exists_file (root ++s "\Docker\Docker\Docker Desktop.exe"))
    ["ProgramFiles"; "ProgramW6432"; "ProgramFiles(x86)"]%string.

(** pkg/setup/prereq_windows.go:77-95 [detectPrereqs part]: the names of the
    distributions that are not Docker Desktop's, and the first of them. *)
Definition real_distros (all : list wslDistro) : list wslDistro :=
  filter (λ d, isDockerDesktopDistro (wd_Name d) = false) all.

(** pkg/setup/prereq_windows.go:91-94 [detectPrereqs part]: the first real
    distribution with a name. *)
Definition target (all : list wslDistro) : option wslDistro :=
  find (λ d, negb (wd_Name d =s? "")) (real_distros all).

(** pkg/setup/prereq_windows.go:67-185 [detectPrereqs]; [desktop_exe] is
    [dockerDesktopInstalledExe]. *)
Definition detectPrereqs_windows (desktop_exe : bool) (gpu : GPUInfo)
  : list PrereqComponent * option DesktopInfo :=
  let wslPresent := wslFeaturePresent in
  let all := wslDistros (wsl ["-l"; "-v"]%string) in
  let desktop := filter (λ d, isDockerDesktopDistro (wd_Name d) = true) all in
  let names := map wd_Name (real_distros all) in
  let '(targetDistro, targetRunning) :=
    match target all with Some d => (wd_Name d, wd_Running d) | None => (""%string, false) end in
  let wslComp :=
    if wslPresent then mkComp PrereqWSL2 PrereqOK "available" true
    else mkComp PrereqWSL2 PrereqMissing "run 'wsl --install' (reboot required on first enable)" true in
  let distro :=
    match names with
    | _ :: _ => mkComp PrereqDistro PrereqOK (join_str ", " names) true
    | [] => if negb wslPresent then mkComp PrereqDistro PrereqUnknown "WSL required first" true
            else mkComp PrereqDistro PrereqMissing
                   "Ubuntu-22.04 not installed (wsl --install -d Ubuntu-22.04)" true
    end in
  let '(docker, conflict) :=
    if negb wslPresent || (targetDistro =s? "") then
      (mkComp PrereqDocker PrereqUnknown "needs WSL/distro first" true, false)
    else if negb targetRunning then
      (mkComp PrereqDocker PrereqUnknown "WSL stopped - run 'isann docker warmup' then re-check" true, false)
    else
      let '(ver, isDesktop) := dockerDaemonInWSL targetDistro in
      if isDesktop then
        (mkComp PrereqDocker PrereqMissing
           "native docker-ce not ready - /var/run/docker.sock served by Docker Desktop" true, true)
      else if negb (ver =s? "") then (mkComp PrereqDocker PrereqOK ("engine " ++s ver ++s " (WSL)") true, false)
      else (mkComp PrereqDocker PrereqMissing "docker not installed/running in WSL" true, false) in
  let toolkit :=
    if negb wslPresent || (targetDistro =s? "") then
      mkComp PrereqToolkit PrereqUnknown "needs WSL/distro first" true
    else if negb targetRunning then
      mkComp PrereqToolkit PrereqUnknown "WSL stopped - warmup then re-check" true
    else if toolkitInWSL targetDistro then
      mkComp PrereqToolkit PrereqOK "nvidia-container-runtime present (WSL)" true
    else mkComp PrereqToolkit PrereqMissing "for GPU containers (optional on CPU-only nodes)" true in
  ([wslComp; distro; docker; toolkit; driverComponent gpu],
   Some (mkDesk (desktop_exe || negb (bool_decide (desktop = []))) (existsb wd_Running desktop) conflict)).
End status.

(** ** What the detector promises *)

Section promises.
Context {U : GoUnicode}.

Lemma target_real all d : target all = Some d → d ∈ all ∧ isDockerDesktopDistro (wd_Name d) = false ∧ wd_Name d ≠ ""%string.
Proof.
  unfold target, real_distros. intros [Hin Hne]%find_some. apply list_elem_of_In, list_elem_of_filter in Hin as [Hd Hin].
  split_and!; [done|done|]. by apply negb_true_iff, String.eqb_neq in Hne.
Qed.

(** Detection never wakes WSL: apart from the status and the listing, which
    do not boot anything, the verdict depends only on what is run inside
    distributions the listing shows running, and never inside Docker Desktop's. *)
Theorem detect_never_boots wsl wsl' in_path exe gpu :
  wsl ["--status"]%string = wsl' ["--status"]%string →
  wsl ["-l"; "-v"]%string = wsl' ["-l"; "-v"]%string →
  (∀ d, d ∈ wslDistros (wsl ["-l"; "-v"]%string) → wd_Running d = true →
    isDockerDesktopDistro (wd_Name d) = false →
    wsl (docker_info_args (wd_Name d)) = wsl' (docker_info_args (wd_Name d)) ∧
    wsl (toolkit_args (wd_Name d)) = wsl' (toolkit_args (wd_Name d))) →
  detectPrereqs_windows wsl in_path exe gpu = detectPrereqs_windows wsl' in_path exe gpu.
Proof.
  intros Hs Hl Hrun. unfold detectPrereqs_windows, wslFeaturePresent. rewrite <-Hs, <-Hl.
  set (all := wslDistros (wsl ["-l"; "-v"]%string)) in *.
  destruct (target all) as [d|] eqn:Et; [|done].
  destruct (target_real all d Et) as (Hin & Hnd & _). destruct (wd_Running d) eqn:Er; [|done].
  destruct (Hrun d Hin Er Hnd) as [H1 H2]. unfold dockerDaemonInWSL, toolkitInWSL. by rewrite H1, H2.
Qed.

(** The bottom line on Windows: docker is ready exactly when WSL is present
    and, in the first distribution that is not Docker Desktop's, already
    running, the native daemon answers with a version and is not Docker Desktop. *)
Theorem docker_ready_windows wsl in_path exe gpu goos :
  ps_DockerReady (DetectPrereqs goos (detectPrereqs_windows wsl in_path exe gpu)) = true ↔
  wslFeaturePresent wsl in_path = true ∧
  ∃ d, target (wslDistros (wsl ["-l"; "-v"]%string)) = Some d ∧ wd_Running d = true ∧
    (dockerDaemonInWSL wsl (wd_Name d)).1 ≠ ""%string ∧ (dockerDaemonInWSL wsl (wd_Name d)).2 = false.
Proof.
  unfold detectPrereqs_windows. set (all := wslDistros _).
  assert (∀ p w dk c t o, pc_Name w = PrereqWSL2 → pc_Name dk = PrereqDistro → pc_Name c = PrereqDocker →
    pc_Name t = PrereqToolkit →
    ps_DockerReady (DetectPrereqs goos ([w; dk; c; t; driverComponent p], o)) =
    bool_decide (pc_Status c = PrereqOK)) as Hready.
  { intros p w dk c t o Hw Hd Hc Ht. unfold DetectPrereqs, newPrereqStatus. cbn [ps_DockerReady existsb].
    rewrite Hw, Hd, Hc, Ht. change (pc_Name (driverComponent p)) with (pc_Name (driverComponent p)).
    assert (pc_Name (driverComponent p) = PrereqDriver) as -> by (unfold driverComponent; by case_if).
    cbn. by rewrite orb_false_r. }
  destruct (wslFeaturePresent wsl in_path) eqn:Ew; cbn [negb orb].
  2: { destruct (target all); rewrite Hready by (done || by destruct (map _ _)); by split; [|intros [? _]]. }
  destruct (target all) as [d|] eqn:Et.
  2: { cbn [String.eqb]. rewrite Hready by (done || by destruct (map _ _)).
       by split; [|intros (_ & d & ? & _)]. }
  destruct (target_real all d Et) as (_ & _ & Hne). apply String.eqb_neq in Hne. rewrite Hne.
  destruct (wd_Running d) eqn:Er; cbn [negb].
  2: { rewrite Hready by (done || by destruct (map _ _)).
       split; [done|]. intros (_ & d0 & [= <-] & Hr & _). by rewrite Er in Hr. }
  destruct (dockerDaemonInWSL wsl (wd_Name d)) as [ver isD] eqn:Ed.
  assert (∀ b : bool, (b = true ↔ ver ≠ ""%string ∧ isD = false) → (b = true ↔ true = true ∧ ∃ d0, Some d = Some d0 ∧
    wd_Running d0 = true ∧ (dockerDaemonInWSL wsl (wd_Name d0)).1 ≠ ""%string ∧
    (dockerDaemonInWSL wsl (wd_Name d0)).2 = false)) as Hgoal.
  { intros b ->. split.
    - intros [H1 H2]. split; [done|]. exists d. by rewrite Ed.
    - intros (_ & d0 & [= <-] & _ & H1 & H2). by rewrite Ed in H1, H2. }
  apply Hgoal. destruct isD.
  { rewrite Hready by (done || (by destruct (map _ _)) || by destruct (toolkitInWSL _ _)). by split; [|intros [_ ?]]. }
  destruct (String.eqb_spec ver ""); cbn [negb];
    (rewrite Hready by (done || (by destruct (map _ _)) || by destruct (toolkitInWSL _ _))).
  - by split; [|intros [? _]].
  - by split.
Qed.

(** The distribution handed to the installer is the one that was probed:
    never one of Docker Desktop's. *)
Theorem wsl_distro_is_target wsl in_path exe gpu goos :
  let all := wslDistros (wsl ["-l"; "-v"]%string) in
  Forall (λ d, contains_byte "," (wd_Name d) = false ∧ trim_space (wd_Name d) = wd_Name d ∧ wd_Name d ≠ ""%string) all →
  WSLDistro (DetectPrereqs goos (detectPrereqs_windows wsl in_path exe gpu)) =
  from_option wd_Name ""%string (target all).
Proof.
  cbn zeta. unfold detectPrereqs_windows. set (all := wslDistros _). intros Hall.
  assert (Forall (λ d, contains_byte "," (wd_Name d) = false ∧ trim_space (wd_Name d) = wd_Name d ∧
                       wd_Name d ≠ ""%string) (real_distros all)) as Hreal.
  { apply Forall_forall. intros d [_ Hd]%list_elem_of_filter. rewrite Forall_forall in Hall. by apply Hall. }
  unfold target in *. set (p := find _ _).
  assert (p = head (real_distros all)) as Hp.
  { subst p. destruct (real_distros all) as [|d l]; [done|]. apply Forall_cons in Hreal as [(_ & _ & Hne) _].
    cbn. by rewrite (proj2 (String.eqb_neq _ _) Hne). }
  rewrite Hp. clear p Hp.
  assert (∀ p w dk c t o, pc_Name w = PrereqWSL2 → pc_Name c = PrereqDocker → pc_Name t = PrereqToolkit →
    WSLDistro (DetectPrereqs goos ([w; dk; c; t; driverComponent p], o)) =
    if (pc_Name dk =s? PrereqDistro) && bool_decide (pc_Status dk = PrereqOK) then
      trim_space (match index_byte (pc_Detail dk) "," with Some i => take_str i (pc_Detail dk) | None => pc_Detail dk end)
    else ""%string) as Hw.
  { intros p w dk c t o Hw Hc Ht. unfold WSLDistro, DetectPrereqs, newPrereqStatus. cbn [ps_Components find].
    rewrite Hw, Hc, Ht.
    assert (pc_Name (driverComponent p) = PrereqDriver) as -> by (unfold driverComponent; by case_if).
    cbn [String.eqb Ascii.eqb Bool.eqb andb PrereqWSL2 PrereqDocker PrereqToolkit PrereqDriver PrereqDistro].
    by destruct ((pc_Name dk =s? _) && _). }
  destruct (real_distros all) as [|d l] eqn:El; cbn [head map].
  - destruct (wslFeaturePresent wsl in_path); cbn [negb orb String.eqb]; by rewrite Hw.
  - apply Forall_cons in Hreal as [(Hc & Ht & Hne) _]. cbn [from_option].
    destruct (if negb _ || _ then _ else _) as [docker conflict] eqn:Ed.
    assert (pc_Name docker = PrereqDocker) as Hd.
    { revert Ed. repeat case_match; intros; simplify_eq; done. }
    rewrite Hw; [|by destruct (wslFeaturePresent _ _)|done|by repeat case_match].
    cbn [pc_Name pc_Status pc_Detail]. change ((PrereqDistro =s? PrereqDistro) && _) with true. cbn iota.
    destruct l as [|d' l]; cbn [join_str map].
    + by rewrite (proj2 (index_byte_None _ _) Hc).
    + change (", " ++s ?x) with (String "," (" " ++s x)). rewrite index_byte_app, take_str_app by done. done.
Qed.
End promises.

(** ** Witnesses *)

#[local] Existing Instance ascii_tables.

Definition listing : string :=
  "  NAME STATE VERSION" ++s str1 nl ++s "* docker-desktop Running 2" ++s str1 nl ++s "  Ubuntu-20.04 Stopped 2".
Definition a_wsl (inside : string) (args : list string) : string * bool :=
  if bool_decide (args = ["--status"]%string) then (""%string, true)
  else if bool_decide (args = ["-l"; "-v"]%string) then (listing, true)
  else (inside, true).
Definition no_gpu : GPUInfo := mkGPUInfo false "" f_zero false "" "".

Example detect_never_boots_witness :
  detectPrereqs_windows (a_wsl "27.0|Ubuntu|host") true false no_gpu =
  detectPrereqs_windows (a_wsl "") true false no_gpu.
Proof.
  apply detect_never_boots; [done|done|]. intros d Hd Hr Hn. exfalso. revert Hd Hr Hn.
  vm_compute (wslDistros _). intros Hd. repeat (apply elem_of_cons in Hd as [->|Hd]; [by vm_compute|]).
  by apply elem_of_nil in Hd.
Defined.

Example wsl_distro_is_target_witness :
  WSLDistro (DetectPrereqs "windows" (detectPrereqs_windows (a_wsl "") true false no_gpu)) = "Ubuntu-20.04"%string.
Proof.
  refine (wsl_distro_is_target (a_wsl "") true false no_gpu "windows" _).
  vm_compute (wslDistros _). repeat constructor; done.
Defined.
