(* ===== verification/NodeConfig.v ===== *)
(** * pkg/tunnel: a node's configuration

    config.go, runtime.go and base.go over the file system of HostFS.v: the
    anchor file, path resolution, the gateway addresses, auth.json, the runtime
    overlay and the start-up of [Base].  JSON is a class. *)

From S2P Require Import Prelude GoStrings GoStringsFacts GoPath HostFS Strconv Auth Tunnel GoTime NodeIdentity.
From Stdlib Require Import ZArith Lia ZifyBool Bool Ascii String.
From stdpp Require Import base option list gmap strings.

Open Scope go_scope.

(** ** Data *)

(** pkg/tunnel/config.go:27-33 [IannConfigPath] *)
Record IannConfigPath := mkIannPath {
  ip_Conf : string; ip_Packages : string; ip_Models : string; ip_Outputs : string; ip_Logs : string
}.
(** pkg/tunnel/config.go:21-25 [IannConfig] *)
Record IannConfig := mkIann { ic_Version : string; ic_InstanceID : string; ic_Paths : IannConfigPath }.

(** pkg/tunnel/config.go:102-105 [DBConfig] *)
Record DBConfig := mkDB { db_Driver : string; db_DSN : string }.
(** pkg/tunnel/config.go:111-114 [QueueConfig] *)
Record QueueConfig := mkQueue { q_OutputDir : string; q_OutputTTLSec : Z }.
(** pkg/tunnel/config.go:130-134 [TimeoutConfig] *)
Record TimeoutConfig := mkTimeout { to_ProviderSec : Z; to_ConnectSec : Z; to_StaleDetectSec : Z }.
(** pkg/tunnel/config.go:165-169 [TLSConfig] *)
Record TLSConfig := mkTLS { tls_Enabled : bool; tls_Cert : string; tls_Key : string }.
(** pkg/tunnel/config.go:175-197 [OutboundGatewayConfig] *)
Record OutboundGatewayConfig := mkGateway {
  gw_NodeBridgeAddr : string; gw_RVControlAddr : string; gw_RendezvousAddr : string; gw_GateAddr : string
}.
(** pkg/tunnel/config.go:297-305 [AuthConfig] *)
Record AuthConfig := mkAuthCfg {
  ac_Mode : string; ac_Owner : string; ac_Issuer : string; ac_Admins : list string;
  ac_Users : list string; ac_RevokedGrants : list string; ac_ConfigFile : string
}.
(** pkg/glog/glog.go:24-30 [Config] *)
Record LogConfig := mkLogCfg {
  lc_Output : string; lc_File : string; lc_Rotate : string; lc_MaxFiles : Z; lc_Categories : list string
}.
(** pkg/setup/detect.go:315-321 [QueueOverride] *)
Record QueueOverride := mkQO {
  qo_MaxQueue : Z; qo_Concurrency : Z; qo_MaxDone : Z; qo_TTLSec : Z; qo_SaveToDisk : option bool
}.
(** pkg/setup/detect.go:291-308 [ServiceEntry] *)
Record ServiceEntry := mkSE {
  se_Name : string; se_Addr : string; se_Type : string; se_Engine : string; se_Enable : option bool;
  se_Options : option (gmap string string); se_Queue : option QueueOverride
}.

(** The card maps: card id to [Enabled]; [None] is the nil map. *)
Abbreviation card_map := (option (gmap string bool)).

(** pkg/tunnel/config.go:364-397 [Config] *)
Record Config := mkCfg {
  c_Mode : string; c_ListenAddr : string; c_OutboundGateway : OutboundGatewayConfig; c_TLS : TLSConfig;
  c_Queue : QueueConfig; c_Timeout : TimeoutConfig; c_Services : list ServiceEntry; c_InstallerAddr : string;
  c_DB : DBConfig; c_WebDir : string; c_ExposeHardwareInfo : bool; c_HomeDir : string; c_Emblem : string;
  c_ExternalAddr : string; c_Log : LogConfig; c_Cards : card_map; c_APIFeatures : card_map; c_ConfigFile : string
}.

(** pkg/tunnel/runtime.go:14-17 [RuntimeOverride] *)
Record RuntimeOverride := mkRuntime { rt_Cards : card_map; rt_APIFeatures : card_map }.

(** Functional updates of the fields the code assigns. *)
Definition with_mode (m : string) (c : Config) : Config :=
  mkCfg m (c_ListenAddr c) (c_OutboundGateway c) (c_TLS c) (c_Queue c) (c_Timeout c) (c_Services c)
    (c_InstallerAddr c) (c_DB c) (c_WebDir c) (c_ExposeHardwareInfo c) (c_HomeDir c) (c_Emblem c)
    (c_ExternalAddr c) (c_Log c) (c_Cards c) (c_APIFeatures c) (c_ConfigFile c).
Definition with_net (l : string) (g : OutboundGatewayConfig) (t : TLSConfig) (c : Config) : Config :=
  mkCfg (c_Mode c) l g t (c_Queue c) (c_Timeout c) (c_Services c)
    (c_InstallerAddr c) (c_DB c) (c_WebDir c) (c_ExposeHardwareInfo c) (c_HomeDir c) (c_Emblem c)
    (c_ExternalAddr c) (c_Log c) (c_Cards c) (c_APIFeatures c) (c_ConfigFile c).
Definition with_emblem (e : string) (c : Config) : Config :=
  mkCfg (c_Mode c) (c_ListenAddr c) (c_OutboundGateway c) (c_TLS c) (c_Queue c) (c_Timeout c) (c_Services c)
    (c_InstallerAddr c) (c_DB c) (c_WebDir c) (c_ExposeHardwareInfo c) (c_HomeDir c) e
    (c_ExternalAddr c) (c_Log c) (c_Cards c) (c_APIFeatures c) (c_ConfigFile c).
Definition with_cards (cards api : card_map) (c : Config) : Config :=
  mkCfg (c_Mode c) (c_ListenAddr c) (c_OutboundGateway c) (c_TLS c) (c_Queue c) (c_Timeout c) (c_Services c)
    (c_InstallerAddr c) (c_DB c) (c_WebDir c) (c_ExposeHardwareInfo c) (c_HomeDir c) (c_Emblem c)
    (c_ExternalAddr c) (c_Log c) cards api (c_ConfigFile c).
Definition with_file (f : string) (c : Config) : Config :=
  mkCfg (c_Mode c) (c_ListenAddr c) (c_OutboundGateway c) (c_TLS c) (c_Queue c) (c_Timeout c) (c_Services c)
    (c_InstallerAddr c) (c_DB c) (c_WebDir c) (c_ExposeHardwareInfo c) (c_HomeDir c) (c_Emblem c)
    (c_ExternalAddr c) (c_Log c) (c_Cards c) (c_APIFeatures c) f.
Definition auth_with (mode file : string) (a : AuthConfig) : AuthConfig :=
  mkAuthCfg mode (ac_Owner a) (ac_Issuer a) (ac_Admins a) (ac_Users a) (ac_RevokedGrants a) file.

(** [encoding/json] on the files of a node; [ConfigFile] is not a JSON field. *)
Class ConfigJSON := {
  cfg_enc : Config → string; cfg_dec : string → option Config;
  auth_enc : AuthConfig → string; auth_dec : string → option AuthConfig;
  rt_enc : RuntimeOverride → string; rt_dec : string → option RuntimeOverride;
  iann_dec : string → option IannConfig
}.

(** ** Plain settings *)

(** pkg/setup/detect.go:326-328 [ServiceEntry.IsManagedLocally] *)
Definition IsManagedLocally (s : ServiceEntry) : bool := (se_Type s =s? "") || (se_Type s =s? "local").
(** pkg/setup/detect.go:332-334 [ServiceEntry.IsEnabled] *)
Definition IsEnabled (s : ServiceEntry) : bool := match se_Enable s with None => true | Some b => b end.

(** pkg/tunnel/config.go:90-99 [NormalizeMode] *)
Definition NormalizeMode (m : string) : string :=
  if (m =s? "client") || (m =s? "broker") then "control"
  else if (m =s? "server") || (m =s? "provider") then "station"
  else m.

(** pkg/tunnel/config.go:137-142 [TimeoutConfig.Provider] *)
Definition Provider_timeout (t : TimeoutConfig) : Z :=
  if (to_ProviderSec t <=? 0)%Z then 180 * second else wrap_i64 (to_ProviderSec t * second).
(** pkg/tunnel/config.go:145-150 [TimeoutConfig.Connect] *)
Definition Connect_timeout (t : TimeoutConfig) : Z :=
  if (to_ConnectSec t <=? 0)%Z then 20 * second else wrap_i64 (to_ConnectSec t * second).
(** pkg/tunnel/config.go:154-162 [TimeoutConfig.StaleDetect] *)
Definition StaleDetect_timeout (t : TimeoutConfig) : Z :=
  if (to_StaleDetectSec t =? 0)%Z then 5 * second
  else if (to_StaleDetectSec t <? 0)%Z then 0
  else wrap_i64 (to_StaleDetectSec t * second).

(** pkg/tunnel/config.go:217-225 [OutboundGatewayConfig.URL part]: host and
    port at the last colon; the empty host is the loopback. *)
Definition split_host (raw : string) : string * string :=
  let '(host, port) := match last_index_byte raw ":" with
                       | Some idx => (take_str idx raw, drop_str (S idx) raw)
                       | None => (raw, ""%string)
                       end in
  (if host =s? "" then "127.0.0.1"%string else host, port).

Definition strip_http (raw : string) : string := trim_prefix (trim_prefix raw "https://") "http://".

(** pkg/tunnel/config.go:211-251 [OutboundGatewayConfig.URL] *)
Definition URL (g : OutboundGatewayConfig) : string :=
  if negb (gw_NodeBridgeAddr g =s? "") then
    let '(host, port) := split_host (strip_http (gw_NodeBridgeAddr g)) in
    let port := if port =s? "19100" then "8443"%string else port in
    let port := if port =s? "" then "8443"%string else port in
    "http://" ++s host ++s ":" ++s port
  else if negb (gw_RVControlAddr g =s? "") then
    let '(host, _) := split_host (trim_prefix (gw_RVControlAddr g) "tcp://") in
    "http://" ++s host ++s ":8443"
  else "http://127.0.0.1:8443".

(** pkg/tunnel/config.go:262-284 [OutboundGatewayConfig.ControlHostPort] *)
Definition ControlHostPort (g : OutboundGatewayConfig) : string :=
  if negb (gw_RVControlAddr g =s? "") then trim_prefix (gw_RVControlAddr g) "tcp://"
  else if negb (gw_NodeBridgeAddr g =s? "") then
    let '(host, _) := split_host (strip_http (gw_NodeBridgeAddr g)) in host ++s ":19100"
  else "127.0.0.1:19100".

(** pkg/tunnel/config.go:289-294 [OutboundGatewayConfig.RendezvousHostPort] *)
Definition RendezvousHostPort (g : OutboundGatewayConfig) : string := strip_http (gw_RendezvousAddr g).

(** pkg/tunnel/config.go:348-350 [AuthConfig.IsPublic] *)
Definition IsPublic (ac : AuthConfig) : bool :=
  (ac_Mode ac =s? "public") || (ac_Mode ac =s? "open") || (ac_Mode ac =s? "").

(** pkg/tunnel/config.go:65-74 [ResolvePath] *)
Definition ResolvePath (root override def : string) : string :=
  let p := if override =s? "" then def else override in
  if is_abs p then p else path_join2 root p.

(** ** Files *)

Inductive read_res := ReadOk (data : string) | ReadMissing | ReadError.

(** [os.ReadFile] *)
Definition ReadFile (l : loc) (fs : hostfs) : read_res :=
  match stat l fs with
  | Found (NFile d _) => ReadOk d
  | Found NDir => ReadError
  | NotExist => ReadMissing
  | NotDirectory => ReadError
  end.

Inductive cfg_err := ERead | EParse | ENoAnchor | ENoPath | EMkdirConf | EWrite.

Section files.
Context {J : ConfigJSON} (W : loc → bool) (cwd : loc) (now : Z).

(** [os.MkdirAll] of the directory of a path, then [os.WriteFile]. *)
Definition save_file (path data : string) (fs : hostfs) : result cfg_err () * hostfs :=
  let '(ok, fs) := mkdir_all W (resolve cwd (path_dirname path)) fs in
  if negb ok then (Err EMkdirConf, fs)
  else match open_trunc W now (resolve cwd path) fs with
       | None => (Err EWrite, fs)
       | Some fs => (Ok (), write_data now (resolve cwd path) data fs)
       end.

(** pkg/tunnel/config.go:40-61 [FindRoot]: the loop; [dir] is absolute. *)
Fixpoint find_root (i : nat) (dir : string) (fs : hostfs) : result cfg_err (string * IannConfig) :=
  match i with
  | O => Err ENoAnchor
  | S i =>
      match ReadFile (resolve cwd (path_join2 dir "isann.config.json")) fs with
      | ReadOk data => match iann_dec data with None => Err EParse | Some cfg => Ok (dir, cfg) end
      | _ => let parent := path_dirname dir in
             if parent =s? dir then Err ENoAnchor else find_root i parent fs
      end
  end.

(** [filepath.Abs] *)
Definition path_abs (p : string) : string :=
  if is_abs p then path_clean p else path_join2 (print_stack true cwd) p.

(** pkg/tunnel/config.go:40-61 [FindRoot] *)
Definition FindRoot (startDir : string) (fs : hostfs) : result cfg_err (string * IannConfig) :=
  find_root 12 (path_abs startDir) fs.

Definition auth_path (mainConfigPath : string) : string := path_join2 (path_dirname mainConfigPath) "auth.json".

(** pkg/tunnel/config.go:308-329 [LoadAuthConfig] *)
Definition LoadAuthConfig (mainConfigPath : string) (fs : hostfs) : result cfg_err AuthConfig :=
  let path := auth_path mainConfigPath in
  match ReadFile (resolve cwd path) fs with
  | ReadMissing => Ok (mkAuthCfg "public" "" "" [] [] [] path)
  | ReadError => Err ERead
  | ReadOk data =>
      match auth_dec data with
      | None => Err EParse
      | Some ac => Ok (auth_with (if ac_Mode ac =s? "open" then "public" else ac_Mode ac) path ac)
      end
  end.

(** pkg/tunnel/config.go:332-344 [SaveAuthConfig] *)
Definition SaveAuthConfig (ac : AuthConfig) (fs : hostfs) : result cfg_err () * hostfs :=
  if ac_ConfigFile ac =s? "" then (Err ENoPath, fs) else save_file (ac_ConfigFile ac) (auth_enc ac) fs.

(** pkg/tunnel/runtime.go:28-36 [runtimePath]; [env] is BROKER_RUNTIME_PATH. *)
Definition runtimePath (env : string) (cfg : Config) : string :=
  if negb (env =s? "") then env
  else if negb (c_ConfigFile cfg =s? "")
       then path_join2 (path_dirname (c_ConfigFile cfg)) "broker-runtime.json"
       else "broker-runtime.json".

(** pkg/tunnel/runtime.go:39-53 [LoadRuntime] *)
Definition LoadRuntime (env : string) (cfg : Config) (fs : hostfs) : result cfg_err RuntimeOverride :=
  match ReadFile (resolve cwd (runtimePath env cfg)) fs with
  | ReadMissing => Ok (mkRuntime None None)
  | ReadError => Err ERead
  | ReadOk data => match rt_dec data with None => Err EParse | Some r => Ok r end
  end.

(** pkg/tunnel/runtime.go:56-69 [SaveRuntime] *)
Definition SaveRuntime (env : string) (cfg : Config) (r : RuntimeOverride) (fs : hostfs)
  : result cfg_err () * hostfs := save_file (runtimePath env cfg) (rt_enc r) fs.

(** pkg/tunnel/runtime.go:74-81 [ApplyRuntime] *)
Definition ApplyRuntime (cfg : Config) (r : RuntimeOverride) : Config :=
  with_cards (match rt_Cards r with Some m => Some m | None => c_Cards cfg end)
    (match rt_APIFeatures r with Some m => Some m | None => c_APIFeatures cfg end) cfg.

(** pkg/tunnel/config.go:400-419 [LoadConfig] *)
Definition LoadConfig (env path : string) (fs : hostfs) : result cfg_err Config :=
  match ReadFile (resolve cwd path) fs with
  | ReadMissing | ReadError => Err ERead
  | ReadOk data =>
      match cfg_dec data with
      | None => Err EParse
      | Some cfg =>
          let cfg := with_mode (NormalizeMode (c_Mode cfg)) (with_file path cfg) in
          match LoadRuntime env cfg fs with
          | Ok rt => Ok (ApplyRuntime cfg rt)
          | Err _ => Ok cfg
          end
      end
  end.

(** pkg/tunnel/config.go:422-437 [SaveConfig] *)
Definition SaveConfig (cfg : Config) (fs : hostfs) : result cfg_err () * hostfs :=
  if c_ConfigFile cfg =s? "" then (Err ENoPath, fs) else save_file (c_ConfigFile cfg) (cfg_enc cfg) fs.

(** ** Start-up *)

(** pkg/tunnel/base.go:15-39 [Base]: the fields that are data. *)
Record Base := mkBase {
  b_Cfg : Config; b_Auth : AuthConfig; b_Identity : NodeIdentity; b_LogFile : string;
  b_Root : string; b_Iann : IannConfig; b_PackagesDir : string; b_ModelsDir : string;
  b_OutputsDir : string; b_LogsDir : string
}.

(** pkg/tunnel/base.go:63-75 [NewBase part]: the authorisation in force. *)
Definition initial_auth (cfg : Config) (fs : hostfs) : AuthConfig :=
  let fallback := mkAuthCfg "public" "" "" [] [] [] "" in
  if c_ConfigFile cfg =s? "" then fallback
  else match LoadAuthConfig (c_ConfigFile cfg) fs with Ok ac => ac | Err _ => fallback end.

(** pkg/tunnel/base.go:80-91 [NewBase part]: a missing emblem is cleared. *)
Definition check_emblem (cfg : Config) (fs : hostfs) : Config * hostfs :=
  if (c_Emblem cfg =s? "") || (c_HomeDir cfg =s? "") then (cfg, fs)
  else match stat (resolve cwd (path_join2 (c_HomeDir cfg) (c_Emblem cfg))) fs with
       | Found _ => (cfg, fs)
       | _ => let cfg := with_emblem "" cfg in
              if c_ConfigFile cfg =s? "" then (cfg, fs) else (cfg, (SaveConfig cfg fs).2)
       end.

(** pkg/tunnel/base.go:44-126 [NewBase]; the process exits when the identity
    cannot be derived ([None]). *)
Definition NewBase (cfg : Config) (root : string) (iann : option IannConfig) (identity : option NodeIdentity)
  (fs : hostfs) : option (Base * hostfs) :=
  let iann := default (mkIann "1.0" "" (mkIannPath "" "" "" "" "")) iann in
  let root := if root =s? "" then print_stack true cwd else root in
  let packagesDir := ResolvePath root (ip_Packages (ic_Paths iann)) "packages" in
  let modelsDir := ResolvePath root (ip_Models (ic_Paths iann)) (path_join2 packagesDir "models") in
  let outputsDir := ResolvePath root (ip_Outputs (ic_Paths iann)) "outputs" in
  let logsDir := ResolvePath root (ip_Logs (ic_Paths iann)) "logs" in
  match identity with
  | None => None
  | Some identity =>
      let auth := initial_auth cfg fs in
      let '(cfg, fs) := check_emblem cfg fs in
      let logFile := path_join2 root ("logs/" ++s c_Mode cfg ++s ".log") in
      Some (mkBase cfg auth identity logFile root iann packagesDir modelsDir outputsDir logsDir, fs)
  end.
End files.

(** ** Addresses *)

Lemma NormalizeMode_idem m : NormalizeMode (NormalizeMode m) = NormalizeMode m.
Proof.
  unfold NormalizeMode at 2 3. destruct ((m =s? "client") || (m =s? "broker")) eqn:E1; [done|].
  destruct ((m =s? "server") || (m =s? "provider")) eqn:E2; [done|]. unfold NormalizeMode. by rewrite E1, E2.
Qed.

Lemma trim_scheme h t :
  contains_byte ":" h = false → has_prefix t "/" = false →
  ∀ p, p ∈ ["https://"; "http://"; "tcp://"]%string → trim_prefix (h ++s String ":" t) p = h ++s String ":" t.
Proof.
  intros Hh Ht p Hp. unfold trim_prefix. destruct (has_prefix (h ++s String ":" t) p) eqn:E; [|done].
  exfalso. apply has_prefix_spec in E as [u E].
  assert (∃ q, p = q ++s "://" ∧ contains_byte ":" q = false) as (q & -> & Hq).
  { repeat (apply elem_of_cons in Hp as [->|Hp]); [by exists "https"|by exists "http"|by exists "tcp"|].
    by apply elem_of_nil in Hp. }
  assert (index_byte (h ++s String ":" t) ":" = Some (String.length h)) as H1 by by apply index_byte_app.
  rewrite E, sapp_assoc in H1. change ("://" ++s u) with (String ":" ("//" ++s u)) in H1.
  rewrite index_byte_app in H1 by done. injection H1 as Hlen.
  rewrite sapp_assoc in E. destruct (sapp_inj_len _ _ _ _ (eq_sym Hlen) E) as [_ E2].
  change ("://" ++s u) with (String ":" ("//" ++s u)) in E2. injection E2 as ->. done.
Qed.

Lemma split_host_app h p :
  h ≠ ""%string → contains_byte ":" p = false → split_host (h ++s String ":" p) = (h, p).
Proof.
  intros Hh Hp. unfold split_host. rewrite last_index_byte_app, take_str_app, drop_str_S_app by done.
  by rewrite (proj2 (String.eqb_neq _ _)) by done.
Qed.

(** One configured field is enough: the bridge address alone, with its own
    port or mistakenly with the control port, and the control address alone all
    give the same pair of endpoints on that host. *)
Theorem gateway_one_field h g :
  h ≠ ""%string → contains_byte ":" h = false →
  (gw_NodeBridgeAddr g = h ++s ":8443" ∧ gw_RVControlAddr g = "" ∨
   gw_NodeBridgeAddr g = h ++s ":19100" ∧ gw_RVControlAddr g = "" ∨
   gw_NodeBridgeAddr g = "" ∧ gw_RVControlAddr g = h ++s ":19100")%string →
  URL g = ("http://" ++s h ++s ":8443")%string ∧ ControlHostPort g = (h ++s ":19100")%string.
Proof.
  intros Hh Hc Hg.
  assert (∀ t, (h ++s t)%string ≠ ""%string) as Hne by (intros t; by destruct h).
  assert (∀ p, has_prefix p "/" = false → contains_byte ":" p = false → ∀ s, s ∈ ["https://"; "http://"; "tcp://"]%string →
    trim_prefix (h ++s String ":" p) s = h ++s String ":" p) as Htr by (intros; by apply trim_scheme).
  unfold URL, ControlHostPort, strip_http.
  destruct Hg as [[H1 H2]|[[H1 H2]|[H1 H2]]]; rewrite H1, H2;
    rewrite ?(proj2 (String.eqb_neq _ _) (Hne _)); cbn [negb String.eqb].
  - change ":8443"%string with (String ":" "8443"). rewrite !Htr by (done || set_solver).
    by rewrite split_host_app.
  - change ":19100"%string with (String ":" "19100"). rewrite !Htr by (done || set_solver).
    by rewrite split_host_app.
  - change ":19100"%string with (String ":" "19100"). rewrite !Htr by (done || set_solver).
    by rewrite split_host_app.
Qed.

(** An https:// address is not used verbatim: it is contacted over http. *)
Lemma https_downgraded : URL (mkGateway "https://gw.example:9443" "" "" "") = "http://gw.example:9443"%string.
Proof. done. Qed.

(** ** Files *)

Section file_facts.
Context {J : ConfigJSON} (W : loc → bool) (cwd : loc) (now : Z).

Lemma ReadFile_file l d t fs : l ≠ [] → fs !! l = Some (NFile d t) → ReadFile l fs = ReadOk d.
Proof. intros Hl H. unfold ReadFile, stat. destruct l; [done|]. by rewrite H. Qed.

(** What was saved is what is read. *)
Lemma save_file_read path data fs fs' :
  save_file W cwd now path data fs = (Ok (), fs') → ReadFile (resolve cwd path) fs' = ReadOk data.
Proof.
  unfold save_file. destruct (mkdir_all W _ fs) as [[] fs1]; [|done]. cbn [negb].
  destruct (open_trunc W now _ fs1) as [fs2|] eqn:E; [|done]. intros [= <-].
  assert (resolve cwd path ≠ []) as Hne by (intros H; by rewrite H in E).
  apply open_trunc_same_off in E as [_ E]. eapply ReadFile_file; [done|].
  unfold write_data. by rewrite lookup_alter_eq, E.
Qed.

(** Authorisation survives a restart: what [SaveAuthConfig] wrote is what
    [LoadAuthConfig] returns, with the legacy mode name replaced, and whether
    the node is public does not change. *)
Theorem auth_survives ac main fs fs' :
  ac_ConfigFile ac = auth_path main → auth_dec (auth_enc ac) = Some (auth_with (ac_Mode ac) "" ac) →
  SaveAuthConfig W cwd now ac fs = (Ok (), fs') →
  ∃ ac', LoadAuthConfig cwd main fs' = Ok ac' ∧ IsPublic ac' = IsPublic ac ∧
    ac' = auth_with (if ac_Mode ac =s? "open" then "public" else ac_Mode ac) (auth_path main) ac.
Proof.
  intros Hp Hrt. unfold SaveAuthConfig. case_if; [done|]. rewrite Hp. intros H%save_file_read.
  unfold LoadAuthConfig. rewrite H, Hrt. eexists. split; [done|]. split; [|done].
  unfold IsPublic. cbn [auth_with ac_Mode]. destruct (ac_Mode ac =s? "open") eqn:E; rewrite ?E; [|done].
  by rewrite orb_true_r.
Qed.

(** A damaged auth.json opens the node: when the file cannot be read or
    parsed, start-up falls back to the public mode, forgets owner, admins and
    revocations, and later changes cannot be saved. *)
Theorem damaged_auth_opens cfg root iann identity fs b fs' e :
  c_ConfigFile cfg ≠ ""%string → LoadAuthConfig cwd (c_ConfigFile cfg) fs = Err e →
  NewBase W cwd now cfg root iann (Some identity) fs = Some (b, fs') →
  IsPublic (b_Auth b) = true ∧ ac_RevokedGrants (b_Auth b) = [] ∧ ac_Owner (b_Auth b) = ""%string ∧
  SaveAuthConfig W cwd now (b_Auth b) fs' = (Err ENoPath, fs').
Proof.
  intros Hf He. unfold NewBase. destruct (check_emblem W cwd now cfg fs) as [cfg' fs1]. intros [= <- <-].
  unfold initial_auth. rewrite (proj2 (String.eqb_neq _ _) Hf), He. done.
Qed.

(** ** The anchor *)

Fixpoint find_up (i : nat) (st : loc) (fs : hostfs) : result cfg_err (loc * IannConfig) :=
  match i with
  | O => Err ENoAnchor
  | S i =>
      match ReadFile ("isann.config.json"%string :: st) fs with
      | ReadOk data => match iann_dec data with None => Err EParse | Some cfg => Ok (st, cfg) end
      | _ => match st with [] => Err ENoAnchor | _ :: st' => find_up i st' fs end
      end
  end.

Lemma resolve_plain st n :
  stack_ok true st → comp_ok n → n ≠ dotdot → resolve cwd (path_join2 (print_stack true st) n) = n :: st.
Proof.
  intros Hst Hn Hd. pose proof Hn as (H1 & H2 & H3). rewrite resolve_join; [|by apply print_stack_not_empty|done].
  rewrite resolve_print by done. change (fold_left (push_comp true) (rev st) []) with (fold_left (push_comp true) (rev st) []).
  rewrite push_stack by done. unfold push_path. rewrite split_byte_plain by done. cbn [fold_left].
  by apply push_comp_ordinary.
Qed.

Lemma print_stack_parent c st : stack_ok true (c :: st) → print_stack true (c :: st) ≠ print_stack true st.
Proof.
  intros Hok H. pose proof (stack_ok_tail _ _ _ Hok) as Hok'.
  destruct (stack_of_print _ _ Hok) as [_ H1]. destruct (stack_of_print _ _ Hok') as [_ H2].
  rewrite H, H2 in H1. apply (f_equal length) in H1. cbn in H1. lia.
Qed.

Lemma find_root_up i st fs :
  stack_ok true st →
  find_root cwd i (print_stack true st) fs = res_map (λ x, (print_stack true x.1, x.2)) (find_up i st fs).
Proof.
  revert st. induction i as [|i IH]; intros st Hok; [done|]. cbn [find_root find_up].
  rewrite resolve_plain by done.
  assert ((if path_dirname (print_stack true st) =s? print_stack true st then Err ENoAnchor
           else find_root cwd i (path_dirname (print_stack true st)) fs) =
          res_map (λ x, (print_stack true x.1, x.2))
            match st with [] => Err ENoAnchor | _ :: st' => find_up i st' fs end) as Hup.
  { destruct st as [|c st]; [done|]. pose proof (stack_ok_tail _ _ _ Hok) as Hok'.
    rewrite path_dirname_print by (done || (destruct Hok as [Hf _]; by inversion Hf)).
    rewrite (proj2 (String.eqb_neq _ _) (not_eq_sym (print_stack_parent _ _ Hok))). by apply IH. }
  destruct (ReadFile _ fs); [by destruct (iann_dec data)|done|done].
Qed.

(** What a search of [i] levels from a directory reports. *)
Definition search_result (i : nat) (st : loc) (fs : hostfs) (r : result cfg_err (loc * IannConfig)) : Prop :=
  let anchor k := ReadFile ("isann.config.json"%string :: drop k st) fs in
  match r with
  | Ok (x, cfg) => ∃ k data, k < i ∧ k ≤ length st ∧ x = drop k st ∧
      anchor k = ReadOk data ∧ iann_dec data = Some cfg ∧ ∀ j data', j < k → anchor j ≠ ReadOk data'
  | Err EParse => ∃ k data, k < i ∧ k ≤ length st ∧ anchor k = ReadOk data ∧ iann_dec data = None
  | Err _ => ∀ k data, k < i → k ≤ length st → anchor k ≠ ReadOk data
  end.

(** One level without an anchor. *)
Lemma search_result_up i c st fs r :
  (∀ d, ReadFile ("isann.config.json"%string :: c :: st) fs ≠ ReadOk d) →
  search_result i st fs r → search_result (S i) (c :: st) fs r.
Proof.
  intros Hno. unfold search_result. destruct r as [[x cfg]|[]].
  2: intros Hr [|k] d ? ?; cbn in *; [apply Hno|apply Hr; lia].
  3-6: intros Hr [|k] d ? ?; cbn in *; [apply Hno|apply Hr; lia].
  - intros (k & d & ? & ? & ? & ? & ? & Hj). exists (S k), d. cbn. split_and!; try done; [lia|lia|].
    intros [|j] d' ?; [apply Hno|]. apply Hj. lia.
  - intros (k & d & ? & ? & ? & ?). exists (S k), d. cbn. split_and!; try done; lia.
Qed.

Lemma find_up_spec i st fs : search_result i st fs (find_up i st fs).
Proof.
  revert st. induction i as [|i IH]; intros st; cbn [find_up]; [intros ? ? ?; lia|].
  destruct (ReadFile ("isann.config.json"%string :: st) fs) as [data| |] eqn:Er.
  { destruct (iann_dec data) as [cfg|] eqn:Ed; exists 0, data; split_and!; try done; try lia. }
  all: destruct st as [|c st]; [intros [|k] d ? ?; cbn in *; [by rewrite Er|lia]|].
  all: apply search_result_up; [intros d; by rewrite Er|apply IH].
Qed.

(** The anchor search returns the nearest enclosing directory whose
    isann.config.json is readable, at most eleven levels up, and fails exactly
    when there is none so near: it does not go on to the file-system root. *)
Theorem find_root_nearest st fs :
  stack_ok true st →
  ∃ r, FindRoot cwd (print_stack true st) fs = res_map (λ x, (print_stack true x.1, x.2)) r ∧
    search_result 12 st fs r.
Proof.
  intros Hok. exists (find_up 12 st fs). split; [|apply find_up_spec].
  unfold FindRoot, path_abs. destruct (stack_of_print _ _ Hok) as [Ha Hs]. rewrite Ha.
  unfold path_clean. rewrite (proj2 (String.eqb_neq _ _) (print_stack_not_empty _ _ Hok)), Ha, Hs.
  by apply find_root_up.
Qed.

End file_facts.

(** ** The runtime overlay *)

Section overlay.
Context {J : ConfigJSON} (W : loc → bool) (cwd : loc) (now : Z).

(** The runtime overlay survives a restart: after [SaveRuntime] a fresh
    [LoadConfig] gives the configuration file's values with the overlay as JSON
    kept it on top. *)
Theorem runtime_survives env path conf data cfg r r' fs fs' :
  c_ConfigFile cfg = path → rt_dec (rt_enc r) = Some r' →
  SaveRuntime W cwd now env cfg r fs = (Ok (), fs') →
  ReadFile (resolve cwd path) fs' = ReadOk data → cfg_dec data = Some conf →
  ∃ c, LoadConfig cwd env path fs' = Ok c ∧
    c_Cards c = match rt_Cards r' with Some m => Some m | None => c_Cards conf end ∧
    c_APIFeatures c = match rt_APIFeatures r' with Some m => Some m | None => c_APIFeatures conf end ∧
    c_Mode c = NormalizeMode (c_Mode conf) ∧ c_ConfigFile c = path.
Proof.
  intros Hp Hrt Hs%save_file_read Hr Hd. unfold LoadConfig. rewrite Hr, Hd.
  set (c := with_mode _ (with_file path conf)).
  assert (runtimePath env c = runtimePath env cfg) as Hpath by by unfold runtimePath; cbn; rewrite Hp.
  unfold LoadRuntime. rewrite Hpath, Hs, Hrt. eexists. split; [done|]. by destruct r' as [[] []].
Qed.

(** An empty card map is omitted from the JSON and read back as absent, so
    clearing the map brings the configuration file's cards back. *)
Lemma cleared_cards_return env path conf data cfg fs fs' :
  c_ConfigFile cfg = path → rt_dec (rt_enc (mkRuntime (Some ∅) None)) = Some (mkRuntime None None) →
  SaveRuntime W cwd now env cfg (mkRuntime (Some ∅) None) fs = (Ok (), fs') →
  ReadFile (resolve cwd path) fs' = ReadOk data → cfg_dec data = Some conf →
  ∃ c, LoadConfig cwd env path fs' = Ok c ∧ c_Cards c = c_Cards conf.
Proof.
  intros Hp Hrt Hs%save_file_read Hr Hd. unfold LoadConfig. rewrite Hr, Hd.
  set (c := with_mode _ (with_file path conf)).
  assert (runtimePath env c = runtimePath env cfg) as Hpath by by unfold runtimePath; cbn; rewrite Hp.
  unfold LoadRuntime. rewrite Hpath, Hs, Hrt. by eexists.
Qed.

(** With an absolute root the models are below the packages; with a relative
    one the root is joined twice. *)
Lemma models_below_packages root iann :
  is_abs root = true → ip_Models (ic_Paths iann) = ""%string →
  let packages := ResolvePath root (ip_Packages (ic_Paths iann)) "packages" in
  ResolvePath root (ip_Models (ic_Paths iann)) (path_join2 packages "models") = path_join2 packages "models".
Proof.
  intros Hroot Hm packages. unfold ResolvePath at 1. rewrite Hm. cbn [String.eqb].
  assert (packages ≠ ""%string ∧ is_abs packages = true) as [Hne Ha].
  { subst packages. unfold ResolvePath. set (p := if _ =s? _ then _ else _).
    assert (p ≠ ""%string) as Hp by (subst p; by destruct (String.eqb_spec (ip_Packages (ic_Paths iann)) "")).
    destruct (is_abs p) eqn:E; [done|]. assert (root ≠ ""%string) as Hr by by intros ->.
    rewrite path_join2_spec by done.
    pose proof (push_path_ok (is_abs root) (stack_of root) p (stack_of_ok root)) as Hok.
    split; [by apply print_stack_not_empty|]. by rewrite (proj1 (stack_of_print _ _ Hok)). }
  rewrite path_join2_spec by done.
  pose proof (push_path_ok (is_abs packages) (stack_of packages) "models" (stack_of_ok packages)) as Hok.
  by rewrite (proj1 (stack_of_print _ _ Hok)), Ha.
Qed.

Lemma models_relative_root :
  ResolvePath "srv" "" (path_join2 (ResolvePath "srv" "" "packages") "models") = "srv/srv/packages/models"%string.
Proof. done. Qed.
End overlay.

(** ** Witnesses *)

(** JSON reduced to the fields the witnesses use. *)
Definition toy_cfg (mode : string) : Config :=
  mkCfg mode "" (mkGateway "" "" "" "") (mkTLS false "" "") (mkQueue "" 0) (mkTimeout 0 0 0) [] "" (mkDB "" "")
    "" false "" "" "" (mkLogCfg "" "" "" 0 []) (Some {["logs"%string := true]}) None "".
Definition toy_config_json : ConfigJSON := {|
  cfg_enc := c_Mode; cfg_dec := λ s, if s =s? "" then None else Some (toy_cfg s);
  auth_enc := ac_Mode; auth_dec := λ s, if s =s? "{" then None else Some (mkAuthCfg s "" "" [] [] [] "");
  rt_enc := λ r, if bool_decide (rt_Cards r = Some ∅) then "{}" else "c";
  rt_dec := λ s, Some (if s =s? "{}" then mkRuntime None None else mkRuntime (Some {["chat"%string := false]}) None);
  iann_dec := λ s, if s =s? "" then None else Some (mkIann s "" (mkIannPath "" "" "" "" ""))
|}.
#[local] Existing Instance toy_config_json.

Definition srv_disk : hostfs :=
  {[ ["srv"%string] := NDir; ["node.json"; "srv"]%string := NFile "broker" 1;
     ["auth.json"; "srv"]%string := NFile "{" 1; ["isann.config.json"; "srv"]%string := NFile "1.0" 1 ]}.
Definition every (_ : loc) : bool := true.

Example gateway_one_field_witness :
  URL (mkGateway "10.0.0.7:19100" "" "" "") = "http://10.0.0.7:8443"%string ∧
  ControlHostPort (mkGateway "10.0.0.7:19100" "" "" "") = "10.0.0.7:19100"%string.
Proof. apply (gateway_one_field "10.0.0.7"); [done|done|]. by right; left. Defined.

Definition open_auth : AuthConfig := mkAuthCfg "open" "" "" [] [] [] "/srv/auth.json".
Definition bare_disk : hostfs := {[ ["srv"%string] := NDir ]}.
Definition open_saved : hostfs := <[["auth.json"; "srv"]%string := NFile "open" 9]> bare_disk.

Example auth_survives_witness :
  ∃ ac', LoadAuthConfig [] "/srv/node.json" open_saved = Ok ac' ∧ IsPublic ac' = IsPublic open_auth ∧
    ac' = auth_with (if ac_Mode open_auth =s? "open" then "public" else ac_Mode open_auth)
            (auth_path "/srv/node.json") open_auth.
Proof.
  apply (auth_survives every [] 9 open_auth "/srv/node.json" bare_disk open_saved); vm_refl.
Defined.

Definition some_id : NodeIdentity := mkNodeId "0x01" "" "" "" "" "" 1.

Definition srv_cfg (mode : string) : Config := with_file "/srv/node.json" (toy_cfg mode).
Definition srv_base : Base :=
  mkBase (srv_cfg "control") (mkAuthCfg "public" "" "" [] [] [] "") some_id "/srv/logs/control.log" "/srv"
    (mkIann "1.0" "" (mkIannPath "" "" "" "" "")) "/srv/packages" "/srv/packages/models" "/srv/outputs" "/srv/logs".

Definition torn_disk : hostfs := {[ ["srv"%string] := NDir; ["auth.json"; "srv"]%string := NFile "{" 1 ]}.

Example damaged_auth_opens_witness :
  IsPublic (b_Auth srv_base) = true ∧ ac_RevokedGrants (b_Auth srv_base) = [] ∧
  ac_Owner (b_Auth srv_base) = ""%string ∧
  SaveAuthConfig every [] 9 (b_Auth srv_base) torn_disk = (Err ENoPath, torn_disk).
Proof.
  apply (damaged_auth_opens every [] 9 (srv_cfg "control") "/srv" None some_id torn_disk srv_base torn_disk EParse);
    [done|vm_refl|vm_refl].
Defined.

Example find_root_nearest_witness :
  ∃ r, FindRoot [] (print_stack true ["bin"; "srv"]%string) srv_disk =
       res_map (λ x, (print_stack true x.1, x.2)) r ∧ search_result 12 ["bin"; "srv"]%string srv_disk r.
Proof.
  apply (find_root_nearest [] ["bin"; "srv"]%string srv_disk). split; [by repeat constructor|].
  exists ["bin"; "srv"]%string, 0. split_and!; [done|by repeat constructor|done].
Defined.

Definition chat_off : RuntimeOverride := mkRuntime (Some {["chat"%string := false]}) None.
Definition runtime_saved : hostfs := <[["broker-runtime.json"; "srv"]%string := NFile "c" 9]> srv_disk.

Example runtime_survives_witness :
  ∃ c, LoadConfig [] "" "/srv/node.json" runtime_saved = Ok c ∧
    c_Cards c = match rt_Cards chat_off with Some m => Some m | None => c_Cards (toy_cfg "broker") end ∧
    c_APIFeatures c = match rt_APIFeatures chat_off with
                      | Some m => Some m | None => c_APIFeatures (toy_cfg "broker") end ∧
    c_Mode c = NormalizeMode (c_Mode (toy_cfg "broker")) ∧ c_ConfigFile c = "/srv/node.json"%string.
Proof.
  apply (runtime_survives every [] 9 "" "/srv/node.json" (toy_cfg "broker") "broker"
    (srv_cfg "broker") chat_off chat_off srv_disk runtime_saved); vm_refl.
Defined.
