(* ===== verification/AdminHttp.v ===== *)
(** * pkg/tunnel: the administration endpoints of a node

    admin.go over the configuration of NodeConfig.v, the log buffer of Glog.v
    and the log directory; and the read-only filter of webdav.go.  A request is
    its method, query values and decoded body. *)

From S2P Require Import Prelude GoStrings GoStringsFacts GoPath GoSort HostFS Strconv GoAny Glog NodeIdentity Probe NodeConfig.
From Stdlib Require Import ZArith Lia ZifyBool Bool Ascii String.
From stdpp Require Import base option list gmap strings.

Open Scope go_scope.

(** ** Responses *)

Inductive admin_resp :=
  | RNone
  | RStatus (code : Z) (error : string)
  | RConfig (cfg : Config) (auth : AuthConfig) (id : string)
  | RSaved (restart_required : bool)
  | RCards (cards : gmap string bool)
  | RLines (lines : list string)
  | RFiles (files : list (string * Z)).

(** ** Settings *)

(** [v, ok := req[k].(string)]: the new value of a setting. *)
Definition put_string (req : list (string * any)) (k old : string) : string :=
  default old (as_string (obj_get req k)).

(** pkg/tunnel/admin.go:88-94 [HandleAdminConfig part]: the non-empty strings of
    an array; other elements are dropped. *)
Definition strings_of (l : list any) : list string :=
  omap (λ a, match a with AStr s => if s =s? "" then None else Some s | _ => None end) l.

Definition put_strings (req : list (string * any)) (k : string) (old : list string) : list string :=
  from_option strings_of old (as_arr (obj_get req k)).

(** pkg/tunnel/admin.go:66-77 [HandleAdminConfig part] *)
Definition put_gateway (req : list (string * any)) (g : OutboundGatewayConfig) : OutboundGatewayConfig :=
  mkGateway (put_string req "node_bridge_addr" (gw_NodeBridgeAddr g))
    (put_string req "rv_control_addr" (gw_RVControlAddr g))
    (put_string req "rendezvous_addr" (gw_RendezvousAddr g)) (put_string req "gate_addr" (gw_GateAddr g)).

(** pkg/tunnel/admin.go:78-107 [HandleAdminConfig part]: the authorisation and
    whether it was touched. *)
Definition put_auth (req : list (string * any)) (a : AuthConfig) : AuthConfig * bool :=
  (mkAuthCfg (put_string req "auth_mode" (ac_Mode a)) (put_string req "auth_owner" (ac_Owner a)) (ac_Issuer a)
     (put_strings req "auth_admins" (ac_Admins a)) (put_strings req "auth_users" (ac_Users a))
     (ac_RevokedGrants a) (ac_ConfigFile a),
   bool_decide (is_Some (as_string (obj_get req "auth_owner"))) ||
   bool_decide (is_Some (as_string (obj_get req "auth_mode"))) ||
   bool_decide (is_Some (as_arr (obj_get req "auth_admins"))) ||
   bool_decide (is_Some (as_arr (obj_get req "auth_users")))).

(** pkg/tunnel/admin.go:108-119 [HandleAdminConfig part]: listener and
    certificate, and whether a restart is needed. *)
Definition put_net (req : list (string * any)) (c : Config) : string * TLSConfig * bool :=
  let listen := match as_string (obj_get req "listen_addr") with
                | Some v => if v =s? "" then c_ListenAddr c else v
                | None => c_ListenAddr c
                end in
  let cert := put_string req "tls_cert" (tls_Cert (c_TLS c)) in
  let key := put_string req "tls_key" (tls_Key (c_TLS c)) in
  (listen, mkTLS (tls_Enabled (c_TLS c)) cert key,
   negb (listen =s? c_ListenAddr c) || negb (cert =s? tls_Cert (c_TLS c)) || negb (key =s? tls_Key (c_TLS c))).

Section handlers.
Context {J : ConfigJSON} (W : loc → bool) (cwd : loc) (now : Z).

Definition with_settings (c : Config) (a : AuthConfig) (b : Base) : Base :=
  mkBase c a (b_Identity b) (b_LogFile b) (b_Root b) (b_Iann b) (b_PackagesDir b) (b_ModelsDir b)
    (b_OutputsDir b) (b_LogsDir b).

(** pkg/tunnel/admin.go:24-144 [Base.HandleAdminConfig]; [body] is the decoded
    request, [None] a decoding error; failures to save are only logged. *)
Definition HandleAdminConfig (method : string) (body : option (list (string * any))) (b : Base) (fs : hostfs)
  : admin_resp * Base * hostfs :=
  if method =s? "OPTIONS" then (RNone, b, fs)
  else if method =s? "GET" then (RConfig (b_Cfg b) (b_Auth b) (ni_Address (b_Identity b)), b, fs)
  else if method =s? "PUT" then
    match body with
    | None => (RStatus 400 "bad request", b, fs)
    | Some req =>
        let g := put_gateway req (c_OutboundGateway (b_Cfg b)) in
        let '(auth, authChanged) := put_auth req (b_Auth b) in
        let '(listen, tls, restartRequired) := put_net req (b_Cfg b) in
        let cfg := with_net listen g tls (b_Cfg b) in
        let fs := if c_ConfigFile cfg =s? "" then fs else (SaveConfig W cwd now cfg fs).2 in
        let fs := if authChanged && negb (ac_ConfigFile auth =s? "")
                  then (SaveAuthConfig W cwd now auth fs).2 else fs in
        (RSaved restartRequired, with_settings cfg auth b, fs)
    end
  else (RStatus 405 "method not allowed", b, fs).

(** pkg/tunnel/admin.go:148-166 [Base.HandleCards] *)
Definition HandleCards (method : string) (b : Base) : admin_resp :=
  if method =s? "OPTIONS" then RStatus 204 ""
  else if negb (method =s? "GET") then RStatus 405 "method not allowed"
  else RCards (default ∅ (c_Cards (b_Cfg b))).

(** pkg/tunnel/admin.go:170-202 [Base.HandleAdminCards]; [body] is the [cards]
    member of the request. *)
Definition HandleAdminCards (env method : string) (body : option card_map) (b : Base) (fs : hostfs)
  : admin_resp * Base * hostfs :=
  if method =s? "OPTIONS" then (RNone, b, fs)
  else if negb (method =s? "PUT") then (RStatus 405 "method not allowed", b, fs)
  else match body with
       | None => (RStatus 400 "bad json", b, fs)
       | Some cards =>
           let cards := default ∅ cards in
           let cfg := with_cards (Some cards) (c_APIFeatures (b_Cfg b)) (b_Cfg b) in
           let b := with_settings cfg (b_Auth b) b in
           match SaveRuntime W cwd now env cfg (mkRuntime (c_Cards cfg) (c_APIFeatures cfg)) fs with
           | (Err _, fs) => (RStatus 500 "save failed", b, fs)
           | (Ok _, fs) => (RCards cards, b, fs)
           end
       end.

(** ** Logs *)

(** pkg/tunnel/admin.go:207-212 [Base.HandleAdminLogs part] *)
Definition positive_param (def : Z) (v : string) : Z :=
  if v =s? "" then def
  else match atoi v with (n, None) => if (0 <? n)%Z then n else def | _ => def end.

(** pkg/tunnel/admin.go:205-215 [Base.HandleAdminLogs]; [None] is a panic. *)
Definition HandleAdminLogs (n : string) (buf : RingBuffer) : option admin_resp :=
  RLines <$> Recent (positive_param 100 n) buf.

(** pkg/tunnel/admin.go:220-225 [Base.logsDir] *)
Definition logsDir (b : Base) : string :=
  if lc_File (c_Log (b_Cfg b)) =s? "" then "logs" else path_dirname (lc_File (c_Log (b_Cfg b))).

(** The files of a directory, by name. *)
Definition dir_files (l : loc) (fs : hostfs) : list (string * Z) :=
  sort_by fst (omap (λ kv, match kv with
                           | (n :: l', NFile d _) =>
                               if bool_decide (l' = l) then Some (n, Z.of_nat (String.length d)) else None
                           | _ => None
                           end) (map_to_list fs)).

(** pkg/tunnel/admin.go:230-263 [Base.HandleAdminLogFiles] *)
Definition HandleAdminLogFiles (method : string) (b : Base) (fs : hostfs) : admin_resp :=
  if method =s? "OPTIONS" then RNone
  else RFiles (filter (λ f, has_suffix f.1 ".log" = true) (dir_files (resolve cwd (logsDir b)) fs)).

(** pkg/tunnel/admin.go:314-319 [Base.HandleAdminLogFile part]: the scanner
    stops at the first line that does not fit its buffer of one megabyte. *)
Definition scan_limited (data : string) : list string := (scan_max 1048576 data).1.

(** pkg/tunnel/admin.go:296-304 [Base.HandleAdminLogFile part] *)
Definition tail_param (v : string) : Z := Z.min 2000 (positive_param 200 v).

(** pkg/tunnel/admin.go:320-333 [Base.HandleAdminLogFile part] *)
Definition tail_search `{GoUnicode} (tail : Z) (q : string) (all : list string) : list string :=
  let search := to_lower q in
  let lines := drop (Z.to_nat (Z.of_nat (length all) - tail)) all in
  if search =s? "" then lines
  else filter (λ l, contains_str (to_lower l) search = true) lines.

(** pkg/tunnel/admin.go:281-285 [Base.HandleAdminLogFile part] *)
Definition bad_name (clean : string) : bool :=
  contains_str clean ".." || contains_byte "/" clean || contains_byte "\" clean.

(** pkg/tunnel/admin.go:269-335 [Base.HandleAdminLogFile]; a directory opens
    but has no line to read. *)
Definition HandleAdminLogFile `{GoUnicode} (method name tail q : string) (b : Base) (fs : hostfs) : admin_resp :=
  if method =s? "OPTIONS" then RNone
  else if name =s? "" then RStatus 400 "name required"
  else
    let clean := path_clean name in
    if bad_name clean then RStatus 400 "invalid name"
    else
      let dir := logsDir b in
      let full := path_join2 dir clean in
      if negb (has_prefix (path_abs cwd full) (path_abs cwd dir)) then RStatus 400 "invalid name"
      else
        match stat (resolve cwd full) fs with
        | Found (NFile data _) => RLines (tail_search (tail_param tail) q (scan_limited data))
        | Found NDir => RLines (tail_search (tail_param tail) q [])
        | _ => RStatus 404 "file not found"
        end.

(** pkg/tunnel/admin.go:359-359 [Base.HandleAdminLogsStream part] *)
Definition sse_event (line : string) : string :=
  "data: " ++s trim_right_pred (λ c, c =c? nl) line ++s str1 nl ++s str1 nl.
End handlers.

(** ** Shared folders *)

(** pkg/tunnel/webdav.go:10-29 [NewWebDAVHandler]: whether a request reaches the
    WebDAV handler, which serves every method it knows. *)
Definition webdav_forwards (readOnly : bool) (method : string) : bool :=
  if negb readOnly then true
  else negb (bool_decide (method ∈ ["PUT"; "DELETE"; "MKCOL"; "COPY"; "MOVE"; "PROPPATCH"]%string)).

(** LOCK, which creates the resource it locks, is not among the refused methods. *)
Lemma webdav_lock_forwarded : webdav_forwards true "LOCK" = true ∧ webdav_forwards true "PUT" = false.
Proof. done. Qed.

(** ** The log endpoint stays in the log directory *)

Section log_facts.
Context {U : GoUnicode} {J : ConfigJSON} (cwd : loc).

Lemma tail_search_sub tail q all :
  sublist (tail_search tail q all) all ∧ (Z.of_nat (length (tail_search tail q all)) ≤ Z.max 0 tail)%Z.
Proof.
  unfold tail_search. set (n := Z.to_nat _).
  assert (sublist (drop n all) all) as Hd by apply sublist_drop.
  assert (Z.of_nat (length (drop n all)) ≤ Z.max 0 tail)%Z as Hl by (rewrite length_drop; subst n; lia).
  case_if; [by split|].
  pose proof (sublist_filter (λ l, contains_str (to_lower l) (to_lower q) = true) (drop n all)) as Hf.
  split; [by etransitivity|]. apply sublist_length in Hf. lia.
Qed.

(** A name the guard lets through is the directory itself or one plain name. *)
Lemma guarded_name name :
  name ≠ ""%string → bad_name (path_clean name) = false →
  path_clean name = "."%string ∨ comp_ok (path_clean name) ∧ path_clean name ≠ dotdot.
Proof.
  intros Hn Hb. rewrite path_clean_print in * by done. pose proof (stack_of_ok name) as Hok.
  unfold bad_name in Hb. apply orb_false_iff in Hb as [[Hdd Hsl]%orb_false_iff _].
  destruct (is_abs name); [by unfold print_stack in Hsl; cbn in Hsl|].
  destruct (stack_of name) as [|c st]; [by left|]. destruct st as [|c' st].
  - assert (comp_ok c) as Hc by (destruct Hok as [Hf _]; by inversion Hf).
    pose proof Hc as (H1 & H2 & H3).
    assert (print_stack false [c] = c) as Hp.
    { unfold print_stack. cbn. by rewrite (proj2 (String.eqb_neq _ _) H1). }
    rewrite Hp in *. right. split; [done|]. by intros ->.
  - exfalso. pose proof (print_nonempty (c :: c' :: st) (proj1 Hok) ltac:(done)) as Hne.
    unfold print_stack in Hsl. rewrite (proj2 (String.eqb_neq _ _) Hne) in Hsl. cbn [rev] in Hsl.
    rewrite join_snoc in Hsl by (by destruct (rev st)).
    rewrite contains_byte_app in Hsl. apply orb_false_iff in Hsl as [_ Hsl]. done.
Qed.

Lemma logsDir_nonempty b : logsDir b ≠ ""%string.
Proof.
  unfold logsDir. case_if; [done|]. unfold path_dirname. destruct (decide (up_to_slash (lc_File (c_Log (b_Cfg b))) = "")%string) as [->|H]; [done|].
  rewrite path_clean_print by done. apply print_stack_not_empty, stack_of_ok.
Qed.

(** The log endpoint only shows log files: whatever the name parameter,
    lines it returns come, in order and at most 2000 of them, from one regular
    file that lies directly in the log directory (or is configured as it). *)
Theorem logfile_confined method name tail q b fs lines :
  HandleAdminLogFile cwd method name tail q b fs = RLines lines →
  lines = [] ∨
  ∃ l data t, (l = resolve cwd (logsDir b) ∨ ∃ n, comp_ok n ∧ n ≠ dotdot ∧ l = n :: resolve cwd (logsDir b)) ∧
    fs !! l = Some (NFile data t) ∧ sublist lines (scan_limited data) ∧ length lines ≤ 2000.
Proof.
  unfold HandleAdminLogFile. case_if; [done|]. destruct (String.eqb_spec name "") as [|Hn]; [done|].
  destruct (bad_name (path_clean name)) eqn:Hb; [done|]. case_if; [done|].
  pose proof (logsDir_nonempty b) as Hd.
  assert (let l := resolve cwd (path_join2 (logsDir b) (path_clean name)) in
    l = resolve cwd (logsDir b) ∨ ∃ n, comp_ok n ∧ n ≠ dotdot ∧ l = n :: resolve cwd (logsDir b)) as Hl.
  { destruct (guarded_name name Hn Hb) as [->|[Hc Hdd]]; cbn zeta.
    - left. by rewrite resolve_join.
    - right. pose proof Hc as (H1 & H2 & H3). exists (path_clean name). split_and!; [done|done|].
      rewrite resolve_join by done. unfold push_path. rewrite split_byte_plain by done. cbn [fold_left].
      by apply push_comp_ordinary. }
  destruct (stat _ fs) as [[|data t]| |] eqn:Hst; [intros [= <-]|intros [= <-]|done..].
  - left. unfold tail_search. rewrite drop_nil. by case_if.
  - right. apply stat_file in Hst. exists (resolve cwd (path_join2 (logsDir b) (path_clean name))), data, t.
    split; [done|]. split; [done|].
    pose proof (tail_search_sub (tail_param tail) q (scan_limited data)) as [Hs Hlen]. split; [done|].
    assert (tail_param tail ≤ 2000)%Z by (unfold tail_param; lia). lia.
Qed.
End log_facts.

(** ** Durability of settings *)

Section durable.
Context {J : ConfigJSON} (W : loc → bool) (cwd : loc) (now : Z).

(** Saving one file leaves the other files alone. *)
Lemma save_file_other path data fs r l d t :
  l ≠ resolve cwd path → fs !! l = Some (NFile d t) →
  (save_file W cwd now path data fs) = r → r.2 !! l = Some (NFile d t).
Proof.
  intros Hne Hl <-. unfold save_file.
  pose proof (mkdir_all_files W (resolve cwd (path_dirname path)) fs l d t) as Hm.
  destruct (mkdir_all W _ fs) as [[] fs1]; cbn [negb snd] in *; [|by apply Hm].
  destruct (open_trunc W now _ fs1) as [fs2|] eqn:E; cbn [snd]; [|by apply Hm].
  apply open_trunc_same_off in E as [Hoff _]. unfold write_data. rewrite lookup_alter_ne by done.
  rewrite (Hoff l) by done. by apply Hm.
Qed.


(** The administration endpoints look for the logs in another place than
    the node writes them: [NewBase] logs under the root and leaves the
    configuration's log file, from which [logsDir] derives the directory, unset. *)
Theorem logs_served_elsewhere cfg root iann id fs b fs' :
  NewBase W cwd now cfg root iann (Some id) fs = Some (b, fs') →
  root ≠ ""%string → lc_File (c_Log cfg) = ""%string → resolve cwd root ≠ cwd →
  comp_ok (c_Mode cfg ++s ".log") → (c_Mode cfg ++s ".log")%string ≠ dotdot →
  resolve cwd (path_dirname (b_LogFile b)) = "logs"%string :: resolve cwd root ∧
  resolve cwd (logsDir b) = "logs"%string :: cwd ∧
  resolve cwd (logsDir b) ≠ resolve cwd (path_dirname (b_LogFile b)).
Proof.
  intros H Hr Hlog Hne Hm Hmd. unfold NewBase in H. rewrite (proj2 (String.eqb_neq _ _) Hr) in H.
  destruct (check_emblem W cwd now cfg fs) as [cfg' fs1] eqn:Ee. injection H as <- <-.
  assert (c_Mode cfg' = c_Mode cfg ∧ c_Log cfg' = c_Log cfg) as [Hm' Hl'].
  { unfold check_emblem in Ee. revert Ee. repeat case_match; intros; simplify_eq; done. }
  unfold logsDir. cbn [b_LogFile b_Cfg]. rewrite Hl', Hlog, Hm'. cbn [String.eqb].
  set (f := (c_Mode cfg ++s ".log")%string) in *. pose proof Hm as (H1 & H2 & H3).
  change (String "l" (String "o" (String "g" (String "s" (String "/" f)))))%char
    with ("logs" ++s "/" ++s f)%string.
  assert (push_path false [] ("logs" ++s "/" ++s f) = [f; "logs"%string]) as Hpp.
  { unfold push_path. rewrite split_byte_join, (split_byte_plain slash f) by done.
    change (split_byte slash "logs") with ["logs"%string]. cbn [app fold_left].
    change (push_comp false [] "logs") with ["logs"%string]. by rewrite push_comp_ordinary. }
  assert (resolve cwd (path_dirname (path_join2 root ("logs" ++s "/" ++s f))) = "logs"%string :: resolve cwd root) as Hdir.
  { rewrite resolve_dirname_below; [by rewrite Hpp|done|done| |by rewrite Hpp].
    unfold stays_below. rewrite Hpp. apply bool_decide_eq_true. rewrite !not_elem_of_cons.
    split_and!; [by apply not_eq_sym|done|apply not_elem_of_nil]. }
  rewrite Hdir. split; [done|]. split; [done|]. by intros [= H].
Qed.
End durable.

(** ** Witnesses *)

#[local] Existing Instance ascii_tables.
#[local] Existing Instance toy_config_json.

Definition log_disk : hostfs :=
  {[ ["logs"%string] := NDir; ["node.log"; "logs"]%string := NFile ("a" ++s str1 nl ++s "b" ++s str1 nl) 1 ]}.

Example logfile_confined_witness :
  [ "b" ]%string = [] ∨
  ∃ l data t, (l = resolve [] (logsDir srv_base) ∨
               ∃ n, comp_ok n ∧ n ≠ dotdot ∧ l = n :: resolve [] (logsDir srv_base)) ∧
    log_disk !! l = Some (NFile data t) ∧ sublist ["b"%string] (scan_limited data) ∧ length ["b"%string] ≤ 2000.
Proof. apply (logfile_confined [] "GET" "./node.log" "1" ""). vm_refl. Defined.

Definition protect : list (string * any) := [("auth_mode"%string, AStr "protected")].
Definition auth_base : Base :=
  with_settings (srv_cfg "control") (mkAuthCfg "public" "" "" [] [] [] "/srv/auth.json") srv_base.
Definition protected_base : Base :=
  with_settings (srv_cfg "control") (mkAuthCfg "protected" "" "" [] [] [] "/srv/auth.json") srv_base.
Definition put_disk : hostfs :=
  <[["auth.json"; "srv"]%string := NFile "protected" 9]>
    (<[["node.json"; "srv"]%string := NFile "control" 9]> bare_disk).


Example logs_served_elsewhere_witness :
  resolve ["home"%string] (path_dirname (b_LogFile srv_base)) = "logs"%string :: resolve ["home"%string] "/srv" ∧
  resolve ["home"%string] (logsDir srv_base) = "logs"%string :: ["home"%string] ∧
  resolve ["home"%string] (logsDir srv_base) ≠ resolve ["home"%string] (path_dirname (b_LogFile srv_base)).
Proof.
  apply (logs_served_elsewhere every ["home"%string] 9 (srv_cfg "control") "/srv" None some_id torn_disk srv_base
    torn_disk); [vm_refl|done|done|by vm_compute|by split_and!|done].
Defined.
