(* ===== verification/LogStream.v ===== *)
(** * pkg/tunnel/admin.go: log streams over the ring buffer

    [HandleAdminLogsStream] subscribes a channel of the ring buffer of
    [pkg/glog], writes each line it receives as a server-sent event, and
    unsubscribes when the client goes away.  Any number of streams run beside
    the writers: a history interleaves the lines written, the streams opened,
    the receives and the departures in any order. *)

From S2P Require Import Prelude GoStrings GoStringsFacts Glog AdminHttp.
From Stdlib Require Import ZArith Lia ZifyBool Bool Ascii String.
From stdpp Require Import base option list gmap strings.

Open Scope go_scope.

(** One call of the handler: its channel, what it has sent, whether it runs. *)
Record stream := mkStream { st_chan : nat; st_text : string; st_open : bool }.

Record hub := mkHub { h_buf : RingBuffer; h_streams : list stream }.

(** A line is logged; a request arrives, over a connection that can or cannot
    be flushed; the [select] of the [i]-th stream takes the next line, or the
    end of its request. *)
Inductive hub_event :=
  | HLine (line : string)
  | HOpen (flushes : bool)
  | HNext (i : nat)
  | HGone (i : nat).

(** pkg/tunnel/admin.go:338-363 [Base.HandleAdminLogsStream]: [None] is a panic;
    a stream whose channel is empty waits. *)
Definition hub_step (e : hub_event) (h : hub) : option hub :=
  match e with
  | HLine line => b ← Write line (h_buf h); Some (mkHub b (h_streams h))
  | HOpen flushes =>
      if negb flushes then Some h
      else let '(b, c) := Subscribe (h_buf h) in Some (mkHub b (h_streams h ++ [mkStream c "" true]))
  | HNext i =>
      match h_streams h !! i with
      | Some (mkStream c text true) =>
          match receive c (h_buf h) with
          | Some (line, b) => Some (mkHub b (<[i := mkStream c (text ++s sse_event line) true]> (h_streams h)))
          | None => Some h
          end
      | _ => Some h
      end
  | HGone i =>
      match h_streams h !! i with
      | Some (mkStream c text true) =>
          b ← Unsubscribe c (h_buf h); Some (mkHub b (<[i := mkStream c text false]> (h_streams h)))
      | _ => Some h
      end
  end.

Fixpoint hub_run (es : list hub_event) (h : hub) : option hub :=
  match es with
  | [] => Some h
  | e :: es' => match hub_step e h with None => None | Some h' => hub_run es' h' end
  end.

Definition logged (es : list hub_event) : list string :=
  omap (λ e, match e with HLine l => Some l | _ => None end) es.

Definition events_text (lines : list string) : string :=
  fold_right (λ l acc, sse_event l ++s acc) "" lines.

Lemma events_text_app a b : events_text (a ++ b) = events_text a ++s events_text b.
Proof.
  unfold events_text. induction a as [|x a IH]; cbn [app fold_right]; [done|].
  by rewrite IH, sapp_assoc.
Qed.

(** Each stream has sent, in order, lines of the log [log], and what waits in
    its channel comes after them; the channels subscribed are those of the
    streams that run. *)
Record hub_ok (cap : nat) (log : list string) (h : hub) : Prop := {
  hu_ring : ring_ok cap log (h_buf h);
  hu_subs : subs_ok (h_buf h);
  hu_text : ∀ i s, h_streams h !! i = Some s →
    ∃ lines, st_text s = events_text lines ∧
             lines ++ pending (st_chan s) (h_buf h) `sublist_of` log;
  hu_open : ∀ c, c ∈ rb_subs (h_buf h) ↔ ∃ i t, h_streams h !! i = Some (mkStream c t true);
  hu_inj : ∀ i j s s', h_streams h !! i = Some s → h_streams h !! j = Some s' →
    st_chan s = st_chan s' → i = j;
  hu_next : ∀ i s, h_streams h !! i = Some s → (st_chan s < rb_next (h_buf h))%nat
}.

Lemma hub_ok_new cap : hub_ok cap [] (mkHub (NewRingBuffer cap) []).
Proof.
  split; simpl; [apply ring_ok_new|apply subs_ok_new|done| |done|done].
  intros c. rewrite elem_of_nil. naive_solver.
Qed.

Lemma Write_frame line b b' : Write line b = Some b' → rb_subs b' = rb_subs b ∧ rb_next b' = rb_next b.
Proof.
  unfold Write, write_line, notify. case_if; [done|]. simpl.
  destruct (fold_left _ _ _); [|done]. by intros [= <-].
Qed.

Lemma receive_frame c b x b' : receive c b = Some (x, b') → rb_subs b' = rb_subs b ∧ rb_next b' = rb_next b.
Proof. intros (q & cl & _ & ->)%receive_alter. done. Qed.

Lemma hub_line cap log line h :
  (0 < cap)%nat → hub_ok cap log h →
  ∃ h', hub_step (HLine line) h = Some h' ∧ hub_ok cap (log ++ [line]) h'.
Proof.
  intros Hc [H1 H2 H3 H4 H5 H6].
  destruct (write_line_ok cap log line _ Hc H1) as (b1 & E1 & _ & S1 & C1 & N1).
  assert (subs_ok b1) as Hs1 by (destruct H2; split; by rewrite ?S1, ?C1, ?N1).
  destruct (notify_ok line b1 Hs1) as (b2 & E2 & _).
  assert (Write line (h_buf h) = Some b2) as Hw by (unfold Write; by rewrite E1).
  destruct (log_step_ok cap (OWrite line) log _ _ Hc H1 H2 Hw) as [R2 S2].
  destruct (Write_frame _ _ _ Hw) as [Fs Fn].
  exists (mkHub b2 (h_streams h)). cbn [hub_step]. rewrite Hw. split; [done|].
  split; simpl; rewrite ?Fs, ?Fn; [done..| |done|done|done].
  intros i s Hi. destruct (H3 i s Hi) as (lines & Ht & Hl). exists lines. split; [done|].
  destruct (pending_step (st_chan s) (OWrite line) _ _ H2 Hw) as (added & Hp & Ha). simpl in Hp, Ha.
  rewrite <-Hp, (assoc_L (++)). by apply sublist_app.
Qed.

Lemma hub_open cap log flushes h :
  (0 < cap)%nat → hub_ok cap log h →
  ∃ h', hub_step (HOpen flushes) h = Some h' ∧ hub_ok cap log h'.
Proof.
  intros Hc Hok. destruct flushes; [|by exists h]. destruct Hok as [H1 H2 H3 H4 H5 H6].
  eexists. split; [done|].
  destruct (log_step_ok cap OSubscribe log _ _ Hc H1 H2 eq_refl) as [R2 S2].
  simpl in R2. rewrite app_nil_r in R2.
  assert (∀ i s, (h_streams h ++ [mkStream (rb_next (h_buf h)) "" true]) !! i = Some s →
    h_streams h !! i = Some s ∨ i = length (h_streams h) ∧ s = mkStream (rb_next (h_buf h)) "" true) as Hcase.
  { intros i s [Hi|[Hge Hi]]%lookup_app_Some; [by left|right].
    destruct (i - length (h_streams h))%nat eqn:E; [|done]. injection Hi as <-. split; [lia|done]. }
  split; cbn [h_buf h_streams]; [done|done| | | |].
  - intros i s [Hi|[-> ->]]%Hcase; simpl.
    + destruct (H3 i s Hi) as (lines & Ht & Hl). exists lines. split; [done|].
      destruct (pending_step (st_chan s) OSubscribe _ _ H2 eq_refl) as (added & Hp & Ha).
      simpl in Hp, Ha. apply sublist_nil_r in Ha as ->. rewrite app_nil_r in Hp. by rewrite <-Hp.
    + exists []. split; [done|]. unfold pending. simpl. rewrite lookup_insert_eq. apply sublist_nil_l.
  - intros c. simpl. rewrite elem_of_app, list_elem_of_singleton, H4. split.
    + intros [(i & t & Hi)| ->]; [exists i, t; by apply lookup_app_l_Some|].
      exists (length (h_streams h)), "". by rewrite list_lookup_middle.
    + intros (i & t & [Hi|[_ [= ->]]]%Hcase); [left; by exists i, t|by right].
  - intros i j s s' [Hi|[-> ->]]%Hcase [Hj|[-> ->]]%Hcase Hs; simpl in *.
    + by eapply H5.
    + apply H6 in Hi. lia.
    + apply H6 in Hj. lia.
    + done.
  - intros i s [Hi|[-> ->]]%Hcase; simpl; [apply H6 in Hi|]; lia.
Qed.

(** The [i]-th stream moves on: the others are as they were. *)
Lemma hub_move cap log h b i c text text' o op :
  (0 < cap)%nat → hub_ok cap log h → h_streams h !! i = Some (mkStream c text true) →
  log_step op (h_buf h) = Some b → written [op] = [] → rb_next b = rb_next (h_buf h) →
  (∀ d, d ∈ rb_subs b ↔ d ∈ rb_subs (h_buf h) ∧ (o = true ∨ d ≠ c)) →
  (∀ d, op = OReceive d → d = c) →
  (∃ lines, text' = events_text lines ∧ lines ++ pending c b `sublist_of` log) →
  hub_ok cap log (mkHub b (<[i := mkStream c text' o]> (h_streams h))).
Proof.
  intros Hc [H1 H2 H3 H4 H5 H6] Hi Hop Hw Hn Hsub Hr Hlines.
  destruct (log_step_ok cap op log _ _ Hc H1 H2 Hop) as [R2 S2]. rewrite Hw, app_nil_r in R2.
  assert (∀ j s, <[i := mkStream c text' o]> (h_streams h) !! j = Some s →
    j = i ∧ s = mkStream c text' o ∨ j ≠ i ∧ h_streams h !! j = Some s) as Hcase.
  { intros j s. rewrite list_lookup_insert_Some. naive_solver. }
  assert (∀ j s, h_streams h !! j = Some s → j ≠ i → st_chan s ≠ c) as Hother.
  { intros j s Hj Hji He. by apply Hji, (H5 j i s (mkStream c text true)). }
  split; cbn [h_buf h_streams]; [done|done| | | |].
  - intros j s [[-> ->]|[Hji Hj]]%Hcase; [done|].
    destruct (H3 j s Hj) as (lines & Ht & Hl). exists lines. split; [done|].
    destruct (pending_step (st_chan s) op _ _ H2 Hop) as (added & Hp & Ha).
    rewrite Hw in Ha. apply sublist_nil_r in Ha as ->. rewrite app_nil_r in Hp.
    assert (pending (st_chan s) (h_buf h) = pending (st_chan s) b) as <-; [|done].
    rewrite Hp. destruct op as [| | |d]; try done.
    rewrite (Hr d eq_refl). destruct (Nat.eqb_spec c (st_chan s)) as [He|]; [|done].
    by destruct (Hother j s Hj Hji).
  - intros d. rewrite Hsub, H4. split.
    + intros [(j & t & Hj) Hd]. destruct (decide (j = i)) as [-> |Hji].
      * simplify_eq. destruct Hd as [-> |?]; [|done]. exists i, text'.
        apply list_lookup_insert_eq. by eapply lookup_lt_Some.
      * exists j, t. by rewrite list_lookup_insert_ne.
    + intros (j & t & [[-> Heq]|[Hji Hj]]%Hcase).
      * simplify_eq. split; [by exists i, text|by left].
      * split; [by exists j, t|]. right. exact (Hother j _ Hj Hji).
  - intros j k s s' [[-> ->]|[? Hj]]%Hcase [[-> ->]|[? Hk]]%Hcase Hs; simpl in *; [done| | |by eapply H5].
    + by destruct (Hother k s' Hk).
    + by destruct (Hother j s Hj).
  - intros j s. rewrite Hn. intros [[-> ->]|[_ Hj]]%Hcase; [|by eapply H6]. exact (H6 i _ Hi).
Qed.

Lemma hub_next cap log i h :
  (0 < cap)%nat → hub_ok cap log h → ∃ h', hub_step (HNext i) h = Some h' ∧ hub_ok cap log h'.
Proof.
  intros Hc Hok. cbn [hub_step].
  destruct (h_streams h !! i) as [[c text []]|] eqn:Hi; [|by exists h..].
  destruct (receive c (h_buf h)) as [[line b]|] eqn:Er; [|by exists h].
  eexists. split; [done|]. destruct (receive_frame _ _ _ _ Er) as [Fs Fn].
  assert (log_step (OReceive c) (h_buf h) = Some b) as Hop by (simpl; by rewrite Er).
  eapply (hub_move cap log h b i c text _ true (OReceive c)); try done.
  - intros d. rewrite Fs. naive_solver.
  - by intros d [= ->].
  - destruct (hu_text _ _ _ Hok i _ Hi) as (lines & Ht & Hl). simpl in Ht, Hl.
    exists (lines ++ [line]). split; [rewrite events_text_app, Ht; unfold events_text at 3; cbn [fold_right]; by rewrite sapp_nil_r|].
    destruct (pending_step c (OReceive c) _ _ (hu_subs _ _ _ Hok) Hop) as (added & Hp & Ha).
    simpl in Ha. apply sublist_nil_r in Ha as ->. rewrite app_nil_r, Nat.eqb_refl, Er in Hp.
    by rewrite <-(assoc_L (++)), <-Hp.
Qed.

Lemma hub_gone cap log i h :
  (0 < cap)%nat → hub_ok cap log h → ∃ h', hub_step (HGone i) h = Some h' ∧ hub_ok cap log h'.
Proof.
  intros Hc Hok. cbn [hub_step].
  destruct (h_streams h !! i) as [[c text []]|] eqn:Hi; [|by exists h..].
  assert (c ∈ rb_subs (h_buf h)) as Hin by (apply (hu_open _ _ _ Hok); by exists i, text).
  apply (so_open _ (hu_subs _ _ _ Hok)) in Hin as (k & Hk & Ho).
  destruct (Unsubscribe c (h_buf h)) as [b|] eqn:Eu; [|unfold Unsubscribe in Eu; by rewrite Hk, Ho in Eu].
  eexists. split; [done|]. assert (log_step (OUnsubscribe c) (h_buf h) = Some b) as Hop by done.
  assert (rb_next b = rb_next (h_buf h) ∧ rb_subs b = remove_first c (rb_subs (h_buf h))) as [Fn Fs].
  { unfold Unsubscribe in Eu. rewrite Hk, Ho in Eu. by injection Eu as <-. }
  eapply (hub_move cap log h b i c text text false (OUnsubscribe c)); try done.
  - intros d. rewrite Fs, remove_first_elem by apply (so_nodup _ (hu_subs _ _ _ Hok)). naive_solver.
  - destruct (hu_text _ _ _ Hok i _ Hi) as (lines & Ht & Hl). exists lines. split; [done|].
    destruct (pending_step c (OUnsubscribe c) _ _ (hu_subs _ _ _ Hok) Hop) as (added & Hp & Ha).
    simpl in Hp, Ha. apply sublist_nil_r in Ha as ->. rewrite app_nil_r in Hp. by rewrite <-Hp.
Qed.

(** C24: Whatever lines are logged and whatever streams open, read and leave, in any
    order: nothing panics (no send on a closed channel, no channel closed
    twice); every client has received a sequence of whole events, in the order
    the lines were logged, none twice; and no channel stays subscribed after
    its stream has ended. *)
Theorem log_streams_safe (cap : nat) (es : list hub_event) :
  (0 < cap)%nat →
  ∃ h, hub_run es (mkHub (NewRingBuffer cap) []) = Some h ∧
    (∀ i s, h_streams h !! i = Some s →
       ∃ lines, st_text s = events_text lines ∧ lines `sublist_of` logged es) ∧
    (∀ c, c ∈ rb_subs (h_buf h) ↔ ∃ i t, h_streams h !! i = Some (mkStream c t true)).
Proof.
  intros Hc.
  assert (∀ log h, hub_ok cap log h → ∃ h', hub_run es h = Some h' ∧ hub_ok cap (log ++ logged es) h') as Hrun.
  { induction es as [|e es IH]; intros log h Hok; [exists h; by rewrite app_nil_r|].
    assert (∃ h', hub_step e h = Some h' ∧ hub_ok cap (log ++ logged [e]) h') as (h1 & E1 & Hok1).
    { destruct e as [line|fl|i|i]; simpl logged; rewrite ?app_nil_r;
        [by apply hub_line|by apply hub_open|by apply hub_next|by apply hub_gone]. }
    destruct (IH _ _ Hok1) as (h2 & E2 & Hok2). exists h2. cbn [hub_run]. rewrite E1. split; [done|].
    rewrite <-(assoc_L (++)) in Hok2. unfold logged in *. by rewrite <-omap_app in Hok2. }
  destruct (Hrun [] _ (hub_ok_new cap)) as (h & E & [_ _ H3 H4 _ _]). exists h. split_and!; [done| |done].
  intros i s Hi. destruct (H3 i s Hi) as (lines & Ht & Hl). exists lines. split; [done|].
  etrans; [|exact Hl]. by apply sublist_inserts_r.
Qed.

Lemma log_streams_safe_witness :
  let es := [HLine "a"; HOpen true; HLine "b"; HOpen true; HNext 0; HLine "c"; HGone 0; HNext 1; HGone 1]%string in
  ∃ h, hub_run es (mkHub (NewRingBuffer 2) []) = Some h ∧
    (∀ i s, h_streams h !! i = Some s →
       ∃ lines, st_text s = events_text lines ∧ lines `sublist_of` logged es) ∧
    (∀ c, c ∈ rb_subs (h_buf h) ↔ ∃ i t, h_streams h !! i = Some (mkStream c t true)).
Proof.
  apply (log_streams_safe 2
    [HLine "a"; HOpen true; HLine "b"; HOpen true; HNext 0; HLine "c"; HGone 0; HNext 1; HGone 1]%string).
  lia.
Defined.
