(* ===== verification/UdpMux.v ===== *)
(** * pkg/tunnel/mux.go: demultiplexing the node's UDP socket

    One goroutine reads datagrams and hands each to one of three bounded
    channels by its first byte, dropping it when the channel is full.  The
    events are the datagrams, the receives of the three consumers, a failing
    read and [Close]; they refine three independent bounded queues. *)

From S2P Require Import Prelude GoStrings GoStringsFacts.
From Stdlib Require Import ZArith Lia ZifyBool Bool Ascii String.
From stdpp Require Import base option list strings.

Open Scope go_scope.

(** pkg/tunnel/mux.go:9-12 [UDPPacket] *)
Record UDPPacket := mkPkt { pk_Data : string; pk_Addr : string }.

Inductive kind := KSig | KPunch | KQuic.
#[export] Instance kind_eq_dec : EqDecision kind.
Proof. solve_decision. Defined.

(** pkg/tunnel/mux.go:22-25 [PrefixSignal] *)
Definition PrefixSignal : ascii := ch 0.
Definition PrefixPunch : ascii := ch 1.

(** pkg/tunnel/mux.go:64-79 [MuxPacketConn.dispatch part]: the channel of a
    datagram and what is sent on it. *)
Definition classify (data : string) : kind * string :=
  match data with
  | String c rest =>
      if c =c? PrefixSignal then (KSig, rest)
      else if c =c? PrefixPunch then (KPunch, rest)
      else (KQuic, data)
  | EmptyString => (KQuic, data)
  end.

(** pkg/tunnel/mux.go:45-47 [NewMuxPacketConn part] *)
Definition capacity (k : kind) : nat := match k with KSig | KPunch => 64 | KQuic => 512 end.

(** pkg/tunnel/mux.go:32-39 [MuxPacketConn]: the channels, whether the reader
    has ended and whether the socket was closed. *)
Record MuxPacketConn := mkMux {
  mx_SigCh : list UDPPacket; mx_PunchCh : list UDPPacket; mx_quicCh : list UDPPacket;
  mx_done : bool; mx_closed : bool
}.

(** pkg/tunnel/mux.go:42-52 [NewMuxPacketConn] *)
Definition NewMuxPacketConn : MuxPacketConn := mkMux [] [] [] false false.

Definition queue (k : kind) (m : MuxPacketConn) : list UDPPacket :=
  match k with KSig => mx_SigCh m | KPunch => mx_PunchCh m | KQuic => mx_quicCh m end.
Definition set_queue (k : kind) (q : list UDPPacket) (m : MuxPacketConn) : MuxPacketConn :=
  match k with
  | KSig => mkMux q (mx_PunchCh m) (mx_quicCh m) (mx_done m) (mx_closed m)
  | KPunch => mkMux (mx_SigCh m) q (mx_quicCh m) (mx_done m) (mx_closed m)
  | KQuic => mkMux (mx_SigCh m) (mx_PunchCh m) q (mx_done m) (mx_closed m)
  end.

(** A send in a [select] with a default branch. *)
Definition try_send (cap : nat) (p : UDPPacket) (q : list UDPPacket) : list UDPPacket :=
  if length q <? cap then q ++ [p] else q.

(** pkg/tunnel/mux.go:57-80 [MuxPacketConn.dispatch part]: one datagram. *)
Definition dispatch (data addr : string) (m : MuxPacketConn) : MuxPacketConn :=
  if mx_done m then m
  else let '(k, payload) := classify data in
       set_queue k (try_send (capacity k) (mkPkt payload addr) (queue k m)) m.

(** pkg/tunnel/mux.go:58-61 [MuxPacketConn.dispatch part]: a failing read ends
    the reader. *)
Definition dispatch_error (m : MuxPacketConn) : MuxPacketConn :=
  mkMux (mx_SigCh m) (mx_PunchCh m) (mx_quicCh m) true (mx_closed m).

(** A receive on one of the exported channels; [None] blocks. *)
Definition receive_from (k : kind) (m : MuxPacketConn) : option UDPPacket * MuxPacketConn :=
  match queue k m with
  | [] => (None, m)
  | p :: q => (Some p, set_queue k q m)
  end.

Inductive read_result := RPacket (data addr : string) | RClosed | RBlocks.

(** pkg/tunnel/mux.go:84-92 [MuxPacketConn.ReadFrom]: a buffer of [len] bytes;
    [pick] is the choice of [select] when both branches are ready. *)
Definition ReadFrom (len : nat) (pick : bool) (m : MuxPacketConn) : read_result * MuxPacketConn :=
  if mx_done m && (pick || bool_decide (mx_quicCh m = [])) then (RClosed, m)
  else match receive_from KQuic m with
       | (Some p, m) => (RPacket (take_str len (pk_Data p)) (pk_Addr p), m)
       | (None, m) => (RBlocks, m)
       end.

(** pkg/tunnel/mux.go:95-101 [MuxPacketConn.Close]: whether the socket is closed now. *)
Definition CloseMux (m : MuxPacketConn) : bool * MuxPacketConn :=
  (negb (mx_closed m), mkMux (mx_SigCh m) (mx_PunchCh m) (mx_quicCh m) (mx_done m) true).

(** ** Runs *)

Inductive mux_event :=
  | EvPacket (data addr : string)
  | EvError
  | EvRecv (k : kind)
  | EvClose.

(** A step and the packet a receive delivers. *)
Definition mux_step (m : MuxPacketConn) (e : mux_event) : MuxPacketConn * list (kind * UDPPacket) :=
  match e with
  | EvPacket data addr => (dispatch data addr m, [])
  | EvError => (dispatch_error m, [])
  | EvRecv k => match receive_from k m with
                | (Some p, m) => (m, [(k, p)])
                | (None, m) => (m, [])
                end
  | EvClose => ((CloseMux m).2, [])
  end.

Fixpoint mux_run (m : MuxPacketConn) (es : list mux_event) : MuxPacketConn * list (kind * UDPPacket) :=
  match es with
  | [] => (m, [])
  | e :: es => let '(m, o) := mux_step m e in let '(m, os) := mux_run m es in (m, o ++ os)
  end.

(** ** The specification: one bounded queue *)

Inductive queue_op := Put (p : UDPPacket) | Get.

Definition queue_step (cap : nat) (q : list UDPPacket) (op : queue_op) : list UDPPacket * list UDPPacket :=
  match op with
  | Put p => (try_send cap p q, [])
  | Get => match q with [] => ([], []) | p :: q => (q, [p]) end
  end.

Fixpoint queue_run (cap : nat) (q : list UDPPacket) (ops : list queue_op) : list UDPPacket * list UDPPacket :=
  match ops with
  | [] => (q, [])
  | op :: ops => let '(q, o) := queue_step cap q op in let '(q, os) := queue_run cap q ops in (q, o ++ os)
  end.

(** What the events mean for channel [k]; nothing arrives after a read error. *)
Fixpoint ops_of (k : kind) (done : bool) (es : list mux_event) : list queue_op :=
  match es with
  | [] => []
  | EvPacket data addr :: es =>
      let '(k', payload) := classify data in
      (if negb done && bool_decide (k' = k) then [Put (mkPkt payload addr)] else []) ++ ops_of k done es
  | EvError :: es => ops_of k true es
  | EvRecv k' :: es => (if bool_decide (k' = k) then [Get] else []) ++ ops_of k done es
  | EvClose :: es => ops_of k done es
  end.

Definition of_kind (k : kind) (o : list (kind * UDPPacket)) : list UDPPacket :=
  omap (λ x, if bool_decide (x.1 = k) then Some x.2 else None) o.

Lemma queue_set k k' q m : queue k (set_queue k' q m) = if bool_decide (k' = k) then q else queue k m.
Proof. by destruct k, k'. Qed.
Lemma done_set k q m : mx_done (set_queue k q m) = mx_done m.
Proof. by destruct k. Qed.

Lemma mux_run_queue k es m :
  (queue k (mux_run m es).1, of_kind k (mux_run m es).2) =
  queue_run (capacity k) (queue k m) (ops_of k (mx_done m) es).
Proof.
  revert m. induction es as [|e es IH]; intros m; [done|]. cbn [mux_run ops_of].
  destruct e as [data addr| |k'|]; cbn [mux_step].
  - destruct (mux_run (dispatch data addr m) es) as [m' o] eqn:Er. cbn [app fst snd].
    specialize (IH (dispatch data addr m)). rewrite Er in IH. cbn [fst snd] in IH. rewrite IH.
    unfold dispatch. destruct (classify data) as [k' payload]. destruct (mx_done m) eqn:Ed; cbn [negb andb app].
    + by rewrite Ed.
    + rewrite done_set, queue_set, Ed. case_bool_decide as Hk; [subst|done]. cbn [app queue_run queue_step].
      by case (queue_run _ _ _).
  - specialize (IH (dispatch_error m)). destruct (mux_run (dispatch_error m) es) as [m' o]. cbn in *. by destruct k.
  - unfold receive_from. destruct (queue k' m) as [|p q] eqn:Eq.
    + specialize (IH m). destruct (mux_run m es) as [m' o]. cbn [app fst snd] in *. rewrite IH.
      case_bool_decide as Hk; [subst|done]. cbn [app queue_run queue_step]. rewrite Eq.
      by case (queue_run _ _ _).
    + specialize (IH (set_queue k' q m)). destruct (mux_run (set_queue k' q m) es) as [m' o].
      cbn [app fst snd] in *. rewrite done_set, queue_set in IH. unfold of_kind in *. cbn [omap list_omap fst snd].
      case_bool_decide as Hk; [subst|].
      * cbn [app queue_run queue_step]. rewrite Eq. destruct (queue_run _ q _). cbn [app]. by injection IH as -> ->.
      * done.
  - specialize (IH (CloseMux m).2). destruct (mux_run (CloseMux m).2 es) as [m' o]. cbn in *. by destruct k.
Qed.

Definition puts (ops : list queue_op) : list UDPPacket :=
  omap (λ op, match op with Put p => Some p | Get => None end) ops.

Lemma queue_run_spec cap ops q :
  length q ≤ cap →
  let '(q', out) := queue_run cap q ops in
  length q' ≤ cap ∧ sublist (out ++ q') (q ++ puts ops) ∧
  (length q + length (puts ops) ≤ cap → out ++ q' = q ++ puts ops).
Proof.
  revert q. induction ops as [|op ops IH]; intros q Hq; cbn [queue_run].
  { cbn. rewrite app_nil_r. by split_and!. }
  destruct op as [p|]; cbn [queue_step].
  - assert (length (try_send cap p q) ≤ cap) as Hlen.
    { unfold try_send. case_if; [rewrite length_app; cbn; lia|done]. }
    specialize (IH (try_send cap p q) Hlen). destruct (queue_run cap (try_send cap p q) ops) as [q' out].
    destruct IH as (H1 & H2 & H3). cbn [app]. split; [done|]. unfold puts in *. cbn [omap list_omap].
    fold (puts ops) in *. unfold try_send in *. destruct (length q <? cap) eqn:E.
    + rewrite <-app_assoc in H2, H3. cbn [app] in H2, H3. split; [done|]. intros Hb. apply H3.
      rewrite length_app. cbn. cbn in Hb. lia.
    + split; [|intros Hb; cbn in Hb; apply Nat.ltb_ge in E; lia].
      etransitivity; [exact H2|]. apply sublist_app; [done|]. by apply sublist_cons.
  - change (puts (Get :: ops)) with (puts ops). destruct q as [|p q].
    + specialize (IH [] Hq). destruct (queue_run cap [] ops) as [q' out]. exact IH.
    + cbn in Hq. specialize (IH q ltac:(lia)). destruct (queue_run cap q ops) as [q' out].
      destruct IH as (H1 & H2 & H3). split; [done|]. cbn [app]. split; [by apply sublist_skip|].
      intros Hb. f_equal. apply H3. cbn [length] in Hb. lia.
Qed.

