(* ===== verification/Prometheus.v ===== *)
(** * pkg/tunnel/prometheus.go: reading Prometheus text metrics

    The line parser and the aggregation by declared type; floats are IEEE-754
    on [spec_float], their parsing is a class. *)

From S2P Require Import Prelude GoStrings GoStringsFacts Strconv Hardware GoAny NodeIdentity Probe.
From Stdlib Require Import ZArith Lia ZifyBool Bool Ascii String SpecFloat.
From stdpp Require Import base option list gmap strings.

Open Scope go_scope.

Definition f_add : float64 → float64 → float64 := SFadd 53 1024.

(** pkg/tunnel/prometheus.go:94-102 [splitNameAndRest part] *)
Definition ends_name (c : ascii) : bool := (c =c? "{") || (c =c? " ") || (c =c? ch 9).
Fixpoint name_end (line : string) : nat :=
  match line with
  | EmptyString => 0
  | String c line => if ends_name c then 0 else S (name_end line)
  end.

(** pkg/tunnel/prometheus.go:107-124 [splitNameAndRest part]: what follows the
    closing brace; [None] when there is none. *)
Fixpoint after_labels (inQuote escape : bool) (rest : string) : option string :=
  match rest with
  | EmptyString => None
  | String c rest =>
      if escape then after_labels inQuote false rest
      else if (c =c? "\") && inQuote then after_labels inQuote true rest
      else if c =c? ch 34 then after_labels (negb inQuote) false rest
      else if (c =c? "}") && negb inQuote then Some rest
      else after_labels inQuote false rest
  end.

(** pkg/tunnel/prometheus.go:93-128 [splitNameAndRest] *)
Definition splitNameAndRest (line : string) : string * string :=
  let nameEnd := name_end line in
  let name := take_str nameEnd line in
  let rest := drop_str nameEnd line in
  match rest with
  | String c body => if c =c? "{" then match after_labels false false body with
                                       | Some r => (name, r)
                                       | None => (name, rest)
                                       end
                     else (name, rest)
  | EmptyString => (name, rest)
  end.

Section parse.
Context {PF : ParseFloat}.

(** pkg/tunnel/prometheus.go:65-76 [ParsePrometheus part]: the key under which
    the type of a name is looked up first. *)
Definition kind_key (name : string) : string :=
  if has_suffix name "_bucket" then trim_suffix name "_bucket"
  else if has_suffix name "_sum" then trim_suffix name "_sum"
  else if has_suffix name "_count" then trim_suffix name "_count"
  else name.

Definition kind_of (types : gmap string string) (name : string) : string :=
  let kind := default ""%string (types !! kind_key name) in
  if kind =s? "" then default ""%string (types !! name) else kind.

Definition is_summed (kind : string) : bool :=
  (kind =s? "counter") || (kind =s? "histogram") || (kind =s? "summary").

(** What a line is: nothing, a type declaration or a sample. *)
Inductive prom_line := PSkip | PType (name kind : string) | PSample (name : string) (v : float64).

(** pkg/tunnel/prometheus.go:37-63 [ParsePrometheus part] *)
Definition classify_line (raw : string) : prom_line :=
  let line := trim_space raw in
  match line with
  | EmptyString => PSkip
  | String c _ =>
      if c =c? "#" then
        match fields line with
        | _ :: t :: n :: k :: _ => if t =s? "TYPE" then PType n k else PSkip
        | _ => PSkip
        end
      else
        let '(name, rest) := splitNameAndRest line in
        if name =s? "" then PSkip
        else let rest := trim_space rest in
             if rest =s? "" then PSkip
             else match fields rest with
                  | [] => PSkip
                  | f :: _ => match parse_float f with None => PSkip | Some v => PSample name v end
                  end
  end.

Definition prom_state : Type := gmap string string * gmap string float64.

(** pkg/tunnel/prometheus.go:36-85 [ParsePrometheus part]: one line. *)
Definition prom_step (st : prom_state) (raw : string) : prom_state :=
  let '(types, out) := st in
  match classify_line raw with
  | PSkip => (types, out)
  | PType n k => (<[n := k]> types, out)
  | PSample name v =>
      if is_summed (kind_of types name)
      then (types, <[name := f_add (default f_zero (out !! name)) v]> out)
      else (types, <[name := v]> out)
  end.

(** pkg/tunnel/prometheus.go:30-87 [ParsePrometheus]: the metrics and whether
    the text was read to its end. *)
Definition ParsePrometheus (text : string) : gmap string float64 * bool :=
  let '(lines, ok) := scan_max 8388608 text in
  ((fold_left prom_step lines (∅, ∅)).2, ok).

(** ** Labels *)

(** The exposition format's rendering of labels; values may hold anything. *)
Fixpoint escape_value (v : string) : string :=
  match v with
  | EmptyString => ""
  | String c v =>
      if (c =c? "\") then "\\" ++s escape_value v
      else if c =c? ch 34 then "\" ++s str1 (ch 34) ++s escape_value v
      else if c =c? nl then "\n" ++s escape_value v
      else String c (escape_value v)
  end.
Definition print_label (l : string * string) : string :=
  l.1 ++s "=" ++s str1 (ch 34) ++s escape_value l.2 ++s str1 (ch 34).

Definition plain_key (k : string) : bool := sforall (λ c, negb (c =c? ch 34) && negb (c =c? "}")) k.

Lemma after_labels_plain k r :
  plain_key k = true → after_labels false false (k ++s r) = after_labels false false r.
Proof.
  induction k as [|c k IH]; [done|]. unfold plain_key. cbn [sforall String.append].
  intros [[Hq Hb]%andb_true_iff Hk]%andb_true_iff. apply negb_true_iff in Hq, Hb.
  cbn [after_labels]. rewrite andb_false_r, Hq, Hb. cbn [andb]. by apply IH.
Qed.

Lemma after_labels_value v r :
  after_labels true false (escape_value v ++s str1 (ch 34) ++s r) = after_labels false false r.
Proof.
  induction v as [|c v IH]; [done|]. cbn [escape_value].
  destruct (Ascii.eqb_spec c "\"); [subst; exact IH|].
  destruct (Ascii.eqb_spec c (ch 34)) as [->|Hq]; [exact IH|].
  destruct (Ascii.eqb_spec c nl) as [->|Hn]; [exact IH|].
  cbn [String.append after_labels]. rewrite (proj2 (Ascii.eqb_neq c "\")), (proj2 (Ascii.eqb_neq c (ch 34))) by done.
  cbn [andb negb]. by rewrite andb_false_r.
Qed.

Lemma after_labels_labels ls r :
  Forall (λ l, plain_key l.1 = true) ls →
  after_labels false false (join_str "," (map print_label ls) ++s "}" ++s r) = Some r.
Proof.
  intros Hls. assert (∀ l t, plain_key l.1 = true →
    after_labels false false (print_label l ++s t) = after_labels false false t) as Hl.
  { intros [k v] t Hk. unfold print_label. cbn [fst snd] in *. rewrite !sapp_assoc, after_labels_plain by done.
    change ("=" ++s str1 (ch 34) ++s ?x)%string with ("=" ++s str1 (ch 34) ++s x)%string.
    exact (after_labels_value v t). }
  induction Hls as [|l ls Hk Hls IH]; [done|]. cbn [map]. destruct ls as [|l' ls].
  - cbn [map join_str]. by rewrite Hl.
  - change (join_str "," (print_label l :: map print_label (l' :: ls)))
      with (print_label l ++s "," ++s join_str "," (map print_label (l' :: ls))).
    rewrite sapp_assoc, Hl by done. exact IH.
Qed.

Lemma name_end_app n t :
  sforall (λ c, negb (ends_name c)) n = true → name_end (n ++s String "{" t) = String.length n.
Proof.
  induction n as [|c n IH]; [done|]. cbn [sforall String.append name_end String.length].
  intros [Hc Hn]%andb_true_iff. apply negb_true_iff in Hc. by rewrite Hc, IH.
Qed.

(** Labels never confuse the parser: for a printed label set whose values
    are arbitrary (braces, quotes, backslashes, newlines), the name and what
    follows the labels come back exactly. *)
Theorem split_labels name ls rest :
  sforall (λ c, negb (ends_name c)) name = true → Forall (λ l, plain_key l.1 = true) ls →
  splitNameAndRest (name ++s "{" ++s join_str "," (map print_label ls) ++s "}" ++s rest) = (name, rest).
Proof.
  intros Hn Hls. set (labels := join_str "," (map print_label ls)).
  change ("{" ++s labels ++s "}" ++s rest) with (String "{" (labels ++s "}" ++s rest)).
  unfold splitNameAndRest. rewrite name_end_app, take_str_app, drop_str_app by done.
  change ("{" =c? "{")%char with true. cbn iota. subst labels. by rewrite after_labels_labels.
Qed.

(** ** Aggregation *)

(** The values of a metric's samples, in order. *)
Definition samples (name : string) (lines : list string) : list float64 :=
  omap (λ l, match classify_line l with
             | PSample n v => if n =s? name then Some v else None
             | _ => None
             end) lines.

Definition no_type (l : string) : bool := match classify_line l with PType _ _ => false | _ => true end.
Definition no_sample (l : string) : bool := match classify_line l with PSample _ _ => false | _ => true end.

(** The aggregate of a non-empty list of values. *)
Definition aggregate (summed : bool) (vs : list float64) : option float64 :=
  match vs with
  | [] => None
  | _ => if summed then Some (fold_left f_add vs f_zero) else last vs
  end.

Lemma aggregate_snoc summed vs v :
  aggregate summed (vs ++ [v]) =
  Some (if summed then f_add (default f_zero (aggregate summed vs)) v else v).
Proof.
  destruct vs as [|x vs]; [by destruct summed|]. destruct summed.
  - change (aggregate true ((x :: vs) ++ [v])) with (Some (fold_left f_add ((x :: vs) ++ [v]) f_zero)).
    by rewrite fold_left_snoc.
  - change (aggregate false ((x :: vs) ++ [v])) with (last ((x :: vs) ++ [v])). by rewrite last_snoc.
Qed.

Lemma samples_fold types ls :
  forallb no_type ls = true →
  (fold_left prom_step ls (types, ∅)).1 = types ∧
  ∀ n, (fold_left prom_step ls (types, ∅)).2 !! n = aggregate (is_summed (kind_of types n)) (samples n ls).
Proof.
  induction ls as [|l ls IH] using rev_ind; [done|]. rewrite forallb_app, fold_left_snoc.
  cbn [forallb]. rewrite andb_true_r. intros [Hls Hl]%andb_true_iff. destruct (IH Hls) as [IH1 IH2]. clear IH.
  destruct (fold_left prom_step ls (types, ∅)) as [ty out]. cbn [fst snd] in *. subst ty.
  unfold samples. setoid_rewrite omap_app. cbn [omap list_omap]. unfold no_type in Hl. unfold prom_step.
  destruct (classify_line l) as [|? ?|name v]; [|done|].
  - cbn [fst snd]. split; [done|]. intros n. by rewrite app_nil_r.
  - split; [by destruct (is_summed _)|]. intros n. fold (samples n ls).
    destruct (String.eqb_spec name n) as [->|Hne].
    + rewrite aggregate_snoc, <-IH2. destruct (is_summed _); cbn [snd]; by rewrite lookup_insert_eq.
    + rewrite app_nil_r, <-IH2. destruct (is_summed _); cbn [snd]; by rewrite lookup_insert_ne.
Qed.

Lemma decls_fold ls st : forallb no_sample ls = true → (fold_left prom_step ls st).2 = st.2.
Proof.
  revert st. induction ls as [|l ls IH]; intros [types out]; [done|]. cbn [forallb fold_left].
  intros [Hl Hls]%andb_true_iff. rewrite IH by done. unfold prom_step, no_sample in *.
  by destruct (classify_line l).
Qed.

(** When the type declarations precede the samples, the value reported for
    a metric is the sum of its samples over all label sets if it is declared (or
    its histogram or summary is) as a cumulative type, the last sample
    otherwise, and absent exactly when it has no numeric sample. *)
Theorem prom_aggregates text decls ls :
  scan_max 8388608 text = (decls ++ ls, true) →
  forallb no_sample decls = true → forallb no_type ls = true →
  let types := (fold_left prom_step decls (∅, ∅)).1 in
  (ParsePrometheus text).2 = true ∧
  ∀ name, (ParsePrometheus text).1 !! name = aggregate (is_summed (kind_of types name)) (samples name ls).
Proof.
  intros Hs Hd Hl types. unfold ParsePrometheus. rewrite Hs, fold_left_app. split; [done|]. intros name. cbn [fst].
  pose proof (decls_fold decls (∅, ∅) Hd) as Hout. subst types.
  destruct (fold_left prom_step decls (∅, ∅)) as [types out]. cbn [fst snd] in *. subst out.
  by apply samples_fold.
Qed.
End parse.

(** ** Witnesses *)

#[local] Instance digits_float : ParseFloat := {| parse_float := λ s, match parse_uint s with
                                                                      | (n, None) => Some (f_of_Z n)
                                                                      | _ => None
                                                                      end |}.

Definition quote : string := str1 (ch 34).
Example split_labels_witness :
  splitNameAndRest ("m{" ++s "a=" ++s quote ++s "}" ++s quote ++s "} 3") = ("m", " 3")%string.
Proof. exact (split_labels "m" [("a", "}")]%string " 3" eq_refl ltac:(by repeat constructor)). Defined.

Definition vllm_text : string :=
  "# TYPE done counter" ++s str1 nl ++s "done{r=1} 2" ++s str1 nl ++s "done{r=2} 3" ++s str1 nl ++s
  "load 7" ++s str1 nl ++s "load 4" ++s str1 nl.

Example prom_aggregates_witness :
  (ParsePrometheus vllm_text).1 !! "done"%string = Some (f_of_Z 5) ∧
  (ParsePrometheus vllm_text).1 !! "load"%string = Some (f_of_Z 4).
Proof.
  destruct (prom_aggregates vllm_text ["# TYPE done counter"]%string
    ["done{r=1} 2"; "done{r=2} 3"; "load 7"; "load 4"]%string) as [_ H]; [vm_refl|vm_refl|vm_refl|].
  split; [rewrite (H "done"%string)|rewrite (H "load"%string)]; vm_refl.
Defined.
