(* ===== verification/Signal.v ===== *)
(** * pkg/signal/proto.go: the control frames on the wire

    A frame is a four-byte big-endian length and a JSON body.  A reader is the
    string of bytes still to come before the stream ends ([io.ReadFull] hides
    how the transport cuts it); a writer is the bytes delivered so far and a
    schedule of write failures, each delivering a prefix.  The JSON text of a
    message is the class [FrameJSON]. *)

From S2P Require Import Prelude GoStrings GoStringsFacts Strconv Hardware GoAny Tunnel.
From Stdlib Require Import ZArith Lia ZifyBool Bool Ascii String SpecFloat.
From stdpp Require Import base option list strings.

Open Scope go_scope.
Open Scope Z_scope.

(** ** Message types *)

(** pkg/signal/proto.go:30-30 [TypeHello part] *)
Definition TypeHello : string := "hello".
(** pkg/signal/proto.go:31-31 [TypeRegister part] *)
Definition TypeRegister : string := "register".
(** pkg/signal/proto.go:32-32 [TypeAck part] *)
Definition TypeAck : string := "ack".
(** pkg/signal/proto.go:33-33 [TypeConnect part] *)
Definition TypeConnect : string := "connect".
(** pkg/signal/proto.go:34-34 [TypeProxyInfo part] *)
Definition TypeProxyInfo : string := "proxy_info".
(** pkg/signal/proto.go:35-35 [TypePunch part] *)
Definition TypePunch : string := "punch".
(** pkg/signal/proto.go:36-36 [TypeError part] *)
Definition TypeError : string := "error".
(** pkg/signal/proto.go:37-37 [TypeStatusUpd part] *)
Definition TypeStatusUpd : string := "status_update".
(** pkg/signal/proto.go:38-38 [TypeServiceEvent part] *)
Definition TypeServiceEvent : string := "service_event".
(** pkg/signal/proto.go:39-39 [TypePing part] *)
Definition TypePing : string := "ping".
(** pkg/signal/proto.go:40-40 [TypeNeedRegister part] *)
Definition TypeNeedRegister : string := "need_register".

(** ** Framing *)

(** [json.Marshal] and [json.Unmarshal] of a [RendezvousMsg]. *)
Class FrameJSON := {
  marshal_msg : RendezvousMsg → option string;
  unmarshal_msg : string → option RendezvousMsg
}.

(** A JSON document is not empty. *)
Class FrameJSONLaws (J : FrameJSON) : Prop := {
  marshal_msg_nonempty : ∀ m d, marshal_msg m = Some d → d ≠ ""%string
}.

(** The message survives its encoding: [omitempty] fields, nil slices and
    invalid UTF-8 make some messages decode to another one. *)
Definition wire_faithful `{FrameJSON} (m : RendezvousMsg) : Prop :=
  ∀ d, marshal_msg m = Some d → unmarshal_msg d = Some m.

(** pkg/signal/proto.go:45-45 [maxFrameSize] *)
Definition maxFrameSize : Z := Z.shiftl 1 20.

(** The errors of the two functions: [marshal], [ErrFrameTooLarge], the
    writer's error, the two ends of file of [io.ReadFull], the zero length, a
    body cut short, [unmarshal]. *)
Inductive frame_err :=
  | FMarshal | FTooLarge | FWrite | FEOF | FUnexpectedEOF | FZeroLength
  | FBody (cause : frame_err) | FUnmarshal.

(** ** [io] *)

(** [io.ReadFull] of [n] bytes: what was read and what is left. *)
Definition read_full (n : nat) (s : string) : result frame_err string * string :=
  if (n <=? String.length s)%nat then (Ok (take_str n s), drop_str n s)
  else if s =s? "" then (Err FEOF, "") else (Err FUnexpectedEOF, "").

(** A writer: the bytes delivered, and for each coming [Write] either success
    or the number of bytes that get through before it fails. *)
Record writer := mkWriter { sent : string; faults : list (option nat) }.

Definition write (p : string) (w : writer) : bool * writer :=
  match faults w with
  | Some n :: fs => (false, mkWriter (sent w ++s take_str n p) fs)
  | None :: fs => (true, mkWriter (sent w ++s p) fs)
  | [] => (true, mkWriter (sent w ++s p) [])
  end.

Section codec.
Context {J : FrameJSON}.

(** pkg/signal/proto.go:51-68 [WriteFrame] *)
Definition WriteFrame (m : RendezvousMsg) (w : writer) : option frame_err * writer :=
  match marshal_msg m with
  | None => (Some FMarshal, w)
  | Some data =>
      if maxFrameSize <? Z.of_nat (String.length data) then (Some FTooLarge, w)
      else
        let '(ok, w) := write (put_u32 (Z.of_nat (String.length data))) w in
        if negb ok then (Some FWrite, w)
        else let '(ok, w) := write data w in
             if negb ok then (Some FWrite, w) else (None, w)
  end.

(** pkg/signal/proto.go:71-92 [ReadFrame] *)
Definition ReadFrame (s : string) : result frame_err RendezvousMsg * string :=
  match read_full 4 s with
  | (Err e, s) => (Err e, s)
  | (Ok hdr, s) =>
      let n := be_val hdr in
      if n =? 0 then (Err FZeroLength, s)
      else if maxFrameSize <? n then (Err FTooLarge, s)
      else match read_full (Z.to_nat n) s with
           | (Err e, s) => (Err (FBody e), s)
           | (Ok buf, s) =>
               match unmarshal_msg buf with
               | None => (Err FUnmarshal, s)
               | Some msg => (Ok msg, s)
               end
           end
  end.

(** The bytes of one frame. *)
Definition frame_bytes (data : string) : string :=
  put_u32 (Z.of_nat (String.length data)) ++s data.

(** A body a frame can carry. *)
Definition frame_sized (data : string) : Prop :=
  0 < Z.of_nat (String.length data) ≤ maxFrameSize.

(** A sender that stops at the first error: how many messages it reported as
    written, and the error. *)
Fixpoint send_all (ms : list RendezvousMsg) (w : writer) : nat * option frame_err * writer :=
  match ms with
  | [] => (0%nat, None, w)
  | m :: ms' =>
      match WriteFrame m w with
      | (Some e, w) => (0%nat, Some e, w)
      | (None, w) => let '(k, e, w) := send_all ms' w in (S k, e, w)
      end
  end.

(** The receiver's loop: [ReadFrame] until it fails.  Every frame takes bytes,
    so the length of the stream bounds the iterations. *)
Fixpoint recv (fuel : nat) (s : string) : list RendezvousMsg * frame_err :=
  match fuel with
  | O => ([], FEOF)
  | S fuel' =>
      match ReadFrame s with
      | (Err e, _) => ([], e)
      | (Ok m, s') => let '(ms, e) := recv fuel' s' in (m :: ms, e)
      end
  end.
Definition recv_all (s : string) : list RendezvousMsg * frame_err := recv (S (String.length s)) s.
End codec.

(** ** Reading back *)

Lemma read_full_app p t : read_full (String.length p) (p ++s t) = (Ok p, t).
Proof.
  unfold read_full. rewrite slength_app, (proj2 (Nat.leb_le _ _)) by lia.
  by rewrite take_str_app, drop_str_app.
Qed.

Lemma read_full_Ok n s p t :
  read_full n s = (Ok p, t) ↔ s = p ++s t ∧ String.length p = n.
Proof.
  split.
  - unfold read_full. destruct (Nat.leb_spec n (String.length s)); [|by case_if]. intros [= <- <-].
    rewrite take_drop_str, take_str_length. split; [done|lia].
  - intros [-> <-]. apply read_full_app.
Qed.

Lemma read_full_Err n s e t :
  read_full n s = (Err e, t) ↔
  (String.length s < n)%nat ∧ t = ""%string ∧ e = (if s =s? "" then FEOF else FUnexpectedEOF).
Proof.
  unfold read_full. case_if; [split; [done|lia]|].
  destruct (s =s? "") eqn:E; (split; [by intros [= <- <-]|by intros (_ & -> & ->)]).
Qed.

(** Reading never goes past what a frame may hold. *)
Lemma read_full_consumes n s r t :
  read_full n s = (r, t) → ∃ p, s = p ++s t ∧ (String.length p ≤ n)%nat.
Proof.
  destruct r as [p|e]; intros H.
  - apply read_full_Ok in H as [-> <-]. by exists p.
  - apply read_full_Err in H as (? & -> & _). exists s. rewrite sapp_nil_r. split; [done|lia].
Qed.

(** ** The length prefix *)

Lemma be_val_go_acc acc s :
  be_val_go acc s = acc * 256 ^ Z.of_nat (String.length s) + be_val s.
Proof.
  unfold be_val. revert acc. induction s as [|c s IH]; intros acc; cbn [be_val_go String.length]; [lia|].
  rewrite (IH (acc * 256 + _)), (IH (0 * 256 + _)).
  rewrite Nat2Z.inj_succ, Z.pow_succ_r by lia. ring.
Qed.

Lemma be_val_cons c s :
  be_val (String c s) = Z.of_nat (byte_val c) * 256 ^ Z.of_nat (String.length s) + be_val s.
Proof. unfold be_val at 1. cbn [be_val_go]. by rewrite be_val_go_acc. Qed.

Lemma be_val_bound s : 0 ≤ be_val s < 256 ^ Z.of_nat (String.length s).
Proof.
  induction s as [|c s IH]; [done|]. rewrite be_val_cons. pose proof (byte_val_lt c).
  cbn [String.length]. rewrite Nat2Z.inj_succ, Z.pow_succ_r by lia. nia.
Qed.

Lemma be_bytes_high k a v : 0 ≤ v < 256 ^ Z.of_nat k → be_bytes k (a * 256 ^ Z.of_nat k + v) = be_bytes k v.
Proof.
  revert a v. induction k as [|k IH]; intros a v Hv; [done|]. cbn [be_bytes].
  assert (0 < 256 ^ Z.of_nat k) by (apply Z.pow_pos_nonneg; lia).
  rewrite Nat2Z.inj_succ, Z.pow_succ_r in Hv |- * by lia.
  set (P := 256 ^ Z.of_nat k) in *.
  pose proof (Z.div_mod v P ltac:(lia)) as Hd. pose proof (Z.mod_pos_bound v P ltac:(lia)).
  f_equal.
  - f_equal. f_equal. replace (a * (256 * P) + v) with (v + (a * 256) * P) by ring.
    rewrite Z.div_add by lia. by rewrite Z.mod_add by lia.
  - transitivity (be_bytes k (v mod P)).
    + rewrite <-(IH (a * 256 + v / P) (v mod P)) by done. f_equal. fold P. lia.
    + rewrite <-(IH (v / P) (v mod P)) by done. f_equal. fold P. lia.
Qed.

Lemma be_bytes_val s : be_bytes (String.length s) (be_val s) = s.
Proof.
  induction s as [|c s IH]; [done|]. cbn [String.length be_bytes].
  pose proof (be_val_bound s). pose proof (byte_val_lt c).
  rewrite be_val_cons. rewrite be_bytes_high, IH by done. f_equal.
  rewrite Z.div_add_l, Z.div_small, Z.mod_small by lia.
  rewrite Z.add_0_r, Nat2Z.id. apply ch_byte_val.
Qed.

Lemma put_u32_val s : String.length s = 4%nat → put_u32 (be_val s) = s.
Proof.
  intros Hl. pose proof (be_val_bound s). rewrite Hl in *. unfold put_u32.
  rewrite Z.mod_small by done. rewrite <-Hl. apply be_bytes_val.
Qed.

Lemma frame_sized_u32 data : frame_sized data → 0 ≤ Z.of_nat (String.length data) < 4294967296.
Proof. unfold frame_sized, maxFrameSize. change (Z.shiftl 1 20) with 1048576. lia. Qed.

Section codec_facts.
Context {J : FrameJSON}.

(** [ReadFrame] succeeds exactly on a well-sized frame whose body decodes. *)
Lemma ReadFrame_Ok s m t :
  ReadFrame s = (Ok m, t) ↔
  ∃ data, s = frame_bytes data ++s t ∧ frame_sized data ∧ unmarshal_msg data = Some m.
Proof.
  unfold ReadFrame, frame_bytes. split.
  - destruct (read_full 4 s) as [[hdr|] s1] eqn:E1; [|done].
    apply read_full_Ok in E1 as [-> Hl]. case_if; [done|]. case_if; [done|].
    destruct (read_full _ s1) as [[buf|] s2] eqn:E2; [|done].
    apply read_full_Ok in E2 as [-> Hb].
    destruct (unmarshal_msg buf) as [m'|] eqn:Eu; [|done]. intros [= -> ->].
    pose proof (proj1 (be_val_bound hdr)). exists buf. rewrite Hb, Z2Nat.id by lia.
    rewrite put_u32_val by done. unfold frame_sized. rewrite Hb, Z2Nat.id by lia.
    rewrite sapp_assoc. split_and!; [done|lia|done|done].
  - intros (data & -> & Hsz & Hu). rewrite sapp_assoc, <-(put_u32_length (Z.of_nat (String.length data))).
    rewrite read_full_app, be_val_put_u32 by by apply frame_sized_u32.
    unfold frame_sized in Hsz. rewrite (proj2 (Z.eqb_neq _ _)), (proj2 (Z.ltb_ge _ _)) by lia.
    by rewrite Nat2Z.id, read_full_app, Hu.
Qed.

Lemma frame_bytes_length data : String.length (frame_bytes data) = (4 + String.length data)%nat.
Proof. unfold frame_bytes. by rewrite slength_app, put_u32_length. Qed.

(** The fuel of [recv_all] is enough. *)
Lemma recv_fuel fuel s : (String.length s < fuel)%nat → recv fuel s = recv_all s.
Proof.
  unfold recv_all. remember (S (String.length s)) as f2 eqn:Hf2.
  assert (String.length s < f2)%nat as H2 by lia. clear Hf2.
  revert f2 s H2. induction fuel as [|fuel IH]; intros [|f2] s H2 H1; [lia..|].
  cbn [recv]. destruct (ReadFrame s) as [[m|e] s'] eqn:E; [|done].
  apply ReadFrame_Ok in E as (data & -> & _). rewrite slength_app, frame_bytes_length in H1, H2.
  by rewrite (IH f2 s') by lia.
Qed.

Lemma recv_all_frame data m t :
  frame_sized data → unmarshal_msg data = Some m →
  recv_all (frame_bytes data ++s t) = (m :: (recv_all t).1, (recv_all t).2).
Proof.
  intros Hsz Hu. unfold recv_all at 1. cbn [recv].
  rewrite (proj2 (ReadFrame_Ok _ m t)) by by exists data.
  rewrite recv_fuel by (rewrite slength_app, frame_bytes_length; lia). by destruct (recv_all t).
Qed.

(** Frames are prefix-free: no frame starts a longer one. *)
Lemma frame_prefix d1 d2 t q :
  frame_sized d1 → frame_sized d2 → frame_bytes d1 ++s t ++s q = frame_bytes d2 → t ++s q = ""%string.
Proof.
  intros H1%frame_sized_u32 H2%frame_sized_u32 He. pose proof (f_equal String.length He) as Hl.
  unfold frame_bytes in He. rewrite sapp_assoc in He.
  apply sapp_inj_len in He as [Hu He]; [|by rewrite !put_u32_length].
  apply put_u32_inj in Hu; [|done..]. rewrite slength_app, !frame_bytes_length in Hl.
  destruct (t ++s q) eqn:E; [done|]. cbn [String.length] in Hl. lia.
Qed.

(** A stream that ends inside a frame yields an error, no message. *)
Lemma torn_frame data p q :
  frame_sized data → p ++s q = frame_bytes data → q ≠ ""%string → (recv_all p).1 = [].
Proof.
  intros Hsz He Hq. unfold recv_all. cbn [recv].
  destruct (ReadFrame p) as [[m|e] t] eqn:E; [|done].
  apply ReadFrame_Ok in E as (d & -> & Hd & _). rewrite sapp_assoc in He.
  apply frame_prefix in He; [|done..]. by destruct t.
Qed.

(** What a [WriteFrame] delivers: nothing, a prefix of the frame, or all. *)
Lemma WriteFrame_delivers {L : FrameJSONLaws J} m w :
  let '(e, w') := WriteFrame m w in
  (e = Some FMarshal ∨ e = Some FTooLarge) ∧ sent w' = sent w ∨
  ∃ data, marshal_msg m = Some data ∧ frame_sized data ∧
    (e = None ∧ sent w' = sent w ++s frame_bytes data ∨
     e = Some FWrite ∧ ∃ p q, sent w' = sent w ++s p ∧ p ++s q = frame_bytes data).
Proof.
  unfold WriteFrame. destruct (marshal_msg m) as [data|] eqn:Em; [|by left; auto].
  case_if; [by left; auto|].
  assert (frame_sized data) as Hsz.
  { unfold frame_sized. split; [|done]. apply (marshal_msg_nonempty m) in Em. destruct data; [done|cbn [String.length]; lia]. }
  destruct w as [out [|[n1|] fs]]; cbn [write faults sent negb].
  1: right; exists data; split_and!; [done..|]; left; by rewrite sapp_assoc.
  - right. exists data. split_and!; [done..|]. right. split; [done|].
    exists (take_str n1 (put_u32 (Z.of_nat (String.length data)))), (drop_str n1 (put_u32 (Z.of_nat (String.length data))) ++s data).
    split; [done|]. by rewrite <-sapp_assoc, take_drop_str.
  - destruct fs as [|[n2|] fs]; cbn [write faults sent negb]; right; exists data;
      (split_and!; [done..|]); [left; by rewrite sapp_assoc|right|left; by rewrite sapp_assoc].
    split; [done|].
    exists (put_u32 (Z.of_nat (String.length data)) ++s take_str n2 data), (drop_str n2 data).
    rewrite !sapp_assoc, take_drop_str. done.
Qed.
End codec_facts.

Section theorems.
Context {J : FrameJSON} {L : FrameJSONLaws J}.

Lemma recv_all_nil : recv_all "" = ([], FEOF).
Proof. done. Qed.

Lemma send_all_delivers ms w :
  Forall wire_faithful ms →
  let '(k, e, w') := send_all ms w in
  (e = None → k = length ms) ∧
  ∃ bytes, sent w' = sent w ++s bytes ∧
    ((recv_all bytes).1 = take k ms ∨ e = Some FWrite ∧ (recv_all bytes).1 = take (S k) ms) ∧
    (e ≠ Some FWrite → (recv_all bytes).2 = FEOF).
Proof.
  intros Hf. revert w. induction Hf as [|m ms Hm Hms IH]; intros w; cbn [send_all].
  { split; [done|]. exists ""%string. rewrite sapp_nil_r. auto. }
  pose proof (WriteFrame_delivers m w) as Hw. destruct (WriteFrame m w) as [[e|] w1].
  - split; [done|]. destruct Hw as [[He Hs]|(data & Ed & Hsz & [[? _]|[He (p & q & Hs & Hpq)]])]; [|done|].
    + exists ""%string. rewrite Hs, sapp_nil_r. auto.
    + exists p. rewrite Hs. split_and!; [done| |by rewrite He]. destruct q as [|c q].
      * rewrite sapp_nil_r in Hpq. right. split; [done|]. subst p.
        rewrite <-(sapp_nil_r (frame_bytes data)), (recv_all_frame _ m) by auto.
        by rewrite recv_all_nil.
      * left. by apply (torn_frame data _ (String c q)).
  - destruct Hw as [[[?|?] _]|(data & Ed & Hsz & [[_ Hs]|[? _]])]; [done..| |done].
    specialize (IH w1). destruct (send_all ms w1) as [[k e] w2].
    destruct IH as (Hk & bytes & Hb & Hr & He). split; [intros He'; by rewrite Hk|].
    exists (frame_bytes data ++s bytes). rewrite Hb, Hs, sapp_assoc, (recv_all_frame _ m) by auto.
    cbn [fst snd take]. split_and!; [done| |done].
    destruct Hr as [->|[-> ->]]; auto.
Qed.

End theorems.

(** The reader never takes more than a header and the largest body off the
    stream, whatever the length prefix claims; a prefix it refuses costs the
    four header bytes only. *)
Theorem reader_bounded {J : FrameJSON} (s : string) :
  let '(r, t) := ReadFrame s in
  ∃ p, s = p ++s t ∧ Z.of_nat (String.length p) ≤ 4 + maxFrameSize ∧
    (r = Err FTooLarge ∨ r = Err FZeroLength → String.length p = 4%nat).
Proof.
  unfold ReadFrame. destruct (read_full 4 s) as [[hdr|e] s1] eqn:E1.
  - apply read_full_Ok in E1 as [-> Hl].
    assert (0 ≤ maxFrameSize) by (unfold maxFrameSize; by vm_compute).
    case_if; [exists hdr; split_and!; [done|lia|done]|].
    case_if; [exists hdr; split_and!; [done|lia|done]|].
    destruct (read_full _ s1) as [r s2] eqn:E2. apply read_full_consumes in E2 as (b & -> & Hb).
    assert (∃ p, hdr ++s b ++s s2 = p ++s s2 ∧ Z.of_nat (String.length p) ≤ 4 + maxFrameSize) as (p & Hp & Hlp).
    { exists (hdr ++s b). rewrite sapp_assoc, slength_app. split; [done|lia]. }
    destruct r as [buf|e]; [destruct (unmarshal_msg buf)|];
      (exists p; split_and!; [done|done|by intros [?|?]]).
  - pose proof (read_full_consumes _ _ _ _ E1) as (p & -> & Hp).
    assert (0 ≤ maxFrameSize) by (unfold maxFrameSize; by vm_compute).
    apply read_full_Err in E1 as (_ & _ & ->).
    exists p. split_and!; [done|lia|]. by destruct (_ =s? _); intros [?|?].
Qed.

(** ** A concrete stream *)

Definition demo_msg (typ id : string) : RendezvousMsg :=
  mkMsg 1 typ "provider" id "" "" [] "" 0 0 0 0 0 "" "" "" "" "" None None 0 false false
        "" "" "" "" "" false "" 0 "" "" 0 "" 0 0 0 0 "" "" None None [].

(** A format that keeps the type and the id, enough for [demo_msg]s. *)
Definition toy_frames : FrameJSON := {|
  marshal_msg m := Some (m_Type m ++s ":" ++s m_ID m);
  unmarshal_msg d := let '(t, i, ok) := cut_byte ":" d in if ok then Some (demo_msg t i) else None
|}.

Lemma toy_frames_laws : FrameJSONLaws toy_frames.
Proof. constructor. intros m d [= <-]. by destruct (m_Type m). Qed.

Definition demo_stream : list RendezvousMsg := [demo_msg "hello" "P:1"; demo_msg "ping" ""].

