(* ===== verification/NodeClient.v ===== *)
(** * pkg/tunnel/isannd_client.go: the node's end of the control connection

    [writeFrameTo] and [readFrameFrom], copies of the codec of [pkg/signal],
    and [IsanndClient]: identity capture, dialling, writing, the reader's
    reaction to server pushes, closing.  The network is an argument: whether a
    dial, the hello and a frame go out.  Calls are taken one after the other;
    [ClientConc] has the same calls at the same time. *)

From S2P Require Import Prelude GoStrings GoStringsFacts Strconv Hardware GoAny Tunnel Signal.
From Stdlib Require Import ZArith Lia ZifyBool Bool Ascii String SpecFloat.
From stdpp Require Import base option list gmap strings.

Open Scope go_scope.
Open Scope Z_scope.

(** ** The codec *)

(** pkg/tunnel/isannd_client.go:38-38 [frameMaxSize] *)
Definition frameMaxSize : Z := Z.shiftl 1 20.

Section codec.
Context {J : FrameJSON}.

(** pkg/tunnel/isannd_client.go:42-59 [writeFrameTo] *)
Definition writeFrameTo (m : RendezvousMsg) (w : writer) : option frame_err * writer :=
  match marshal_msg m with
  | None => (Some FMarshal, w)
  | Some data =>
      let n := Z.of_nat (String.length data) in
      if frameMaxSize <? n then (Some FTooLarge, w)
      else match write (put_u32 n) w with
           | (false, w) => (Some FWrite, w)
           | (true, w) => match write data w with
                          | (false, w) => (Some FWrite, w)
                          | (true, w) => (None, w)
                          end
           end
  end.

(** pkg/tunnel/isannd_client.go:63-84 [readFrameFrom] *)
Definition readFrameFrom (s : string) : result frame_err RendezvousMsg * string :=
  let '(hdr, s) := read_full 4 s in
  match hdr with
  | Err e => (Err e, s)
  | Ok hdr =>
      let n := be_val hdr in
      if n =? 0 then (Err FZeroLength, s)
      else if frameMaxSize <? n then (Err FTooLarge, s)
      else
        let '(buf, s) := read_full (Z.to_nat n) s in
        match buf with
        | Err e => (Err (FBody e), s)
        | Ok buf => match unmarshal_msg buf with None => (Err FUnmarshal, s) | Some m => (Ok m, s) end
        end
  end.

(** The node's copy of the codec is the server's: the two ends cannot disagree
    on a frame, its limits or its errors. *)
Theorem client_codec_agrees :
  (∀ m w, writeFrameTo m w = WriteFrame m w) ∧ (∀ s, readFrameFrom s = ReadFrame s).
Proof.
  split.
  - intros m w. unfold writeFrameTo, WriteFrame. destruct (marshal_msg m) as [data|]; [|done].
    change frameMaxSize with maxFrameSize. cbv zeta. case_if; [done|].
    destruct (write (put_u32 _) w) as [[] w1]; [|done]. cbn [negb]. by destruct (write data w1) as [[] w2].
  - intros s. unfold readFrameFrom, ReadFrame. destruct (read_full 4 s) as [[hdr|e] s1]; [|done].
    change frameMaxSize with maxFrameSize. cbv zeta. case_if; [done|]. case_if; [done|].
    by destruct (read_full _ s1) as [[buf|e] s2].
Qed.
End codec.

(** ** The client *)

(** pkg/tunnel/isannd_client.go:103-129 [IsanndClient]: connections are
    numbered in the order they are dialled. *)
Record IsanndClient := mkClient {
  c_httpBase : string; c_controlAddr : string;
  c_helloID : string; c_helloRole : string;
  c_conn : option nat; c_closed : bool; c_needRegister : bool; c_next : nat
}.

Definition set_conn (o : option nat) (c : IsanndClient) : IsanndClient :=
  mkClient (c_httpBase c) (c_controlAddr c) (c_helloID c) (c_helloRole c) o (c_closed c)
    (c_needRegister c) (c_next c).
Definition set_hello (id role : string) (c : IsanndClient) : IsanndClient :=
  mkClient (c_httpBase c) (c_controlAddr c) id role (c_conn c) (c_closed c) (c_needRegister c) (c_next c).
Definition set_need (b : bool) (c : IsanndClient) : IsanndClient :=
  mkClient (c_httpBase c) (c_controlAddr c) (c_helloID c) (c_helloRole c) (c_conn c) (c_closed c) b (c_next c).

(** The errors the client builds. *)
Inductive client_err :=
  | CClosed | CSwitch (from to : string) | CHelloUnset | CDial | CHelloWrite | CConnNil
  | CMismatch (hello msg : string) | CWrite (typ : string) | CNil | CNoType.

(** What the network does to the next call: dial, hello, frame. *)
Record net_env := mkEnv { dial_ok : bool; hello_ok : bool; write_ok : bool }.

(** A frame delivered whole, with its connection. *)
Abbreviation sent_frame := (nat * RendezvousMsg)%type.

(** pkg/tunnel/isannd_client.go:134-146 [NewIsanndClient] *)
Definition NewIsanndClient (httpBase controlAddr : string) : IsanndClient :=
  mkClient (if httpBase =s? "" then "http://127.0.0.1:8443" else httpBase)
    (if controlAddr =s? "" then "127.0.0.1:19100" else controlAddr) "" "" None false false 0.

(** pkg/tunnel/isannd_client.go:213-213 [IsanndClient.dialAndHello part] *)
Definition hello_frame (id role : string) : RendezvousMsg :=
  mkMsg 1 TypeHello role id "" "" [] "" 0 0 0 0 0 "" "" "" "" "" None None 0 false false
        "" "" "" "" "" false "" 0 "" "" 0 "" 0 0 0 0 "" "" None None [].

(** pkg/tunnel/isannd_client.go:188-229 [IsanndClient.dialAndHello] *)
Definition dialAndHello (e : net_env) (c : IsanndClient)
  : option client_err * IsanndClient * list sent_frame :=
  let c := set_conn None c in
  if c_helloID c =s? "" then (Some CHelloUnset, c, [])
  else if negb (dial_ok e) then (Some CDial, c, [])
  else
    let n := c_next c in
    let c := mkClient (c_httpBase c) (c_controlAddr c) (c_helloID c) (c_helloRole c) (c_conn c)
               (c_closed c) (c_needRegister c) (S n) in
    if negb (hello_ok e) then (Some CHelloWrite, c, [])
    else (None, set_conn (Some n) c, [(n, hello_frame (c_helloID c) (c_helloRole c))]).

(** pkg/tunnel/isannd_client.go:166-183 [IsanndClient.Connect] *)
Definition Connect (nodeID role : string) (e : net_env) (c : IsanndClient)
  : option client_err * IsanndClient * list sent_frame :=
  if c_closed c then (Some CClosed, c, [])
  else if negb (c_helloID c =s? "") && negb (c_helloID c =s? nodeID)
  then (Some (CSwitch (c_helloID c) nodeID), c, [])
  else
    let c := set_hello nodeID role c in
    match c_conn c with
    | Some _ => (None, c, [])
    | None => dialAndHello e c
    end.

(** pkg/tunnel/isannd_client.go:267-274 [IsanndClient.markConnDead] *)
Definition markConnDead (dead : nat) (c : IsanndClient) : IsanndClient :=
  match c_conn c with
  | Some n => if (n =? dead)%nat then set_conn None c else c
  | None => c
  end.

(** pkg/tunnel/isannd_client.go:278-295 [IsanndClient.ensureConn] *)
Definition ensureConn (e : net_env) (c : IsanndClient)
  : result client_err nat * IsanndClient * list sent_frame :=
  match c_conn c with
  | Some n => (Ok n, c, [])
  | None =>
      match dialAndHello e c with
      | (Some err, c, out) => (Err err, c, out)
      | (None, c, out) =>
          match c_conn c with Some n => (Ok n, c, out) | None => (Err CConnNil, c, out) end
      end
  end.

(** pkg/tunnel/isannd_client.go:304-325 [IsanndClient.writeFrame] *)
Definition writeFrame (m : RendezvousMsg) (e : net_env) (c : IsanndClient)
  : option client_err * IsanndClient * list sent_frame :=
  if (c_helloID c =s? "") && negb (m_ID m =s? "") || (m_ID m =s? "") || (c_helloID c =s? m_ID m) then
    let c := if (c_helloID c =s? "") && negb (m_ID m =s? "") then set_hello (m_ID m) (m_Role m) c else c in
    match ensureConn e c with
    | (Err err, c, out) => (Some err, c, out)
    | (Ok n, c, out) =>
        if negb (write_ok e) then (Some (CWrite (m_Type m)), markConnDead n c, out)
        else (None, c, out ++ [(n, m)])
    end
  else (Some (CMismatch (c_helloID c) (m_ID m)), c, []).

(** [msg.Type = t] *)
Definition set_msg_Type (t : string) (m : RendezvousMsg) : RendezvousMsg :=
  mkMsg (m_V m) t (m_Role m) (m_ID m) (m_Addr m) (m_LocalAddr m) (m_Candidates m)
    (m_CertHash m) (m_PunchCount m) (m_PunchIntervalMs m) (m_PreDialWaitMs m)
    (m_ReplyBurstCount m) (m_ReplyBurstIntervalMs m) (m_Version m) (m_BinHash m)
    (m_OwnerAddress m) (m_Emblem m) (m_AuthMode m) (m_Hardware m) (m_Services m) (m_Seq m)
    (m_FullSync m) (m_Resync m) (m_EKCert m) (m_AKName m) (m_TPMCredBlob m) (m_TPMEncSecret m)
    (m_TPMResponse m) (m_TPMVerified m) (m_Signature m) (m_TimestampMs m) (m_SessionToken m)
    (m_SessionKey m) (m_SessionExpiresMs m) (m_CredSig m) (m_CredIssuedMs m) (m_CredExpireMs m)
    (m_PingIntervalSec m) (m_RegisterIntervalSec m) (m_Event m) (m_ServiceName m)
    (m_ServiceInfo m) (m_Metrics m) (m_MetricsBatch m).

(** pkg/tunnel/isannd_client.go:329-337 [IsanndClient.SendRegister]: [None] is
    a nil message. *)
Definition SendRegister (m : option RendezvousMsg) (e : net_env) (c : IsanndClient)
  : option client_err * IsanndClient * list sent_frame :=
  match m with
  | None => (Some CNil, c, [])
  | Some m => writeFrame (if m_Type m =s? "" then set_msg_Type TypeRegister m else m) e c
  end.

(** pkg/tunnel/metrics.go:33-38 [HeartbeatPing] *)
Record HeartbeatPing := mkPing {
  hp_NodeID : string; hp_Role : string; hp_TimestampMs : Z; hp_Signature : string
}.

(** pkg/tunnel/isannd_client.go:348-355 [IsanndClient.SendHeartbeat part] *)
Definition ping_frame (p : HeartbeatPing) : RendezvousMsg :=
  mkMsg 1 TypePing (hp_Role p) (hp_NodeID p) "" "" [] "" 0 0 0 0 0 "" "" "" "" "" None None 0 false false
        "" "" "" "" "" false (hp_Signature p) (hp_TimestampMs p) "" "" 0 "" 0 0 0 0 "" "" None None [].

(** pkg/tunnel/isannd_client.go:344-360 [IsanndClient.SendHeartbeat] *)
Definition SendHeartbeat (p : option HeartbeatPing) (e : net_env) (c : IsanndClient)
  : result client_err bool * IsanndClient * list sent_frame :=
  match p with
  | None => (Err CNil, c, [])
  | Some p =>
      match writeFrame (ping_frame p) e c with
      | (Some err, c, out) => (Err err, c, out)
      | (None, c, out) => (Ok (c_needRegister c), set_need false c, out)
      end
  end.

(** pkg/tunnel/metrics.go:22-26 [MetricsEvent] *)
Record MetricsEvent := mkEvt { me_NodeID : string; me_Role : string; me_Service : ServiceMetrics }.

(** pkg/tunnel/isannd_client.go:371-377 [IsanndClient.SendMetrics part] *)
Definition metrics_frame (id role : string) (m : option ServiceMetrics) (batch : list ServiceMetrics)
  : RendezvousMsg :=
  mkMsg 1 TypeServiceEvent role id "" "" [] "" 0 0 0 0 0 "" "" "" "" "" None None 0 false false
        "" "" "" "" "" false "" 0 "" "" 0 "" 0 0 0 0 "" "" None m batch.

(** pkg/tunnel/isannd_client.go:367-379 [IsanndClient.SendMetrics] *)
Definition SendMetrics (evt : option MetricsEvent) (e : net_env) (c : IsanndClient)
  : option client_err * IsanndClient * list sent_frame :=
  match evt with
  | None => (Some CNil, c, [])
  | Some v => writeFrame (metrics_frame (me_NodeID v) (me_Role v) (Some (me_Service v)) []) e c
  end.

(** pkg/tunnel/isannd_client.go:390-402 [IsanndClient.SendMetricsBatch] *)
Definition SendMetricsBatch (id role : string) (batch : list ServiceMetrics) (e : net_env) (c : IsanndClient)
  : option client_err * IsanndClient * list sent_frame :=
  writeFrame (metrics_frame id role None batch) e c.

(** pkg/tunnel/isannd_client.go:412-420 [IsanndClient.SendFrame] *)
Definition SendFrame (m : option RendezvousMsg) (e : net_env) (c : IsanndClient)
  : option client_err * IsanndClient * list sent_frame :=
  match m with
  | None => (Some CNil, c, [])
  | Some m => if m_Type m =s? "" then (Some CNoType, c, []) else writeFrame m e c
  end.

(** pkg/tunnel/isannd_client.go:247-250 [IsanndClient.runReader part]: what one
    frame does to the client. *)
Definition on_push (m : RendezvousMsg) (c : IsanndClient) : IsanndClient :=
  if m_Type m =s? TypeNeedRegister then set_need true c else c.

(** pkg/tunnel/isannd_client.go:152-157 [IsanndClient.OnPush]: callbacks are
    known by numbers, [None] is a nil one. *)
Definition OnPush (frameType : string) (cb : option nat) (cbs : gmap string (option nat))
  : gmap string (option nat) := <[frameType := cb]> cbs.

(** pkg/tunnel/isannd_client.go:247-260 [IsanndClient.runReader part]: the
    callback the reader runs for a frame. *)
Definition push_callback (cbs : gmap string (option nat)) (m : RendezvousMsg) : option nat :=
  if m_Type m =s? TypeNeedRegister then None
  else match cbs !! m_Type m with Some cb => cb | None => None end.

(** A frame runs the callback registered last for its type, and no other;
    one registered for need_register frames is never run. *)
Theorem push_callback_last regs m :
  push_callback (fold_left (λ cbs r, OnPush r.1 r.2 cbs) regs ∅) m =
  if m_Type m =s? TypeNeedRegister then None
  else match last (filter (λ r : string * option nat, r.1 = m_Type m) regs) with
       | Some (_, cb) => cb
       | None => None
       end.
Proof.
  unfold push_callback. case_if; [done|]. clear Eif.
  induction regs as [|[t cb] regs IH] using rev_ind; [simpl; by rewrite lookup_empty|].
  rewrite fold_left_app, filter_app. cbn [fold_left fst snd]. unfold OnPush at 1.
  destruct (decide (t = m_Type m)) as [-> |Hne].
  - rewrite lookup_insert_eq, filter_cons_True, filter_nil by done. by rewrite last_snoc.
  - rewrite lookup_insert_ne, filter_cons_False, filter_nil, app_nil_r by done. exact IH.
Qed.

(** pkg/tunnel/isannd_client.go:237-262 [IsanndClient.runReader]: the reader of
    the connection [conn] on which the bytes [s] arrive, to the end or the first
    frame that cannot be read: the client after it and the callbacks run.  Frames
    are those of [Signal.recv_all] ([client_codec_agrees]). *)
Definition runReader `{FrameJSON} (conn : nat) (cbs : gmap string (option nat)) (s : string) (c : IsanndClient)
  : IsanndClient * list (nat * RendezvousMsg) :=
  let ms := (recv_all s).1 in
  (markConnDead conn (fold_left (λ c m, on_push m c) ms c),
   omap (λ m, cb ← push_callback cbs m; Some (cb, m)) ms).

(** The reader leaves the identity alone, asks for a registration when a
    need_register frame came, and gives up its own connection only: one dialled
    since stays. *)
Theorem reader_exact `{FrameJSON} conn cbs s c :
  let c' := (runReader conn cbs s c).1 in
  c_helloID c' = c_helloID c ∧ c_closed c' = c_closed c ∧ c_next c' = c_next c ∧
  c_conn c' = (if decide (c_conn c = Some conn) then None else c_conn c) ∧
  c_needRegister c' =
    c_needRegister c || existsb (λ m, m_Type m =s? TypeNeedRegister) (recv_all s).1.
Proof.
  unfold runReader. cbn [fst]. generalize (recv_all s).1. intros ms.
  assert (∀ c : IsanndClient, let c1 := fold_left (λ c m, on_push m c) ms c in
    c_helloID c1 = c_helloID c ∧ c_closed c1 = c_closed c ∧ c_next c1 = c_next c ∧ c_conn c1 = c_conn c ∧
    c_needRegister c1 = c_needRegister c || existsb (λ m, m_Type m =s? TypeNeedRegister) ms) as Hf.
  { clear c. induction ms as [|m ms IH]; intros c; cbn [fold_left existsb]; [by rewrite orb_false_r|].
    destruct (IH (on_push m c)) as (-> & -> & -> & -> & ->). unfold on_push.
    case_if; [|by rewrite orb_false_l]. cbn. by rewrite orb_true_r. }
  destruct (Hf c) as (H1 & H2 & H3 & H4 & H5). set (c1 := fold_left _ _ _) in *.
  unfold markConnDead. rewrite H4. destruct (c_conn c) as [n|]; cbn [decide].
  - destruct (Nat.eqb_spec n conn) as [-> |Hne].
    + rewrite decide_True by done. cbn. by split_and!.
    + rewrite decide_False by congruence. by split_and!.
  - rewrite decide_False by done. by split_and!.
Qed.

(** pkg/tunnel/isannd_client.go:423-435 [IsanndClient.Close] *)
Definition CloseClient (c : IsanndClient) : IsanndClient :=
  if c_closed c then c
  else mkClient (c_httpBase c) (c_controlAddr c) (c_helloID c) (c_helloRole c) None true
         (c_needRegister c) (c_next c).

(** pkg/tunnel/isannd_client.go:442-466 [IsanndClient.GetTPMFingerprint]: the
    fingerprint, empty without a TPM (503); [None] is an error. [get] is the HTTP
    client, [decode] reads the fingerprint field of the body. *)
Definition GetTPMFingerprint (c : IsanndClient) (get : string → option (Z * string)) (decode : string → option string)
  : option string :=
  match get (c_httpBase c ++s "/internal/api/tpm/measurement") with
  | None => None
  | Some (code, body) =>
      if (code =? 503)%Z then Some ""%string
      else if negb (code =? 200)%Z then None else decode body
  end.

(** ** Histories of one client *)

Inductive client_op :=
  | OpConnect (id role : string) (e : net_env)
  | OpRegister (m : option RendezvousMsg) (e : net_env)
  | OpHeartbeat (p : option HeartbeatPing) (e : net_env)
  | OpMetrics (v : option MetricsEvent) (e : net_env)
  | OpBatch (id role : string) (batch : list ServiceMetrics) (e : net_env)
  | OpFrame (m : option RendezvousMsg) (e : net_env)
  | OpPush (m : RendezvousMsg)
  | OpDead (conn : nat)
  | OpClose.

Definition client_step (op : client_op) (c : IsanndClient) : IsanndClient * list sent_frame :=
  match op with
  | OpConnect id role e => let '(_, c, out) := Connect id role e c in (c, out)
  | OpRegister m e => let '(_, c, out) := SendRegister m e c in (c, out)
  | OpHeartbeat p e => let '(_, c, out) := SendHeartbeat p e c in (c, out)
  | OpMetrics v e => let '(_, c, out) := SendMetrics v e c in (c, out)
  | OpBatch id role b e => let '(_, c, out) := SendMetricsBatch id role b e c in (c, out)
  | OpFrame m e => let '(_, c, out) := SendFrame m e c in (c, out)
  | OpPush m => (on_push m c, [])
  | OpDead n => (markConnDead n c, [])
  | OpClose => (CloseClient c, [])
  end.

(** The client after a history and every frame it got out, in order. *)
Definition client_run (ops : list client_op) (c : IsanndClient) : IsanndClient * list sent_frame :=
  fold_left (λ '(c, tr) op, let '(c', out) := client_step op c in (c', tr ++ out)) ops (c, []).

(** The frames of one connection. *)
Definition on_conn (n : nat) (tr : list sent_frame) : list RendezvousMsg :=
  omap (λ f, if (f.1 =? n)%nat then Some f.2 else None) tr.

(** A frame of the node [id]. *)
Definition of_node (id : string) (m : RendezvousMsg) : Prop := m_ID m = ""%string ∨ m_ID m = id.

Record client_ok (c : IsanndClient) (tr : list sent_frame) : Prop := {
  co_ids : Forall (λ f, of_node (c_helloID c) f.2) tr;
  co_hello : ∀ n, on_conn n tr = [] ∨
    c_helloID c ≠ ""%string ∧ ∃ role rest, on_conn n tr = hello_frame (c_helloID c) role :: rest;
  co_next : ∀ n, (c_next c ≤ n)%nat → on_conn n tr = [];
  co_conn : ∀ n, c_conn c = Some n → on_conn n tr ≠ []
}.

Lemma on_conn_app n t1 t2 : on_conn n (t1 ++ t2) = on_conn n t1 ++ on_conn n t2.
Proof. apply omap_app. Qed.

Lemma on_conn_one n k m : on_conn n [(k, m)] = if (k =? n)%nat then [m] else [].
Proof. unfold on_conn. simpl. by destruct (k =? n)%nat. Qed.

Lemma client_ok_new h a : client_ok (NewIsanndClient h a) [].
Proof. split; [constructor|by left|done|done]. Qed.

(** Changing what the trace does not mention keeps the invariant. *)
Lemma client_ok_weaken c c' tr :
  client_ok c tr → c_helloID c' = c_helloID c → (c_next c ≤ c_next c')%nat →
  (c_conn c' = None ∨ c_conn c' = c_conn c) → client_ok c' tr.
Proof.
  intros [H1 H2 H3 H4] Hid Hn Hc. split; rewrite ?Hid; [done|done| |].
  - intros n Hle. apply H3. lia.
  - intros n Hn'. destruct Hc as [Hc|Hc]; rewrite Hc in Hn'; [done|by apply H4].
Qed.

(** An identity is captured before anything was sent. *)
Lemma client_ok_capture c tr id role :
  client_ok c tr → c_helloID c = ""%string ∨ c_helloID c = id → client_ok (set_hello id role c) tr.
Proof.
  intros Hok [He|He]; [|by eapply client_ok_weaken; [exact Hok|..]; auto].
  destruct Hok as [H1 H2 H3 H4].
  assert (∀ n, on_conn n tr = []) as Hnil by (intros n; destruct (H2 n) as [?|[? _]]; done).
  assert (tr = []) as ->.
  { destruct tr as [|[n m] tr]; [done|]. specialize (Hnil n). unfold on_conn in Hnil. simpl in Hnil.
    by rewrite Nat.eqb_refl in Hnil. }
  split; [constructor|by left|done|]. intros n Hn. by destruct (H4 n Hn).
Qed.

Lemma dial_ok_inv e c tr :
  client_ok c tr →
  let '(err, c', out) := dialAndHello e c in
  client_ok c' (tr ++ out) ∧ c_helloID c' = c_helloID c.
Proof.
  intros Hok. unfold dialAndHello.
  assert (client_ok (set_conn None c) tr) as Hok1 by (eapply client_ok_weaken; [exact Hok|..]; auto).
  cbn [c_helloID set_conn]. case_if; [by rewrite app_nil_r|]. case_if; [by rewrite app_nil_r|].
  case_if; cbn [c_helloID].
  { rewrite app_nil_r. split; [|done]. eapply client_ok_weaken; [exact Hok|done|cbn; lia|by left]. }
  split; [|done]. destruct Hok as [H1 H2 H3 H4].
  assert (∀ k, on_conn k (tr ++ [(c_next c, hello_frame (c_helloID c) (c_helloRole c))]) =
    if (c_next c =? k)%nat then [hello_frame (c_helloID c) (c_helloRole c)] else on_conn k tr) as Hk.
  { intros k. rewrite on_conn_app, on_conn_one. destruct (Nat.eqb_spec (c_next c) k) as [<-|];
      [by rewrite H3|by rewrite app_nil_r]. }
  split; cbn [c_helloID c_next c_conn set_conn].
  - apply Forall_app. split; [done|]. apply Forall_singleton. by right.
  - intros k. rewrite Hk. destruct (c_next c =? k)%nat; [|apply H2]. right. split; [done|]. by eexists _, [].
  - intros k Hle. rewrite Hk. destruct (Nat.eqb_spec (c_next c) k); [lia|]. apply H3. lia.
  - intros k [= <-]. by rewrite Hk, Nat.eqb_refl.
Qed.

Lemma ensure_ok_inv e c tr :
  client_ok c tr →
  let '(r, c', out) := ensureConn e c in
  client_ok c' (tr ++ out) ∧ c_helloID c' = c_helloID c ∧
  (∀ n, r = Ok n → c_conn c' = Some n).
Proof.
  intros Hok. unfold ensureConn. destruct (c_conn c) as [n|] eqn:Ec.
  - rewrite app_nil_r. split_and!; [done|done|]. by intros k [= <-].
  - pose proof (dial_ok_inv e c tr Hok) as Hd. destruct (dialAndHello e c) as [[[err|] c'] out].
    + by destruct Hd.
    + destruct Hd as [Hd Hid]. destruct (c_conn c') as [n|] eqn:Ec'; [|done].
      split_and!; [done|done|]. by intros k [= <-].
Qed.

Lemma markConnDead_ok n c tr : client_ok c tr → client_ok (markConnDead n c) tr.
Proof.
  intros Hok. unfold markConnDead. destruct (c_conn c) as [k|]; [|done]. case_if; [|done].
  eapply client_ok_weaken; [exact Hok|..]; auto.
Qed.

Lemma writeFrame_ok m e c tr :
  client_ok c tr → let '(_, c', out) := writeFrame m e c in client_ok c' (tr ++ out).
Proof.
  intros Hok. unfold writeFrame.
  destruct (_ || _ || _) eqn:Hid; [|by rewrite app_nil_r].
  set (c1 := if (c_helloID c =s? "") && negb (m_ID m =s? "") then set_hello (m_ID m) (m_Role m) c else c).
  assert (client_ok c1 tr ∧ of_node (c_helloID c1) m) as [Hok1 Hof].
  { unfold c1, of_node. destruct (String.eqb_spec (c_helloID c) "") as [He|He],
      (String.eqb_spec (m_ID m) "") as [Hm|Hm]; cbn [negb andb orb] in *; auto.
    - split; [apply client_ok_capture; auto|by right].
    - split; [done|]. right. by apply String.eqb_eq in Hid. }
  pose proof (ensure_ok_inv e c1 tr Hok1) as He. destruct (ensureConn e c1) as [[[n|err] c2] out]; [|by destruct He].
  destruct He as (Hok2 & Hid2 & Hn). specialize (Hn n eq_refl). case_if.
  - by apply markConnDead_ok.
  - rewrite (assoc_L (++)). destruct Hok2 as [H1 H2 H3 H4].
    assert (∀ k, on_conn k ((tr ++ out) ++ [(n, m)]) =
      on_conn k (tr ++ out) ++ if (n =? k)%nat then [m] else []) as Hk
      by (intros k; by rewrite on_conn_app, on_conn_one).
    split.
    + apply Forall_app. split; [done|]. apply Forall_singleton. by rewrite Hid2.
    + intros k. rewrite Hk. destruct (H2 k) as [Hnil|(Hne & role & rest & Hr)].
      * destruct (Nat.eqb_spec n k) as [<-|]; [|left; by rewrite Hnil].
        by destruct (H4 n Hn).
      * right. split; [done|]. rewrite Hr. by eexists role, _.
    + intros k Hle. rewrite Hk, H3 by done. destruct (Nat.eqb_spec n k) as [<-|]; [|done].
      destruct (H4 n Hn). by apply H3.
    + intros k Hc. rewrite Hk. pose proof (H4 k Hc). by destruct (on_conn k (tr ++ out)).
Qed.

Lemma client_step_ok op c tr :
  client_ok c tr → let '(c', out) := client_step op c in client_ok c' (tr ++ out).
Proof.
  intros Hok. destruct op as [id role e|m e|p e|v e|id role b e|m e|m|n|]; cbn [client_step].
  - unfold Connect. case_if; [by rewrite app_nil_r|].
    destruct (String.eqb_spec (c_helloID c) "") as [He|He], (String.eqb_spec (c_helloID c) id) as [Hi|Hi];
      cbn [negb andb]; try (by rewrite app_nil_r);
      (assert (client_ok (set_hello id role c) tr) as Hok1 by (apply client_ok_capture; auto));
      cbn [c_conn set_hello]; (destruct (c_conn c); [by rewrite app_nil_r|]);
      pose proof (dial_ok_inv e _ tr Hok1) as Hd;
      destruct (dialAndHello e (set_hello id role c)) as [[err c'] out]; apply Hd.
  - destruct m as [m|]; cbn [SendRegister]; [|by rewrite app_nil_r].
    set (m' := if m_Type m =s? "" then set_msg_Type TypeRegister m else m). pose proof (writeFrame_ok m' e c tr Hok).
    by destruct (writeFrame m' e c) as [[err c'] out].
  - destruct p as [p|]; cbn [SendHeartbeat]; [|by rewrite app_nil_r].
    pose proof (writeFrame_ok (ping_frame p) e c tr Hok).
    destruct (writeFrame (ping_frame p) e c) as [[[err|] c'] out]; [done|].
    eapply client_ok_weaken; [done|..]; auto.
  - destruct v as [v|]; cbn [SendMetrics]; [|by rewrite app_nil_r].
    set (m' := metrics_frame _ _ _ _). pose proof (writeFrame_ok m' e c tr Hok).
    by destruct (writeFrame m' e c) as [[err c'] out].
  - unfold SendMetricsBatch. set (m' := metrics_frame _ _ _ _). pose proof (writeFrame_ok m' e c tr Hok).
    by destruct (writeFrame m' e c) as [[err c'] out].
  - destruct m as [m|]; cbn [SendFrame]; [|by rewrite app_nil_r]. case_if; [by rewrite app_nil_r|].
    pose proof (writeFrame_ok m e c tr Hok). by destruct (writeFrame m e c) as [[err c'] out].
  - rewrite app_nil_r. unfold on_push. case_if; [|done]. eapply client_ok_weaken; [done|..]; auto.
  - rewrite app_nil_r. by apply markConnDead_ok.
  - rewrite app_nil_r. unfold CloseClient. case_if; [done|]. eapply client_ok_weaken; [done|..]; auto.
Qed.

(** One client speaks for one node. Over any history of calls, pushes, broken
    connections and reconnects, with whatever ids the callers pass, every frame
    that leaves the client carries no id or the one identity the client
    captured, and the first frame of every connection is the hello of that
    identity — what the server binds the connection to. *)
Theorem client_identity (httpBase controlAddr : string) (ops : list client_op) :
  let '(c, tr) := client_run ops (NewIsanndClient httpBase controlAddr) in
  Forall (λ f, of_node (c_helloID c) f.2) tr ∧
  ∀ n, on_conn n tr = [] ∨
    c_helloID c ≠ ""%string ∧ ∃ role rest, on_conn n tr = hello_frame (c_helloID c) role :: rest.
Proof.
  unfold client_run.
  assert (∀ ops c tr, client_ok c tr →
    let '(c', tr') := fold_left (λ '(c, tr) op, let '(c', out) := client_step op c in (c', tr ++ out)) ops (c, tr)
    in client_ok c' tr') as Hg.
  { clear. induction ops as [|op ops IH]; intros c tr Hok; cbn [fold_left]; [done|].
    pose proof (client_step_ok op c tr Hok) as Hs. destruct (client_step op c) as [c1 out]. by apply IH. }
  specialize (Hg ops _ [] (client_ok_new httpBase controlAddr)).
  destruct (fold_left _ ops _) as [c' tr']. split; apply Hg.
Qed.

(** [Close] is not final: [writeFrame] does not look at [closed], so a send
    after it dials again and a new reader starts ([Connect] refuses). *)
Theorem send_after_close_reconnects m id role :
  id ≠ ""%string → m_ID m = id →
  let e := mkEnv true true true in
  let c := CloseClient (Connect id role e (NewIsanndClient "" "")).1.2 in
  c_closed c = true ∧ c_conn c = None ∧
  (Connect id role e c).1.1 = Some CClosed ∧
  ∃ c', writeFrame m e c = (None, c', [(1%nat, hello_frame id role); (1%nat, m)]) ∧ c_conn c' = Some 1%nat.
Proof.
  intros Hid Hm. unfold Connect, dialAndHello. cbn. rewrite (proj2 (String.eqb_neq id "")) by done. cbn.
  split_and!; [done..|]. unfold writeFrame. cbn. rewrite Hm, String.eqb_refl, orb_true_r.
  rewrite (proj2 (String.eqb_neq id "")) by done. cbn. unfold ensureConn, dialAndHello. cbn.
  rewrite (proj2 (String.eqb_neq id "")) by done. cbn. by eexists.
Qed.
