(* ===== verification/ClientConc.v ===== *)
(** * pkg/tunnel/isannd_client.go: one client, many goroutines

    [IsanndClient] has two mutexes and two atomic flags: [stateMu] guards the
    connection and the identity, [writeMu] is held while a frame is sent,
    [dialing] is set by a compare-and-swap, [closed] too.  A call is here a
    program of the actions between which another goroutine may run — a section
    under [stateMu], an operation on a flag, a dial, one [Write] of the two of a
    frame, a [Close] of a socket —, a state is the client with its sockets and
    the calls under way, and a history the sequence of arrivals, single actions
    and what the reader goroutines see.  [NodeClient] has the same calls as
    functions: a call that nobody interrupts. *)

From S2P Require Import Prelude GoStrings GoStringsFacts Strconv Hardware GoAny Tunnel Signal NodeClient.
From Stdlib Require Import ZArith Lia ZifyBool Bool Ascii String SpecFloat.
From stdpp Require Import base option list gmap strings.

Open Scope go_scope.
Open Scope Z_scope.

(** ** The shared state *)

(** A socket: the bytes it has delivered, whether it is open, and whether the
    client's [conn] has ever been this socket. *)
Record sock := mkSock { so_out : string; so_open : bool; so_pub : bool }.

(** The client with its sockets in the order dialled, the goroutine that holds
    [writeMu], the one that has set [dialing], and the sockets a [Close] has
    taken and will close. *)
Record cworld := mkCW {
  w_c : IsanndClient; w_socks : list sock;
  w_writeMu : option nat; w_dialing : option nat; w_closing : gset (nat * nat)
}.

Definition with_client (c : IsanndClient) (w : cworld) : cworld :=
  mkCW c (w_socks w) (w_writeMu w) (w_dialing w) (w_closing w).
Definition with_socks (l : list sock) (w : cworld) : cworld :=
  mkCW (w_c w) l (w_writeMu w) (w_dialing w) (w_closing w).
Definition with_writeMu (o : option nat) (w : cworld) : cworld :=
  mkCW (w_c w) (w_socks w) o (w_dialing w) (w_closing w).
Definition with_dialing (o : option nat) (w : cworld) : cworld :=
  mkCW (w_c w) (w_socks w) (w_writeMu w) o (w_closing w).
Definition with_closing (l : gset (nat * nat)) (w : cworld) : cworld :=
  mkCW (w_c w) (w_socks w) (w_writeMu w) (w_dialing w) l.

Definition shut (s : sock) : sock := mkSock (so_out s) false (so_pub s).
Definition close_sock (n : nat) (w : cworld) : cworld := with_socks (alter shut n (w_socks w)) w.

(** What the network does to one action: nothing, or it fails, a [Write] after
    so many bytes. *)
Abbreviation net_fault := (option nat).

(** ** Programs *)

(** [GStep]: one action of goroutine [i]; [GLock], [GUnlock]: of [writeMu]. *)
Inductive gprog (A : Type) : Type :=
  | GDone (a : A)
  | GStep {B : Set} (f : nat → net_fault → cworld → B * cworld) (k : B → gprog A)
  | GLock (k : gprog A)
  | GUnlock (k : gprog A).
Arguments GDone {A} a.
Arguments GStep {A B} f k.
Arguments GLock {A} k.
Arguments GUnlock {A} k.

Fixpoint gbind {A B} (p : gprog A) (k : A → gprog B) : gprog B :=
  match p with
  | GDone a => k a
  | GStep f h => GStep f (λ b, gbind (h b) k)
  | GLock h => GLock (gbind h k)
  | GUnlock h => GUnlock (gbind h k)
  end.
Definition step {B : Set} (f : nat → net_fault → cworld → B * cworld) : gprog B := GStep f GDone.

Notation "'go~' x := m 'in' k" := (gbind m (λ x, k))
  (at level 10, x pattern, m at level 100, k at level 200,
   format "'go~'  x  :=  m  'in' '//' k") : go_scope.

(** ** The actions *)

(** A section under [stateMu] that touches the client's fields only, or an
    operation on one of its flags. *)
Definition on_client {B : Set} (f : IsanndClient → B * IsanndClient) (i : nat) (_ : net_fault) (w : cworld)
  : B * cworld :=
  let '(b, c) := f (w_c w) in (b, with_client c w).

(** pkg/tunnel/isannd_client.go:189-192 [IsanndClient.dialAndHello part]: the compare-and-swap of [dialing]; the deferred store of false is [act_release]. *)
Definition act_dialing (i : nat) (_ : net_fault) (w : cworld) : bool * cworld :=
  match w_dialing w with Some _ => (false, w) | None => (true, with_dialing (Some i) w) end.
Definition act_release (i : nat) (_ : net_fault) (w : cworld) : unit * cworld := (tt, with_dialing None w).

(** pkg/tunnel/isannd_client.go:194-201 [IsanndClient.dialAndHello part]: the old connection is closed and forgotten, the identity read. *)
Definition act_forget (i : nat) (_ : net_fault) (w : cworld) : (string * string) * cworld :=
  let w' := match c_conn (w_c w) with
            | Some n => with_client (set_conn None (w_c w)) (close_sock n w)
            | None => w
            end in
  ((c_helloID (w_c w), c_helloRole (w_c w)), w').

(** pkg/tunnel/isannd_client.go:206-210 [IsanndClient.dialAndHello part]: the dial. *)
Definition act_dial (i : nat) (fault : net_fault) (w : cworld) : option nat * cworld :=
  match fault with
  | Some _ => (None, w)
  | None =>
      let n := length (w_socks w) in
      let c := w_c w in
      let c := mkClient (c_httpBase c) (c_controlAddr c) (c_helloID c) (c_helloRole c) (c_conn c)
                 (c_closed c) (c_needRegister c) (S n) in
      (Some n, with_client c (with_socks (w_socks w ++ [mkSock "" true false]) w))
  end.

(** One [Write] on a socket: on an open one it delivers everything, or a prefix
    when it fails; on a closed one nothing. *)
Definition act_write (n : nat) (p : string) (i : nat) (fault : net_fault) (w : cworld) : bool * cworld :=
  let deliver s := with_socks (alter (λ k, mkSock (so_out k ++s s) (so_open k) (so_pub k)) n (w_socks w)) w in
  match w_socks w !! n with
  | Some (mkSock _ true _) =>
      match fault with
      | None => (true, deliver p)
      | Some k => (false, deliver (take_str k p))
      end
  | _ => (false, w)
  end.

Definition act_close (n : nat) (i : nat) (_ : net_fault) (w : cworld) : unit * cworld := (tt, close_sock n w).

(** pkg/tunnel/isannd_client.go:219-221 [IsanndClient.dialAndHello part]: the new connection becomes the client's. *)
Definition act_publish (n : nat) (i : nat) (_ : net_fault) (w : cworld) : unit * cworld :=
  (tt, with_client (set_conn (Some n) (w_c w))
         (with_socks (alter (λ k, mkSock (so_out k) (so_open k) true) n (w_socks w)) w)).

(** pkg/tunnel/isannd_client.go:267-274 [IsanndClient.markConnDead] *)
Definition mark_dead (n : nat) (w : cworld) : cworld :=
  match c_conn (w_c w) with
  | Some k => if (k =? n)%nat then with_client (set_conn None (w_c w)) (close_sock n w) else w
  | None => w
  end.
Definition act_dead (n : nat) (i : nat) (_ : net_fault) (w : cworld) : unit * cworld := (tt, mark_dead n w).

(** pkg/tunnel/isannd_client.go:427-430 [IsanndClient.Close part]: the connection is taken. *)
Definition act_take (i : nat) (_ : net_fault) (w : cworld) : option nat * cworld :=
  match c_conn (w_c w) with
  | Some n => (Some n, with_client (set_conn None (w_c w)) (with_closing ({[ (i, n) ]} ∪ w_closing w) w))
  | None => (None, w)
  end.

(** pkg/tunnel/isannd_client.go:432-432 [IsanndClient.Close part]: and closed. *)
Definition act_close_taken (n : nat) (i : nat) (_ : net_fault) (w : cworld) : unit * cworld :=
  (tt, with_closing (w_closing w ∖ {[ (i, n) ]}) (close_sock n w)).

(** [c.closed], set once. *)
Definition set_closed (c : IsanndClient) : IsanndClient :=
  mkClient (c_httpBase c) (c_controlAddr c) (c_helloID c) (c_helloRole c) (c_conn c) true
    (c_needRegister c) (c_next c).

(** pkg/tunnel/isannd_client.go:170-179 [IsanndClient.Connect part]: the section that captures the identity, [already] or the error. *)
Definition sec_identity (nodeID role : string) (c : IsanndClient) : result client_err bool * IsanndClient :=
  if negb (c_helloID c =s? "") && negb (c_helloID c =s? nodeID) then (Err (CSwitch (c_helloID c) nodeID), c)
  else let c := set_hello nodeID role c in
       (Ok (match c_conn c with Some _ => true | None => false end), c).

(** pkg/tunnel/isannd_client.go:307-315 [IsanndClient.writeFrame part]: the section that captures or checks the identity. *)
Definition sec_frame_identity (m : RendezvousMsg) (c : IsanndClient) : option client_err * IsanndClient :=
  if (c_helloID c =s? "") && negb (m_ID m =s? "") then (None, set_hello (m_ID m) (m_Role m) c)
  else if negb (m_ID m =s? "") && negb (c_helloID c =s? m_ID m)
  then (Some (CMismatch (c_helloID c) (m_ID m)), c)
  else (None, c).

(** ** The calls *)

Section calls.
Context {J : FrameJSON}.

(** pkg/tunnel/isannd_client.go:42-59 [writeFrameTo]: the two [Write]s of a frame. *)
Definition writeFrameG (n : nat) (m : RendezvousMsg) : gprog (option frame_err) :=
  match marshal_msg m with
  | None => GDone (Some FMarshal)
  | Some data =>
      let len := Z.of_nat (String.length data) in
      if frameMaxSize <? len then GDone (Some FTooLarge)
      else
        go~ ok := step (act_write n (put_u32 len)) in
        if negb ok then GDone (Some FWrite)
        else go~ ok := step (act_write n data) in
             if negb ok then GDone (Some FWrite) else GDone None
  end.

(** pkg/tunnel/isannd_client.go:194-228 [IsanndClient.dialAndHello part]: with [dialing] set. *)
Definition dialHeldG : gprog (option client_err) :=
  go~ (nodeID, role) := step act_forget in
  if nodeID =s? "" then GDone (Some CHelloUnset)
  else
    go~ conn := step act_dial in
    match conn with
    | None => GDone (Some CDial)
    | Some n =>
        go~ err := writeFrameG n (hello_frame nodeID role) in
        match err with
        | Some _ => go~ _ := step (act_close n) in GDone (Some CHelloWrite)
        | None => go~ _ := step (act_publish n) in GDone None
        end
    end.

(** pkg/tunnel/isannd_client.go:188-229 [IsanndClient.dialAndHello]: with the deferred release. *)
Definition dialAndHelloG : gprog (option client_err) :=
  go~ won := step act_dialing in
  if negb won then GDone None
  else go~ err := dialHeldG in go~ _ := step act_release in GDone err.

(** pkg/tunnel/isannd_client.go:278-295 [IsanndClient.ensureConn] *)
Definition ensureConnG : gprog (result client_err nat) :=
  go~ conn := step (on_client (λ c, (c_conn c, c))) in
  match conn with
  | Some n => GDone (Ok n)
  | None =>
      go~ err := dialAndHelloG in
      match err with
      | Some err => GDone (Err err)
      | None =>
          go~ conn := step (on_client (λ c, (c_conn c, c))) in
          match conn with Some n => GDone (Ok n) | None => GDone (Err CConnNil) end
      end
  end.

(** pkg/tunnel/isannd_client.go:304-325 [IsanndClient.writeFrame] *)
Definition sendG (m : RendezvousMsg) : gprog (option client_err) :=
  GLock
    (go~ err := step (on_client (sec_frame_identity m)) in
     match err with
     | Some err => GUnlock (GDone (Some err))
     | None =>
         go~ conn := ensureConnG in
         match conn with
         | Err err => GUnlock (GDone (Some err))
         | Ok n =>
             go~ err := writeFrameG n m in
             match err with
             | Some _ => go~ _ := step (act_dead n) in GUnlock (GDone (Some (CWrite (m_Type m))))
             | None => GUnlock (GDone None)
             end
         end
     end).

(** pkg/tunnel/isannd_client.go:166-183 [IsanndClient.Connect] *)
Definition ConnectG (nodeID role : string) : gprog (option client_err) :=
  go~ closed := step (on_client (λ c, (c_closed c, c))) in
  if (closed : bool) then GDone (Some CClosed)
  else
    go~ already := step (on_client (sec_identity nodeID role)) in
    match already with
    | Err err => GDone (Some err)
    | Ok true => GDone None
    | Ok false => dialAndHelloG
    end.

(** pkg/tunnel/isannd_client.go:423-435 [IsanndClient.Close] *)
Definition CloseG : gprog (option client_err) :=
  go~ first := step (on_client (λ c, (negb (c_closed c), set_closed c))) in
  if negb first then GDone None
  else
    go~ conn := step act_take in
    match conn with
    | None => GDone None
    | Some n => go~ _ := step (act_close_taken n) in GDone None
    end.

(** A call and its arguments. *)
Inductive client_call :=
  | CallConnect (id role : string)
  | CallRegister (m : option RendezvousMsg)
  | CallHeartbeat (p : option HeartbeatPing)
  | CallMetrics (v : option MetricsEvent)
  | CallBatch (id role : string) (batch : list ServiceMetrics)
  | CallFrame (m : option RendezvousMsg)
  | CallClose.

(** The error, or the heartbeat's flag (false for the others). *)
Definition sent_or (p : gprog (option client_err)) : gprog (result client_err bool) :=
  go~ err := p in match err with Some err => GDone (Err err) | None => GDone (Ok false) end.

(** pkg/tunnel/isannd_client.go:344-360 [IsanndClient.SendHeartbeat] *)
Definition HeartbeatG (p : HeartbeatPing) : gprog (result client_err bool) :=
  go~ err := sendG (ping_frame p) in
  match err with
  | Some err => GDone (Err err)
  | None => go~ need := step (on_client (λ c, (c_needRegister c, set_need false c))) in GDone (Ok need)
  end.

Definition call_prog (call : client_call) : gprog (result client_err bool) :=
  match call with
  | CallConnect id role => sent_or (ConnectG id role)
  | CallRegister None | CallHeartbeat None | CallMetrics None | CallFrame None => GDone (Err CNil)
  | CallRegister (Some m) => sent_or (sendG (if m_Type m =s? "" then set_msg_Type TypeRegister m else m))
  | CallHeartbeat (Some p) => HeartbeatG p
  | CallMetrics (Some v) => sent_or (sendG (metrics_frame (me_NodeID v) (me_Role v) (Some (me_Service v)) []))
  | CallBatch id role batch => sent_or (sendG (metrics_frame id role None batch))
  | CallFrame (Some m) => if m_Type m =s? "" then GDone (Err CNoType) else sent_or (sendG m)
  | CallClose => sent_or CloseG
  end.

(** ** The machine *)

Record cmachine := mkCM { cm_w : cworld; cm_calls : list (gprog (result client_err bool)) }.

Definition cm_start (httpBase controlAddr : string) : cmachine :=
  mkCM (mkCW (NewIsanndClient httpBase controlAddr) [] None None ∅) [].

(** A call arrives; the i-th executes its next action; the reader of a socket
    reads a frame, or fails. *)
Inductive cl_event :=
  | ECall (call : client_call)
  | EGo (i : nat) (fault : net_fault)
  | EPush (m : RendezvousMsg)
  | EReadErr (n : nat).

Definition cm_step (s : cmachine) (e : cl_event) : cmachine :=
  match e with
  | ECall call => mkCM (cm_w s) (cm_calls s ++ [call_prog call])
  | EGo i fault =>
      match cm_calls s !! i with
      | Some (GStep f k) =>
          let '(b, w) := f i fault (cm_w s) in mkCM w (<[i := k b]> (cm_calls s))
      | Some (GLock k) =>
          match w_writeMu (cm_w s) with
          | None => mkCM (with_writeMu (Some i) (cm_w s)) (<[i := k]> (cm_calls s))
          | Some _ => s
          end
      | Some (GUnlock k) => mkCM (with_writeMu None (cm_w s)) (<[i := k]> (cm_calls s))
      | _ => s
      end
  | EPush m => mkCM (with_client (on_push m (w_c (cm_w s))) (cm_w s)) (cm_calls s)
  | EReadErr n => mkCM (mark_dead n (cm_w s)) (cm_calls s)
  end.

Definition cm_run (h : list cl_event) (s : cmachine) : cmachine := fold_left cm_step h s.

(** What the i-th call has returned. *)
Definition returned (s : cmachine) (i : nat) : option (result client_err bool) :=
  match cm_calls s !! i with Some (GDone a) => Some a | _ => None end.
End calls.
