(* ===== verification/ClientConcLogic.v ===== *)
(** * What the goroutines of one client owe each other

    The invariant of the shared client of [ClientConc], what the holder of
    [writeMu], the goroutine that dials and the one that closes may rely on, and
    triples for the programs: a goroutine's actions keep the invariant and what
    the others rely on, whatever the others do between them.  Then the actions
    one by one. *)

From S2P Require Import Prelude GoStrings GoStringsFacts Strconv Hardware GoAny Tunnel Signal NodeClient.
From S2P Require Import ClientConc.
From Stdlib Require Import ZArith Lia ZifyBool Bool Ascii String SpecFloat.
From stdpp Require Import base option list gmap strings.

Open Scope go_scope.
Open Scope Z_scope.

Section logic.
Context {J : FrameJSON}.

(** ** What a socket has carried *)

(** [out] is the frames of [ms], all of the node [id]. *)
Inductive stream (id : string) : list RendezvousMsg → string → Prop :=
  | stream_nil : stream id [] ""
  | stream_snoc ms out m data :
      stream id ms out → marshal_msg m = Some data → frame_sized data → of_node id m →
      stream id (ms ++ [m]) (out ++s frame_bytes data).

(** A frame cut short. *)
Definition torn (tail : string) : Prop :=
  ∃ data rest, frame_sized data ∧ tail ++s rest = frame_bytes data ∧ rest ≠ ""%string.

Definition greeted (id : string) (ms : list RendezvousMsg) : Prop :=
  ∃ role rest, ms = hello_frame id role :: rest.

Definition whole (id : string) (s : sock) : Prop := ∃ ms, stream id ms (so_out s) ∧ greeted id ms.

(** Whole frames, the hello first, and at most one torn at the end. *)
Definition sock_ok (id : string) (s : sock) : Prop :=
  ∃ ms full tail, stream id ms full ∧ so_out s = full ++s tail ∧ (tail = ""%string ∨ torn tail) ∧
    (greeted id ms ∨ so_pub s = false ∧ ms = []).

Lemma greeted_app id ms ms' : greeted id ms → greeted id (ms ++ ms').
Proof. intros (role & rest & ->). by exists role, (rest ++ ms'). Qed.

(** What a prefix of a frame leaves. *)
Lemma prefix_sock_ok id ms full m data p q s :
  stream id ms full → marshal_msg m = Some data → frame_sized data → of_node id m →
  greeted id (ms ++ [m]) → (greeted id ms ∨ so_pub s = false ∧ ms = []) →
  p ++s q = frame_bytes data → so_out s = full ++s p → sock_ok id s.
Proof.
  intros Hs Hm Hsz Hof Hg Hb Hpq Ho. destruct (String.eqb_spec q "") as [-> | Hq].
  - rewrite sapp_nil_r in Hpq. subst p. exists (ms ++ [m]), (full ++s frame_bytes data), ""%string.
    split_and!; [by econstructor|by rewrite sapp_nil_r|by left|by left].
  - exists ms, full, p. split_and!; [done|done|right; by exists data, q|done].
Qed.

(** ** The invariant *)

Notation hello_of w := (c_helloID (w_c w)).

Record Inv (w : cworld) : Prop := {
  v_next : c_next (w_c w) = length (w_socks w);
  v_id : w_socks w ≠ [] → hello_of w ≠ ""%string;
  v_conn : ∀ n, c_conn (w_c w) = Some n → ∃ s, w_socks w !! n = Some s ∧ so_pub s = true ∧
    (w_writeMu w = None → whole (hello_of w) s);
  v_open : ∀ n s, w_socks w !! n = Some s → so_open s = true →
    if so_pub s then c_conn (w_c w) = Some n ∨ ∃ i, (i, n) ∈ w_closing w
    else is_Some (w_dialing w) ∧ S n = length (w_socks w);
  v_sock : ∀ n s, w_socks w !! n = Some s → sock_ok (hello_of w) s;
  v_taken : ∀ i n, (i, n) ∈ w_closing w → ∃ s, w_socks w !! n = Some s ∧ so_pub s = true
}.

Lemma inv_start httpBase controlAddr : Inv (cm_w (cm_start httpBase controlAddr)).
Proof. by split. Qed.

(** ** Bytes stay sent *)

Definition grows (l l' : list sock) : Prop :=
  ∀ n s, l !! n = Some s → ∃ s' t, l' !! n = Some s' ∧ so_out s' = so_out s ++s t.

Lemma grows_refl l : grows l l.
Proof. intros n s Hs. exists s, ""%string. by rewrite sapp_nil_r. Qed.

Lemma grows_trans l1 l2 l3 : grows l1 l2 → grows l2 l3 → grows l1 l3.
Proof.
  intros A B n s Hs. destruct (A n s Hs) as (s2 & t2 & H2 & E2). destruct (B n s2 H2) as (s3 & t3 & H3 & E3).
  exists s3, (t2 ++s t3). by rewrite E3, E2, sapp_assoc.
Qed.

Lemma grows_alter f n l :
  (∀ s, l !! n = Some s → ∃ t, so_out (f s) = so_out s ++s t) → grows l (alter f n l).
Proof.
  intros Hf k s Hs. destruct (decide (k = n)) as [-> |Hk].
  - destruct (Hf s Hs) as [t Ht]. exists (f s), t. by rewrite list_lookup_alter_eq, Hs.
  - exists s, ""%string. by rewrite list_lookup_alter_ne, sapp_nil_r.
Qed.

Lemma grows_shut n l : grows l (alter shut n l).
Proof. apply grows_alter. intros s _. exists ""%string. by rewrite sapp_nil_r. Qed.

Lemma grows_app l s : grows l (l ++ [s]).
Proof. intros n s' Hs. exists s', ""%string. by rewrite sapp_nil_r, (lookup_app_l_Some _ _ _ _ Hs). Qed.

(** ** What goroutine [i] may rely on *)

Record rely (i : nat) (w w' : cworld) : Prop := {
  r_id : hello_of w ≠ ""%string → hello_of w' = hello_of w;
  r_mu : w_writeMu w = Some i ↔ w_writeMu w' = Some i;
  r_written : w_writeMu w = Some i → ∀ n s, w_socks w !! n = Some s → so_pub s = true →
    ∃ s', w_socks w' !! n = Some s' ∧ so_pub s' = true ∧ so_out s' = so_out s;
  r_fresh : w_writeMu w = Some i → ∀ n s, c_conn (w_c w') = Some n → w_socks w' !! n = Some s →
    c_conn (w_c w) = Some n ∨ whole (hello_of w') s;
  r_dialing : w_dialing w = Some i ↔ w_dialing w' = Some i;
  r_len : w_dialing w = Some i → length (w_socks w') = length (w_socks w);
  r_private : w_dialing w = Some i → ∀ n s, so_pub s = false → w_socks w !! n = Some s ↔ w_socks w' !! n = Some s;
  r_none : w_dialing w = Some i → c_conn (w_c w) = None → c_conn (w_c w') = None;
  r_closing : ∀ n, (i, n) ∈ w_closing w ↔ (i, n) ∈ w_closing w';
  r_grow : grows (w_socks w) (w_socks w')
}.

Lemma rely_refl i w : rely i w w.
Proof. split; try done; [intros _ n s Hn Hp; by exists s|by left|apply grows_refl]. Qed.

Lemma rely_trans i w1 w2 w3 : Inv w2 → rely i w1 w2 → rely i w2 w3 → rely i w1 w3.
Proof.
  intros HI A B. split.
  - intros H. rewrite (r_id _ _ _ B), (r_id _ _ _ A); [done..|]. by rewrite (r_id _ _ _ A).
  - by rewrite (r_mu _ _ _ A), (r_mu _ _ _ B).
  - intros Hm n s Hs Hp. destruct (r_written _ _ _ A Hm n s Hs Hp) as (s' & Hs' & Hp' & Ho').
    apply (r_mu _ _ _ A) in Hm. destruct (r_written _ _ _ B Hm n s' Hs' Hp') as (s2 & Hs2 & Hp2 & Ho2).
    exists s2. split_and!; congruence.
  - intros Hm n s Hc Hs. pose proof (proj1 (r_mu _ _ _ A) Hm) as Hm2.
    destruct (r_fresh _ _ _ B Hm2 n s Hc Hs) as [Hc2|?]; [|by right].
    destruct (v_conn _ HI n Hc2) as (s2 & Hs2 & Hp2 & _).
    destruct (r_fresh _ _ _ A Hm n s2 Hc2 Hs2) as [?|Hw]; [by left|right].
    destruct (r_written _ _ _ B Hm2 n s2 Hs2 Hp2) as (s3 & Hs3 & _ & Ho3). assert (s3 = s) as -> by congruence.
    destruct Hw as (ms & Hst & Hg). exists ms.
    assert (w_socks w2 ≠ []) as Hne by (intros He; by rewrite He in Hs2).
    rewrite (r_id _ _ _ B) by by apply (v_id _ HI). by rewrite Ho3.
  - by rewrite (r_dialing _ _ _ A), (r_dialing _ _ _ B).
  - intros Hd. pose proof (proj1 (r_dialing _ _ _ A) Hd). rewrite (r_len _ _ _ B), (r_len _ _ _ A); done.
  - intros Hd n s Hp. pose proof (proj1 (r_dialing _ _ _ A) Hd).
    by rewrite (r_private _ _ _ A Hd n s Hp), (r_private _ _ _ B).
  - intros Hd Hc. apply (r_none _ _ _ B); [by apply (r_dialing _ _ _ A)|]. by apply (r_none _ _ _ A).
  - intros n. by rewrite (r_closing _ _ _ A), (r_closing _ _ _ B).
  - exact (grows_trans _ _ _ (r_grow _ _ _ A) (r_grow _ _ _ B)).
Qed.

(** An action of [i] that keeps the invariant and what the others rely on. *)
Definition gives (i : nat) (w w' : cworld) : Prop := Inv w' ∧ ∀ j, j ≠ i → rely j w w'.

(** ** Triples *)

Fixpoint safe {A} (i : nat) (Q : A → cworld → Prop) (p : gprog A) (w : cworld) : Prop :=
  match p with
  | GDone a => Q a w
  | GStep f k => ∀ fault w', Inv w' → rely i w w' →
      let '(b, w'') := f i fault w' in gives i w' w'' ∧ safe i Q (k b) w''
  | GLock k => ∀ w', Inv w' → rely i w w' → w_writeMu w' = None →
      gives i w' (with_writeMu (Some i) w') ∧ safe i Q k (with_writeMu (Some i) w')
  | GUnlock k => ∀ w', Inv w' → rely i w w' →
      gives i w' (with_writeMu None w') ∧ safe i Q k (with_writeMu None w')
  end.

Definition stable (i : nat) (P : cworld → Prop) : Prop :=
  ∀ w w', Inv w → Inv w' → rely i w w' → P w → P w'.

Lemma safe_stable {A} i Q (p : gprog A) w w' :
  (∀ a, stable i (Q a)) → Inv w → Inv w' → rely i w w' → safe i Q p w → safe i Q p w'.
Proof.
  intros HQ HI HI' HR. destruct p as [a|B f k|k|k]; simpl.
  - by apply HQ.
  - intros H fault d Hd HR'. apply H; [done|]. by apply rely_trans with w'.
  - intros H d Hd HR'. apply H; [done|]. by apply rely_trans with w'.
  - intros H d Hd HR'. apply H; [done|]. by apply rely_trans with w'.
Qed.

Definition tr {A} (i : nat) (P : cworld → Prop) (p : gprog A) (Q : A → cworld → Prop) : Prop :=
  ∀ w, Inv w → P w → safe i Q p w.

Lemma tr_done {A} i (P : cworld → Prop) (a : A) (Q : A → cworld → Prop) :
  (∀ w, Inv w → P w → Q a w) → tr i P (GDone a) Q.
Proof. intros H w HI HP. by apply H. Qed.

Lemma tr_step {B : Set} i P (f : nat → net_fault → cworld → B * cworld) (Q : B → cworld → Prop) :
  stable i P →
  (∀ fault w, Inv w → P w → let '(b, w') := f i fault w in gives i w w' ∧ Q b w') →
  tr i P (step f) Q.
Proof.
  intros HP Hf w HI H fault w' HI' HR. specialize (Hf fault w' HI' (HP w w' HI HI' HR H)).
  destruct (f i fault w') as [b w'']. exact Hf.
Qed.

Lemma tr_bind {A B} i P (p : gprog A) (k : A → gprog B) R Q :
  tr i P p R → (∀ a, tr i (R a) (k a) Q) → tr i P (gbind p k) Q.
Proof.
  intros Hp Hk w HI HP. specialize (Hp w HI HP). clear HP. revert w HI Hp.
  induction p as [a|C f h IH|h IH|h IH]; intros w HI Hp; simpl in *.
  - by apply Hk.
  - intros fault w' HI' HR. specialize (Hp fault w' HI' HR). destruct (f i fault w') as [b w''].
    destruct Hp as [Hg Hs]. split; [done|]. apply IH; [apply Hg|done].
  - intros w' HI' HR Hm. destruct (Hp w' HI' HR Hm) as [Hg Hs]. split; [done|]. apply IH; [apply Hg|done].
  - intros w' HI' HR. destruct (Hp w' HI' HR) as [Hg Hs]. split; [done|]. apply IH; [apply Hg|done].
Qed.

Lemma tr_weaken {A} i (P P' : cworld → Prop) (p : gprog A) (Q Q' : A → cworld → Prop) :
  tr i P' p Q' → (∀ w, Inv w → P w → P' w) → (∀ a w, Inv w → Q' a w → Q a w) → tr i P p Q.
Proof.
  intros Hp HP HQ w HI H. specialize (Hp w HI (HP w HI H)). clear H. revert w HI Hp.
  induction p as [a|C f h IH|h IH|h IH]; intros w HI Hp; simpl in *.
  - by apply HQ.
  - intros fault w' HI' HR. specialize (Hp fault w' HI' HR). destruct (f i fault w') as [b w''].
    destruct Hp as [Hg Hs]. split; [done|]. apply IH; [apply Hg|done].
  - intros w' HI' HR Hm. destruct (Hp w' HI' HR Hm) as [Hg Hs]. split; [done|]. apply IH; [apply Hg|done].
  - intros w' HI' HR. destruct (Hp w' HI' HR) as [Hg Hs]. split; [done|]. apply IH; [apply Hg|done].
Qed.

Lemma tr_exists {A X} i (P : X → cworld → Prop) (p : gprog A) Q :
  (∀ x, tr i (P x) p Q) → tr i (λ w, ∃ x, P x w) p Q.
Proof. intros H w HI [x HP]. by apply (H x). Qed.

Lemma tr_lock {A} i (P P' : cworld → Prop) (k : gprog A) Q :
  stable i P →
  (∀ w, Inv w → P w → w_writeMu w = None →
     gives i w (with_writeMu (Some i) w) ∧ P' (with_writeMu (Some i) w)) →
  tr i P' k Q → tr i P (GLock k) Q.
Proof.
  intros HP Hl Hk w HI H w' HI' HR Hm. destruct (Hl w' HI' (HP w w' HI HI' HR H) Hm) as [Hg HP'].
  split; [done|]. apply Hk; [apply Hg|done].
Qed.

Lemma tr_unlock {A} i (P P' : cworld → Prop) (k : gprog A) Q :
  stable i P →
  (∀ w, Inv w → P w → gives i w (with_writeMu None w) ∧ P' (with_writeMu None w)) →
  tr i P' k Q → tr i P (GUnlock k) Q.
Proof.
  intros HP Hl Hk w HI H w' HI' HR. destruct (Hl w' HI' (HP w w' HI HI' HR H)) as [Hg HP'].
  split; [done|]. apply Hk; [apply Hg|done].
Qed.
End logic.

Notation hello_of w := (c_helloID (w_c w)).
#[export] Hint Resolve grows_refl grows_shut grows_app : core.

(** * One client, many goroutines: the calls keep the invariant

    The actions of [ClientConc] one by one, under what a goroutine must hold to
    take them, then the triples of the calls in the logic of [ClientConcLogic]. *)

Lemma lookup_alter_inv {A} (f : A → A) n (l : list A) k s :
  alter f n l !! k = Some s → k = n ∧ (∃ s0, l !! n = Some s0 ∧ s = f s0) ∨ k ≠ n ∧ l !! k = Some s.
Proof.
  intros H. destruct (decide (k = n)) as [-> |Hne].
  - left. split; [done|]. rewrite list_lookup_alter_eq in H.
    destruct (l !! n) as [s0|]; [|done]. injection H as <-. by exists s0.
  - right. by rewrite list_lookup_alter_ne in H.
Qed.

Lemma lookup_not_nil {A} (l : list A) n s : l !! n = Some s → l ≠ [].
Proof. by intros H ->. Qed.

(** Projections of the worlds the actions build. *)
Ltac world := unfold close_sock in *; cbn [w_c w_socks w_writeMu w_dialing w_closing with_client with_socks
  with_writeMu with_dialing with_closing c_conn c_next c_helloID set_conn shut so_out so_open so_pub] in *.

Section actions.
Context {J : FrameJSON}.
Implicit Types (i n : nat) (w : cworld).

(** Every socket the dialling goroutine has not published is closed. *)
Definition quiet w : Prop := ∀ n s, w_socks w !! n = Some s → so_pub s = false → so_open s = false.
Definition quiet_but n w : Prop :=
  ∀ k s, k ≠ n → w_socks w !! k = Some s → so_pub s = false → so_open s = false.

(** The current connection has carried whole frames only. *)
Definition tidy w : Prop :=
  ∀ n s, c_conn (w_c w) = Some n → w_socks w !! n = Some s → whole (hello_of w) s.
Definition tidy_but n w : Prop :=
  ∀ k s, k ≠ n → c_conn (w_c w) = Some k → w_socks w !! k = Some s → whole (hello_of w) s.

(** ** Actions on the client and its flags *)

Lemma gives_client i w c :
  Inv w → c_conn c = c_conn (w_c w) → c_next c = c_next (w_c w) →
  (hello_of w ≠ ""%string → c_helloID c = hello_of w) → gives i w (with_client c w).
Proof.
  intros HI Hc Hn Hh.
  assert (∀ n s, w_socks w !! n = Some s → c_helloID c = hello_of w) as Hk.
  { intros n s Hs. apply Hh, (v_id _ HI). by eapply lookup_not_nil. }
  split.
  - split; world; rewrite ?Hc, ?Hn; try apply HI.
    + intros H. pose proof (v_id _ HI H) as Hne. by rewrite Hh.
    + intros n H. destruct (v_conn _ HI n H) as (s & Hs & Hp & Hw). rewrite (Hk n s Hs). by exists s.
    + intros n s Hs. rewrite (Hk n s Hs). by eapply v_sock.
  - intros j _. split; world; rewrite ?Hc; try done.
    + intros _ n s Hs Hp. by exists s.
    + by left.
Qed.

Lemma gives_dialing i w : Inv w → w_dialing w = None → gives i w (with_dialing (Some i) w).
Proof.
  intros HI Hd. split.
  - split; world; try apply HI. intros n s Hs Ho. pose proof (v_open _ HI n s Hs Ho) as H.
    destruct (so_pub s); [done|]. rewrite Hd in H. by destruct H as [[? ?] _].
  - intros j Hj. split; world; try done; rewrite ?Hd; try done.
    + intros _ n s Hs Hp. by exists s.
    + by left.
    + split; [done|]. by intros [= ->].
Qed.

Lemma gives_release i w :
  Inv w → w_dialing w = Some i → quiet w → gives i w (with_dialing None w).
Proof.
  intros HI Hd Hq. split.
  - split; world; try apply HI. intros n s Hs Ho. pose proof (v_open _ HI n s Hs Ho) as H.
    pose proof (Hq n s Hs). destruct (so_pub s); [done|]. naive_solver congruence.
  - intros j Hj. split; world; try done; rewrite ?Hd.
    + intros _ n s Hs Hp. by exists s.
    + by left.
    + split; [by intros [= ->]|done].
Qed.

Lemma gives_lock i w : Inv w → w_writeMu w = None → gives i w (with_writeMu (Some i) w).
Proof.
  intros HI Hm. split.
  - split; world; try apply HI. intros n Hc. destruct (v_conn _ HI n Hc) as (s & Hs & Hp & _). by exists s.
  - intros j Hj. split; world; try done; rewrite ?Hm; try done. split; [done|]. by intros [= ->].
Qed.

Lemma gives_unlock i w : Inv w → w_writeMu w = Some i → tidy w → gives i w (with_writeMu None w).
Proof.
  intros HI Hm Ht. split.
  - split; world; try apply HI. intros n Hc. destruct (v_conn _ HI n Hc) as (s & Hs & Hp & _).
    exists s. split_and!; [done..|]. intros _. by eapply Ht.
  - intros j Hj. split; world; try done; rewrite ?Hm; [split; [by intros [= ->]|done]|..];
      by intros [= ->].
Qed.

(** ** Actions on a socket *)

Lemma sock_ok_close id s : sock_ok id s → sock_ok id (shut s).
Proof. done. Qed.

(** A published socket, or the dialling goroutine's own, may be closed. *)
Lemma gives_close i n w :
  Inv w → (∀ s, w_socks w !! n = Some s → so_pub s = true ∨ w_dialing w = Some i) →
  gives i w (close_sock n w).
Proof.
  intros HI Hn. split.
  - split; world; rewrite ?length_alter; try apply HI.
    + intros H. apply (v_id _ HI). intros He. by rewrite He in H.
    + intros k Hc. destruct (v_conn _ HI k Hc) as (s & Hs & Hp & Hw).
      destruct (decide (k = n)) as [-> |Hk].
      * exists (shut s). by rewrite list_lookup_alter_eq, Hs.
      * exists s. by rewrite list_lookup_alter_ne by done.
    + intros k s [(-> & s0 & Hs & ->)|[Hk Hs]]%lookup_alter_inv; [done|by apply v_open].
    + intros k s [(-> & s0 & Hs & ->)|[Hk Hs]]%lookup_alter_inv; [|by eapply v_sock].
      by apply sock_ok_close, (v_sock _ HI n).
    + intros j k Hin. destruct (v_taken _ HI j k Hin) as (s & Hs & Hp).
      destruct (decide (k = n)) as [-> |Hk].
      * exists (shut s). by rewrite list_lookup_alter_eq, Hs.
      * exists s. by rewrite list_lookup_alter_ne by done.
  - intros j Hj. split; world; rewrite ?length_alter; try done.
    + intros _ k s Hs Hp. destruct (decide (k = n)) as [-> |Hk].
      * exists (shut s). by rewrite list_lookup_alter_eq, Hs.
      * exists s. by rewrite list_lookup_alter_ne by done.
    + by left.
    + intros Hd k s Hp. destruct (decide (k = n)) as [-> |Hk]; [|by rewrite list_lookup_alter_ne by done].
      rewrite list_lookup_alter_eq. destruct (w_socks w !! n) as [s0|] eqn:E; [|done].
      destruct (Hn s0 eq_refl) as [Hp0|]; [|congruence]. cbn.
      split; intros [= <-]; cbn in Hp; congruence.
Qed.

(** The current connection may be dropped. *)
Lemma gives_drop i w : Inv w → 
  (∀ n s, c_conn (w_c w) = Some n → w_socks w !! n = Some s → so_open s = true → ∃ j, (j, n) ∈ w_closing w) →
  gives i w (with_client (set_conn None (w_c w)) w).
Proof.
  intros HI Hd. split.
  - split; world; try apply HI; [done|]. intros n s Hs Ho. pose proof (v_open _ HI n s Hs Ho) as H.
    destruct (so_pub s); [|done]. destruct H as [Hc|?]; right; [by eapply Hd|done].
  - intros j Hj. split; world; try done. intros _ n s Hs Hp. by exists s.
Qed.

Lemma gives_trans i w1 w2 w3 : gives i w1 w2 → gives i w2 w3 → gives i w1 w3.
Proof.
  intros [H2 R12] [H3 R23]. split; [done|]. intros j Hj. apply (rely_trans j w1 w2 w3); auto.
Qed.

Lemma gives_forget i n w :
  Inv w → c_conn (w_c w) = Some n → gives i w (with_client (set_conn None (w_c w)) (close_sock n w)).
Proof.
  intros HI Hc. destruct (v_conn _ HI n Hc) as (s & Hs & Hp & _).
  assert (gives i w (close_sock n w)) as Hg by (apply gives_close; [done|]; intros ? [= <-]%(eq_trans (eq_sym Hs)); by left).
  eapply gives_trans; [exact Hg|]. apply (gives_drop i (close_sock n w)); [apply Hg|]. world. intros k s' Hk Hs' Ho.
  assert (k = n) as -> by congruence. rewrite list_lookup_alter_eq, Hs in Hs'. by injection Hs' as <-.
Qed.

Lemma gives_dead i n w : Inv w → gives i w (mark_dead n w).
Proof.
  intros HI. unfold mark_dead. destruct (c_conn (w_c w)) as [k|] eqn:E.
  - destruct (Nat.eqb_spec k n) as [-> |_]; [by apply gives_forget|]. split; [done|]. intros; apply rely_refl.
  - split; [done|]. intros; apply rely_refl.
Qed.

Lemma greeted_hello id role : greeted id [hello_frame id role].
Proof. by exists role, []. Qed.

(** A dial adds a socket that carried nothing. *)
Lemma gives_dial i w :
  Inv w → w_dialing w = Some i → quiet w → hello_of w ≠ ""%string →
  gives i w (act_dial i None w).2.
Proof.
  intros HI Hd Hq Hh. split.
  - split; cbn [act_dial snd]; world; rewrite ?length_app; cbn [length].
    + lia.
    + done.
    + intros n Hc. destruct (v_conn _ HI n Hc) as (s & Hs & Hp & Hw).
      exists s. split_and!; [by apply lookup_app_l_Some|done|done].
    + intros n s [Hs|[Hle Hs]]%lookup_app_Some Ho.
      * pose proof (v_open _ HI n s Hs Ho) as H. pose proof (Hq n s Hs).
        destruct (so_pub s); [done|]. naive_solver congruence.
      * apply list_lookup_singleton_Some in Hs as [H0 <-]. cbn. rewrite Hd. split; [done|lia].
    + intros n s [Hs|[Hle Hs]]%lookup_app_Some; [by eapply v_sock|].
      apply list_lookup_singleton_Some in Hs as [H0 <-].
      exists [], ""%string, ""%string. cbn. split_and!; [constructor|done|by left|by right].
    + intros j n Hin. destruct (v_taken _ HI j n Hin) as (s & Hs & Hp). exists s. by erewrite lookup_app_l_Some.
  - intros j Hj. assert (w_dialing w ≠ Some j) by congruence.
    split; cbn [act_dial snd]; world; try done.
    + intros _ n s Hs Hp. exists s. by erewrite lookup_app_l_Some.
    + by left.
Qed.

(** A socket's bytes may be extended by the holder of [writeMu], or by the
    dialling goroutine when the socket is its own. *)
Lemma gives_out i n s out w :
  Inv w → w_socks w !! n = Some s →
  (if so_pub s then w_writeMu w = Some i else w_dialing w = Some i) →
  sock_ok (hello_of w) (mkSock out (so_open s) (so_pub s)) → (∃ t, out = so_out s ++s t) →
  gives i w (with_socks (alter (λ k, mkSock out (so_open k) (so_pub k)) n (w_socks w)) w).
Proof.
  intros HI Hs Hown Hok Hgr.
  assert (∀ k s', w_socks w !! k = Some s' → so_pub s' = true → ∃ s2,
    alter (λ k, mkSock out (so_open k) (so_pub k)) n (w_socks w) !! k = Some s2 ∧ so_pub s2 = true ∧
    (w_writeMu w ≠ Some i → so_out s2 = so_out s')) as Hpub.
  { intros k s' Hk Hp. destruct (decide (k = n)) as [-> |Hne].
    - rewrite list_lookup_alter_eq, Hk. eexists. split_and!; [done|done|]. intros Hm.
      assert (s' = s) as -> by congruence. by rewrite Hp in Hown.
    - rewrite list_lookup_alter_ne by done. by exists s'. }
  split.
  - split; world; rewrite ?length_alter; try apply HI.
    + intros _. apply (v_id _ HI). by eapply lookup_not_nil.
    + intros k Hc. destruct (v_conn _ HI k Hc) as (s' & Hs' & Hp & Hw).
      destruct (Hpub k s' Hs' Hp) as (s2 & H2 & Hp2 & Ho2). exists s2. split_and!; [done..|]. intros Hm.
      destruct (Hw Hm) as (ms & Hst & Hg). exists ms. rewrite Ho2; [done|congruence].
    + intros k s' [(-> & s0 & H0 & ->)|[Hk Hs']]%lookup_alter_inv; [|by apply v_open]. intros Ho.
      by apply (v_open _ HI n s0 H0).
    + intros k s' [(-> & s0 & H0 & ->)|[Hk Hs']]%lookup_alter_inv; [|by eapply v_sock].
      by assert (s0 = s) as -> by congruence.
    + intros j k Hin. destruct (v_taken _ HI j k Hin) as (s' & Hs' & Hp).
      destruct (Hpub k s' Hs' Hp) as (s2 & H2 & Hp2 & _). by exists s2.
  - intros j Hj. split; world; rewrite ?length_alter; try done.
    + intros Hm k s' Hk Hp. destruct (Hpub k s' Hk Hp) as (s2 & H2 & Hp2 & Ho2). exists s2.
      split_and!; [done..|]. apply Ho2. congruence.
    + by left.
    + intros Hd k s' Hp. destruct (decide (k = n)) as [-> |Hne]; [|by rewrite list_lookup_alter_ne by done].
      rewrite list_lookup_alter_eq, Hs. cbn. destruct (so_pub s) eqn:Ep; [|congruence].
      split; intros [= <-]; cbn in *; congruence.
    + apply grows_alter. intros s' Hs'. assert (s' = s) as -> by congruence. exact Hgr.
Qed.

(** The new connection becomes the client's. *)
Lemma gives_publish i n s w :
  Inv w → w_dialing w = Some i → c_conn (w_c w) = None →
  w_socks w !! n = Some s → so_pub s = false → whole (hello_of w) s →
  gives i w (act_publish n i None w).2.
Proof.
  intros HI Hd Hc Hs Hp Hw. cbn [act_publish snd].
  assert (alter (λ k, mkSock (so_out k) (so_open k) true) n (w_socks w) !! n =
    Some (mkSock (so_out s) (so_open s) true)) as Hn by by rewrite list_lookup_alter_eq, Hs.
  split.
  - split; world; rewrite ?length_alter; try apply HI.
    + intros _. apply (v_id _ HI). by eapply lookup_not_nil.
    + intros k [= <-]. by exists (mkSock (so_out s) (so_open s) true).
    + intros k s' [(-> & s0 & H0 & ->)|[Hk Hs']]%lookup_alter_inv Ho; [by left|].
      pose proof (v_open _ HI k s' Hs' Ho) as H. rewrite Hc in H. destruct (so_pub s'); [|done].
      destruct H; [done|by right].
    + intros k s' [(-> & s0 & H0 & ->)|[Hk Hs']]%lookup_alter_inv; [|by eapply v_sock].
      assert (s0 = s) as -> by congruence. destruct Hw as (ms & Hst & Hg).
      exists ms, (so_out s), ""%string. cbn. rewrite sapp_nil_r. split_and!; [done|done|by left|by left].
    + intros j k Hin. destruct (v_taken _ HI j k Hin) as (s' & Hs' & Hp').
      rewrite list_lookup_alter_ne by congruence. by exists s'.
  - intros j Hj. assert (w_dialing w ≠ Some j) by congruence. split; world; rewrite ?length_alter; try done.
    + intros _ k s' Hk Hp'. rewrite list_lookup_alter_ne by congruence. by exists s'.
    + intros _ k s' [= <-] Hs'. right. rewrite Hn in Hs'. injection Hs' as <-. exact Hw.
    + apply grows_alter. intros s' _. exists ""%string. by rewrite sapp_nil_r.
Qed.

(** [Close] takes the connection, and closes it. *)
Lemma gives_take i n w : Inv w → c_conn (w_c w) = Some n → gives i w (act_take i None w).2.
Proof.
  intros HI Hc. unfold act_take. rewrite Hc. cbn [snd]. destruct (v_conn _ HI n Hc) as (s & Hs & Hp & _).
  split.
  - split; world; try apply HI; [done| |].
    + intros k s' Hs' Ho. pose proof (v_open _ HI k s' Hs' Ho) as H. destruct (so_pub s'); [|done]. right.
      destruct H as [Hk|[j Hj]]; [exists i|exists j]; set_solver.
    + intros j k Hin. destruct (decide ((j, k) = (i, n))) as [[= -> ->]|Hne]; [by exists s|].
      apply (v_taken _ HI j). set_solver.
  - intros j Hj. split; world; try done; [intros _ k s' Hk Hp'; by exists s'|]. intros k. set_solver.
Qed.

Lemma gives_close_taken i n w :
  Inv w → (i, n) ∈ w_closing w → gives i w (act_close_taken n i None w).2.
Proof.
  intros HI Hin. cbn [act_close_taken snd]. destruct (v_taken _ HI i n Hin) as (s & Hs & Hp).
  assert (gives i w (close_sock n w)) as Hg by (apply gives_close; [done|]; intros ? [= <-]%(eq_trans (eq_sym Hs)); by left).
  eapply gives_trans; [exact Hg|]. destruct Hg as [HI' _].
  assert (∀ s', w_socks (close_sock n w) !! n = Some s' → so_open s' = false) as Hcl.
  { world. intros s'. rewrite list_lookup_alter_eq, Hs. by intros [= <-]. }
  revert HI' Hcl. change (w_closing w) with (w_closing (close_sock n w)). generalize (close_sock n w).
  clear. intros w HI Hcl. split.
  - split; world; try apply HI.
    + intros k s Hs Ho. pose proof (v_open _ HI k s Hs Ho) as H. destruct (so_pub s); [|done].
      destruct H as [?|[j Hj]]; [by left|right]. exists j. apply elem_of_difference. split; [done|].
      intros [= -> ->]%elem_of_singleton. by rewrite (Hcl s Hs) in Ho.
    + intros j k Hin. apply (v_taken _ HI j). set_solver.
  - intros j Hj. split; world; try done; [intros _ k s Hk Hp; by exists s|by left|]. intros k. set_solver.
Qed.
End actions.
