(* ===== verification/ClientConcCalls.v ===== *)
(** * One client, many goroutines: the calls

    What a goroutine knows between its actions, and the triples of the programs
    of [ClientConc]: called with nothing held, every call returns with nothing
    held, whatever runs in between. *)

From S2P Require Import Prelude GoStrings GoStringsFacts Strconv Hardware GoAny Tunnel Signal NodeClient ClientConc.
From S2P Require Import ClientConcLogic.
From Stdlib Require Import ZArith Lia ZifyBool Bool Ascii String SpecFloat.
From stdpp Require Import base option list gmap strings.

Open Scope go_scope.
Open Scope Z_scope.

Lemma alter_same {A} (f : A → A) n (l : list A) s : l !! n = Some s → f s = s → alter f n l = l.
Proof.
  revert n. induction l as [|x l IH]; intros [|n] Hn Hf; try done; cbn in *; [congruence|]. f_equal. by apply IH.
Qed.

(** ** What goroutine [i] knows *)

(** Whether it holds [writeMu], whether it has set [dialing]; it has no
    connection to close; the client's identity is [h] unless [h] is empty. *)
Record base (i : nat) (b d : bool) (h : string) (w : cworld) : Prop := {
  b_mu : w_writeMu w = Some i ↔ b = true;
  b_dl : w_dialing w = Some i ↔ d = true;
  b_cl : ∀ n, (i, n) ∉ w_closing w;
  b_h : h ≠ ""%string → hello_of w = h
}.

Section calls.
Context {J : FrameJSON} {L : FrameJSONLaws J}.
Implicit Types (i n : nat) (w : cworld) (b d : bool) (h id p : string).

Definition outside i b h w : Prop := base i b false h w ∧ (b = true → tidy w).
Definition dialling i b h w : Prop := base i b true h w ∧ (b = true → tidy w) ∧ quiet w.
(** The old connection forgotten and the identity read. *)
Definition ready i b h id w : Prop :=
  base i b true h w ∧ c_conn (w_c w) = None ∧ quiet w ∧ (id ≠ ""%string → hello_of w = id).
(** Socket [n] dialled, [p] written on it. *)
Definition own_sock i b h id n p w : Prop :=
  base i b true h w ∧ c_conn (w_c w) = None ∧ quiet_but n w ∧ id ≠ ""%string ∧ hello_of w = id ∧
  w_socks w !! n = Some (mkSock p true false).
(** The holder of [writeMu] has written [p] after whole frames on socket [n]. *)
Definition pub_sock i h n p w : Prop :=
  base i true false h w ∧ tidy_but n w ∧ ∃ s ms full, w_socks w !! n = Some s ∧ so_pub s = true ∧
    so_out s = full ++s p ∧ stream (hello_of w) ms full ∧ greeted (hello_of w) ms.
(** [Close] has taken socket [n]. *)
Definition taken i n w : Prop :=
  w_writeMu w ≠ Some i ∧ w_dialing w ≠ Some i ∧ ∀ k, (i, k) ∈ w_closing w ↔ k = n.

(** ** None of it is lost to the others *)

Lemma rely_hello i w w' n s : Inv w → rely i w w' → w_socks w !! n = Some s → hello_of w' = hello_of w.
Proof. intros HI HR Hs. apply (r_id _ _ _ HR), (v_id _ HI). by eapply lookup_not_nil. Qed.

Lemma base_stable i b d h : stable i (base i b d h).
Proof.
  intros w w' HI HI' HR [H1 H2 H3 H4]. split.
  - by rewrite <-(r_mu _ _ _ HR).
  - by rewrite <-(r_dialing _ _ _ HR).
  - intros n. by rewrite <-(r_closing _ _ _ HR).
  - intros Hh. specialize (H4 Hh). rewrite (r_id _ _ _ HR); congruence.
Qed.

Lemma tidy_but_rely i n w w' :
  Inv w → Inv w' → rely i w w' → w_writeMu w = Some i → tidy_but n w → tidy_but n w'.
Proof.
  intros HI HI' HR Hm Ht k s Hk Hc Hs. destruct (r_fresh _ _ _ HR Hm k s Hc Hs) as [Hc0|?]; [|done].
  destruct (v_conn _ HI k Hc0) as (s0 & Hs0 & Hp0 & _). destruct (Ht k s0 Hk Hc0 Hs0) as (ms & Hst & Hg).
  destruct (r_written _ _ _ HR Hm k s0 Hs0 Hp0) as (s1 & Hs1 & _ & Ho1).
  exists ms. rewrite (rely_hello i w w' k s0) by done. by replace (so_out s) with (so_out s0) by congruence.
Qed.

Lemma tidy_buts w : tidy w ↔ ∀ n, tidy_but n w.
Proof.
  split; [by intros H n k s _; apply H|]. intros H k s. apply (H (S k)). lia.
Qed.

Lemma tidy_rely i w w' : Inv w → Inv w' → rely i w w' → w_writeMu w = Some i → tidy w → tidy w'.
Proof. intros HI HI' HR Hm. rewrite !tidy_buts. intros Ht n. by apply (tidy_but_rely i n w). Qed.

Lemma quiet_but_rely i n w w' : rely i w w' → w_dialing w = Some i → quiet_but n w → quiet_but n w'.
Proof. intros HR Hd Hq k s Hk Hs Hp. apply (Hq k s Hk); [|done]. by apply (r_private _ _ _ HR Hd k s Hp). Qed.

Lemma quiet_rely i w w' : rely i w w' → w_dialing w = Some i → quiet w → quiet w'.
Proof. intros HR Hd Hq k s Hs Hp. apply (Hq k s); [|done]. by apply (r_private _ _ _ HR Hd k s Hp). Qed.

Lemma outside_stable i b h : stable i (outside i b h).
Proof.
  intros w w' HI HI' HR [HB Ht]. split; [by apply (base_stable i b false h w)|]. intros Hb.
  apply (tidy_rely i w); try done; [by apply (b_mu _ _ _ _ _ HB)|by apply Ht].
Qed.

Lemma dialling_stable i b h : stable i (dialling i b h).
Proof.
  intros w w' HI HI' HR (HB & Ht & Hq). split_and!; [by apply (base_stable i b true h w)| |].
  - intros Hb. apply (tidy_rely i w); try done; [by apply (b_mu _ _ _ _ _ HB)|by apply Ht].
  - apply (quiet_rely i w); try done. by apply (b_dl _ _ _ _ _ HB).
Qed.

Lemma ready_stable i b h id : stable i (ready i b h id).
Proof.
  intros w w' HI HI' HR (HB & Hc & Hq & Hid). pose proof (proj2 (b_dl _ _ _ _ _ HB) eq_refl) as Hd.
  split_and!; [by apply (base_stable i b true h w)|by apply (r_none _ _ _ HR)|by apply (quiet_rely i w)|].
  intros Hne. specialize (Hid Hne). rewrite (r_id _ _ _ HR); congruence.
Qed.

Lemma own_stable i b h id n p : stable i (own_sock i b h id n p).
Proof.
  intros w w' HI HI' HR (HB & Hc & Hq & Hne & Hid & Hs). pose proof (proj2 (b_dl _ _ _ _ _ HB) eq_refl) as Hd.
  split_and!; [by apply (base_stable i b true h w)|by apply (r_none _ _ _ HR)|by apply (quiet_but_rely i n w)|done| |].
  - rewrite (r_id _ _ _ HR); congruence.
  - by apply (r_private _ _ _ HR Hd n).
Qed.

Lemma pub_stable i h n p : stable i (pub_sock i h n p).
Proof.
  intros w w' HI HI' HR (HB & Ht & s & ms & full & Hs & Hp & Ho & Hst & Hg).
  pose proof (proj2 (b_mu _ _ _ _ _ HB) eq_refl) as Hm.
  split_and!; [by apply (base_stable i true false h w)|by apply (tidy_but_rely i n w)|].
  destruct (r_written _ _ _ HR Hm n s Hs Hp) as (s' & Hs' & Hp' & Ho').
  exists s', ms, full. rewrite (rely_hello i w w' n s) by done. split_and!; congruence.
Qed.

Lemma taken_stable i n : stable i (taken i n).
Proof.
  intros w w' HI HI' HR (Hm & Hd & Hc). split_and!; [by rewrite <-(r_mu _ _ _ HR)|by rewrite <-(r_dialing _ _ _ HR)|].
  intros k. by rewrite <-(r_closing _ _ _ HR).
Qed.

Lemma base_same i b d h w w' :
  base i b d h w → w_writeMu w' = w_writeMu w → w_dialing w' = w_dialing w → w_closing w' = w_closing w →
  hello_of w' = hello_of w → base i b d h w'.
Proof. intros [H1 H2 H3 H4] E1 E2 E3 E4. by split; rewrite ?E1, ?E2, ?E3, ?E4. Qed.

Lemma gives_refl i w : Inv w → gives i w w.
Proof. intros HI. split; [done|]. intros. apply rely_refl. Qed.

(** ** Writing a frame *)

Definition put_out n out w : cworld :=
  with_socks (alter (λ k, mkSock out (so_open k) (so_pub k)) n (w_socks w)) w.

(** One [Write] of the bytes [q] of a frame of which [p] has been written. *)
Lemma write_gives i n s ms full m data p q r fault w :
  Inv w → w_socks w !! n = Some s → (if so_pub s then w_writeMu w = Some i else w_dialing w = Some i) →
  so_out s = full ++s p → stream (hello_of w) ms full →
  marshal_msg m = Some data → frame_sized data → of_node (hello_of w) m → p ++s q ++s r = frame_bytes data →
  greeted (hello_of w) (ms ++ [m]) → (greeted (hello_of w) ms ∨ so_pub s = false ∧ ms = []) →
  let '(ok, w') := act_write n q i fault w in
  gives i w w' ∧ ∃ p', (ok = true → p' = p ++s q) ∧ w' = put_out n (full ++s p') w.
Proof.
  intros HI Hs Hown Ho Hst Hm Hsz Hof He Hg Hg'.
  assert (∀ a z, p ++s a ++s z = frame_bytes data →
    gives i w (put_out n (full ++s p ++s a) w) ∧
    put_out n (full ++s p ++s a) w =
      with_socks (alter (λ k, mkSock (so_out k ++s a) (so_open k) (so_pub k)) n (w_socks w)) w) as Hw.
  { intros a z Ha. split.
    - apply (gives_out i n s); try done.
      + eapply (prefix_sock_ok _ ms full m data (p ++s a) z); [done..| |done].
        by rewrite sapp_assoc.
      + exists a. by rewrite Ho, sapp_assoc.
    - unfold put_out. f_equal. apply list_alter_ext; [|done]. intros s' Hs'. assert (s' = s) as -> by congruence.
      by rewrite Ho, sapp_assoc. }
  unfold act_write. rewrite Hs. destruct s as [out [] pub]; cbn [so_out] in Ho; subst out.
  - destruct fault as [k|].
    + destruct (Hw (take_str k q) (drop_str k q ++s r)) as [Hgv <-];
        [by rewrite <-(sapp_assoc (take_str k q)), take_drop_str|].
      split; [done|]. by exists (p ++s take_str k q).
    + destruct (Hw q r He) as [Hgv <-]. split; [done|]. by exists (p ++s q).
  - split; [by apply gives_refl|]. exists p. split; [done|].
    unfold put_out. rewrite (alter_same _ _ _ _ Hs) by done. by destruct w.
Qed.

(** The two writes of a frame: [C p] says that [p] has been written. *)
Lemma tr_writeFrame i n m (C : string → cworld → Prop) :
  (∀ p, stable i (C p)) →
  (∀ data p q r fault w, marshal_msg m = Some data → frame_sized data → p ++s q ++s r = frame_bytes data →
     Inv w → C p w →
     let '(ok, w') := act_write n q i fault w in gives i w w' ∧ ∃ p', (ok = true → p' = p ++s q) ∧ C p' w') →
  tr i (C ""%string) (writeFrameG n m)
    (λ err w, ∃ p, (err = None → ∃ data, marshal_msg m = Some data ∧ frame_sized data ∧ p = frame_bytes data) ∧ C p w).
Proof.
  intros HC Hw. unfold writeFrameG. destruct (marshal_msg m) as [data|] eqn:Em;
    [|apply tr_done; intros w _ H; by exists ""%string].
  cbv zeta. case_if; [apply tr_done; intros w _ H; by exists ""%string|].
  assert (frame_sized data) as Hsz.
  { unfold frame_sized. change maxFrameSize with frameMaxSize. split; [|done].
    apply (marshal_msg_nonempty m) in Em. destruct data; [done|cbn [String.length]; lia]. }
  set (hd := put_u32 (Z.of_nat (String.length data))).
  eapply (tr_bind _ _ _ _ (λ ok w, ∃ p, (ok = true → p = hd) ∧ C p w)).
  { apply tr_step; [apply HC|]. intros fault w HI H. by apply (Hw data "" hd data). }
  intros [|]; [|apply tr_done; intros w _ (p & _ & H); by exists p].
  eapply (tr_weaken _ _ (C hd)); [|intros w _ (p & Hp & H); by rewrite <-Hp|intros a w _ H; exact H].
  eapply (tr_bind _ _ _ _ (λ ok w, ∃ p, (ok = true → p = frame_bytes data) ∧ C p w)).
  { apply tr_step; [apply HC|]. intros fault w HI H. apply (Hw data hd data ""%string); try done.
    by rewrite sapp_nil_r. }
  intros [|]; apply tr_done; intros w _ (p & Hp & H); exists p; (split; [|done]); [|done].
  intros _. exists data. split_and!; [done..|by apply Hp].
Qed.

(** On the dialling goroutine's own socket, the hello. *)
Lemma tr_hello i b h id role n :
  tr i (own_sock i b h id n "") (writeFrameG n (hello_frame id role))
    (λ err w, ∃ p, (err = None → ∃ data, marshal_msg (hello_frame id role) = Some data ∧ frame_sized data ∧
       p = frame_bytes data) ∧ own_sock i b h id n p w).
Proof.
  apply (tr_writeFrame i n _ (own_sock i b h id n)); [apply own_stable|].
  intros data p q r fault w Hm Hsz He HI (HB & Hc & Hq & Hne & Hid & Hs).
  pose proof (write_gives i n _ [] "" (hello_frame id role) data p q r fault w HI Hs) as Hw.
  destruct (act_write n q i fault w) as [ok w'].
  destruct Hw as [Hg (p' & Hp' & ->)]; cbn [so_pub so_out]; try done; [by apply (b_dl _ _ _ _ _ HB)|constructor
    |by right|rewrite Hid; apply greeted_hello|by right|].
  split; [done|]. exists p'. split; [done|]. unfold put_out. split_and!; world; try done.
  - by apply (base_same _ _ _ _ w).
  - intros k s Hk. world. rewrite list_lookup_alter_ne by done. by apply Hq.
  - by rewrite list_lookup_alter_eq, Hs.
Qed.

(** On the current connection, under [writeMu]. *)
Lemma tr_frame i h n m :
  m_ID m = h →
  tr i (pub_sock i h n "") (writeFrameG n m)
    (λ err w, ∃ p, (err = None → ∃ data, marshal_msg m = Some data ∧ frame_sized data ∧ p = frame_bytes data) ∧
       pub_sock i h n p w).
Proof.
  intros Hh. apply (tr_writeFrame i n _ (pub_sock i h n)); [apply pub_stable|].
  intros data p q r fault w Hm Hsz He HI (HB & Ht & s & ms & full & Hs & Hp & Ho & Hst & Hg).
  pose proof (write_gives i n s ms full m data p q r fault w HI Hs) as Hw.
  destruct (act_write n q i fault w) as [ok w']. rewrite Hp in Hw.
  destruct Hw as [Hgv (p' & Hp' & ->)]; try done; [by apply (b_mu _ _ _ _ _ HB)| |by apply greeted_app|by left|].
  { unfold of_node. destruct (decide (m_ID m = ""%string)) as [|Hne]; [by left|right].
    rewrite (b_h _ _ _ _ _ HB); congruence. }
  split; [done|]. exists p'. split; [done|]. split_and!.
  - by apply (base_same _ _ _ _ w).
  - intros k s' Hk. unfold put_out. world. rewrite list_lookup_alter_ne by done. by apply Ht.
  - unfold put_out. world. rewrite list_lookup_alter_eq, Hs. eexists _, ms, full. split_and!; done.
Qed.

(** ** Dialling *)

Lemma quiet_none w : Inv w → w_dialing w = None → quiet w.
Proof.
  intros HI Hd n s Hs Hp. destruct (so_open s) eqn:Ho; [|done].
  pose proof (v_open _ HI n s Hs Ho) as H. rewrite Hp, Hd in H. by destruct H as [[? ?] _].
Qed.

Lemma tidy_none w : c_conn (w_c w) = None → tidy w.
Proof. intros Hc n s Hn. congruence. Qed.

Lemma tr_dialing i b h :
  tr i (outside i b h) (step act_dialing) (λ won : bool, if won then dialling i b h else outside i b h).
Proof.
  apply tr_step; [apply outside_stable|]. intros fault w HI [HB Ht]. unfold act_dialing.
  destruct (w_dialing w) as [j|] eqn:Ed; [split; [by apply gives_refl|done]|].
  split; [by apply gives_dialing|]. destruct HB as [H1 H2 H3 H4].
  split_and!; [by split|exact Ht|exact (quiet_none w HI Ed)].
Qed.

Lemma tr_forget i b h :
  tr i (dialling i b h) (step act_forget) (λ '(id, _), ready i b h id).
Proof.
  apply tr_step; [apply dialling_stable|]. intros fault w HI (HB & Ht & Hq). unfold act_forget.
  destruct (c_conn (w_c w)) as [n|] eqn:Ec; [|by split; [apply gives_refl|]].
  split; [by apply gives_forget|]. split_and!; [by apply (base_same _ _ _ _ w)|done| |done].
  intros k s. world. intros [(-> & s0 & Hs0 & ->)|[Hk Hs]]%lookup_alter_inv; [done|by apply (Hq k)].
Qed.

Lemma tr_dial i b h id :
  id ≠ ""%string →
  tr i (ready i b h id) (step act_dial)
    (λ conn, match conn with None => dialling i b h | Some n => own_sock i b h id n "" end).
Proof.
  intros Hne. apply tr_step; [apply ready_stable|]. intros fault w HI (HB & Hc & Hq & Hid). specialize (Hid Hne).
  pose proof (proj2 (b_dl _ _ _ _ _ HB) eq_refl) as Hd.
  destruct fault as [k|]; cbn [act_dial].
  - split; [by apply gives_refl|]. split_and!; [done| |done]. intros _. by apply tidy_none.
  - split; [apply (gives_dial i w); try done; congruence|]. split_and!; try done.
    + by apply (base_same _ _ _ _ w).
    + intros k s Hk. world. intros [Hs|[Hle Hs]]%lookup_app_Some; [by apply (Hq k)|].
      apply list_lookup_singleton_Some in Hs as [H0 _]. lia.
    + world. by rewrite lookup_app_r, Nat.sub_diag by done.
Qed.

Lemma tr_close_own i b h id n p : tr i (own_sock i b h id n p) (step (act_close n)) (λ _, dialling i b h).
Proof.
  apply tr_step; [apply own_stable|]. intros fault w HI (HB & Hc & Hq & Hne & Hid & Hs).
  cbn [act_close]. split; [apply gives_close; [done|]; right; by apply (b_dl _ _ _ _ _ HB)|].
  split_and!; [by apply (base_same _ _ _ _ w)|intros _; by apply tidy_none|]. intros k s. world.
  intros [(-> & s0 & Hs0 & ->)|[Hk Hs']]%lookup_alter_inv; [done|by apply (Hq k)].
Qed.

Lemma tr_publish i b h id role n data :
  marshal_msg (hello_frame id role) = Some data → frame_sized data →
  tr i (own_sock i b h id n (frame_bytes data)) (step (act_publish n)) (λ _, dialling i b h).
Proof.
  intros Hm Hsz. apply tr_step; [apply own_stable|]. intros fault w HI (HB & Hc & Hq & Hne & Hid & Hs).
  assert (whole (hello_of w) (mkSock (frame_bytes data) true false)) as Hw.
  { exists [hello_frame id role]. rewrite Hid. split; [|apply greeted_hello].
    apply (stream_snoc id [] "" _ _); [constructor|done|done|by right]. }
  split; [apply (gives_publish i n (mkSock (frame_bytes data) true false) w); try done; by apply (b_dl _ _ _ _ _ HB)|].
  split_and!; [by apply (base_same _ _ _ _ w)| |].
  - intros _ k s. world. intros [= <-]. rewrite list_lookup_alter_eq, Hs. by intros [= <-].
  - intros k s. world. intros [(-> & s0 & Hs0 & ->)|[Hk Hs']]%lookup_alter_inv; [done|by apply (Hq k)].
Qed.

Lemma tr_release i b h : tr i (dialling i b h) (step act_release) (λ _, outside i b h).
Proof.
  apply tr_step; [apply dialling_stable|]. intros fault w HI (HB & Ht & Hq).
  split; [by apply gives_release; [|apply (b_dl _ _ _ _ _ HB)|]|].
  destruct HB as [H1 H2 H3 H4]. by split; [split|].
Qed.

Lemma tr_dialHeld i b h : tr i (dialling i b h) dialHeldG (λ _, dialling i b h).
Proof.
  eapply tr_bind; [apply tr_forget|]. intros [id role]. destruct (String.eqb_spec id "") as [-> |Hne].
  { apply tr_done. intros w _ (HB & Hc & Hq & _). split_and!; [done| |done]. intros _. by apply tidy_none. }
  eapply tr_bind; [by apply tr_dial|]. intros [n|]; [|by apply tr_done].
  eapply tr_bind; [apply tr_hello|]. intros [err|]; apply tr_exists; intros p.
  - eapply (tr_bind _ _ _ _ (λ _, dialling i b h)); [|by intros a; apply tr_done].
    eapply tr_weaken; [apply tr_close_own|by intros w _ [_ H]|done].
  - intros w HI [Hp H]. destruct (Hp eq_refl) as (data & Hm & Hsz & ->). revert w HI H.
    change (tr i (own_sock i b h id n (frame_bytes data))
      (go~ _ := step (act_publish n) in GDone (@None client_err)) (λ _, dialling i b h)).
    eapply tr_bind; [by eapply tr_publish|]. intros a. by apply tr_done.
Qed.

Lemma tr_dialAndHello i b h : tr i (outside i b h) dialAndHelloG (λ _, outside i b h).
Proof.
  unfold dialAndHelloG. eapply tr_bind; [apply tr_dialing|]. intros [|]; cbn [negb]; [|by apply tr_done].
  eapply tr_bind; [apply tr_dialHeld|]. intros err. eapply tr_bind; [apply tr_release|]. intros a. by apply tr_done.
Qed.

(** ** The calls *)

(** [n] may be written under [writeMu]. *)
Lemma tr_ensureConn i h :
  tr i (outside i true h) ensureConnG
    (λ r w, match r with Ok n => pub_sock i h n "" w | Err _ => outside i true h w end).
Proof.
  assert (∀ w, Inv w → outside i true h w → ∀ n, c_conn (w_c w) = Some n → pub_sock i h n "" w) as Hpub.
  { intros w HI [HB Ht] n Hc. specialize (Ht eq_refl). destruct (v_conn _ HI n Hc) as (s & Hs & Hp & _).
    destruct (Ht n s Hc Hs) as (ms & Hst & Hg). split_and!; [done|by apply tidy_buts|].
    exists s, ms, (so_out s). by rewrite sapp_nil_r. }
  unfold ensureConnG.
  eapply (tr_bind _ _ _ _ (λ conn w, match conn with Some n => pub_sock i h n "" w | None => outside i true h w end)).
  { apply tr_step; [apply outside_stable|]. intros fault w HI H. unfold on_client.
    split; [by apply (gives_client i w (w_c w))|]. destruct (c_conn (w_c w)) as [n|] eqn:Ec; [|by destruct w].
    apply (Hpub _ HI H) in Ec. by destruct w. }
  intros [n|]; [by apply tr_done|]. eapply tr_bind; [apply tr_dialAndHello|]. intros [err|]; [by apply tr_done|].
  eapply (tr_bind _ _ _ _ (λ conn w, match conn with Some n => pub_sock i h n "" w | None => outside i true h w end)).
  { apply tr_step; [apply outside_stable|]. intros fault w HI H. unfold on_client.
    split; [by apply (gives_client i w (w_c w))|]. destruct (c_conn (w_c w)) as [n|] eqn:Ec; [|by destruct w].
    apply (Hpub _ HI H) in Ec. by destruct w. }
  intros [n|]; by apply tr_done.
Qed.

Lemma stable_and i (P Q : cworld → Prop) : stable i P → stable i Q → stable i (λ w, P w ∧ Q w).
Proof. intros HP HQ w w' HI HI' HR [H1 H2]. split; [by apply (HP w)|by apply (HQ w)]. Qed.

(** The frame of [m] lies on a socket, after whole frames that start with the hello. *)
Definition sent m w : Prop :=
  ∃ n s ms full data rest, w_socks w !! n = Some s ∧ so_out s = full ++s frame_bytes data ++s rest ∧
    stream (hello_of w) ms full ∧ greeted (hello_of w) ms ∧
    marshal_msg m = Some data ∧ frame_sized data ∧ of_node (hello_of w) m.

Lemma sent_stable i m : stable i (sent m).
Proof.
  intros w w' HI HI' HR (n & s & ms & full & data & rest & Hs & Ho & Hst & Hg & Hm & Hsz & Hof).
  destruct (r_grow _ _ _ HR n s Hs) as (s' & t & Hs' & Ho').
  exists n, s', ms, full, data, (rest ++s t). rewrite (rely_hello i w w' n s) by done.
  split_and!; [done| |done..]. by rewrite Ho', Ho, !sapp_assoc.
Qed.

Lemma tr_unlock_with i h m (err : option client_err) :
  tr i (λ w, outside i true h w ∧ (err = None → sent m w)) (GUnlock (GDone err))
    (λ err w, outside i false "" w ∧ (err = None → sent m w)).
Proof.
  eapply (tr_unlock _ _ (λ w, outside i false "" w ∧ (err = None → sent m w))); [|  |by apply tr_done].
  - apply stable_and; [apply outside_stable|]. intros w w' HI HI' HR Hs He. by apply (sent_stable i m w w'), Hs.
  - intros w HI [[HB Ht] Hs]. split; [apply gives_unlock; [done|by apply (b_mu _ _ _ _ _ HB)|by apply Ht]|].
    destruct HB as [H1 H2 H3 H4]. split; [|exact Hs]. split; [|done]. by split.
Qed.

Lemma tr_unlock_failed i h m (err : client_err) :
  tr i (outside i true h) (GUnlock (GDone (Some err)))
    (λ err w, outside i false "" w ∧ (err = None → sent m w)).
Proof. eapply tr_weaken; [apply (tr_unlock_with i h m (Some err))|by split|done]. Qed.

Lemma tr_lock_outside {A} i (k : gprog A) Q :
  tr i (outside i true "") k Q → tr i (outside i false "") (GLock k) Q.
Proof.
  apply tr_lock; [apply outside_stable|]. intros w HI [HB Ht] Hm. split; [by apply gives_lock|].
  destruct HB as [H1 H2 H3 H4]. split; [by split|]. intros _ n s Hc Hs.
  destruct (v_conn _ HI n Hc) as (s' & Hs' & _ & Hw). world. specialize (Hw Hm). congruence.
Qed.

(** A frame that went out whole leaves the connection tidy; one that failed
    leaves none. *)
Lemma tr_sent i h n m data :
  m_ID m = h → marshal_msg m = Some data → frame_sized data →
  ∀ w, pub_sock i h n (frame_bytes data) w → outside i true h w ∧ sent m w.
Proof.
  intros Hh Hm Hsz w (HB & Ht & s & ms & full & Hs & Hp & Ho & Hst & Hg).
  assert (of_node (hello_of w) m) as Hof.
  { unfold of_node. destruct (decide (m_ID m = ""%string)); [by left|right]. rewrite (b_h _ _ _ _ _ HB); congruence. }
  split; [split; [done|]|].
  - intros _ k s' Hc Hs'.
    destruct (decide (k = n)) as [-> |Hk]; [|by apply (Ht k)]. assert (s' = s) as -> by congruence.
    exists (ms ++ [m]). split; [|by apply greeted_app]. rewrite Ho. by constructor.
  - exists n, s, ms, full, data, ""%string. by rewrite sapp_nil_r.
Qed.

Lemma tr_dead i h n p : tr i (pub_sock i h n p) (step (act_dead n)) (λ _, outside i true h).
Proof.
  apply tr_step; [apply pub_stable|]. intros fault w HI (HB & Ht & _). cbn [act_dead].
  split; [by apply gives_dead|]. unfold mark_dead. destruct (c_conn (w_c w)) as [k|] eqn:Ec.
  - destruct (Nat.eqb_spec k n) as [-> |Hk].
    + split; [by apply (base_same _ _ _ _ w)|]. intros _. by apply tidy_none.
    + split; [done|]. intros _ k' s Hc Hs. apply (Ht k'); congruence.
  - split; [done|]. intros _. by apply tidy_none.
Qed.

Lemma tr_send i m :
  tr i (outside i false "") (sendG m) (λ err w, outside i false "" w ∧ (err = None → sent m w)).
Proof.
  unfold sendG. apply tr_lock_outside.
  eapply (tr_bind _ _ _ _ (λ err w, match err with None => outside i true (m_ID m) w | Some _ => outside i true "" w end)).
  { apply tr_step; [apply outside_stable|]. intros fault w HI [HB Ht]. unfold on_client, sec_frame_identity.
    pose proof HB as [H1 H2 H3 H4]. specialize (Ht eq_refl).
    destruct (String.eqb_spec (c_helloID (w_c w)) "") as [He|He],
      (String.eqb_spec (m_ID m) "") as [Hi|Hi]; cbn [andb negb].
    - split; [by apply gives_client|]. split; [by split; rewrite ?Hi|]. done.
    - split; [by apply gives_client|]. split; [by split|]. intros _ n s. world. intros Hc Hs.
      destruct (v_id _ HI); [by eapply lookup_not_nil|done].
    - split; [by apply gives_client|]. split; [by split; rewrite ?Hi|]. done.
    - destruct (String.eqb_spec (c_helloID (w_c w)) (m_ID m)) as [Hm|Hm]; cbn [negb];
        (split; [by apply gives_client|]); (split; [by split|done]). }
  intros [err|]; [apply tr_unlock_failed|].
  eapply tr_bind; [apply tr_ensureConn|]. intros [n|err]; [|apply tr_unlock_failed].
  eapply tr_bind; [by apply tr_frame|]. intros [err|]; apply tr_exists; intros p.
  - eapply tr_bind; [|intros a; apply (tr_unlock_failed i (m_ID m))].
    eapply tr_weaken; [apply tr_dead|by intros w _ [_ H]|done].
  - eapply tr_weaken; [apply (tr_unlock_with i (m_ID m) m None)| |done]. intros w HI [Hp H].
    destruct (Hp eq_refl) as (data & Hm & Hsz & ->). by edestruct (tr_sent i (m_ID m) n m data).
Qed.

Lemma tr_client {B : Set} i (f : IsanndClient → B * IsanndClient) :
  (∀ c, let c' := (f c).2 in c_conn c' = c_conn c ∧ c_next c' = c_next c ∧
     (c_helloID c ≠ ""%string → c_helloID c' = c_helloID c)) →
  tr i (outside i false "") (step (on_client f)) (λ _, outside i false "").
Proof.
  intros Hf. apply tr_step; [apply outside_stable|]. intros fault w HI [[H1 H2 H3 _] _]. unfold on_client.
  specialize (Hf (w_c w)). destruct (f (w_c w)) as [b c]. destruct Hf as (Hc & Hn & Hh).
  split; [by apply gives_client|]. split; [by split|done].
Qed.

Lemma tr_connect i id role : tr i (outside i false "") (ConnectG id role) (λ _, outside i false "").
Proof.
  unfold ConnectG. eapply tr_bind; [by apply tr_client|]. intros [|]; [by apply tr_done|].
  eapply tr_bind.
  { apply tr_client. intros c. unfold sec_identity. destruct (String.eqb_spec (c_helloID c) "") as [He|He],
      (String.eqb_spec (c_helloID c) id) as [Hi|Hi]; cbn [andb negb]; by split_and!. }
  intros [[|]|err]; [by apply tr_done|apply tr_dialAndHello|by apply tr_done].
Qed.

Lemma tr_close i : tr i (outside i false "") CloseG (λ _, outside i false "").
Proof.
  unfold CloseG. eapply tr_bind; [by apply tr_client|]. intros [|]; cbn [negb]; [|by apply tr_done].
  eapply (tr_bind _ _ _ _ (λ conn w, match conn with Some n => taken i n w | None => outside i false "" w end)).
  { apply tr_step; [apply outside_stable|]. intros fault w HI [HB Ht]. pose proof (gives_take i) as Hg.
    unfold act_take in *. destruct (c_conn (w_c w)) as [n|] eqn:Ec.
    - split; [specialize (Hg n w HI Ec); by rewrite Ec in Hg|]. destruct HB as [H1 H2 H3 _].
      split_and!; world; [by rewrite H1|by rewrite H2|]. intros k. specialize (H3 k). set_solver.
    - split; [by apply gives_refl|by split]. }
  intros [n|]; [|by apply tr_done]. eapply tr_bind; [|by intros a; apply (tr_done _ (outside i false ""))].
  apply tr_step; [apply taken_stable|]. intros fault w HI (Hm & Hd & Hc). cbn [act_close_taken].
  split; [apply (gives_close_taken i n w); [done|by apply Hc]|].
  split; [|done]. split; world; [done..| |done]. intros k. rewrite elem_of_difference, (Hc k). set_solver.
Qed.

(** Nothing is held when a call arrives, and nothing when it returns. *)
Definition idle i w : Prop := outside i false "" w.

(** The frame a call sends. *)
Definition frame_of (call : client_call) : option RendezvousMsg :=
  match call with
  | CallRegister (Some m) => Some (if m_Type m =s? "" then set_msg_Type TypeRegister m else m)
  | CallHeartbeat (Some p) => Some (ping_frame p)
  | CallMetrics (Some v) => Some (metrics_frame (me_NodeID v) (me_Role v) (Some (me_Service v)) [])
  | CallBatch id role batch => Some (metrics_frame id role None batch)
  | CallFrame (Some m) => Some m
  | _ => None
  end.

(** What holds when [call] has returned [r]. *)
Definition done_call i (call : client_call) (r : result client_err bool) w : Prop :=
  idle i w ∧ ∀ b m, r = Ok b → frame_of call = Some m → sent m w.

Lemma done_stable i call r : stable i (done_call i call r).
Proof.
  intros w w' HI HI' HR [Hi Hs]. split; [by apply (outside_stable i false "" w)|].
  intros b m Hr Hf. by apply (sent_stable i m w w'), (Hs b).
Qed.

Lemma done_failed i call err w : idle i w → done_call i call (Err err) w.
Proof. by split. Qed.

(** A call that sends [m]; one that sends nothing. *)
Lemma tr_sends i call m (p : gprog (option client_err)) :
  frame_of call = Some m → tr i (idle i) p (λ err w, idle i w ∧ (err = None → sent m w)) →
  tr i (idle i) (sent_or p) (done_call i call).
Proof.
  intros Hf Hp. unfold sent_or. eapply tr_bind; [exact Hp|]. intros [err|]; apply tr_done; intros w _ [Hi Hs].
  - by apply done_failed.
  - split; [done|]. intros b m' _ Hm. assert (m' = m) as -> by congruence. by apply Hs.
Qed.

Lemma tr_silent i call (p : gprog (option client_err)) :
  frame_of call = None → tr i (idle i) p (λ _, idle i) → tr i (idle i) (sent_or p) (done_call i call).
Proof.
  intros Hf Hp. unfold sent_or. eapply tr_bind; [exact Hp|].
  intros [err|]; apply tr_done; intros w _ Hi; (split; [done|]); intros b m _ Hm; congruence.
Qed.

Lemma tr_call i call : tr i (idle i) (call_prog call) (done_call i call).
Proof.
  destruct call as [id role|[m|]|[p|]|[v|]|id role batch|[m|]|]; cbn [call_prog];
    try (apply tr_done; intros w _ H; by apply done_failed).
  1: apply tr_silent, tr_connect; done.
  1: eapply tr_sends, tr_send; done.
  2, 3: eapply tr_sends, tr_send; done.
  3: apply tr_silent, tr_close; done.
  - unfold HeartbeatG. eapply tr_bind; [apply tr_send|].
    intros [err|]; [apply tr_done; intros w _ [H _]; by apply done_failed|].
    eapply (tr_bind _ _ _ _ (λ _ w, idle i w ∧ sent (ping_frame p) w)).
    { apply tr_step.
      - apply stable_and; [apply outside_stable|]. intros w w' HI HI' HR Hs He. by apply (sent_stable i _ w w'), Hs.
      - intros fault w HI [[[H1 H2 H3 _] _] Hs]. split; [by apply gives_client|]. split; [|by apply Hs].
        split; [by split|done]. }
    intros need. apply tr_done. intros w _ [Hi Hs]. split; [done|]. intros b m _ [= <-]. exact Hs.
  - case_if; [apply tr_done; intros w _ H; by apply done_failed|]. eapply tr_sends, tr_send; done.
Qed.
End calls.
