(* ===== verification/ClientConcTheorems.v ===== *)
(** * One client, many goroutines: every history

    The invariant of the machine of [ClientConc], and what it gives for every
    history of arrivals, interleaved actions, network faults, server pushes and
    broken connections: the bytes on every socket, the sends that report
    success, the sockets left when all calls have returned; and that the calls
    cannot deadlock and return after boundedly many actions. *)

From S2P Require Import Prelude GoStrings GoStringsFacts Strconv Hardware GoAny Tunnel Signal NodeClient.
From S2P Require Import ClientConc ClientConcLogic ClientConcCalls.
From Stdlib Require Import ZArith Lia ZifyBool Bool Ascii String SpecFloat.
From stdpp Require Import base option list gmap strings.

Open Scope go_scope.
Open Scope Z_scope.

(** The calls of a history, in the order of their arrival. *)
Definition arrivals (h : list cl_event) : list client_call :=
  omap (λ e, match e with ECall call => Some call | _ => None end) h.

Section machine.
Context {J : FrameJSON} {L : FrameJSONLaws J}.

(** ** The invariant *)

Record cm_ok (calls : list client_call) (s : cmachine) : Prop := {
  o_inv : Inv (cm_w s);
  o_len : length (cm_calls s) = length calls;
  o_safe : ∀ i call p, calls !! i = Some call → cm_calls s !! i = Some p →
    safe i (done_call i call) p (cm_w s);
  o_bound : ∀ i, (length calls ≤ i)%nat → idle i (cm_w s)
}.

(** Nothing to do with goroutine [i]. *)
Lemma idle_rely i w w' : Inv w → Inv w' → rely i w w' → idle i w → idle i w'.
Proof. intros HI HI' HR. by apply (outside_stable i false ""). Qed.

(** What nobody's action does, everybody may rely on. *)
Lemma gives_all (w w' : cworld) : (∀ i, gives i w w') → Inv w' ∧ ∀ j, rely j w w'.
Proof. intros H. split; [apply (H 0%nat)|]. intros j. apply (H (S j)). lia. Qed.

Lemma cm_ok_world calls s w :
  cm_ok calls s → (∀ i, gives i (cm_w s) w) → cm_ok calls (mkCM w (cm_calls s)).
Proof.
  intros [HI Hl Hs Hb] [HI' HR]%gives_all. split; [done|done| |]; cbn [cm_w cm_calls].
  - intros i call p Hc Hp. apply (safe_stable i _ p (cm_w s)); auto. intros a. apply done_stable.
  - intros i Hi. apply (idle_rely i (cm_w s)); auto.
Qed.

(** The [i]-th goroutine has taken an action. *)
Lemma cm_ok_go calls s i call q w :
  cm_ok calls s → calls !! i = Some call → gives i (cm_w s) w → safe i (done_call i call) q w →
  cm_ok calls (mkCM w (<[i := q]> (cm_calls s))).
Proof.
  intros [HI Hl Hs Hb] Hi [HI' HR] Hq. apply lookup_lt_Some in Hi as Hlt.
  split; cbn [cm_w cm_calls]; [done|by rewrite length_insert| |].
  - intros j callj p Hc Hp. destruct (decide (j = i)) as [-> |Hne].
    + rewrite list_lookup_insert_eq in Hp by lia. by replace callj with call by congruence; injection Hp as <-.
    + rewrite list_lookup_insert_ne in Hp by done. apply (safe_stable j _ p (cm_w s)); auto.
      intros a. apply done_stable.
  - intros j Hj. apply (idle_rely j (cm_w s)); auto. apply HR. lia.
Qed.

Lemma cm_step_ok calls s e :
  cm_ok calls s → cm_ok (calls ++ arrivals [e]) (cm_step s e).
Proof.
  intros H. destruct e as [call|i fault|m|n]; cbn [cm_step arrivals omap list_omap]; rewrite ?app_nil_r.
  - destruct H as [HI Hl Hs Hb]. split; cbn [cm_w cm_calls]; [done|by rewrite !length_app, Hl| |].
    + intros i call' p [Hc|[Hle Hc]]%lookup_app_Some [Hp|[Hle' Hp]]%lookup_app_Some.
      * by apply Hs.
      * apply lookup_lt_Some in Hc. lia.
      * apply lookup_lt_Some in Hp. lia.
      * apply list_lookup_singleton_Some in Hc as [_ <-], Hp as [_ <-]. apply tr_call; [done|]. by apply Hb.
    + intros i. rewrite length_app. intros Hi. apply Hb. lia.
  - destruct (cm_calls s !! i) as [p|] eqn:Ep; [|done].
    destruct (lookup_lt_is_Some_2 calls i) as [call Hc];
      [rewrite <-(o_len _ _ H); by eapply lookup_lt_Some|].
    pose proof (o_safe _ _ H i call p Hc Ep) as Hp. pose proof (o_inv _ _ H) as HI.
    destruct p as [a|B f k|k|k]; [done| | |]; cbn [safe] in Hp.
    + specialize (Hp fault (cm_w s) HI (rely_refl _ _)). destruct (f i fault (cm_w s)) as [b w].
      destruct Hp as [Hg Hk]. by eapply cm_ok_go.
    + destruct (w_writeMu (cm_w s)) eqn:Em; [done|].
      destruct (Hp (cm_w s) HI (rely_refl _ _) Em) as [Hg Hk]. by eapply cm_ok_go.
    + destruct (Hp (cm_w s) HI (rely_refl _ _)) as [Hg Hk]. by eapply cm_ok_go.
  - apply cm_ok_world; [done|]. intros i. unfold on_push. pose proof (o_inv _ _ H).
    case_if; by apply gives_client.
  - apply cm_ok_world; [done|]. intros i. apply gives_dead, H.
Qed.

Lemma cm_start_ok httpBase controlAddr : cm_ok [] (cm_start httpBase controlAddr).
Proof.
  split; [apply inv_start|done|done|]. intros i _. split; [|done]. split; cbn; [done..| |done].
  intros n. set_solver.
Qed.

Lemma cm_run_ok httpBase controlAddr h :
  cm_ok (arrivals h) (cm_run h (cm_start httpBase controlAddr)).
Proof.
  unfold cm_run. induction h as [|e h IH] using rev_ind; [apply cm_start_ok|].
  rewrite fold_left_app. unfold arrivals. rewrite omap_app. by apply cm_step_ok.
Qed.

(** ** What a reader gets *)

Lemma stream_ids id ms out : stream id ms out → Forall (of_node id) ms.
Proof.
  induction 1 as [|ms out m data H IH Hm Hsz Hof]; [constructor|].
  apply Forall_app. split; [done|]. by apply Forall_singleton.
Qed.

Lemma stream_recv id ms out rest :
  stream id ms out → Forall wire_faithful ms →
  recv_all (out ++s rest) = (ms ++ (recv_all rest).1, (recv_all rest).2).
Proof.
  intros H. revert rest. induction H as [|ms out m data H IH Hm Hsz Hof]; intros rest Hf.
  - apply surjective_pairing.
  - apply Forall_app in Hf as [Hf [Hw _]%Forall_cons].
    rewrite sapp_assoc, IH by done.
    rewrite (recv_all_frame data m rest Hsz (Hw data Hm)). cbn [fst snd].
    by rewrite <-(assoc_L (++)).
Qed.

Lemma tail_recv tail : tail = ""%string ∨ torn tail → (recv_all tail).1 = [].
Proof. intros [-> |(data & rest & Hsz & He & Hr)]; [done|]. by apply (torn_frame data tail rest). Qed.

(** The bytes of a socket: whole frames of [ms], all of the node [id], and at
    most one frame cut short at the end; the hello first, unless the socket was
    never made the client's; and what a reader gets of them. *)
Definition carries (id : string) (k : sock) : Prop :=
  ∃ ms full tail,
    stream id ms full ∧ so_out k = full ++s tail ∧ (tail = ""%string ∨ torn tail) ∧
    Forall (of_node id) ms ∧ (greeted id ms ∨ so_pub k = false ∧ ms = []) ∧
    (Forall wire_faithful ms → (recv_all (so_out k)).1 = ms).

(** The frame of [m] is whole on a socket, behind the hello and other whole
    frames; and a reader gets it in its place. *)
Definition delivered (id : string) (m : RendezvousMsg) (w : cworld) : Prop :=
  ∃ n k ms full data rest,
    w_socks w !! n = Some k ∧ so_out k = full ++s frame_bytes data ++s rest ∧
    stream id ms full ∧ greeted id ms ∧ marshal_msg m = Some data ∧
    (Forall wire_faithful (ms ++ [m]) → (ms ++ [m]) `prefix_of` (recv_all (so_out k)).1).

Lemma sock_carries id k : sock_ok id k → carries id k.
Proof.
  intros (ms & full & tail & Hst & Ho & Ht & Hg).
  exists ms, full, tail. split_and!; [done..|by eapply stream_ids|done|]. intros Hf.
  by rewrite Ho, (stream_recv _ _ _ _ Hst Hf), (tail_recv _ Ht), app_nil_r.
Qed.

Lemma sent_delivered m w :
  sent m w → of_node (c_helloID (w_c w)) m ∧ delivered (c_helloID (w_c w)) m w.
Proof.
  intros (n & k & ms & full & data & rest & Hk & Ho & Hst & Hg & Hm & Hsz & Hof). split; [done|].
  exists n, k, ms, full, data, rest. split_and!; [done..|]. intros Hw.
  assert (stream (c_helloID (w_c w)) (ms ++ [m]) (full ++s frame_bytes data)) as Hst' by by constructor.
  rewrite Ho, <-sapp_assoc, (stream_recv _ _ _ _ Hst' Hw). by apply prefix_app_r.
Qed.

Lemma returned_done calls s i call r :
  cm_ok calls s → calls !! i = Some call → returned s i = Some r → done_call i call r (cm_w s).
Proof.
  intros H Hc. unfold returned. destruct (cm_calls s !! i) as [p|] eqn:Ep; [|done].
  pose proof (o_safe _ _ H i call p Hc Ep) as Hp. by destruct p; intros [= <-].
Qed.

(** C14: Many goroutines, one client, whatever the schedule, the faults, the pushes
    and the connections that break: on every socket the client ever opened the
    bytes are whole frames of one identity, the hello first, and at most one
    frame cut short at the very end.  So, when the messages are faithful to
    their encoding, the server reads exactly these messages: frames of
    concurrent senders are never interleaved, and nothing precedes the hello.
    And a send that has returned no error has its frame, whole, on one of them,
    where the server reads it. *)
Theorem client_streams_whole httpBase controlAddr (h : list cl_event) :
  let s := cm_run h (cm_start httpBase controlAddr) in
  let id := c_helloID (w_c (cm_w s)) in
  (∀ n k, w_socks (cm_w s) !! n = Some k → id ≠ ""%string ∧ carries id k) ∧
  (∀ i call m b, arrivals h !! i = Some call → frame_of call = Some m → returned s i = Some (Ok b) →
     of_node id m ∧ delivered id m (cm_w s)).
Proof.
  intros s id. pose proof (cm_run_ok httpBase controlAddr h) as H. fold s in H. split.
  - intros n k Hk. split; [apply (v_id _ (o_inv _ _ H)); by eapply lookup_not_nil|].
    by eapply sock_carries, (v_sock _ (o_inv _ _ H)).
  - intros i call m b Hc Hf Hr. apply sent_delivered.
    destruct (returned_done _ _ _ _ _ H Hc Hr) as [_ Hs]. by apply (Hs b).
Qed.

Lemma all_returned httpBase controlAddr (h : list cl_event) :
  let s := cm_run h (cm_start httpBase controlAddr) in
  let w := cm_w s in
  (∀ i, (i < length (arrivals h))%nat → is_Some (returned s i)) →
  w_writeMu w = None ∧ w_dialing w = None ∧
  ∀ n k, w_socks w !! n = Some k → so_open k = true →
    c_conn (w_c w) = Some n ∧ whole (c_helloID (w_c w)) k.
Proof.
  intros s w Hall. pose proof (cm_run_ok httpBase controlAddr h) as H. fold s in H.
  assert (∀ i, idle i w) as Hidle.
  { intros i. destruct (decide (length (arrivals h) ≤ i)%nat) as [Hi|Hi]; [by apply (o_bound _ _ H)|].
    destruct (Hall i) as [r Hr]; [lia|]. destruct (lookup_lt_is_Some_2 (arrivals h) i) as [call Hc]; [lia|].
    apply (returned_done _ _ _ _ _ H Hc Hr). }
  assert (w_writeMu w = None) as Hm.
  { destruct (w_writeMu w) as [i|] eqn:E; [|done]. destruct (Hidle i) as [HB _].
    by apply (b_mu _ _ _ _ _ HB) in E. }
  assert (w_dialing w = None) as Hd.
  { destruct (w_dialing w) as [i|] eqn:E; [|done]. destruct (Hidle i) as [HB _].
    by apply (b_dl _ _ _ _ _ HB) in E. }
  split_and!; [done..|]. intros n k Hk Ho. pose proof (o_inv _ _ H) as HI. fold w in HI.
  assert (c_conn (w_c w) = Some n) as Hc.
  { pose proof (v_open _ HI n k Hk Ho) as Hv. rewrite Hd in Hv. destruct (so_pub k).
    - destruct Hv as [?|[i Hi]]; [done|]. destruct (Hidle i) as [HB _]. by destruct (b_cl _ _ _ _ _ HB n).
    - by destruct Hv as [[? ?] _]. }
  split; [done|]. destruct (v_conn _ HI n Hc) as (k' & Hk' & _ & Hw). specialize (Hw Hm). congruence.
Qed.

End machine.

(** * One client, many goroutines: every call returns

    The lock discipline of the programs of [ClientConc], read off their text:
    [writeMu] is taken once and released on every path, and a call takes at most
    [call_bound] actions.  Hence no deadlock, and every call returns. *)

Open Scope go_scope.
Open Scope nat_scope.

(** The action neither takes nor releases [writeMu]. *)
Definition keeps_mu {B : Set} (f : nat → net_fault → cworld → B * cworld) : Prop :=
  ∀ i fault w, w_writeMu (f i fault w).2 = w_writeMu w.

Lemma keeps_client {B : Set} (f : IsanndClient → B * IsanndClient) : keeps_mu (on_client f).
Proof. intros i fault w. unfold on_client. by destruct (f (w_c w)). Qed.
Lemma keeps_dialing : keeps_mu act_dialing.
Proof. intros i fault w. unfold act_dialing. by destruct (w_dialing w). Qed.
Lemma keeps_forget : keeps_mu act_forget.
Proof. intros i fault w. unfold act_forget. by destruct (c_conn (w_c w)). Qed.
Lemma keeps_dial : keeps_mu act_dial.
Proof. by intros i [k|] w. Qed.
Lemma keeps_write n p : keeps_mu (act_write n p).
Proof. intros i fault w. unfold act_write. destruct (w_socks w !! n) as [[out [] pub]|]; [|done..]. by destruct fault. Qed.
Lemma mark_dead_mu n w : w_writeMu (mark_dead n w) = w_writeMu w.
Proof. unfold mark_dead. destruct (c_conn (w_c w)); [|done]. by case_if. Qed.
Lemma keeps_dead n : keeps_mu (act_dead n).
Proof. intros i fault w. apply mark_dead_mu. Qed.
Lemma keeps_take : keeps_mu act_take.
Proof. intros i fault w. unfold act_take. by destruct (c_conn (w_c w)). Qed.
Lemma keeps_const (g : nat → cworld → cworld) :
  (∀ i w, w_writeMu (g i w) = w_writeMu w) → keeps_mu (λ i _ w, (tt, g i w)).
Proof. intros Hg i fault w. apply Hg. Qed.
Create HintDb mu.
#[export] Hint Resolve keeps_client keeps_dialing keeps_forget keeps_dial keeps_write keeps_dead keeps_take : mu.
#[export] Hint Extern 5 (keeps_mu _) => (apply keeps_const; done) : mu.

(** [p] takes at most [n] actions, starts with [writeMu] held or not ([b]) and
    ends so ([c]); it locks it only when it does not hold it, and unlocks only
    what it holds. *)
Fixpoint fits {A} (n : nat) (b c : bool) (p : gprog A) {struct p} : Prop :=
  match p with
  | GDone _ => b = c
  | GStep f k => match n with O => False | S n => keeps_mu f ∧ ∀ x, fits n b c (k x) end
  | GLock k => match n with O => False | S n => b = false ∧ fits n true c k end
  | GUnlock k => match n with O => False | S n => b = true ∧ fits n false c k end
  end.

Lemma fits_mono {A} n m b c (p : gprog A) : fits n b c p → n ≤ m → fits m b c p.
Proof.
  revert n m b. induction p as [a|B f k IH|k IH|k IH]; intros n m b Hp Hle; cbn in *; [done|..];
    (destruct n as [|n]; [done|]); (destruct m as [|m]; [lia|]).
  - destruct Hp as [? Hp]. split; [done|]. intros x. apply (IH x n); [apply Hp|lia].
  - destruct Hp as [? Hp]. split; [done|]. apply (IH n); [done|lia].
  - destruct Hp as [? Hp]. split; [done|]. apply (IH n); [done|lia].
Qed.

Lemma fits_bind {A B} n m b c d (p : gprog A) (k : A → gprog B) :
  fits n b c p → (∀ a, fits m c d (k a)) → fits (n + m) b d (gbind p k).
Proof.
  revert n b. induction p as [a|C f h IH|h IH|h IH]; intros n b Hp Hk; cbn in *.
  - subst. apply (fits_mono m); [done|lia].
  - destruct n as [|n]; [done|]. destruct Hp as [? Hp]. split; [done|]. intros x. by apply IH.
  - destruct n as [|n]; [done|]. destruct Hp as [? Hp]. split; [done|]. by apply IH.
  - destruct n as [|n]; [done|]. destruct Hp as [? Hp]. split; [done|]. by apply IH.
Qed.

Lemma fits_done {A} n b (a : A) : fits n b b (GDone a).
Proof. done. Qed.

(** An action, and what follows. *)
Lemma fits_go {B : Set} {A} n b c (f : nat → net_fault → cworld → B * cworld) (k : B → gprog A) :
  keeps_mu f → (∀ x, fits n b c (k x)) → fits (S n) b c (gbind (step f) k).
Proof. by split. Qed.
Ltac go := apply fits_go; [by auto with mu|].

Section live.
Context {J : FrameJSON} {L : FrameJSONLaws J}.

(** ** The programs *)

Lemma fits_writeFrame b n m : fits 2 b b (writeFrameG n m).
Proof.
  unfold writeFrameG. destruct (marshal_msg m); [|done]. cbv zeta. case_if; [done|].
  go. intros [|]; [|done]. go. by intros [|].
Qed.

Lemma fits_dial b : fits 7 b b dialAndHelloG.
Proof.
  unfold dialAndHelloG. go. intros [|]; [|done]. cbn [negb].
  apply (fits_bind 5 1 b b b); [|intros err; by go].
  unfold dialHeldG. go. intros [id role]. case_if; [done|]. go. intros [n|]; [|done].
  apply (fits_bind 2 1 b b b); [apply fits_writeFrame|]. intros [err|]; by go.
Qed.

Lemma fits_ensure b : fits 9 b b ensureConnG.
Proof.
  unfold ensureConnG. go. intros [n|]; [done|].
  apply (fits_bind 7 1 b b b); [apply fits_dial|]. intros [err|]; [done|]. go. by intros [n|].
Qed.

Lemma fits_send m : fits 15 false false (sendG m).
Proof.
  split; [done|]. go. intros [err|]; [done|].
  apply (fits_bind 9 4 true true false); [apply fits_ensure|]. intros [n|err]; [|done].
  apply (fits_bind 2 2 true true false); [apply fits_writeFrame|]. intros [err|]; [|done]. by go.
Qed.

Definition call_bound : nat := 16.

Lemma fits_sent_or n (p : gprog (option client_err)) : fits n false false p → fits n false false (sent_or p).
Proof.
  intros Hp. unfold sent_or. apply (fits_mono (n + 0)); [|lia].
  apply (fits_bind n 0 false false false); [done|]. by intros [err|].
Qed.

Lemma fits_call call : fits call_bound false false (call_prog call).
Proof.
  assert (∀ m, fits call_bound false false (sent_or (sendG m))) as Hsend
    by (intros m; apply fits_sent_or, (fits_mono 15); [apply fits_send|unfold call_bound; lia]).
  destruct call as [id role|[m|]|[p|]|[v|]|id role batch|[m|]|]; cbn [call_prog]; try done; try apply Hsend.
  - apply fits_sent_or, (fits_mono 9); [|unfold call_bound; lia]. unfold ConnectG.
    go. intros [|]; [done|]. go.
    intros [[|]|err]; [done| |done]. apply (fits_mono 7); [apply fits_dial|lia].
  - apply (fits_bind 15 1 false false false); [apply fits_send|]. intros [err|]; [done|]. by go.
  - case_if; [done|]. apply Hsend.
  - apply fits_sent_or, (fits_mono 3); [|unfold call_bound; lia]. unfold CloseG.
    go. intros [|]; [|done]. go. intros [n|]; [by go|done].
Qed.

(** ** The machine *)

(** The action the [i]-th goroutine is at can be taken. *)
Definition can_go (s : cmachine) (i : nat) : bool :=
  match cm_calls s !! i with
  | Some (GStep _ _) | Some (GUnlock _) => true
  | Some (GLock _) => match w_writeMu (cm_w s) with None => true | Some _ => false end
  | _ => false
  end.

Definition unfinished (s : cmachine) (i : nat) : Prop :=
  i < length (cm_calls s) ∧ returned s i = None.

(** How many actions of the [i]-th goroutine a history contains. *)
Fixpoint actions (i : nat) (h : list cl_event) (s : cmachine) : nat :=
  match h with
  | [] => 0
  | e :: h =>
      (match e with EGo j _ => if (j =? i) && can_go s i then 1 else 0 | _ => 0 end)
      + actions i h (cm_step s e)
  end.

(** Each call holds [writeMu] or not as its program says, and has [f i]
    actions left at most. *)
Record live (f : nat → nat) (s : cmachine) : Prop := {
  l_fits : ∀ i p, cm_calls s !! i = Some p →
    fits (f i) (bool_decide (w_writeMu (cm_w s) = Some i)) false p;
  l_fresh : ∀ i, length (cm_calls s) ≤ i → f i = call_bound;
  l_holder : ∀ i, w_writeMu (cm_w s) = Some i → i < length (cm_calls s)
}.

(** No deadlock: while a call has not returned, some call can go. *)
Lemma live_progress f s i : live f s → unfinished s i → ∃ j, can_go s j = true.
Proof.
  intros [Hf _ Hh] [Hi Hr]. destruct (lookup_lt_is_Some_2 (cm_calls s) i Hi) as [p Hp].
  unfold returned, can_go in *. rewrite Hp in Hr.
  destruct (w_writeMu (cm_w s)) as [j|] eqn:Em; [|exists i; rewrite Hp; by destruct p].
  destruct (lookup_lt_is_Some_2 (cm_calls s) j (Hh j eq_refl)) as [q Hq].
  exists j. rewrite Hq. specialize (Hf j q Hq). rewrite bool_decide_eq_true_2 in Hf by done.
  destruct q; cbn in Hf; [done|done| |done]. destruct (f j); [done|]. by destruct Hf.
Qed.

Definition spend (i : nat) (f : nat → nat) : nat → nat := λ j, if j =? i then f j - 1 else f j.

(** The [i]-th goroutine goes on with [q], in a world where it holds [writeMu] or not ([b]). *)
Lemma live_put f s i p q w b n :
  live f s → cm_calls s !! i = Some p → f i = S n → fits n b false q →
  (w_writeMu w = Some i ↔ b = true) → (∀ j, j ≠ i → w_writeMu w = Some j ↔ w_writeMu (cm_w s) = Some j) →
  live (spend i f) (mkCM w (<[i := q]> (cm_calls s))).
Proof.
  intros [Hf Hn Hh] Hp Hfi Hq Hb Hj. apply lookup_lt_Some in Hp as Hlt. unfold spend. split; cbn [cm_w cm_calls].
  - intros j p' Hp'. destruct (Nat.eqb_spec j i) as [-> |Hne].
    + rewrite list_lookup_insert_eq in Hp' by done. injection Hp' as <-. rewrite Hfi, Nat.sub_1_r.
      destruct b; [rewrite bool_decide_eq_true_2; tauto|rewrite bool_decide_eq_false_2; [done|]].
      intros Hm. by apply Hb in Hm.
    + rewrite list_lookup_insert_ne in Hp' by done. rewrite (bool_decide_ext _ _ (Hj j Hne)). by apply Hf.
  - intros j. rewrite length_insert. intros Hle. destruct (Nat.eqb_spec j i); [lia|by apply Hn].
  - intros j Hm. rewrite length_insert. destruct (decide (j = i)) as [-> |Hne]; [done|]. by apply Hh, Hj.
Qed.

Lemma live_go f s i fault :
  live f s → can_go s i = true → 0 < f i ∧ live (spend i f) (cm_step s (EGo i fault)).
Proof.
  intros HL Hgo. unfold can_go in Hgo. cbn [cm_step]. destruct (cm_calls s !! i) as [p|] eqn:Ep; [|done].
  pose proof (l_fits _ _ HL i p Ep) as Hp.
  destruct p as [a|B g k|k|k]; [done| | |]; cbn [fits] in Hp; destruct (f i) as [|n] eqn:Ef; try done;
    (split; [lia|]); destruct Hp as [H1 H2].
  - specialize (H1 i fault (cm_w s)). destruct (g i fault (cm_w s)) as [x w]. cbn [snd] in H1.
    eapply (live_put f s i); [done..|apply H2| |intros; by rewrite H1]. rewrite H1. by rewrite bool_decide_eq_true.
  - destruct (w_writeMu (cm_w s)) eqn:Em; [done|]. eapply (live_put f s i); [done..|exact H2|done|].
    intros j Hj. cbn. rewrite Em. split; congruence.
  - apply bool_decide_eq_true in H1. eapply (live_put f s i); [done..|exact H2|done|].
    intros j Hj. cbn. rewrite H1. split; congruence.
Qed.

Lemma cm_step_stuck s i fault : can_go s i = false → cm_step s (EGo i fault) = s.
Proof.
  unfold can_go. cbn [cm_step]. destruct (cm_calls s !! i) as [[a|B f k|k|k]|]; try done.
  by destruct (w_writeMu (cm_w s)).
Qed.

Lemma live_world f s w :
  live f s → w_writeMu w = w_writeMu (cm_w s) → live f (mkCM w (cm_calls s)).
Proof. intros [H1 H2 H3] Hw. split; cbn; rewrite ?Hw; done. Qed.

Lemma live_step f s e :
  live f s → ∃ f', live f' (cm_step s e) ∧ ∀ i, actions i [e] s + f' i = f i.
Proof.
  intros HL. destruct e as [call|i fault|m|n]; cbn [actions].
  - exists f. split; [|done]. destruct HL as [Hf Hn Hh]. split; cbn [cm_step cm_w cm_calls]; rewrite ?length_app.
    + intros i p [Hp|[Hle Hp]]%lookup_app_Some; [by apply Hf|].
      apply list_lookup_singleton_Some in Hp as [H0 <-]. rewrite Hn by done.
      rewrite bool_decide_eq_false_2; [apply fits_call|]. intros ?%Hh. lia.
    + intros i Hi. apply Hn. lia.
    + intros i ?%Hh. lia.
  - destruct (can_go s i) eqn:Hgo.
    + destruct (live_go f s i fault HL Hgo) as [Hpos HL']. exists (spend i f). split; [done|].
      intros j. unfold spend. rewrite (Nat.eqb_sym j i). destruct (Nat.eqb_spec i j) as [<-|]; cbn [andb]; [|lia].
      rewrite Hgo. lia.
    + rewrite cm_step_stuck by done. exists f. split; [done|]. intros j.
      destruct (Nat.eqb_spec i j) as [<-|]; [rewrite Hgo|]; cbn; lia.
  - exists f. split; [by apply live_world|done].
  - exists f. split; [apply live_world; [done|apply mark_dead_mu]|done].
Qed.

Lemma live_run f h s :
  live f s → ∃ f', live f' (cm_run h s) ∧ ∀ i, actions i h s + f' i = f i.
Proof.
  revert f s. induction h as [|e h IH]; intros f s HL; [by exists f|].
  destruct (live_step f s e HL) as (f1 & HL1 & H1). destruct (IH f1 _ HL1) as (f2 & HL2 & H2).
  exists f2. split; [done|]. intros i. cbn [actions] in *. specialize (H1 i). specialize (H2 i). lia.
Qed.

Lemma live_start httpBase controlAddr : live (λ _, call_bound) (cm_start httpBase controlAddr).
Proof. by split. Qed.

(** ** Enough turns *)

Definition turns (h : list cl_event) : Prop := Forall (λ e, ∃ i, e = EGo i None) h.

Fixpoint budget (f : nat → nat) (n : nat) : nat :=
  match n with O => 0 | S n => f n + budget f n end.

Lemma budget_spend_out f i n : n ≤ i → budget (spend i f) n = budget f n.
Proof.
  induction n as [|n IH]; intros Hn; cbn [budget]; [done|]. rewrite IH by lia. unfold spend.
  destruct (Nat.eqb_spec n i); [lia|done].
Qed.

Lemma budget_spend f i n : i < n → 0 < f i → budget f n = S (budget (spend i f) n).
Proof.
  intros Hi Hf. induction n as [|n IH]; [lia|]. cbn [budget]. destruct (decide (i = n)) as [-> |Hne].
  - rewrite budget_spend_out by done. unfold spend. rewrite Nat.eqb_refl. lia.
  - rewrite IH by lia. unfold spend at 2. destruct (Nat.eqb_spec n i); [congruence|lia].
Qed.

Lemma go_calls s i fault : length (cm_calls (cm_step s (EGo i fault))) = length (cm_calls s).
Proof.
  cbn [cm_step]. destruct (cm_calls s !! i) as [[a|B f k|k|k]|]; try done.
  - destruct (f i fault (cm_w s)). apply length_insert.
  - destruct (w_writeMu (cm_w s)); [done|apply length_insert].
  - apply length_insert.
Qed.

Lemma live_finish f s :
  live f s → ∃ h, turns h ∧ length h ≤ budget f (length (cm_calls s)) ∧
    ∀ i, ¬ unfinished (cm_run h s) i.
Proof.
  remember (budget f (length (cm_calls s))) as n eqn:Hn. revert f s Hn.
  induction n as [n IH] using lt_wf_ind. intros f s Hn HL.
  destruct (existsb (can_go s) (seq 0 (length (cm_calls s)))) eqn:E.
  - apply existsb_exists in E as (i & Hi & Hgo). apply in_seq in Hi as [_ Hi]. cbn in Hi.
    destruct (live_go f s i None HL Hgo) as [Hpos HL'].
    pose proof (budget_spend f i _ Hi Hpos) as Hb.
    destruct (IH (budget (spend i f) (length (cm_calls s))) ltac:(lia) (spend i f) (cm_step s (EGo i None)))
      as (h & Ht & Hl & Hu); [by rewrite go_calls|done|].
    exists (EGo i None :: h). split_and!; [constructor; [by exists i|done]|cbn [length]; lia|exact Hu].
  - exists []. split_and!; [constructor|cbn; lia|]. intros i Hu.
    destruct (live_progress f s i HL Hu) as [j Hj].
    assert (existsb (can_go s) (seq 0 (length (cm_calls s))) = true); [|congruence].
    apply existsb_exists. exists j. split; [|done]. apply in_seq. split; [lia|].
    unfold can_go in Hj. destruct (cm_calls s !! j) eqn:Ej; [|done]. by apply lookup_lt_Some in Ej.
Qed.

Lemma budget_le f n : (∀ i, f i ≤ call_bound) → budget f n ≤ call_bound * n.
Proof. intros Hf. induction n as [|n IH]; cbn [budget]; [lia|]. specialize (Hf n). lia. Qed.

End live.
