(* ===== verification/ClientConcAlone.v ===== *)
(** * One client: a call that nobody interrupts, and calls that race

    Run without interruption the programs of [ClientConc] are the functions of
    [NodeClient]; then the histories in which calls of the documented interface
    race for a dial. *)

From S2P Require Import Prelude GoStrings GoStringsFacts Strconv Hardware GoAny Tunnel Signal NodeClient ClientConc.
From S2P Require Import ClientConcLogic ClientConcCalls ClientConcTheorems.
From Stdlib Require Import ZArith Lia ZifyBool Bool Ascii String SpecFloat.
From stdpp Require Import base option list gmap strings.

Open Scope go_scope.
Open Scope Z_scope.

(** ** Without interruption *)

(** A goroutine runs [p] to its end, alone; the network does [fs] to its actions. *)
Fixpoint alone {A} (i : nat) (fs : list net_fault) (p : gprog A) (w : cworld) : option (A * cworld * list net_fault) :=
  match p with
  | GDone a => Some (a, w, fs)
  | GStep f k => let '(b, w) := f i (default None (head fs)) w in alone i (tail fs) (k b) w
  | GLock k =>
      match w_writeMu w with
      | None => alone i (tail fs) k (with_writeMu (Some i) w)
      | Some _ => None
      end
  | GUnlock k => alone i (tail fs) k (with_writeMu None w)
  end.

Lemma alone_bind {A B} i fs (p : gprog A) (k : A → gprog B) w :
  alone i fs (gbind p k) w = '(a, w, fs) ← alone i fs p w; alone i fs (k a) w.
Proof.
  revert fs w. induction p as [a|C f h IH|h IH|h IH]; intros fs w; cbn; [done| | |apply IH].
  - destruct (f i _ w) as [b w']. apply IH.
  - destruct (w_writeMu w); [done|apply IH].
Qed.

Section alone.
Context {J : FrameJSON}.

(** The first [n] of [fs], the network doing nothing after its end. *)
Fixpoint first_faults (n : nat) (fs : list net_fault) : list net_fault :=
  match n with O => [] | S n => default None (head fs) :: first_faults n (tail fs) end.

(** The same, as a history of the machine. *)
Lemma alone_run i fs (p : gprog (result client_err bool)) w r w' fs' :
  alone i fs p w = Some (r, w', fs') → ∀ calls, calls !! i = Some p →
  ∃ n, cm_run (EGo i <$> first_faults n fs) (mkCM w calls) = mkCM w' (<[i := GDone r]> calls).
Proof.
  revert fs w. induction p as [a|C f h IH|h IH|h IH]; intros fs w Ha calls Hc; cbn in *;
    [injection Ha as -> -> _; exists O; cbn; by rewrite list_insert_id|..];
    pose proof (lookup_lt_Some _ _ _ Hc) as Hlt.
  - destruct (f i _ w) as [b w1] eqn:Ef.
    destruct (IH b _ _ Ha (<[i := h b]> calls)) as [n Hn]; [by apply list_lookup_insert_eq|].
    exists (S n). cbn. rewrite Hc, Ef. unfold cm_run in Hn. by rewrite Hn, list_insert_insert_eq.
  - destruct (w_writeMu w) eqn:Em; [done|].
    destruct (IH _ _ Ha (<[i := h]> calls)) as [n Hn]; [by apply list_lookup_insert_eq|].
    exists (S n). cbn. rewrite Hc, Em. unfold cm_run in Hn. by rewrite Hn, list_insert_insert_eq.
  - destruct (IH _ _ Ha (<[i := h]> calls)) as [n Hn]; [by apply list_lookup_insert_eq|].
    exists (S n). cbn. rewrite Hc. unfold cm_run in Hn. by rewrite Hn, list_insert_insert_eq.
Qed.

(** Nothing is under way, but for goroutine [i] holding [writeMu] when [b]. *)
Definition lone i (b : bool) w : Prop :=
  w_writeMu w = (if b then Some i else None) ∧ w_dialing w = None ∧
  c_next (w_c w) = length (w_socks w).

Lemma write_keeps n p i fault w :
  let w' := (act_write n p i fault w).2 in
  w_c w' = w_c w ∧ w_writeMu w' = w_writeMu w ∧ w_dialing w' = w_dialing w ∧
  length (w_socks w') = length (w_socks w).
Proof.
  unfold act_write. destruct (w_socks w !! n) as [[out [] pub]|]; [|done..].
  destruct fault; cbn; by rewrite length_alter.
Qed.

Lemma alone_writeFrame i fs n m w :
  ∃ err w' fs', alone i fs (writeFrameG n m) w = Some (err, w', fs') ∧
    w_c w' = w_c w ∧ w_writeMu w' = w_writeMu w ∧ w_dialing w' = w_dialing w ∧
    length (w_socks w') = length (w_socks w).
Proof.
  unfold writeFrameG. destruct (marshal_msg m) as [data|]; [|by eexists _, w, fs].
  cbv zeta. case_if; [by eexists _, w, fs|]. set (hd := put_u32 _).
  rewrite alone_bind. cbn [alone step].
  pose proof (write_keeps n hd i (default None (head fs)) w) as H1.
  destruct (act_write n hd i _ w) as [[] w1]; cbn in H1 |- *; [|by eexists _, w1, _].
  pose proof (write_keeps n data i (default None (head (tail fs))) w1) as H2.
  destruct (act_write n data i _ w1) as [[] w2]; cbn in H2 |- *; eexists _, w2, _; split; try done;
    intuition congruence.
Qed.

Lemma alone_go {B : Set} {A} i fs (f : nat → net_fault → cworld → B * cworld) (k : B → gprog A) w :
  alone i fs (gbind (step f) k) w =
  let '(b, w) := f i (default None (head fs)) w in alone i (tail fs) (k b) w.
Proof. done. Qed.

Lemma set_conn_None c : c_conn c = None → set_conn None c = c.
Proof. destruct c. cbn. by intros ->. Qed.

(** The dial of [NodeClient], for some behaviour of the network. *)
Lemma alone_dialHeld i fs w :
  c_next (w_c w) = length (w_socks w) →
  ∃ d h err w' fs', alone i fs dialHeldG w = Some (err, w', fs') ∧
    w_writeMu w' = w_writeMu w ∧ w_dialing w' = w_dialing w ∧ c_next (w_c w') = length (w_socks w') ∧
    ∀ wr, ∃ out, dialAndHello (mkEnv d h wr) (w_c w) = (err, w_c w', out).
Proof.
  intros Hn. unfold dialHeldG. rewrite alone_go.
  set (r := act_forget i _ w). assert (r = (c_helloID (w_c w), c_helloRole (w_c w), r.2) ∧
    w_c r.2 = set_conn None (w_c w) ∧ w_writeMu r.2 = w_writeMu w ∧ w_dialing r.2 = w_dialing w ∧
    length (w_socks r.2) = length (w_socks w)) as (-> & Hc & Hm & Hd & Hl).
  { unfold r, act_forget. destruct (c_conn (w_c w)) as [n|] eqn:E; [cbn; by rewrite length_alter|].
    by rewrite set_conn_None. }
  destruct r.2 as [c socks mu dl cl]. cbn in Hc, Hm, Hd, Hl. subst c mu dl. unfold dialAndHello. cbn [set_conn c_helloID c_next].
  case_if.
  { exists true, true, (Some CHelloUnset). eexists _, _. split; [done|]. cbn. rewrite Hl. split_and!; try done.
    intros _. by eexists. }
  rewrite alone_go. destruct (default None (head (tail fs))) as [k|]; cbn [act_dial w_c w_socks].
  { exists false, true, (Some CDial). eexists _, _. split; [done|]. cbn. rewrite Hl. split_and!; try done.
    intros _. by eexists. }
  rewrite alone_bind. match goal with |- context [alone i ?fs (writeFrameG ?n ?m) ?w] =>
    destruct (alone_writeFrame i fs n m w) as ([err|] & w1 & fs1 & -> & Hc1 & Hm1 & Hd1 & Hl1) end;
    cbn in Hc1, Hm1, Hd1, Hl1 |- *; rewrite length_app in Hl1; cbn in Hl1.
  - exists true, false, (Some CHelloWrite). eexists _, _. split; [done|]. cbn. rewrite length_alter, Hc1. cbn.
    split_and!; try done; [lia|]. intros _. rewrite Hl, Hn. by eexists.
  - exists true, true, None. eexists _, _. split; [done|]. cbn. rewrite length_alter, Hc1. cbn.
    split_and!; try done; [lia|]. intros _. rewrite Hl, Hn. by eexists.
Qed.

Lemma alone_dial i b fs w :
  lone i b w → ∃ d h err w' fs', alone i fs dialAndHelloG w = Some (err, w', fs') ∧ lone i b w' ∧
    ∀ wr, ∃ out, dialAndHello (mkEnv d h wr) (w_c w) = (err, w_c w', out).
Proof.
  intros (Hm & Hd & Hn). unfold dialAndHelloG. rewrite alone_go. unfold act_dialing. rewrite Hd. cbn [negb].
  rewrite alone_bind. match goal with |- context [alone i ?fs dialHeldG ?w] =>
    destruct (alone_dialHeld i fs w Hn) as (d & h & err & w1 & fs1 & -> & Hm1 & Hd1 & Hn1 & He) end.
  exists d, h, err. eexists _, _. split; [done|]. split; [|exact He].
  split_and!; cbn in *; [by rewrite Hm1|done|done].
Qed.

Lemma alone_ensure i b fs w :
  lone i b w → ∃ d h r w' fs', alone i fs ensureConnG w = Some (r, w', fs') ∧ lone i b w' ∧
    ∀ wr, ∃ out, ensureConn (mkEnv d h wr) (w_c w) = (r, w_c w', out).
Proof.
  intros Hw. unfold ensureConnG, ensureConn. rewrite alone_go. cbn [on_client].
  replace (with_client (w_c w) w) with w by by destruct w.
  destruct (c_conn (w_c w)) as [n|].
  { exists true, true. eexists _, _, _. split; [done|]. split; [done|]. intros _. by eexists. }
  rewrite alone_bind. destruct (alone_dial i b (tail fs) w Hw) as (d & h & err & w1 & fs1 & -> & Hw1 & He).
  exists d, h. cbn [mbind option_bind]. destruct err as [err|].
  { eexists _, _, _. split; [done|]. split; [done|]. intros wr. destruct (He wr) as [out ->]. by eexists. }
  rewrite alone_go. cbn [on_client]. replace (with_client (w_c w1) w1) with w1 by by destruct w1.
  destruct (c_conn (w_c w1)) as [n|] eqn:Ec; (eexists _, _, _; split; [done|]; split; [done|]);
    intros wr; destruct (He wr) as [out ->]; rewrite Ec; by eexists.
Qed.

Lemma mark_dead_client n w : w_c (mark_dead n w) = markConnDead n (w_c w).
Proof. unfold mark_dead, markConnDead. destruct (c_conn (w_c w)); [|done]. by case_if. Qed.

Lemma lone_unlock i w : lone i true w → lone i false (with_writeMu None w).
Proof. by intros (H1 & H2 & H3). Qed.

(** The identity section is [NodeClient.writeFrame]'s check. *)
Lemma frame_identity m c :
  (∃ c', sec_frame_identity m c = (None, c') ∧ c_next c' = c_next c ∧ ∀ e, writeFrame m e c =
     match ensureConn e c' with
     | (Err err, c, out) => (Some err, c, out)
     | (Ok n, c, out) => if negb (write_ok e) then (Some (CWrite (m_Type m)), markConnDead n c, out)
                         else (None, c, out ++ [(n, m)])
     end) ∨
  ∃ err, sec_frame_identity m c = (Some err, c) ∧ ∀ e, writeFrame m e c = (Some err, c, []).
Proof.
  unfold sec_frame_identity, writeFrame.
  destruct (c_helloID c =s? ""), (m_ID m =s? ""), (c_helloID c =s? m_ID m); cbn [negb andb orb];
    try (left; by eexists); right; by eexists.
Qed.

Lemma alone_send i fs m w :
  lone i false w → ∃ e err w' fs', alone i fs (sendG m) w = Some (err, w', fs') ∧ lone i false w' ∧
    ∃ out, writeFrame m e (w_c w) = (err, w_c w', out).
Proof.
  intros (Hm & Hd & Hn). unfold sendG. cbn [alone]. rewrite Hm, alone_go. unfold on_client.
  cbn [w_c with_writeMu].
  destruct (frame_identity m (w_c w)) as [(c' & -> & Hn' & Hw)|(err & -> & Hw)].
  2: { exists (mkEnv true true true). eexists _, _, _. split; [done|]. split; [done|]. rewrite Hw. by eexists. }
  rewrite alone_bind.
  destruct (alone_ensure i true (tail (tail fs)) (with_client c' (with_writeMu (Some i) w)))
    as (d & h & r & w1 & fs1 & -> & Hw1 & He); [by split_and!; cbn; rewrite ?Hn'|].
  cbn [mbind option_bind w_c with_client with_writeMu] in He |- *. destruct r as [n|err].
  2: { exists (mkEnv d h true). eexists _, _, _. split; [done|]. split; [by apply lone_unlock|].
       rewrite Hw. destruct (He true) as [out ->]. by eexists. }
  rewrite alone_bind. destruct (alone_writeFrame i fs1 n m w1) as ([err|] & w2 & fs2 & -> & Hc2 & Hm2 & Hd2 & Hl2);
    cbn [mbind option_bind].
  - exists (mkEnv d h false). rewrite alone_go. cbn [act_dead]. eexists _, _, _. split; [done|].
    destruct Hw1 as (H1 & H2 & H3). split.
    + apply lone_unlock. unfold lone. rewrite mark_dead_mu, mark_dead_client. unfold mark_dead, markConnDead.
      rewrite Hc2. destruct (c_conn (w_c w1)); [|by rewrite Hm2, Hd2, Hl2].
      case_if; cbn; rewrite ?length_alter, ?Hm2, ?Hd2, ?Hl2, ?Hc2; done.
    + rewrite Hw. destruct (He false) as [out ->]. cbn. rewrite mark_dead_client, Hc2. by eexists.
  - exists (mkEnv d h true). eexists _, _, _. split; [done|]. destruct Hw1 as (H1 & H2 & H3). split.
    + apply lone_unlock. unfold lone. by rewrite Hm2, Hd2, Hl2, Hc2.
    + rewrite Hw. destruct (He true) as [out ->]. cbn. rewrite Hc2. by eexists.
Qed.

(** A call of [NodeClient]: what it returns, and the client after it. *)
Definition lone_call (call : client_call) (e : net_env) (c : IsanndClient) : result client_err bool * IsanndClient :=
  let ret '((err, c', _) : option client_err * IsanndClient * list sent_frame) :=
    (match err with Some err => Err err | None => Ok false end, c') in
  match call with
  | CallConnect id role => ret (Connect id role e c)
  | CallRegister m => ret (SendRegister m e c)
  | CallHeartbeat p => (SendHeartbeat p e c).1
  | CallMetrics v => ret (SendMetrics v e c)
  | CallBatch id role batch => ret (SendMetricsBatch id role batch e c)
  | CallFrame m => ret (SendFrame m e c)
  | CallClose => (Ok false, CloseClient c)
  end.

Lemma alone_sent_or i fs p w :
  alone i fs (sent_or p) w =
  '(err, w, fs) ← alone i fs p w; Some (match err with Some err => Err err | None => Ok false end, w, fs).
Proof. unfold sent_or. rewrite alone_bind. by destruct (alone i fs p w) as [[[[err|] w1] fs1]|]. Qed.

Lemma alone_connect i fs id role w :
  lone i false w → ∃ e err w' fs', alone i fs (ConnectG id role) w = Some (err, w', fs') ∧ lone i false w' ∧
    ∃ out, Connect id role e (w_c w) = (err, w_c w', out).
Proof.
  intros (Hm & Hd & Hn). unfold ConnectG, Connect. rewrite alone_go. unfold on_client at 1.
  replace (with_client (w_c w) w) with w by by destruct w. destruct (c_closed (w_c w)).
  { exists (mkEnv true true true). eexists _, _, _. split; [done|]. split; [done|]. by eexists. }
  rewrite alone_go. unfold on_client, sec_identity. destruct (negb _ && negb _).
  { exists (mkEnv true true true). eexists _, _, _. split; [done|]. split; [done|]. by eexists. }
  destruct (c_conn (set_hello id role (w_c w))) as [n|].
  { exists (mkEnv true true true). eexists _, _, _. split; [done|]. split; [done|]. by eexists. }
  destruct (alone_dial i false (tail (tail fs)) (with_client (set_hello id role (w_c w)) w))
    as (d & h & err & w1 & fs1 & -> & Hw1 & He); [done|].
  exists (mkEnv d h true). eexists _, _, _. split; [done|]. split; [done|]. apply He.
Qed.

Lemma alone_close i fs w :
  lone i false w → ∃ w' fs', alone i fs CloseG w = Some (None, w', fs') ∧ lone i false w' ∧
    w_c w' = CloseClient (w_c w).
Proof.
  intros (Hm & Hd & Hn). unfold CloseG, CloseClient. rewrite alone_go. unfold on_client.
  destruct (c_closed (w_c w)) eqn:Ec; cbn [negb].
  { eexists _, _. split; [done|]. unfold set_closed. rewrite <-Ec. by destruct w as [[] ? ? ? ?]. }
  rewrite alone_go. unfold act_take. destruct (c_conn (w_c (with_client _ w))) as [n|] eqn:En;
    (eexists _, _; split; [done|]); cbn in En |- *.
  - split; [|done]. unfold lone. cbn. by rewrite length_alter.
  - split; [done|]. unfold set_closed. by rewrite En.
Qed.

Lemma alone_call i fs call w :
  lone i false w → ∃ e r w' fs', alone i fs (call_prog call) w = Some (r, w', fs') ∧ lone i false w' ∧
    lone_call call e (w_c w) = (r, w_c w').
Proof.
  intros Hw.
  assert (∀ m, ∃ e r w' fs', alone i fs (sent_or (sendG m)) w = Some (r, w', fs') ∧ lone i false w' ∧
    ∃ out err, writeFrame m e (w_c w) = (err, w_c w', out) ∧
      r = match err with Some err => Err err | None => Ok false end) as Hsend.
  { intros m. destruct (alone_send i fs m w Hw) as (e & err & w1 & fs1 & Ha & Hw1 & out & He).
    exists e. eexists _, w1, fs1. rewrite alone_sent_or, Ha. split; [done|]. split; [done|]. by exists out, err. }
  assert (∀ r : result client_err bool, (∀ e, lone_call call e (w_c w) = (r, w_c w)) → call_prog call = GDone r →
    ∃ e r w' fs', alone i fs (call_prog call) w = Some (r, w', fs') ∧ lone i false w' ∧
    lone_call call e (w_c w) = (r, w_c w')) as Hnil.
  { intros r Hl ->. exists (mkEnv true true true), r, w, fs. by rewrite Hl. }
  destruct call as [id role|[m|]|[p|]|[v|]|id role batch|[m|]|]; try (by apply (Hnil (Err CNil))); clear Hnil;
    cbn [call_prog lone_call].
  - destruct (alone_connect i fs id role w Hw) as (e & err & w1 & fs1 & Ha & Hw1 & out & He).
    exists e. eexists _, w1, fs1. rewrite alone_sent_or, Ha, He. by split_and!.
  - edestruct Hsend as (e & r & w1 & fs1 & Ha & Hw1 & out & err & He & ->). exists e. eexists _, w1, fs1.
    rewrite Ha. split_and!; [done..|]. unfold SendRegister. by rewrite He.
  - unfold HeartbeatG. rewrite alone_bind. edestruct alone_send as (e & err & w1 & fs1 & -> & Hw1 & out & He); [done|].
    exists e. cbn [mbind option_bind]. unfold SendHeartbeat. rewrite He. destruct err as [err|].
    + by eexists _, w1, fs1.
    + rewrite alone_go. cbn [on_client]. by eexists _, _, _.
  - edestruct Hsend as (e & r & w1 & fs1 & Ha & Hw1 & out & err & He & ->). exists e. eexists _, w1, fs1.
    rewrite Ha. split_and!; [done..|]. unfold SendMetrics. by rewrite He.
  - edestruct Hsend as (e & r & w1 & fs1 & Ha & Hw1 & out & err & He & ->). exists e. eexists _, w1, fs1.
    rewrite Ha. split_and!; [done..|]. unfold SendMetricsBatch. by rewrite He.
  - unfold SendFrame. destruct (m_Type m =s? ""); [by exists (mkEnv true true true), (Err CNoType), w, fs|].
    edestruct Hsend as (e & r & w1 & fs1 & Ha & Hw1 & out & err & He & ->). exists e. eexists _, w1, fs1.
    rewrite Ha. split_and!; [done..|]. by rewrite He.
  - destruct (alone_close i fs w Hw) as (w1 & fs1 & Ha & Hw1 & Hc). exists (mkEnv true true true).
    eexists _, w1, fs1. rewrite alone_sent_or, Ha. split_and!; [done..|]. by rewrite Hc.
Qed.
End alone.

Section refines.
Context {J : FrameJSON} {L : FrameJSONLaws J}.

(** When no other call is under way, after any history, a call that is not
    interrupted returns what the function of [NodeClient] returns, and leaves
    the client as it does, for some behaviour of the network; in particular it
    is never blocked by what earlier calls left behind. *)
Theorem client_call_refines httpBase controlAddr (h : list cl_event) (call : client_call) (fs : list net_fault) :
  let s := cm_run h (cm_start httpBase controlAddr) in
  let i := length (arrivals h) in
  (∀ j, (j < i)%nat → is_Some (returned s j)) →
  ∃ n e r, let s' := cm_run (ECall call :: (EGo i <$> first_faults n fs)) s in
    returned s' i = Some r ∧ lone_call call e (w_c (cm_w s)) = (r, w_c (cm_w s')).
Proof.
  intros s i Hall. pose proof (cm_run_ok httpBase controlAddr h) as H. fold s in H.
  assert (lone i false (cm_w s)) as Hw.
  { destruct (all_returned httpBase controlAddr h Hall) as (Hm & Hd & _). split_and!; [done..|apply (v_next _ (o_inv _ _ H))]. }
  destruct (alone_call i fs call (cm_w s) Hw) as (e & r & w' & fs' & Ha & _ & He).
  destruct (alone_run i fs (call_prog call) (cm_w s) r w' fs' Ha (cm_calls s ++ [call_prog call])) as [n Hn].
  { rewrite lookup_app_r; rewrite (o_len _ _ H); [|done]. by rewrite Nat.sub_diag. }
  exists n, e, r. cbn [cm_run fold_left cm_step]. unfold cm_run in Hn. rewrite Hn. cbn [cm_w]. split; [|done].
  unfold returned. cbn [cm_calls]. rewrite list_lookup_insert_eq; [done|]. rewrite length_app, (o_len _ _ H). cbn. unfold i. lia.
Qed.
End refines.

(** ** Calls that race *)

Definition race_msg : RendezvousMsg := demo_msg "ping" "P:1".
Definition go_n (n : nat) (i : nat) : list cl_event := replicate n (EGo i None).
Abbreviation race h := (cm_run (J:=toy_frames) h (cm_start "" "")).

(** A send while [Connect] dials fails with "dial succeeded but conn nil",
    although the dial goes on and succeeds. *)
Definition send_during_dial : list cl_event :=
  ECall (CallConnect "P:1" "provider") :: go_n 4 0 ++ ECall (CallFrame (Some race_msg)) :: go_n 6 1 ++ go_n 5 0.

Theorem send_during_dial_fails :
  let s := race send_during_dial in
  returned s 1 = Some (Err CConnNil) ∧ returned s 0 = Some (Ok false) ∧
  c_conn (w_c (cm_w s)) = Some 0%nat ∧
  (recv_all (J:=toy_frames) (default "" (so_out <$> (w_socks (cm_w s) !! 0%nat)))).1 = [demo_msg "hello" "P:1"].
Proof. by vm_compute. Qed.

(** A [Close] while [Connect] dials returns, and the connection is opened after
    it: the client is closed and its socket stays open. *)
Definition close_during_dial : list cl_event :=
  ECall (CallConnect "P:1" "provider") :: go_n 4 0 ++ ECall CallClose :: go_n 2 1 ++ go_n 5 0.

Theorem close_during_dial_leaks :
  let s := race close_during_dial in
  returned s 0 = Some (Ok false) ∧ returned s 1 = Some (Ok false) ∧
  c_closed (w_c (cm_w s)) = true ∧ c_conn (w_c (cm_w s)) = Some 0%nat ∧
  (so_open <$> w_socks (cm_w s) !! 0%nat) = Some true.
Proof. by vm_compute. Qed.

(** Two [Connect]s that both see no connection dial twice: the second closes the
    connection of the first, here under a frame another goroutine is writing,
    whose send fails. *)
Definition connect_twice : list cl_event :=
  ECall (CallConnect "P:1" "provider") :: go_n 2 0 ++ ECall (CallConnect "P:1" "provider") :: go_n 2 1 ++ go_n 7 0 ++
  ECall (CallFrame (Some race_msg)) :: go_n 4 2 ++ go_n 7 1 ++ go_n 3 2.

Theorem connect_twice_breaks_send :
  let s := race connect_twice in
  returned s 0 = Some (Ok false) ∧ returned s 1 = Some (Ok false) ∧
  returned s 2 = Some (Err (CWrite "ping")) ∧
  c_conn (w_c (cm_w s)) = Some 1%nat ∧ (so_open <$> w_socks (cm_w s)) = [false; true] ∧
  (λ k, (recv_all (J:=toy_frames) (so_out k)).2) <$> w_socks (cm_w s) = [FBody FEOF; FEOF].
Proof. by vm_compute. Qed.

(** ** Witnesses *)

(** A send after [connect_twice]: it goes out on the second socket, while the
    first ends in a torn frame. *)
Definition torn_then_sent : list cl_event := connect_twice ++ ECall (CallFrame (Some race_msg)) :: go_n 6 3.

Lemma client_streams_whole_witness :
  let s := race torn_then_sent in
  let id := c_helloID (w_c (cm_w s)) in
  so_out <$> w_socks (cm_w s) =
    [frame_bytes "hello:P:1" ++s put_u32 8; frame_bytes "hello:P:1" ++s frame_bytes "ping:P:1"] ∧
  returned s 3 = Some (Ok false) ∧
  (∀ n k, w_socks (cm_w s) !! n = Some k → id ≠ ""%string ∧ carries (J:=toy_frames) id k) ∧
  (∀ i call m b, arrivals torn_then_sent !! i = Some call → frame_of call = Some m → returned s i = Some (Ok b) →
     of_node id m ∧ delivered (J:=toy_frames) id m (cm_w s)).
Proof.
  split; [vm_compute; reflexivity|]. split; [vm_compute; reflexivity|].
  apply (client_streams_whole (J:=toy_frames) (L:=toy_frames_laws) "" "" torn_then_sent).
Defined.


