(* ===== verification/SessionCache.v ===== *)
(** * pkg/tunnel/session.go: session tokens and the rendezvous session cache

    Sessions are immutable once built, so the entries the three maps share by
    pointer are modelled by value.  Randomness (the token and the key) is an
    argument of [NewSession].  The clock is an explicit argument [now]. *)

From S2P Require Import Prelude GoStrings GoStringsFacts Strconv GoTime.
From Stdlib Require Import ZArith Lia ZifyBool Bool Ascii String.
From stdpp Require Import base option list gmap strings.

Open Scope go_scope.
Open Scope Z_scope.

Definition SessionTTL : duration := 24 * hour.
Definition SessionGrace : duration := 5 * minute.
Definition SessionRenewBefore : duration := 30 * minute.

(** pkg/tunnel/session.go:37-43 [Session] *)
Record Session := mkSession {
  s_Token : string; s_Key : string; s_IssuedAt : time; s_ExpiresAt : time;
  s_HeartbeatInterval : duration
}.

(** pkg/tunnel/session.go:46-59 [NewSession]: [key = None] is a failure of the
    system's random source. *)
Definition NewSession (tok : string) (key : option string) (now : time) : option Session :=
  match key with
  | None => None
  | Some key => Some (mkSession tok key now (time_add now SessionTTL) 0)
  end.

(** pkg/tunnel/session.go:62-67 [Session.IsExpired]; [None] is a nil receiver. *)
Definition IsExpired (s : option Session) (now : time) : bool :=
  match s with
  | None => true
  | Some s => time_after now (time_add (s_ExpiresAt s) SessionGrace)
  end.

(** pkg/tunnel/session.go:71-76 [Session.NeedsRenew] *)
Definition NeedsRenew (s : option Session) (now : time) : bool :=
  match s with
  | None => true
  | Some s => time_after now (time_add (s_ExpiresAt s) (- SessionRenewBefore))
  end.

(** pkg/tunnel/session.go:140-143 [SessionEntry] *)
Record SessionEntry := mkEntry { e_NodeID : string; e_Sess : Session }.

(** pkg/tunnel/session.go:132-137 [SessionCache] *)
Record SessionCache := mkCache {
  byToken : gmap string SessionEntry;
  byNodeID : gmap string SessionEntry;
  replaced : gmap string time
}.

(** pkg/tunnel/session.go:146-152 [NewSessionCache] *)
Definition NewSessionCache : SessionCache := mkCache ∅ ∅ ∅.

(** pkg/tunnel/session.go:223-226 [tokenKey] *)
Definition tokenKey (tok : string) : string := tok.

(** pkg/tunnel/session.go:157-166 [SessionCache.Put] *)
Definition Put (nodeID : string) (sess : Session) (now : time) (c : SessionCache) : SessionCache :=
  let replaced' := match byNodeID c !! nodeID with
                   | Some old => <[tokenKey (s_Token (e_Sess old)) := time_add now SessionGrace]> (replaced c)
                   | None => replaced c
                   end in
  let e := mkEntry nodeID sess in
  mkCache (<[tokenKey (s_Token sess) := e]> (byToken c)) (<[nodeID := e]> (byNodeID c)) replaced'.

(** pkg/tunnel/session.go:170-188 [SessionCache.LookupByToken] *)
Definition LookupByToken (token : string) (now : time) (c : SessionCache) : option SessionEntry :=
  let k := tokenKey token in
  let in_grace :=
    match replaced c !! k with
    | Some end_ => if time_before now end_ then byToken c !! k else None
    | None => None
    end in
  match byToken c !! k with
  | Some e => if negb (IsExpired (Some (e_Sess e)) now) then Some e else in_grace
  | None => in_grace
  end.

(** pkg/tunnel/session.go:191-200 [SessionCache.LookupByNodeID] *)
Definition LookupByNodeID (nodeID : string) (now : time) (c : SessionCache) : option SessionEntry :=
  match byNodeID c !! nodeID with
  | Some e => if negb (IsExpired (Some (e_Sess e)) now) then Some e else None
  | None => None
  end.

(** pkg/tunnel/session.go:203-221 [SessionCache.Prune] *)
Definition Prune (now : time) (c : SessionCache) : SessionCache :=
  mkCache
    (filter (λ kv, IsExpired (Some (e_Sess kv.2)) now = false) (byToken c))
    (filter (λ kv, IsExpired (Some (e_Sess kv.2)) now = false) (byNodeID c))
    (filter (λ kv, time_after now kv.2 = false) (replaced c)).

(** The operations a client of the cache performs, with the time of each. *)
Inductive cache_op :=
  | OpPut (nodeID : string) (sess : Session) (now : time)
  | OpPrune (now : time).

Definition cache_step (c : SessionCache) (o : cache_op) : SessionCache :=
  match o with
  | OpPut id s now => Put id s now c
  | OpPrune now => Prune now c
  end.

(** ** Invariant *)

(** Every entry is filed under its own token, respectively its own node. *)
Definition cache_wf (c : SessionCache) : Prop :=
  (∀ k e, byToken c !! k = Some e → k = tokenKey (s_Token (e_Sess e))) ∧
  (∀ id e, byNodeID c !! id = Some e → id = e_NodeID e).

Lemma cache_step_wf c o : cache_wf c → cache_wf (cache_step c o).
Proof.
  intros [Ht Hn]. destruct o as [id s now|now]; split; simpl; intros k e.
  - intros [[<- <-]|[? ?]]%lookup_insert_Some; [done|by apply Ht].
  - intros [[<- <-]|[? ?]]%lookup_insert_Some; [done|by apply Hn].
  - intros [? _]%map_lookup_filter_Some. by apply Ht.
  - intros [? _]%map_lookup_filter_Some. by apply Hn.
Qed.

Lemma cache_reach_wf ops : cache_wf (fold_left cache_step ops NewSessionCache).
Proof.
  apply fold_left_inv; [by split; intros ??; simpl; rewrite lookup_empty|].
  intros; by apply cache_step_wf.
Qed.

Lemma IsExpired_mono s t t' : t ≤ t' → IsExpired s t = true → IsExpired s t' = true.
Proof. destruct s as [s|]; [|done]. unfold IsExpired, time_after, time_add. lia. Qed.

Lemma prune_lookup_token token now now' c e :
  byToken c !! tokenKey token = Some e → now ≤ now' →
  IsExpired (Some (e_Sess e)) now' = false →
  LookupByToken token now' (Prune now c) = Some e.
Proof.
  intros He Hle Hx. unfold LookupByToken.
  assert (IsExpired (Some (e_Sess e)) now = false) as Hn.
  { destruct (IsExpired _ now) eqn:E; [|done]. by rewrite (IsExpired_mono _ _ _ Hle E) in Hx. }
  assert (byToken (Prune now c) !! tokenKey token = Some e) as ->.
  { simpl. by apply map_lookup_filter_Some. }
  by rewrite Hx.
Qed.

(** ** Theorems *)

(** pruning is invisible to every session still inside its lifetime plus
    grace: after any history of puts and prunes, a token whose session is not
    expired at the time of the lookup is found with its own entry, whatever
    prunes ran before it; and the entry found carries the token asked for. *)
Theorem cache_live_token ops token e now now' :
  let c := fold_left cache_step ops NewSessionCache in
  byToken c !! tokenKey token = Some e → now ≤ now' →
  IsExpired (Some (e_Sess e)) now' = false →
  LookupByToken token now' (Prune now c) = Some e ∧
  LookupByToken token now' c = Some e ∧ s_Token (e_Sess e) = token.
Proof.
  intros c He Hle Hx. split_and!.
  - by apply prune_lookup_token.
  - unfold LookupByToken. by rewrite He, Hx.
  - symmetry. by apply (proj1 (cache_reach_wf ops)).
Qed.

Definition demo_sess (t : string) : Session := mkSession t "k" 0 (24 * hour) 0.

Lemma cache_live_token_witness :
  let c := fold_left cache_step [OpPut "P:0x1" (demo_sess "t1") 0; OpPut "P:0x1" (demo_sess "t2") 5]
             NewSessionCache in
  LookupByToken "t1" (1 * hour) (Prune 10 c) = Some (mkEntry "P:0x1" (demo_sess "t1")) ∧
  LookupByToken "t1" (1 * hour) c = Some (mkEntry "P:0x1" (demo_sess "t1")) ∧
  s_Token (e_Sess (mkEntry "P:0x1" (demo_sess "t1"))) = "t1"%string.
Proof.
  apply (cache_live_token [OpPut "P:0x1" (demo_sess "t1") 0; OpPut "P:0x1" (demo_sess "t2") 5]
           "t1" (mkEntry "P:0x1" (demo_sess "t1")) 10 (1 * hour));
    [reflexivity | unfold hour, minute, second; lia | reflexivity].
Defined.

(** rotation does not shorten a token's life: after a node's session is
    replaced, the old token keeps being accepted until its own expiry plus
    grace, however long after the rotation that is. *)
Theorem rotated_token_still_valid c id old new now now' :
  byNodeID c !! id = Some old →
  byToken c !! tokenKey (s_Token (e_Sess old)) = Some old →
  s_Token new ≠ s_Token (e_Sess old) →
  IsExpired (Some (e_Sess old)) now' = false →
  LookupByToken (s_Token (e_Sess old)) now' (Put id new now c) = Some old.
Proof.
  intros Hn Ht Hne Hx. unfold LookupByToken, Put. rewrite Hn. cbn [byToken].
  rewrite lookup_insert_ne by done. by rewrite Ht, Hx.
Qed.

Lemma rotated_token_still_valid_witness :
  LookupByToken "t1" (23 * hour) (Put "P:0x1" (demo_sess "t2") 5
     (Put "P:0x1" (demo_sess "t1") 0 NewSessionCache)) = Some (mkEntry "P:0x1" (demo_sess "t1")).
Proof.
  apply (rotated_token_still_valid (Put "P:0x1" (demo_sess "t1") 0 NewSessionCache)
           "P:0x1" (mkEntry "P:0x1" (demo_sess "t1")) (demo_sess "t2") 5 (23 * hour));
    [reflexivity | reflexivity | discriminate | reflexivity].
Defined.
