(* ===== verification/RvTypes.v ===== *)
(** * pkg/rendezvous: the server's data and its configuration policy

    Records with the source's fields, the per-role cadence policy, the
    normalisation of node ids and the counters' role buckets.  A network
    address is what the server observes of a [net.Addr]: its dynamic type, the
    raw IP bytes and its printed form. *)

From S2P Require Import Prelude GoStrings GoStringsFacts Strconv Hardware GoTime SessionCache.
From S2P Require Import Tunnel.
From Stdlib Require Import ZArith Lia ZifyBool Bool Ascii String.
From stdpp Require Import base option list gmap strings.

Open Scope go_scope.
Open Scope Z_scope.

Inductive net_addr :=
  | TCPAddr (ip str : string)
  | UDPAddr (ip str : string)
  | OtherAddr (str : string).

(** [addr.String()] *)
Definition addr_string (a : net_addr) : string :=
  match a with TCPAddr _ s => s | UDPAddr _ s => s | OtherAddr s => s end.

(** [net.IP.Equal]: a 4-byte address equals its 16-byte mapped form. *)
Definition v4InV6Prefix : string :=
  be_bytes 10 0 ++s str1 (ch 255) ++s str1 (ch 255).
Definition ip_equal (a b : string) : bool :=
  if (String.length a =? String.length b)%nat then a =s? b
  else if (String.length a =? 4)%nat && (String.length b =? 16)%nat then
    (take_str 12 b =s? v4InV6Prefix) && (a =s? drop_str 12 b)
  else if (String.length a =? 16)%nat && (String.length b =? 4)%nat then
    (take_str 12 a =s? v4InV6Prefix) && (drop_str 12 a =s? b)
  else false.

(** pkg/rendezvous/server.go:23-64 [ProxyInfo] *)
Record ProxyInfo := mkProxy {
  p_ID : string; p_Role : string; p_Addr : string; p_LocalAddr : string;
  p_CertHash : string; p_Version : string; p_BinHash : string; p_OwnerAddress : string;
  p_Emblem : string; p_UDPAddr : option net_addr;
  p_LastSeen : time; p_RegisteredAt : time;
  p_AddrManual : bool; p_ControlIP : string;
  p_Status : string; p_AuthMode : string;
  p_Hardware : option HardwareSpec; p_Services : option (list ServiceInfo);
  p_TPMVerified : bool; p_EKFingerprint : string; p_EKCertIssuer : string;
  p_EKPublicKey : option (Z * Z); p_TPMNonce : option string
}.

(** [p.LastSeen = now], [p.Services = svcs] *)
Definition set_LastSeen (now : time) (p : ProxyInfo) : ProxyInfo :=
  mkProxy (p_ID p) (p_Role p) (p_Addr p) (p_LocalAddr p) (p_CertHash p) (p_Version p)
    (p_BinHash p) (p_OwnerAddress p) (p_Emblem p) (p_UDPAddr p) now (p_RegisteredAt p)
    (p_AddrManual p) (p_ControlIP p) (p_Status p) (p_AuthMode p) (p_Hardware p) (p_Services p)
    (p_TPMVerified p) (p_EKFingerprint p) (p_EKCertIssuer p) (p_EKPublicKey p) (p_TPMNonce p).
Definition set_Services (svcs : option (list ServiceInfo)) (p : ProxyInfo) : ProxyInfo :=
  mkProxy (p_ID p) (p_Role p) (p_Addr p) (p_LocalAddr p) (p_CertHash p) (p_Version p)
    (p_BinHash p) (p_OwnerAddress p) (p_Emblem p) (p_UDPAddr p) (p_LastSeen p) (p_RegisteredAt p)
    (p_AddrManual p) (p_ControlIP p) (p_Status p) (p_AuthMode p) (p_Hardware p) svcs
    (p_TPMVerified p) (p_EKFingerprint p) (p_EKCertIssuer p) (p_EKPublicKey p) (p_TPMNonce p).
(** [p.UDPAddr = u; p.Addr = a] *)
Definition set_UDPAddr (u : net_addr) (a : string) (p : ProxyInfo) : ProxyInfo :=
  mkProxy (p_ID p) (p_Role p) a (p_LocalAddr p) (p_CertHash p) (p_Version p)
    (p_BinHash p) (p_OwnerAddress p) (p_Emblem p) (Some u) (p_LastSeen p) (p_RegisteredAt p)
    (p_AddrManual p) (p_ControlIP p) (p_Status p) (p_AuthMode p) (p_Hardware p) (p_Services p)
    (p_TPMVerified p) (p_EKFingerprint p) (p_EKCertIssuer p) (p_EKPublicKey p) (p_TPMNonce p).

(** [&ProxyInfo{RegisteredAt: now}] *)
Definition new_proxy (now : time) : ProxyInfo :=
  mkProxy "" "" "" "" "" "" "" "" "" None time_zero now false "" "" "" None None
    false "" "" None None.

(** pkg/rendezvous/server.go:235-247 [NodeMetric] *)
Record NodeMetric := mkNM {
  nm_NodeID : string; nm_ServiceName : string; nm_Status : Z; nm_QueueDepth : Z;
  nm_TotalJobsDone : Z; nm_AvgJobSec : float64; nm_LastJobMs : Z; nm_RunningJobID : string;
  nm_RunningCount : Z; nm_Seq : Z
}.

(** pkg/rendezvous/rv_auth.go:52-54 [IssuerPolicy] *)
Record IssuerPolicy := mkPolicy { ip_Bind : string }.

(** pkg/rendezvous/rv_auth.go:56-56 [IssuerPolicy.allowsBound] *)
Definition allowsBound (p : IssuerPolicy) : bool := (ip_Bind p =s? "node") || (ip_Bind p =s? "any").
(** pkg/rendezvous/rv_auth.go:57-57 [IssuerPolicy.allowsBearer] *)
Definition allowsBearer (p : IssuerPolicy) : bool := (ip_Bind p =s? "none") || (ip_Bind p =s? "any").

(** pkg/rendezvous/server.go:174-180 [HolepunchPolicy] *)
Record HolepunchPolicy := mkHolepunch {
  PrePunchCount : Z; PrePunchIntervalMs : Z; PreDialWaitMs : Z;
  ReplyBurstCount : Z; ReplyBurstIntervalMs : Z
}.

(** The operator-configured fields of [Server]. *)
Record ServerConfig := mkConfig {
  cfg_ProxyPurge : duration;
  cfg_PingIntervals : gmap string duration;
  cfg_RegisterIntervals : gmap string duration;
  cfg_Mode : string;
  cfg_Issuers : gmap string IssuerPolicy;
  cfg_Holepunch : HolepunchPolicy
}.

(** pkg/rendezvous/control_tcp.go:22-28 [controlConn]: the connection is its
    identity (each accepted connection is a fresh one) and its remote address. *)
Record controlConn := mkConn {
  cc_conn : nat; cc_remote : net_addr; cc_nodeID : string; cc_role : string; cc_connectedAt : time
}.

(** pkg/rendezvous/server.go:1034-1039 [healthRateLimiter] *)
Record healthRateLimiter := mkLimiter {
  hl_limit : Z; hl_window : time; hl_hits : gmap string Z
}.

(** pkg/rendezvous/server.go:74-161 [Server] *)
Record Server := mkServer {
  cfg : ServerConfig;
  proxies : gmap string ProxyInfo;
  controlConns : gmap string controlConn;
  cntStation : Z; cntControl : Z; cntPassenger : Z; cntPublic : Z;
  healthLimiter : healthRateLimiter;
  sessions : SessionCache;
  metrics : gmap string NodeMetric;
  startedAt : time
}.

Definition set_proxies (f : gmap string ProxyInfo → gmap string ProxyInfo) (s : Server) : Server :=
  mkServer (cfg s) (f (proxies s)) (controlConns s) (cntStation s) (cntControl s)
    (cntPassenger s) (cntPublic s) (healthLimiter s) (sessions s) (metrics s) (startedAt s).
Definition set_conns (f : gmap string controlConn → gmap string controlConn) (s : Server) : Server :=
  mkServer (cfg s) (proxies s) (f (controlConns s)) (cntStation s) (cntControl s)
    (cntPassenger s) (cntPublic s) (healthLimiter s) (sessions s) (metrics s) (startedAt s).
Definition set_metrics (f : gmap string NodeMetric → gmap string NodeMetric) (s : Server) : Server :=
  mkServer (cfg s) (proxies s) (controlConns s) (cntStation s) (cntControl s)
    (cntPassenger s) (cntPublic s) (healthLimiter s) (sessions s) (f (metrics s)) (startedAt s).
Definition set_limiter (l : healthRateLimiter) (s : Server) : Server :=
  mkServer (cfg s) (proxies s) (controlConns s) (cntStation s) (cntControl s)
    (cntPassenger s) (cntPublic s) l (sessions s) (metrics s) (startedAt s).
Definition set_sessions (c : SessionCache) (s : Server) : Server :=
  mkServer (cfg s) (proxies s) (controlConns s) (cntStation s) (cntControl s)
    (cntPassenger s) (cntPublic s) (healthLimiter s) c (metrics s) (startedAt s).

(** ** Policy *)

(** pkg/rendezvous/server.go:199-217 [Server.EffectivePolicy] *)
Definition EffectivePolicy (s : Server) : HolepunchPolicy :=
  let p := cfg_Holepunch (cfg s) in
  mkHolepunch
    (if PrePunchCount p <=? 0 then 5 else PrePunchCount p)
    (if PrePunchIntervalMs p <=? 0 then 50 else PrePunchIntervalMs p)
    (if PreDialWaitMs p <=? 0 then 100 else PreDialWaitMs p)
    (if ReplyBurstCount p <=? 0 then 3 else ReplyBurstCount p)
    (if ReplyBurstIntervalMs p <=? 0 then 50 else ReplyBurstIntervalMs p).

Definition defaultProxyPurge : duration := 120 * second.

(** pkg/rendezvous/server.go:226-231 [Server.ProxyPurgeOrDefault] *)
Definition ProxyPurgeOrDefault (s : Server) : duration :=
  if 0 <? cfg_ProxyPurge (cfg s) then cfg_ProxyPurge (cfg s) else defaultProxyPurge.

(** pkg/rendezvous/server.go:252-261 [defaultPingInterval] *)
Definition defaultPingInterval (role : string) : duration :=
  if (role =s? "provider") || (role =s? "station") then 5 * second
  else if (role =s? "broker") || (role =s? "control") then 10 * second
  else 5 * second.

Definition minPingInterval : duration := 1 * second.
Definition maxPingInterval : duration := 60 * second.

(** The map read [m[k]] of a missing key is the zero duration. *)
Definition dur_at (m : gmap string duration) (k : string) : duration := default 0 (m !! k).

(** pkg/rendezvous/server.go:273-285 [Server.PingIntervalFor] *)
Definition PingIntervalFor (s : Server) (role : string) : duration :=
  let d := dur_at (cfg_PingIntervals (cfg s)) role in
  let d := if d <=? 0 then defaultPingInterval role else d in
  let d := if d <? minPingInterval then minPingInterval else d in
  if maxPingInterval <? d then maxPingInterval else d.

Definition defaultRegisterInterval : duration := 5 * minute.
Definition minRegisterInterval : duration := 30 * second.
Definition maxRegisterInterval : duration := 60 * minute.

(** pkg/rendezvous/server.go:300-312 [Server.RegisterIntervalFor] *)
Definition RegisterIntervalFor (s : Server) (role : string) : duration :=
  let d := dur_at (cfg_RegisterIntervals (cfg s)) role in
  let d := if d <=? 0 then defaultRegisterInterval else d in
  let d := if d <? minRegisterInterval then minRegisterInterval else d in
  if maxRegisterInterval <? d then maxRegisterInterval else d.

(** pkg/rendezvous/server.go:318-321 [Server.connStatusThresholds] *)
Definition connStatusThresholds (s : Server) (role : string) : duration * duration :=
  let base := PingIntervalFor s role in (wrap_i64 (base * 3), wrap_i64 (base * 5)).

(** pkg/rendezvous/server.go:325-335 [Server.computeConnStatus] *)
Definition computeConnStatus (s : Server) (role : string) (lastSeen now : time) : string :=
  let age := time_sub now lastSeen in
  let '(stale, offline) := connStatusThresholds s role in
  if offline <? age then "offline" else if stale <? age then "stale" else "alive".

Definition defaultHealthRateLimit : Z := 20.

(** pkg/rendezvous/server.go:1041-1043 [newHealthRateLimiter] *)
Definition newHealthRateLimiter (perSec : Z) : healthRateLimiter := mkLimiter perSec time_zero ∅.

(** pkg/rendezvous/server.go:337-346 [NewServer], with the operator's
    configuration already assigned. *)
Definition NewServer (c : ServerConfig) : Server :=
  mkServer c ∅ ∅ 0 0 0 0 (newHealthRateLimiter defaultHealthRateLimit) NewSessionCache ∅ time_zero.

(** ** Node ids and roles *)

Section ids.
Context {U : GoUnicode}.

(** pkg/rendezvous/session.go:85-90 [nodeKey] *)
Definition nodeKey (id : string) : string :=
  match index_byte id ":" with
  | Some i => to_upper (take_str i id) ++s ":" ++s to_lower (drop_str (S i) id)
  | None => to_lower id
  end.

(** pkg/rendezvous/server.go:351-361 [roleBucket] *)
Definition roleBucket (role : string) : string :=
  let r := to_lower role in
  if (r =s? "provider") || (r =s? "station") then "station"
  else if (r =s? "broker") || (r =s? "control") then "control"
  else if (r =s? "consumer") || (r =s? "passenger") then "passenger"
  else "".

(** pkg/rendezvous/server.go:367-379 [Server.countDelta], on Go's 64-bit [int]. *)
Definition countDelta (role authMode : string) (delta : Z) (s : Server) : Server :=
  let bump c := wrap_i64 (c + delta) in
  let set st co pa pu :=
    mkServer (cfg s) (proxies s) (controlConns s) st co pa pu
      (healthLimiter s) (sessions s) (metrics s) (startedAt s) in
  let b := roleBucket role in
  if b =s? "station" then
    set (bump (cntStation s)) (cntControl s) (cntPassenger s)
      (if equal_fold authMode "public" then bump (cntPublic s) else cntPublic s)
  else if b =s? "control" then
    set (cntStation s) (bump (cntControl s)) (cntPassenger s) (cntPublic s)
  else if b =s? "passenger" then
    set (cntStation s) (cntControl s) (bump (cntPassenger s)) (cntPublic s)
  else s.
End ids.

(** pkg/rendezvous/session.go:141-143 [metricKey] *)
Definition metricKey (nodeID serviceName : string) : string := nodeID.
