(* ===== verification/RvAuth.v ===== *)
(** * pkg/rendezvous: signatures, freshness and admission

    [verifyRegisterSignature] and [verifyPingSignature] (session.go), the
    admission check of protected mode and the parsing of auth.json
    (rv_auth.go).  Reading and JSON-decoding auth.json is the input
    [auth_file]. *)

From S2P Require Import Prelude GoStrings GoStringsFacts Strconv Hardware GoTime Auth Tunnel.
From S2P Require Import SessionCache RvTypes.
From Stdlib Require Import ZArith Lia ZifyBool Bool Ascii String.
From stdpp Require Import base option list gmap strings.

Open Scope go_scope.
Open Scope Z_scope.

(** The errors these functions build, one constructor each. *)
Inductive rv_error :=
  | ESignatureLength
  | ETimestampMissing
  | ETimestampSkew (ms : Z)
  | EInvalidNodeID (id : string)
  | EEcrecover
  | ESignerMismatch (recovered expected : string)
  | ECredRequired
  | ECredNoExpiry
  | ENodeAddr (id : string)
  | ECredExpired (issuer : string)
  | ENoIssuer.

(** [skew := now - ts; if skew < 0 { skew = -skew }] on int64. *)
Definition clock_skew (now ts : Z) : Z :=
  let skew := wrap_i64 (now - ts) in
  if skew <? 0 then wrap_i64 (- skew) else skew.

Section auth.
Context {U : GoUnicode} {H : Sha256} {E : EthCrypto} {J : HardwareJSON}.

(** pkg/rendezvous/session.go:93-102 [addrFromNodeID] *)
Definition addrFromNodeID (id : string) : result rv_error string :=
  let s := match index_str id ":" with Some i => drop_str (S i) id | None => id end in
  if negb (is_hex_address s) then Err (EInvalidNodeID id) else Ok (hex_to_address s).

(** The checks both verifiers make of the recovered signer. *)
Definition check_signer (digest sig expectedAddr : string) : result rv_error unit :=
  match sig_to_addr digest sig with
  | None => Err EEcrecover
  | Some recovered =>
      if negb (equal_fold recovered expectedAddr)
      then Err (ESignerMismatch (addr_hex recovered) (addr_hex expectedAddr))
      else Ok tt
  end.

(** pkg/rendezvous/session.go:42-73 [verifyRegisterSignature] *)
Definition verifyRegisterSignature (msg : RendezvousMsg) (hwHash : string) (now : time)
  : result rv_error unit :=
  if negb (String.length (m_Signature msg) =? 65)%nat then Err ESignatureLength
  else if m_TimestampMs msg =? 0 then Err ETimestampMissing
  else
    let skew := clock_skew (unix_milli now) (m_TimestampMs msg) in
    if 60000 <? skew then Err (ETimestampSkew skew)
    else
      let! expectedAddr := addrFromNodeID (m_ID msg) in
      let digest := RegisterDigest (m_ID msg) (m_CertHash msg) (m_Version msg) (m_BinHash msg)
                      (m_OwnerAddress msg) hwHash (m_TimestampMs msg) in
      check_signer digest (m_Signature msg) expectedAddr.

(** pkg/rendezvous/session.go:107-136 [verifyPingSignature] *)
Definition verifyPingSignature (msg : RendezvousMsg) (now : time) : result rv_error unit :=
  if negb (String.length (m_Signature msg) =? 65)%nat then Err ESignatureLength
  else if m_TimestampMs msg =? 0 then Err ETimestampMissing
  else
    let skew := clock_skew (unix_milli now) (m_TimestampMs msg) in
    if 60000 <? skew then Err (ETimestampSkew skew)
    else
      let! expectedAddr := addrFromNodeID (m_ID msg) in
      let digest := PingDigest (m_Role msg) (m_TimestampMs msg) in
      check_signer digest (m_Signature msg) expectedAddr.

(** pkg/rendezvous/rv_auth.go:111-111 [Server.modeProtected] *)
Definition modeProtected (s : Server) : bool := equal_fold (cfg_Mode (cfg s)) "protected".

(** One iteration of the loop over the two credential shapes: [None] is
    [continue], [Some r] a return. *)
Definition admit_attempt (s : Server) (msg : RendezvousMsg) (now : time) (a : string * bool)
  : option (result rv_error unit) :=
  let '(amsg, bound) := a in
  match RecoverAddress amsg (m_CredSig msg) with
  | Err _ => None
  | Ok issuer =>
      match cfg_Issuers (cfg s) !! to_lower issuer with
      | None => None
      | Some pol =>
          if bound && negb (allowsBound pol) then None
          else if negb bound && negb (allowsBearer pol) then None
          else if m_CredExpireMs msg <? unix_milli now then Some (Err (ECredExpired issuer))
          else Some (Ok tt)
      end
  end.

Fixpoint admit_loop (s : Server) (msg : RendezvousMsg) (now : time) (l : list (string * bool))
  : result rv_error unit :=
  match l with
  | [] => Err ENoIssuer
  | a :: l' => match admit_attempt s msg now a with
               | Some r => r
               | None => admit_loop s msg now l'
               end
  end.

(** pkg/rendezvous/rv_auth.go:128-175 [Server.admitRegister] *)
Definition admitRegister (s : Server) (msg : RendezvousMsg) (now : time) : result rv_error unit :=
  if m_CredSig msg =s? "" then Err ECredRequired
  else if m_CredExpireMs msg <=? 0 then Err ECredNoExpiry
  else match addrFromNodeID (m_ID msg) with
       | Err _ => Err (ENodeAddr (m_ID msg))
       | Ok addr =>
           admit_loop s msg now
             [ (CredentialMessage (addr_hex addr) (m_CredIssuedMs msg) (m_CredExpireMs msg), true);
               (CredentialMessage "" (m_CredIssuedMs msg) (m_CredExpireMs msg), false) ]
       end.

(** [err.Error()] of the errors [admitRegister] returns. *)
Definition admit_error_string (e : rv_error) : string :=
  match e with
  | ECredRequired => "admission credential required"
  | ECredNoExpiry => "admission credential has no expiry"
  | ENodeAddr id => "node addr: invalid node id " ++s go_quote id
  | ECredExpired issuer => "credential expired (issuer " ++s issuer ++s ")"
  | ENoIssuer => "no authorized issuer credential (unknown issuer or wrong bind)"
  | _ => ""
  end.

(** ** auth.json *)

(** pkg/rendezvous/rv_auth.go:42-49 [rvIssuer] *)
Record rvIssuer := mkIssuer { is_Address : string; is_Bind : string }.
(** pkg/rendezvous/rv_auth.go:37-40 [rvAuthFile] *)
Record rvAuthFile := mkAuthFile { f_Mode : string; f_Issuers : list rvIssuer }.

(** What reading the file next to the config gives. *)
Inductive auth_file :=
  | AuthNotExist
  | AuthReadError
  | AuthBadJSON
  | AuthFile (f : rvAuthFile).

Inductive load_error :=
  | LRead | LParse | LInvalidMode (mode : string) | LInvalidBind (addr bind : string) | LNoIssuers.

(** The issuer loop: the map built so far and the error that stopped it. *)
Fixpoint load_issuers (l : list rvIssuer) (issuers : gmap string IssuerPolicy)
  : gmap string IssuerPolicy * option load_error :=
  match l with
  | [] => (issuers, None)
  | iss :: l' =>
      let addr := to_lower (trim_space (is_Address iss)) in
      if addr =s? "" then load_issuers l' issuers
      else
        let bind := to_lower (trim_space (is_Bind iss)) in
        let bind := if bind =s? "" then "node"%string else bind in
        if negb (bind =s? "node") && negb (bind =s? "none") && negb (bind =s? "any")
        then (issuers, Some (LInvalidBind addr (is_Bind iss)))
        else load_issuers l' (<[addr := mkPolicy bind]> issuers)
  end.

(** pkg/rendezvous/rv_auth.go:63-108 [LoadRVAuth] *)
Definition LoadRVAuth (configPath : string) (file : auth_file)
  : string * gmap string IssuerPolicy * option load_error :=
  if configPath =s? "" then ("public"%string, ∅, None)
  else
    match file with
    | AuthNotExist => ("public"%string, ∅, None)
    | AuthReadError => ("public"%string, ∅, Some LRead)
    | AuthBadJSON => ("public"%string, ∅, Some LParse)
    | AuthFile f =>
        let mode := to_lower (trim_space (f_Mode f)) in
        let mode := if (mode =s? "") || (mode =s? "open") then "public"%string else mode in
        if negb (mode =s? "public") && negb (mode =s? "protected")
        then (mode, ∅, Some (LInvalidMode (f_Mode f)))
        else
          let '(issuers, err) := load_issuers (f_Issuers f) ∅ in
          match err with
          | Some e => (mode, issuers, Some e)
          | None => if (mode =s? "protected") && bool_decide (issuers = ∅)
                    then (mode, issuers, Some LNoIssuers)
                    else (mode, issuers, None)
          end
    end.
End auth.

(** ** Freshness *)

Lemma unix_milli_bounds t : in_i64 (unix_milli t).
Proof. unfold unix_milli. apply wrap_i64_bounds. Qed.

(** Clock readings up to the year 146 million. *)
Definition max_clock : Z := 4611686018427387904.

(** The window check, exactly: besides the intended ±60 s there is one more
    accepted instant, where the int64 difference is its own negation. *)
Lemma clock_skew_spec now ts :
  0 ≤ now ≤ max_clock → in_i64 ts →
  (clock_skew now ts ≤ 60000 ↔ Z.abs (now - ts) ≤ 60000 ∨ ts = now - 9223372036854775808).
Proof.
  intros Hn Ht. unfold clock_skew.
  destruct (wrap_i64_spec (now - ts)) as (k & Hk & Bk).
  destruct (wrap_i64_spec (- wrap_i64 (now - ts))) as (j & Hj & Bj).
  unfold in_i64, max_i64, min_i64, max_clock in *. case_if; lia.
Qed.

(** ** Lemmas *)

Section lemmas.
Context {U : GoUnicode} {H : Sha256} {E : EthCrypto} {J : HardwareJSON}.

Lemma check_signer_ok digest sig a :
  check_signer digest sig a = Ok tt ↔
  ∃ r, sig_to_addr digest sig = Some r ∧ equal_fold r a = true.
Proof.
  unfold check_signer. destruct (sig_to_addr digest sig) as [r|].
  - destruct (equal_fold r a) eqn:Ef; simpl; split; try done; [by exists r|].
    intros (r' & [= <-] & Hr). congruence.
  - split; [done|]. by intros (r & ? & _).
Qed.

Lemma admit_attempt_ok s msg now amsg bound :
  admit_attempt s msg now (amsg, bound) = Some (Ok tt) ↔
  ∃ issuer pol, RecoverAddress amsg (m_CredSig msg) = Ok issuer ∧
    cfg_Issuers (cfg s) !! to_lower issuer = Some pol ∧
    (if bound then allowsBound pol else allowsBearer pol) = true ∧
    unix_milli now ≤ m_CredExpireMs msg.
Proof.
  unfold admit_attempt. destruct (RecoverAddress amsg _) as [issuer|e];
    [|split; [done|by intros (? & ? & ? & _)]].
  destruct (cfg_Issuers (cfg s) !! to_lower issuer) as [pol|] eqn:Ep;
    [|split; [done|intros (? & ? & [= <-] & ? & _); congruence]].
  split.
  - intros Hr. exists issuer, pol. destruct bound; simpl in Hr; repeat case_if; by try split_and!.
  - intros (i & q & [= <-] & Hq & Ha & Ht). rewrite Ep in Hq. injection Hq as <-.
    destruct bound; rewrite Ha; simpl; (destruct (_ <? _) eqn:El; [lia|done]).
Qed.

(** An attempt that ends the loop with an error does so because of expiry. *)
Lemma admit_attempt_err s msg now a e :
  admit_attempt s msg now a = Some (Err e) → m_CredExpireMs msg < unix_milli now.
Proof.
  destruct a as [amsg bound]. unfold admit_attempt.
  destruct (RecoverAddress amsg _); [|done]. destruct (_ !! _); [|done].
  repeat case_if; done.
Qed.

Lemma load_issuers_inv (P : string → IssuerPolicy → Prop) l m m' err :
  (∀ x bind, x ∈ l →
     bind = "node"%string ∨ bind = "none"%string ∨ bind = "any"%string →
     to_lower (trim_space (is_Address x)) ≠ ""%string →
     P (to_lower (trim_space (is_Address x))) (mkPolicy bind)) →
  map_Forall P m → load_issuers l m = (m', err) → map_Forall P m'.
Proof.
  revert m. induction l as [|x l IH]; intros m HP Hm; simpl; [by intros [= <- <-]|].
  assert (Htl : ∀ y bind, y ∈ l → bind = "node"%string ∨ bind = "none"%string ∨ bind = "any"%string →
    to_lower (trim_space (is_Address y)) ≠ ""%string →
    P (to_lower (trim_space (is_Address y))) (mkPolicy bind)) by (intros; apply HP; [by right|done..]).
  destruct (to_lower _ =s? "") eqn:Ea; [by apply IH|]. breflect Ea.
  set (b := if to_lower (trim_space (is_Bind x)) =s? "" then _ else _).
  destruct (_ && _) eqn:Eb; [by intros [= <- <-]|].
  apply IH; [done|]. apply map_Forall_insert_2; [|done].
  apply HP; [by left| |done].
  destruct (String.eqb_spec b "node"); [by left|].
  destruct (String.eqb_spec b "none"); [by right; left|].
  destruct (String.eqb_spec b "any"); [by right; right|done].
Qed.

Lemma load_issuers_nonempty l m m' err :
  load_issuers l m = (m', err) → m ≠ ∅ → m' ≠ ∅.
Proof.
  revert m. induction l as [|x l IH]; intros m; simpl; [by intros [= <- <-]|].
  case_if; [by apply IH|]. case_if; [by intros [= <- <-]|].
  intros Hl Hm. eapply IH; [exact Hl|]. apply insert_non_empty.
Qed.
End lemmas.

(** ** Theorems *)

Section theorems.
Context {U : GoUnicode} {H : Sha256} {E : EthCrypto} {J : HardwareJSON}.

(** What an accepted frame has proved: a 65-byte signature over [digest] by the
    address inside the node id, with a fresh timestamp. *)
Definition signed_by_id (digest : string) (msg : RendezvousMsg) : Prop :=
  String.length (m_Signature msg) = 65%nat ∧
  ∃ expected signer, addrFromNodeID (m_ID msg) = Ok expected ∧
    sig_to_addr digest (m_Signature msg) = Some signer ∧ equal_fold signer expected = true.

Definition fresh (now ts : Z) : Prop :=
  ts ≠ 0 ∧ (Z.abs (now - ts) ≤ 60000 ∨ ts = now - 9223372036854775808).

(** Both verifiers are this check over their digest. *)
Lemma verify_shape digest msg now :
  0 ≤ unix_milli now ≤ max_clock → in_i64 (m_TimestampMs msg) →
  (if negb (String.length (m_Signature msg) =? 65)%nat then Err ESignatureLength
   else if m_TimestampMs msg =? 0 then Err ETimestampMissing
   else if 60000 <? clock_skew (unix_milli now) (m_TimestampMs msg)
   then Err (ETimestampSkew (clock_skew (unix_milli now) (m_TimestampMs msg)))
   else let! expectedAddr := addrFromNodeID (m_ID msg) in
        check_signer digest (m_Signature msg) expectedAddr) = Ok tt
  ↔ fresh (unix_milli now) (m_TimestampMs msg) ∧ signed_by_id digest msg.
Proof.
  intros Hn Ht. pose proof (clock_skew_spec _ _ Hn Ht) as Hs.
  unfold fresh, signed_by_id. split.
  - intros Hv. case_if; [done|]. case_if; [done|]. case_if; [done|].
    breflect_all. inv_bind Hv. apply check_signer_ok in Hv as (r & Hr & Hf).
    split; [split; [done|by apply Hs]|]. split; [done|]. by exists v, r.
  - intros [[Hne Hsk%Hs] (Hl & x & r & Hx & Hr & Hf)].
    rewrite Hl, Hx. cbn [Nat.eqb negb]. rewrite (proj2 (Z.eqb_neq _ _) Hne).
    rewrite (proj2 (Z.ltb_ge _ _) Hsk). simpl. apply check_signer_ok. by exists r.
Qed.

(** a FullSync register passes verification exactly when it carries a
    65-byte signature over the register digest that recovers to the address in
    its node id, with a non-zero timestamp within 60 s of the server's clock -
    or at the single instant 2^63 ms before it, where the int64 difference
    overflows. *)
Theorem verify_register_iff msg hwHash now :
  0 ≤ unix_milli now ≤ max_clock → in_i64 (m_TimestampMs msg) →
  verifyRegisterSignature msg hwHash now = Ok tt ↔
  fresh (unix_milli now) (m_TimestampMs msg) ∧
  signed_by_id (RegisterDigest (m_ID msg) (m_CertHash msg) (m_Version msg) (m_BinHash msg)
                  (m_OwnerAddress msg) hwHash (m_TimestampMs msg)) msg.
Proof. intros Hn Ht. by rewrite <-verify_shape. Qed.

(** C20: a protected-mode register is admitted exactly when it carries a
    credential with a positive, unexpired expiry whose node-bound form was
    signed by a listed issuer allowed to bind, or whose bearer form was signed
    by a listed issuer allowed to issue bearer credentials. *)
Theorem admit_register_iff s msg now :
  admitRegister s msg now = Ok tt ↔
  m_CredSig msg ≠ ""%string ∧ 0 < m_CredExpireMs msg ∧
  unix_milli now ≤ m_CredExpireMs msg ∧
  ∃ addr, addrFromNodeID (m_ID msg) = Ok addr ∧
  ∃ (bound : bool) issuer pol,
    RecoverAddress
      (CredentialMessage (if bound then addr_hex addr else ""%string)
         (m_CredIssuedMs msg) (m_CredExpireMs msg)) (m_CredSig msg) = Ok issuer ∧
    cfg_Issuers (cfg s) !! to_lower issuer = Some pol ∧
    (if bound then allowsBound pol else allowsBearer pol) = true.
Proof.
  unfold admitRegister. split.
  - intros Ha. case_if; [done|]. case_if; [done|].
    destruct (addrFromNodeID (m_ID msg)) as [addr|] eqn:Eaddr; [|done].
    cbn [admit_loop] in Ha.
    destruct (admit_attempt s msg now (_, true)) as [[[]|e]|] eqn:E1; [| done |].
    + apply admit_attempt_ok in E1 as (i & pol & Hr & Hp & Hb & Ht).
      split_and!; [done..|]. exists addr; split; [done|]. by exists true, i, pol.
    + destruct (admit_attempt s msg now (_, false)) as [[[]|e]|] eqn:E2; [|done|done].
      apply admit_attempt_ok in E2 as (i & pol & Hr & Hp & Hb & Ht).
      split_and!; [done..|]. exists addr; split; [done|]. by exists false, i, pol.
  - intros (Hs & He & Ht & addr & Ha & bound & i & pol & Hr & Hp & Hb).
    rewrite (proj2 (String.eqb_neq _ _) Hs), (proj2 (Z.leb_gt _ _) He), Ha.
    cbn [admit_loop].
    assert (Hno : ∀ a e, admit_attempt s msg now a ≠ Some (Err e))
      by (intros a e Hx%admit_attempt_err; lia).
    destruct (admit_attempt s msg now (_, true)) as [[[]|e]|] eqn:E1;
      [done | by destruct (Hno _ _ E1) |].
    destruct bound.
    + assert (admit_attempt s msg now (CredentialMessage (addr_hex addr) (m_CredIssuedMs msg)
        (m_CredExpireMs msg), true) = Some (Ok tt)) as Hx; [|congruence].
      apply admit_attempt_ok. by exists i, pol.
    + assert (admit_attempt s msg now (CredentialMessage "" (m_CredIssuedMs msg)
        (m_CredExpireMs msg), false) = Some (Ok tt)) as ->; [|done].
      apply admit_attempt_ok. by exists i, pol.
Qed.

(** the ping signature does not bind the role prefix of the node id: a ping
    accepted for one id is accepted for every id with the same address, so one
    signed ping refreshes both the P: and the B: entry of a wallet. *)
Theorem ping_role_not_bound msg id' now :
  addrFromNodeID id' = addrFromNodeID (m_ID msg) →
  verifyPingSignature (set_msg_ID id' msg) now = verifyPingSignature msg now.
Proof. intros Hid. unfold verifyPingSignature. simpl. by rewrite Hid. Qed.

(** a configuration that loads without error is usable: the mode is public
    or protected, every issuer key is a non-empty lower-cased address with one
    of the three bind shapes, and protected mode has at least one issuer. *)
Theorem load_rv_auth_wf {L : GoUnicodeLaws U} path file mode issuers :
  LoadRVAuth path file = (mode, issuers, None) →
  (mode = "public"%string ∨ mode = "protected"%string) ∧
  map_Forall (λ k pol, k ≠ ""%string ∧ to_lower k = k ∧
                (allowsBound pol || allowsBearer pol) = true) issuers ∧
  (mode = "protected"%string → issuers ≠ ∅).
Proof.
  unfold LoadRVAuth. case_if.
  { intros [= <- <-]. split_and!; [by left|apply map_Forall_empty|done]. }
  destruct file as [| | |f]; try done.
  { intros [= <- <-]. split_and!; [by left|apply map_Forall_empty|done]. }
  set (md := if _ || _ then _ else _).
  destruct (negb (md =s? "public") && _) eqn:Emd; [done|].
  destruct (load_issuers (f_Issuers f) ∅) as [is' err] eqn:El.
  destruct err; [done|]. clearbody md.
  destruct ((md =s? "protected") && bool_decide (is' = ∅)) eqn:Ep; [done|]. intros [= <- <-].
  split_and!.
  - destruct (String.eqb_spec md "public"); [by left|].
    destruct (String.eqb_spec md "protected"); [by right|done].
  - eapply load_issuers_inv; [|apply map_Forall_empty|exact El].
    intros x bind _ Hb Hne. split_and!; [done|by apply to_lower_idem|].
    by destruct Hb as [-> | [-> | ->]].
  - intros Hm. rewrite Hm in Ep. simpl in Ep. by apply bool_decide_eq_false in Ep.
Qed.
End theorems.

(** ** Witnesses *)

Definition toy_sha : Sha256 := {| sha256 := λ s, s |}.
Definition toy_json : HardwareJSON := {| marshal_hardware := λ _, Some "{}"%string |}.
Definition demo_addr : string := be_bytes 20 7.
Definition demo_id : string := "P:0x" ++s hex_encode demo_addr.
Definition demo_sig : string := demo_addr ++s be_bytes 45 0.

Definition demo_register : RendezvousMsg :=
  mkMsg 1 "register" "provider" demo_id "" "" [] "" 0 0 0 0 0 "" "" "" "" "public" None None 0 true false
        "" "" "" "" "" false demo_sig 1700000000000 "" "" 0 (hex_encode demo_sig) 5 1700000001000
        0 0 "" "" None None [].
Definition demo_now : time := 1700000000500 * millisecond.
Definition demo_config : ServerConfig :=
  mkConfig 0 ∅ ∅ "protected" {[ addr_hex (EthCrypto:=toy_eth) demo_addr := mkPolicy "node" ]}
    (mkHolepunch 0 0 0 0 0).

Lemma verify_register_iff_witness :
  @verifyRegisterSignature ascii_tables toy_sha toy_eth demo_register "" demo_now = Ok tt ↔
  fresh (unix_milli demo_now) (m_TimestampMs demo_register) ∧
  @signed_by_id ascii_tables toy_eth
    (@RegisterDigest toy_sha demo_id "" "" "" "" "" 1700000000000) demo_register.
Proof.
  apply (@verify_register_iff ascii_tables toy_sha toy_eth); [|solve_i64].
  split; vm_compute; discriminate.
Defined.

Lemma ping_role_not_bound_witness :
  let P := @verifyPingSignature ascii_tables toy_sha toy_eth in
  P (set_msg_ID ("B:0x" ++s hex_encode demo_addr) demo_register) demo_now = P demo_register demo_now.
Proof. apply (@ping_role_not_bound ascii_tables toy_sha toy_eth). reflexivity. Defined.

Lemma load_rv_auth_wf_witness :
  let f := AuthFile (mkAuthFile " Protected " [mkIssuer " 0xAB " ""]) in
  let issuers := {[ "0xab"%string := mkPolicy "node" ]} in
  @LoadRVAuth ascii_tables "rendezvous.json" f = ("protected"%string, issuers, None) ∧
  ("protected" = "public" ∨ "protected" = "protected")%string ∧
  map_Forall (λ k pol, k ≠ ""%string ∧ @to_lower ascii_tables k = k ∧
                (allowsBound pol || allowsBearer pol) = true) issuers ∧
  ("protected"%string = "protected"%string → issuers ≠ ∅).
Proof.
  split; [reflexivity|].
  apply (@load_rv_auth_wf ascii_tables ascii_tables_laws "rendezvous.json"
           (AuthFile (mkAuthFile " Protected " [mkIssuer " 0xAB " ""]))). reflexivity.
Defined.

(** The hypotheses of admission are met by a concrete protected server. *)
Example demo_admitted :
  @admitRegister ascii_tables toy_eth (NewServer demo_config) demo_register demo_now = Ok tt.
Proof. vm_compute. reflexivity. Qed.
Example demo_verified :
  @verifyRegisterSignature ascii_tables toy_sha toy_eth demo_register "" demo_now = Ok tt.
Proof. vm_compute. reflexivity. Qed.
