(* ===== verification/RvCommand.v ===== *)
(** * cmd/rendezvous: from the configuration file to a running server

    The JSON-facing configuration, its translation into the server's policy, the
    start-up sequence of [main] over the file system of [HostFS] (certificate
    generation included) and the listeners of [Server.Run].  The theorems: every
    configuration gives the old and the new role names the same cadence, within
    the bounds; a server that starts has a control and a punch socket on one
    address, never serves REST in the clear when TLS is on, and is public or has
    usable issuers. *)

From S2P Require Import Prelude GoStrings GoStringsFacts Strconv Hardware GoAny GoPath HostFS.
From S2P Require Import Auth Tunnel Base64 CertGen NodeConfig GoTime SessionCache RvTypes RvAuth.
From Stdlib Require Import ZArith Lia ZifyBool Bool Ascii String.
From stdpp Require Import base option list gmap strings.

Open Scope go_scope.
Open Scope Z_scope.

(** ** The configuration file *)

(** cmd/rendezvous/main.go:15-19 [tlsConfig] *)
Record tlsConfig := mkTls { tls_Enabled : bool; tls_Cert : string; tls_Key : string }.

(** cmd/rendezvous/main.go:25-31 [pingIntervalConfig] *)
Record pingIntervalConfig := mkPingInt { pi_Station : Z; pi_Control : Z; pi_Provider : Z; pi_Broker : Z }.

(** cmd/rendezvous/main.go:38-44 [registerIntervalConfig] *)
Record registerIntervalConfig := mkRegInt { ri_Station : Z; ri_Control : Z; ri_Provider : Z; ri_Broker : Z }.

(** cmd/rendezvous/main.go:50-55 [firstNonZero] *)
Definition firstNonZero (a b : Z) : Z := if negb (a =? 0) then a else b.

(** cmd/rendezvous/main.go:33-33 [pingIntervalConfig.station] *)
Definition ping_station (p : pingIntervalConfig) : Z := firstNonZero (pi_Station p) (pi_Provider p).
(** cmd/rendezvous/main.go:34-34 [pingIntervalConfig.control] *)
Definition ping_control (p : pingIntervalConfig) : Z := firstNonZero (pi_Control p) (pi_Broker p).
(** cmd/rendezvous/main.go:46-46 [registerIntervalConfig.station] *)
Definition register_station (r : registerIntervalConfig) : Z := firstNonZero (ri_Station r) (ri_Provider r).
(** cmd/rendezvous/main.go:47-47 [registerIntervalConfig.control] *)
Definition register_control (r : registerIntervalConfig) : Z := firstNonZero (ri_Control r) (ri_Broker r).

(** cmd/rendezvous/main.go:69-83 [advancedConfig]: the punch policy has the
    fields of [HolepunchPolicy]. *)
Record advancedConfig := mkAdv {
  av_ProxyPurgeSec : Z; av_PingInterval : pingIntervalConfig;
  av_RegisterInterval : registerIntervalConfig; av_Holepunch : HolepunchPolicy
}.

(** cmd/rendezvous/main.go:85-99 [config]: the log block is read and ignored. *)
Record rv_config := mkRvCfg {
  rc_Addr : string; rc_TLS : tlsConfig; rc_UnifiedAddr : string; rc_RESTAddr : string;
  rc_Advanced : advancedConfig
}.

Definition zero_config : rv_config :=
  mkRvCfg "" (mkTls false "" "") "" "" (mkAdv 0 (mkPingInt 0 0 0 0) (mkRegInt 0 0 0 0) (mkHolepunch 0 0 0 0 0)).

(** cmd/rendezvous/main.go:165-186 [main part]: one interval map, under the new
    and the old names of both roles. *)
Definition interval_map (station control : Z) : gmap string duration :=
  let m : gmap string duration := ∅ in
  let m := if 0 <? station
           then let d := wrap_i64 (station * second) in <["provider"%string := d]> (<["station"%string := d]> m)
           else m in
  if 0 <? control
  then let d := wrap_i64 (control * second) in <["broker"%string := d]> (<["control"%string := d]> m)
  else m.

(** cmd/rendezvous/main.go:157-193 [main part]: the server's policy. *)
Definition server_config (cfg : rv_config) (mode : string) (issuers : gmap string IssuerPolicy) : ServerConfig :=
  let a := rc_Advanced cfg in
  mkConfig (if 0 <? av_ProxyPurgeSec a then wrap_i64 (av_ProxyPurgeSec a * second) else 0)
    (interval_map (ping_station (av_PingInterval a)) (ping_control (av_PingInterval a)))
    (interval_map (register_station (av_RegisterInterval a)) (register_control (av_RegisterInterval a)))
    mode issuers (av_Holepunch a).

(** ** Start-up *)

(** [json.Unmarshal] into [config] and [rvAuthFile]. *)
Class RvConfigJSON := {
  rv_dec : string → option rv_config;
  rv_auth_dec : string → option rvAuthFile
}.

Inductive fatal := FConfigRead | FConfigParse | FCert (e : cert_err) | FAuth (e : load_error).

(** A server about to run: its state and the fields only [Run] reads. *)
Record started := mkStarted {
  st_Server : Server; st_TLS : tlsConfig; st_UnifiedAddr : string; st_RESTAddr : string
}.

Section command.
Context {U : GoUnicode} {J : RvConfigJSON} (W : loc → bool) (cwd : loc) (now : Z).

(** cmd/rendezvous/main.go:105-119 [main part] *)
Definition read_config (configPath : string) (fs : hostfs) : result fatal rv_config :=
  let! cfg := (if configPath =s? "" then Ok zero_config
               else match ReadFile (resolve cwd configPath) fs with
                    | ReadOk data => match rv_dec data with None => Err FConfigParse | Some c => Ok c end
                    | _ => Err FConfigRead
                    end) in
  Ok (if rc_UnifiedAddr cfg =s? ""
      then mkRvCfg (rc_Addr cfg) (rc_TLS cfg) ":9100" (rc_RESTAddr cfg) (rc_Advanced cfg) else cfg).

(** pkg/rendezvous/rv_auth.go:69-80 [LoadRVAuth part]: the file next to the
    configuration. *)
Definition auth_beside (configPath : string) (fs : hostfs) : auth_file :=
  match ReadFile (resolve cwd (path_join2 (path_dirname configPath) "auth.json")) fs with
  | ReadMissing => AuthNotExist
  | ReadError => AuthReadError
  | ReadOk data => match rv_auth_dec data with None => AuthBadJSON | Some f => AuthFile f end
  end.

(** cmd/rendezvous/main.go:101-205 [main]: up to the call of [Run]; the log
    files are not part of the file system here. *)
Definition main (g : keygen) (configPath : string) (fs : hostfs) : result fatal started * hostfs :=
  match read_config configPath fs with
  | Err e => (Err e, fs)
  | Ok cfg =>
      let tls := rc_TLS cfg in
      let '(r, fs) := if tls_Enabled tls then EnsureSelfSigned W cwd now g (tls_Cert tls) (tls_Key tls) fs
                      else (Ok (), fs) in
      match r with
      | Err e => (Err (FCert e), fs)
      | Ok _ =>
          let '(mode, issuers, err) := LoadRVAuth configPath (auth_beside configPath fs) in
          match err with
          | Some e => (Err (FAuth e), fs)
          | None => (Ok (mkStarted (NewServer (server_config cfg mode issuers)) tls
                           (rc_UnifiedAddr cfg) (rc_RESTAddr cfg)), fs)
          end
      end
  end.
End command.

Inductive listener :=
  | LRestTLS (addr cert key : string)
  | LRest (addr : string)
  | LPunchUDP (addr : string)
  | LControlTCP (addr : string).

(** pkg/rendezvous/server.go:381-454 [Server.Run]: the listeners it starts, in
    order, and the start time; [None] is the missing address. *)
Definition Run_server (now : time) (st : started) : option (Server * list listener) :=
  if st_UnifiedAddr st =s? "" then None
  else
    let s := st_Server st in let tls := st_TLS st in
    let rest := if negb (st_RESTAddr st =s? "")
                then if tls_Enabled tls && negb (tls_Cert tls =s? "") && negb (tls_Key tls =s? "")
                     then [LRestTLS (st_RESTAddr st) (tls_Cert tls) (tls_Key tls)]
                     else [LRest (st_RESTAddr st)]
                else [] in
    Some (mkServer (cfg s) (proxies s) (controlConns s) (cntStation s) (cntControl s) (cntPassenger s)
            (cntPublic s) (healthLimiter s) (sessions s) (metrics s) now,
          rest ++ [LPunchUDP (st_UnifiedAddr st); LControlTCP (st_UnifiedAddr st)]).

(** ** Policy *)

(** The cadence an operator's [v] seconds stand for: the default when unset (or
    too large for a duration), brought within the bounds. *)
Definition dictated (v dflt lo hi : duration) : duration :=
  let d := wrap_i64 (v * second) in
  Z.min hi (Z.max lo (if (0 <? v) && (0 <? d) then d else dflt)).

Lemma bounded_is_clamp d lo hi : lo ≤ hi →
  (let d := if d <? lo then lo else d in if hi <? d then hi else d) = Z.min hi (Z.max lo d).
Proof. intros H. cbn zeta. repeat case_if; lia. Qed.

Lemma interval_map_station st c k : k = "station"%string ∨ k = "provider"%string →
  dur_at (interval_map st c) k = if 0 <? st then wrap_i64 (st * second) else 0.
Proof.
  intros Hk. unfold dur_at, interval_map.
  destruct Hk as [-> | ->]; repeat case_if; rewrite ?lookup_insert_ne, ?lookup_insert_eq by done;
    rewrite ?lookup_insert_ne, ?lookup_insert_eq, ?lookup_empty by done; done.
Qed.

Lemma interval_map_control st c k : k = "control"%string ∨ k = "broker"%string →
  dur_at (interval_map st c) k = if 0 <? c then wrap_i64 (c * second) else 0.
Proof.
  intros Hk. unfold dur_at, interval_map.
  destruct Hk as [-> | ->]; repeat case_if;
    repeat first [rewrite lookup_insert_eq | rewrite lookup_insert_ne by done]; try done; by rewrite lookup_empty.
Qed.

Lemma dictated_spec v dflt lo hi : lo ≤ hi →
  (let d := if 0 <? v then wrap_i64 (v * second) else 0 in
   let d := if d <=? 0 then dflt else d in
   let d := if d <? lo then lo else d in if hi <? d then hi else d) = dictated v dflt lo hi.
Proof.
  intros H. cbn zeta. rewrite (bounded_is_clamp _ lo hi H). unfold dictated.
  generalize (wrap_i64 (v * second)). intros d.
  assert ((if (if 0 <? v then d else 0) <=? 0 then dflt else (if 0 <? v then d else 0))
          = if (0 <? v) && (0 <? d) then d else dflt) as ->; [|done].
  destruct (0 <? v); cbn [andb]; [|done]. destruct (Z.leb_spec d 0), (Z.ltb_spec 0 d); (done || lia).
Qed.

(** What an operator writes is what the nodes are told. For every
    configuration, the old and the new name of a role get the same ping and
    register cadence; it is the new setting if given, else the legacy one, else
    the default, brought within 1–60 s and 30 s–60 min; and a node is reported
    stale strictly before it is reported offline. *)
Theorem cadence_dictated cfg mode issuers k :
  let s := NewServer (server_config cfg mode issuers) in
  let p := av_PingInterval (rc_Advanced cfg) in let r := av_RegisterInterval (rc_Advanced cfg) in
  (k = "station"%string ∨ k = "provider"%string →
   PingIntervalFor s k = dictated (firstNonZero (pi_Station p) (pi_Provider p))
                           (5 * second) second (60 * second) ∧
   RegisterIntervalFor s k = dictated (firstNonZero (ri_Station r) (ri_Provider r))
                               (5 * minute) (30 * second) (60 * minute)) ∧
  (k = "control"%string ∨ k = "broker"%string →
   PingIntervalFor s k = dictated (firstNonZero (pi_Control p) (pi_Broker p))
                           (10 * second) second (60 * second) ∧
   RegisterIntervalFor s k = dictated (firstNonZero (ri_Control r) (ri_Broker r))
                               (5 * minute) (30 * second) (60 * minute)) ∧
  let '(stale, offline) := connStatusThresholds s k in 0 < stale < offline.
Proof.
  intros s p r. split; [|split].
  - intros Hk. unfold PingIntervalFor, RegisterIntervalFor. cbn [s NewServer RvTypes.cfg server_config
      cfg_PingIntervals cfg_RegisterIntervals]. rewrite !interval_map_station by done.
    assert (defaultPingInterval k = 5 * second) as -> by (by destruct Hk as [-> | ->]).
    split; apply dictated_spec; done.
  - intros Hk. unfold PingIntervalFor, RegisterIntervalFor. cbn [s NewServer RvTypes.cfg server_config
      cfg_PingIntervals cfg_RegisterIntervals]. rewrite !interval_map_control by done.
    assert (defaultPingInterval k = 10 * second) as -> by (by destruct Hk as [-> | ->]).
    split; apply dictated_spec; done.
  - unfold connStatusThresholds, PingIntervalFor. cbn zeta. rewrite bounded_is_clamp by done.
    set (d := if _ <=? 0 then _ else _). clearbody d.
    assert (second ≤ Z.min maxPingInterval (Z.max minPingInterval d) ≤ 60 * second) as Hb
      by (unfold maxPingInterval, minPingInterval, second; lia).
    set (b := Z.min _ _) in *. clearbody b. unfold second in Hb.
    rewrite !wrap_i64_id by (unfold in_i64, min_i64, max_i64; lia). lia.
Qed.

(** ** A started server *)

Section start.
Context {U : GoUnicode} {L : GoUnicodeLaws U} {J : RvConfigJSON} (W : loc → bool) (cwd : loc) (now : Z).

Lemma read_config_addr path fs cfg : read_config cwd path fs = Ok cfg → rc_UnifiedAddr cfg ≠ ""%string.
Proof.
  unfold read_config. intros H. apply res_bind_Ok_inv in H as (c & _ & H). injection H as <-.
  destruct (String.eqb_spec (rc_UnifiedAddr c) ""); done.
Qed.

Lemma main_inv g path fs st fs' :
  main W cwd now g path fs = (Ok st, fs') →
  ∃ cfg mode issuers, read_config cwd path fs = Ok cfg ∧
    (tls_Enabled (rc_TLS cfg) = true →
     EnsureSelfSigned W cwd now g (tls_Cert (rc_TLS cfg)) (tls_Key (rc_TLS cfg)) fs = (Ok (), fs')) ∧
    LoadRVAuth path (auth_beside cwd path fs') = (mode, issuers, None) ∧
    st = mkStarted (NewServer (server_config cfg mode issuers)) (rc_TLS cfg) (rc_UnifiedAddr cfg) (rc_RESTAddr cfg).
Proof.
  unfold main. destruct (read_config cwd path fs) as [cfg|]; [|done].
  destruct (if tls_Enabled (rc_TLS cfg) then _ else _) as [[[]|] fs1] eqn:Et; [|done].
  destruct (LoadRVAuth path (auth_beside cwd path fs1)) as [[mode issuers] [e|]] eqn:El; [done|].
  intros [= <- <-]. exists cfg, mode, issuers. split_and!; try done. intros Ht. by rewrite Ht in Et.
Qed.

(** What a started server offers. If the command gets to [Run], then [Run]
    does not fail for want of an address, the control socket and the punch socket
    are on one address, REST is served only if configured and never in the clear
    when TLS is on (both files of the pair are then in place, non-empty), the
    mode is public or protected, every issuer has a usable binding, and a
    protected server has an issuer; the roster is empty. *)
Theorem started_secure g path fs st fs' t :
  main W cwd now g path fs = (Ok st, fs') →
  ∃ s rest a, Run_server t st = Some (s, rest ++ [LPunchUDP a; LControlTCP a]) ∧ a ≠ ""%string ∧
    Forall (λ l, match l with
                 | LRestTLS addr c k => addr ≠ ""%string ∧ tls_Enabled (st_TLS st) = true ∧
                     fileExists cwd c fs' = true ∧ fileExists cwd k fs' = true
                 | LRest addr => addr ≠ ""%string ∧ tls_Enabled (st_TLS st) = false
                 | _ => False end) rest ∧
    (cfg_Mode (cfg s) = "public"%string ∨ cfg_Mode (cfg s) = "protected"%string) ∧
    map_Forall (λ _ pol, (allowsBound pol || allowsBearer pol) = true) (cfg_Issuers (cfg s)) ∧
    (cfg_Mode (cfg s) = "protected"%string → cfg_Issuers (cfg s) ≠ ∅) ∧
    proxies s = ∅ ∧ startedAt s = t.
Proof.
  intros (c & mode & issuers & Hc & Ht & Hl & ->)%main_inv.
  pose proof (read_config_addr _ _ _ Hc) as Ha. apply load_rv_auth_wf in Hl as (Hm & Hi & Hp).
  unfold Run_server. cbn [st_UnifiedAddr st_TLS st_RESTAddr st_Server].
  rewrite (proj2 (String.eqb_neq _ _) Ha). eexists _, _, _. split; [done|]. split; [done|].
  split_and!; try done; [|by eapply map_Forall_impl; [exact Hi|]; intros ?? (_ & _ & ?)].
  destruct (String.eqb_spec (rc_RESTAddr c) "") as [|Hr]; cbn [negb]; [done|].
  destruct (tls_Enabled (rc_TLS c)); cbn [andb]; [|by constructor].
  specialize (Ht eq_refl). apply ensure_self_signed in Ht as (H1 & H2 & _).
  assert (tls_Cert (rc_TLS c) ≠ ""%string ∧ tls_Key (rc_TLS c) ≠ ""%string) as [Hn1 Hn2].
  { unfold fileExists in H1, H2. split; intros E; rewrite E in *; done. }
  rewrite (proj2 (String.eqb_neq _ _) Hn1), (proj2 (String.eqb_neq _ _) Hn2). by constructor.
Qed.
End start.

(** ** Witnesses *)

(** A file holding the word tls is a TLS configuration, any other the default;
    auth.json names one issuer. *)
Definition toy_rv_json : RvConfigJSON := {|
  rv_dec := λ d, if d =s? "tls"
    then Some (mkRvCfg "" (mkTls true "certs/tls.crt" "certs/tls.key") "" ":9000"
                 (mkAdv 0 (mkPingInt 0 20 7 0) (mkRegInt 0 0 0 0) (mkHolepunch 0 0 0 0 0)))
    else Some zero_config;
  rv_auth_dec := λ d, Some (mkAuthFile "protected" [mkIssuer d ""])
|}.

Definition demo_rv_fs : hostfs :=
  <[["rv"%string] := NDir]> (<[["rv.json"; "rv"]%string := NFile "tls" 1]>
  (<[["auth.json"; "rv"]%string := NFile "0xAB" 1]> ∅)).
Definition demo_rv_start : result fatal started * hostfs :=
  @main ascii_tables toy_rv_json (λ _, true) ["rv"%string] 9 demo_gen "rv.json" demo_rv_fs.

Example demo_rv_listeners :
  match demo_rv_start.1 with
  | Ok st => snd <$> Run_server 5 st
  | Err _ => None
  end = Some [LRestTLS ":9000" "certs/tls.crt" "certs/tls.key"; LPunchUDP ":9100"; LControlTCP ":9100"]%string.
Proof. vm_compute. reflexivity. Qed.

Lemma started_secure_witness :
  match demo_rv_start with
  | (Ok st, fs') => ∃ s rest a, Run_server 5 st = Some (s, rest ++ [LPunchUDP a; LControlTCP a]) ∧ a ≠ ""%string
  | _ => False
  end.
Proof.
  assert (is_ok demo_rv_start.1 = true) as Hok by vm_refl.
  destruct demo_rv_start as [[st|] fs'] eqn:E; [clear Hok|discriminate Hok].
  destruct (@started_secure ascii_tables ascii_tables_laws toy_rv_json (λ _, true) ["rv"%string] 9 demo_gen "rv.json"
              demo_rv_fs st fs' 5 E) as (s & rest & a & H1 & H2 & _).
  exists s, rest, a. split; [exact H1|exact H2].
Defined.
