(* ===== verification/RvService.v ===== *)
(** * pkg/rendezvous: service rows of a registry entry

    How service_event frames patch the [Services] slice of an entry: metric
    rows ([applyServiceMetric]'s loop), lifecycle transitions and the coercion
    of the inspect payload (lifecycle.go). *)

From S2P Require Import Prelude GoStrings GoStringsFacts Strconv Hardware GoAny Tunnel RvTypes.
From Stdlib Require Import ZArith Lia ZifyBool Bool Ascii String SpecFloat.
From stdpp Require Import base option list gmap strings.

Open Scope go_scope.
Open Scope Z_scope.

(** ** Field updates of [setup.ServiceInfo] *)

Definition set_ready (ready loading : bool) (v : ServiceInfo) : ServiceInfo :=
  mkSvc (svc_Name v) (svc_Type v) (svc_Engine v) (svc_Launcher v) (svc_Version v) (svc_BinHash v)
    (svc_Model v) (svc_ModelHash v) (svc_ModelOriginURL v) ready loading
    (svc_ChildPID v) (svc_ChildName v) (svc_QueueDepth v) (svc_Progress v) (svc_EstimatedWaitSec v)
    (svc_LastJobAt v) (svc_TotalJobsDone v) (svc_AvgJobSec v) (svc_MaxQueue v) (svc_Concurrency v)
    (svc_QueueDisabled v) (svc_Inspect v) (svc_InspectLabels v) (svc_InspectOrder v).

Definition set_job_fields (queue jobs : Z) (avg : option Z) (lastJobAt : Z) (v : ServiceInfo)
  : ServiceInfo :=
  mkSvc (svc_Name v) (svc_Type v) (svc_Engine v) (svc_Launcher v) (svc_Version v) (svc_BinHash v)
    (svc_Model v) (svc_ModelHash v) (svc_ModelOriginURL v) (svc_ServerReady v) (svc_ServerLoading v)
    (svc_ChildPID v) (svc_ChildName v) queue (svc_Progress v) (svc_EstimatedWaitSec v)
    lastJobAt jobs avg (svc_MaxQueue v) (svc_Concurrency v)
    (svc_QueueDisabled v) (svc_Inspect v) (svc_InspectLabels v) (svc_InspectOrder v).

Definition set_static (version binHash model modelHash originURL : string) (pid : Z)
  (childName : string) (v : ServiceInfo) : ServiceInfo :=
  mkSvc (svc_Name v) (svc_Type v) (svc_Engine v) (svc_Launcher v) version binHash
    model modelHash originURL (svc_ServerReady v) (svc_ServerLoading v)
    pid childName (svc_QueueDepth v) (svc_Progress v) (svc_EstimatedWaitSec v)
    (svc_LastJobAt v) (svc_TotalJobsDone v) (svc_AvgJobSec v) (svc_MaxQueue v) (svc_Concurrency v)
    (svc_QueueDisabled v) (svc_Inspect v) (svc_InspectLabels v) (svc_InspectOrder v).

Definition set_inspect (ins labels : option (gmap string string)) (order : option (list string))
  (v : ServiceInfo) : ServiceInfo :=
  mkSvc (svc_Name v) (svc_Type v) (svc_Engine v) (svc_Launcher v) (svc_Version v) (svc_BinHash v)
    (svc_Model v) (svc_ModelHash v) (svc_ModelOriginURL v) (svc_ServerReady v) (svc_ServerLoading v)
    (svc_ChildPID v) (svc_ChildName v) (svc_QueueDepth v) (svc_Progress v) (svc_EstimatedWaitSec v)
    (svc_LastJobAt v) (svc_TotalJobsDone v) (svc_AvgJobSec v) (svc_MaxQueue v) (svc_Concurrency v)
    (svc_QueueDisabled v) ins labels order.

(** ** Metric rows *)

(** The three [switch m.Status] arms; any other status keeps the booleans. *)
Definition patch_status (status : string) (v : ServiceInfo) : ServiceInfo :=
  if (status =s? "idle") || (status =s? "busy") then set_ready true false v
  else if status =s? "loading" then set_ready false true v
  else if status =s? "stopped" then set_ready false false v
  else v.

(** pkg/rendezvous/control_tcp.go:425-451 [Server.applyServiceMetric part]: The body of the patch for the matching row. *)
Definition patch_metric (m : ServiceMetrics) (v : ServiceInfo) : ServiceInfo :=
  let v := set_job_fields (sm_QueueDepth m) (wrap_i64 (sm_TotalJobsDone m)) (svc_AvgJobSec v)
             (svc_LastJobAt v) v in
  let v := patch_status (sm_Status m) v in
  let avg := if SFltb f_zero (sm_AvgJobSec m) then Some (float_to_int (sm_AvgJobSec m))
             else svc_AvgJobSec v in
  let last := if 0 <? sm_LastJobMs m then Z.quot (sm_LastJobMs m) 1000 else svc_LastJobAt v in
  set_job_fields (svc_QueueDepth v) (svc_TotalJobsDone v) avg last v.

(** The loop over [p.Services]: the first row with the name is patched. *)
Fixpoint patch_first (name : string) (f : ServiceInfo → ServiceInfo) (l : list ServiceInfo)
  : list ServiceInfo :=
  match l with
  | [] => []
  | v :: l' => if svc_Name v =s? name then f v :: l' else v :: patch_first name f l'
  end.

(** pkg/rendezvous/control_tcp.go:600-613 [statusStringToCode] *)
Definition statusStringToCode (s : string) : Z :=
  if s =s? "idle" then 1 else if s =s? "busy" then 2 else if s =s? "loading" then 3
  else if s =s? "stopped" then 4 else 0.

(** pkg/rendezvous/heartbeat.go:72-85 [heartbeatStatus] *)
Definition heartbeatStatus (v : Z) : string :=
  if v =? 1 then "idle" else if v =? 2 then "busy" else if v =? 3 then "loading"
  else if v =? 4 then "stopped" else "".

(** ** Lifecycle *)

(** The string-valued, non-empty entries of a JSON object, later entries
    winning; Go's range order is immaterial since keys are distinct. *)
Definition string_entries (v : list (string * any)) : gmap string string :=
  fold_left (λ out kv, match kv.2 with
                       | AStr s => if s =s? "" then out else <[kv.1 := s]> out
                       | _ => out
                       end) v ∅.
Definition string_items (v : list any) : list string :=
  omap (λ x, match x with AStr s => if s =s? "" then None else Some s | _ => None end) v.

(** One [if v, ok := info[k].(map[string]any); ok && len(v) > 0 {...}] block. *)
Definition inspect_map (info : list (string * any)) (k : string) (old : option (gmap string string))
  : option (gmap string string) :=
  match as_obj (obj_get info k) with
  | Some ((_ :: _) as v) =>
      let out := string_entries v in if bool_decide (out = ∅) then old else Some out
  | _ => old
  end.

(** pkg/rendezvous/lifecycle.go:15-49 [applyInspectFromEvent] *)
Definition applyInspectFromEvent (entry : ServiceInfo) (info : list (string * any)) : ServiceInfo :=
  let ins := inspect_map info "inspect" (svc_Inspect entry) in
  let labels := inspect_map info "inspect_labels" (svc_InspectLabels entry) in
  let order := match as_arr (obj_get info "inspect_order") with
               | Some ((_ :: _) as v) =>
                   match string_items v with [] => svc_InspectOrder entry | out => Some out end
               | _ => svc_InspectOrder entry
               end in
  set_inspect ins labels order entry.

(** [if v, ok := info[k].(string); ok { entry.F = v }] *)
Definition str_field (info : list (string * any)) (k old : string) : string :=
  default old (as_string (obj_get info k)).
(** [if v, ok := info[k].(string); ok && v != "" {...}] *)
Definition str_field_ne (info : list (string * any)) (k old : string) : string :=
  match as_string (obj_get info k) with
  | Some v => if v =s? "" then old else v
  | None => old
  end.

(** pkg/rendezvous/control_tcp.go:506-536 [Server.applyServiceLifecycle part]: The entry a service.starting event announces. *)
Definition starting_entry (name : string) (info : option (list (string * any))) : ServiceInfo :=
  let entry := set_ready false true (named_service name) in
  match info with
  | None => entry
  | Some info =>
      let e := set_static
        (str_field info "version" (svc_Version entry)) (str_field info "bin_hash" (svc_BinHash entry))
        (str_field info "model" (svc_Model entry)) (str_field info "model_hash" (svc_ModelHash entry))
        (str_field info "model_origin_url" (svc_ModelOriginURL entry))
        (match as_float (obj_get info "child_pid") with
         | Some f => float_to_int f | None => svc_ChildPID entry end)
        (str_field info "child_name" (svc_ChildName entry)) entry in
      applyInspectFromEvent e info
  end.

(** pkg/rendezvous/control_tcp.go:552-568 [Server.applyServiceLifecycle part]: What service.ready writes on the row. *)
Definition ready_entry (info : option (list (string * any))) (v : ServiceInfo) : ServiceInfo :=
  let v := set_ready true false v in
  match info with
  | None => v
  | Some info =>
      let v := set_static
        (str_field_ne info "version" (svc_Version v)) (svc_BinHash v)
        (str_field_ne info "model" (svc_Model v)) (str_field_ne info "model_hash" (svc_ModelHash v))
        (str_field_ne info "model_origin_url" (svc_ModelOriginURL v))
        (svc_ChildPID v) (svc_ChildName v) v in
      applyInspectFromEvent v info
  end.

(** Index of the first row with the name. *)
Fixpoint service_index (name : string) (l : list ServiceInfo) : option nat :=
  match l with
  | [] => None
  | v :: l' => if svc_Name v =s? name then Some 0%nat else S <$> service_index name l'
  end.

(** Appending to or slicing a nil slice. *)
Definition svc_append (l : option (list ServiceInfo)) (v : ServiceInfo) : option (list ServiceInfo) :=
  Some (range l ++ [v]).

(** A restarted service keeps the inspect maps the event did not carry. *)
Definition keep_inspect (prev entry : ServiceInfo) : ServiceInfo :=
  match svc_Inspect entry, svc_Inspect prev with
  | None, Some _ => set_inspect (svc_Inspect prev) (svc_InspectLabels prev)
                      (svc_InspectOrder prev) entry
  | _, _ => entry
  end.

(** pkg/rendezvous/control_tcp.go:496-593 [Server.applyServiceLifecycle part]: The [switch msg.Event] of [applyServiceLifecycle] on the entry's services;
    an unknown event changes nothing. *)
Definition lifecycle_services (event name : string) (info : option (list (string * any)))
  (svcs : option (list ServiceInfo)) : option (list ServiceInfo) :=
  let l := range svcs in
  let idx := service_index name l in
  if event =s? "service.starting" then
    let entry := starting_entry name info in
    match idx with
    | Some i =>
        match l !! i with
        | Some prev =>
            Some (<[i := keep_inspect prev entry]> l)
        | None => svcs
        end
    | None => svc_append svcs entry
    end
  else if event =s? "service.ready" then
    match idx with
    | Some i => Some (alter (ready_entry info) i l)
    | None => svc_append svcs (ready_entry info (named_service name))
    end
  else if event =s? "service.stopping" then svcs
  else if event =s? "service.stopped" then
    match idx with
    | Some i => Some (take i l ++ drop (S i) l)
    | None => svcs
    end
  else svcs.

(** ** Lemmas *)

(** The index splits the slice at the first row with the name. *)
Lemma service_index_Some name l i :
  service_index name l = Some i →
  ∃ l1 v l2, l = l1 ++ v :: l2 ∧ i = length l1 ∧ svc_Name v = name.
Proof.
  revert i. induction l as [|v l IH]; intros i; simpl; [done|].
  destruct (String.eqb_spec (svc_Name v) name) as [He|Hne].
  - intros [= <-]. by exists [], v, l.
  - destruct (service_index name l) as [j|]; [|done]. intros [= <-].
    destruct (IH j eq_refl) as (l1 & w & l2 & -> & -> & ?). by exists (v :: l1), w, l2.
Qed.

Lemma service_index_None name l :
  service_index name l = None → ∀ v, v ∈ l → svc_Name v ≠ name.
Proof.
  induction l as [|w l IH]; simpl; intros Hn v Hv; [by apply elem_of_nil in Hv|].
  destruct (String.eqb_spec (svc_Name w) name); [done|].
  destruct (service_index name l); [done|].
  apply elem_of_cons in Hv as [-> | Hv]; [done|by apply IH].
Qed.

Lemma inspect_name entry info : svc_Name (applyInspectFromEvent entry info) = svc_Name entry.
Proof. done. Qed.

Lemma keep_inspect_name p e : svc_Name (keep_inspect p e) = svc_Name e.
Proof. unfold keep_inspect. by destruct (svc_Inspect e), (svc_Inspect p). Qed.

Lemma starting_name name info : svc_Name (starting_entry name info) = name.
Proof. by destruct info. Qed.

Lemma ready_name info v : svc_Name (ready_entry info v) = svc_Name v.
Proof. by destruct info. Qed.

Lemma patch_metric_name m v : svc_Name (patch_metric m v) = svc_Name v.
Proof. unfold patch_metric, patch_status. repeat case_if; done. Qed.

Lemma patch_first_names name f l :
  (∀ v, svc_Name (f v) = svc_Name v) → map svc_Name (patch_first name f l) = map svc_Name l.
Proof.
  intros Hf. induction l as [|v l IH]; simpl; [done|]. case_if; simpl; [by rewrite Hf|by rewrite IH].
Qed.

(** ** Names of services *)

Definition svc_names (svcs : option (list ServiceInfo)) : list string := map svc_Name (range svcs).

Lemma service_index_not_elem name l :
  service_index name l = None → name ∉ map svc_Name l.
Proof.
  intros Hn He. apply list_elem_of_In, in_map_iff in He as (v & Hv & Hin).
  apply list_elem_of_In in Hin. by eapply service_index_None.
Qed.

(** The rows of every service but [name], in order. *)
Definition other_rows (name : string) (l : list ServiceInfo) : list ServiceInfo :=
  filter (λ v, svc_Name v ≠ name) l.

Lemma other_rows_mid name l1 v l2 :
  svc_Name v = name → other_rows name (l1 ++ v :: l2) = other_rows name (l1 ++ l2).
Proof.
  intros Hv. unfold other_rows. rewrite !filter_app, filter_cons_False; [done|]. by intros [].
Qed.

Lemma range_lookup_mid (l1 : list ServiceInfo) v l2 : (l1 ++ v :: l2) !! length l1 = Some v.
Proof. by rewrite lookup_app_r, Nat.sub_diag by lia. Qed.

(** Replacing the row [name] by one of the same name. *)
Definition same_but (name : string) (l l' : list ServiceInfo) : Prop :=
  map svc_Name l' = map svc_Name l ∧ other_rows name l' = other_rows name l ∧ name ∈ map svc_Name l'.

Lemma same_but_insert name l1 v w l2 :
  svc_Name v = name → svc_Name w = name →
  same_but name (l1 ++ v :: l2) (<[length l1 := w]> (l1 ++ v :: l2)).
Proof.
  intros Hv Hw. replace (length l1) with (length l1 + 0)%nat by lia.
  rewrite insert_app_r. simpl. split_and!.
  - by rewrite !map_app; simpl; rewrite Hv, Hw.
  - by rewrite !other_rows_mid.
  - rewrite map_app. apply elem_of_app; right. rewrite <-Hw. by left.
Qed.

Lemma same_but_alter name l1 v (f : ServiceInfo → ServiceInfo) l2 :
  svc_Name v = name → (∀ x, svc_Name (f x) = svc_Name x) →
  same_but name (l1 ++ v :: l2) (alter f (length l1) (l1 ++ v :: l2)).
Proof.
  intros Hv Hf. pose proof (same_but_insert name l1 v (f v) l2 Hv) as Hs.
  rewrite <-(Nat.add_0_r (length l1)), insert_app_r in Hs.
  rewrite <-(Nat.add_0_r (length l1)), alter_app_r. apply Hs. by rewrite Hf.
Qed.

Lemma append_row name l w :
  svc_Name w = name → name ∉ map svc_Name l → NoDup (map svc_Name l) →
  NoDup (map svc_Name (l ++ [w])) ∧ other_rows name (l ++ [w]) = other_rows name l ∧
  name ∈ map svc_Name (l ++ [w]).
Proof.
  intros Hw Hn Hd. rewrite map_app. split_and!.
  - apply NoDup_app; split_and!; [done| |apply NoDup_singleton].
    intros x Hx ->%list_elem_of_singleton. by rewrite Hw in Hx.
  - rewrite other_rows_mid by done. by rewrite app_nil_r.
  - apply elem_of_app; right. rewrite <-Hw. by left.
Qed.

(** Split on the event name, in the order of the switch. *)
Ltac event_cases event :=
  destruct (String.eqb_spec event "service.starting") as [-> | ?];
  [|destruct (String.eqb_spec event "service.ready") as [-> | ?];
  [|destruct (String.eqb_spec event "service.stopping") as [-> | ?];
  [|destruct (String.eqb_spec event "service.stopped") as [-> | ?]]]].

(** lifecycle events keep service names unique and do what they announce:
    after starting or ready the service is listed (with its readiness), after
    stopped it is not, stopping and unknown events change nothing, and no other
    service's row is touched. *)
Theorem lifecycle_names event name info svcs :
  NoDup (svc_names svcs) →
  let svcs' := lifecycle_services event name info svcs in
  NoDup (svc_names svcs') ∧
  other_rows name (range svcs') = other_rows name (range svcs) ∧
  (event = "service.starting"%string ∨ event = "service.ready"%string → name ∈ svc_names svcs') ∧
  (event = "service.stopped"%string → name ∉ svc_names svcs').
Proof.
  intros Hd. unfold lifecycle_services, svc_names in *. cbv zeta.
  destruct (service_index name (range svcs)) as [i|] eqn:Ei.
  - apply service_index_Some in Ei as (l1 & v & l2 & El & -> & Hv). rewrite El in *.
    rewrite range_lookup_mid.
    event_cases event.
    + set (w := keep_inspect v _). assert (svc_Name w = name) as Hw.
      { unfold w. by rewrite keep_inspect_name, starting_name. }
      destruct (same_but_insert name l1 v w l2 Hv Hw) as (Hm & Ho & Hin). clearbody w.
      simpl. rewrite Hm. split_and!; [done|exact Ho|by intros _; rewrite <-Hm|done].
    + destruct (same_but_alter name l1 v (ready_entry info) l2) as (Hm & Ho & Hin);
        [done|apply ready_name|].
      simpl. rewrite Hm. split_and!; [done|exact Ho|by intros _; rewrite <-Hm|done].
    + rewrite El. split_and!; [done..|by intros [|]|done].
    + simpl. rewrite take_app_length.
      rewrite <-Nat.add_1_r, drop_app_add. simpl. rewrite !map_app in *. simpl in Hd.
      apply NoDup_app in Hd as (H1 & H2 & H3). apply NoDup_cons in H3 as [H3 H4].
      split_and!; [apply NoDup_app; split_and!; [done| |done]| |by intros [|]|].
      * intros x Hx Hx2. apply (H2 x Hx). by right.
      * unfold other_rows. symmetry. by apply other_rows_mid.
      * intros _ [Hx|Hx]%elem_of_app; rewrite <-Hv in *; [|done]. apply (H2 _ Hx). by left.
    + rewrite El. split_and!; [done..|by intros [-> | ->]|by intros ->].
  - pose proof (service_index_not_elem _ _ Ei) as Hn.
    event_cases event.
    + destruct (append_row name (range svcs) (starting_entry name info)) as (? & ? & ?);
        [apply starting_name|done..|]. done.
    + destruct (append_row name (range svcs) (ready_entry info (named_service name))) as (? & ? & ?);
        [by rewrite ready_name|done..|]. done.
    + split_and!; [done..|by intros [|]|done].
    + split_and!; [done..|by intros [|]|done].
    + split_and!; [done..|by intros [-> | ->]|by intros ->].
Qed.

Lemma lifecycle_names_witness :
  let svcs := Some [named_service "a"; named_service "b"] in
  let svcs' := lifecycle_services "service.stopped" "a" None svcs in
  NoDup (svc_names svcs') ∧
  other_rows "a" (range svcs') = other_rows "a" (range svcs) ∧
  ("service.stopped" = "service.starting" ∨ "service.stopped" = "service.ready" →
     "a" ∈ svc_names svcs')%string ∧
  ("service.stopped" = "service.stopped" → "a" ∉ svc_names svcs')%string.
Proof.
  apply (lifecycle_names "service.stopped" "a" None (Some [named_service "a"; named_service "b"])).
  apply (bool_decide_unpack _). reflexivity.
Defined.
