(* ===== verification/RvServer.v ===== *)
(** * pkg/rendezvous: the control-plane and punch handlers

    Every handler is a function from the server state (and the time the clock
    shows) to the new state and the frames it puts on control connections.
    [handleControlConn] is the events [EvHello], [EvFrame] and [EvClosed] of
    one connection; the events of all connections, the UDP punches and the
    cleanup ticks follow each other in any order in [run], each handler whole.
    [RvSections] takes the handlers apart into their critical sections and
    interleaves those. *)

From S2P Require Import Prelude GoStrings GoStringsFacts Strconv Hardware GoAny GoTime Auth.
From S2P Require Import Tunnel Signal SessionCache RvTypes RvAuth RvService.
From Stdlib Require Import ZArith Lia ZifyBool Bool Ascii String SpecFloat.
From stdpp Require Import base option list gmap strings.

Open Scope go_scope.
Open Scope Z_scope.

(** What a handler does to the outside: a frame written to a connection, a
    connection closed, a UDP datagram echoed. *)
Inductive output :=
  | Send (conn : nat) (m : RendezvousMsg)
  | Close (conn : nat)
  | Echo (dst : net_addr) (packet : string).

(** [x509.ParseCertificate] and the issuer's common name. *)
Class X509 := { parse_cert_issuer : string → option string }.

(** [if new != "" { field = new }] *)
Definition or_keep (new old : string) : string := if new =s? "" then old else new.

Section server.
Context {U : GoUnicode} {H : Sha256} {E : EthCrypto} {J : HardwareJSON} {X : X509}.

(** ** register *)

(** pkg/rendezvous/control_tcp.go:253-313 [Server.applyRegister part]: The new entry [applyRegister] stores, from the previous one. *)
Definition registered_proxy (cc : controlConn) (msg : RendezvousMsg) (now : time) (p : ProxyInfo)
  : ProxyInfo :=
  let '(addr, manual) :=
    if negb (m_Addr msg =s? "") then (m_Addr msg, true)
    else if p_Addr p =s? "" then (addr_string (cc_remote cc), p_AddrManual p)
    else (p_Addr p, p_AddrManual p) in
  let controlIP := match cc_remote cc with TCPAddr ip _ => ip | _ => p_ControlIP p end in
  let '(issuer, verified) :=
    if (0 <? String.length (m_EKCert msg))%nat then
      match parse_cert_issuer (m_EKCert msg) with
      | Some cn => (cn, true)
      | None => (p_EKCertIssuer p, p_TPMVerified p)
      end
    else (p_EKCertIssuer p, p_TPMVerified p) in
  mkProxy (nodeKey (m_ID msg)) (m_Role msg) addr (or_keep (m_LocalAddr msg) (p_LocalAddr p))
    (or_keep (m_CertHash msg) (p_CertHash p)) (or_keep (m_Version msg) (p_Version p))
    (or_keep (m_BinHash msg) (p_BinHash p)) (or_keep (m_OwnerAddress msg) (p_OwnerAddress p))
    (or_keep (m_Emblem msg) (p_Emblem p)) (p_UDPAddr p) now (p_RegisteredAt p) manual controlIP
    (p_Status p) (or_keep (m_AuthMode msg) (p_AuthMode p))
    (match m_Hardware msg with Some hw => Some hw | None => p_Hardware p end)
    (match m_Services msg with Some svcs => Some svcs | None => p_Services p end)
    verified (p_EKFingerprint p) issuer (p_EKPublicKey p) (p_TPMNonce p).

(** pkg/rendezvous/control_tcp.go:239-323 [Server.applyRegister part]: The part of [applyRegister] under the lock: the entry and the counters. *)
Definition store_register (cc : controlConn) (msg : RendezvousMsg) (now : time) (s : Server) : Server :=
  let key := nodeKey (m_ID msg) in
  let old := proxies s !! key in
  let p := registered_proxy cc msg now (default (new_proxy now) old) in
  let s := set_proxies <[key := p]> s in
  let s := match old with
           | Some o => countDelta (p_Role o) (p_AuthMode o) (-1) s
           | None => s
           end in
  countDelta (p_Role p) (p_AuthMode p) 1 s.

(** pkg/rendezvous/control_tcp.go:207-338 [Server.applyRegister] *)
Definition applyRegister (cc : controlConn) (msg : RendezvousMsg) (now : time) (s : Server)
  : Server * list output :=
  let reject reason := (s, [Send (cc_conn cc) (simple_msg TypeError (m_ID msg) reason [])]) in
  if negb (m_ID msg =s? cc_nodeID cc) then reject "register id mismatch"
  else if m_FullSync msg then
    let hwHash := hashHardwareForVerify (m_Hardware msg) in
    match verifyRegisterSignature msg hwHash now with
    | Err _ => reject "register signature invalid"
    | Ok _ =>
        if modeProtected s then
          match admitRegister s msg now with
          | Err e => reject ("admission denied: " ++s admit_error_string e)
          | Ok _ => (store_register cc msg now s, [])
          end
        else (store_register cc msg now s, [])
    end
  else (store_register cc msg now s, []).

(** ** ping *)

(** pkg/rendezvous/control_tcp.go:354-374 [Server.applyPing] *)
Definition applyPing (cc : controlConn) (msg : RendezvousMsg) (now : time) (s : Server)
  : Server * list output :=
  if m_ID msg =s? "" then (s, [])
  else match verifyPingSignature msg now with
       | Err _ => (s, [])
       | Ok _ =>
           let key := nodeKey (m_ID msg) in
           match proxies s !! key with
           | Some p => (set_proxies <[key := set_LastSeen now p]> s, [])
           | None => (s, [Send (cc_conn cc) (simple_msg TypeNeedRegister (m_ID msg) "" [])])
           end
       end.

(** ** service events *)

(** pkg/rendezvous/control_tcp.go:411-477 [Server.applyServiceMetric] *)
Definition applyServiceMetric (nodeID : string) (m : ServiceMetrics) (now : time) (s : Server)
  : Server :=
  if sm_Service m =s? "" then s
  else
    let key := nodeKey nodeID in
    match proxies s !! key with
    | None => s
    | Some p =>
        let p := set_LastSeen now p in
        let p := set_Services (option_map (patch_first (sm_Service m) (patch_metric m)) (p_Services p)) p in
        let s := set_proxies <[key := p]> s in
        set_metrics <[metricKey nodeID (sm_Service m) :=
          mkNM nodeID (sm_Service m) (statusStringToCode (sm_Status m)) (sm_QueueDepth m)
            (sm_TotalJobsDone m) (sm_AvgJobSec m) (sm_LastJobMs m) (sm_RunningJobID m)
            (sm_RunningCount m) 0]> s
    end.

(** pkg/rendezvous/control_tcp.go:484-594 [Server.applyServiceLifecycle] *)
Definition applyServiceLifecycle (msg : RendezvousMsg) (now : time) (s : Server) : Server :=
  if m_ServiceName msg =s? "" then s
  else
    let key := nodeKey (m_ID msg) in
    match proxies s !! key with
    | None => s
    | Some p =>
        let p := set_LastSeen now p in
        let p := set_Services
          (lifecycle_services (m_Event msg) (m_ServiceName msg) (m_ServiceInfo msg) (p_Services p)) p in
        set_proxies <[key := p]> s
    end.

(** pkg/rendezvous/control_tcp.go:388-406 [Server.applyServiceEvent] *)
Definition applyServiceEvent (msg : RendezvousMsg) (now : time) (s : Server) : Server :=
  if m_ID msg =s? "" then s
  else if negb (m_Event msg =s? "") && negb (m_ServiceName msg =s? "") then
    applyServiceLifecycle msg now s
  else match m_MetricsBatch msg with
       | _ :: _ => fold_left (λ s m, applyServiceMetric (m_ID msg) m now s) (m_MetricsBatch msg) s
       | [] =>
           match m_Metrics msg with
           | None => s
           | Some m => if sm_Service m =s? "" then s else applyServiceMetric (m_ID msg) m now s
           end
       end.

(** ** connect *)

(** pkg/rendezvous/control_tcp.go:708-718 [Server.PushToNode]: [None] is
    [ErrNotConnected]. *)
Definition PushToNode (s : Server) (nodeID : string) (msg : RendezvousMsg) : option output :=
  match controlConns s !! nodeKey nodeID with
  | None => None
  | Some cc => Some (Send (cc_conn cc) msg)
  end.

(** pkg/rendezvous/control_tcp.go:676-682 [Server.handleConnect part]: The address list of a proxy_info reply. *)
Definition connect_candidates (target : ProxyInfo) : list string :=
  (if negb (p_LocalAddr target =s? "") && negb (p_LocalAddr target =s? p_Addr target)
   then [p_LocalAddr target] else []) ++
  (if negb (p_Addr target =s? "") then [p_Addr target] else []).

(** pkg/rendezvous/control_tcp.go:657-662 [Server.handleConnect part]: The address the target is told to punch toward. *)
Definition requester_addr (s : Server) (cc : controlConn) : string :=
  match proxies s !! nodeKey (cc_nodeID cc) with
  | Some r => if negb (p_Addr r =s? "") then p_Addr r else addr_string (cc_remote cc)
  | None => addr_string (cc_remote cc)
  end.

(** pkg/rendezvous/control_tcp.go:625-703 [Server.handleConnect] *)
Definition handleConnect (cc : controlConn) (msg : RendezvousMsg) (s : Server) : list output :=
  let targetID := m_ID msg in
  if targetID =s? "" then
    [Send (cc_conn cc) (simple_msg TypeError "" "connect: missing target id" [])]
  else
    match proxies s !! nodeKey targetID with
    | None => [Send (cc_conn cc) (simple_msg TypeError targetID
                 ("target not found: " ++s targetID) [])]
    | Some target =>
        let requesterAddr := requester_addr s cc in
        let push := if negb (requesterAddr =s? "") then
                      option_list (PushToNode s targetID
                        (simple_msg TypePunch (cc_nodeID cc) requesterAddr []))
                    else [] in
        push ++ [Send (cc_conn cc)
                   (simple_msg TypeProxyInfo targetID (p_Addr target) (connect_candidates target))]
    end.

(** ** The frame loop *)

(** pkg/rendezvous/control_tcp.go:159-170 [Server.handleControlConn part]: The ack sent after every register frame. *)
Definition register_ack (s : Server) (cc : controlConn) : RendezvousMsg :=
  let policy := EffectivePolicy s in
  mkMsg 1 TypeAck "" "" "" "" [] ""
    (PrePunchCount policy) (PrePunchIntervalMs policy) (PreDialWaitMs policy)
    (ReplyBurstCount policy) (ReplyBurstIntervalMs policy)
    "" "" "" "" "" None None 0 false false "" "" "" "" "" false "" 0 "" "" 0 "" 0 0
    (seconds_u32 (PingIntervalFor s (cc_role cc))) (seconds_u32 (RegisterIntervalFor s (cc_role cc)))
    "" "" None None [].

(** pkg/rendezvous/control_tcp.go:122-188 [Server.handleControlConn part]: one frame
    of an established connection, sender-identity frames forced to the
    hello-bound id. *)
Definition handle_frame (cc : controlConn) (msg : RendezvousMsg) (now : time) (s : Server)
  : Server * list output :=
  if m_Type msg =s? TypeRegister then
    let '(s', out) := applyRegister cc (set_msg_ID (cc_nodeID cc) msg) now s in
    (s', out ++ [Send (cc_conn cc) (register_ack s' cc)])
  else if m_Type msg =s? TypeConnect then (s, handleConnect cc msg s)
  else if m_Type msg =s? TypePing then applyPing cc (set_msg_ID (cc_nodeID cc) msg) now s
  else if (m_Type msg =s? TypeServiceEvent) || (m_Type msg =s? TypeStatusUpd) then
    (applyServiceEvent (set_msg_ID (cc_nodeID cc) msg) now s, [])
  else (s, []).

(** pkg/rendezvous/control_tcp.go:103-107 [Server.handleControlConn part]: [s.controlConns.Swap(key, cc)], closing the connection it displaces. *)
Definition hello_swap (cc : controlConn) (s : Server) : Server * list output :=
  let key := nodeKey (cc_nodeID cc) in
  (set_conns <[key := cc]> s,
   match controlConns s !! key with Some prev => [Close (cc_conn prev)] | None => [] end).

(** pkg/rendezvous/control_tcp.go:108-108 [Server.handleControlConn part]: [s.controlConns.CompareAndDelete(key, cc)]: entries are compared by
    identity of the connection. *)
Definition compare_and_delete (cc : controlConn) (s : Server) : Server :=
  let key := nodeKey (cc_nodeID cc) in
  match controlConns s !! key with
  | Some cur => if (cc_conn cur =? cc_conn cc)%nat then set_conns (delete key) s else s
  | None => s
  end.

(** pkg/rendezvous/control_tcp.go:79-117 [Server.handleControlConn part]: the first
    frame of a new connection ([None] when it cannot be read) up to the hello
    ack; the last component is the connection that enters the frame loop. *)
Definition handle_hello (conn : nat) (remote : net_addr) (first : option RendezvousMsg)
  (ack_ok : bool) (now : time) (s : Server) : Server * list output * option controlConn :=
  match first with
  | None => (s, [Close conn], None)
  | Some f =>
      if negb (m_Type f =s? TypeHello) then (s, [Close conn], None)
      else if m_ID f =s? "" then (s, [Close conn], None)
      else
        let cc := mkConn conn remote (m_ID f) (m_Role f) now in
        let '(s', out) := hello_swap cc s in
        if ack_ok then (s', out ++ [Send conn (simple_msg TypeAck "" "" [])], Some cc)
        else (compare_and_delete cc s', out ++ [Close conn], None)
  end.

(** ** UDP punch *)

(** pkg/rendezvous/punch_udp.go:92-124 [Server.learnPublicAddr] *)
Definition learnPublicAddr (nodeID : string) (src : net_addr) (s : Server) : Server :=
  let key := nodeKey nodeID in
  match proxies s !! key with
  | None => s
  | Some p =>
      match src with
      | UDPAddr ip _ =>
          if (0 <? String.length (p_ControlIP p))%nat && negb (ip_equal ip (p_ControlIP p)) then s
          else
            let addr := if negb (p_AddrManual p) then addr_string src else p_Addr p in
            set_proxies <[key := set_UDPAddr src addr p]> s
      | _ => s
      end
  end.

(** ** Health limiter *)

(** pkg/rendezvous/server.go:1046-1056 [healthRateLimiter.allow] *)
Definition allow (ip : string) (now : time) (h : healthRateLimiter) : healthRateLimiter * bool :=
  let now := truncate_second now in
  let h := if time_after now (hl_window h) then mkLimiter (hl_limit h) now ∅ else h in
  let n := default 0 (hl_hits h !! ip) + 1 in
  (mkLimiter (hl_limit h) (hl_window h) (<[ip := n]> (hl_hits h)), n <=? hl_limit h).

(** [net.SplitHostPort] followed by the fallback of [clientIP]: the host part
    of "host:port" or "[host]:port", the whole string when it is neither. *)
Definition split_host_port (s : string) : option (string * string) :=
  match last_index_byte s ":" with
  | None => None
  | Some i =>
      let port := drop_str (S i) s in
      match s with
      | String "[" rest =>
          match index_byte s "]" with
          | None => None
          | Some e =>
              if (S e =? i)%nat then
                let host := take_str (e - 1) rest in
                if contains_byte "[" (drop_str 1 s) || contains_byte "]" (drop_str (S e) s) then None
                else Some (host, port)
              else None
          end
      | _ =>
          let host := take_str i s in
          if contains_byte ":" host then None
          else if contains_byte "[" s || contains_byte "]" s then None
          else Some (host, port)
      end
  end.

(** pkg/rendezvous/server.go:1019-1024 [clientIP] *)
Definition clientIP (remoteAddr : string) : string :=
  match split_host_port remoteAddr with Some (host, _) => host | None => remoteAddr end.

(** pkg/rendezvous/punch_udp.go:46-80 [Server.runPunchUDP part]: One datagram of the punch listener: the body of [runPunchUDP]'s loop. *)
Definition handle_datagram (src : net_addr) (buf : string) (now : time) (s : Server)
  : Server * list output :=
  if (String.length buf <? 2)%nat then (s, [])
  else match buf with
       | String b rest =>
           if (byte_val b =? 1)%nat then
             if rest =s? "" then (s, []) else (learnPublicAddr rest src s, [])
           else if (byte_val b =? 2)%nat then (s, [])
           else if (byte_val b =? 3)%nat then
             let host := clientIP (addr_string src) in
             if host =s? "" then (s, [])
             else
               let '(l, ok) := allow host now (healthLimiter s) in
               (set_limiter l s, if ok then [Echo src buf] else [])
           else (s, [])
       | EmptyString => (s, [])
       end.

(** ** Cleanup *)

(** pkg/rendezvous/server.go:404-413 [Server.Run part]: One iteration of the purge loop over the snapshot of the roster. *)
Definition purge_one (cutoff : duration) (now : time) (s : Server) (kv : string * ProxyInfo) : Server :=
  let '(id, p) := kv in
  if cutoff <? time_sub now (p_LastSeen p)
  then set_proxies (delete id) (countDelta (p_Role p) (p_AuthMode p) (-1) s)
  else s.

(** pkg/rendezvous/server.go:400-414 [Server.Run part] *)
Definition purge (now : time) (s : Server) : Server :=
  fold_left (purge_one (ProxyPurgeOrDefault s) now) (map_to_list (proxies s)) s.

(** The node of the metric row was seen at or after [cutoff]. *)
Definition metric_live (live : gmap string time) (cutoff : time) (m : NodeMetric) : bool :=
  match live !! nm_NodeID m with
  | Some ls => negb (time_before ls cutoff)
  | None => false
  end.

(** pkg/rendezvous/heartbeat.go:98-116 [Server.pruneMetrics] *)
Definition pruneMetrics (d : duration) (now : time) (s : Server) : Server :=
  let live := p_LastSeen <$> proxies s in
  let cutoff := time_add now (- d) in
  set_metrics (filter (λ km, metric_live live cutoff km.2 = true)) s.

(** pkg/rendezvous/server.go:397-421 [Server.Run part]: The body of the cleanup goroutine's tick. *)
Definition cleanup_tick (now : time) (s : Server) : Server :=
  let s := purge now s in
  let s := set_sessions (Prune now (sessions s)) s in
  pruneMetrics (5 * minute) now s.

(** pkg/rendezvous/server.go:971-975 [Server.handleHealth part]: The rate-limit gate of [handleHealth]: [false] is a 429 reply. *)
Definition health_gate (remoteAddr : string) (now : time) (s : Server) : Server * bool :=
  let ip := clientIP remoteAddr in
  if ip =s? "" then (s, true)
  else let '(l, ok) := allow ip now (healthLimiter s) in (set_limiter l s, ok).

(** ** The system: the server and its established connections *)

Record Sys := mkSys { srv : Server; live : gmap nat controlConn; next_conn : nat }.

(** What can happen next: a connection is accepted and its first frame read, a
    frame arrives, a connection ends, a datagram arrives, the ticker fires, a
    health probe comes in. *)
Inductive event :=
  | EvAccept (remote : net_addr) (first : option RendezvousMsg) (ack_ok : bool) (now : time)
  | EvFrame (conn : nat) (msg : RendezvousMsg) (now : time)
  | EvClosed (conn : nat)
  | EvDatagram (src : net_addr) (buf : string) (now : time)
  | EvTick (now : time)
  | EvHealth (remoteAddr : string) (now : time).

Definition sys_step (ev : event) (y : Sys) : Sys * list output :=
  match ev with
  | EvAccept remote first ack_ok now =>
      let conn := next_conn y in
      let '(s, out, est) := handle_hello conn remote first ack_ok now (srv y) in
      (mkSys s (match est with Some cc => <[conn := cc]> (live y) | None => live y end) (S conn), out)
  | EvFrame conn msg now =>
      match live y !! conn with
      | None => (y, [])
      | Some cc => let '(s, out) := handle_frame cc msg now (srv y) in
                   (mkSys s (live y) (next_conn y), out)
      end
  | EvClosed conn =>
      match live y !! conn with
      | None => (y, [])
      | Some cc => (mkSys (compare_and_delete cc (srv y)) (delete conn (live y)) (next_conn y),
                    [Close conn])
      end
  | EvDatagram src buf now =>
      let '(s, out) := handle_datagram src buf now (srv y) in
      (mkSys s (live y) (next_conn y), out)
  | EvTick now => (mkSys (cleanup_tick now (srv y)) (live y) (next_conn y), [])
  | EvHealth remoteAddr now =>
      let '(s, _) := health_gate remoteAddr now (srv y) in
      (mkSys s (live y) (next_conn y), [])
  end.

Definition init_sys (c : ServerConfig) : Sys := mkSys (NewServer c) ∅ 0.

(** The state after a history of events. *)
Definition run (c : ServerConfig) (evs : list event) : Sys :=
  fold_left (λ y ev, (sys_step ev y).1) evs (init_sys c).
End server.
