(* ===== verification/RvProofs.v ===== *)
(** * pkg/rendezvous: theorems about the server

    Invariants of every reachable state (counters, normalised keys), what each
    frame can and cannot change, the connection registry as a refinement of an
    abstract one, address learning and the health limiter. *)

From S2P Require Import Prelude GoStrings GoStringsFacts Strconv Hardware GoAny GoTime Auth.
From S2P Require Import Tunnel Signal SessionCache RvTypes RvAuth RvService RvServer.
From Stdlib Require Import ZArith Lia ZifyBool Bool Ascii String SpecFloat.
From stdpp Require Import base option list gmap strings.

Open Scope go_scope.
Open Scope Z_scope.

Section proofs.
Context {U : GoUnicode} {H : Sha256} {E : EthCrypto} {J : HardwareJSON} {X : X509}.

(** ** Role counters *)

Definition in_bucket (b : string) (p : ProxyInfo) : bool := roleBucket (p_Role p) =s? b.
Definition is_public (p : ProxyInfo) : bool :=
  in_bucket "station" p && equal_fold (p_AuthMode p) "public".

(** The counters are the given integers, wrapped to 64 bits. *)
Definition counters (st co pa pu : Z) (s : Server) : Prop :=
  cntStation s = wrap_i64 st ∧ cntControl s = wrap_i64 co ∧
  cntPassenger s = wrap_i64 pa ∧ cntPublic s = wrap_i64 pu.

Definition counters_ok (s : Server) : Prop :=
  counters (count (in_bucket "station") (proxies s)) (count (in_bucket "control") (proxies s))
    (count (in_bucket "passenger") (proxies s)) (count is_public (proxies s)) s.

Lemma countDelta_proxies r a d s : proxies (countDelta r a d s) = proxies s.
Proof. unfold countDelta. by repeat case_if. Qed.

Lemma countDelta_conns r a d s : controlConns (countDelta r a d s) = controlConns s.
Proof. unfold countDelta. by repeat case_if. Qed.
Lemma countDelta_metrics r a d s : metrics (countDelta r a d s) = metrics s.
Proof. unfold countDelta. by repeat case_if. Qed.
Lemma countDelta_cfg r a d s : cfg (countDelta r a d s) = cfg s.
Proof. unfold countDelta. by repeat case_if. Qed.
Lemma countDelta_limiter r a d s : healthLimiter (countDelta r a d s) = healthLimiter s.
Proof. unfold countDelta. by repeat case_if. Qed.

#[local] Hint Rewrite countDelta_proxies countDelta_conns countDelta_metrics countDelta_cfg
  countDelta_limiter : go_rw.

Lemma countDelta_counters p d st co pa pu s :
  counters st co pa pu s →
  counters (st + d * b2z (in_bucket "station" p)) (co + d * b2z (in_bucket "control" p))
    (pa + d * b2z (in_bucket "passenger" p)) (pu + d * b2z (is_public p))
    (countDelta (p_Role p) (p_AuthMode p) d s).
Proof.
  intros (H1 & H2 & H3 & H4). unfold countDelta, is_public, in_bucket.
  set (b := roleBucket (p_Role p)).
  destruct (String.eqb_spec b "station") as [-> |].
  { destruct (equal_fold _ _); simpl; unfold counters; simpl;
      rewrite ?H1, ?H2, ?H3, ?H4, ?wrap_i64_add; by split_and!; f_equal; lia. }
  destruct (String.eqb_spec b "control") as [-> |].
  { unfold counters; simpl; rewrite ?H1, ?H2, ?H3, ?H4, ?wrap_i64_add; by split_and!; f_equal; lia. }
  destruct (String.eqb_spec b "passenger") as [-> |];
    unfold counters; simpl; rewrite ?H1, ?H2, ?H3, ?H4, ?wrap_i64_add; by split_and!; f_equal; lia.
Qed.

Lemma counters_set_proxies st co pa pu f s :
  counters st co pa pu (set_proxies f s) ↔ counters st co pa pu s.
Proof. done. Qed.

(** Overwriting an entry without touching its role or auth mode. *)
Lemma counters_ok_update s k o v :
  proxies s !! k = Some o → p_Role v = p_Role o → p_AuthMode v = p_AuthMode o →
  counters_ok s → counters_ok (set_proxies <[k:=v]> s).
Proof.
  intros Hk Hr Ha. unfold counters_ok. simpl. rewrite counters_set_proxies.
  by rewrite !(count_update _ _ _ o) by (done || (unfold is_public, in_bucket; by rewrite Hr, ?Ha)).
Qed.

Lemma counters_eq st co pa pu st' co' pa' pu' s :
  counters st co pa pu s → st = st' → co = co' → pa = pa' → pu = pu' →
  counters st' co' pa' pu' s.
Proof. by intros ? -> -> -> ->. Qed.

Lemma counters_ok_store cc msg now s : counters_ok s → counters_ok (store_register cc msg now s).
Proof.
  intros Hs. unfold store_register. set (key := nodeKey _).
  set (p := registered_proxy cc msg now _).
  apply (counters_set_proxies _ _ _ _ <[key:=p]>) in Hs.
  destruct (proxies s !! key) as [o|] eqn:Ho; unfold counters_ok; rewrite !countDelta_proxies; simpl.
  - rewrite !(count_insert_Some _ _ _ o) by done.
    apply (countDelta_counters o (-1)), (countDelta_counters p 1) in Hs.
    eapply counters_eq; [exact Hs|lia..].
  - rewrite !count_insert_None by done.
    apply (countDelta_counters p 1) in Hs. eapply counters_eq; [exact Hs|lia..].
Qed.

(** *** Purging *)

Definition stale (cutoff : duration) (now : time) (p : ProxyInfo) : bool :=
  cutoff <? time_sub now (p_LastSeen p).

Lemma purge_one_proxies cutoff now s id p :
  proxies (purge_one cutoff now s (id, p)) =
  if stale cutoff now p then delete id (proxies s) else proxies s.
Proof. unfold purge_one, stale. case_if; [|done]. simpl. by rewrite countDelta_proxies. Qed.

Lemma purge_one_frame cutoff now s kv :
  let s' := purge_one cutoff now s kv in
  controlConns s' = controlConns s ∧ metrics s' = metrics s ∧ cfg s' = cfg s ∧
  healthLimiter s' = healthLimiter s.
Proof. destruct kv as [id p]. unfold purge_one. case_if; simpl; by autorewrite with go_rw. Qed.

Lemma purge_one_counters cutoff now s id p :
  proxies s !! id = Some p → counters_ok s → counters_ok (purge_one cutoff now s (id, p)).
Proof.
  intros Hp Hs. unfold purge_one. case_if; [|done].
  unfold counters_ok. simpl. rewrite countDelta_proxies, counters_set_proxies.
  rewrite !(count_delete _ _ _ p) by done.
  apply (countDelta_counters p (-1)) in Hs. eapply counters_eq; [exact Hs|lia..].
Qed.

Lemma purge_fold cutoff now l s :
  NoDup l.*1 → (∀ id p, (id, p) ∈ l → proxies s !! id = Some p) → counters_ok s →
  let s' := fold_left (purge_one cutoff now) l s in
  counters_ok s' ∧
  (∀ id, proxies s' !! id = match proxies s !! id with
                            | Some p => if bool_decide (id ∈ l.*1) && stale cutoff now p
                                        then None else Some p
                            | None => None
                            end).
Proof.
  revert s. induction l as [|[id p] l IH]; intros s Hd Hl Hs;
    cbn [fold_left]; cbv zeta.
  { split; [done|]. intros id. by destruct (proxies s !! id). }
  apply NoDup_cons in Hd as [Hid Hd].
  assert (Hp : proxies s !! id = Some p) by (apply Hl; left).
  destruct (IH (purge_one cutoff now s (id, p))) as [Hc Hx]; [done| |by apply purge_one_counters|].
  { intros id' p' Hin. rewrite purge_one_proxies.
    assert (id' ≠ id) by (intros ->; apply Hid, list_elem_of_fmap; by exists (id, p')).
    case_if; rewrite ?lookup_delete_ne by done; apply Hl; by right. }
  split; [exact Hc|]. intros id'. rewrite Hx, purge_one_proxies. clear Hx Hc IH.
  destruct (decide (id' = id)) as [-> | Hne].
  - rewrite Hp, (bool_decide_eq_false_2 (id ∈ l.*1)), bool_decide_eq_true_2 by (done || (simpl; left)).
    destruct (stale cutoff now p) eqn:Es; simpl; [by rewrite lookup_delete_eq|]. by rewrite Hp.
  - rewrite (bool_decide_ext (id' ∈ ((id, p) :: l).*1) (id' ∈ l.*1)).
    + by case_if; rewrite ?lookup_delete_ne by done.
    + simpl. rewrite elem_of_cons. split; [by intros [?|?]|by right].
Qed.

Lemma purge_spec now s :
  counters_ok s →
  counters_ok (purge now s) ∧
  proxies (purge now s) = filter (λ kv, stale (ProxyPurgeOrDefault s) now kv.2 = false) (proxies s).
Proof.
  intros Hs. unfold purge.
  destruct (purge_fold (ProxyPurgeOrDefault s) now (map_to_list (proxies s)) s) as [Hc Hx];
    [apply NoDup_fst_map_to_list|by intros ???%elem_of_map_to_list|done|].
  split; [exact Hc|]. apply map_eq. intros id. rewrite Hx.
  destruct (proxies s !! id) as [p|] eqn:Hp.
  - rewrite bool_decide_eq_true_2
      by (apply list_elem_of_fmap; exists (id, p); split; [done|by apply elem_of_map_to_list]).
    destruct (stale _ now p) eqn:Es; simpl; symmetry.
    + apply map_lookup_filter_None. right. intros q Hq. simpl. congruence.
    + by apply map_lookup_filter_Some.
  - symmetry. apply map_lookup_filter_None. by left.
Qed.

Lemma purge_frame now s :
  controlConns (purge now s) = controlConns s ∧ cfg (purge now s) = cfg s ∧
  healthLimiter (purge now s) = healthLimiter s.
Proof.
  unfold purge. apply (fold_left_inv (λ s', controlConns s' = controlConns s ∧ cfg s' = cfg s ∧
    healthLimiter s' = healthLimiter s)); [done|].
  intros s' kv _ (<- & <- & <-).
  destruct (purge_one_frame (ProxyPurgeOrDefault s) now s' kv) as (-> & _ & -> & ->). done.
Qed.

(** ** What a handler may touch *)

(** Between [s] and [s'] only the entry [key] and the metrics may differ, and
    that entry only as [R] allows; the roster gains and loses no entry. *)
Record touched (R : ProxyInfo → ProxyInfo → Prop) (key : string) (s s' : Server) : Prop := {
  t_other : ∀ k, k ≠ key → proxies s' !! k = proxies s !! k;
  t_key : option_Forall2 R (proxies s !! key) (proxies s' !! key);
  t_conns : controlConns s' = controlConns s;
  t_cfg : cfg s' = cfg s;
  t_limiter : healthLimiter s' = healthLimiter s;
  t_counters : (cntStation s', cntControl s', cntPassenger s', cntPublic s') =
               (cntStation s, cntControl s, cntPassenger s, cntPublic s)
}.

(** Only the liveness fields differ; only the learned address differs. *)
Definition live_only (o v : ProxyInfo) : Prop :=
  v = set_Services (p_Services v) (set_LastSeen (p_LastSeen v) o).
Definition addr_only (o v : ProxyInfo) : Prop :=
  v = o ∨ ∃ u a, v = set_UDPAddr u a o ∧ (p_AddrManual o = true → a = p_Addr o).

#[local] Instance live_only_refl : Reflexive live_only.
Proof. by intros []. Qed.
#[local] Instance live_only_trans : Transitive live_only.
Proof. intros a b c. unfold live_only. by intros -> ->. Qed.
#[local] Instance addr_only_refl : Reflexive addr_only.
Proof. by left. Qed.

Lemma touched_refl R key s : Reflexive R → touched R key s s.
Proof. intros HR. by split. Qed.

Lemma touched_trans R key s1 s2 s3 :
  Transitive R → touched R key s1 s2 → touched R key s2 s3 → touched R key s1 s3.
Proof.
  intros HR [A1 A2 A3 A4 A5 A6] [B1 B2 B3 B4 B5 B6]. split; try congruence.
  - intros k Hk. by rewrite B1, A1.
  - inversion A2; inversion B2; simplify_eq; try congruence; constructor. etrans; [done|congruence].
Qed.

Lemma touched_update (R : ProxyInfo → ProxyInfo → Prop) key s o v mets :
  proxies s !! key = Some o → R o v → touched R key s (set_metrics mets (set_proxies <[key:=v]> s)).
Proof.
  intros Ho HR. split; try done; simpl.
  - intros k Hk. by rewrite lookup_insert_ne.
  - rewrite Ho, lookup_insert_eq. by constructor.
Qed.

Lemma touched_update' (R : ProxyInfo → ProxyInfo → Prop) key s o v :
  proxies s !! key = Some o → R o v → touched R key s (set_proxies <[key:=v]> s).
Proof. intros Ho HR. exact (touched_update R key s o v id Ho HR). Qed.

(** The fields [R] must keep for the invariants. *)
Definition keeps_identity (R : ProxyInfo → ProxyInfo → Prop) : Prop :=
  ∀ o v, R o v → p_Role v = p_Role o ∧ p_AuthMode v = p_AuthMode o ∧ p_ID v = p_ID o ∧
                 p_ControlIP v = p_ControlIP o.

Lemma live_only_identity : keeps_identity live_only.
Proof. intros o v ->. done. Qed.
Lemma addr_only_identity : keeps_identity addr_only.
Proof. intros o v [-> |(u & a & -> & _)]; done. Qed.

Lemma touched_cases R key s s' :
  touched R key s s' →
  (proxies s !! key = None ∧ proxies s' = proxies s) ∨
  (∃ o v, proxies s !! key = Some o ∧ R o v ∧ proxies s' = <[key:=v]> (proxies s)).
Proof.
  intros [A1 A2 _ _ _ _]. inversion A2 as [o v HR Ho Hv|Ho Hv].
  - right. exists o, v. split_and!; [done..|]. apply map_eq. intros k.
    destruct (decide (k = key)) as [-> | Hk]; [by rewrite lookup_insert_eq|].
    rewrite lookup_insert_ne by done. by apply A1.
  - left. split; [done|]. apply map_eq. intros k.
    destruct (decide (k = key)) as [-> | Hk]; [congruence|by apply A1].
Qed.

Lemma touched_counters R key s s' :
  keeps_identity R → touched R key s s' → counters_ok s → counters_ok s'.
Proof.
  intros HR Ht Hs. pose proof (t_counters _ _ _ _ Ht) as Hc. simplify_eq.
  assert (∀ f : ProxyInfo → bool,
    (∀ o v, p_Role v = p_Role o → p_AuthMode v = p_AuthMode o → f v = f o) →
    count f (proxies s') = count f (proxies s)) as Hf.
  { intros f Hf. destruct (touched_cases _ _ _ _ Ht) as [[_ ->]|(o & v & Ho & Hov & ->)]; [done|].
    apply (count_update _ _ _ o); [done|]. destruct (HR _ _ Hov) as (? & ? & _). by apply Hf. }
  unfold counters_ok, counters in *.
  assert (∀ b o v, p_Role v = p_Role o → in_bucket b v = in_bucket b o) as Hb
    by (unfold in_bucket; by intros b o v ->).
  rewrite !Hf; [destruct Hs as (? & ? & ? & ?); split_and!; congruence|..];
    intros o v Hr Ha; unfold is_public; rewrite ?Ha; by rewrite (Hb _ o v Hr).
Qed.

(** *** The handlers *)

Lemma applyPing_touched cc msg now s :
  touched live_only (nodeKey (m_ID msg)) s (applyPing cc msg now s).1.
Proof.
  unfold applyPing. case_if; [by apply touched_refl, _|].
  destruct (verifyPingSignature _ _); [|by apply touched_refl, _].
  destruct (proxies s !! _) as [p|] eqn:Hp; [|by apply touched_refl, _].
  simpl. eapply touched_update'; [exact Hp|]. by destruct p.
Qed.

Lemma applyServiceMetric_touched id m now s :
  touched live_only (nodeKey id) s (applyServiceMetric id m now s).
Proof.
  unfold applyServiceMetric. case_if; [by apply touched_refl, _|].
  destruct (proxies s !! _) as [p|] eqn:Hp; [|by apply touched_refl, _].
  cbv zeta. eapply touched_update; [exact Hp|]. by destruct p.
Qed.

Lemma applyServiceEvent_touched msg now s :
  touched live_only (nodeKey (m_ID msg)) s (applyServiceEvent msg now s).
Proof.
  unfold applyServiceEvent. case_if; [by apply touched_refl, _|]. case_if.
  { unfold applyServiceLifecycle. case_if; [by apply touched_refl, _|].
    destruct (proxies s !! _) as [p|] eqn:Hp; [|by apply touched_refl, _].
    cbv zeta. eapply touched_update'; [exact Hp|]. by destruct p. }
  destruct (m_MetricsBatch msg) as [|m0 l].
  { destruct (m_Metrics msg) as [m|]; [|by apply touched_refl, _].
    case_if; [by apply touched_refl, _|]. apply applyServiceMetric_touched. }
  apply (fold_left_inv (λ s', touched live_only (nodeKey (m_ID msg)) s s'));
    [by apply touched_refl, _|].
  intros s' m _ Hs. eapply touched_trans; [apply _|exact Hs|]. apply applyServiceMetric_touched.
Qed.

Lemma learnPublicAddr_touched id src s :
  touched addr_only (nodeKey id) s (learnPublicAddr id src s).
Proof.
  unfold learnPublicAddr. destruct (proxies s !! _) as [p|] eqn:Hp; [|by apply touched_refl, _].
  destruct src as [| ip str |]; [by apply touched_refl, _| |by apply touched_refl, _].
  case_if; [by apply touched_refl, _|]. eapply touched_update'; [exact Hp|].
  right. eexists _, _. split; [done|]. by intros ->.
Qed.

(** What a frame of connection [cc] does to the server. *)
Lemma handle_frame_cases cc msg now s :
  let s' := (handle_frame cc msg now s).1 in
  let msg' := set_msg_ID (cc_nodeID cc) msg in
  touched live_only (nodeKey (cc_nodeID cc)) s s' ∨
  (m_Type msg = TypeRegister ∧ s' = store_register cc msg' now s ∧
   (m_FullSync msg = true →
    verifyRegisterSignature msg' (hashHardwareForVerify (m_Hardware msg)) now = Ok tt ∧
    (modeProtected s = true → admitRegister s msg' now = Ok tt))).
Proof.
  unfold handle_frame. cbv zeta.
  destruct (String.eqb_spec (m_Type msg) TypeRegister) as [Ety|_].
  { unfold applyRegister. cbn [m_ID set_msg_ID m_FullSync m_Hardware].
    rewrite String.eqb_refl. cbn [negb].
    destruct (m_FullSync msg); [|by right].
    destruct (verifyRegisterSignature _ _ now) as [[]|e] eqn:Ev; [|by left; apply touched_refl, _].
    destruct (modeProtected s); [|by right].
    destruct (admitRegister s _ now) as [[]|e] eqn:Ea; [|by left; apply touched_refl, _].
    by right. }
  left. case_if; [by apply touched_refl, _|].
  case_if; [apply (applyPing_touched cc (set_msg_ID (cc_nodeID cc) msg))|].
  case_if; [apply (applyServiceEvent_touched (set_msg_ID (cc_nodeID cc) msg))|by apply touched_refl, _].
Qed.

(** ** Invariant of the reachable states *)

(** Entries are filed under their own normalised id. *)
Definition keys_ok (s : Server) : Prop :=
  map_Forall (λ k p, p_ID p = k ∧ nodeKey k = k) (proxies s).

Definition srv_ok (c : ServerConfig) (s : Server) : Prop :=
  counters_ok s ∧ keys_ok s ∧ cfg s = c.

Lemma touched_ok c R key s s' : keeps_identity R → touched R key s s' → srv_ok c s → srv_ok c s'.
Proof.
  intros HR Ht (Hc & Hk & Hcfg). split_and!.
  - by eapply touched_counters.
  - destruct (touched_cases _ _ _ _ Ht) as [[_ Hp]|(o & v & Ho & Hov & Hp)];
      unfold keys_ok; rewrite Hp; [done|].
    destruct (HR _ _ Hov) as (_ & _ & Hid & _).
    apply map_Forall_insert_2; [|done]. rewrite Hid. by apply Hk.
  - by rewrite (t_cfg _ _ _ _ Ht).
Qed.

Lemma store_register_frame cc msg now s :
  let s' := store_register cc msg now s in
  controlConns s' = controlConns s ∧ cfg s' = cfg s ∧ healthLimiter s' = healthLimiter s ∧
  metrics s' = metrics s ∧
  proxies s' = <[nodeKey (m_ID msg) := registered_proxy cc msg now
                   (default (new_proxy now) (proxies s !! nodeKey (m_ID msg)))]> (proxies s).
Proof.
  unfold store_register. cbv zeta.
  destruct (proxies s !! _) as [o|]; autorewrite with go_rw; done.
Qed.

Lemma registered_ID cc msg now p : p_ID (registered_proxy cc msg now p) = nodeKey (m_ID msg).
Proof. unfold registered_proxy. by repeat case_scrut. Qed.

Section laws.
Context {L : GoUnicodeLaws U}.

Lemma nodeKey_idem id : nodeKey (nodeKey id) = nodeKey id.
Proof.
  unfold nodeKey at 2 3. destruct (index_byte id ":") as [i|] eqn:Ei.
  - apply index_byte_Some in Ei as (a & b & -> & <- & Ha).
    rewrite take_str_app, drop_str_S_app. change (":" ++s to_lower b) with (String ":" (to_lower b)).
    unfold nodeKey.
    rewrite index_byte_app by by apply to_upper_colon. rewrite take_str_app, drop_str_S_app.
    by rewrite to_upper_idem, to_lower_idem.
  - apply index_byte_None in Ei. unfold nodeKey.
    rewrite (proj2 (index_byte_None _ _)) by by apply to_lower_colon. by rewrite to_lower_idem.
Qed.

Lemma store_register_ok c cc msg now s : srv_ok c s → srv_ok c (store_register cc msg now s).
Proof.
  intros (Hc & Hk & Hcfg).
  destruct (store_register_frame cc msg now s) as (_ & Hf & _ & _ & Hp). split_and!.
  - by apply counters_ok_store.
  - unfold keys_ok. rewrite Hp. apply map_Forall_insert_2; [|done].
    split; [apply registered_ID|apply nodeKey_idem].
  - congruence.
Qed.

Lemma same_server_ok c s s' :
  proxies s' = proxies s → cfg s' = cfg s →
  (cntStation s', cntControl s', cntPassenger s', cntPublic s') =
  (cntStation s, cntControl s, cntPassenger s, cntPublic s) →
  srv_ok c s → srv_ok c s'.
Proof.
  unfold srv_ok, counters_ok, keys_ok, counters. intros -> -> [= -> -> -> ->]. done.
Qed.
End laws.
End proofs.
