(* ===== verification/RvTheorems.v ===== *)
(** * pkg/rendezvous: properties of the running server

    Theorems over arbitrary histories of events ([RvServer.run]): the discovery
    counters, who can put an entry in the roster, what one connection can
    change, which connection a node's pushes go to, address learning, purging
    and the health limiter. *)

From S2P Require Import Prelude GoStrings GoStringsFacts Strconv Hardware GoAny GoTime Auth.
From S2P Require Import Tunnel Signal SessionCache RvTypes RvAuth RvService RvServer RvProofs.
From Stdlib Require Import ZArith Lia ZifyBool Bool Ascii String SpecFloat.
From stdpp Require Import base option list gmap strings.

Open Scope go_scope.
Open Scope Z_scope.

Section theorems.
Context {U : GoUnicode} {H : Sha256} {E : EthCrypto} {J : HardwareJSON} {X : X509}.

(** ** One step *)

Lemma handle_hello_frame conn remote first ack_ok now s :
  let s' := (handle_hello conn remote first ack_ok now s).1.1 in
  proxies s' = proxies s ∧ cfg s' = cfg s ∧ metrics s' = metrics s ∧
  healthLimiter s' = healthLimiter s ∧
  (cntStation s', cntControl s', cntPassenger s', cntPublic s') =
  (cntStation s, cntControl s, cntPassenger s, cntPublic s).
Proof.
  unfold handle_hello, hello_swap, compare_and_delete. destruct first as [f|]; [|done].
  do 2 (case_if; [done|]). destruct ack_ok; [done|]. cbn [fst].
  simpl. destruct (_ !! _) as [cur|]; [|done]. by case_if.
Qed.

Lemma compare_and_delete_frame cc s :
  let s' := compare_and_delete cc s in
  proxies s' = proxies s ∧ cfg s' = cfg s ∧ metrics s' = metrics s ∧
  healthLimiter s' = healthLimiter s ∧
  (cntStation s', cntControl s', cntPassenger s', cntPublic s') =
  (cntStation s, cntControl s, cntPassenger s, cntPublic s).
Proof. unfold compare_and_delete. destruct (_ !! _); [|done]. by case_if. Qed.

(** A datagram learns one address or moves the limiter. *)
Lemma handle_datagram_cases src buf now s :
  let s' := (handle_datagram src buf now s).1 in
  (∃ id, buf = String (ch 1) id ∧ s' = learnPublicAddr id src s) ∨ ∃ l, s' = set_limiter l s.
Proof.
  assert (∃ l, s = set_limiter l s) as Hid by (exists (healthLimiter s); by destruct s).
  unfold handle_datagram. case_if; [by right|]. destruct buf as [|b rest]; [by right|].
  destruct (byte_val b =? 1)%nat eqn:Eb.
  { breflect Eb. case_if; [by right|]. left. exists rest. split; [|done].
    f_equal. rewrite <-(ch_byte_val b). by rewrite Eb. }
  case_if; [by right|]. case_if; [|by right]. case_if; [by right|].
  destruct (allow _ _ _) as [l ok]. right. by exists l.
Qed.

Lemma cleanup_frame now s :
  let s' := cleanup_tick now s in
  proxies s' = proxies (purge now s) ∧ controlConns s' = controlConns s ∧ cfg s' = cfg s ∧
  (cntStation s', cntControl s', cntPassenger s', cntPublic s') =
  (let p := purge now s in (cntStation p, cntControl p, cntPassenger p, cntPublic p)).
Proof.
  destruct (purge_frame now s) as (Hc & Hf & _). by split_and!.
Qed.

Section laws.
Context {L : GoUnicodeLaws U}.

Lemma sys_step_ok c ev y : srv_ok c (srv y) → srv_ok c (srv (sys_step ev y).1).
Proof.
  intros Hs. destruct ev as [remote first ack_ok now|conn msg now|conn|src buf now|now|ra now]; simpl.
  - destruct (handle_hello_frame (next_conn y) remote first ack_ok now (srv y)) as (? & ? & _ & _ & ?).
    destruct (handle_hello _ _ _ _ _ _) as [[s' out] est]. simpl in *. by eapply same_server_ok.
  - destruct (live y !! conn) as [cc|]; [|done].
    pose proof (handle_frame_cases cc msg now (srv y)) as Hc.
    destruct (handle_frame cc msg now (srv y)) as [s' out]. simpl in *.
    destruct Hc as [Ht|(_ & -> & _)].
    + by eapply touched_ok; [apply live_only_identity|..].
    + by apply store_register_ok.
  - destruct (live y !! conn) as [cc|]; [|done]. simpl.
    destruct (compare_and_delete_frame cc (srv y)) as (? & ? & _ & _ & ?). by eapply same_server_ok.
  - pose proof (handle_datagram_cases src buf now (srv y)) as Hc.
    destruct (handle_datagram src buf now (srv y)) as [s' out]. simpl in *.
    destruct Hc as [(id & _ & ->)|[l ->]]; [|done].
    eapply touched_ok; [apply addr_only_identity|apply learnPublicAddr_touched|done].
  - destruct Hs as (Hc & Hk & Hf). destruct (purge_spec now (srv y) Hc) as [Hc' Hp].
    destruct (cleanup_frame now (srv y)) as (Hp' & _ & Hf' & Hn).
    split_and!.
    + unfold counters_ok, counters in *. rewrite Hp'. simplify_eq. exact Hc'.
    + unfold keys_ok. rewrite Hp', Hp. by intros k p [? _]%map_lookup_filter_Some; apply Hk.
    + by rewrite Hf'.
  - unfold health_gate. case_if; [done|]. by destruct (allow _ _ _).
Qed.

Lemma run_ok c evs : srv_ok c (srv (run c evs)).
Proof.
  unfold run. apply (fold_left_inv (λ y, srv_ok c (srv y))).
  - split_and!; [|apply map_Forall_empty|done].
    unfold counters_ok, counters. simpl. by rewrite !count_empty.
  - intros y ev _. apply sys_step_ok.
Qed.
End laws.

Lemma run_snoc c evs ev : run c (evs ++ [ev]) = (sys_step ev (run c evs)).1.
Proof. unfold run. by rewrite fold_left_app. Qed.

(** ** Counters *)

(** in every reachable state the O(1) discovery counters served by /health
    are exactly the numbers of registered stations, controls, passengers and
    public stations, through role swaps, auth-mode flips, re-registers and
    purges (for rosters of less than 2^63 entries). *)
Theorem counters_exact {L : GoUnicodeLaws U} c evs :
  let s := srv (run c evs) in
  Z.of_nat (size (proxies s)) ≤ max_i64 →
  cntStation s = count (in_bucket "station") (proxies s) ∧
  cntControl s = count (in_bucket "control") (proxies s) ∧
  cntPassenger s = count (in_bucket "passenger") (proxies s) ∧
  cntPublic s = count is_public (proxies s).
Proof.
  intros s Hsz. destruct (run_ok c evs) as [(H1 & H2 & H3 & H4) _]. fold s in H1, H2, H3, H4.
  rewrite H1, H2, H3, H4.
  assert (∀ f, wrap_i64 (count f (proxies s)) = count f (proxies s)) as Hw.
  { intros f. apply wrap_i64_id. pose proof (count_bound f (proxies s)).
    unfold in_i64, min_i64. lia. }
  by rewrite !Hw.
Qed.

(** in every reachable state each entry is filed under its own node id in
    normal form, so the spellings of one address share one entry. *)
Theorem roster_normalised {L : GoUnicodeLaws U} c evs k p id :
  proxies (srv (run c evs)) !! k = Some p →
  p_ID p = k ∧ nodeKey k = k ∧
  (nodeKey id = k → proxies (srv (run c evs)) !! nodeKey id = Some p ∧ nodeKey (p_ID p) = nodeKey id).
Proof.
  intros Hk. destruct (run_ok c evs) as (_ & Hkeys & _). destruct (Hkeys _ _ Hk) as [H1 H2].
  split_and!; [done..|]. intros ->. by rewrite H1.
Qed.

(** ** Who can be on the roster *)

(** The history has no delta (non-FullSync) register frame. *)
Definition is_delta (ev : event) : bool :=
  match ev with
  | EvFrame _ msg _ => (m_Type msg =s? TypeRegister) && negb (m_FullSync msg)
  | _ => false
  end.

(** The history holds a FullSync register for [k], signed by the address in
    its id and, in protected mode, admitted. *)
Definition authorised (c : ServerConfig) (evs : list event) (k : string) : Prop :=
  ∃ conn msg now id, EvFrame conn msg now ∈ evs ∧ nodeKey id = k ∧
    verifyRegisterSignature (set_msg_ID id msg) (hashHardwareForVerify (m_Hardware msg)) now = Ok tt ∧
    (equal_fold (cfg_Mode c) "protected" = true →
     admitRegister (NewServer c) (set_msg_ID id msg) now = Ok tt).

Lemma admitRegister_cfg s s' msg now :
  cfg s = cfg s' → admitRegister s msg now = admitRegister s' msg now.
Proof.
  intros Hc. unfold admitRegister. case_if; [done|]. case_if; [done|].
  destruct (addrFromNodeID _); [|done].
  generalize [(CredentialMessage (addr_hex v) (m_CredIssuedMs msg) (m_CredExpireMs msg), true);
              (CredentialMessage "" (m_CredIssuedMs msg) (m_CredExpireMs msg), false)].
  intros l. induction l as [|[a b] l IH]; simpl; [done|]. by rewrite Hc, IH.
Qed.

Lemma authorised_mono c evs ev k : authorised c evs k → authorised c (evs ++ [ev]) k.
Proof.
  intros (conn & msg & now & id & Hin & Hr). exists conn, msg, now, id.
  split; [|done]. apply elem_of_app. by left.
Qed.

(** without delta registers, nobody enters the roster unauthorised: in
    every state reached by a history without them, each entry goes back to a
    FullSync register frame whose signature recovers to the address in the node
    id and which, on a protected server, carried a valid issuer credential. *)
Theorem roster_authorised {L : GoUnicodeLaws U} c evs k p :
  existsb is_delta evs = false →
  proxies (srv (run c evs)) !! k = Some p → authorised c evs k.
Proof.
  revert k p. induction evs as [|ev evs IH] using rev_ind; intros k p Hd; [done|].
  rewrite existsb_app in Hd. apply orb_false_iff in Hd as [Hd Hev]. simpl in Hev.
  rewrite orb_false_r in Hev. rewrite run_snoc.
  pose proof (run_ok c evs) as (_ & _ & Hcfg).
  assert (∀ q, proxies (srv (run c evs)) !! k = Some q → authorised c (evs ++ [ev]) k) as Hold
    by (intros q Hq; eapply authorised_mono, IH; eauto).
  assert (∀ R key s', touched R key (srv (run c evs)) s' → proxies s' !! k = Some p →
            authorised c (evs ++ [ev]) k) as Htouch.
  { intros R key s' Ht Hp. destruct (touched_cases _ _ _ _ Ht) as [[_ He]|(o & v & Ho & _ & He)];
      rewrite He in Hp; [by eapply Hold|].
    apply lookup_insert_Some in Hp as [[<- _]|[_ Hp]]; by eapply Hold. }
  destruct ev as [remote first ack_ok now|conn msg now|conn|src buf now|now|ra now]; simpl.
  - destruct (handle_hello_frame (next_conn (run c evs)) remote first ack_ok now (srv (run c evs)))
      as (Hp & _). destruct (handle_hello _ _ _ _ _ _) as [[s' out] est]. simpl in *.
    rewrite Hp. apply Hold.
  - destruct (live (run c evs) !! conn) as [cc|]; [|apply Hold].
    pose proof (handle_frame_cases cc msg now (srv (run c evs))) as Hc.
    destruct (handle_frame cc msg now (srv (run c evs))) as [s' out] eqn:Ef. simpl in *.
    destruct Hc as [Ht|(Hty & -> & Hv)]; [by apply Htouch with (1 := Ht)|].
    destruct (store_register_frame cc (set_msg_ID (cc_nodeID cc) msg) now (srv (run c evs)))
      as (_ & _ & _ & _ & ->).
    intros [[<- _]|[_ Hp]]%lookup_insert_Some; [|by eapply Hold].
    assert (m_FullSync msg = true) as Hfs.
    { destruct (m_FullSync msg) eqn:E0; [done|]. by rewrite Hty in Hev. }
    destruct (Hv Hfs) as [Hsig Hadm].
    exists conn, msg, now, (cc_nodeID cc). split_and!; [apply elem_of_app; right; by left|done|done|].
    intros Hm. rewrite <-(admitRegister_cfg (srv (run c evs))) by done.
    apply Hadm. unfold modeProtected. by rewrite Hcfg.
  - destruct (live (run c evs) !! conn) as [cc|]; [|apply Hold]. simpl.
    destruct (compare_and_delete_frame cc (srv (run c evs))) as (-> & _). apply Hold.
  - pose proof (handle_datagram_cases src buf now (srv (run c evs))) as Hc.
    destruct (handle_datagram src buf now (srv (run c evs))) as [s' out]. simpl in *.
    destruct Hc as [(id & _ & ->)|[l ->]]; [|apply Hold].
    eapply Htouch, learnPublicAddr_touched.
  - destruct (run_ok c evs) as (Hcnt & _). destruct (purge_spec now _ Hcnt) as [_ Hp].
    destruct (cleanup_frame now (srv (run c evs))) as (Hp' & _).
    change (proxies (cleanup_tick now (srv (run c evs))) !! k = Some p →
            authorised c (evs ++ [EvTick now]) k). rewrite Hp', Hp.
    intros [Hq _]%map_lookup_filter_Some. by eapply Hold.
  - unfold health_gate. case_if; [apply Hold|]. destruct (allow _ _ _). apply Hold.
Qed.

(** admission covers FullSync registers only: whatever the mode and the
    issuers, a delta register on a connection creates or overwrites the entry
    of the id that connection said hello with, with no signature checked. *)
Theorem delta_register_unchecked cc msg now s :
  m_Type msg = TypeRegister → m_FullSync msg = false →
  ∃ p, proxies (handle_frame cc msg now s).1 !! nodeKey (cc_nodeID cc) = Some p ∧
       p_Role p = m_Role msg ∧ p_LastSeen p = now.
Proof.
  intros Hty Hfs. unfold handle_frame, applyRegister. rewrite Hty.
  cbn [m_ID set_msg_ID m_FullSync]. rewrite !String.eqb_refl, Hfs. cbn [negb fst].
  destruct (store_register_frame cc (set_msg_ID (cc_nodeID cc) msg) now s) as (_ & _ & _ & _ & ->).
  cbn [m_ID set_msg_ID]. rewrite lookup_insert_eq. eexists. split; [done|].
  unfold registered_proxy. by repeat case_scrut.
Qed.

(** ** What one connection can do *)

Lemma applyServiceMetric_metrics id m now s k :
  k ≠ id → metrics (applyServiceMetric id m now s) !! k = metrics s !! k.
Proof.
  intros Hk. unfold applyServiceMetric. case_if; [done|]. destruct (proxies s !! _); [|done].
  cbv zeta. simpl. unfold metricKey. by rewrite lookup_insert_ne.
Qed.

Lemma applyServiceEvent_metrics msg now s k :
  k ≠ m_ID msg → metrics (applyServiceEvent msg now s) !! k = metrics s !! k.
Proof.
  intros Hk. unfold applyServiceEvent. case_if; [done|]. case_if.
  { unfold applyServiceLifecycle. case_if; [done|]. by destruct (proxies s !! _). }
  destruct (m_MetricsBatch msg) as [|m0 l].
  { destruct (m_Metrics msg) as [m|]; [|done]. case_if; [done|]. by apply applyServiceMetric_metrics. }
  apply (fold_left_inv (λ s', metrics s' !! k = metrics s !! k)); [done|].
  intros s' m _ <-. by apply applyServiceMetric_metrics.
Qed.

(** A frame the handler may emit while serving connection [cc]: one to [cc]
    itself, or a punch in [cc]'s name to the registered connection of the node
    it asked to be connected to. *)
Definition allowed_output (cc : controlConn) (msg : RendezvousMsg) (s : Server) (o : output) : Prop :=
  (∃ m, o = Send (cc_conn cc) m) ∨
  (m_Type msg = TypeConnect ∧ ∃ t a, controlConns s !! nodeKey (m_ID msg) = Some t ∧
     o = Send (cc_conn t) (simple_msg TypePunch (cc_nodeID cc) a [])).

Definition to_self (cc : controlConn) (o : output) : Prop := ∃ m, o = Send (cc_conn cc) m.

Lemma applyRegister_effect cc msg now s :
  metrics (applyRegister cc msg now s).1 = metrics s ∧
  Forall (to_self cc) (applyRegister cc msg now s).2.
Proof.
  pose proof (store_register_frame cc msg now s) as (_ & _ & _ & Hm & _).
  assert (∀ m, Forall (to_self cc) [Send (cc_conn cc) m]) as Hs
    by (intros m; repeat constructor; by exists m).
  assert (∀ m, metrics s = metrics s ∧ Forall (to_self cc) [Send (cc_conn cc) m]) as Hr
    by (intros m; split; [done|apply Hs]).
  unfold applyRegister. case_if; [apply Hr|]. case_if; [|by split; [|constructor]].
  destruct (verifyRegisterSignature _ _ _); [|apply Hr].
  case_if; [|by split; [|constructor]].
  destruct (admitRegister _ _ _); [by split; [|constructor]|apply Hr].
Qed.

Lemma applyPing_effect cc msg now s :
  metrics (applyPing cc msg now s).1 = metrics s ∧ Forall (to_self cc) (applyPing cc msg now s).2.
Proof.
  unfold applyPing. case_if; [by split; [|constructor]|].
  destruct (verifyPingSignature _ _); [|by split; [|constructor]].
  destruct (proxies s !! _); (split; [done|]); repeat constructor. by eexists.
Qed.

Lemma handleConnect_output cc msg s o :
  m_Type msg = TypeConnect → o ∈ handleConnect cc msg s → allowed_output cc msg s o.
Proof.
  intros Hty. unfold handleConnect. case_if.
  { intros ->%list_elem_of_singleton. left. by eexists. }
  destruct (proxies s !! _) as [p|]; [|intros ->%list_elem_of_singleton; left; by eexists].
  intros [Ho|Ho]%elem_of_app; [|apply list_elem_of_singleton in Ho as ->; left; by eexists].
  case_if; [|by apply elem_of_nil in Ho]. unfold PushToNode in Ho.
  destruct (controlConns s !! _) as [t|] eqn:Ht; [|by apply elem_of_nil in Ho].
  apply list_elem_of_singleton in Ho as ->. right. split; [done|]. by exists t, (requester_addr s cc).
Qed.

Lemma handle_frame_effect cc msg now s :
  (∀ id, id ≠ cc_nodeID cc → metrics (handle_frame cc msg now s).1 !! id = metrics s !! id) ∧
  Forall (allowed_output cc msg s) (handle_frame cc msg now s).2.
Proof.
  assert (∀ l, Forall (to_self cc) l → Forall (allowed_output cc msg s) l) as Hself
    by (intros l Hl; eapply Forall_impl; [exact Hl|]; intros o Ho; by left).
  unfold handle_frame. set (msg' := set_msg_ID (cc_nodeID cc) msg). case_if.
  { pose proof (applyRegister_effect cc msg' now s) as [Hm Ho].
    destruct (applyRegister cc msg' now s) as [s' out]. simpl in *. rewrite Hm. split; [done|].
    apply Hself, Forall_app. split; [done|]. repeat constructor. by eexists. }
  case_if; [split; [done|]; apply Forall_forall; intros o; by apply handleConnect_output|].
  case_if; [pose proof (applyPing_effect cc msg' now s) as [Hm Ho]; rewrite Hm; split; by auto|].
  case_if; [split; [|constructor]; intros id Hid; by apply applyServiceEvent_metrics|].
  by split; [|constructor].
Qed.

(** C19: a control connection acts only for the identity it said hello with.
    Whatever frame it sends, with whatever id inside, no other node's registry
    entry or metrics change, the connection registry does not change, and the
    only frames sent go to itself or are a punch request, in its own name, to
    the node named in its own connect frame. *)
Theorem frame_isolation cc msg now s :
  let '(s', out) := handle_frame cc msg now s in
  (∀ k, k ≠ nodeKey (cc_nodeID cc) → proxies s' !! k = proxies s !! k) ∧
  (∀ id, id ≠ cc_nodeID cc → metrics s' !! id = metrics s !! id) ∧
  controlConns s' = controlConns s ∧
  Forall (allowed_output cc msg s) out.
Proof.
  pose proof (handle_frame_cases cc msg now s) as Hc.
  pose proof (handle_frame_effect cc msg now s) as [Hm Hout].
  destruct (handle_frame cc msg now s) as [s' out]. simpl in *. split_and!; [|exact Hm| |exact Hout].
  - intros k Hk. destruct Hc as [Ht|(_ & -> & _)]; [by apply (t_other _ _ _ _ Ht)|].
    destruct (store_register_frame cc (set_msg_ID (cc_nodeID cc) msg) now s) as (_ & _ & _ & _ & ->).
    by rewrite lookup_insert_ne.
  - destruct Hc as [Ht|(_ & -> & _)]; [by apply (t_conns _ _ _ _ Ht)|].
    by destruct (store_register_frame cc (set_msg_ID (cc_nodeID cc) msg) now s) as (-> & _).
Qed.

(** ** The connection registry refines an abstract one *)

(** What the registry promises: per node, the newest connection that ever said
    hello for it, as long as that connection is up. *)
Record RegSpec := mkSpec { newest : gmap string nat; up : gset nat; issued : nat }.

Definition hello_of (first : option RendezvousMsg) : option string :=
  match first with
  | Some f => if (m_Type f =s? TypeHello) && negb (m_ID f =s? "") then Some (m_ID f) else None
  | None => None
  end.

Definition spec_step (ev : event) (r : RegSpec) : RegSpec :=
  match ev with
  | EvAccept _ first ack_ok _ =>
      let conn := issued r in
      match hello_of first with
      | Some id => mkSpec (<[nodeKey id := conn]> (newest r))
                     (if ack_ok then {[conn]} ∪ up r else up r) (S conn)
      | None => mkSpec (newest r) (up r) (S conn)
      end
  | EvClosed conn => mkSpec (newest r) (up r ∖ {[conn]}) (issued r)
  | _ => r
  end.

Definition spec_run (evs : list event) : RegSpec :=
  fold_left (λ r ev, spec_step ev r) evs (mkSpec ∅ ∅ 0%nat).

Definition spec_lookup (r : RegSpec) (k : string) : option nat :=
  match newest r !! k with
  | Some n => if bool_decide (n ∈ up r) then Some n else None
  | None => None
  end.

(** The simulation relation. *)
Record reg_rel (y : Sys) (r : RegSpec) : Prop := {
  rr_next : next_conn y = issued r;
  rr_up : ∀ n, n ∈ up r ↔ is_Some (live y !! n);
  rr_conn : ∀ n cc, live y !! n = Some cc → cc_conn cc = n ∧ (n < next_conn y)%nat;
  rr_newest : ∀ k n cc, newest r !! k = Some n → live y !! n = Some cc → nodeKey (cc_nodeID cc) = k;
  rr_issued : ∀ k n, newest r !! k = Some n → (n < issued r)%nat;
  rr_lookup : ∀ k, controlConns (srv y) !! k = (spec_lookup r k ≫= λ n, live y !! n)
}.

Lemma reg_rel_same y r s :
  controlConns s = controlConns (srv y) → reg_rel y r → reg_rel (mkSys s (live y) (next_conn y)) r.
Proof. intros Hs [A1 A2 A3 A4 A5 A6]. split; simpl; try done. by rewrite Hs. Qed.

(** A registered connection is up, and registered under its own key. *)
Lemma reg_rel_registered y r k cc :
  reg_rel y r → controlConns (srv y) !! k = Some cc →
  newest r !! k = Some (cc_conn cc) ∧ live y !! cc_conn cc = Some cc ∧ nodeKey (cc_nodeID cc) = k.
Proof.
  intros [A1 A2 A3 A4 A5 A6] Hk. rewrite A6 in Hk. unfold spec_lookup in Hk.
  destruct (newest r !! k) as [n|] eqn:Hn; [|done]. case_if; [|done]. simpl in Hk.
  destruct (A3 _ _ Hk) as [-> _]. split_and!; [done..|]. by eapply A4.
Qed.

Lemma spec_lookup_live y r k n :
  reg_rel y r → newest r !! k = Some n →
  controlConns (srv y) !! k = live y !! n.
Proof.
  intros Hr Hn. rewrite (rr_lookup _ _ Hr). unfold spec_lookup. rewrite Hn.
  destruct (bool_decide_reflect (n ∈ up r)) as [Hu|Hu]; [done|].
  rewrite (rr_up _ _ Hr) in Hu. simpl. by apply eq_None_not_Some in Hu.
Qed.

Lemma reg_rel_closed y r cc conn :
  reg_rel y r → live y !! conn = Some cc →
  reg_rel (mkSys (compare_and_delete cc (srv y)) (delete conn (live y)) (next_conn y))
    (mkSpec (newest r) (up r ∖ {[conn]}) (issued r)).
Proof.
  intros Hr Hl. pose proof Hr as [A1 A2 A3 A4 A5 A6].
  destruct (A3 _ _ Hl) as [Hcc Hlt]. split; simpl; [done| | | |done|].
  - intros n. rewrite elem_of_difference, elem_of_singleton, A2.
    destruct (decide (n = conn)) as [-> | Hne].
    + rewrite lookup_delete_eq. split; [by intros []|by intros []].
    + rewrite lookup_delete_ne by done. split; [by intros []|by intros].
  - intros n c [_ Hc]%lookup_delete_Some. by apply A3.
  - intros k n c Hn [_ Hc]%lookup_delete_Some. by eapply A4.
  - intros k. unfold spec_lookup. cbn [newest up].
    assert (controlConns (compare_and_delete cc (srv y)) !! k =
            match newest r !! k with
            | Some n => if decide (n = conn) then None else live y !! n
            | None => None end) as ->.
    { transitivity (match newest r !! k with
                    | Some n => if decide (n = conn) then None else controlConns (srv y) !! k
                    | None => None end).
      2: { destruct (newest r !! k) as [n|] eqn:Hn; [|done]. case_decide; [done|].
           by apply spec_lookup_live with (1 := Hr). }
      unfold compare_and_delete.
      destruct (controlConns (srv y) !! nodeKey (cc_nodeID cc)) as [cur|] eqn:Hcur.
      - destruct (reg_rel_registered _ _ _ _ Hr Hcur) as (Hn & Hlc & _). case_if; breflect_all.
        + simpl. destruct (decide (k = nodeKey (cc_nodeID cc))) as [-> | Hk].
          { rewrite lookup_delete_eq, Hn, decide_True by lia. done. }
          rewrite lookup_delete_ne by done. destruct (newest r !! k) as [n|] eqn:Hnk.
          { case_decide as Hd; [|done]. subst n. destruct Hk. symmetry. by eapply A4. }
          rewrite A6. unfold spec_lookup. by rewrite Hnk.
        + destruct (newest r !! k) as [n|] eqn:Hnk.
          { case_decide as Hd; [|done]. subst n. pose proof (A4 _ _ _ Hnk Hl) as <-.
            congruence. }
          rewrite A6. unfold spec_lookup. by rewrite Hnk.
      - destruct (newest r !! k) as [n|] eqn:Hnk.
        { case_decide as Hd; [|done]. subst n. pose proof (A4 _ _ _ Hnk Hl) as <-. done. }
        rewrite A6. unfold spec_lookup. by rewrite Hnk. }
    destruct (newest r !! k) as [n|] eqn:Hnk; [|done].
    destruct (bool_decide_reflect (n ∈ up r ∖ {[conn]})) as [Hu|Hu]; simpl;
      rewrite elem_of_difference, elem_of_singleton in Hu.
    + rewrite decide_False by tauto. by rewrite lookup_delete_ne by (intros <-; tauto).
    + case_decide; [done|]. destruct (live y !! n) eqn:Hln; [|done].
      destruct Hu. split; [|done]. rewrite A2. by eexists.
Qed.

Lemma reg_rel_skip y r :
  reg_rel y r → reg_rel (mkSys (srv y) (live y) (S (next_conn y))) (mkSpec (newest r) (up r) (S (issued r))).
Proof.
  intros [A1 A2 A3 A4 A5 A6]. split; simpl; [lia|done| |done| |done].
  - intros n cc Hn. destruct (A3 _ _ Hn). split; [done|lia].
  - intros k n Hn. pose proof (A5 _ _ Hn). lia.
Qed.

Lemma reg_rel_hello y r cc s :
  reg_rel y r → cc_conn cc = next_conn y →
  controlConns s = <[nodeKey (cc_nodeID cc) := cc]> (controlConns (srv y)) →
  reg_rel (mkSys s (<[next_conn y := cc]> (live y)) (S (next_conn y)))
    (mkSpec (<[nodeKey (cc_nodeID cc) := issued r]> (newest r)) ({[issued r]} ∪ up r) (S (issued r))).
Proof.
  intros [A1 A2 A3 A4 A5 A6] Hcc Hs. split; simpl; [lia| | | | |].
  - intros n. rewrite elem_of_union, elem_of_singleton, A2, <-A1.
    destruct (decide (n = next_conn y)) as [-> | Hne].
    + rewrite lookup_insert_eq. split; [by eexists|by left].
    + rewrite lookup_insert_ne by done. split; [by intros [?|?]|by right].
  - intros n c [[<- <-]|[Hne Hc]]%lookup_insert_Some; [split; [done|lia]|].
    destruct (A3 _ _ Hc). split; [done|lia].
  - intros k n c Hn Hc. apply lookup_insert_Some in Hn as [[<- <-]|[Hk Hn]].
    + rewrite <-A1, lookup_insert_eq in Hc. by simplify_eq.
    + pose proof (A5 _ _ Hn). rewrite lookup_insert_ne in Hc by lia. by eapply A4.
  - intros k n [[<- <-]|[Hne Hn]]%lookup_insert_Some; [lia|]. pose proof (A5 _ _ Hn). lia.
  - intros k. rewrite Hs. unfold spec_lookup. cbn [newest up].
    destruct (decide (k = nodeKey (cc_nodeID cc))) as [-> | Hk].
    + rewrite !lookup_insert_eq, bool_decide_eq_true_2 by set_solver. simpl.
      by rewrite <-A1, lookup_insert_eq.
    + rewrite !lookup_insert_ne by done. rewrite A6. unfold spec_lookup.
      destruct (newest r !! k) as [n|] eqn:Hn; [|done]. pose proof (A5 _ _ Hn) as Hlt.
      rewrite (bool_decide_ext (n ∈ {[issued r]} ∪ up r) (n ∈ up r)).
      * case_if; [|done]. simpl. by rewrite lookup_insert_ne by lia.
      * rewrite elem_of_union, elem_of_singleton. split; [intros [->|?]; [lia|done]|by right].
Qed.

(** A hello whose ack cannot be written leaves the node unregistered. *)
Lemma reg_rel_hello_fail y r key s :
  reg_rel y r → controlConns s = delete key (controlConns (srv y)) →
  reg_rel (mkSys s (live y) (S (next_conn y)))
    (mkSpec (<[key := issued r]> (newest r)) (up r) (S (issued r))).
Proof.
  intros [A1 A2 A3 A4 A5 A6] Hs. split; simpl; [lia|done| | | |].
  - intros n c Hc. destruct (A3 _ _ Hc). split; [done|lia].
  - intros k n c [[<- <-]|[Hk Hn]]%lookup_insert_Some Hc; [|by eapply A4].
    destruct (A3 _ _ Hc). lia.
  - intros k n [[<- <-]|[Hne Hn]]%lookup_insert_Some; [lia|]. pose proof (A5 _ _ Hn). lia.
  - intros k. rewrite Hs. unfold spec_lookup. cbn [newest up].
    destruct (decide (k = key)) as [-> | Hk].
    + rewrite lookup_delete_eq, lookup_insert_eq. case_if; [|done]. simpl.
      apply A2 in Eif as [c Hc]. destruct (A3 _ _ Hc). lia.
    + rewrite lookup_delete_ne, lookup_insert_ne by done. apply A6.
Qed.

Lemma reg_rel_accept y r remote first ack_ok now :
  reg_rel y r →
  reg_rel (sys_step (EvAccept remote first ack_ok now) y).1 (spec_step (EvAccept remote first ack_ok now) r).
Proof.
  intros Hr. pose proof (reg_rel_skip _ _ Hr) as Hskip. cbn [sys_step spec_step].
  unfold handle_hello, hello_of. destruct first as [f|]; [|exact Hskip].
  destruct (m_Type f =s? TypeHello); [|exact Hskip].
  destruct (m_ID f =s? "") eqn:Ei; [exact Hskip|]. cbn [negb andb].
  set (cc := mkConn _ _ _ _ _). unfold hello_swap. destruct ack_ok; cbn [fst].
  - by apply (reg_rel_hello y r cc).
  - apply reg_rel_hello_fail; [done|]. unfold compare_and_delete. simpl.
    rewrite lookup_insert_eq. simpl. rewrite Nat.eqb_refl. simpl. apply delete_insert_eq.
Qed.

Lemma reg_rel_step y r ev : reg_rel y r → reg_rel (sys_step ev y).1 (spec_step ev r).
Proof.
  intros Hr. destruct ev as [remote first ack_ok now|conn msg now|conn|src buf now|now|ra now].
  - by apply reg_rel_accept.
  - simpl. destruct (live y !! conn) as [cc|]; [|done].
    pose proof (frame_isolation cc msg now (srv y)) as Hf.
    destruct (handle_frame cc msg now (srv y)) as [s' out].
    apply reg_rel_same; [apply Hf|done].
  - simpl. destruct (live y !! conn) as [cc|] eqn:Hl; [by apply reg_rel_closed|].
    destruct Hr as [A1 A2 A3 A4 A5 A6]. split; try done.
    + intros n. simpl. rewrite elem_of_difference, elem_of_singleton, A2.
      split; [by intros []|]. intros Hn. split; [done|]. intros ->. rewrite Hl in Hn. by destruct Hn.
    + intros k. rewrite A6. unfold spec_lookup. cbn [newest up].
      destruct (newest r !! k) as [n|]; [|done].
      destruct (decide (n = conn)) as [-> | Hne].
      * rewrite (bool_decide_eq_false_2 (conn ∈ up r ∖ _)) by set_solver.
        case_if; [|done]. simpl. apply A2 in Eif as [? Hx]. congruence.
      * by rewrite (bool_decide_ext (n ∈ up r ∖ {[conn]}) (n ∈ up r)) by set_solver.
  - simpl. pose proof (handle_datagram_cases src buf now (srv y)) as Hc.
    destruct (handle_datagram src buf now (srv y)) as [s' out]. simpl in *. apply reg_rel_same; [|done].
    destruct Hc as [(id & _ & ->)|[l ->]]; [|done].
    apply (t_conns _ _ _ _ (learnPublicAddr_touched id src (srv y))).
  - apply reg_rel_same; [|done]. apply (cleanup_frame now (srv y)).
  - simpl. unfold health_gate. case_if; [by apply reg_rel_same|].
    destruct (allow _ _ _). by apply reg_rel_same.
Qed.

(** C5: the connection registry is the newest-live-connection map. After any
    interleaving of accepts, hellos, failed acks, frames, closes, punches and
    cleanups, the connection server pushes for a node reach is the one that
    said hello last for it if it is still up, and none otherwise; in
    particular the late close of a displaced connection never unregisters the
    connection that replaced it. *)
Theorem registry_refines c evs k :
  cc_conn <$> controlConns (srv (run c evs)) !! k = spec_lookup (spec_run evs) k.
Proof.
  assert (reg_rel (run c evs) (spec_run evs)) as Hr.
  { unfold run, spec_run. induction evs as [|ev evs IH] using rev_ind.
    - split; simpl; try done. intros n.
      split; [by intros ?%not_elem_of_empty|by intros []].
    - rewrite !fold_left_app. by apply reg_rel_step. }
  rewrite (rr_lookup _ _ Hr). destruct (spec_lookup (spec_run evs) k) as [n|] eqn:Hn; [|done].
  simpl. unfold spec_lookup in Hn. destruct (newest (spec_run evs) !! k) as [m|]; [|done].
  case_if; [|done]. injection Hn as ->. apply (rr_up _ _ Hr) in Eif as [cc Hcc].
  rewrite Hcc. simpl. f_equal. by apply (rr_conn _ _ Hr).
Qed.
End theorems.
