(* ===== verification/RvNet.v ===== *)
(** * pkg/rendezvous: address learning, cleanup, the health limiter, connect

    Theorems about the UDP side and the timers: a punch moves an address only
    from the control connection's IP, a cleanup tick removes exactly the stale
    entries and the metrics of nodes no longer listed, the limiter grants
    exactly its budget per second and source, and what a connect frame yields. *)

From S2P Require Import Prelude GoStrings GoStringsFacts Strconv Hardware GoAny GoTime Auth.
From S2P Require Import Tunnel Signal SessionCache RvTypes RvAuth RvService RvServer RvProofs RvTheorems.
From Stdlib Require Import ZArith Lia ZifyBool Bool Ascii String SpecFloat.
From stdpp Require Import base option list gmap strings.

Open Scope go_scope.
Open Scope Z_scope.

Section net.
Context {U : GoUnicode} {H : Sha256} {E : EthCrypto} {J : HardwareJSON} {X : X509}.

(** ** Punches *)

(** Every accepted connection is a TCP one with an IP, as [net.Listen("tcp")]
    yields. *)
Definition tcp_remote (a : net_addr) : Prop := ∃ ip str, a = TCPAddr ip str ∧ ip ≠ ""%string.
Definition tcp_only (evs : list event) : Prop :=
  Forall (λ ev, match ev with EvAccept remote _ _ _ => tcp_remote remote | _ => True end) evs.

Definition ctl_ok (y : Sys) : Prop :=
  map_Forall (λ _ cc, tcp_remote (cc_remote cc)) (live y) ∧
  map_Forall (λ _ p, p_ControlIP p ≠ ""%string) (proxies (srv y)).

Lemma touched_ctl R key s s' :
  keeps_identity R → touched R key s s' →
  map_Forall (λ _ p, p_ControlIP p ≠ ""%string) (proxies s) →
  map_Forall (λ _ p, p_ControlIP p ≠ ""%string) (proxies s').
Proof.
  intros HR Ht Hs. destruct (touched_cases _ _ _ _ Ht) as [[_ ->]|(o & v & Ho & Hov & ->)]; [done|].
  apply map_Forall_insert_2; [|done]. destruct (HR _ _ Hov) as (_ & _ & _ & ->). by apply (Hs key).
Qed.

Lemma hello_live conn remote first ack_ok now s cc :
  (handle_hello conn remote first ack_ok now s).2 = Some cc → cc_remote cc = remote.
Proof.
  unfold handle_hello. destruct first as [f|]; [|done]. case_if; [done|]. case_if; [done|].
  unfold hello_swap. destruct ack_ok; [|done]. by intros [= <-].
Qed.

Lemma sys_step_ctl ev y :
  match ev with EvAccept remote _ _ _ => tcp_remote remote | _ => True end →
  counters_ok (srv y) → ctl_ok y → ctl_ok (sys_step ev y).1.
Proof.
  intros Hev Hcnt [Hl Hp].
  destruct ev as [remote first ack_ok now|conn msg now|conn|src buf now|now|ra now]; simpl.
  - destruct (handle_hello_frame (next_conn y) remote first ack_ok now (srv y)) as (Hpx & _).
    pose proof (hello_live (next_conn y) remote first ack_ok now (srv y)) as Hr.
    destruct (handle_hello _ _ _ _ _ _) as [[s' out] est]. simpl in *. split; simpl; [|by rewrite Hpx].
    destruct est as [cc|]; [|done]. apply map_Forall_insert_2; [|done]. by rewrite (Hr cc eq_refl).
  - destruct (live y !! conn) as [cc|] eqn:Hcc; [|done].
    pose proof (handle_frame_cases cc msg now (srv y)) as Hc.
    destruct (handle_frame cc msg now (srv y)) as [s' out]. simpl in *. split; [done|]. simpl.
    destruct Hc as [Ht|(_ & -> & _)]; [by eapply touched_ctl; [apply live_only_identity|..]|].
    destruct (store_register_frame cc (set_msg_ID (cc_nodeID cc) msg) now (srv y)) as (_ & _ & _ & _ & ->).
    apply map_Forall_insert_2; [|done]. destruct (Hl _ _ Hcc) as (ip & str & Hr & Hne).
    unfold registered_proxy. rewrite Hr. by repeat case_scrut.
  - destruct (live y !! conn) as [cc|]; [|done]. simpl. split; simpl.
    + by apply map_Forall_delete.
    + by destruct (compare_and_delete_frame cc (srv y)) as (-> & _).
  - pose proof (handle_datagram_cases src buf now (srv y)) as Hc.
    destruct (handle_datagram src buf now (srv y)) as [s' out]. simpl in *. split; [done|]. simpl.
    destruct Hc as [(id & _ & ->)|[l ->]]; [|done].
    eapply touched_ctl; [apply addr_only_identity|apply learnPublicAddr_touched|done].
  - split; [done|]. destruct (cleanup_frame now (srv y)) as (Hp' & _).
    destruct (purge_spec now _ Hcnt) as [_ Hpp]. simpl. intros k p Hk.
    change (proxies (cleanup_tick now (srv y)) !! k = Some p) in Hk. rewrite Hp', Hpp in Hk.
    apply map_lookup_filter_Some in Hk as [Hk _]. by apply (Hp k).
  - unfold health_gate. case_if; [by split|]. by destruct (allow _ _ _).
Qed.

Lemma run_ctl {L : GoUnicodeLaws U} c evs : tcp_only evs → ctl_ok (run c evs).
Proof.
  induction evs as [|ev evs IH] using rev_ind; intros Hev.
  - split; apply map_Forall_empty.
  - apply Forall_app in Hev as [Hevs Hev]. rewrite run_snoc.
    apply sys_step_ctl; [by inversion Hev|apply (run_ok c evs)|by apply IH].
Qed.

(** nobody can redirect a node's address from elsewhere. In every state of
    a server whose control connections are TCP, a datagram either leaves a
    node's entry exactly as it was, or it is a punch naming that node, sent
    from the IP of the node's control connection; then only the UDP address and
    (unless the operator pinned it) the dial address change, not the liveness. *)
Theorem punch_needs_control_ip {L : GoUnicodeLaws U} c evs src buf now k p :
  tcp_only evs → proxies (srv (run c evs)) !! k = Some p →
  let s' := (handle_datagram src buf now (srv (run c evs))).1 in
  proxies s' !! k = Some p ∨
  ∃ ip str id, src = UDPAddr ip str ∧ buf = String (ch 1) id ∧ nodeKey id = k ∧
    ip_equal ip (p_ControlIP p) = true ∧
    proxies s' !! k = Some (set_UDPAddr src (if p_AddrManual p then p_Addr p else str) p).
Proof.
  intros Htcp Hk. destruct (run_ctl c evs Htcp) as [_ Hctl]. specialize (Hctl k p Hk).
  pose proof (handle_datagram_cases src buf now (srv (run c evs))) as Hc. cbv zeta in *.
  destruct (handle_datagram src buf now (srv (run c evs))) as [s' out]. simpl in *.
  destruct Hc as [(id & -> & ->)|[l ->]]; [|by left].
  unfold learnPublicAddr. destruct (decide (nodeKey id = k)) as [<- | Hne].
  2: { left. destruct (proxies _ !! nodeKey id); [|done]. destruct src; try done.
       case_if; [done|]. simpl. by rewrite lookup_insert_ne. }
  rewrite Hk. destruct src as [|ip str|]; [by left| |by left].
  destruct (_ && _) eqn:Eb; [by left|]. right. exists ip, str, id. split_and!; [done..| |].
  - apply andb_false_iff in Eb as [Eb|Eb]; [|by apply negb_false_iff in Eb].
    destruct (p_ControlIP p); [done|]. simpl in Eb. lia.
  - simpl. rewrite lookup_insert_eq. by destruct (p_AddrManual p).
Qed.

(** ** Cleanup *)

(** a cleanup tick removes exactly the entries not heard of for longer than
    the purge threshold, and after it every cached metric row belongs to a
    listed node in normal form heard of in the last five minutes. *)
Theorem cleanup_exact {L : GoUnicodeLaws U} c evs now :
  let s := srv (run c evs) in
  let s' := srv (run c (evs ++ [EvTick now])) in
  (∀ k p, proxies s' !! k = Some p ↔
          proxies s !! k = Some p ∧ time_sub now (p_LastSeen p) ≤ ProxyPurgeOrDefault s) ∧
  (∀ k m, metrics s' !! k = Some m →
          nodeKey (nm_NodeID m) = nm_NodeID m ∧
          ∃ p, proxies s' !! nm_NodeID m = Some p ∧ now - 5 * minute ≤ p_LastSeen p).
Proof.
  intros s s'. assert (s' = cleanup_tick now s) as Hs' by (unfold s'; by rewrite run_snoc).
  rewrite Hs'. clear Hs' s'. destruct (run_ok c evs) as (Hcnt & Hkeys & _).
  destruct (purge_spec now s Hcnt) as [_ Hp]. destruct (cleanup_frame now s) as (Hp' & _).
  rewrite Hp', Hp. split.
  - intros k p. rewrite map_lookup_filter_Some. simpl. unfold stale. rewrite Z.ltb_ge. done.
  - intros k m [_ Hm]%map_lookup_filter_Some. simpl in Hm. unfold metric_live in Hm.
    rewrite lookup_fmap in Hm. simpl in Hm. rewrite Hp in Hm.
    destruct (filter _ _ !! nm_NodeID m) as [p|] eqn:Ef; [|done]. simpl in Hm.
    pose proof Ef as [Hq _]%map_lookup_filter_Some.
    split; [apply (Hkeys _ _ Hq)|]. exists p. split; [done|].
    unfold time_before, time_add in Hm. lia.
Qed.

(** ** The health limiter *)

(** The calls for [ip] in the one-second window [w]: how many were made and how
    many granted, threading the limiter through the whole call sequence. *)
Fixpoint granted (ip : string) (w : time) (calls : list (string * time)) (h : healthRateLimiter)
  : Z * Z :=
  match calls with
  | [] => (0, 0)
  | (i, t) :: calls' =>
      let '(h', ok) := allow i t h in
      let '(n, g) := granted ip w calls' h' in
      if (i =s? ip) && (truncate_second t =? w) then (n + 1, g + b2z ok) else (n, g)
  end.

(** The clock does not go back. *)
Fixpoint clock_forward (t0 : time) (calls : list (string * time)) : Prop :=
  match calls with [] => True | (_, t) :: l => t0 ≤ t ∧ clock_forward t l end.

(** Hits already counted in the window [w]. *)
Definition used (ip : string) (w : time) (h : healthRateLimiter) : Z :=
  if hl_window h =? w then default 0 (hl_hits h !! ip) else 0.

Lemma granted_asked_nonneg ip w calls h : 0 ≤ (granted ip w calls h).1.
Proof.
  revert h. induction calls as [|[i t] l IH]; intros h; [done|]. cbn [granted].
  destruct (allow i t h) as [h' ok]. specialize (IH h').
  destruct (granted ip w l h') as [n g]. destruct (_ && _); simpl in *; lia.
Qed.

Lemma clock_forward_past ip w calls h t0 :
  w < truncate_second t0 → clock_forward t0 calls → granted ip w calls h = (0, 0).
Proof.
  revert h t0. induction calls as [|[i t] l IH]; intros h t0 Hw; [done|].
  cbn [clock_forward granted]. intros [Ht Hl].
  destruct (allow i t h) as [h' ok]. pose proof (truncate_second_mono _ _ Ht).
  rewrite (IH h' t) by (done || lia).
  assert ((truncate_second t =? w) = false) as -> by lia. by rewrite andb_false_r.
Qed.

(** One call: the window reached, the budget used and the answer. *)
Lemma allow_spec i t h ip w :
  hl_window h ≤ truncate_second t → truncate_second t ≤ w →
  let '(h', ok) := allow i t h in
  hl_window h' = truncate_second t ∧ hl_limit h' = hl_limit h ∧
  used ip w h' = used ip w h + b2z ((i =s? ip) && (truncate_second t =? w)) ∧
  ((i =s? ip) && (truncate_second t =? w) = true → ok = (used ip w h + 1 <=? hl_limit h)).
Proof.
  intros Hw Ht. unfold allow, time_after, used.
  destruct (Z.ltb_spec (hl_window h) (truncate_second t)) as [Hlt|Hge]; simpl;
    (split; [lia|split; [done|]]).
  - assert ((hl_window h =? w) = false) as -> by lia.
    destruct (truncate_second t =? w) eqn:Ew; rewrite ?andb_false_r; [|by split].
    rewrite andb_true_r, lookup_empty. simpl. destruct (String.eqb_spec i ip) as [-> | Hne].
    + rewrite lookup_insert_eq. simpl. split; [lia|done].
    + rewrite lookup_insert_ne, lookup_empty by done. simpl. split; [lia|done].
  - assert (hl_window h = truncate_second t) as -> by lia.
    destruct (truncate_second t =? w) eqn:Ew; rewrite ?andb_false_r, ?andb_true_r; [|by split].
    destruct (String.eqb_spec i ip) as [-> | Hne].
    + rewrite lookup_insert_eq. simpl. split; [lia|done].
    + rewrite lookup_insert_ne by done. simpl. split; [lia|done].
Qed.

Lemma granted_spec ip w calls h t0 :
  hl_window h ≤ truncate_second t0 → clock_forward t0 calls → 0 ≤ used ip w h →
  (granted ip w calls h).2 =
  Z.min (granted ip w calls h).1 (Z.max 0 (hl_limit h - used ip w h)).
Proof.
  revert h t0. induction calls as [|[i t] l IH]; intros h t0 Hw; [simpl; lia|].
  cbn [clock_forward granted]. intros [Ht Hl] Hu. pose proof (truncate_second_mono _ _ Ht) as Htt.
  destruct (Z.le_gt_cases (truncate_second t) w) as [Hle|Hgt].
  - pose proof (allow_spec i t h ip w ltac:(lia) Hle) as Ha.
    destruct (allow i t h) as [h' ok]. destruct Ha as (Hw' & Hlim & Hus & Hok).
    specialize (IH h' t ltac:(lia) Hl). rewrite Hus, Hlim in IH.
    pose proof (granted_asked_nonneg ip w l h') as Hn.
    destruct (granted ip w l h') as [n g]. cbn [fst snd] in *.
    destruct ((i =s? ip) && (truncate_second t =? w)); cbn [b2z fst snd] in *.
    + specialize (IH ltac:(lia)). rewrite (Hok eq_refl). unfold b2z. case_if; lia.
    + rewrite IH; lia.
  - destruct (allow i t h) as [h' ok]. rewrite (clock_forward_past ip w l h' t) by done.
    assert ((truncate_second t =? w) = false) as -> by lia. rewrite andb_false_r. simpl. lia.
Qed.


(** ** Connect *)

Lemma connect_candidates_spec p :
  NoDup (connect_candidates p) ∧ Forall (λ a, a ≠ ""%string) (connect_candidates p) ∧
  (∀ a, a ∈ connect_candidates p ↔ a ≠ ""%string ∧ (a = p_Addr p ∨ a = p_LocalAddr p)).
Proof.
  assert (∀ l : list string, Forall (λ a, a ≠ ""%string) l ↔ ∀ a, a ∈ l → a ≠ ""%string) as Hf
    by (intros l; apply Forall_forall).
  assert (∀ a, a ∈ connect_candidates p ↔ a ≠ ""%string ∧ (a = p_Addr p ∨ a = p_LocalAddr p)) as Hin.
  { intros a. unfold connect_candidates. rewrite elem_of_app.
    destruct (String.eqb_spec (p_LocalAddr p) "") as [E1|E1];
    destruct (String.eqb_spec (p_LocalAddr p) (p_Addr p)) as [E2|E2];
    destruct (String.eqb_spec (p_Addr p) "") as [E3|E3]; simpl;
    rewrite ?list_elem_of_singleton, ?elem_of_nil; intuition congruence. }
  split_and!; [|apply Hf; intros a; rewrite Hin; tauto|done].
  unfold connect_candidates.
  destruct (String.eqb_spec (p_LocalAddr p) "") as [E1|E1];
  destruct (String.eqb_spec (p_LocalAddr p) (p_Addr p)) as [E2|E2];
  destruct (String.eqb_spec (p_Addr p) "") as [E3|E3]; simpl;
  rewrite ?NoDup_cons, ?list_elem_of_singleton, ?elem_of_nil; split_and?; try apply NoDup_nil_2;
  try done; tauto.
Qed.

(** a connect frame changes nothing on the server and coordinates both
    sides: for a registered target the requester gets one proxy_info with the
    target's address and a duplicate-free list of non-empty candidates, local
    address first; and when the target has a registered connection and the
    requester an address, that connection is first told to punch toward it. *)
Theorem connect_coordinates cc msg now s target :
  m_Type msg = TypeConnect → m_ID msg ≠ ""%string →
  proxies s !! nodeKey (m_ID msg) = Some target →
  ∃ push cands,
    handle_frame cc msg now s =
      (s, push ++ [Send (cc_conn cc) (simple_msg TypeProxyInfo (m_ID msg) (p_Addr target) cands)]) ∧
    NoDup cands ∧ Forall (λ a, a ≠ ""%string) cands ∧
    (∀ a, a ∈ cands ↔ a ≠ ""%string ∧ (a = p_Addr target ∨ a = p_LocalAddr target)) ∧
    (∀ t, controlConns s !! nodeKey (m_ID msg) = Some t → requester_addr s cc ≠ ""%string →
       push = [Send (cc_conn t) (simple_msg TypePunch (cc_nodeID cc) (requester_addr s cc) [])]).
Proof.
  intros Hty Hid Ht. unfold handle_frame. rewrite Hty. cbn [String.eqb TypeConnect TypeRegister].
  simpl. unfold handleConnect. rewrite (proj2 (String.eqb_neq _ _) Hid), Ht.
  eexists _, (connect_candidates target). split; [reflexivity|].
  destruct (connect_candidates_spec target) as (? & ? & ?). split_and!; [done..|].
  intros t Hconn Hr. rewrite (proj2 (String.eqb_neq _ _) Hr). simpl.
  unfold PushToNode. by rewrite Hconn.
Qed.
End net.
