(* ===== verification/RvWitness.v ===== *)
(** * pkg/rendezvous: concrete histories

    A protected server evaluated on a small history (a hello, a signed and
    admitted FullSync register, a punch, a tick), on which every theorem with
    hypotheses is applied.  The classes are instantiated by concrete functions:
    ASCII case tables and the toy signature scheme of [Auth]. *)

From S2P Require Import Prelude GoStrings GoStringsFacts Strconv Hardware GoAny GoTime Auth.
From S2P Require Import Tunnel Signal SessionCache RvTypes RvAuth RvService RvServer RvProofs RvTheorems.
From S2P Require Import RvNet.
From Stdlib Require Import ZArith Lia ZifyBool Bool Ascii String SpecFloat.
From stdpp Require Import base option list gmap strings.

Open Scope go_scope.
Open Scope Z_scope.

#[local] Existing Instances ascii_tables toy_sha toy_eth toy_json.
Definition toy_x509 : X509 := {| parse_cert_issuer := λ _, None |}.
#[local] Existing Instance toy_x509.

Definition demo_remote : net_addr := TCPAddr (be_bytes 4 16909060) "1.2.3.4:5000".
Definition demo_hello : RendezvousMsg :=
  mkMsg 1 "hello" "provider" demo_id "" "" [] "" 0 0 0 0 0 "" "" "" "" "" None None 0 false false
        "" "" "" "" "" false "" 0 "" "" 0 "" 0 0 0 0 "" "" None None [].
Definition demo_history : list event :=
  [ EvAccept demo_remote (Some demo_hello) true demo_now; EvFrame 0 demo_register demo_now ].
Definition demo_state : Server := srv (run demo_config demo_history).
Definition demo_proxy : ProxyInfo := default (new_proxy 0) (proxies demo_state !! nodeKey demo_id).
Definition demo_conn : controlConn := mkConn 0 demo_remote demo_id "provider" demo_now.

Example demo_listed :
  proxies demo_state !! nodeKey demo_id = Some demo_proxy ∧ cntStation demo_state = 1 ∧
  cntPublic demo_state = 1.
Proof. vm_compute. done. Qed.

Lemma counters_exact_witness :
  cntStation demo_state = count (in_bucket "station") (proxies demo_state) ∧
  cntControl demo_state = count (in_bucket "control") (proxies demo_state) ∧
  cntPassenger demo_state = count (in_bucket "passenger") (proxies demo_state) ∧
  cntPublic demo_state = count is_public (proxies demo_state).
Proof. apply (counters_exact demo_config demo_history). vm_compute. discriminate. Defined.

Lemma roster_normalised_witness :
  p_ID demo_proxy = nodeKey demo_id ∧ nodeKey (nodeKey demo_id) = nodeKey demo_id ∧
  (nodeKey demo_id = nodeKey demo_id →
     proxies demo_state !! nodeKey demo_id = Some demo_proxy ∧
     nodeKey (p_ID demo_proxy) = nodeKey demo_id).
Proof. apply (roster_normalised demo_config demo_history). vm_compute. reflexivity. Defined.

Lemma roster_authorised_witness : authorised demo_config demo_history (nodeKey demo_id).
Proof.
  apply (roster_authorised demo_config demo_history _ demo_proxy); vm_compute; reflexivity.
Defined.

Definition demo_delta : RendezvousMsg :=
  mkMsg 1 "register" "broker" "" "" "" [] "" 0 0 0 0 0 "" "" "" "" "" None None 0 false false
        "" "" "" "" "" false "" 0 "" "" 0 "" 0 0 0 0 "" "" None None [].

Lemma delta_register_unchecked_witness :
  ∃ p, proxies (handle_frame demo_conn demo_delta 7 (NewServer demo_config)).1
         !! nodeKey (cc_nodeID demo_conn) = Some p ∧
       p_Role p = m_Role demo_delta ∧ p_LastSeen p = 7.
Proof. apply (delta_register_unchecked demo_conn demo_delta 7 (NewServer demo_config)); reflexivity. Defined.

Lemma punch_needs_control_ip_witness :
  let src := UDPAddr (be_bytes 4 16909060) "1.2.3.4:6000" in
  let buf := String (ch 1) demo_id in
  let s' := (handle_datagram src buf demo_now demo_state).1 in
  proxies s' !! nodeKey demo_id = Some demo_proxy ∨
  ∃ ip str id, src = UDPAddr ip str ∧ buf = String (ch 1) id ∧ nodeKey id = nodeKey demo_id ∧
    ip_equal ip (p_ControlIP demo_proxy) = true ∧
    proxies s' !! nodeKey demo_id =
      Some (set_UDPAddr src (if p_AddrManual demo_proxy then p_Addr demo_proxy else str) demo_proxy).
Proof.
  apply (punch_needs_control_ip demo_config demo_history).
  - repeat constructor. exists (be_bytes 4 16909060), "1.2.3.4:5000"%string. split; [done|]. discriminate.
  - vm_compute. reflexivity.
Defined.

Lemma cleanup_exact_witness :
  let s' := srv (run demo_config (demo_history ++ [EvTick demo_now])) in
  (∀ k p, proxies s' !! k = Some p ↔
          proxies demo_state !! k = Some p ∧
          time_sub demo_now (p_LastSeen p) ≤ ProxyPurgeOrDefault demo_state) ∧
  (∀ k m, metrics s' !! k = Some m →
          nodeKey (nm_NodeID m) = nm_NodeID m ∧
          ∃ p, proxies s' !! nm_NodeID m = Some p ∧ demo_now - 5 * minute ≤ p_LastSeen p).
Proof. apply (cleanup_exact demo_config demo_history demo_now). Defined.


Definition demo_connect : RendezvousMsg :=
  mkMsg 1 "connect" "" demo_id "" "" [] "" 0 0 0 0 0 "" "" "" "" "" None None 0 false false
        "" "" "" "" "" false "" 0 "" "" 0 "" 0 0 0 0 "" "" None None [].

Lemma connect_coordinates_witness :
  ∃ push cands,
    handle_frame demo_conn demo_connect 9 demo_state =
      (demo_state, push ++ [Send 0 (simple_msg TypeProxyInfo demo_id (p_Addr demo_proxy) cands)]) ∧
    NoDup cands ∧ Forall (λ a, a ≠ ""%string) cands ∧
    (∀ a, a ∈ cands ↔ a ≠ ""%string ∧ (a = p_Addr demo_proxy ∨ a = p_LocalAddr demo_proxy)) ∧
    (∀ t, controlConns demo_state !! nodeKey demo_id = Some t →
       requester_addr demo_state demo_conn ≠ ""%string →
       push = [Send (cc_conn t)
                 (simple_msg TypePunch demo_id (requester_addr demo_state demo_conn) [])]).
Proof.
  apply (connect_coordinates demo_conn demo_connect 9 demo_state demo_proxy);
    [reflexivity | discriminate | vm_compute; reflexivity].
Defined.
