(* ===== verification/RvSections.v ===== *)
(** * pkg/rendezvous: the handlers as programs of critical sections

    Every connection, the punch listener, the cleanup ticker and every HTTP
    request run on goroutines of their own over one [Server].  A handler does
    not hold [s.mu] from end to end: it verifies signatures before it, writes
    frames after it, and takes [metricsMu], the connection map or the session
    cache's lock apart from it.  Here a handler is a program of actions, each
    one critical section (or one stretch of code without shared state) with the
    lock it runs under; a history is the arrivals of the handlers and their
    single actions, each with the time its clock read.

    [RvServer] has the same handlers as functions of the server: handlers that
    nobody interrupts ([handlers_alone]).

    Roster entries are pointers: [handleConnect] keeps one after it has left
    the lock.  [World] gives each entry the identity of its object, and keeps
    the objects that were purged while somebody may still hold them. *)

From S2P Require Import Prelude GoStrings GoStringsFacts Strconv Hardware GoAny GoTime Auth.
From S2P Require Import Tunnel Signal SessionCache RvTypes RvAuth RvService RvServer RvProofs RvTheorems.
From Stdlib Require Import ZArith Lia ZifyBool Bool Ascii String SpecFloat.
From stdpp Require Import base option list gmap strings.

Open Scope go_scope.
Open Scope Z_scope.

(** ** Shared state and the locks over it *)

Record World := mkWorld {
  w_srv : Server;
  w_obj : gmap string nat;
  w_gone : gmap nat ProxyInfo;
  w_next : nat
}.

Definition on_srv (f : Server → Server) (w : World) : World :=
  mkWorld (f (w_srv w)) (w_obj w) (w_gone w) (w_next w).

(** What an action runs under: [s.mu] held for writing or reading, [metricsMu],
    the [sync.Map] of connections, the limiter's or the session cache's own
    mutex; nothing because it touches nothing shared ([Local]); nothing though
    it reads the roster ([Unlocked]). *)
Inductive region :=
  | MuW | MuR | MetricsMu | ConnsMap | LimiterMu | SessionsMu | Local | Unlocked.

#[export] Instance region_dec : EqDecision region.
Proof. solve_decision. Defined.

Definition section (B : Set) : Set := time → World → B * World * list output.

Inductive task : Type :=
  | Stop
  | Act {B : Set} (g : region) (m : section B) (k : B → task).

(** [t; u] *)
Fixpoint seqT (t u : task) : task :=
  match t with
  | Stop => u
  | Act g m k => Act g m (λ b, seqT (k b) u)
  end.

Definition sends (os : list output) : task := Act Local (λ _ w, (tt, w, os)) (λ _, Stop).

(** An action that only changes the world. *)
Definition change (g : region) (f : time → World → World) : task :=
  Act g (λ now w, (tt, f now w, [])) (λ _, Stop).

(** A task run to its end with nobody in between, its clock standing still. *)
Fixpoint alone (t : task) (now : time) (w : World) : World * list output :=
  match t with
  | Stop => (w, [])
  | Act g m k => let '(b, w', out) := m now w in
                 let '(w'', out') := alone (k b) now w' in (w'', out ++ out')
  end.

Section handlers.
Context {U : GoUnicode} {H : Sha256} {E : EthCrypto} {J : HardwareJSON} {X : X509}.

(** ** The sections *)

(** pkg/rendezvous/control_tcp.go:239-323 [Server.applyRegister part]: the
    entry written in place, a new object when there is none. *)
Definition store_entry (cc : controlConn) (msg : RendezvousMsg) (now : time) (w : World) : World :=
  let key := nodeKey (m_ID msg) in
  let s' := store_register cc msg now (w_srv w) in
  match proxies (w_srv w) !! key with
  | Some _ => mkWorld s' (w_obj w) (w_gone w) (w_next w)
  | None => mkWorld s' (<[key := w_next w]> (w_obj w)) (w_gone w) (S (w_next w))
  end.

(** pkg/rendezvous/control_tcp.go:362-369 [Server.applyPing part] *)
Definition refresh_entry (id : string) (now : time) (w : World) : bool * World :=
  match proxies (w_srv w) !! nodeKey id with
  | Some p => (true, on_srv (set_proxies <[nodeKey id := set_LastSeen now p]>) w)
  | None => (false, w)
  end.

(** pkg/rendezvous/control_tcp.go:415-456 [Server.applyServiceMetric part] *)
Definition patch_entry (nodeID : string) (m : ServiceMetrics) (now : time) (w : World) : bool * World :=
  match proxies (w_srv w) !! nodeKey nodeID with
  | Some p =>
      let p := set_LastSeen now p in
      let p := set_Services (option_map (patch_first (sm_Service m) (patch_metric m)) (p_Services p)) p in
      (true, on_srv (set_proxies <[nodeKey nodeID := p]>) w)
  | None => (false, w)
  end.

(** pkg/rendezvous/control_tcp.go:464-476 [Server.applyServiceMetric part] *)
Definition store_row (nodeID : string) (m : ServiceMetrics) (w : World) : World :=
  on_srv (set_metrics <[metricKey nodeID (sm_Service m) :=
    mkNM nodeID (sm_Service m) (statusStringToCode (sm_Status m)) (sm_QueueDepth m)
      (sm_TotalJobsDone m) (sm_AvgJobSec m) (sm_LastJobMs m) (sm_RunningJobID m)
      (sm_RunningCount m) 0]>) w.

(** pkg/rendezvous/server.go:402-414 [Server.Run part]: the objects of the
    purged entries outlive them. *)
Definition purge_entries (now : time) (w : World) : World :=
  let s' := purge now (w_srv w) in
  mkWorld s'
    (filter (λ ko, is_Some (proxies s' !! ko.1)) (w_obj w))
    (map_fold (λ k o gone,
       match proxies s' !! k, proxies (w_srv w) !! k with
       | None, Some p => <[o := p]> gone
       | _, _ => gone
       end) (w_gone w) (w_obj w))
    (w_next w).

(** pkg/rendezvous/heartbeat.go:99-105 [Server.pruneMetrics part] *)
Definition last_seen (s : Server) : gmap string time := p_LastSeen <$> proxies s.

(** pkg/rendezvous/heartbeat.go:107-115 [Server.pruneMetrics part] *)
Definition drop_rows (live : gmap string time) (cutoff : time) (w : World) : World :=
  on_srv (set_metrics (filter (λ km, metric_live live cutoff km.2 = true))) w.

(** What the object [o] holds now: its entry's value, or what the entry was
    when it was purged. *)
Definition deref (o : nat) (w : World) : option ProxyInfo :=
  match filter (λ ko, ko.2 = o) (map_to_list (w_obj w)) with
  | (k, _) :: _ => proxies (w_srv w) !! k
  | [] => w_gone w !! o
  end.

(** ** The handlers *)

(** pkg/rendezvous/control_tcp.go:207-338 [Server.applyRegister] *)
Definition registerT (cc : controlConn) (msg : RendezvousMsg) : task :=
  let reject reason := sends [Send (cc_conn cc) (simple_msg TypeError (m_ID msg) reason [])] in
  let store := change MuW (store_entry cc msg) in
  if negb (m_ID msg =s? cc_nodeID cc) then reject "register id mismatch"
  else if m_FullSync msg then
    Act Local (λ now w, (verifyRegisterSignature msg (hashHardwareForVerify (m_Hardware msg)) now, w, []))
      (λ r, match r with
            | Err _ => reject "register signature invalid"
            | Ok _ =>
                Act Local (λ now w, (if modeProtected (w_srv w) then admitRegister (w_srv w) msg now
                                     else Ok tt, w, []))
                  (λ r, match r with
                        | Err e => reject ("admission denied: " ++s admit_error_string e)
                        | Ok _ => store
                        end)
            end)
  else store.

(** pkg/rendezvous/control_tcp.go:354-374 [Server.applyPing] *)
Definition pingT (cc : controlConn) (msg : RendezvousMsg) : task :=
  if m_ID msg =s? "" then Stop
  else Act Local (λ now w, (verifyPingSignature msg now, w, []))
    (λ r, match r with
          | Err _ => Stop
          | Ok _ => Act MuW (λ now w, (refresh_entry (m_ID msg) now w, []))
                      (λ found : bool, if found then Stop
                        else sends [Send (cc_conn cc) (simple_msg TypeNeedRegister (m_ID msg) "" [])])
          end).

(** pkg/rendezvous/control_tcp.go:411-477 [Server.applyServiceMetric] *)
Definition metricT (nodeID : string) (m : ServiceMetrics) : task :=
  if sm_Service m =s? "" then Stop
  else Act MuW (λ now w, (patch_entry nodeID m now w, []))
         (λ found : bool, if found then change MetricsMu (λ _, store_row nodeID m) else Stop).

(** pkg/rendezvous/control_tcp.go:388-406 [Server.applyServiceEvent] *)
Definition eventT (msg : RendezvousMsg) : task :=
  if m_ID msg =s? "" then Stop
  else if negb (m_Event msg =s? "") && negb (m_ServiceName msg =s? "") then
    change MuW (λ now, on_srv (applyServiceLifecycle msg now))
  else match m_MetricsBatch msg with
       | _ :: _ => foldr (λ m t, seqT (metricT (m_ID msg) m) t) Stop (m_MetricsBatch msg)
       | [] => match m_Metrics msg with
               | None => Stop
               | Some m => if sm_Service m =s? "" then Stop else metricT (m_ID msg) m
               end
       end.

(** pkg/rendezvous/control_tcp.go:625-703 [Server.handleConnect]: only the
    lookup of the target is under the lock; the requester is looked up, and the
    fields of the target are read, without it. *)
Definition connectT (cc : controlConn) (msg : RendezvousMsg) : task :=
  let targetID := m_ID msg in
  if targetID =s? "" then
    sends [Send (cc_conn cc) (simple_msg TypeError "" "connect: missing target id" [])]
  else
    Act MuR (λ _ w, (w_obj w !! nodeKey targetID, w, []))
      (λ target, match target with
       | None => sends [Send (cc_conn cc) (simple_msg TypeError targetID
                         ("target not found: " ++s targetID) [])]
       | Some o =>
           Act Unlocked (λ _ w, (requester_addr (w_srv w) cc, w, []))
             (λ requesterAddr,
              seqT (if negb (requesterAddr =s? "")
                    then Act ConnsMap (λ _ w, (tt, w, option_list (PushToNode (w_srv w) targetID
                           (simple_msg TypePunch (cc_nodeID cc) requesterAddr [])))) (λ _, Stop)
                    else Stop)
                (Act Unlocked (λ _ w, (deref o w, w, []))
                   (λ t, match t with
                         | Some target => sends [Send (cc_conn cc) (simple_msg TypeProxyInfo targetID
                             (p_Addr target) (connect_candidates target))]
                         | None => Stop
                         end)))
       end).

(** pkg/rendezvous/control_tcp.go:122-188 [Server.handleControlConn part] *)
Definition frameT (cc : controlConn) (msg : RendezvousMsg) : task :=
  if m_Type msg =s? TypeRegister then
    seqT (registerT cc (set_msg_ID (cc_nodeID cc) msg))
      (Act Local (λ _ w, (tt, w, [Send (cc_conn cc) (register_ack (w_srv w) cc)])) (λ _, Stop))
  else if m_Type msg =s? TypeConnect then connectT cc msg
  else if m_Type msg =s? TypePing then pingT cc (set_msg_ID (cc_nodeID cc) msg)
  else if (m_Type msg =s? TypeServiceEvent) || (m_Type msg =s? TypeStatusUpd) then
    eventT (set_msg_ID (cc_nodeID cc) msg)
  else Stop.

(** pkg/rendezvous/control_tcp.go:79-117 [Server.handleControlConn part] *)
Definition helloT (conn : nat) (remote : net_addr) (first : option RendezvousMsg) (ack_ok : bool) : task :=
  match first with
  | None => sends [Close conn]
  | Some f =>
      if negb (m_Type f =s? TypeHello) then sends [Close conn]
      else if m_ID f =s? "" then sends [Close conn]
      else
        Act Local (λ now w, (mkConn conn remote (m_ID f) (m_Role f) now, w, [])) (λ cc,
        Act ConnsMap (λ _ w, let '(s', out) := hello_swap cc (w_srv w) in (tt, on_srv (λ _, s') w, out)) (λ _,
        if ack_ok then sends [Send conn (simple_msg TypeAck "" "" [])]
        else seqT (change ConnsMap (λ _, on_srv (compare_and_delete cc))) (sends [Close conn])))
  end.

(** pkg/rendezvous/control_tcp.go:108-108 [Server.handleControlConn part]: the
    deferred clean-up of a connection that ended. *)
Definition closedT (cc : controlConn) : task :=
  seqT (change ConnsMap (λ _, on_srv (compare_and_delete cc))) (sends [Close (cc_conn cc)]).

(** [healthLimiter.allow(ip)] *)
Definition allowT (ip : string) (k : bool → task) : task :=
  Act LimiterMu (λ now w, let '(l, ok) := allow ip now (healthLimiter (w_srv w)) in
                          (ok, on_srv (set_limiter l) w, [])) k.

(** pkg/rendezvous/punch_udp.go:46-80 [Server.runPunchUDP part] *)
Definition datagramT (src : net_addr) (buf : string) : task :=
  if (String.length buf <? 2)%nat then Stop
  else match buf with
       | String b rest =>
           if (byte_val b =? 1)%nat then
             if rest =s? "" then Stop else change MuW (λ _, on_srv (learnPublicAddr rest src))
           else if (byte_val b =? 2)%nat then Stop
           else if (byte_val b =? 3)%nat then
             let host := clientIP (addr_string src) in
             if host =s? "" then Stop
             else allowT host (λ ok : bool, if ok then sends [Echo src buf] else Stop)
           else Stop
       | EmptyString => Stop
       end.

(** pkg/rendezvous/server.go:397-421 [Server.Run part]: [pruneMetrics] takes its
    snapshot under [s.mu] and reads the clock after it. *)
Definition tickT : task :=
  Act MuW (λ now w, (now, purge_entries now w, [])) (λ now,
  Act SessionsMu (λ _ w, (tt, on_srv (λ s, set_sessions (Prune now (sessions s)) s) w, [])) (λ _,
  Act MuR (λ _ w, (last_seen (w_srv w), w, [])) (λ live,
  change MetricsMu (λ now, drop_rows live (time_add now (- (5 * minute))))))).

(** pkg/rendezvous/server.go:971-975 [Server.handleHealth part] *)
Definition healthT (remoteAddr : string) : task :=
  let ip := clientIP remoteAddr in
  if ip =s? "" then Stop else allowT ip (λ _, Stop).

(** ** The machine *)

Inductive arrival :=
  | RqHello (conn : nat) (remote : net_addr) (first : option RendezvousMsg) (ack_ok : bool)
  | RqFrame (cc : controlConn) (msg : RendezvousMsg)
  | RqClosed (cc : controlConn)
  | RqDatagram (src : net_addr) (buf : string)
  | RqTick
  | RqHealth (remoteAddr : string).

Definition task_of (rq : arrival) : task :=
  match rq with
  | RqHello conn remote first ack_ok => helloT conn remote first ack_ok
  | RqFrame cc msg => frameT cc msg
  | RqClosed cc => closedT cc
  | RqDatagram src buf => datagramT src buf
  | RqTick => tickT
  | RqHealth remoteAddr => healthT remoteAddr
  end.

(** The same handler in [RvServer]. *)
Definition handler_of (rq : arrival) (now : time) (s : Server) : Server * list output :=
  match rq with
  | RqHello conn remote first ack_ok => (handle_hello conn remote first ack_ok now s).1
  | RqFrame cc msg => handle_frame cc msg now s
  | RqClosed cc => (compare_and_delete cc s, [Close (cc_conn cc)])
  | RqDatagram src buf => handle_datagram src buf now s
  | RqTick => (cleanup_tick now s, [])
  | RqHealth remoteAddr => ((health_gate remoteAddr now s).1, [])
  end.

(** A goroutine: what it serves, what is left of it, what it has sent. *)
Record goroutine := mkGo { go_rq : arrival; go_task : task; go_out : list output }.
Record fstate := mkF { f_world : World; f_gos : list goroutine }.

(** A handler starts; the [i]-th goroutine runs its next action at the time
    [now].  A goroutine whose turn never comes again is one that waits for its
    connection, or died with the process. *)
Inductive fevent :=
  | Arrive (rq : arrival)
  | Go (i : nat) (now : time).

Definition fstep (s : fstate) (e : fevent) : fstate :=
  match e with
  | Arrive rq => mkF (f_world s) (f_gos s ++ [mkGo rq (task_of rq) []])
  | Go i now =>
      match f_gos s !! i with
      | Some (mkGo rq (Act g m k) out) =>
          let '(b, w', out') := m now (f_world s) in
          mkF w' (<[i := mkGo rq (k b) (out ++ out')]> (f_gos s))
      | _ => s
      end
  end.

Definition init_world (c : ServerConfig) : World := mkWorld (NewServer c) ∅ ∅ 0.
Definition frun (c : ServerConfig) (h : list fevent) : fstate :=
  fold_left fstep h (mkF (init_world c) []).

(** Where the next action of the [i]-th goroutine runs. *)
Definition next_region (s : fstate) (i : nat) : option region :=
  match f_gos s !! i with
  | Some (mkGo _ (Act g _ _) _) => Some g
  | _ => None
  end.
End handlers.
