(* ===== verification/RvSectionsLaws.v ===== *)
(** * pkg/rendezvous: what each critical section may touch

    [obeys g m]: the section [m] reads and writes no more than the lock it runs
    under protects.  [lawful]: it obeys its lock, and what it does to the roster
    and to the metric rows is one of a few effects, each in the name of the
    node its handler serves.  Every section of every handler is lawful. *)

From S2P Require Import Prelude GoStrings GoStringsFacts Strconv Hardware GoAny GoTime Auth.
From S2P Require Import Tunnel Signal SessionCache RvTypes RvAuth RvService RvServer RvProofs RvTheorems.
From S2P Require Import RvSections.
From Stdlib Require Import ZArith Lia ZifyBool Bool Ascii String SpecFloat.
From stdpp Require Import base option list gmap strings.

Open Scope go_scope.
Open Scope Z_scope.

(** ** The parts of the shared state *)

Inductive part := Roster | Rows | Conns | Limiter | Sessions.

#[export] Instance part_dec : EqDecision part.
Proof. solve_decision. Defined.

Definition counts (s : Server) : Z * Z * Z * Z :=
  (cntStation s, cntControl s, cntPassenger s, cntPublic s).

(** The two worlds agree on the part [p]. *)
Definition same (p : part) (w w' : World) : Prop :=
  match p with
  | Roster => proxies (w_srv w) = proxies (w_srv w') ∧ counts (w_srv w) = counts (w_srv w') ∧
              w_obj w = w_obj w' ∧ w_gone w = w_gone w' ∧ w_next w = w_next w'
  | Rows => metrics (w_srv w) = metrics (w_srv w')
  | Conns => controlConns (w_srv w) = controlConns (w_srv w')
  | Limiter => healthLimiter (w_srv w) = healthLimiter (w_srv w')
  | Sessions => sessions (w_srv w) = sessions (w_srv w')
  end.

(** What is never written once the server runs. *)
Definition fixed_part (w : World) : ServerConfig * time := (cfg (w_srv w), startedAt (w_srv w)).

#[export] Instance same_equiv p : Equivalence (same p).
Proof.
  split.
  - intros w. by destruct p.
  - intros w w'. destruct p; simpl; [|done..]. by intros (-> & -> & -> & -> & ->).
  - intros w w' w''. destruct p; simpl; try congruence. by intros (-> & -> & -> & -> & ->).
Qed.

Lemma world_ext w w' : fixed_part w = fixed_part w' → (∀ p, same p w w') → w = w'.
Proof.
  intros Hf Hs. pose proof (Hs Roster) as H1. pose proof (Hs Rows) as H2.
  pose proof (Hs Conns) as H3. pose proof (Hs Limiter) as H4. pose proof (Hs Sessions) as H5.
  destruct w as [[] ? ? ?], w' as [[] ? ? ?]. unfold fixed_part, counts in *. simpl in *.
  destruct H1 as (? & ? & ? & ? & ?). by simplify_eq.
Qed.

(** The mutex an action holds. *)
Inductive lock := LMu | LMetrics | LConns | LLimiter | LSessions.

Definition lock_of (g : region) : option lock :=
  match g with
  | MuW | MuR => Some LMu
  | MetricsMu => Some LMetrics
  | ConnsMap => Some LConns
  | LimiterMu => Some LLimiter
  | SessionsMu => Some LSessions
  | Local | Unlocked => None
  end.

Definition reads (g : region) : option part :=
  match g with
  | MuW | MuR | Unlocked => Some Roster
  | MetricsMu => Some Rows
  | ConnsMap => Some Conns
  | LimiterMu => Some Limiter
  | SessionsMu => Some Sessions
  | Local => None
  end.

Definition writes (g : region) : option part :=
  match g with MuR | Unlocked | Local => None | _ => reads g end.

Record obeys {B : Set} (g : region) (m : section B) : Prop := {
  o_fixed : ∀ now w, fixed_part (m now w).1.2 = fixed_part w;
  o_writes : ∀ now w p, writes g ≠ Some p → same p (m now w).1.2 w;
  o_reads : ∀ now w1 w2, fixed_part w1 = fixed_part w2 →
    (∀ p, reads g = Some p → same p w1 w2) →
    (m now w1).1.1 = (m now w2).1.1 ∧ (m now w1).2 = (m now w2).2 ∧
    (∀ p, writes g = Some p → same p (m now w1).1.2 (m now w2).1.2)
}.

(** Neither writes what the other reads. *)
Definition apart (g1 g2 : region) : Prop :=
  (∀ p, writes g1 = Some p → reads g2 ≠ Some p) ∧ (∀ p, writes g2 = Some p → reads g1 ≠ Some p).

Lemma writes_reads g p : writes g = Some p → reads g = Some p.
Proof. by destruct g. Qed.

Lemma apart_cases g1 g2 :
  apart g1 g2 ∨ (∃ l, lock_of g1 = Some l ∧ lock_of g2 = Some l) ∨ g1 = Unlocked ∨ g2 = Unlocked.
Proof.
  destruct g1, g2; try (by right; right; auto); try (by right; left; eexists); left;
    split; intros p ?; simplify_eq/=; by intros [=].
Qed.

Lemma apart_swap {B1 B2 : Set} g1 g2 (m1 : section B1) (m2 : section B2) n1 n2 w :
  apart g1 g2 → obeys g1 m1 → obeys g2 m2 →
  let w1 := (m1 n1 w).1.2 in let w2 := (m2 n2 w).1.2 in
  (m2 n2 w1).1.1 = (m2 n2 w).1.1 ∧ (m2 n2 w1).2 = (m2 n2 w).2 ∧
  (m1 n1 w2).1.1 = (m1 n1 w).1.1 ∧ (m1 n1 w2).2 = (m1 n1 w).2 ∧
  (m2 n2 w1).1.2 = (m1 n1 w2).1.2.
Proof.
  intros [A12 A21] H1 H2 w1 w2.
  destruct (o_reads _ _ H2 n2 w1 w (o_fixed _ _ H1 n1 w)) as (R2 & O2 & S2).
  { intros p Hp. apply (o_writes _ _ H1). intros Hw. by apply (A12 p). }
  destruct (o_reads _ _ H1 n1 w2 w (o_fixed _ _ H2 n2 w)) as (R1 & O1 & S1).
  { intros p Hp. apply (o_writes _ _ H2). intros Hw. by apply (A21 p). }
  split_and!; [done..|]. apply world_ext.
  - rewrite (o_fixed _ _ H2), (o_fixed _ _ H1). unfold w1, w2.
    by rewrite (o_fixed _ _ H1), (o_fixed _ _ H2).
  - intros p. destruct (decide (writes g1 = Some p)) as [W1|W1].
    + assert (writes g2 ≠ Some p) as W2 by (intros W2; by eapply A12, writes_reads).
      rewrite (o_writes _ _ H2 n2 w1 p W2). symmetry. by apply S1.
    + rewrite (o_writes _ _ H1 n1 w2 p W1).
      destruct (decide (writes g2 = Some p)) as [W2|W2]; [by apply S2|].
      rewrite (o_writes _ _ H2 n2 w1 p W2). etrans; [by apply (o_writes _ _ H1)|].
      symmetry. by apply (o_writes _ _ H2).
Qed.

(** ** Sections that obey their lock *)

(** An action that only reads. *)
Lemma obeys_read {B : Set} g (f : time → World → B) (o : time → World → list output) :
  writes g = None →
  (∀ now w1 w2, fixed_part w1 = fixed_part w2 → (∀ p, reads g = Some p → same p w1 w2) →
     f now w1 = f now w2 ∧ o now w1 = o now w2) →
  obeys g (λ now w, (f now w, w, o now w)).
Proof.
  intros Hw Hf. split; simpl; [done|done|]. intros now w1 w2 Hx Hr.
  destruct (Hf now w1 w2 Hx Hr) as [-> ->]. split_and!; [done..|]. intros p Hp. congruence.
Qed.

Lemma obeys_local {B : Set} (f : time → B) (o : list output) : obeys Local (λ now w, (f now, w, o)).
Proof. by apply (obeys_read Local (λ now _, f now) (λ _ _, o)). Qed.

(** The server outside the roster and its counters. *)
Definition off_roster (s : Server) :=
  (controlConns s, metrics s, healthLimiter s, sessions s, cfg s, startedAt s).

(** A function of the roster and the configuration that changes the roster. *)
Record roster_fn (F : Server → Server) : Prop := {
  rf_off : ∀ s, off_roster (F s) = off_roster s;
  rf_on : ∀ s1 s2, cfg s1 = cfg s2 → proxies s1 = proxies s2 → counts s1 = counts s2 →
    proxies (F s1) = proxies (F s2) ∧ counts (F s1) = counts (F s2)
}.

Lemma roster_id : roster_fn (λ s, s).
Proof. by split. Qed.
Lemma roster_set f : roster_fn (set_proxies f).
Proof. split; [done|]. by intros s1 s2 _ Hp Hc; simpl; rewrite Hp. Qed.
Lemma roster_comp F G : roster_fn F → roster_fn G → roster_fn (λ s, G (F s)).
Proof.
  intros HF HG. split; [intros s; by rewrite (rf_off _ HG), (rf_off _ HF)|].
  intros s1 s2 Hf Hp Hc. destruct (rf_on _ HF s1 s2 Hf Hp Hc) as [? ?].
  apply (rf_on _ HG); [|done..].
  pose proof (rf_off _ HF s1) as H1. pose proof (rf_off _ HF s2) as H2.
  unfold off_roster in *. congruence.
Qed.
(** It may first look at the roster and the configuration. *)
Lemma roster_dep (F : gmap string ProxyInfo → ServerConfig → Server → Server) :
  (∀ px c, roster_fn (F px c)) → roster_fn (λ s, F (proxies s) (cfg s) s).
Proof.
  intros HF. split; [intros s; apply (rf_off _ (HF _ _))|].
  intros s1 s2 Hf Hp Hc. rewrite <-Hf, <-Hp. by apply (rf_on _ (HF (proxies s1) (cfg s1))).
Qed.

Section sections.
Context {U : GoUnicode} {H : Sha256} {E : EthCrypto} {J : HardwareJSON} {X : X509}.

Lemma roster_countDelta r a d : roster_fn (countDelta r a d).
Proof.
  split.
  - intros s. unfold countDelta. by repeat case_if.
  - intros s1 s2 _ Hp Hc. rewrite !countDelta_proxies. split; [done|].
    unfold counts in *. simplify_eq. unfold countDelta.
    repeat case_if; simpl; congruence.
Qed.

#[local] Hint Resolve roster_id roster_set roster_comp roster_countDelta : roster.

Lemma roster_store cc msg now : roster_fn (store_register cc msg now).
Proof.
  apply (roster_dep (λ px _ s, let key := nodeKey (m_ID msg) in let old := px !! key in
    let p := registered_proxy cc msg now (default (new_proxy now) old) in
    countDelta (p_Role p) (p_AuthMode p) 1
      (match old with Some o => countDelta (p_Role o) (p_AuthMode o) (-1) (set_proxies <[key:=p]> s)
       | None => set_proxies <[key:=p]> s end))).
  intros px _. cbv zeta. apply (roster_comp _ (countDelta _ _ 1)); [|auto with roster].
  destruct (px !! _); [|apply roster_set].
  apply (roster_comp (set_proxies _) (countDelta _ _ (-1))); auto with roster.
Qed.

Lemma roster_fold {A} (f : Server → A → Server) l :
  (∀ a, roster_fn (λ s, f s a)) → roster_fn (λ s, fold_left f l s).
Proof.
  intros Hf. induction l as [|a l IH]; simpl; [apply roster_id|].
  by apply (roster_comp (λ s, f s a) (λ s, fold_left f l s)).
Qed.

Lemma roster_purge now : roster_fn (purge now).
Proof.
  apply (roster_dep (λ px c s, fold_left (purge_one (if 0 <? cfg_ProxyPurge c then cfg_ProxyPurge c
    else defaultProxyPurge) now) (map_to_list px) s)).
  intros px c. apply roster_fold. intros [id p]. unfold purge_one. case_if; [|apply roster_id].
  apply (roster_comp (countDelta _ _ (-1)) (set_proxies _)); auto with roster.
Qed.

Lemma roster_lifecycle msg now : roster_fn (applyServiceLifecycle msg now).
Proof.
  unfold applyServiceLifecycle. case_if; [apply roster_id|].
  apply (roster_dep (λ px _ s, match px !! nodeKey (m_ID msg) with None => s | Some p =>
    set_proxies <[nodeKey (m_ID msg) := set_Services (lifecycle_services (m_Event msg)
      (m_ServiceName msg) (m_ServiceInfo msg) (p_Services (set_LastSeen now p))) (set_LastSeen now p)]> s
    end)).
  intros px _. destruct (px !! _); auto with roster.
Qed.

Lemma roster_learn id src : roster_fn (learnPublicAddr id src).
Proof.
  apply (roster_dep (λ px _ s, match px !! nodeKey id with None => s | Some p =>
    match src with UDPAddr ip _ =>
      if (0 <? String.length (p_ControlIP p))%nat && negb (ip_equal ip (p_ControlIP p)) then s
      else set_proxies <[nodeKey id := set_UDPAddr src
             (if negb (p_AddrManual p) then addr_string src else p_Addr p) p]> s
    | _ => s end end)).
  intros px _. destruct (px !! _) as [p|]; [|apply roster_id].
  destruct src; [apply roster_id| |apply roster_id]. case_if; auto with roster.
Qed.

(** A section under [s.mu] that writes: what it answers, what it makes of the
    server, what it makes of the objects. *)
Lemma obeys_mu {B : Set} (m : section B) :
  (∀ now w, fixed_part (m now w).1.2 = fixed_part w ∧
            off_roster (w_srv (m now w).1.2) = off_roster (w_srv w)) →
  (∀ now w1 w2, fixed_part w1 = fixed_part w2 → same Roster w1 w2 →
     (m now w1).1.1 = (m now w2).1.1 ∧ (m now w1).2 = (m now w2).2 ∧
     same Roster (m now w1).1.2 (m now w2).1.2) →
  obeys MuW m.
Proof.
  intros Hoff Hon. split.
  - intros now w. apply Hoff.
  - intros now w p Hp. destruct (Hoff now w) as [_ Ho]. unfold off_roster in Ho.
    destruct p; simpl in *; congruence.
  - intros now w1 w2 Hf Hr. destruct (Hon now w1 w2 Hf (Hr Roster eq_refl)) as (? & ? & ?).
    split_and!; [done..|]. intros p [= <-]. done.
Qed.

Lemma off_fixed F w : off_roster (F (w_srv w)) = off_roster (w_srv w) → fixed_part (on_srv F w) = fixed_part w.
Proof. unfold off_roster, fixed_part. simpl. congruence. Qed.

Lemma obeys_roster_fn (F : time → Server → Server) :
  (∀ now, roster_fn (F now)) → obeys MuW (λ now w, (tt, on_srv (F now) w, [])).
Proof.
  intros HF. apply obeys_mu; simpl.
  - intros now w. split; [apply off_fixed|]; apply (rf_off _ (HF now)).
  - intros now w1 w2 Hf (Hp & Hc & Ho & Hg & Hn).
    destruct (rf_on _ (HF now) (w_srv w1) (w_srv w2)) as [? ?]; [by injection Hf|done|done|].
    split_and!; done.
Qed.

(** [match proxies[key] { case p: proxies[key] = f(p); true; case nil: false }] *)
Lemma obeys_update (key : string) (f : time → ProxyInfo → ProxyInfo) :
  obeys MuW (λ now w, (match proxies (w_srv w) !! key with
    | Some p => (true, on_srv (set_proxies <[key := f now p]>) w)
    | None => (false, w) end, [])).
Proof.
  apply obeys_mu; simpl.
  - intros now w. by destruct (_ !! key).
  - intros now w1 w2 Hf (Hp & Hc & Ho & Hg & Hn). rewrite Hp.
    destruct (_ !! key); simpl; rewrite ?Hp; by split_and!.
Qed.

Lemma obeys_store cc msg : obeys MuW (λ now w, (tt, store_entry cc msg now w, [])).
Proof.
  apply obeys_mu; simpl.
  - intros now w. assert (off_roster (w_srv (store_entry cc msg now w)) = off_roster (w_srv w)) as Ho.
    { unfold store_entry. destruct (_ !! _); apply (rf_off _ (roster_store cc msg now)). }
    split; [|done]. unfold off_roster, fixed_part in *. congruence.
  - intros now w1 w2 Hf (Hp & Hc & Ho & Hg & Hn).
    destruct (rf_on _ (roster_store cc msg now) (w_srv w1) (w_srv w2)) as [? ?];
      [by injection Hf|done|done|].
    unfold store_entry. rewrite Hp. destruct (_ !! _); split_and!; simpl; congruence.
Qed.

Lemma obeys_purge : obeys MuW (λ now w, (now, purge_entries now w, [])).
Proof.
  apply obeys_mu; simpl.
  - intros now w. pose proof (rf_off _ (roster_purge now) (w_srv w)) as Ho.
    split; [|done]. unfold off_roster, fixed_part in *. simpl. congruence.
  - intros now w1 w2 Hf (Hp & Hc & Ho & Hg & Hn).
    destruct (rf_on _ (roster_purge now) (w_srv w1) (w_srv w2)) as [Hp' ?];
      [by injection Hf|done|done|].
    split_and!; simpl; rewrite ?Hp', ?Hp, ?Ho, ?Hg; done.
Qed.

(** Sections on one other part. *)
Lemma obeys_other {B : Set} (g : region) (q : part) (m : section B) :
  reads g = Some q → writes g = Some q →
  (∀ now w, fixed_part (m now w).1.2 = fixed_part w ∧ ∀ p, p ≠ q → same p (m now w).1.2 w) →
  (∀ now w1 w2, same q w1 w2 →
     (m now w1).1.1 = (m now w2).1.1 ∧ (m now w1).2 = (m now w2).2 ∧
     same q (m now w1).1.2 (m now w2).1.2) →
  obeys g m.
Proof.
  intros Hr Hw Hoff Hon. split.
  - intros now w. apply Hoff.
  - intros now w p Hp. apply Hoff. congruence.
  - intros now w1 w2 _ Hs. destruct (Hon now w1 w2) as (? & ? & ?); [by apply Hs|].
    split_and!; [done..|]. intros p Hp. by assert (p = q) as -> by congruence.
Qed.

(** ** What a section does, and for whom *)

(** The roster entry a handler may speak for. *)
Definition acts_for (rq : arrival) (k : string) : Prop :=
  match rq with
  | RqFrame cc _ => nodeKey (cc_nodeID cc) = k
  | RqDatagram _ buf => ∃ id, buf = String (ch 1) id ∧ nodeKey id = k
  | _ => False
  end.

(** The metric row a handler may write. *)
Definition reports_for (rq : arrival) (id : string) : Prop :=
  match rq with RqFrame cc _ => cc_nodeID cc = id | _ => False end.

(** The register frame was verified and, on a protected server, admitted, at
    some moments before. *)
Definition vetted (c : ServerConfig) (cc : controlConn) (msg : RendezvousMsg) : Prop :=
  let msg := set_msg_ID (cc_nodeID cc) msg in
  ∃ t1 t2, verifyRegisterSignature msg (hashHardwareForVerify (m_Hardware msg)) t1 = Ok tt ∧
           (equal_fold (cfg_Mode c) "protected" = true → admitRegister (NewServer c) msg t2 = Ok tt).

Inductive effect (c : ServerConfig) (rq : arrival) (now : time) (w w' : World) : Prop :=
  | eff_none : same Roster w' w → effect c rq now w w'
  | eff_touch R k : keeps_identity R → touched R k (w_srv w) (w_srv w') →
      w_obj w' = w_obj w → w_gone w' = w_gone w → w_next w' = w_next w →
      acts_for rq k → effect c rq now w w'
  | eff_store cc msg : rq = RqFrame cc msg → m_Type msg = TypeRegister →
      (m_FullSync msg = true → vetted c cc msg) →
      w' = store_entry cc (set_msg_ID (cc_nodeID cc) msg) now w → effect c rq now w w'
  | eff_purge : rq = RqTick → w' = purge_entries now w → effect c rq now w w'.

Definition rows_kept (rq : arrival) (w w' : World) : Prop :=
  ∀ id, metrics (w_srv w') !! id = metrics (w_srv w) !! id ∨ reports_for rq id ∨
        (rq = RqTick ∧ metrics (w_srv w') !! id = None).

Record lawful (c : ServerConfig) (rq : arrival) {B : Set} (g : region) (m : section B) : Prop := {
  l_obeys : obeys g m;
  l_unlocked : g = Unlocked → ∃ cc msg, rq = RqFrame cc msg ∧ m_Type msg = TypeConnect;
  l_effect : ∀ now w, cfg (w_srv w) = c →
    effect c rq now w (m now w).1.2 ∧ rows_kept rq w (m now w).1.2
}.

(** Every section [t] can come to is lawful. *)
Fixpoint abides (c : ServerConfig) (rq : arrival) (t : task) : Prop :=
  match t with
  | Stop => True
  | Act g m k => lawful c rq g m ∧ ∀ now w, cfg (w_srv w) = c → abides c rq (k (m now w).1.1)
  end.

Lemma abides_seq c rq t u : abides c rq t → abides c rq u → abides c rq (seqT t u).
Proof.
  intros Ht Hu. induction t as [|B g m k IH]; [done|]. destruct Ht as [Hm Hk].
  split; [done|]. intros now w Hw. by apply IH, Hk.
Qed.

Lemma rows_refl rq w : rows_kept rq w w.
Proof. by left. Qed.

(** Sections that leave roster and rows alone. *)
Lemma lawful_off c rq {B : Set} g (m : section B) :
  obeys g m → writes g ≠ Some Roster → writes g ≠ Some Rows →
  (g = Unlocked → ∃ cc msg, rq = RqFrame cc msg ∧ m_Type msg = TypeConnect) → lawful c rq g m.
Proof.
  intros Ho H1 H2 Hg. split; [done..|]. intros now w _. split.
  - apply eff_none. by apply (o_writes _ _ Ho).
  - intros id. left. by rewrite (o_writes _ _ Ho now w Rows H2).
Qed.

Lemma lawful_local c rq {B : Set} (f : time → B) os : lawful c rq Local (λ now w, (f now, w, os)).
Proof. by apply lawful_off; [apply obeys_local|..]. Qed.

(** Sections under [s.mu] leave the rows alone. *)
Lemma lawful_mu c rq {B : Set} (m : section B) :
  obeys MuW m → (∀ now w, cfg (w_srv w) = c → effect c rq now w (m now w).1.2) → lawful c rq MuW m.
Proof.
  intros Ho He. split; [done|done|]. intros now w Hw. split; [by apply He|].
  intros id. left. by rewrite (o_writes _ _ Ho now w Rows).
Qed.

Lemma abides_sends c rq os : abides c rq (sends os).
Proof. split; [apply (lawful_local c rq (λ _, tt))|done]. Qed.

Lemma effect_touch c rq now w f R k :
  keeps_identity R → touched R k (w_srv w) (f (w_srv w)) → acts_for rq k →
  effect c rq now w (on_srv f w).
Proof. intros ???. by eapply eff_touch. Qed.

Lemma lawful_update c rq key f :
  (∀ now p, live_only p (f now p)) → acts_for rq key →
  lawful c rq MuW (λ now w, (match proxies (w_srv w) !! key with
    | Some p => (true, on_srv (set_proxies <[key := f now p]>) w)
    | None => (false, w) end, [])).
Proof.
  intros Hf Ha. apply lawful_mu; [apply obeys_update|]. intros now w _. simpl.
  destruct (_ !! key) as [p|] eqn:Hp; [|by apply eff_none].
  apply (effect_touch _ _ _ _ _ live_only key); [apply live_only_identity| |done].
  by eapply touched_update'.
Qed.

(** A write to the connection map. *)
Lemma obeys_conns {B : Set} (m : section B) :
  (∀ now w, ∃ f, (m now w).1.2 = on_srv (set_conns f) w) →
  (∀ now w1 w2, same Conns w1 w2 →
     (m now w1).1.1 = (m now w2).1.1 ∧ (m now w1).2 = (m now w2).2 ∧
     same Conns (m now w1).1.2 (m now w2).1.2) →
  obeys ConnsMap m.
Proof.
  intros Hf Hs. apply (obeys_other _ Conns); [done..| |done].
  intros now w. destruct (Hf now w) as [f ->]. split; [done|]. by intros [].
Qed.

Lemma compare_and_delete_conns cc s : ∃ f, compare_and_delete cc s = set_conns f s.
Proof.
  unfold compare_and_delete. destruct (_ !! _) as [cur|]; [|by exists id; destruct s].
  case_if; [by eexists|by exists id; destruct s].
Qed.

Lemma obeys_delete cc : obeys ConnsMap (λ _ w, (tt, on_srv (compare_and_delete cc) w, [])).
Proof.
  apply obeys_conns; simpl.
  - intros _ w. destruct (compare_and_delete_conns cc (w_srv w)) as [f Hf]. exists f.
    unfold on_srv. by rewrite Hf.
  - intros _ w1 w2 Hs. split_and!; [done..|]. unfold compare_and_delete. rewrite Hs.
    destruct (_ !! _); [|done]. case_if; [|done]. simpl. by rewrite Hs.
Qed.

(** ** The handlers are lawful *)

Lemma fixed_cfg w1 w2 : fixed_part w1 = fixed_part w2 → cfg (w_srv w1) = cfg (w_srv w2).
Proof. by intros [=]. Qed.

Lemma register_ack_cfg s1 s2 cc : cfg s1 = cfg s2 → register_ack s1 cc = register_ack s2 cc.
Proof.
  intros Hc. unfold register_ack, EffectivePolicy, PingIntervalFor, RegisterIntervalFor. by rewrite Hc.
Qed.

Lemma abides_store c cc msg :
  m_Type msg = TypeRegister → (m_FullSync msg = true → vetted c cc msg) →
  abides c (RqFrame cc msg) (change MuW (store_entry cc (set_msg_ID (cc_nodeID cc) msg))).
Proof.
  intros Hty Hv. split; [|done]. apply lawful_mu; [apply obeys_store|]. intros now w _.
  by eapply eff_store.
Qed.

Lemma abides_register c cc msg :
  m_Type msg = TypeRegister →
  abides c (RqFrame cc msg) (registerT cc (set_msg_ID (cc_nodeID cc) msg)).
Proof.
  intros Hty. unfold registerT. cbn [m_ID set_msg_ID m_FullSync m_Hardware].
  case_if; [apply abides_sends|].
  destruct (m_FullSync msg) eqn:Hfs; [|by apply abides_store; [|congruence]].
  split; [apply lawful_local|]. intros t1 w1 _. cbn [fst].
  destruct (verifyRegisterSignature _ _ _) as [[]|e] eqn:Ev; [|apply abides_sends].
  split.
  - apply lawful_off; [|done..].
    apply (obeys_read Local (λ now w, if modeProtected (w_srv w) then admitRegister (w_srv w) _ now
                                      else Ok tt) (λ _ _, [])); [done|].
    intros now v1 v2 Hf%fixed_cfg _. unfold modeProtected. rewrite Hf.
    by rewrite (admitRegister_cfg (w_srv v1) (w_srv v2)).
  - intros t2 w2 Hw2. cbn [fst]. unfold modeProtected. rewrite Hw2.
    destruct (equal_fold (cfg_Mode c) "protected") eqn:Hp.
    + rewrite (admitRegister_cfg (w_srv w2) (NewServer c)) by done.
      destruct (admitRegister _ _ _) as [[]|e] eqn:Ea; [|apply abides_sends].
      apply abides_store; [done|]. intros _. by exists t1, t2.
    + apply abides_store; [done|]. intros _. exists t1, t2. by rewrite Hp.
Qed.

Lemma abides_ping c cc msg : abides c (RqFrame cc msg) (pingT cc (set_msg_ID (cc_nodeID cc) msg)).
Proof.
  unfold pingT. cbn [m_ID set_msg_ID]. case_if; [done|]. split; [apply lawful_local|]. intros now w _.
  cbn [fst]. destruct (verifyPingSignature _ _); [|done]. split.
  - apply (lawful_update c _ (nodeKey (cc_nodeID cc)) set_LastSeen); [by intros t []|done].
  - intros ??? . cbn [fst]. case_if; [done|apply abides_sends].
Qed.

Lemma obeys_rows (F : time → gmap string NodeMetric → gmap string NodeMetric) :
  obeys MetricsMu (λ now w, (tt, on_srv (set_metrics (F now)) w, [])).
Proof.
  apply (obeys_other _ Rows); [done..| |].
  - intros now w. split; [done|]. by intros [].
  - intros now w1 w2 Hs. simpl in *. by rewrite Hs.
Qed.

Lemma abides_metric c cc msg m :
  abides c (RqFrame cc msg) (metricT (cc_nodeID cc) m).
Proof.
  unfold metricT. case_if; [done|]. split.
  - apply (lawful_update c _ (nodeKey (cc_nodeID cc)) (λ now p, set_Services (option_map
      (patch_first (sm_Service m) (patch_metric m)) (p_Services (set_LastSeen now p)))
      (set_LastSeen now p))); [by intros t []|done].
  - intros now w _. cbn [fst]. case_if; [|done]. split; [|done].
    split; [|done|].
    + apply (obeys_rows (λ _, <[_ := _]>)).
    + intros t v _. cbn [fst snd]. split; [by apply eff_none|].
      intros id. simpl. destruct (decide (cc_nodeID cc = id)) as [|Hne]; [by right; left|].
      left. unfold metricKey. by rewrite lookup_insert_ne.
Qed.

Lemma abides_event c cc msg :
  abides c (RqFrame cc msg) (eventT (set_msg_ID (cc_nodeID cc) msg)).
Proof.
  unfold eventT. cbn [m_ID set_msg_ID m_Event m_ServiceName m_MetricsBatch m_Metrics].
  case_if; [done|]. case_if.
  { split; [|done]. apply lawful_mu; [apply obeys_roster_fn; intros t; apply roster_lifecycle|].
    intros now w _. cbn [fst snd].
    apply (effect_touch _ _ _ _ _ live_only (nodeKey (cc_nodeID cc)));
      [apply live_only_identity| |done].
    unfold applyServiceLifecycle. cbn [m_ID set_msg_ID].
    case_if; [by apply touched_refl; intros []|].
    destruct (proxies _ !! _) as [p|] eqn:Hp; [|by apply touched_refl; intros []].
    cbv zeta. eapply touched_update'; [exact Hp|]. by destruct p. }
  destruct (m_MetricsBatch msg) as [|m0 l].
  { destruct (m_Metrics msg) as [m|]; [|done]. case_if; [done|apply abides_metric]. }
  generalize (m0 :: l). clear m0 l. intros l.
  induction l as [|m l IH]; [done|]. apply abides_seq; [apply abides_metric|done].
Qed.

Lemma abides_connect c cc msg :
  m_Type msg = TypeConnect → abides c (RqFrame cc msg) (connectT cc msg).
Proof.
  intros Hty. assert (∃ cc0 msg0, RqFrame cc msg = RqFrame cc0 msg0 ∧ m_Type msg0 = TypeConnect)
    as Hc by (by exists cc, msg).
  unfold connectT. case_if; [apply abides_sends|]. split.
  { apply lawful_off; [|done..]. apply (obeys_read MuR (λ _ w, w_obj w !! _) (λ _ _, [])); [done|].
    intros _ w1 w2 _ Hr. destruct (Hr Roster eq_refl) as (_ & _ & Ho & _). simpl. by rewrite Ho. }
  intros t w _. cbn [fst]. destruct (w_obj w !! _) as [o|]; [|apply abides_sends]. split.
  { apply lawful_off; [|done..]. apply (obeys_read Unlocked (λ _ w, requester_addr (w_srv w) cc) (λ _ _, [])); [done|].
    intros _ w1 w2 _ Hr. destruct (Hr Roster eq_refl) as (Hp & _). unfold requester_addr. by rewrite Hp. }
  intros t1 w1 _. cbn [fst]. apply abides_seq.
  - case_if; [|done]. split; [|done]. apply lawful_off; [|done..]. apply obeys_conns; simpl.
    + intros _ v. exists id. by destruct v as [[] ???].
    + intros _ v1 v2 Hs. unfold PushToNode. simpl in Hs. by rewrite Hs.
  - split; [apply lawful_off; [|done..]|].
    + apply (obeys_read Unlocked (λ _ w, deref o w) (λ _ _, [])); [done|].
      intros _ v1 v2 _ Hr. destruct (Hr Roster eq_refl) as (Hp & _ & Ho & Hg & _).
      unfold deref. by rewrite Hp, Ho, Hg.
    + intros t2 w2 _. cbn [fst]. destruct (deref o w2); [apply abides_sends|done].
Qed.

Lemma abides_frame c cc msg : abides c (RqFrame cc msg) (frameT cc msg).
Proof.
  unfold frameT. case_if.
  { apply abides_seq; [by apply abides_register|]. split; [|done]. apply lawful_off; [|done..].
    apply (obeys_read Local (λ _ _, tt) (λ _ w, [Send (cc_conn cc) (register_ack (w_srv w) cc)])); [done|].
    intros _ w1 w2 Hf%fixed_cfg _. by rewrite (register_ack_cfg (w_srv w1) (w_srv w2)). }
  case_if; [by apply abides_connect|]. case_if; [apply abides_ping|].
  case_if; [apply abides_event|done].
Qed.

Lemma abides_closed c rq cc os :
  abides c rq (seqT (change ConnsMap (λ _, on_srv (compare_and_delete cc))) (sends os)).
Proof.
  apply abides_seq; [|apply abides_sends]. split; [|done].
  by apply lawful_off; [apply obeys_delete|..].
Qed.

Lemma abides_hello c conn remote first ack_ok :
  abides c (RqHello conn remote first ack_ok) (helloT conn remote first ack_ok).
Proof.
  unfold helloT. destruct first as [f|]; [|apply abides_sends].
  case_if; [apply abides_sends|]. case_if; [apply abides_sends|].
  split; [apply (lawful_local c _ (λ now, mkConn conn remote (m_ID f) (m_Role f) now))|].
  intros t w _. cbn [fst]. split.
  - apply lawful_off; [|done..]. apply obeys_conns; simpl.
    + intros _ v. by eexists.
    + intros _ v1 v2 Hs. simpl. by rewrite <-Hs.
  - intros t1 w1 _. case_if; [apply abides_sends|apply abides_closed].
Qed.

Lemma abides_allow c rq ip k : (∀ b, abides c rq (k b)) → abides c rq (allowT ip k).
Proof.
  intros Hk. split; [|by intros]. apply lawful_off; [|done..].
  apply (obeys_other _ Limiter); [done..| |].
  - intros now w. destruct (allow _ _ _). split; [done|]. by intros [].
  - intros now w1 w2 Hs. simpl in Hs. rewrite Hs. by destruct (allow _ _ _).
Qed.

Lemma abides_datagram c src buf : abides c (RqDatagram src buf) (datagramT src buf).
Proof.
  unfold datagramT. case_if; [done|]. destruct buf as [|b rest]; [done|].
  destruct (byte_val b =? 1)%nat eqn:Eb.
  { breflect Eb. case_if; [done|]. split; [|done].
    apply lawful_mu; [apply (obeys_roster_fn (λ _, learnPublicAddr rest src)); intros _; apply roster_learn|].
    intros now w _. apply (effect_touch _ _ _ _ _ addr_only (nodeKey rest));
      [apply addr_only_identity|apply learnPublicAddr_touched|].
    exists rest. split; [|done]. f_equal. rewrite <-(ch_byte_val b). by rewrite Eb. }
  case_if; [done|]. case_if; [|done]. case_if; [done|].
  apply abides_allow. intros [|]; [apply abides_sends|done].
Qed.

Lemma abides_tick c : abides c RqTick tickT.
Proof.
  split; [apply lawful_mu; [apply obeys_purge|intros now w _; by eapply eff_purge]|].
  intros t w _. cbn [fst]. split.
  { apply lawful_off; [|done..]. apply (obeys_other _ Sessions); [done..| |].
    - intros _ v. split; [done|]. by intros [].
    - intros _ v1 v2 Hs. simpl in Hs |- *. by rewrite Hs. }
  intros t1 w1 _. split.
  { apply lawful_off; [|done..]. apply (obeys_read MuR (λ _ w, last_seen (w_srv w)) (λ _ _, [])); [done|].
    intros _ v1 v2 _ Hr. destruct (Hr Roster eq_refl) as (Hp & _). unfold last_seen. by rewrite Hp. }
  intros t2 w2 _. cbn [fst]. split; [|done]. split; [|done|].
  - apply (obeys_rows (λ now, filter (λ km, metric_live _ (time_add now _) km.2 = true))).
  - intros now v _. split; [by apply eff_none|]. intros id. simpl.
    destruct (decide (filter (λ km : string * NodeMetric, metric_live (last_seen (w_srv w2))
      (time_add now (- (5 * minute))) km.2 = true) (metrics (w_srv v)) !! id = None)) as [He|He];
      [by right; right|left].
    apply not_eq_None_Some in He as [m Hm]. rewrite Hm.
    by apply map_lookup_filter_Some in Hm as [-> _].
Qed.

Lemma task_abides c rq : abides c rq (task_of rq).
Proof.
  destruct rq; simpl; [apply abides_hello|apply abides_frame|apply abides_closed|apply abides_datagram
                      |apply abides_tick|].
  unfold healthT. case_if; [done|]. by apply abides_allow.
Qed.
End sections.
