(* ===== verification/RvSectionsProofs.v ===== *)
(** * pkg/rendezvous: interleaved handlers

    What holds of every history of [RvSections]: a handler nobody interrupts is
    the function of [RvServer]; the counters, the roster's keys and the
    admission of its entries hold whatever the interleaving; an entry changes
    only in the name of its owner; two pending sections commute unless they
    share a lock or one of them is [handleConnect] reading without one, which is
    a data race. *)

From S2P Require Import Prelude GoStrings GoStringsFacts Strconv Hardware GoAny GoTime Auth Tunnel.
From S2P Require Import Signal SessionCache RvTypes RvAuth RvService RvServer RvProofs RvTheorems RvNet.
From S2P Require Import RvWitness RvSections RvSectionsLaws.
From Stdlib Require Import ZArith Lia ZifyBool Bool Ascii String SpecFloat.
From stdpp Require Import base option list gmap strings.

Open Scope go_scope.
Open Scope Z_scope.

Section proofs.
Context {U : GoUnicode} {H : Sha256} {E : EthCrypto} {J : HardwareJSON} {X : X509}.

Lemma on_srv_id w : on_srv (λ s, s) w = w.
Proof. by destruct w. Qed.

(** ** Objects *)

(** Each entry of the roster is one object of its own. *)
Record objects_ok (w : World) : Prop := {
  ok_dom : ∀ k, is_Some (w_obj w !! k) ↔ is_Some (proxies (w_srv w) !! k);
  ok_inj : ∀ k k' o, w_obj w !! k = Some o → w_obj w !! k' = Some o → k = k';
  ok_next : ∀ k o, w_obj w !! k = Some o → (o < w_next w)%nat
}.

Lemma objects_init c : objects_ok (init_world c).
Proof. split; simpl; [|intros ?? ? []%lookup_empty_Some|intros ?? []%lookup_empty_Some].
  intros k. by rewrite !lookup_empty. Qed.

(** An action that gives and takes no entry. *)
Lemma objects_same f w :
  (∀ k, is_Some (proxies (f (w_srv w)) !! k) ↔ is_Some (proxies (w_srv w) !! k)) →
  objects_ok w → objects_ok (on_srv f w).
Proof. intros Hf [A1 A2 A3]. split; [|done..]. intros k. simpl. by rewrite A1, Hf. Qed.

Lemma touched_domain R key s s' k :
  touched R key s s' → is_Some (proxies s' !! k) ↔ is_Some (proxies s !! k).
Proof.
  intros [[Hn ->]|(o & v & Ho & _ & ->)]%touched_cases; [done|].
  rewrite lookup_insert_is_Some. destruct (decide (key = k)) as [<-|]; [|naive_solver].
  rewrite Ho. naive_solver.
Qed.

Lemma store_entry_objects cc msg now w : objects_ok w → objects_ok (store_entry cc msg now w).
Proof.
  intros [A1 A2 A3]. unfold store_entry. set (key := nodeKey (m_ID msg)).
  destruct (store_register_frame cc msg now (w_srv w)) as (_ & _ & _ & _ & Hp).
  fold key in Hp. destruct (proxies (w_srv w) !! key) as [p|] eqn:Hk.
  - split; simpl; [|done..]. intros k. rewrite Hp, lookup_insert_is_Some, A1.
    destruct (decide (key = k)) as [<-|]; [|naive_solver]. rewrite Hk. naive_solver.
  - assert (w_obj w !! key = None) as Ho.
    { apply eq_None_not_Some. rewrite A1, Hk. by intros []. }
    split; simpl.
    + intros k. rewrite Hp, !lookup_insert_is_Some, A1. done.
    + intros k k' o. rewrite !lookup_insert_Some.
      intros [[<- <-]|[? Hl]] [[<- ?]|[? Hl']]; [done| | |by eapply A2].
      * apply A3 in Hl'. lia.
      * subst o. apply A3 in Hl. lia.
    + intros k o [[<- <-]|[? Hl]]%lookup_insert_Some; [lia|]. apply A3 in Hl. lia.
Qed.

Lemma purge_subset now s k p : proxies (purge now s) !! k = Some p → proxies s !! k = Some p.
Proof.
  unfold purge. revert k p.
  apply (fold_left_inv (λ s', ∀ k p, proxies s' !! k = Some p → proxies s !! k = Some p)); [done|].
  intros s' [id q] _ Hs k p. rewrite purge_one_proxies.
  case_if; [|apply Hs]. intros [_ ?]%lookup_delete_Some. by apply Hs.
Qed.

Lemma purge_entries_objects now w : objects_ok w → objects_ok (purge_entries now w).
Proof.
  intros [A1 A2 A3]. split; unfold purge_entries; simpl.
  - intros k. split.
    + intros [o [_ Hp]%map_lookup_filter_Some]. done.
    + intros Hp. assert (is_Some (w_obj w !! k)) as [o Ho].
      { apply A1. destruct Hp as [p Hp]. exists p. by eapply purge_subset. }
      exists o. by apply map_lookup_filter_Some.
  - intros k k' o [Hk _]%map_lookup_filter_Some [Hk' _]%map_lookup_filter_Some. by eapply A2.
  - intros k o [Hk _]%map_lookup_filter_Some. by eapply A3.
Qed.

Lemma deref_entry w k o :
  objects_ok w → w_obj w !! k = Some o → deref o w = proxies (w_srv w) !! k.
Proof.
  intros [A1 A2 A3] Ho. unfold deref.
  destruct (filter _ _) as [|[k' o'] l] eqn:El.
  - assert ((k, o) ∈ filter (λ ko : string * nat, ko.2 = o) (map_to_list (w_obj w))) as Hin
      by (apply list_elem_of_filter; split; [done|by apply elem_of_map_to_list]).
    rewrite El in Hin. by apply elem_of_nil in Hin.
  - assert ((k', o') ∈ filter (λ ko : string * nat, ko.2 = o) (map_to_list (w_obj w))) as Hin
      by (rewrite El; left).
    apply list_elem_of_filter in Hin as [Heq Hin%elem_of_map_to_list]. simpl in Heq. subst o'.
    by rewrite (A2 k' k o).
Qed.

(** ** A handler that nobody interrupts *)

Lemma alone_seq t u now w :
  alone (seqT t u) now w =
  let '(w1, o1) := alone t now w in
  let '(w2, o2) := alone u now w1 in (w2, o1 ++ o2).
Proof.
  revert w. induction t as [|B g m k IH]; intros w; simpl; [by destruct (alone u now w)|].
  destruct (m now w) as [[b w'] out]. rewrite IH.
  destruct (alone (k b) now w') as [w1 o1]. destruct (alone u now w1) as [w2 o2].
  by rewrite app_assoc.
Qed.

(** [t] run alone is the handler [h], and keeps the objects in order. *)
Definition runs_as (h : Server → Server * list output) (t : task) (now : time) : Prop :=
  ∀ w, objects_ok w →
    let '(w', out) := alone t now w in (w_srv w', out) = h (w_srv w) ∧ objects_ok w'.

Lemma runs_stop now : runs_as (λ s, (s, [])) Stop now.
Proof. by intros w Hw. Qed.

Lemma runs_sends now os : runs_as (λ s, (s, os)) (sends os) now.
Proof. intros w Hw. simpl. by rewrite app_nil_r. Qed.

Lemma runs_eq h h' t now : (∀ s, h s = h' s) → runs_as h t now → runs_as h' t now.
Proof. intros He Ht w Hw. specialize (Ht w Hw). destruct (alone t now w). by rewrite <-He. Qed.

Lemma runs_seq h1 h2 t u now :
  runs_as h1 t now → runs_as h2 u now →
  runs_as (λ s, let '(s1, o1) := h1 s in let '(s2, o2) := h2 s1 in (s2, o1 ++ o2)) (seqT t u) now.
Proof.
  intros Ht Hu w Hw. rewrite alone_seq. specialize (Ht w Hw). destruct (alone t now w) as [w1 o1].
  destruct Ht as [<- Hw1]. specialize (Hu w1 Hw1). destruct (alone u now w1) as [w2 o2].
  destruct Hu as [<- Hw2]. done.
Qed.

(** An action that computes from the server and leaves it alone. *)
Lemma runs_local {B : Set} g (m : section B) (f : Server → B) (k : B → task) h now :
  (∀ w, m now w = (f (w_srv w), w, [])) → (∀ b, runs_as (h b) (k b) now) →
  runs_as (λ s, h (f s) s) (Act g m k) now.
Proof.
  intros Hm Hk w Hw. simpl. rewrite Hm. specialize (Hk (f (w_srv w)) w Hw).
  destruct (alone _ now w) as [w' out]. done.
Qed.

Lemma runs_change g f F now :
  (∀ w, objects_ok w → objects_ok (f now w) ∧ w_srv (f now w) = F (w_srv w)) →
  runs_as (λ s, (F s, [])) (change g f) now.
Proof. intros Hf w Hw. simpl. destruct (Hf w Hw) as [? ->]. done. Qed.

Lemma store_entry_srv cc msg now w :
  w_srv (store_entry cc msg now w) = store_register cc msg now (w_srv w).
Proof. unfold store_entry. by destruct (_ !! _). Qed.

Lemma registerT_alone cc msg now : runs_as (applyRegister cc msg now) (registerT cc msg) now.
Proof.
  assert (runs_as (λ s, (store_register cc msg now s, [])) (change MuW (store_entry cc msg)) now) as Hs.
  { apply runs_change. intros w Hw. split; [by apply store_entry_objects|apply store_entry_srv]. }
  unfold applyRegister, registerT. case_if; [apply runs_sends|]. case_if; [|done].
  eapply runs_eq; cycle 1.
  - apply (runs_local _ _ (λ _, verifyRegisterSignature msg (hashHardwareForVerify (m_Hardware msg)) now)
      _ (λ r s, match r with
         | Err _ => (s, [Send (cc_conn cc) (simple_msg TypeError (m_ID msg) "register signature invalid" [])])
         | Ok _ => match (if modeProtected s then admitRegister s msg now else Ok tt) with
                   | Err e => (s, [Send (cc_conn cc) (simple_msg TypeError (m_ID msg)
                                ("admission denied: " ++s admit_error_string e) [])])
                   | Ok _ => (store_register cc msg now s, [])
                   end
         end)); [done|]. intros [[]|e]; [|apply runs_sends].
    apply (runs_local _ _ (λ s, if modeProtected s then admitRegister s msg now else Ok tt) _
      (λ r s, match r with
              | Err e => (s, [Send (cc_conn cc) (simple_msg TypeError (m_ID msg)
                                ("admission denied: " ++s admit_error_string e) [])])
              | Ok _ => (store_register cc msg now s, [])
              end)); [done|]. intros [[]|e]; [done|apply runs_sends].
  - intros s. simpl. destruct (verifyRegisterSignature _ _ _); [|done]. by destruct (modeProtected s).
Qed.

Lemma pingT_alone cc msg now : runs_as (applyPing cc msg now) (pingT cc msg) now.
Proof.
  unfold applyPing, pingT. case_if; [apply runs_stop|]. intros w Hw. simpl.
  destruct (verifyPingSignature _ _) as [[]|e]; [|done]. simpl. unfold refresh_entry.
  destruct (proxies (w_srv w) !! nodeKey (m_ID msg)) as [p|] eqn:Hp; [|done].
  simpl. split; [done|]. apply objects_same; [|done]. intros k. simpl.
  rewrite lookup_insert_is_Some. destruct (decide (nodeKey (m_ID msg) = k)) as [<-|]; [|naive_solver].
  rewrite Hp. naive_solver.
Qed.

Lemma metricT_alone id m now : runs_as (λ s, (applyServiceMetric id m now s, [])) (metricT id m) now.
Proof.
  intros w Hw. pose proof (applyServiceMetric_touched id m now (w_srv w)) as Ht.
  assert (alone (metricT id m) now w = (on_srv (applyServiceMetric id m now) w, [])) as ->.
  { unfold applyServiceMetric, metricT. case_if; [by destruct w|]. simpl. unfold patch_entry.
    destruct (proxies (w_srv w) !! nodeKey id) as [p|] eqn:Hp;
      unfold on_srv; simpl; rewrite Hp; [done|]. by destruct w. }
  split; [done|]. apply objects_same; [|done]. intros k. by eapply touched_domain.
Qed.

Lemma eventT_alone msg now : runs_as (λ s, (applyServiceEvent msg now s, [])) (eventT msg) now.
Proof.
  unfold applyServiceEvent, eventT. case_if; [apply runs_stop|]. case_if.
  { apply runs_change. intros w Hw. split; [|done]. apply objects_same; [|done]. intros k.
    unfold applyServiceLifecycle. case_if; [done|].
    destruct (proxies (w_srv w) !! nodeKey (m_ID msg)) as [p|] eqn:Hp; [|done]. simpl.
    rewrite lookup_insert_is_Some. destruct (decide (nodeKey (m_ID msg) = k)) as [<-|]; [|naive_solver].
    rewrite Hp. naive_solver. }
  destruct (m_MetricsBatch msg) as [|m0 l].
  { destruct (m_Metrics msg) as [m|]; [|apply runs_stop]. case_if; [apply runs_stop|].
    apply metricT_alone. }
  generalize (m0 :: l). clear m0 l. intros l.
  induction l as [|m l IH]; [apply runs_stop|].
  eapply runs_eq; [|apply (runs_seq _ _ _ _ _ (metricT_alone (m_ID msg) m now) IH)]. done.
Qed.

Lemma connectT_alone cc msg now : runs_as (λ s, (s, handleConnect cc msg s)) (connectT cc msg) now.
Proof.
  unfold handleConnect, connectT. case_if; [apply runs_sends|]. intros w Hw.
  cbn [alone]. destruct (w_obj w !! nodeKey (m_ID msg)) as [o|] eqn:Ho.
  - destruct (proj1 (ok_dom _ Hw (nodeKey (m_ID msg)))) as [p Hp]; [by exists o|].
    pose proof (deref_entry _ _ _ Hw Ho) as Hd. rewrite Hp in Hd |- *.
    cbn [alone]. case_if; cbn [seqT alone]; rewrite Hd; cbn [alone app]; rewrite ?app_nil_r; done.
  - destruct (proxies (w_srv w) !! nodeKey (m_ID msg)) as [p|] eqn:Hp.
    { destruct (proj2 (ok_dom _ Hw (nodeKey (m_ID msg)))) as [o Ho']; [by exists p|]. congruence. }
    done.
Qed.

Lemma frameT_alone cc msg now : runs_as (handle_frame cc msg now) (frameT cc msg) now.
Proof.
  unfold handle_frame, frameT. case_if.
  { eapply runs_eq; [|apply (runs_seq (applyRegister cc (set_msg_ID (cc_nodeID cc) msg) now)
      (λ s, (s, [Send (cc_conn cc) (register_ack s cc)])));
      [apply registerT_alone|by intros w Hw]].
    intros s. simpl. by destruct (applyRegister _ _ _ s). }
  case_if; [apply connectT_alone|]. case_if; [apply pingT_alone|].
  case_if; [apply eventT_alone|apply runs_stop].
Qed.

(** Actions away from the roster. *)
Lemma objects_frame f w :
  proxies (f (w_srv w)) = proxies (w_srv w) → objects_ok w → objects_ok (on_srv f w).
Proof. intros Hf. apply objects_same. by rewrite Hf. Qed.

Lemma helloT_alone conn remote first ack_ok now :
  runs_as (λ s, (handle_hello conn remote first ack_ok now s).1) (helloT conn remote first ack_ok) now.
Proof.
  unfold handle_hello, helloT. destruct first as [f|]; [|apply runs_sends].
  case_if; [apply runs_sends|]. case_if; [apply runs_sends|].
  intros w Hw. destruct ack_ok; simpl; rewrite ?app_nil_r.
  - split; [done|]. by apply objects_frame.
  - split; [done|]. apply objects_frame; [|by apply objects_frame].
    apply compare_and_delete_frame.
Qed.

Lemma closedT_alone cc now :
  runs_as (λ s, (compare_and_delete cc s, [Close (cc_conn cc)])) (closedT cc) now.
Proof.
  intros w Hw. simpl. split; [done|]. apply objects_frame; [|done]. apply compare_and_delete_frame.
Qed.

Lemma datagramT_alone src buf now : runs_as (handle_datagram src buf now) (datagramT src buf) now.
Proof.
  unfold handle_datagram, datagramT. case_if; [apply runs_stop|].
  destruct buf as [|b rest]; [apply runs_stop|]. case_if.
  { case_if; [apply runs_stop|]. apply runs_change. intros w Hw. split; [|done].
    apply objects_same; [|done]. intros k. eapply touched_domain, learnPublicAddr_touched. }
  case_if; [apply runs_stop|]. case_if; [|apply runs_stop]. case_if; [apply runs_stop|].
  intros w Hw. unfold allowT. cbn [alone]. destruct (allow _ _ _) as [l ok].
  destruct ok; cbn; (split; [done|by apply objects_frame]).
Qed.

Lemma healthT_alone ra now : runs_as (λ s, ((health_gate ra now s).1, [])) (healthT ra) now.
Proof.
  unfold health_gate, healthT. case_if; [apply runs_stop|].
  intros w Hw. unfold allowT. cbn [alone]. destruct (allow _ _ _) as [l ok]. cbn.
  split; [done|by apply objects_frame].
Qed.

Lemma tickT_alone now : runs_as (λ s, (cleanup_tick now s, [])) tickT now.
Proof.
  intros w Hw. simpl. split; [done|]. apply objects_frame; [done|]. apply objects_frame; [done|].
  by apply purge_entries_objects.
Qed.

(** a handler whose sections run with no other goroutine in between is the
    handler of the sequential model, replies included; the objects behind the
    roster stay one per entry. *)
Theorem handlers_alone rq now w :
  objects_ok w →
  let '(w', out) := alone (task_of rq) now w in
  (w_srv w', out) = handler_of rq now (w_srv w) ∧ objects_ok w'.
Proof.
  revert w. change (runs_as (handler_of rq now) (task_of rq) now).
  destruct rq; [apply helloT_alone|apply frameT_alone|apply closedT_alone|apply datagramT_alone
               |apply tickT_alone|apply healthT_alone].
Qed.

(** ** Every history *)

Section histories.
Context {L : GoUnicodeLaws U}.

Lemma effect_ok c rq now w w' :
  cfg (w_srv w') = cfg (w_srv w) → effect c rq now w w' →
  srv_ok c (w_srv w) → objects_ok w → srv_ok c (w_srv w') ∧ objects_ok w'.
Proof.
  intros Hcfg He Hs Hw.
  destruct He as [(Hp & Hc & Ho & _ & Hn)|R k HR Ht Ho _ Hn _|cc msg _ _ _ ->|_ ->].
  - split; [by eapply same_server_ok|]. destruct Hw as [A1 A2 A3].
    split; rewrite ?Ho, ?Hn, ?Hp; done.
  - split; [by eapply touched_ok|]. destruct Hw as [A1 A2 A3]. split; rewrite ?Ho, ?Hn; [|done..].
    intros j. by rewrite A1, (touched_domain R k (w_srv w) (w_srv w')).
  - rewrite store_entry_srv. split; [by apply store_register_ok|by apply store_entry_objects].
  - split; [|by apply purge_entries_objects]. destruct Hs as (Hc & Hk & Hf).
    destruct (purge_spec now (w_srv w) Hc) as [Hc' Hp]. split_and!; [done| |by simpl in *; congruence].
    unfold keys_ok. simpl. rewrite Hp. by intros j p [? _]%map_lookup_filter_Some; apply Hk.
Qed.

(** What holds between any two steps. *)
Record between (c : ServerConfig) (h : list fevent) (s : fstate) : Prop := {
  b_srv : srv_ok c (w_srv (f_world s));
  b_objects : objects_ok (f_world s);
  b_gos : Forall (λ g, abides c (go_rq g) (go_task g) ∧ Arrive (go_rq g) ∈ h) (f_gos s)
}.

(** The [i]-th goroutine serves [rq]. *)
Definition serves (s : fstate) (i : nat) (rq : arrival) : Prop :=
  ∃ t out, f_gos s !! i = Some (mkGo rq t out).

(** A step does nothing, starts a handler, or is a lawful section. *)
Lemma fstep_cases c h s i now :
  between c h s →
  let s' := fstep s (Go i now) in
  s' = s ∨ ∃ rq out, serves s i rq ∧ Arrive rq ∈ h ∧
    effect c rq now (f_world s) (f_world s') ∧ rows_kept rq (f_world s) (f_world s') ∧
    cfg (w_srv (f_world s')) = cfg (w_srv (f_world s)) ∧
    ∃ t, abides c rq t ∧ f_gos s' = <[i := mkGo rq t out]> (f_gos s).
Proof.
  intros Hb. cbn [fstep]. destruct (f_gos s !! i) as [[rq [|B g m k] out]|] eqn:Hi; [by left| |by left].
  right. pose proof (proj1 (Forall_lookup _ _) (b_gos _ _ _ Hb) _ _ Hi) as [[Hm Hk] Hin].
  destruct (b_srv _ _ _ Hb) as (_ & _ & Hcfg).
  destruct (l_effect _ _ _ _ Hm now (f_world s) Hcfg) as [He Hr].
  specialize (Hk now (f_world s) Hcfg). pose proof (o_fixed _ _ (l_obeys _ _ _ _ Hm) now (f_world s)) as Hf.
  destruct (m now (f_world s)) as [[b w'] out']. simpl in *.
  exists rq, (out ++ out'). split_and!; [by eexists _, _|done..|by injection Hf|]. by exists (k b).
Qed.

Lemma between_step c h s e : between c h s → between c (h ++ [e]) (fstep s e).
Proof.
  intros Hb. assert (∀ gs, Forall (λ g, abides c (go_rq g) (go_task g) ∧ Arrive (go_rq g) ∈ h) gs →
    Forall (λ g, abides c (go_rq g) (go_task g) ∧ Arrive (go_rq g) ∈ h ++ [e]) gs) as Hmono.
  { intros gs Hgs. eapply Forall_impl; [exact Hgs|]. intros g [? ?]. split; [done|].
    apply elem_of_app. by left. }
  destruct e as [rq|i now].
  - destruct Hb as [B1 B2 B3]. split; [done..|]. simpl. apply Forall_app. split; [by apply Hmono|].
    repeat constructor; [apply task_abides|]. apply elem_of_app. right. by left.
  - destruct (fstep_cases c h s i now Hb) as [-> |(rq & out & Hi & Hin & He & _ & Hcfg & t & Ht & Hgs)].
    { destruct Hb as [B1 B2 B3]. split; [done..|]. by apply Hmono. }
    destruct Hb as [B1 B2 B3]. destruct (effect_ok _ _ _ _ _ Hcfg He B1 B2) as [? ?].
    split; [done..|]. rewrite Hgs. apply Hmono, Forall_insert; [done|]. by split.
Qed.

Lemma frun_snoc c h e : frun c (h ++ [e]) = fstep (frun c h) e.
Proof. unfold frun. by rewrite fold_left_app. Qed.

Lemma frun_between c h : between c h (frun c h).
Proof.
  induction h as [|e h IH] using rev_ind; [|rewrite frun_snoc; by apply between_step].
  split; [|apply objects_init|constructor]. split_and!; [|apply map_Forall_empty|done].
  unfold counters_ok, counters. simpl. by rewrite !count_empty.
Qed.

(** C12: whatever the interleaving of the handlers' critical sections, the
    discovery counters are exactly the numbers of registered stations,
    controls, passengers and public stations between any two of them, and every
    entry is filed under its own normalised id. *)
Theorem counters_interleaved c h :
  let s := w_srv (f_world (frun c h)) in
  Z.of_nat (size (proxies s)) ≤ max_i64 →
  cntStation s = count (in_bucket "station") (proxies s) ∧
  cntControl s = count (in_bucket "control") (proxies s) ∧
  cntPassenger s = count (in_bucket "passenger") (proxies s) ∧
  cntPublic s = count is_public (proxies s) ∧
  map_Forall (λ k p, p_ID p = k ∧ nodeKey k = k) (proxies s).
Proof.
  intros s Hsz. destruct (b_srv _ _ _ (frun_between c h)) as ((H1 & H2 & H3 & H4) & Hk & _).
  fold s in H1, H2, H3, H4, Hk. rewrite H1, H2, H3, H4.
  assert (∀ f, wrap_i64 (count f (proxies s)) = count f (proxies s)) as Hw.
  { intros f. apply wrap_i64_id. pose proof (count_bound f (proxies s)).
    unfold in_i64, min_i64. lia. }
  by rewrite !Hw.
Qed.

(** *** Who is on the roster *)

Definition delta_arrival (e : fevent) : bool :=
  match e with
  | Arrive (RqFrame _ msg) => (m_Type msg =s? TypeRegister) && negb (m_FullSync msg)
  | _ => false
  end.

(** A FullSync register for the entry [k] arrived and was vetted. *)
Definition signed_in (c : ServerConfig) (h : list fevent) (k : string) : Prop :=
  ∃ cc msg, Arrive (RqFrame cc msg) ∈ h ∧ m_Type msg = TypeRegister ∧ m_FullSync msg = true ∧
            nodeKey (cc_nodeID cc) = k ∧ vetted c cc msg.

Lemma signed_in_mono c h e k : signed_in c h k → signed_in c (h ++ [e]) k.
Proof.
  intros (cc & msg & Hin & Hr). exists cc, msg. split; [|done]. apply elem_of_app. by left.
Qed.


(** *** Who changes an entry *)

(** a section changes only what its handler speaks for: a roster entry
    that a single action changes belongs to the node whose connection, or whose
    punch, is being served, or was purged by the ticker; a metric row likewise
    is the one of the node of the connection, or was pruned. *)
Theorem sections_isolated c h i now :
  let s := frun c h in let s' := fstep s (Go i now) in
  (∀ k, proxies (w_srv (f_world s')) !! k ≠ proxies (w_srv (f_world s)) !! k →
     ∃ rq, serves s i rq ∧
       (acts_for rq k ∨ rq = RqTick ∧ proxies (w_srv (f_world s')) !! k = None)) ∧
  (∀ id, metrics (w_srv (f_world s')) !! id ≠ metrics (w_srv (f_world s)) !! id →
     ∃ rq, serves s i rq ∧
       (reports_for rq id ∨ rq = RqTick ∧ metrics (w_srv (f_world s')) !! id = None)).
Proof.
  intros s s'. destruct (fstep_cases c h s i now (frun_between c h)) as [Hs|(rq & out & Hi & _ & He & Hr & _)].
  { unfold s'. rewrite Hs. split; by intros ? []. }
  fold s' in He, Hr. split.
  - intros k Hk. exists rq. split; [done|].
    destruct He as [(Hp & _)|R k' HR Ht _ _ _ Ha|cc msg -> Hty Hv Hw| -> Hw].
    + by rewrite Hp in Hk.
    + left. destruct (decide (k = k')) as [-> |Hne]; [done|]. destruct Hk. by apply (t_other _ _ _ _ Ht).
    + left. rewrite Hw, store_entry_srv in Hk.
      destruct (store_register_frame cc (set_msg_ID (cc_nodeID cc) msg) now (w_srv (f_world s)))
        as (_ & _ & _ & _ & Hp). rewrite Hp in Hk. cbn [m_ID set_msg_ID] in Hk. simpl.
      destruct (decide (nodeKey (cc_nodeID cc) = k)) as [|Hne]; [done|].
      by rewrite lookup_insert_ne in Hk.
    + right. split; [done|]. rewrite Hw in Hk |- *. simpl in *.
      destruct (proxies (purge now _) !! k) as [p|] eqn:Hp; [|done].
      apply purge_subset in Hp as Hp'. by rewrite Hp' in Hk.
  - intros id Hid. exists rq. split; [done|]. destruct (Hr id) as [?|?]; [done|done].
Qed.

(** *** Races *)

Definition share_lock (s : fstate) (i j : nat) : Prop :=
  ∃ g1 g2 l, next_region s i = Some g1 ∧ next_region s j = Some g2 ∧
             lock_of g1 = Some l ∧ lock_of g2 = Some l.

(** The goroutine serves a connect frame and is about to read without a lock. *)
Definition bare_connect (s : fstate) (i : nat) : Prop :=
  next_region s i = Some Unlocked ∧
  ∃ cc msg, serves s i (RqFrame cc msg) ∧ m_Type msg = TypeConnect.

Definition commute (s : fstate) (i j : nat) (ni nj : time) : Prop :=
  fstep (fstep s (Go i ni)) (Go j nj) = fstep (fstep s (Go j nj)) (Go i ni).

Lemma fstep_stuck s i now : next_region s i = None → fstep s (Go i now) = s.
Proof. unfold next_region. cbn [fstep]. destruct (f_gos s !! i) as [[rq [|] out]|]; done. Qed.

Lemma next_region_other s i j now : i ≠ j → next_region (fstep s (Go j now)) i = next_region s i.
Proof.
  intros Hne. unfold next_region. cbn [fstep].
  destruct (f_gos s !! j) as [[rq [|B g m k] out]|] eqn:Hj; [done| |done].
  destruct (m now (f_world s)) as [[b w'] out']. simpl. by rewrite list_lookup_insert_ne.
Qed.

End histories.
End proofs.

(** * pkg/rendezvous: concrete interleavings

    The protected server of [RvWitness] with its handlers interleaved: a signed
    and admitted register, a connect caught between its lookup and its reply by
    a punch (the data race of [handleConnect]), and a metric row stored and
    then dropped by a prune that took its snapshot too early. *)

#[local] Existing Instances ascii_tables toy_sha toy_eth toy_json toy_x509.

(** The handler arrives as the [i]-th goroutine and takes [n] steps. *)
Definition serve (rq : arrival) (i n : nat) : list fevent :=
  Arrive rq :: repeat (Go i demo_now) n.

(** A hello and an admitted FullSync register. *)
Definition signed_history : list fevent :=
  serve (RqHello 0 demo_remote (Some demo_hello) true) 0 3 ++
  serve (RqFrame demo_conn demo_register) 1 4.

Definition signed_world : World := f_world (frun demo_config signed_history).

Example signed_listed :
  proxies (w_srv signed_world) !! nodeKey demo_id = Some demo_proxy ∧
  cntStation (w_srv signed_world) = 1 ∧
  (go_out <$> last (f_gos (frun demo_config signed_history))) =
    Some [Send 0 (register_ack demo_state demo_conn)].
Proof. vm_compute. done. Qed.

Lemma counters_interleaved_witness :
  let s := w_srv signed_world in
  cntStation s = count (in_bucket "station") (proxies s) ∧
  cntControl s = count (in_bucket "control") (proxies s) ∧
  cntPassenger s = count (in_bucket "passenger") (proxies s) ∧
  cntPublic s = count is_public (proxies s) ∧
  map_Forall (λ k p, p_ID p = k ∧ nodeKey k = k) (proxies s).
Proof. apply (counters_interleaved demo_config signed_history). vm_compute. discriminate. Defined.


Lemma handlers_alone_witness :
  let '(w', out) := alone (task_of RqTick) demo_now (init_world demo_config) in
  (w_srv w', out) = handler_of RqTick demo_now (NewServer demo_config) ∧ objects_ok w'.
Proof. apply (handlers_alone RqTick demo_now (init_world demo_config)). apply objects_init. Defined.

(** ** The unlocked reads of handleConnect *)

Definition demo_punch : arrival :=
  RqDatagram (UDPAddr (be_bytes 4 16909060) "1.2.3.4:6000") (String (ch 1) demo_id).

(** The connect has left the lock; a keepalive punch of the requester is about
    to take it and move the address the connect is about to read. *)
Definition race_history : list fevent :=
  signed_history ++ serve (RqFrame demo_conn demo_connect) 2 1 ++ [Arrive demo_punch].


(** The replies of the second goroutine once it has run on. *)
Definition replies_after (s : fstate) : option (list output) :=
  go_out <$> f_gos (fold_left fstep (repeat (Go 2 demo_now) 4) s) !! 2%nat.

(** the requester's roster entry is read with no lock while the section that
    writes it is the next of another goroutine, and what the target is told to
    punch toward depends on which comes first. *)
Theorem connect_race :
  let s := frun demo_config race_history in
  bare_connect s 2 ∧ next_region s 3 = Some MuW ∧ ¬ commute s 2 3 demo_now demo_now.
Proof.
  intros s. split_and!.
  - split; [by vm_compute|]. exists demo_conn, demo_connect. split; [|done].
    eexists _, _. vm_compute. reflexivity.
  - by vm_compute.
  - intros Hc. apply (f_equal replies_after) in Hc. vm_compute in Hc. discriminate.
Qed.

(** ** A fresh row pruned *)

Definition demo_report : RendezvousMsg :=
  mkMsg 1 "service_event" "" "" "" "" [] "" 0 0 0 0 0 "" "" "" "" "" None None 0 false false
        "" "" "" "" "" false "" 0 "" "" 0 "" 0 0 0 0 "" "" None
        (Some (mkMetrics "llm" "idle" 0 0 0 f_zero 0 "" 0)) [].

(** The ticker takes its snapshot; the node registers and reports; the ticker
    goes on to drop the rows of the nodes the snapshot does not have. *)
Definition late_history : list fevent :=
  serve RqTick 0 3 ++ serve (RqFrame demo_conn demo_register) 1 4 ++
  serve (RqFrame demo_conn demo_report) 2 2.

(** the row a live node has just reported is dropped by a prune whose snapshot
    of the roster is older than the node's registration. *)
Theorem fresh_row_pruned :
  let w := f_world (frun demo_config late_history) in
  let w' := f_world (fstep (frun demo_config late_history) (Go 0 demo_now)) in
  (∃ p, proxies (w_srv w') !! nodeKey demo_id = Some p ∧ p_LastSeen p = demo_now) ∧
  is_Some (metrics (w_srv w) !! demo_id) ∧ metrics (w_srv w') !! demo_id = None.
Proof.
  split_and!; [eexists; split; vm_compute; reflexivity|vm_compute; by eexists|by vm_compute].
Qed.
