(* ===== verification/RvListen.v ===== *)
(** * pkg/rendezvous/punch_udp.go, control_tcp.go: the listener loops

    [runPunchUDP] and [runControlTCP] over the outcomes of their reads and
    accepts.  Whatever datagrams arrive, the punch loop moves only addresses of
    listed nodes, sends nothing but echoes of what it was sent, and ends only
    when the server is stopped. *)

From S2P Require Import Prelude GoStrings GoStringsFacts Strconv Hardware GoAny GoTime Auth.
From S2P Require Import Tunnel Signal SessionCache RvTypes RvAuth RvService RvServer RvProofs RvTheorems RvWitness.
From Stdlib Require Import ZArith Lia ZifyBool Bool Ascii String SpecFloat.
From stdpp Require Import base option list gmap strings.

Open Scope go_scope.
Open Scope Z_scope.

(** What [pc.ReadFrom] answers: a datagram, or an error, which is looked at
    only when the context is done. *)
Inductive punch_read :=
  | ReadPacket (src : net_addr) (payload : string) (now : time)
  | ReadFailed (cancelled : bool).

(** What [ln.Accept] answers. *)
Inductive accepted :=
  | AcceptConn (remote : net_addr)
  | AcceptFailed (cancelled : bool).

Section listen.
Context {U : GoUnicode} {H : Sha256} {E : EthCrypto} {J : HardwareJSON} {X : X509}.

(** [buf := make([]byte, 1500)]: a longer datagram is cut. *)
Definition punch_buf : nat := 1500.

(** pkg/rendezvous/punch_udp.go:45-80 [Server.runPunchUDP part]: the read loop;
    the first component is [true] once it has returned. *)
Fixpoint punch_loop (reads : list punch_read) (s : Server) : bool * Server * list output :=
  match reads with
  | [] => (false, s, [])
  | ReadFailed true :: _ => (true, s, [])
  | ReadFailed false :: reads' => punch_loop reads' s
  | ReadPacket src payload now :: reads' =>
      let '(s1, out) := handle_datagram src (take_str punch_buf payload) now s in
      let '(ended, s2, outs) := punch_loop reads' s1 in (ended, s2, out ++ outs)
  end.

(** pkg/rendezvous/punch_udp.go:31-81 [Server.runPunchUDP]: [listen] is the error
    of [net.ListenPacket]; the result is the returned error, [None] while the
    loop runs. *)
Definition runPunchUDP (listen : option string) (reads : list punch_read) (s : Server)
  : option (result string unit) * Server * list output :=
  match listen with
  | Some e => (Some (Err e), s, [])
  | None => let '(ended, s', outs) := punch_loop reads s in
            (if ended then Some (Ok tt) else None, s', outs)
  end.

(** pkg/rendezvous/control_tcp.go:58-76 [Server.runControlTCP part]: the accept
    loop: the connections handed to [handleControlConn]. *)
Fixpoint accept_loop (accepts : list accepted) : bool * list net_addr :=
  match accepts with
  | [] => (false, [])
  | AcceptFailed true :: _ => (true, [])
  | AcceptFailed false :: accepts' => accept_loop accepts'
  | AcceptConn remote :: accepts' => let '(ended, l) := accept_loop accepts' in (ended, remote :: l)
  end.

(** pkg/rendezvous/control_tcp.go:48-77 [Server.runControlTCP] *)
Definition runControlTCP (listen : option string) (accepts : list accepted)
  : option (result string unit) * list net_addr :=
  match listen with
  | Some e => (Some (Err e), [])
  | None => let '(ended, l) := accept_loop accepts in (if ended then Some (Ok tt) else None, l)
  end.

(** pkg/rendezvous/control_tcp.go:30-34 [controlConn.sendFrame]: [w] is the
    connection; the mutex makes the whole write one action. *)
Definition sendFrame {F : FrameJSON} (msg : RendezvousMsg) (w : writer) : option frame_err * writer :=
  WriteFrame msg w.

(** ** What a datagram can do *)

(** The entry's addresses moved to [src], a UDP source with the IP of the
    node's control connection where that is known. *)
Definition moved_to (src : net_addr) (p p' : ProxyInfo) : Prop :=
  ∃ ip str, src = UDPAddr ip str ∧
    (p_ControlIP p ≠ ""%string → ip_equal ip (p_ControlIP p) = true) ∧
    p' = set_UDPAddr src (if p_AddrManual p then p_Addr p else str) p.

(** The entries moved, if at all, to the source of one of the packets. *)
Inductive moved (srcs : list net_addr) (p : ProxyInfo) : ProxyInfo → Prop :=
  | moved_none : moved srcs p p
  | moved_more p1 p2 src : moved srcs p p1 → src ∈ srcs → moved_to src p1 p2 → moved srcs p p2.

Definition only_addresses (srcs : list net_addr) (s s' : Server) : Prop :=
  ∃ ps l, s' = set_limiter l (set_proxies (λ _, ps) s) ∧
    (∀ k, option_Forall2 (moved srcs) (proxies s !! k) (ps !! k)).

Lemma moved_mono srcs srcs' p p' : srcs ⊆ srcs' → moved srcs p p' → moved srcs' p p'.
Proof. intros Hs. induction 1 as [|p1 p2 src _ IH Hin Hm]; [constructor|]. econstructor; eauto. Qed.

Lemma moved_trans srcs p p1 p2 : moved srcs p p1 → moved srcs p1 p2 → moved srcs p p2.
Proof.
  intros Ha Hb. induction Hb as [|q1 q2 src _ IH Hin Hm]; [done|]. econstructor; [by apply IH|done..].
Qed.

Lemma only_addresses_refl srcs s : only_addresses srcs s s.
Proof.
  exists (proxies s), (healthLimiter s). split; [by destruct s|]. intros k.
  destruct (proxies s !! k); constructor. constructor.
Qed.

Lemma only_addresses_trans srcs s s1 s2 :
  only_addresses srcs s s1 → only_addresses srcs s1 s2 → only_addresses srcs s s2.
Proof.
  intros (ps & l & -> & Hps) (ps' & l' & -> & Hps'). exists ps', l'. split; [done|]. intros k.
  specialize (Hps k). specialize (Hps' k). simpl in Hps'.
  inversion Hps; inversion Hps'; simplify_eq; try congruence; constructor.
  eapply moved_trans; [done|]. congruence.
Qed.

Lemma learn_moves id src s : only_addresses [src] s (learnPublicAddr id src s).
Proof.
  unfold learnPublicAddr. destruct (proxies s !! nodeKey id) as [p|] eqn:Hp; [|apply only_addresses_refl].
  destruct src as [ip str|ip str|str]; try apply only_addresses_refl.
  destruct (_ && _) eqn:Eb; [apply only_addresses_refl|].
  eexists (<[nodeKey id := _]> (proxies s)), (healthLimiter s). split; [reflexivity|]. intros k. destruct (decide (k = nodeKey id)) as [-> | Hne].
  - rewrite Hp, lookup_insert_eq. constructor. econstructor; [constructor|by left|]. exists ip, str. split; [done|].
    split; [|by destruct (p_AddrManual p)]. intros Hne. apply andb_false_iff in Eb as [Eb|Eb]; [|by apply negb_false_iff in Eb].
    destruct (p_ControlIP p); [done|]. simpl in Eb. lia.
  - rewrite lookup_insert_ne by done. destruct (proxies s !! k); constructor. constructor.
Qed.

Lemma datagram_moves src buf now s :
  only_addresses [src] s (handle_datagram src buf now s).1 ∧
  ((handle_datagram src buf now s).2 = [] ∨ (handle_datagram src buf now s).2 = [Echo src buf]).
Proof.
  split.
  - pose proof (handle_datagram_cases src buf now s) as Hc. cbv zeta in Hc.
    destruct Hc as [(id & _ & ->)|[l ->]]; [apply learn_moves|].
    exists (proxies s), l. split; [by destruct s|]. intros k. destruct (proxies s !! k); constructor. constructor.
  - unfold handle_datagram. case_if; [by left|]. destruct buf as [|b rest]; [by left|].
    repeat case_if; try (by left). destruct (allow _ _ _) as [l ok]. destruct ok; [by right|by left].
Qed.

(** ** The loop *)

Definition sources (reads : list punch_read) : list net_addr :=
  omap (λ r, match r with ReadPacket src _ _ => Some src | ReadFailed _ => None end) reads.

(** The punch port is harmless: whatever is sent to it, by whomever - the loop
    returns only when the server is stopped; nothing of the server changes but
    its rate limiter and the addresses of listed nodes, each moved to the source
    of some datagram, one with the IP of the node's control connection; no
    node is listed, unlisted or kept alive; and all it sends are the first 1500
    bytes of a datagram back to where it came from, at most one per datagram. *)
Theorem punch_listener_harmless (reads : list punch_read) (s : Server) :
  let '(ended, s', outs) := punch_loop reads s in
  (ended = true ↔ ReadFailed true ∈ reads) ∧
  only_addresses (sources reads) s s' ∧
  (length outs ≤ length (sources reads))%nat ∧
  Forall (λ o, ∃ src payload now, ReadPacket src payload now ∈ reads ∧ o = Echo src (take_str punch_buf payload)) outs.
Proof.
  revert s. induction reads as [|[src payload now|[]] reads IH]; intros s; cbn [punch_loop].
  - split_and!; [by split; [|intros ?%elem_of_nil]|apply only_addresses_refl|done|constructor].
  - destruct (datagram_moves src (take_str punch_buf payload) now s) as [Hm Ho].
    destruct (handle_datagram src (take_str punch_buf payload) now s) as [s1 out]. specialize (IH s1).
    destruct (punch_loop reads s1) as [[ended s2] outs]. destruct IH as (He & Ha & Hl & Hf). cbn [fst snd] in *.
    change (sources (ReadPacket src payload now :: reads)) with (src :: sources reads).
    split_and!.
    + rewrite He, elem_of_cons. split; [by right|by intros [|]].
    + apply only_addresses_trans with s1; [destruct Hm as (ps & l & -> & Hps)|destruct Ha as (ps & l & -> & Hps)];
        exists ps, l; (split; [done|]); intros k; specialize (Hps k); destruct Hps; constructor;
        (eapply moved_mono; [|done]); set_solver.
    + rewrite length_app. simpl. destruct Ho as [-> | ->]; simpl; lia.
    + apply Forall_app. split; [|eapply Forall_impl; [apply Hf|]; intros o (sr & pl & n & Hin & ->); exists sr, pl, n; split; [by right|done]].
      destruct Ho as [-> | ->]; constructor; [|constructor]. exists src, payload, now. split; [by left|done].
  - split_and!; [split; [intros _; by left|done]|apply only_addresses_refl|simpl; lia|constructor].
  - specialize (IH s). destruct (punch_loop reads s) as [[ended s2] outs]. destruct IH as (He & Ha & Hl & Hf).
    split_and!; [|done|done|].
    + rewrite He, elem_of_cons. split; [by right|by intros [|]].
    + eapply Forall_impl; [apply Hf|]. intros o (sr & pl & n & Hin & ->). exists sr, pl, n. split; [by right|done].
Qed.

(** The accept loop hands over every accepted connection, in order, up to the
    stop; a failed accept costs none. *)
Theorem accept_loop_exact (accepts : list accepted) :
  let '(ended, conns) := accept_loop accepts in
  (ended = true ↔ AcceptFailed true ∈ accepts) ∧
  ∃ before rest, accepts = before ++ rest ∧ AcceptFailed true ∉ before ∧
    (rest = [] ∨ ∃ l, rest = AcceptFailed true :: l) ∧
    conns = omap (λ a, match a with AcceptConn r => Some r | AcceptFailed _ => None end) before.
Proof.
  induction accepts as [|[remote|[]] accepts IH]; cbn [accept_loop].
  - split; [by split; [|intros ?%elem_of_nil]|]. exists [], []. split_and!; [done|by intros ?%elem_of_nil|by left|done].
  - destruct (accept_loop accepts) as [ended l]. destruct IH as (He & before & rest & -> & Hb & Hr & ->).
    split; [rewrite He, elem_of_cons; split; [by right|by intros [|]]|].
    exists (AcceptConn remote :: before), rest. split_and!; [done|by intros [|]%elem_of_cons|done|done].
  - split; [split; [intros _; by left|done]|]. exists [], (AcceptFailed true :: accepts).
    split_and!; [done|by intros ?%elem_of_nil|right; by eexists|done].
  - destruct (accept_loop accepts) as [ended l]. destruct IH as (He & before & rest & -> & Hb & Hr & ->).
    split; [rewrite He, elem_of_cons; split; [by right|by intros [|]]|].
    exists (AcceptFailed false :: before), rest. split_and!; [done|by intros [|]%elem_of_cons|done|done].
Qed.
End listen.
