(* ===== verification/RvWire.v ===== *)
(** * pkg/rendezvous: the life of a control connection, from its bytes

    [handleControlConn] reads frames off the stream until it fails; what a peer
    can do is what its bytes decode to.  The theorem: whatever bytes a peer
    sends, only the node it said hello as is affected.  Then the peer is the
    client of [ClientConc], with any number of goroutines. *)

From S2P Require Import Prelude GoStrings GoStringsFacts Strconv Hardware GoAny GoTime Auth Tunnel Signal.
From S2P Require Import NodeClient ClientConc ClientConcLogic ClientConcCalls ClientConcTheorems.
From S2P Require Import ClientConcAlone SessionCache RvTypes RvAuth RvService RvServer RvProofs RvTheorems.
From S2P Require Import RvNet RvWitness.
From Stdlib Require Import ZArith Lia ZifyBool Bool Ascii String SpecFloat.
From stdpp Require Import base option list gmap strings.

Open Scope go_scope.
Open Scope Z_scope.

Section wire.
Context {U : GoUnicode} {H : Sha256} {E : EthCrypto} {J : HardwareJSON} {X : X509} {F : FrameJSON}.

(** pkg/rendezvous/control_tcp.go:79-189 [Server.handleControlConn]: the events
    of one connection whose peer sends [s] and then nothing more.  [clock i] is
    the time the [i]-th frame is handled.  A connection that is not established
    ignores the events after its first. *)
Definition conn_events (conn : nat) (remote : net_addr) (ack_ok : bool) (clock : nat → time)
  (s : string) : list event :=
  match ReadFrame s with
  | (Err _, _) => [EvAccept remote None ack_ok (clock 0%nat)]
  | (Ok first, rest) =>
      EvAccept remote (Some first) ack_ok (clock 0%nat) ::
      imap (λ i m, EvFrame conn m (clock (S i))) (recv_all rest).1 ++ [EvClosed conn]
  end.

(** The node id the stream says hello as. *)
Definition claimed (s : string) : option string :=
  match ReadFrame s with
  | (Ok f, _) => if (m_Type f =s? TypeHello) && negb (m_ID f =s? "") then Some (m_ID f) else None
  | _ => None
  end.

(** The state after a list of events from [y]. *)
Definition run_from (y : Sys) (evs : list event) : Sys :=
  fold_left (λ y ev, (sys_step ev y).1) evs y.

(** [y'] differs from [y] only for the node [id] (for no node when [None]). *)
Definition only_node (id : option string) (y y' : Sys) : Prop :=
  (∀ k, nodeKey <$> id ≠ Some k →
     proxies (srv y') !! k = proxies (srv y) !! k ∧
     controlConns (srv y') !! k = controlConns (srv y) !! k) ∧
  (∀ i, id ≠ Some i → metrics (srv y') !! i = metrics (srv y) !! i).

#[export] Instance only_node_preorder id : PreOrder (only_node id).
Proof.
  split; [by intros y; split|].
  intros y1 y2 y3 [H1 M1] [H2 M2]. split.
  - intros k Hk. destruct (H1 k Hk) as [<- <-]. by apply H2.
  - intros i Hi. by rewrite M2, M1.
Qed.

(** What the connection, if established, said hello as. *)
Definition conn_of (conn : nat) (id : option string) (y : Sys) : Prop :=
  ∀ cc, live y !! conn = Some cc → id = Some (cc_nodeID cc).

Lemma accept_only_node remote first ack_ok now y :
  let id := match first with
            | Some f => if (m_Type f =s? TypeHello) && negb (m_ID f =s? "") then Some (m_ID f) else None
            | None => None
            end in
  live y !! next_conn y = None →
  let y' := (sys_step (EvAccept remote first ack_ok now) y).1 in
  only_node id y y' ∧ conn_of (next_conn y) id y'.
Proof.
  cbv zeta. intros Hfresh. cbn [sys_step].
  pose proof (handle_hello_frame (next_conn y) remote first ack_ok now (srv y)) as (Hp & _ & Hm & _).
  unfold handle_hello in *. destruct first as [f|]; [|by split; [|intros cc; cbn; rewrite Hfresh]].
  destruct (m_Type f =s? TypeHello); [|by split; [|intros cc; cbn; rewrite Hfresh]].
  destruct (m_ID f =s? ""); [by split; [|intros cc; cbn; rewrite Hfresh]|]. cbn [negb andb].
  destruct ack_ok; cbn in *; (split; [|intros cc; cbn [live srv fst]]).
  - split; [|done]. intros k Hk. split; [done|]. cbn [srv hello_swap fst].
    assert (nodeKey (m_ID f) ≠ k) by (intros <-; by apply Hk). by apply lookup_insert_ne.
  - rewrite lookup_insert_eq. by intros [= <-].
  - split; [|intros i _; cbn [srv]; exact (f_equal (.!! i) Hm)]. intros k Hk. cbn [srv].
    split; [exact (f_equal (.!! k) Hp)|].
    assert (nodeKey (m_ID f) ≠ k) by (intros <-; by apply Hk).
    unfold compare_and_delete. cbn. rewrite lookup_insert_eq. cbn. rewrite Nat.eqb_refl. cbn.
    by rewrite lookup_delete_ne, lookup_insert_ne.
  - by rewrite Hfresh.
Qed.

Lemma frame_only_node conn msg now id y :
  conn_of conn id y →
  let y' := (sys_step (EvFrame conn msg now) y).1 in only_node id y y' ∧ conn_of conn id y'.
Proof.
  intros Hc. cbn [sys_step]. destruct (live y !! conn) as [cc|] eqn:El; [|done].
  pose proof (handle_frame_cases cc msg now (srv y)) as Hf.
  pose proof (handle_frame_effect cc msg now (srv y)) as [Hm _].
  destruct (handle_frame cc msg now (srv y)) as [s' out]. cbn [fst] in *.
  split; [|done]. rewrite (Hc cc El). split; [|by intros i Hi; apply Hm; intros ->].
  intros k Hk. assert (k ≠ nodeKey (cc_nodeID cc)) by (intros ->; by apply Hk). cbn [srv].
  destruct Hf as [Ht|(_ & -> & _)]; [by rewrite (t_other _ _ _ _ Ht), (t_conns _ _ _ _ Ht)|].
  destruct (store_register_frame cc (set_msg_ID (cc_nodeID cc) msg) now (srv y)) as (-> & _ & _ & _ & ->).
  by rewrite lookup_insert_ne.
Qed.

Lemma close_only_node conn id y :
  conn_of conn id y →
  let y' := (sys_step (EvClosed conn) y).1 in only_node id y y' ∧ live y' = delete conn (live y).
Proof.
  intros Hc. cbn [sys_step]. destruct (live y !! conn) as [cc|] eqn:El; cbn [fst srv live].
  - split; [|done]. rewrite (Hc cc El). destruct (compare_and_delete_frame cc (srv y)) as (Hp & _ & Hm & _).
    split; [|by intros i _; cbn [srv]; rewrite Hm]. cbn [srv]. intros k Hk. rewrite Hp. split; [done|].
    unfold compare_and_delete. destruct (_ !! nodeKey _); [|done]. case_if; [|done]. cbn.
    rewrite lookup_delete_ne; [done|]. intros <-. by apply Hk.
  - split; [done|]. by rewrite delete_id.
Qed.

Lemma frames_only_node conn id (evs : list event) y :
  Forall (λ ev, ∃ m now, ev = EvFrame conn m now) evs → conn_of conn id y →
  only_node id y (run_from y evs) ∧ conn_of conn id (run_from y evs).
Proof.
  intros Hev. revert y. induction Hev as [|ev evs (m & now & ->) _ IH]; intros y Hc; [done|].
  destruct (frame_only_node conn m now id y Hc) as [H1 Hc1].
  destruct (IH _ Hc1) as [H2 Hc2]. split; [|done]. by etrans.
Qed.

(** Whatever bytes a peer sends on a connection, from accept to close, the
    registry entry, the control connection and the metrics of every node but
    the one its first frame says hello as are what they were before; a stream
    that does not start with a valid hello frame changes none at all. *)
Theorem wire_isolation (y : Sys) remote ack_ok clock (s : string) :
  live y !! next_conn y = None →
  only_node (claimed s) y (run_from y (conn_events (next_conn y) remote ack_ok clock s)).
Proof.
  intros Hfresh. unfold conn_events, claimed, run_from.
  destruct (ReadFrame s) as [[f|e] rest]; [|by apply (accept_only_node remote None)].
  destruct (accept_only_node remote (Some f) ack_ok (clock 0%nat) y Hfresh) as [H1 Hc].
  cbn [fold_left]. rewrite fold_left_app. cbv zeta in *.
  etrans; [exact H1|].
  edestruct (frames_only_node (next_conn y)) as [H2 Hc2]; [|exact Hc|].
  { apply Forall_lookup. intros i ev. erewrite list_lookup_imap.
    destruct (_ !! i) as [m|]; [|done]. intros [= <-]. by exists m, (clock (S i)). }
  etrans; [exact H2|]. by apply close_only_node.
Qed.
End wire.

(** ** A concrete stream: another node says hello and pings as the demo node. *)

#[local] Existing Instances ascii_tables toy_sha toy_eth toy_json toy_x509 toy_frames.

Definition demo_wire : string :=
  frame_bytes "hello:P:other" ++s frame_bytes ("register:" ++s demo_id) ++s frame_bytes "?".

Lemma wire_isolation_witness :
  let y := run demo_config demo_history in
  let evs := conn_events (next_conn y) demo_remote true (λ i, demo_now + Z.of_nat i) demo_wire in
  claimed demo_wire = Some "P:other"%string ∧ length evs = 3%nat ∧
  only_node (claimed demo_wire) y (run_from y evs).
Proof.
  split; [vm_compute; reflexivity|]. split; [vm_compute; reflexivity|].
  apply (wire_isolation (run demo_config demo_history)). vm_compute. reflexivity.
Defined.

(** * A client with many goroutines, and the server that reads it

    The composition of [ClientConcTheorems] with [RvWire]: what the rendezvous
    server does with the bytes of the sockets of one shared client. *)

Section composition.
Context {U : GoUnicode} {H : Sha256} {E : EthCrypto} {HJ : HardwareJSON} {X : X509}.
Context {J : FrameJSON} {L : FrameJSONLaws J}.

Lemma ReadFrame_frame data m t :
  frame_sized data → unmarshal_msg data = Some m → ReadFrame (frame_bytes data ++s t) = (Ok m, t).
Proof. intros Hsz Hu. apply ReadFrame_Ok. by exists data. Qed.

Lemma stream_empty id out : stream id [] out → out = ""%string.
Proof. remember [] as ms eqn:E0. destruct 1 as [|ms out m data]; [done|]. by destruct ms. Qed.

(** What follows the first message of a stream. *)
Lemma stream_first id m ms out :
  stream id (m :: ms) out → ∃ data rest, marshal_msg m = Some data ∧ frame_sized data ∧
    out = (frame_bytes data ++s rest)%string ∧ stream id ms rest.
Proof.
  remember (m :: ms) as l eqn:El. intros Hs. revert m ms El.
  induction Hs as [|l out m' data Hs IH Hm Hsz Hof]; intros m ms El; [done|].
  destruct l as [|m0 l].
  - injection El as <- <-. rewrite (stream_empty _ _ Hs).
    exists data, ""%string. rewrite sapp_nil_r. split_and!; [done|done|done|constructor].
  - injection El as <- <-. destruct (IH m0 l eq_refl) as (d & rest & Hd & Hds & -> & Hr).
    exists d, (rest ++s frame_bytes data)%string. rewrite sapp_assoc. split_and!; [done..|]. by constructor.
Qed.

Lemma torn_claims_nothing tail : tail = ""%string ∨ torn tail → claimed tail = None.
Proof.
  intros Ht. pose proof (tail_recv tail Ht) as Hr. unfold claimed. unfold recv_all in Hr. cbn [recv] in Hr.
  destruct (ReadFrame tail) as [[m|e] t]; [|done]. by destruct (recv (String.length tail) t).
Qed.

Lemma only_none id y y' : only_node None y y' → only_node id y y'.
Proof. intros [H1 H2]. split; [intros k _; by apply H1|intros i _; by apply H2]. Qed.

End composition.

(** ** A client whose send was torn by a second [Connect], and the server *)

#[local] Existing Instances ascii_tables toy_sha toy_eth toy_json toy_x509.

(** A format that keeps type, role and id: the role is preceded by its length in
    unary. *)
Definition role_frames : FrameJSON := {|
  marshal_msg m := Some (m_Type m ++s ":" ++s smap (λ _, "1"%char) (m_Role m) ++s ":" ++s m_Role m ++s m_ID m);
  unmarshal_msg d :=
    let '(t, rest, ok) := cut_byte ":" d in
    let '(ones, rest, ok2) := cut_byte ":" rest in
    if ok && ok2 then
      let role := take_str (String.length ones) rest in
      let id := drop_str (String.length ones) rest in
      Some (if t =s? TypeHello then hello_frame id role else demo_msg t id)
    else None
|}.

Lemma role_frames_laws : FrameJSONLaws role_frames.
Proof. constructor. intros m d [= <-]. by destruct (m_Type m). Qed.

Lemma ones_spec s : String.length (smap (λ _, "1"%char) s) = String.length s ∧
  contains_byte ":" (smap (λ _, "1"%char) s) = false.
Proof. induction s as [|c s [Hl Hc]]; cbn; [done|]. by rewrite Hl, Hc. Qed.

Lemma hello_faithful id role : wire_faithful (H:=role_frames) (hello_frame id role).
Proof.
  intros d [= <-]. cbn [unmarshal_msg role_frames m_Type m_Role m_ID hello_frame]. destruct (ones_spec role) as [Hl Hc].
  set (rest := smap _ role ++s _). change (String "h" _) with (TypeHello ++s String ":" rest)%go.
  rewrite cut_byte_app by done. unfold rest. rewrite cut_byte_app by done. cbn [andb].
  rewrite Hl, take_str_app, drop_str_app. by rewrite String.eqb_refl.
Qed.

