(* ===== verification/RvRest.v ===== *)
(** * pkg/rendezvous: the REST endpoints

    [handleNodes], [handleMetrics], [handleHealth] and the status aggregation
    of heartbeat.go as functions of the server state, the decoded query and the
    clock.  Go ranges over maps in an unspecified order; [map_to_list] stands
    for it and the directory is sorted afterwards.  [strconv.ParseFloat] and
    the JSON text that the ETag hashes are class operations. *)

From S2P Require Import Prelude GoStrings GoStringsFacts GoSort Strconv Hardware GoAny GoTime Auth.
From S2P Require Import Tunnel Signal SessionCache RvTypes RvAuth RvService RvServer.
From Stdlib Require Import ZArith Lia ZifyBool Bool Ascii String SpecFloat Sorted.
From stdpp Require Import base option list gmap strings.

Open Scope go_scope.
Open Scope Z_scope.


(** pkg/rendezvous/server.go:547-562 [node] *)
Record node := mkNode {
  n_ID : string; n_Role : string; n_Addr : string; n_StartedAt : string; n_ConnectedAt : string;
  n_Version : string; n_BinHash : string; n_OwnerAddress : string; n_Emblem : string;
  n_AuthMode : string; n_Hardware : option HardwareSpec; n_Services : list ServiceInfo;
  n_TPMVerified : bool; n_EKCertIssuer : string
}.

(** pkg/rendezvous/server.go:735-742 [etagNode] *)
Record etagNode := mkEtag {
  et_ID : string; et_Role : string; et_Addr : string; et_AuthMode : string;
  et_Hardware : option HardwareSpec; et_Services : list ServiceInfo
}.
Class EtagJSON := { marshal_etag : list etagNode → string }.

(** [q.Get] of the decoded query, the If-None-Match header and the method. *)
Record request := mkReq { r_method : string; r_query : string → string; r_if_none_match : string }.

(** What the handler writes; [RPanic] is a run-time panic (slice out of range). *)
Inductive nodes_reply :=
  | RNoContent
  | RNotModified
  | RAll (nodes : list node)
  | RPage (nodes : list node) (total page limit : Z)
  | RPanic.

Section rest.
Context {U : GoUnicode} {H : Sha256} {PF : ParseFloat} {EJ : EtagJSON}.

(** pkg/rendezvous/server.go:487-496 [Server.handleNodes part]: [node_id=a,b,c]: the normalised ids, blanks dropped; [None] when absent. *)
Definition node_id_set (raw : string) : option (gset string) :=
  if raw =s? "" then None
  else Some (list_to_set
         (omap (λ id, let id := trim_space id in if id =s? "" then None else Some (nodeKey id))
               (split_byte "," raw))).

Definition query_float (v : string) : float64 :=
  if v =s? "" then f_zero else default f_zero (parse_float v).

(** [if v, err := strconv.Atoi(s); err == nil && v > 0 { x = v }] *)
Definition atoi_pos (s : string) (dflt : Z) : Z :=
  let '(v, err) := atoi s in
  match err with None => if 0 <? v then v else dflt | Some _ => dflt end.

(** The static part of a service row. *)
Definition static_service (v : ServiceInfo) : ServiceInfo :=
  mkSvc (svc_Name v) (svc_Type v) "" (svc_Launcher v) (svc_Version v) (svc_BinHash v)
    (svc_Model v) (svc_ModelHash v) (svc_ModelOriginURL v) (svc_ServerReady v) (svc_ServerLoading v)
    (svc_ChildPID v) (svc_ChildName v) 0 0 None 0 0 None (svc_MaxQueue v) (svc_Concurrency v)
    (svc_QueueDisabled v) (svc_Inspect v) (svc_InspectLabels v) (svc_InspectOrder v).

(** pkg/rendezvous/server.go:569-627 [Server.handleNodes part]: The [emit] closure: a directory node from an entry. *)
Definition emit (s : Server) (p : ProxyInfo) : node :=
  mkNode (p_ID p) (p_Role p) (p_Addr p)
    (if is_zero (p_RegisteredAt p) then "" else rfc3339 (p_RegisteredAt p))
    (match controlConns s !! p_ID p with
     | Some cc => if is_zero (cc_connectedAt cc) then "" else rfc3339 (cc_connectedAt cc)
     | None => "" end)
    (p_Version p) (p_BinHash p) (p_OwnerAddress p) (p_Emblem p) (p_AuthMode p)
    (StableHardware (p_Hardware p)) (map static_service (range (p_Services p)))
    (p_TPMVerified p) (p_EKCertIssuer p).

(** pkg/rendezvous/server.go:632-634 [Server.handleNodes part] *)
Definition isPassenger (role : string) : bool :=
  equal_fold role "consumer" || equal_fold role "passenger".

(** pkg/rendezvous/server.go:520-534 [Server.handleNodes part]: The node ids whose metric row matches the status (and service) filter. *)
Definition status_match_nodes (s : Server) (statusFilter svcFilter : string) : option (gset string) :=
  if statusFilter =s? "" then None
  else Some (map_fold (λ _ m acc,
         if negb (heartbeatStatus (nm_Status m) =s? statusFilter) then acc
         else if negb (svcFilter =s? "") && negb (to_lower (nm_ServiceName m) =s? svcFilter) then acc
         else {[nm_NodeID m]} ∪ acc) ∅ (metrics s)).

(** pkg/rendezvous/server.go:651-695 [Server.handleNodes part]: The chain of [continue]s of the directory scan: is [p] listed? *)
Definition node_listed (s : Server) (q : string → string) (now : time) (p : ProxyInfo) : bool :=
  let search := to_lower (q "q") in
  let onlineOnly := q "online" =s? "true" in
  let svcFilter := to_lower (q "service") in
  let statusFilter := to_lower (q "status") in
  let roleFilter := to_lower (q "role") in
  let modelFilter := q "model" in
  let gpuFilter := to_lower (q "gpu") in
  let minVRAM := query_float (q "min_vram") in
  let online := time_sub now (p_LastSeen p) <? 90 * second in
  negb (isPassenger (p_Role p)) &&
  (negb onlineOnly || online) &&
  ((roleFilter =s? "") || (to_lower (p_Role p) =s? roleFilter)) &&
  (match status_match_nodes s statusFilter svcFilter with
   | None => true | Some ids => bool_decide (p_ID p ∈ ids) end) &&
  ((search =s? "") || contains_str (to_lower (p_ID p)) search
     || contains_str (to_lower (p_OwnerAddress p)) search) &&
  ((svcFilter =s? "") && (modelFilter =s? "") ||
   existsb (λ v, ((svcFilter =s? "") || (to_lower (svc_Name v) =s? svcFilter)) &&
                 ((modelFilter =s? "") || (svc_Model v =s? modelFilter))) (range (p_Services p))) &&
  ((gpuFilter =s? "") || hasGPUName (p_Hardware p) gpuFilter) &&
  (negb (SFltb f_zero minVRAM) || negb (SFltb (maxGPUVRAM (p_Hardware p)) minVRAM)).

(** pkg/rendezvous/server.go:636-700 [Server.handleNodes part]: The rows before sorting: the targeted lookup, or the filtered scan. *)
Definition select_nodes (s : Server) (q : string → string) (now : time) : list node :=
  match node_id_set (q "node_id") with
  | Some ids =>
      omap (λ id, match proxies s !! id with
                  | Some p => if isPassenger (p_Role p) then None else Some (emit s p)
                  | None => None
                  end) (elements ids)
  | None =>
      omap (λ kp, if node_listed s q now kp.2 then Some (emit s kp.2) else None)
        (map_to_list (proxies s))
  end.

(** pkg/rendezvous/server.go:715-723 [Server.handleNodes part]: [start := (page-1)*limit] and the clamps, on 64-bit ints; [None] when the
    slice expression [all[start:end]] panics. *)
Definition page_bounds (page limit total : Z) : option (Z * Z) :=
  let start := wrap_i64 (wrap_i64 (page - 1) * limit) in
  let start := if total <? start then total else start in
  let end_ := wrap_i64 (start + limit) in
  let end_ := if total <? end_ then total else end_ in
  if (0 <=? start) && (start <=? end_) && (end_ <=? total) then Some (start, end_) else None.

Definition slice {A} (l : list A) (a b : Z) : list A :=
  take (Z.to_nat (b - a)) (drop (Z.to_nat a) l).

(** pkg/rendezvous/server.go:735-753 [Server.handleNodes part] *)
Definition etag_of (all : list node) : string :=
  let etagNodes := map (λ n, mkEtag (n_ID n) (n_Role n) (n_Addr n) (n_AuthMode n)
                               (n_Hardware n) (n_Services n)) all in
  str1 (ch 34) ++s hex_encode (take_str 8 (sha256 (marshal_etag etagNodes))) ++s str1 (ch 34).

(** pkg/rendezvous/server.go:702-733 [Server.handleNodes part]: the body: the
    whole sorted list, or a page of it. *)
Definition nodes_body (q : string → string) (all : list node) : nodes_reply :=
  let paginate := negb (q "page" =s? "") || negb (q "limit" =s? "") in
  let page := atoi_pos (q "page") 1 in
  let limit := atoi_pos (q "limit") 50 in
  let total := Z.of_nat (length all) in
  if negb paginate then RAll all
  else match page_bounds page limit total with
       | Some (a, b) => RPage (slice all a b) total page limit
       | None => RPanic
       end.

(** pkg/rendezvous/server.go:754-762 [Server.handleNodes part]: the conditional
    reply. *)
Definition nodes_conditional (if_none_match : string) (all : list node) (body : nodes_reply) : nodes_reply :=
  match body with
  | RPanic => RPanic
  | _ => if if_none_match =s? etag_of all then RNotModified else body
  end.

(** pkg/rendezvous/server.go:472-762 [Server.handleNodes] *)
Definition handleNodes (s : Server) (r : request) (now : time) : nodes_reply :=
  if r_method r =s? "OPTIONS" then RNoContent
  else
    let all := sort_by n_ID (select_nodes s (r_query r) now) in
    nodes_conditional (r_if_none_match r) all (nodes_body (r_query r) all).

(** ** /v1/metrics *)

(** pkg/rendezvous/server.go:853-866 [row] *)
Record row := mkRow {
  row_NodeID : string; row_Service : string; row_Status : string; row_QueueDepth : Z;
  row_RunningCount : Z; row_TotalJobsDone : Z; row_AvgJobSec : float64; row_LastJobMs : Z;
  row_RunningJobID : string; row_UpdatedAt : Z; row_ConnStatus : string; row_Online : bool
}.

(** pkg/rendezvous/server.go:824-848 [Server.handleMetrics part]: The static cross-reference filter on one entry. *)
Definition metrics_allowed (q : string → string) (fService : string) (p : ProxyInfo) : bool :=
  let fModel := q "model" in
  let fGPU := to_lower (q "gpu") in
  let fMinVRAM := query_float (q "min_vram") in
  ((p_Role p =s? "") || (p_Role p =s? "provider") || (p_Role p =s? "station")) &&
  ((fGPU =s? "") || hasGPUName (p_Hardware p) fGPU) &&
  (negb (SFltb f_zero fMinVRAM) || negb (SFltb (maxGPUVRAM (p_Hardware p)) fMinVRAM)) &&
  ((fModel =s? "") ||
   existsb (λ v, (svc_Model v =s? fModel) && ((fService =s? "") || (svc_Name v =s? fService)))
     (range (p_Services p))).

(** [!lastSeen.IsZero() && now.Sub(lastSeen) < 60*time.Second] *)
Definition online60 (now lastSeen : time) : bool :=
  negb (is_zero lastSeen) && (time_sub now lastSeen <? 60 * second).

(** pkg/rendezvous/server.go:933-956 [Server.handleMetrics part]: the row of a
    node without service metrics. *)
Definition bare_row (s : Server) (now : time) (nid : string) (p : ProxyInfo) : row :=
  mkRow nid "" "" 0 0 0 f_zero 0 "" (unix_milli (p_LastSeen p))
    (computeConnStatus s (p_Role p) (p_LastSeen p) now) (online60 now (p_LastSeen p)).

(** pkg/rendezvous/server.go:779-959 [Server.handleMetrics]: [None] is the 204
    reply to OPTIONS; the rows come in the maps' order. *)
Definition handleMetrics (s : Server) (r : request) (now : time) : option (list row) :=
  if r_method r =s? "OPTIONS" then None
  else
    let q := r_query r in
    let ids := node_id_set (q "node_id") in
    let fService := if negb (q "src" =s? "") && (q "service" =s? "") then q "src" else q "service" in
    let fStatus := to_lower (q "status") in
    let needStaticFilter := negb (q "model" =s? "") || negb (to_lower (q "gpu") =s? "")
                            || SFltb f_zero (query_float (q "min_vram")) in
    let allowed := filter (λ kp, metrics_allowed q fService kp.2 = true) (proxies s) in
    let is_allowed id := bool_decide (is_Some (allowed !! id)) in
    let live := match ids with
                | Some ids => filter (λ kp, kp.1 ∈ ids) (proxies s)
                | None => proxies s
                end in
    let seen id := match live !! id with Some p => p_LastSeen p | None => time_zero end in
    let role id := match live !! id with Some p => p_Role p | None => ""%string end in
    let keep m :=
      match ids with
      | Some ids => bool_decide (nm_NodeID m ∈ ids)
      | None => (negb needStaticFilter || is_allowed (nm_NodeID m)) &&
                ((fService =s? "") || (nm_ServiceName m =s? fService)) &&
                ((fStatus =s? "") || (heartbeatStatus (nm_Status m) =s? fStatus))
      end in
    let kept := filter (λ m, keep m = true) (map snd (map_to_list (metrics s))) in
    let mrow m :=
      mkRow (nm_NodeID m) (nm_ServiceName m) (heartbeatStatus (nm_Status m)) (nm_QueueDepth m)
        (nm_RunningCount m) (nm_TotalJobsDone m) (nm_AvgJobSec m) (nm_LastJobMs m)
        (nm_RunningJobID m) (unix_milli (seen (nm_NodeID m)))
        (computeConnStatus s (role (nm_NodeID m)) (seen (nm_NodeID m)) now)
        (online60 now (seen (nm_NodeID m))) in
    let seenNodes : gset string := list_to_set (map nm_NodeID kept) in
    let synth (kp : string * ProxyInfo) :=
      let '(nid, p) := kp in
      if bool_decide (nid ∈ seenNodes) then None
      else if (match ids with
               | Some _ => false
               | None => needStaticFilter && negb (is_allowed nid) end) then None
      else Some (bare_row s now nid p) in
    Some (map mrow kept ++
          (if (fService =s? "") && (fStatus =s? "") then omap synth (map_to_list live) else [])).

(** ** /health and the status aggregation *)

Inductive health_reply :=
  | HTooMany
  | HNotModified
  | HOk (uptime_s station control passenger public total : Z).

Definition health_etag (st co pa pu : Z) : string :=
  str1 (ch 34) ++s "c-" ++s format_int st ++s "-" ++s format_int co ++s "-" ++s format_int pa
  ++s "-" ++s format_int pu ++s str1 (ch 34).

(** pkg/rendezvous/server.go:970-1015 [Server.handleHealth] *)
Definition handleHealth (s : Server) (remoteAddr ifNoneMatch : string) (now : time)
  : Server * health_reply :=
  let '(s, ok) := health_gate remoteAddr now s in
  if negb ok then (s, HTooMany)
  else
    let etag := health_etag (cntStation s) (cntControl s) (cntPassenger s) (cntPublic s) in
    if ifNoneMatch =s? etag then (s, HNotModified)
    else
      let uptime := if is_zero (startedAt s) then 0
                    else Z.quot (time_sub now (startedAt s)) second in
      (s, HOk uptime (cntStation s) (cntControl s) (cntPassenger s) (cntPublic s)
            (wrap_i64 (cntStation s + cntControl s))).

(** pkg/rendezvous/heartbeat.go:21-68 [Server.aggregateNodeStatus] *)
Definition aggregateNodeStatus (s : Server) (nodeID : string) (now : time) : string :=
  let lastSeen := match proxies s !! nodeKey nodeID with
                  | Some p => p_LastSeen p | None => time_zero end in
  if negb (is_zero lastSeen) && (5 * second <? time_sub now lastSeen) then ""
  else
    let prefix := nodeID ++s "/" in
    let rows := filter (λ km, (nm_NodeID km.2 =s? nodeID) || has_prefix km.1 prefix = true)
                  (map_to_list (metrics s)) in
    let any st := existsb (λ km, heartbeatStatus (nm_Status km.2) =s? st) rows in
    match rows with
    | [] => ""
    | _ => if any "busy" then "busy" else if any "loading" then "loading"
           else if any "idle" then "idle" else "standby"
    end.

(** pkg/rendezvous/heartbeat.go:89-93 [Server.GetMetric] *)
Definition GetMetric (s : Server) (nodeID serviceName : string) : option NodeMetric :=
  metrics s !! metricKey nodeID serviceName.
End rest.

(** ** Lemmas *)

Lemma page_bounds_exact page limit total :
  1 ≤ page → 1 ≤ limit → 0 ≤ total → page * limit ≤ max_i64 → total + limit ≤ max_i64 →
  page_bounds page limit total =
  Some (Z.min ((page - 1) * limit) total, Z.min (page * limit) total).
Proof.
  intros Hp Hl Ht Hpl Htl. unfold page_bounds.
  assert (0 ≤ (page - 1) * limit ≤ page * limit) as Hb by nia.
  rewrite (wrap_i64_id (page - 1)) by (unfold in_i64, max_i64, min_i64 in *; nia).
  rewrite (wrap_i64_id ((page - 1) * limit)) by (unfold in_i64, max_i64, min_i64 in *; nia).
  set (a := (page - 1) * limit) in *. assert (page * limit = a + limit) as He by (unfold a; nia).
  rewrite He in *. clearbody a.
  assert (∀ x, 0 ≤ x → x ≤ total → wrap_i64 (x + limit) = x + limit) as Hw
    by (intros x ??; apply wrap_i64_id; unfold in_i64, max_i64, min_i64 in *; lia).
  assert (wrap_i64 (a + limit) = a + limit) as Hw2
    by (apply wrap_i64_id; unfold in_i64, max_i64, min_i64 in *; lia).
  destruct (Z.ltb_spec total a).
  - rewrite Hw by lia. destruct (Z.ltb_spec total (total + limit)); [|lia].
    replace (_ && _) with true by lia. f_equal. f_equal; lia.
  - rewrite Hw2. destruct (Z.ltb_spec total (a + limit));
      replace (_ && _) with true by lia; f_equal; f_equal; lia.
Qed.

Lemma take_plus {A} (l : list A) n m : take (n + m) l = take n l ++ take m (drop n l).
Proof.
  revert l. induction n as [|n IH]; intros [|x l]; simpl; [done..|by rewrite take_nil|].
  by rewrite IH.
Qed.

Lemma slice_app {A} (l : list A) a b c :
  0 ≤ a ≤ b → b ≤ c → slice l a b ++ slice l b c = slice l a c.
Proof.
  intros Hab Hbc. unfold slice.
  replace (Z.to_nat (c - a)) with (Z.to_nat (b - a) + Z.to_nat (c - b))%nat by lia.
  rewrite take_plus, drop_drop. do 3 f_equal. lia.
Qed.

Lemma slice_all {A} (l : list A) : slice l 0 (Z.of_nat (length l)) = l.
Proof. unfold slice. simpl. apply take_ge. lia. Qed.

Lemma slice_nil {A} (l : list A) a : slice l a a = [].
Proof. unfold slice. by rewrite Z.sub_diag. Qed.
