(* ===== verification/RvRestProofs.v ===== *)
(** * pkg/rendezvous: what the REST endpoints answer

    The directory lists exactly the matching entries in id order and never a
    passenger, pages partition it, an overflowing page number panics, every
    registered node shows up in the metrics, and the health ETag identifies the
    counts. *)

From S2P Require Import Prelude GoStrings GoStringsFacts GoSort Strconv Hardware GoAny GoTime Auth.
From S2P Require Import Tunnel Signal SessionCache RvTypes RvAuth RvService RvServer RvProofs RvTheorems.
From S2P Require Import RvRest RvWitness.
From Stdlib Require Import ZArith Lia ZifyBool Bool Ascii String SpecFloat Sorted.
From stdpp Require Import base option list gmap strings.

Open Scope go_scope.
Open Scope Z_scope.

Section rest.
Context {U : GoUnicode} {H : Sha256} {E : EthCrypto} {J : HardwareJSON} {X : X509}
  {PF : ParseFloat} {EJ : EtagJSON}.

Lemma select_nodes_scan s q now n :
  node_id_set (q "node_id") = None →
  n ∈ select_nodes s q now ↔
  ∃ k p, proxies s !! k = Some p ∧ node_listed s q now p = true ∧ n = emit s p.
Proof.
  intros Hq. unfold select_nodes. rewrite Hq, list_elem_of_omap. split.
  - intros ([k p] & Hin & Hn). simpl in Hn. case_if; [|done]. injection Hn as <-.
    apply elem_of_map_to_list in Hin. by exists k, p.
  - intros (k & p & Hp & Hl & ->). exists (k, p). simpl. rewrite Hl.
    split; [by apply elem_of_map_to_list|done].
Qed.

(** Distinct keys give distinct ids once entries are filed under their own id. *)
Lemma select_nodes_NoDup s q now :
  keys_ok s → NoDup (map n_ID (select_nodes s q now)).
Proof.
  intros Hk. unfold select_nodes. destruct (node_id_set (q "node_id")) as [ids|].
  - pose proof (NoDup_elements ids) as Hd.
    assert (∀ l, NoDup l → NoDup (map n_ID (omap (λ id,
       match proxies s !! id with
       | Some p => if isPassenger (p_Role p) then None else Some (emit s p)
       | None => None end) l)) ∧
       ∀ x, x ∈ map n_ID (omap (λ id,
       match proxies s !! id with
       | Some p => if isPassenger (p_Role p) then None else Some (emit s p)
       | None => None end) l) → x ∈ l) as Hg.
    { clear Hd. induction l as [|id l IH]; [by intros _; split; [constructor|]|].
      intros [Hid Hl]%NoDup_cons. destruct (IH Hl) as [IH1 IH2]. simpl.
      destruct (proxies s !! id) as [p|] eqn:Hp; [|split; [done|by right; apply IH2]].
      case_if; [split; [done|by right; apply IH2]|]. simpl.
      destruct (Hk _ _ Hp) as [-> _]. split.
      - constructor; [|done]. intros Hin. by apply Hid, IH2.
      - intros x [-> | Hx]%elem_of_cons; [by left|right; by apply IH2]. }
    by apply Hg.
  - assert (∀ l, NoDup l.*1 → (∀ k p, (k, p) ∈ l → proxies s !! k = Some p) →
       NoDup (map n_ID (omap (λ kp, if node_listed s q now kp.2 then Some (emit s kp.2) else None) l)) ∧
       ∀ x, x ∈ map n_ID (omap (λ kp, if node_listed s q now kp.2 then Some (emit s kp.2) else None) l)
         → x ∈ l.*1) as Hg.
    { induction l as [|[k p] l IH]; [by intros _ _; split; [constructor|]|].
      intros [Hid Hl]%NoDup_cons Hin. destruct IH as [IH1 IH2]; [done|intros; apply Hin; by right|].
      simpl. case_if; [|split; [done|by right; apply IH2]]. simpl.
      destruct (Hk k p) as [-> _]; [apply Hin; by left|]. split.
      - constructor; [|done]. intros Hx. by apply Hid, IH2.
      - intros x [-> | Hx]%elem_of_cons; [by left|right; by apply IH2]. }
    apply Hg; [apply NoDup_fst_map_to_list|by intros ???%elem_of_map_to_list].
Qed.


(** The nodes a reply shows. *)
Definition reply_nodes (r : nodes_reply) : list node :=
  match r with RAll l => l | RPage l _ _ _ => l | _ => [] end.

Lemma elem_of_slice {A} (l : list A) a b x : x ∈ slice l a b → x ∈ l.
Proof.
  unfold slice. intros Hx. eapply list_elem_of_In in Hx. apply list_elem_of_In.
  rewrite <-(take_drop (Z.to_nat a) l). apply in_or_app. right.
  rewrite <-(take_drop (Z.to_nat (b - a)) (drop (Z.to_nat a) l)). apply in_or_app. by left.
Qed.

(** passengers are hidden: no /v1/nodes reply, filtered, targeted by id or
    paginated, ever shows a node whose role is passenger or consumer in any
    capitalisation. *)
Theorem passengers_hidden s r now :
  Forall (λ n, isPassenger (n_Role n) = false) (reply_nodes (handleNodes s r now)).
Proof.
  assert (∀ q n, n ∈ select_nodes s q now → isPassenger (n_Role n) = false) as Hsel.
  { intros q n. unfold select_nodes. destruct (node_id_set _) as [ids|]; rewrite list_elem_of_omap.
    - intros (id & _ & Hn). destruct (proxies s !! id) as [p|]; [|done].
      destruct (isPassenger (p_Role p)) eqn:Ep; [done|]. by injection Hn as <-.
    - intros ([k p] & _ & Hn). cbn [snd] in Hn. destruct (node_listed s q now p) eqn:El; [|done].
      injection Hn as <-. simpl. unfold node_listed in El.
      do 7 apply andb_true_iff in El as [El _]. by apply negb_true_iff in El. }
  apply Forall_forall. intros n. unfold handleNodes, nodes_conditional, nodes_body. case_if; [by intros ?%elem_of_nil|].
  destruct (negb _ || negb _); cbn [negb].
  - destruct (page_bounds _ _ _) as [[a b]|]; [|by intros ?%elem_of_nil].
    case_if; [by intros ?%elem_of_nil|]. simpl. intros Hn%elem_of_slice.
    rewrite sort_by_perm in Hn. by eapply Hsel.
  - case_if; [by intros ?%elem_of_nil|]. simpl. intros Hn. rewrite sort_by_perm in Hn. by eapply Hsel.
Qed.

(** pages partition the directory: for every page size and every number of
    pages that covers the list (without overflowing an int64), concatenating
    the pages gives the list back, so no node is shown twice or dropped. *)
Theorem pages_partition (l : list node) limit N :
  1 ≤ limit → Z.of_nat N * limit ≤ max_i64 → Z.of_nat (length l) + limit ≤ max_i64 →
  Z.of_nat (length l) ≤ Z.of_nat N * limit →
  concat (map (λ p, match page_bounds (Z.of_nat p) limit (Z.of_nat (length l)) with
                    | Some (a, b) => slice l a b
                    | None => [] end) (seq 1 N)) = l.
Proof.
  intros Hlim HN Htot Hcov. set (total := Z.of_nat (length l)) in *.
  assert (∀ n, (n ≤ N)%nat →
    concat (map (λ p, match page_bounds (Z.of_nat p) limit total with
                      | Some (a, b) => slice l a b | None => [] end) (seq 1 n))
    = slice l 0 (Z.min (Z.of_nat n * limit) total)) as Hind.
  { induction n as [|n IH]; intros Hn.
    - simpl. rewrite Z.min_l by lia. by rewrite slice_nil.
    - rewrite seq_S, map_app, concat_app, IH by lia. simpl. rewrite app_nil_r.
      rewrite page_bounds_exact by nia.
      replace (Z.of_nat (S n) - 1) with (Z.of_nat n) by lia.
      apply slice_app; nia. }
  rewrite Hind by lia. rewrite Z.min_r by lia. apply slice_all.
Qed.

(** a large page number crashes the handler: with page=4611686018427387905
    and limit=2 the start offset overflows to a negative index and the slice
    expression panics, whatever is registered. *)
Theorem nodes_page_overflow_panics s r now :
  r_method r = "GET"%string → r_query r "page" = "4611686018427387905"%string →
  r_query r "limit" = "2"%string → handleNodes s r now = RPanic.
Proof.
  intros Hm Hp Hl. unfold handleNodes, nodes_conditional, nodes_body. rewrite Hm, Hp, Hl.
  change (atoi_pos "4611686018427387905" 1) with 4611686018427387905.
  change (atoi_pos "2" 50) with 2. cbn [String.eqb negb orb].
  set (total := Z.of_nat _). assert (0 ≤ total) by lia.
  unfold page_bounds.
  change (wrap_i64 (wrap_i64 (4611686018427387905 - 1) * 2)) with (-9223372036854775808).
  destruct (Z.ltb_spec total (-9223372036854775808)); [lia|]. done.
Qed.

(** What the ETag of a directory node is computed from. *)
Definition etag_fields (n : node) : etagNode :=
  mkEtag (n_ID n) (n_Role n) (n_Addr n) (n_AuthMode n) (n_Hardware n) (n_Services n).

Lemma etag_of_fields l l' : map etag_fields l = map etag_fields l' → etag_of l = etag_of l'.
Proof. unfold etag_of. intros He. do 6 f_equal. exact He. Qed.

(** The ETag leaves out fields the directory shows: a client that holds the
    answer of an earlier state gets 304 from any later one in which only
    versions, binary hashes, owners, emblems, attestation or connection times of
    the listed nodes have changed, and keeps showing the old ones. *)
Theorem nodes_etag_blind s s' r now now' :
  let old := sort_by n_ID (select_nodes s (r_query r) now) in
  let new := sort_by n_ID (select_nodes s' (r_query r) now') in
  r_method r = "GET"%string → r_query r "page" = ""%string → r_query r "limit" = ""%string →
  r_if_none_match r = etag_of old → map etag_fields old = map etag_fields new →
  handleNodes s' r now' = RNotModified.
Proof.
  intros old new Hm Hp Hl He Hf. unfold handleNodes, nodes_conditional, nodes_body. rewrite Hm, Hp, Hl.
  cbn [String.eqb Ascii.eqb Bool.eqb negb orb]. fold new. rewrite He, (etag_of_fields _ _ Hf).
  by rewrite String.eqb_refl.
Qed.

(** no registered node is missing from an unfiltered /v1/metrics: every
    roster key appears as the node id of some row. *)
Theorem metrics_cover_roster s r now k p :
  r_method r = "GET"%string → (∀ key, r_query r key = ""%string) →
  proxies s !! k = Some p →
  ∃ rows row, handleMetrics s r now = Some rows ∧ row ∈ rows ∧ row_NodeID row = k.
Proof.
  intros Hm Hq Hk. unfold handleMetrics. rewrite Hm. cbn [String.eqb].
  rewrite !Hq. cbn [node_id_set String.eqb negb andb orb].
  change (to_lower "") with ""%string. cbn [String.eqb].
  match goal with |- context [Some (map ?f ?l1 ++ omap ?g ?l2)] =>
    set (mrow := f); set (kept := l1); set (synth := g); set (lv := l2) end.
  eexists (map mrow kept ++ omap synth lv).
  destruct (decide (k ∈ (list_to_set (map nm_NodeID kept) : gset string))) as [Hin|Hout].
  - apply elem_of_list_to_set, list_elem_of_In, in_map_iff in Hin as (m & Hm' & Hin).
    exists (mrow m). split_and!; [reflexivity| |exact Hm'].
    apply elem_of_app. left. by apply list_elem_of_In, in_map.
  - eexists. split_and!; [reflexivity| |].
    + apply elem_of_app. right. apply list_elem_of_omap. exists (k, p).
      split; [by apply elem_of_map_to_list|]. unfold synth. cbn beta iota.
      rewrite bool_decide_eq_false_2 by exact Hout. cbn [negb orb andb]. reflexivity.
    + reflexivity.
Qed.

(** ** The health ETag *)

Lemma format_int_no_minus n : 0 ≤ n → contains_byte "-" (format_int n) = false.
Proof.
  intros Hn. unfold format_int. destruct (n <? 0) eqn:En; [lia|].
  pose proof (format_uint_digits n) as Hd. revert Hd. generalize (format_uint n). intros w.
  induction w as [|c w IH]; [done|]. cbn [sforall contains_byte].
  intros [Hc Hw]%andb_true_iff. rewrite IH by done.
  destruct (Ascii.eqb_spec "-" c) as [<-|]; [by vm_compute in Hc|done].
Qed.

Lemma health_etag_inj a b c d a' b' c' d' :
  Forall (λ n, 0 ≤ n ≤ max_i64) [a; b; c; d; a'; b'; c'; d'] →
  health_etag a b c d = health_etag a' b' c' d' → (a, b, c, d) = (a', b', c', d').
Proof.
  intros HF He. rewrite !Forall_cons in HF.
  destruct HF as (Ha & Hb & Hc & Hd & Ha' & Hb' & Hc' & Hd' & _).
  unfold health_etag in He. apply sapp_inj_l, sapp_inj_l in He.
  apply (f_equal (split_byte "-")) in He. cbn [String.append] in He.
  rewrite !split_byte_app in He by (apply format_int_no_minus; lia).
  rewrite !split_byte_plain in He
    by (rewrite contains_byte_app, format_int_no_minus by lia; reflexivity).
  injection He as H1 H2 H3 H4.
  assert (∀ x y, 0 ≤ x ≤ max_i64 → 0 ≤ y ≤ max_i64 → format_int x = format_int y → x = y) as Hf
    by (intros x y ??; apply format_int_inj; unfold in_i64, min_i64, max_i64 in *; lia).
  apply (f_equal (λ x, trim_suffix x (str1 (ch 34)))) in H4. rewrite !trim_suffix_app in H4.
  by rewrite (Hf a a'), (Hf b b'), (Hf c c'), (Hf d d').
Qed.

(** a 304 from /health is honest: two reachable states of servers have the
    same ETag only if they report the same station, control, passenger and
    public counts (rosters of less than 2^63 entries). *)
Theorem health_etag_identifies {L : GoUnicodeLaws U} c evs c' evs' :
  let s := srv (run c evs) in let s' := srv (run c' evs') in
  Z.of_nat (size (proxies s)) ≤ max_i64 → Z.of_nat (size (proxies s')) ≤ max_i64 →
  health_etag (cntStation s) (cntControl s) (cntPassenger s) (cntPublic s) =
  health_etag (cntStation s') (cntControl s') (cntPassenger s') (cntPublic s') →
  (cntStation s, cntControl s, cntPassenger s, cntPublic s) =
  (cntStation s', cntControl s', cntPassenger s', cntPublic s').
Proof.
  intros s s' Hs Hs'. apply health_etag_inj.
  assert (∀ c evs, Z.of_nat (size (proxies (srv (run c evs)))) ≤ max_i64 →
    Forall (λ n, 0 ≤ n ≤ max_i64) [cntStation (srv (run c evs)); cntControl (srv (run c evs));
      cntPassenger (srv (run c evs)); cntPublic (srv (run c evs))]) as Hb.
  { intros c0 evs0 Hz. destruct (run_ok c0 evs0) as [(H1 & H2 & H3 & H4) _].
    rewrite H1, H2, H3, H4.
    assert (∀ f, 0 ≤ wrap_i64 (count f (proxies (srv (run c0 evs0)))) ≤ max_i64) as Hw.
    { intros f. pose proof (count_bound f (proxies (srv (run c0 evs0)))).
      rewrite wrap_i64_id by (unfold in_i64, min_i64; lia). lia. }
    rewrite !Forall_cons. split_and!; try apply Hw. apply Forall_nil_2. }
  pose proof (Hb c evs Hs) as F1. pose proof (Hb c' evs' Hs') as F2.
  apply (Forall_app_2 _ _ _ F1 F2).
Qed.
End rest.

(** ** Witnesses *)

#[local] Existing Instances ascii_tables toy_sha toy_eth toy_json toy_x509.
#[local] Instance toy_parse_float : ParseFloat := {| parse_float := λ _, None |}.
#[local] Instance toy_etag : EtagJSON := {| marshal_etag := λ l, join_str "," (map et_ID l) |}.

Definition demo_request (l : list (string * string)) : request :=
  mkReq "GET" (λ k, default ""%string (snd <$> find (λ kv, kv.1 =s? k) l)) "".


Definition demo_node (id : string) : node :=
  mkNode id "station" "" "" "" "" "" "" "" "" None [] false "".

Lemma pages_partition_witness :
  let l := [demo_node "a"; demo_node "b"; demo_node "c"] in
  concat (map (λ p, match page_bounds (Z.of_nat p) 2 (Z.of_nat (length l)) with
                    | Some (a, b) => slice l a b
                    | None => [] end) (seq 1 2)) = l.
Proof.
  apply (pages_partition [demo_node "a"; demo_node "b"; demo_node "c"] 2 2);
    vm_compute; discriminate.
Defined.

Lemma nodes_page_overflow_panics_witness :
  handleNodes demo_state (demo_request [("page", "4611686018427387905"); ("limit", "2")]%string)
    demo_now = RPanic.
Proof.
  apply (nodes_page_overflow_panics demo_state
    (demo_request [("page", "4611686018427387905"); ("limit", "2")]%string) demo_now); reflexivity.
Defined.

Lemma metrics_cover_roster_witness :
  ∃ rows row, handleMetrics demo_state (demo_request []) demo_now = Some rows ∧ row ∈ rows ∧
    row_NodeID row = nodeKey demo_id.
Proof.
  apply (metrics_cover_roster demo_state (demo_request []) demo_now (nodeKey demo_id) demo_proxy);
    [reflexivity | reflexivity | vm_compute; reflexivity].
Defined.

Lemma health_etag_identifies_witness :
  (cntStation demo_state, cntControl demo_state, cntPassenger demo_state, cntPublic demo_state) =
  (cntStation demo_state, cntControl demo_state, cntPassenger demo_state, cntPublic demo_state).
Proof.
  apply (health_etag_identifies demo_config demo_history demo_config demo_history);
    [vm_compute; discriminate | vm_compute; discriminate | reflexivity].
Defined.

(** The demonstration state with the node's version changed. *)
Definition upgraded_state : Server :=
  set_proxies (alter (λ p, mkProxy (p_ID p) (p_Role p) (p_Addr p) (p_LocalAddr p) (p_CertHash p) "9.9.9"
    (p_BinHash p) (p_OwnerAddress p) (p_Emblem p) (p_UDPAddr p) (p_LastSeen p) (p_RegisteredAt p)
    (p_AddrManual p) (p_ControlIP p) (p_Status p) (p_AuthMode p) (p_Hardware p) (p_Services p)
    (p_TPMVerified p) (p_EKFingerprint p) (p_EKCertIssuer p) (p_EKPublicKey p) (p_TPMNonce p))
    (nodeKey demo_id)) demo_state.

Lemma nodes_etag_blind_witness :
  let etag := etag_of (sort_by n_ID (select_nodes demo_state (λ _, "") demo_now)) in
  map n_Version (select_nodes upgraded_state (λ _, "") demo_now) = ["9.9.9"%string] ∧
  handleNodes upgraded_state (mkReq "GET" (λ _, "") etag) demo_now = RNotModified.
Proof.
  intros etag. split; [vm_refl|].
  apply (nodes_etag_blind demo_state upgraded_state (mkReq "GET" (λ _, ""%string) etag) demo_now demo_now);
    [reflexivity..|vm_refl].
Defined.
