(* ===== verification/MarketStore.v ===== *)
(** * pkg/market/sqlstore.go: the asset store

    The database is the three tables of [migrate] in the SQLite dialect: rows in
    insertion order, AUTOINCREMENT ids, the UNIQUE constraints.  Every SQL
    statement is one step that may fail: a schedule says, statement by
    statement, which ones the driver fails and with what message; a failed
    statement changes nothing.  The order of a SELECT without ORDER BY is the
    class operation [row_order].  The monad [M] threads the database and the
    schedule; [catch] is Go's inspection of an error value. *)

From S2P Require Import Prelude GoStrings GoStringsFacts Strconv Hardware GoTime.
From Stdlib Require Import ZArith Lia ZifyBool Bool Ascii String SpecFloat.
From stdpp Require Import base option list gmap strings.

Open Scope go_scope.
Open Scope Z_scope.

(** ** Rows *)

(** pkg/market/sqlstore.go:118-124 [sqlStore.migrate part] *)
Record AuthorRow := mkAuthor { au_id : Z; au_eoa : string; au_handle : option string }.

(** pkg/market/sqlstore.go:125-144 [sqlStore.migrate part] *)
Record AssetRow := mkAssetRow {
  as_id : Z; as_type : string; as_author_id : Z; as_name : string; as_latest : string;
  as_summary : string; as_license : string; as_min_isann : string; as_tags : string;
  as_visibility : string; as_price : string; as_token : option string; as_downloads : Z;
  as_rating : option float64; as_created : string; as_updated : string
}.

(** pkg/market/sqlstore.go:147-155 [sqlStore.migrate part] *)
Record VersionRow := mkVersionRow {
  v_id : Z; v_asset_id : Z; v_version : string; v_sha256 : string; v_body : string;
  v_created : string
}.

Record DB := mkDB {
  authors : list AuthorRow; assets : list AssetRow; versions : list VersionRow;
  next_author : Z; next_asset : Z; next_version : Z
}.

Definition empty_db : DB := mkDB [] [] [] 1 1 1.

(** ** The Go-side records *)

(** pkg/market/models.go:26-45 [Asset] *)
Record Asset := mkAsset {
  a_Type : string; a_Author : string; a_Eoa : string; a_Handle : string; a_Name : string;
  a_Version : string; a_Ref : string; a_Summary : string; a_License : string; a_MinIsann : string;
  a_Tags : list string; a_Visibility : string; a_Price : string; a_Token : option string;
  a_Downloads : Z; a_Rating : option float64; a_CreatedAt : time; a_UpdatedAt : time
}.

(** pkg/market/models.go:48-52 [Version] *)
Record Version := mkVersion { ver_Version : string; ver_SHA256 : string; ver_CreatedAt : time }.

(** pkg/market/models.go:56-64 [AssetMeta] *)
Record AssetMeta := mkMeta {
  am_Name : string; am_Author : string; am_Version : string; am_Summary : string;
  am_License : string; am_MinIsann : string; am_Tags : list string
}.

(** pkg/market/models.go:67-73 [PushInput] *)
Record PushInput := mkPush {
  pi_Type : string; pi_Author : string; pi_Meta : AssetMeta; pi_RecipeBody : string;
  pi_SHA256 : string
}.

(** pkg/market/models.go:76-84 [ListFilter] *)
Record ListFilter := mkFilter {
  lf_Type : string; lf_Author : string; lf_Query : string; lf_Paid : option bool;
  lf_Sort : string; lf_Page : Z; lf_Limit : Z
}.

(** ** Errors and the statement monad *)

Inductive store_err :=
  | ErrNotFound
  | ErrVersionExists
  | ErrNoRows
  | EDriver (msg : string).

(** What the program relies on outside: the order of unordered SELECTs, the
    [time.Parse] of a layout, and the text the database's now() yields. *)
Class SqlEnv := {
  row_order : ∀ {A : Type}, list A → list A;
  time_parse : string → string → option time
}.
Class SqlEnvLaws (S : SqlEnv) : Prop := {
  row_order_perm : ∀ A (l : list A), row_order l ≡ₚ l
}.

(** The schedule: per statement, the driver's error message if it fails. *)
Definition schedule := list (option string).
Definition M (A : Type) := DB → schedule → result store_err A * DB * schedule.

Definition ret {A} (a : A) : M A := λ db fs, (Ok a, db, fs).
Definition raise {A} (e : store_err) : M A := λ db fs, (Err e, db, fs).
Definition bind {A B} (m : M A) (k : A → M B) : M B := λ db fs,
  match m db fs with
  | (Ok a, db', fs') => k a db' fs'
  | (Err e, db', fs') => (Err e, db', fs')
  end.
(** [x, err := m] with the error inspected by what follows. *)
Definition catch {A} (m : M A) : M (result store_err A) := λ db fs,
  let '(r, db', fs') := m db fs in (Ok r, db', fs').
Notation "'let*' x := m 'in' k" := (bind m (λ x, k))
  (at level 10, x pattern, m at level 100, k at level 200,
   format "'let*'  x  :=  m  'in' '//' k") : go_scope.

(** One SQL statement. *)
Definition stmt {A} (f : DB → result store_err A * DB) : M A := λ db fs,
  match fs with
  | Some msg :: fs' => (Err (EDriver msg), db, fs')
  | _ => let '(r, db') := f db in (r, db', tail fs)
  end.
Definition query {A} (f : DB → A) : M A := stmt (λ db, (Ok (f db), db)).
Definition query_row {A} (f : DB → option A) : M A :=
  stmt (λ db, (match f db with Some a => Ok a | None => Err ErrNoRows end, db)).
Definition exec (f : DB → DB) : M unit := stmt (λ db, (Ok tt, f db)).

(** ** Table operations *)

Definition set_assets (f : list AssetRow → list AssetRow) (db : DB) : DB :=
  mkDB (authors db) (f (assets db)) (versions db) (next_author db) (next_asset db) (next_version db).

Definition author_of (db : DB) (id : Z) : option AuthorRow := find (λ r, au_id r =? id) (authors db).

(** The row of [assets a JOIN authors au] with the given natural key. *)
Definition asset_joined (db : DB) (typ eoa name : string) : option (AssetRow * AuthorRow) :=
  head (omap (λ a, match author_of db (as_author_id a) with
                   | Some au => if (as_type a =s? typ) && (au_eoa au =s? eoa) && (as_name a =s? name)
                                then Some (a, au) else None
                   | None => None
                   end) (assets db)).

Definition asset_by_key (db : DB) (typ : string) (author : Z) (name : string) : option AssetRow :=
  find (λ a, (as_type a =s? typ) && (as_author_id a =? author) && (as_name a =s? name)) (assets db).

Definition unique_msg : string := "UNIQUE constraint failed".

(** pkg/market/sqlstore.go:180-181 [sqlStore.authorID part]: [INSERT INTO authors(eoa, created_at)]: the new id, unless eoa is taken. *)
Definition insert_author (eoa : string) (db : DB) : result store_err Z * DB :=
  if existsb (λ r, au_eoa r =s? eoa) (authors db) then (Err (EDriver unique_msg), db)
  else (Ok (next_author db),
        mkDB (authors db ++ [mkAuthor (next_author db) eoa None]) (assets db) (versions db)
          (next_author db + 1) (next_asset db) (next_version db)).

(** pkg/market/sqlstore.go:428-432 [sqlStore.PutAsset part] *)
Definition insert_asset (typ : string) (author : Z) (m : AssetMeta) (now : string) (db : DB)
  : result store_err Z * DB :=
  if existsb (λ a, (as_type a =s? typ) && (as_author_id a =? author) && (as_name a =s? am_Name m))
       (assets db) then (Err (EDriver unique_msg), db)
  else (Ok (next_asset db),
        mkDB (authors db)
          (assets db ++ [mkAssetRow (next_asset db) typ author (am_Name m) (am_Version m)
             (am_Summary m) (am_License m) (am_MinIsann m) (join_str "," (am_Tags m))
             "private" "0" None 0 None now now]) (versions db)
          (next_author db) (next_asset db + 1) (next_version db)).

(** pkg/market/sqlstore.go:442-445 [sqlStore.PutAsset part] *)
Definition insert_version (asset : Z) (version sha body now : string) (db : DB)
  : result store_err unit * DB :=
  if existsb (λ v, (v_asset_id v =? asset) && (v_version v =s? version)) (versions db)
  then (Err (EDriver unique_msg), db)
  else (Ok tt,
        mkDB (authors db) (assets db)
          (versions db ++ [mkVersionRow (next_version db) asset version sha body now])
          (next_author db) (next_asset db) (next_version db + 1)).

(** [UPDATE assets SET ... WHERE id = ?] *)
Definition update_asset (id : Z) (f : AssetRow → AssetRow) : DB → DB :=
  set_assets (map (λ a, if as_id a =? id then f a else a)).

(** pkg/market/sqlstore.go:490-491 [sqlStore.refreshLatest part] *)
Definition set_latest (latest now : string) (a : AssetRow) : AssetRow :=
  mkAssetRow (as_id a) (as_type a) (as_author_id a) (as_name a) latest (as_summary a) (as_license a)
    (as_min_isann a) (as_tags a) (as_visibility a) (as_price a) (as_token a) (as_downloads a)
    (as_rating a) (as_created a) now.
(** pkg/market/sqlstore.go:486-488 [sqlStore.refreshLatest part] *)
Definition set_latest_meta (latest : string) (m : AssetMeta) (now : string) (a : AssetRow) : AssetRow :=
  mkAssetRow (as_id a) (as_type a) (as_author_id a) (as_name a) latest (am_Summary m) (am_License m)
    (am_MinIsann m) (join_str "," (am_Tags m)) (as_visibility a) (as_price a) (as_token a)
    (as_downloads a) (as_rating a) (as_created a) now.
(** pkg/market/sqlstore.go:504-505 [sqlStore.SetVisibility part] *)
Definition set_visibility (vis now : string) (a : AssetRow) : AssetRow :=
  mkAssetRow (as_id a) (as_type a) (as_author_id a) (as_name a) (as_latest a) (as_summary a)
    (as_license a) (as_min_isann a) (as_tags a) vis (as_price a) (as_token a) (as_downloads a)
    (as_rating a) (as_created a) now.
(** pkg/market/sqlstore.go:532-533 [sqlStore.SetPrice part] *)
Definition set_price (price : string) (token : option string) (now : string) (a : AssetRow) : AssetRow :=
  mkAssetRow (as_id a) (as_type a) (as_author_id a) (as_name a) (as_latest a) (as_summary a)
    (as_license a) (as_min_isann a) (as_tags a) (as_visibility a) price token (as_downloads a)
    (as_rating a) (as_created a) now.
(** pkg/market/sqlstore.go:556-561 [sqlStore.SetMeta part] *)
Definition set_meta (tags summary : option string) (now : string) (a : AssetRow) : AssetRow :=
  mkAssetRow (as_id a) (as_type a) (as_author_id a) (as_name a) (as_latest a)
    (default (as_summary a) summary) (as_license a) (as_min_isann a) (default (as_tags a) tags)
    (as_visibility a) (as_price a) (as_token a) (as_downloads a) (as_rating a) (as_created a) now.
(** pkg/market/sqlstore.go:589-589 [sqlStore.IncrDownloads part] *)
Definition incr_downloads (a : AssetRow) : AssetRow :=
  mkAssetRow (as_id a) (as_type a) (as_author_id a) (as_name a) (as_latest a) (as_summary a)
    (as_license a) (as_min_isann a) (as_tags a) (as_visibility a) (as_price a) (as_token a)
    (as_downloads a + 1) (as_rating a) (as_created a) (as_updated a).

(** ** Version ordering *)

(** The component [pa[i]], empty past the end. *)
Definition nth_comp (l : list string) (i : nat) : string := default ""%string (l !! i).

(** pkg/market/sqlstore.go:632-652 [semverLess part] *)
Fixpoint semver_loop (fuel i : nat) (pa pb : list string) : bool :=
  match fuel with
  | O => false
  | S fuel' =>
      let xa := nth_comp pa i in
      let xb := nth_comp pb i in
      match atoi xa, atoi xb with
      | (na, None), (nb, None) =>
          if na =? nb then semver_loop fuel' (S i) pa pb else na <? nb
      | _, _ =>
          if xa =s? xb then semver_loop fuel' (S i) pa pb else str_ltb xa xb
      end
  end.

(** pkg/market/sqlstore.go:630-653 [semverLess]: the loop runs over the longer
    component list. *)
Definition semverLess (a b : string) : bool :=
  let pa := split_byte "." a in
  let pb := split_byte "." b in
  semver_loop (max (length pa) (length pb)) 0 pa pb.

(** pkg/market/sqlstore.go:657-659 [sortVersionsDesc part]: the inner loop: sift [x] down past the smaller versions before it; the
    sorted prefix is kept reversed, its last element first. *)
Fixpoint sift (x : Version) (rev_prefix : list Version) : list Version :=
  match rev_prefix with
  | [] => [x]
  | y :: l => if semverLess (ver_Version y) (ver_Version x) then y :: sift x l
              else x :: rev_prefix
  end.

(** pkg/market/sqlstore.go:655-661 [sortVersionsDesc] *)
Definition sortVersionsDesc (vs : list Version) : list Version :=
  rev (fold_left (λ acc x, sift x acc) vs []).

(** ** Pattern matching *)

(** SQLite's LIKE on bytes: '%' any run, '_' any one byte, ASCII letters
    compared without case. *)
Fixpoint sql_like (pat : string) : string → bool :=
  match pat with
  | EmptyString => λ s, s =s? ""
  | String p pat' =>
      let rest := sql_like pat' in
      if (p =c? "%")%char then
        (fix star (s : string) : bool :=
           rest s || match s with EmptyString => false | String _ s' => star s' end)
      else λ s, match s with
                | EmptyString => false
                | String c s' => ((p =c? "_")%char || (lower_byte p =c? lower_byte c)) && rest s'
                end
  end.

(** SQLite's LOWER(): ASCII letters only. *)
Definition sql_lower (s : string) : string := smap lower_byte s.

Section store.
Context {U : GoUnicode} {Q : SqlEnv}.

(** pkg/market/sqlstore.go:612-615 [isUniqueViolation] *)
Definition isUniqueViolation (e : store_err) : bool :=
  let msg := match e with
             | ErrNotFound => "asset not found" | ErrVersionExists => "version already exists"
             | ErrNoRows => "sql: no rows in result set" | EDriver m => to_lower m end in
  contains_str msg "unique" || contains_str msg "duplicate".

(** pkg/market/sqlstore.go:619-626 [parseTime] *)
Definition parseTime (s : string) : time :=
  match time_parse "2006-01-02 15:04:05" s with
  | Some t => t
  | None => match time_parse "2006-01-02T15:04:05Z07:00" s with
            | Some t => t
            | None => default time_zero (time_parse "2006-01-02T15:04:05Z" s)
            end
  end.

(** pkg/market/sqlstore.go:200-233 [sqlStore.scanAsset]: building the record
    from a joined row. *)
Definition scanAsset (r : AssetRow * AuthorRow) : Asset :=
  let '(a, au) := r in
  let eoa := au_eoa au in
  let handle := default ""%string (au_handle au) in
  let author := if negb (handle =s? "") then handle else eoa in
  mkAsset (as_type a) author eoa handle (as_name a) (as_latest a)
    (author ++s "/" ++s as_name a ++s "@" ++s as_latest a) (as_summary a) (as_license a)
    (as_min_isann a) (if negb (as_tags a =s? "") then split_byte "," (as_tags a) else [])
    (as_visibility a) (as_price a) (as_token a) (as_downloads a) (as_rating a)
    (parseTime (as_created a)) (parseTime (as_updated a)).

(** ** Reads *)

(** pkg/market/sqlstore.go:246-278 [sqlStore.list part]: the WHERE clause [list] assembles, on one joined row. *)
Definition list_match (f : ListFilter) (mineEOA : string) (publicOnly : bool)
  (r : AssetRow * AuthorRow) : bool :=
  let '(a, au) := r in
  let like := "%" ++s to_lower (lf_Query f) ++s "%" in
  (negb publicOnly || (as_visibility a =s? "public")) &&
  ((mineEOA =s? "") || (au_eoa au =s? mineEOA)) &&
  ((lf_Type f =s? "") || (as_type a =s? lf_Type f)) &&
  ((lf_Author f =s? "") || (au_eoa au =s? to_lower (lf_Author f))
     || (match au_handle au with Some h => h =s? lf_Author f | None => false end)) &&
  ((lf_Query f =s? "") || sql_like like (sql_lower (as_name a))
     || sql_like like (sql_lower (as_summary a)) || sql_like like (sql_lower (as_tags a))) &&
  (match lf_Paid f with
   | None => true
   | Some true => negb (as_price a =s? "0")
   | Some false => as_price a =s? "0"
   end).

(** pkg/market/sqlstore.go:300-301 [sqlStore.list part]: [assets a JOIN authors au ON a.author_id = au.id] *)
Definition joined (db : DB) : list (AssetRow * AuthorRow) :=
  omap (λ a, match author_of db (as_author_id a) with Some au => Some (a, au) | None => None end)
    (assets db).

(** pkg/market/sqlstore.go:286-292 [sqlStore.list part]: [before x y]: x sorts strictly before y under the chosen ORDER BY; NULL
    ratings sort last in descending order. *)
Definition list_before (sort : string) (x y : AssetRow * AuthorRow) : bool :=
  if sort =s? "updated" then str_ltb (as_updated y.1) (as_updated x.1)
  else if sort =s? "rating" then
    match as_rating x.1, as_rating y.1 with
    | Some a, Some b => SFltb b a
    | Some _, None => true
    | None, _ => false
    end
  else as_downloads y.1 <? as_downloads x.1.

(** A stable sort, as the engine's ORDER BY over the scan order. *)
Fixpoint insert_before {A} (before : A → A → bool) (x : A) (l : list A) : list A :=
  match l with
  | [] => [x]
  | y :: l' => if before y x then y :: insert_before before x l' else x :: l
  end.
Definition order_by {A} (before : A → A → bool) (l : list A) : list A :=
  foldr (insert_before before) [] l.

(** LIMIT/OFFSET; SQLite reads a negative offset as 0. *)
Definition limit_offset {A} (limit offset : Z) (l : list A) : list A :=
  take (Z.to_nat limit) (drop (Z.to_nat offset) l).

(** pkg/market/sqlstore.go:245-317 [sqlStore.list] *)
Definition list_assets (f : ListFilter) (mineEOA : string) (publicOnly : bool)
  : M (list Asset * Z) :=
  let matching db := filter (λ r, list_match f mineEOA publicOnly r = true) (joined db) in
  let* total := query (λ db, Z.of_nat (length (matching db))) in
  let page := if lf_Page f <? 1 then 1 else lf_Page f in
  let limit := if (lf_Limit f <=? 0) || (100 <? lf_Limit f) then 20 else lf_Limit f in
  let offset := wrap_i64 (wrap_i64 (page - 1) * limit) in
  let* rows := query (λ db, limit_offset limit offset
                              (order_by (list_before (lf_Sort f)) (row_order (matching db)))) in
  ret (map scanAsset rows, total).

(** pkg/market/sqlstore.go:235-237 [sqlStore.ListAssets] *)
Definition ListAssets (f : ListFilter) : M (list Asset * Z) := list_assets f "" true.

(** pkg/market/sqlstore.go:239-241 [sqlStore.ListMine] *)
Definition ListMine (authorEOA : string) (f : ListFilter) : M (list Asset * Z) :=
  list_assets f (to_lower authorEOA) false.

(** pkg/market/sqlstore.go:353-380 [sqlStore.ListVersions]: a nil list is the
    empty list. *)
Definition ListVersions (typ authorEOA name : string) : M (list Version) :=
  let* rows := query (λ db,
    match asset_joined db typ (to_lower authorEOA) name with
    | Some (a, _) => row_order (filter (λ v, v_asset_id v = as_id a) (versions db))
    | None => []
    end) in
  ret (sortVersionsDesc
         (map (λ v, mkVersion (v_version v) (v_sha256 v) (parseTime (v_created v))) rows)).

(** pkg/market/sqlstore.go:340-341 [sqlStore.GetAsset part]: pinning a version in the returned record. *)
Definition pin_version (a : Asset) (version : string) : Asset :=
  mkAsset (a_Type a) (a_Author a) (a_Eoa a) (a_Handle a) (a_Name a) version
    (a_Author a ++s "/" ++s a_Name a ++s "@" ++s version) (a_Summary a) (a_License a) (a_MinIsann a)
    (a_Tags a) (a_Visibility a) (a_Price a) (a_Token a) (a_Downloads a) (a_Rating a)
    (a_CreatedAt a) (a_UpdatedAt a).

(** pkg/market/sqlstore.go:319-351 [sqlStore.GetAsset]: [None] is the nil asset. *)
Definition GetAsset (typ authorEOA name version : string) : M (option (Asset * list Version)) :=
  let* row := catch (query_row (λ db, asset_joined db typ (to_lower authorEOA) name)) in
  match row with
  | Err ErrNoRows => ret None
  | Err e => raise e
  | Ok r =>
      let a := scanAsset r in
      let* versions := ListVersions typ authorEOA name in
      if negb (version =s? "") then
        if existsb (λ v, ver_Version v =s? version) versions
        then ret (Some (pin_version a version, versions))
        else ret None
      else ret (Some (a, versions))
  end.

(** pkg/market/sqlstore.go:382-412 [sqlStore.GetRecipe]: body, sha256 and
    visibility, or [None] when not found. *)
Definition GetRecipe (typ authorEOA name version : string) : M (option (string * string * string)) :=
  let fetch version :=
    let* row := catch (query_row (λ db,
      match asset_joined db typ (to_lower authorEOA) name with
      | Some (a, _) =>
          match find (λ v, (v_asset_id v =? as_id a) && (v_version v =s? version)) (versions db) with
          | Some v => Some (v_body v, v_sha256 v, as_visibility a)
          | None => None
          end
      | None => None
      end)) in
    match row with
    | Err ErrNoRows => ret None
    | Err e => raise e
    | Ok r => ret (Some r)
    end in
  if version =s? "" then
    let* row := catch (query_row (λ db, asset_joined db typ (to_lower authorEOA) name)) in
    match row with
    | Err ErrNoRows => ret None
    | Err e => raise e
    | Ok (a, _) => fetch (as_latest a)
    end
  else fetch version.

(** pkg/market/sqlstore.go:597-608 [sqlStore.assetIDVis] *)
Definition assetIDVis (typ authorEOA name : string) : M (Z * string) :=
  let* row := catch (query_row (λ db, asset_joined db typ (to_lower authorEOA) name)) in
  match row with
  | Err ErrNoRows => raise ErrNotFound
  | Err e => raise e
  | Ok (a, _) => ret (as_id a, as_visibility a)
  end.

(** ** Writes *)

(** pkg/market/sqlstore.go:170-190 [sqlStore.authorID] *)
Definition authorID (eoa : string) : M Z :=
  let eoa := to_lower eoa in
  let select := query_row (λ db, au_id <$> find (λ r, au_eoa r =s? eoa) (authors db)) in
  let* row := catch select in
  match row with
  | Ok id => ret id
  | Err ErrNoRows =>
      let* res := catch (stmt (insert_author eoa)) in
      match res with
      | Ok id => ret id
      | Err e =>
          let* again := catch select in
          match again with Ok id => ret id | Err _ => raise e end
      end
  | Err e => raise e
  end.

(** pkg/market/sqlstore.go:470-480 [sqlStore.refreshLatest part]: the fold computing the maximum version. *)
Definition latest_of (vs : list string) : string :=
  fold_left (λ latest v, if (latest =s? "") || semverLess latest v then v else latest) vs ""%string.

(** pkg/market/sqlstore.go:465-494 [sqlStore.refreshLatest] *)
Definition refreshLatest (assetID : Z) (meta : AssetMeta) (now : string) : M unit :=
  let* vs := query (λ db, map v_version (row_order (filter (λ v, v_asset_id v = assetID) (versions db)))) in
  let latest := latest_of vs in
  if latest =s? am_Version meta
  then exec (update_asset assetID (set_latest_meta latest meta now))
  else exec (update_asset assetID (set_latest latest now)).

(** pkg/market/sqlstore.go:416-460 [sqlStore.PutAsset] *)
Definition PutAsset (inp : PushInput) (now : string) : M (option Asset) :=
  let* author := authorID (pi_Author inp) in
  let* row := catch (query_row (λ db, as_id <$> asset_by_key db (pi_Type inp) author
                                                 (am_Name (pi_Meta inp)))) in
  let* assetID :=
    (match row with
     | Ok id => ret id
     | Err ErrNoRows => stmt (insert_asset (pi_Type inp) author (pi_Meta inp) now)
     | Err e => raise e
     end) in
  let* res := catch (stmt (insert_version assetID (am_Version (pi_Meta inp)) (pi_SHA256 inp)
                             (pi_RecipeBody inp) now)) in
  match res with
  | Err e => if isUniqueViolation e then raise ErrVersionExists else raise e
  | Ok _ =>
      let* _ := refreshLatest assetID (pi_Meta inp) now in
      let* a := GetAsset (pi_Type inp) (pi_Author inp) (am_Name (pi_Meta inp)) "" in
      ret (fst <$> a)
  end.

(** pkg/market/sqlstore.go:496-507 [sqlStore.SetVisibility] *)
Definition SetVisibility (typ authorEOA name visibility now : string) : M bool :=
  let* (id, cur) := assetIDVis typ authorEOA name in
  if cur =s? visibility then ret false
  else let* _ := exec (update_asset id (set_visibility visibility now)) in ret true.

(** pkg/market/sqlstore.go:509-535 [sqlStore.SetPrice] *)
Definition SetPrice (typ authorEOA name price : string) (token : option string) (now : string) : M bool :=
  let* (id, _) := assetIDVis typ authorEOA name in
  let* (curPrice, curToken) :=
    query_row (λ db, (λ a, (as_price a, as_token a)) <$> find (λ a, as_id a =? id) (assets db)) in
  let newToken := default ""%string token in
  if (curPrice =s? price) && (default ""%string curToken =s? newToken) then ret false
  else let* _ := exec (update_asset id (set_price price token now)) in ret true.

(** pkg/market/sqlstore.go:537-563 [sqlStore.SetMeta] *)
Definition SetMeta (typ authorEOA name : string) (tags summary : option string) (now : string) : M bool :=
  let* (id, _) := assetIDVis typ authorEOA name in
  let* (curTags, curSummary) :=
    query_row (λ db, (λ a, (as_tags a, as_summary a)) <$> find (λ a, as_id a =? id) (assets db)) in
  let tags' := match tags with Some t => if t =s? curTags then None else Some t | None => None end in
  let summary' := match summary with
                  | Some t => if t =s? curSummary then None else Some t | None => None end in
  match tags', summary' with
  | None, None => ret false
  | _, _ => let* _ := exec (update_asset id (set_meta tags' summary' now)) in ret true
  end.

(** pkg/market/sqlstore.go:578-578 [sqlStore.DeleteAsset part]: the two deletes of the transaction. *)
Definition delete_versions (id : Z) (db : DB) : DB :=
  mkDB (authors db) (assets db) (filter (λ v, v_asset_id v ≠ id) (versions db))
    (next_author db) (next_asset db) (next_version db).
(** pkg/market/sqlstore.go:581-581 [sqlStore.DeleteAsset part] *)
Definition delete_asset_row (id : Z) (db : DB) : DB :=
  set_assets (filter (λ a, as_id a ≠ id)) db.

(** pkg/market/sqlstore.go:573-584 [sqlStore.DeleteAsset part]: [BeginTx ... Commit] with the deferred rollback: the statements run on a
    copy that replaces the database only if the commit succeeds. *)
Definition transaction (body : M unit) : M unit := λ db fs,
  match stmt (λ db, (Ok tt, db)) db fs with
  | (Err e, _, fs1) => (Err e, db, fs1)
  | (Ok _, _, fs1) =>
      match body db fs1 with
      | (Err e, _, fs2) => (Err e, db, fs2)
      | (Ok _, db2, fs2) =>
          match stmt (λ db, (Ok tt, db)) db2 fs2 with
          | (Err e, _, fs3) => (Err e, db, fs3)
          | (Ok _, _, fs3) => (Ok tt, db2, fs3)
          end
      end
  end.

(** pkg/market/sqlstore.go:565-585 [sqlStore.DeleteAsset] *)
Definition DeleteAsset (typ authorEOA name : string) : M bool :=
  let* r := catch (assetIDVis typ authorEOA name) in
  match r with
  | Err ErrNotFound => ret false
  | Err e => raise e
  | Ok (id, _) =>
      let* _ := transaction (let* _ := exec (delete_versions id) in exec (delete_asset_row id)) in
      ret true
  end.

(** pkg/market/sqlstore.go:587-594 [sqlStore.IncrDownloads] *)
Definition IncrDownloads (typ authorEOA name : string) : M unit :=
  exec (λ db, match asset_joined db typ (to_lower authorEOA) name with
              | Some (a, _) => update_asset (as_id a) incr_downloads db
              | None => db
              end).
End store.
