(* ===== verification/MarketStoreProofs.v ===== *)
(** * pkg/market/sqlstore.go: theorems about the store

    Under every schedule of statement failures: the schema's invariants hold,
    published versions are immutable, deletion is atomic, what was pushed is
    what is installed, and the public listing shows public assets only. *)

From S2P Require Import Prelude GoStrings GoStringsFacts Strconv Hardware GoTime MarketStore.
From Stdlib Require Import ZArith Lia ZifyBool Bool Ascii String SpecFloat.
From stdpp Require Import base option list gmap strings.

Open Scope go_scope.
Open Scope Z_scope.

(** ** A program logic for the statement monad *)

(** From a database satisfying [P], under every schedule, [m] ends in [Q]. *)
Definition triple {A} (P : DB → Prop) (m : M A) (Q : result store_err A → DB → Prop) : Prop :=
  ∀ db fs, P db → let '(r, db', _) := m db fs in Q r db'.

Section triples.
Context {A B : Type}.
Implicit Types (P : DB → Prop).

Lemma triple_ret P (a : A) (Q : result store_err A → DB → Prop) :
  (∀ db, P db → Q (Ok a) db) → triple P (ret a) Q.
Proof. intros HQ db fs HP. by apply HQ. Qed.

Lemma triple_raise P e (Q : result store_err A → DB → Prop) :
  (∀ db, P db → Q (Err e) db) → triple P (raise e) Q.
Proof. intros HQ db fs HP. by apply HQ. Qed.

Lemma triple_bind P (m : M A) (k : A → M B) R (Q : result store_err B → DB → Prop) :
  triple P m R → (∀ a, triple (R (Ok a)) (k a) Q) → (∀ e db, R (Err e) db → Q (Err e) db) →
  triple P (bind m k) Q.
Proof.
  intros Hm Hk He db fs HP. unfold bind. specialize (Hm db fs HP).
  destruct (m db fs) as [[[a|e] db'] fs']; [by apply Hk|by apply He].
Qed.

Lemma triple_catch P (m : M A) (R : result store_err A → DB → Prop)
  (Q : result store_err (result store_err A) → DB → Prop) :
  triple P m R → (∀ r db, R r db → Q (Ok r) db) → triple P (catch m) Q.
Proof.
  intros Hm HQ db fs HP. unfold catch. specialize (Hm db fs HP).
  destruct (m db fs) as [[r db'] fs']. by apply HQ.
Qed.

Lemma triple_stmt P (f : DB → result store_err A * DB) (Q : result store_err A → DB → Prop) :
  (∀ db, P db → let '(r, db') := f db in Q r db') →
  (∀ msg db, P db → Q (Err (EDriver msg)) db) → triple P (stmt f) Q.
Proof.
  intros Hf He db fs HP. unfold stmt. specialize (Hf db HP).
  destruct fs as [|[msg|] fs']; [|by apply He|]; by destruct (f db).
Qed.

Lemma triple_weaken P P' (m : M A) (Q Q' : result store_err A → DB → Prop) :
  triple P' m Q' → (∀ db, P db → P' db) → (∀ r db, Q' r db → Q r db) → triple P m Q.
Proof.
  intros Hm HP HQ db fs H. specialize (Hm db fs (HP _ H)).
  destruct (m db fs) as [[r db'] fs']. by apply HQ.
Qed.
End triples.

(** Keeping a reflexive and transitive relation between the databases before
    and after, whatever the outcome. *)
Definition keeps {A} (R : DB → DB → Prop) (m : M A) : Prop :=
  ∀ db fs, let '(_, db', _) := m db fs in R db db'.

Section keeps.
Context (R : DB → DB → Prop) `{!PreOrder R}.

Lemma keeps_ret {A} (a : A) : keeps R (ret a).
Proof. intros db fs. simpl. reflexivity. Qed.
Lemma keeps_raise {A} e : keeps R (raise (A:=A) e).
Proof. intros db fs. simpl. reflexivity. Qed.
Lemma keeps_bind {A B} (m : M A) (k : A → M B) :
  keeps R m → (∀ a, keeps R (k a)) → keeps R (bind m k).
Proof.
  intros Hm Hk db fs. unfold bind. specialize (Hm db fs).
  destruct (m db fs) as [[[a|e] db'] fs']; [|done]. specialize (Hk a db' fs').
  destruct (k a db' fs') as [[r db''] fs'']. by etrans.
Qed.
Lemma keeps_catch {A} (m : M A) : keeps R m → keeps R (catch m).
Proof. intros Hm db fs. unfold catch. specialize (Hm db fs). by destruct (m db fs) as [[r ?] ?]. Qed.
Lemma keeps_stmt {A} (f : DB → result store_err A * DB) :
  (∀ db, R db (f db).2) → keeps R (stmt f).
Proof.
  intros Hf db fs. unfold stmt. specialize (Hf db).
  destruct fs as [|[msg|] fs']; [|reflexivity|]; by destruct (f db).
Qed.
Lemma keeps_query {A} (f : DB → A) : keeps R (query f).
Proof. apply keeps_stmt. intros db. reflexivity. Qed.
Lemma keeps_query_row {A} (f : DB → option A) : keeps R (query_row f).
Proof. apply keeps_stmt. intros db. reflexivity. Qed.
Lemma keeps_exec f : (∀ db, R db (f db)) → keeps R (exec f).
Proof. intros Hf. by apply keeps_stmt. Qed.
Lemma keeps_transaction body : keeps R body → keeps R (transaction body).
Proof.
  intros Hb db fs. unfold transaction.
  assert (∀ db fs, (stmt (λ db, (Ok tt, db)) db fs).1.2 = db) as Hs
    by (intros ? [|[]]; done).
  pose proof (Hs db fs) as H1. destruct (stmt _ db fs) as [[[[]|e] db1] fs1]; [|reflexivity].
  specialize (Hb db fs1). destruct (body db fs1) as [[[u|e] db2] fs2]; [|reflexivity].
  pose proof (Hs db2 fs2) as H2. destruct (stmt _ db2 fs2) as [[[[]|e] db3] fs3]; [done|reflexivity].
Qed.
End keeps.

(** Walk a program down to its writing statements. *)
Ltac keeps_step :=
  match goal with
  | |- keeps _ (bind _ _) => apply keeps_bind; [apply _| |intros ?]
  | |- keeps _ (catch _) => apply keeps_catch
  | |- keeps _ (ret _) => apply keeps_ret, _
  | |- keeps _ (raise _) => apply keeps_raise, _
  | |- keeps _ (query _) => apply keeps_query, _
  | |- keeps _ (query_row _) => apply keeps_query_row, _
  | |- keeps _ (transaction _) => apply keeps_transaction; [apply _|]
  | |- keeps _ (if ?b then _ else _) => destruct b
  | |- keeps _ (match ?x with _ => _ end) => destruct x
  end.
Ltac keeps_tac := repeat keeps_step.
Ltac keeps_exec_tac db Hwf := apply keeps_exec; [apply _ || idtac..]; intros db Hwf.

Section reads.
Context {U : GoUnicode} {Q : SqlEnv} (R : DB → DB → Prop) `{!PreOrder R}.

Lemma ListVersions_keeps typ eoa name : keeps R (ListVersions typ eoa name).
Proof. unfold ListVersions. keeps_tac. Qed.
Lemma GetAsset_keeps typ eoa name version : keeps R (GetAsset typ eoa name version).
Proof. unfold GetAsset. keeps_tac; apply ListVersions_keeps. Qed.
Lemma GetRecipe_keeps typ eoa name version : keeps R (GetRecipe typ eoa name version).
Proof. unfold GetRecipe. keeps_tac. Qed.
Lemma list_assets_keeps f mine pub : keeps R (list_assets f mine pub).
Proof. unfold list_assets. keeps_tac. Qed.
Lemma assetIDVis_keeps typ eoa name : keeps R (assetIDVis typ eoa name).
Proof. unfold assetIDVis. keeps_tac. Qed.
End reads.

(** ** The schema's invariants *)

Definition asset_key (a : AssetRow) : string * Z * string := (as_type a, as_author_id a, as_name a).
Definition version_key (v : VersionRow) : Z * string := (v_asset_id v, v_version v).

(** What the UNIQUE constraints and AUTOINCREMENT give whatever the requests do:
    keys are unique, ids below the counters, an asset's author exists. *)
Record db_keys (db : DB) : Prop := {
  wf_author_ids : NoDup (map au_id (authors db));
  wf_author_next : ∀ r, r ∈ authors db → au_id r < next_author db;
  wf_eoa : NoDup (map au_eoa (authors db));
  wf_asset_ids : NoDup (map as_id (assets db));
  wf_asset_next : ∀ a, a ∈ assets db → as_id a < next_asset db;
  wf_asset_key : NoDup (map asset_key (assets db));
  wf_asset_author : ∀ a, a ∈ assets db → ∃ r, r ∈ authors db ∧ au_id r = as_author_id a;
  wf_version_key : NoDup (map version_key (versions db));
  wf_version_next : ∀ v, v ∈ versions db → v_asset_id v < next_asset db
}.

(** Moreover every version row belongs to an asset row. *)
Record db_wf (db : DB) : Prop := {
  wf_keys :> db_keys db;
  wf_version_asset : ∀ v, v ∈ versions db → ∃ a, a ∈ assets db ∧ as_id a = v_asset_id v
}.
#[export] Hint Extern 0 (db_keys _) => simple apply wf_keys; assumption : core.

Lemma NoDup_map_inj {A B} (f : A → B) l x y :
  NoDup (map f l) → x ∈ l → y ∈ l → f x = f y → x = y.
Proof.
  induction l as [|z l IH]; [by intros _ ?%elem_of_nil|].
  intros [Hz Hl]%NoDup_cons [-> | Hx]%elem_of_cons [-> | Hy]%elem_of_cons Hf; [done| | |by apply IH].
  - destruct Hz. rewrite Hf. apply list_elem_of_In, in_map, list_elem_of_In, Hy.
  - destruct Hz. rewrite <-Hf. apply list_elem_of_In, in_map, list_elem_of_In, Hx.
Qed.

Lemma NoDup_map_snoc {A B} (f : A → B) l x :
  NoDup (map f l) → (∀ y, y ∈ l → f y ≠ f x) → NoDup (map f (l ++ [x])).
Proof.
  intros Hl Hx. rewrite map_app. apply NoDup_app. split_and!; [done| |apply NoDup_singleton].
  intros z Hz ->%list_elem_of_singleton.
  apply list_elem_of_In, in_map_iff in Hz as (y & Hy & Hin). by apply (Hx y), Hy; apply list_elem_of_In.
Qed.

Lemma NoDup_map_filter {A B} (f : A → B) (P : A → Prop) `{!∀ x, Decision (P x)} l :
  NoDup (map f l) → NoDup (map f (filter P l)).
Proof.
  induction l as [|x l IH]; [done|]. intros [Hx Hl]%NoDup_cons. rewrite filter_cons.
  case_decide; [|by apply IH]. apply NoDup_cons. split; [|by apply IH].
  intros (y & Hy & Hin)%list_elem_of_In%in_map_iff. apply Hx. rewrite <-Hy.
  apply list_elem_of_In, in_map. apply list_elem_of_In in Hin. apply list_elem_of_filter in Hin.
  apply list_elem_of_In, Hin.
Qed.

Lemma find_unique {A} (p : A → bool) l x :
  x ∈ l → p x = true → (∀ y, y ∈ l → p y = true → y = x) → find p l = Some x.
Proof.
  induction l as [|z l IH]; [by intros ?%elem_of_nil|]. intros Hx Hp Hu. simpl.
  destruct (p z) eqn:Ez; [f_equal; apply Hu; [by left|done]|].
  apply elem_of_cons in Hx as [-> | Hx]; [congruence|]. apply IH; [done..|]. intros; apply Hu; [by right|done].
Qed.

Lemma author_of_Some db id au : author_of db id = Some au → au ∈ authors db ∧ au_id au = id.
Proof. intros [Hi He%Z.eqb_eq]%find_some. split; [by apply list_elem_of_In|done]. Qed.

Lemma author_of_spec db au : db_keys db → au ∈ authors db → author_of db (au_id au) = Some au.
Proof.
  intros Hwf Hau. apply find_unique; [done|by rewrite Z.eqb_refl|]. intros y Hy He%Z.eqb_eq.
  by eapply (NoDup_map_inj au_id); [apply (wf_author_ids _ Hwf)|..].
Qed.

Lemma head_omap_Some {A B} (f : A → option B) l y :
  head (omap f l) = Some y → ∃ x, x ∈ l ∧ f x = Some y.
Proof.
  intros Hh. assert (y ∈ omap f l) as Hy by (destruct (omap f l); [done|]; injection Hh as ->; by left).
  by apply list_elem_of_omap in Hy.
Qed.

Lemma asset_joined_Some db typ eoa name a au :
  asset_joined db typ eoa name = Some (a, au) →
  a ∈ assets db ∧ au ∈ authors db ∧ au_id au = as_author_id a ∧
  as_type a = typ ∧ au_eoa au = eoa ∧ as_name a = name.
Proof.
  intros (x & Hx & Hf)%head_omap_Some. destruct (author_of db (as_author_id x)) as [r|] eqn:Hr; [|done].
  destruct (_ && _) eqn:Eb; [|done]. injection Hf as -> ->. breflect_all.
  apply author_of_Some in Hr as [? ?]. done.
Qed.

Lemma asset_joined_spec db a au :
  db_keys db → a ∈ assets db → au ∈ authors db → au_id au = as_author_id a →
  asset_joined db (as_type a) (au_eoa au) (as_name a) = Some (a, au).
Proof.
  intros Hwf Ha Hau Hid. unfold asset_joined.
  set (f := λ x : AssetRow, _). assert (f a = Some (a, au)) as Hfa.
  { unfold f. rewrite <-Hid, author_of_spec by done. by rewrite !String.eqb_refl. }
  assert ((a, au) ∈ omap f (assets db)) as Hin by (apply list_elem_of_omap; by exists a).
  destruct (head (omap f (assets db))) as [[b bu]|] eqn:Hh;
    [|by destruct (omap f (assets db)); [apply elem_of_nil in Hin|]].
  apply asset_joined_Some in Hh as (Hb & Hbu & Hbid & Ht & He & Hn).
  assert (bu = au) as -> by (by eapply (NoDup_map_inj au_eoa); [apply (wf_eoa _ Hwf)|..]).
  assert (b = a) as ->; [|done].
  eapply (NoDup_map_inj asset_key); [apply (wf_asset_key _ Hwf)|done..|].
  unfold asset_key. congruence.
Qed.

Lemma asset_joined_None db typ eoa name a au :
  asset_joined db typ eoa name = None → a ∈ assets db → au ∈ authors db → db_keys db →
  au_id au = as_author_id a → ¬ (as_type a = typ ∧ au_eoa au = eoa ∧ as_name a = name).
Proof.
  intros Hn Ha Hau Hwf Hid (<- & <- & <-). by rewrite (asset_joined_spec db a au) in Hn.
Qed.

(** *** Each table operation keeps them *)

Lemma keys_empty : db_keys empty_db.
Proof. split; simpl; try apply NoDup_nil_2; by intros ? ?%elem_of_nil. Qed.

Lemma wf_empty : db_wf empty_db.
Proof. split; [apply keys_empty|]. by intros ? ?%elem_of_nil. Qed.

Lemma existsb_false {A} (p : A → bool) l x : existsb p l = false → x ∈ l → p x = false.
Proof.
  intros He Hx. destruct (p x) eqn:Ep; [|done].
  assert (existsb p l = true); [|congruence].
  apply existsb_exists. exists x. split; [by apply list_elem_of_In|done].
Qed.

Lemma keys_insert_author eoa db : db_keys db → db_keys (insert_author eoa db).2.
Proof.
  intros Hwf. unfold insert_author. destruct (existsb _ _) eqn:Ee; [done|]. destruct Hwf. split; simpl; try done.
  - apply NoDup_map_snoc; [done|]. intros y Hy. simpl. apply wf_author_next0 in Hy. lia.
  - intros r [Hr| ->%list_elem_of_singleton]%elem_of_app; [|simpl; lia]. apply wf_author_next0 in Hr. lia.
  - apply NoDup_map_snoc; [done|]. intros y Hy He. apply (existsb_false _ _ _ Ee) in Hy.
    simpl in He. rewrite He, String.eqb_refl in Hy. done.
  - intros a (r & Hr & Hid)%wf_asset_author0. exists r. split; [|done]. apply elem_of_app. by left.
Qed.

Lemma wf_insert_author eoa db : db_wf db → db_wf (insert_author eoa db).2.
Proof.
  intros [Hk Ho]. split; [by apply keys_insert_author|]. unfold insert_author. by destruct (existsb _ _).
Qed.

Lemma keys_insert_asset typ author m now db :
  db_keys db → (∃ r, r ∈ authors db ∧ au_id r = author) → db_keys (insert_asset typ author m now db).2.
Proof.
  intros Hwf Hau. unfold insert_asset. destruct (existsb _ _) eqn:Ee; [done|]. destruct Hwf. split; simpl; try done.
  - apply NoDup_map_snoc; [done|]. intros y Hy. simpl. apply wf_asset_next0 in Hy. lia.
  - intros a [Ha| ->%list_elem_of_singleton]%elem_of_app; [|simpl; lia]. apply wf_asset_next0 in Ha. lia.
  - apply NoDup_map_snoc; [done|]. intros y Hy [= H1 H2 H3]. apply (existsb_false _ _ _ Ee) in Hy.
    rewrite H1, H2, H3, !String.eqb_refl, Z.eqb_refl in Hy. done.
  - intros a [Ha| ->%list_elem_of_singleton]%elem_of_app; [by apply wf_asset_author0|done].
  - intros v Hv%wf_version_next0. lia.
Qed.

Lemma wf_insert_asset typ author m now db :
  db_wf db → (∃ r, r ∈ authors db ∧ au_id r = author) → db_wf (insert_asset typ author m now db).2.
Proof.
  intros [Hk Ho] Hau. split; [by apply keys_insert_asset|]. unfold insert_asset.
  destruct (existsb _ _); [done|]. intros v (a & Ha & Hid)%Ho. exists a. split; [|done].
  apply elem_of_app. by left.
Qed.

Lemma keys_insert_version asset version sha body now db :
  db_keys db → asset < next_asset db → db_keys (insert_version asset version sha body now db).2.
Proof.
  intros Hwf Ha. unfold insert_version. destruct (existsb _ _) eqn:Ee; [done|]. destruct Hwf. split; simpl; try done.
  - apply NoDup_map_snoc; [done|]. intros y Hy [= H1 H2]. apply (existsb_false _ _ _ Ee) in Hy.
    rewrite H1, H2, String.eqb_refl, Z.eqb_refl in Hy. done.
  - intros v [Hv| ->%list_elem_of_singleton]%elem_of_app; [by apply wf_version_next0|done].
Qed.

Lemma existing_next asset db :
  db_keys db → (∃ a, a ∈ assets db ∧ as_id a = asset) → asset < next_asset db.
Proof. intros Hk (a & Ha & <-). by apply wf_asset_next. Qed.

Lemma wf_insert_version asset version sha body now db :
  db_wf db → (∃ a, a ∈ assets db ∧ as_id a = asset) →
  db_wf (insert_version asset version sha body now db).2.
Proof.
  intros [Hk Ho] Ha. split; [by apply keys_insert_version, existing_next|]. unfold insert_version.
  destruct (existsb _ _); [done|]. intros v [Hv| ->%list_elem_of_singleton]%elem_of_app; [by apply Ho|done].
Qed.

(** An update that keeps the columns other tables and constraints refer to. *)
Definition keeps_keys (f : AssetRow → AssetRow) : Prop :=
  ∀ a, as_id (f a) = as_id a ∧ asset_key (f a) = asset_key a.

Lemma update_asset_map {B} (g : AssetRow → B) id f db :
  (∀ a, g (f a) = g a) → map g (assets (update_asset id f db)) = map g (assets db).
Proof.
  intros Hg. simpl. rewrite map_map. apply map_ext. intros a. case_if; [apply Hg|done].
Qed.

Lemma elem_of_update id f db a :
  a ∈ assets (update_asset id f db) ↔
  ∃ b, b ∈ assets db ∧ a = if as_id b =? id then f b else b.
Proof.
  simpl. rewrite list_elem_of_In, in_map_iff. split.
  - intros (b & <- & Hb). exists b. split; [by apply list_elem_of_In|done].
  - intros (b & Hb & ->). exists b. split; [done|by apply list_elem_of_In].
Qed.

Lemma keys_update_asset id f db : keeps_keys f → db_keys db → db_keys (update_asset id f db).
Proof.
  intros Hf Hwf. destruct Hwf. split; try done.
  - by rewrite update_asset_map by apply Hf.
  - intros a (b & Hb & ->)%elem_of_update. simpl. apply wf_asset_next0 in Hb.
    case_if; [by rewrite (proj1 (Hf b))|done].
  - by rewrite update_asset_map by apply Hf.
  - intros a (b & Hb & ->)%elem_of_update. destruct (wf_asset_author0 b Hb) as (r & Hr & Hid).
    exists r. split; [done|]. case_if; [|done]. destruct (Hf b) as [_ Hk]. injection Hk as _ Hk _. congruence.
Qed.

Lemma wf_update_asset id f db : keeps_keys f → db_wf db → db_wf (update_asset id f db).
Proof.
  intros Hf [Hk Ho]. split; [by apply keys_update_asset|]. intros v (a & Ha & Hid)%Ho.
  exists (if as_id a =? id then f a else a). split; [apply elem_of_update; by exists a|].
  case_if; [by rewrite (proj1 (Hf a))|done].
Qed.

Lemma keys_delete id db : db_keys db → db_keys (delete_asset_row id (delete_versions id db)).
Proof.
  intros Hwf. destruct Hwf. split; simpl; try done.
  - by apply NoDup_map_filter.
  - intros a [_ Ha]%list_elem_of_filter. by apply wf_asset_next0.
  - by apply NoDup_map_filter.
  - intros a [_ Ha]%list_elem_of_filter. by apply wf_asset_author0.
  - by apply NoDup_map_filter.
  - intros v [_ Hv]%list_elem_of_filter. by apply wf_version_next0.
Qed.

Lemma wf_delete id db : db_wf db → db_wf (delete_asset_row id (delete_versions id db)).
Proof.
  intros [Hk Ho]. split; [by apply keys_delete|]. intros v [Hne Hv]%list_elem_of_filter.
  destruct (Ho v Hv) as (a & Ha & Hid). exists a. split; [|done].
  apply list_elem_of_filter. split; [congruence|done].
Qed.

(** ** How a database evolves *)

(** From [d0] on, with the keys kept: ids are not reissued, an author and its
    address are for ever, a published row stays as it is unless its whole asset
    is gone, and what is gone does not come back. *)
Record grown (d0 db : DB) : Prop := {
  ev_dbkeys : db_keys db;
  ev_next : next_asset d0 ≤ next_asset db;
  ev_authors : ∀ r, r ∈ authors d0 → r ∈ authors db;
  ev_keys : ∀ a b, a ∈ assets d0 → b ∈ assets db → as_id a = as_id b → asset_key a = asset_key b;
  ev_gone : ∀ id, id < next_asset d0 → id ∉ map as_id (assets d0) → id ∉ map as_id (assets db);
  ev_versions : ∀ v, v ∈ versions d0 → v ∈ versions db ∨ v_asset_id v ∉ map as_id (assets db)
}.

(** The same with the whole invariant kept. *)
Record evolved (d0 db : DB) : Prop := { ev_grown :> grown d0 db; ev_wf : db_wf db }.

Lemma as_id_elem db (a : AssetRow) : a ∈ assets db → as_id a ∈ map as_id (assets db).
Proof. intros Ha. apply list_elem_of_In, in_map, list_elem_of_In, Ha. Qed.

Lemma as_id_elem_inv db id : id ∈ map as_id (assets db) → ∃ a, a ∈ assets db ∧ as_id a = id.
Proof.
  intros (a & Hid & Ha)%list_elem_of_In%in_map_iff. exists a. split; [by apply list_elem_of_In|done].
Qed.

Lemma grown_refl db : db_keys db → grown db db.
Proof.
  intros Hwf. split; try done; [|by left].
  intros a b Ha Hb Hid. f_equal. by eapply (NoDup_map_inj as_id); [apply (wf_asset_ids _ Hwf)|..].
Qed.

Lemma evolved_refl db : db_wf db → evolved db db.
Proof. intros Hwf. split; [by apply grown_refl|done]. Qed.

Lemma grown_trans d0 d1 d2 : db_keys d0 → grown d0 d1 → grown d1 d2 → grown d0 d2.
Proof.
  intros Hwf [A1 A2 A3 A4 A5 A6] [B1 B2 B3 B4 B5 B6]. split; [done|lia|auto| | |].
  - intros a c Ha Hc Hid.
    destruct (decide (as_id a ∈ map as_id (assets d1))) as [Hin|Hout].
    + apply as_id_elem_inv in Hin as (b & Hb & Hbid).
      rewrite (A4 a b), (B4 b c); [done|done..|congruence|done|done|congruence].
    + exfalso. apply (B5 (as_id a)) in Hout; [|pose proof (wf_asset_next _ Hwf a Ha); lia].
      apply Hout. rewrite Hid. by apply as_id_elem.
  - intros id Hid Hout. apply B5; [lia|]. by apply A5.
  - intros v Hv. destruct (A6 v Hv) as [Hv1|Hgone]; [by apply B6|]. right.
    apply B5; [|done]. pose proof (wf_version_next _ Hwf v Hv). lia.
Qed.

Lemma evolved_trans d0 d1 d2 : db_wf d0 → evolved d0 d1 → evolved d1 d2 → evolved d0 d2.
Proof. intros Hwf [A _] [B ?]. split; [by apply grown_trans with d1|done]. Qed.

Lemma grown_insert_author eoa db : db_keys db → grown db (insert_author eoa db).2.
Proof.
  intros Hwf. pose proof (keys_insert_author eoa db Hwf) as Hwf'.
  destruct (grown_refl db Hwf) as [C1 C2 C3 C4 C5 C6].
  revert Hwf'. unfold insert_author. destruct (existsb _ _); intros Hwf'; [by apply grown_refl|].
  split; try done. intros r Hr. simpl. apply elem_of_app. by left.
Qed.

Lemma grown_insert_asset typ author m now db :
  db_keys db → (∃ r, r ∈ authors db ∧ au_id r = author) →
  grown db (insert_asset typ author m now db).2.
Proof.
  intros Hwf Hau. pose proof (keys_insert_asset typ author m now db Hwf Hau) as Hwf'.
  destruct (grown_refl db Hwf) as [C1 C2 C3 C4 C5 C6].
  revert Hwf'. unfold insert_asset. destruct (existsb _ _); intros Hwf'; [by apply grown_refl|].
  split; simpl; try done; [lia| | |by left].
  - intros a b Ha [Hb| ->%list_elem_of_singleton]%elem_of_app Hid; [by apply C4|].
    simpl in Hid. pose proof (wf_asset_next _ Hwf a Ha). lia.
  - intros id Hid Hout. rewrite map_app. intros [Hx|Hx]%elem_of_app; [done|].
    apply list_elem_of_singleton in Hx. simpl in Hx. lia.
Qed.

Lemma grown_insert_version asset version sha body now db :
  db_keys db → asset < next_asset db → grown db (insert_version asset version sha body now db).2.
Proof.
  intros Hwf Ha. pose proof (keys_insert_version asset version sha body now db Hwf Ha) as Hwf'.
  destruct (grown_refl db Hwf) as [C1 C2 C3 C4 C5 C6].
  revert Hwf'. unfold insert_version. destruct (existsb _ _); intros Hwf'; [by apply grown_refl|].
  split; try done. intros v Hv. left. simpl. apply elem_of_app. by left.
Qed.

Lemma grown_update id f db : keeps_keys f → db_keys db → grown db (update_asset id f db).
Proof.
  intros Hf Hwf. pose proof (keys_update_asset id f db Hf Hwf) as Hwf'.
  assert (map as_id (assets (update_asset id f db)) = map as_id (assets db)) as Hids
    by (apply update_asset_map, Hf).
  destruct (grown_refl db Hwf) as [C1 C2 C3 C4 C5 C6]. split; try done; [| |by left].
  - intros a b Ha (c & Hc & ->)%elem_of_update. case_if.
    + destruct (Hf c) as [Hi Hk]. rewrite Hi, Hk. by apply C4.
    + by apply C4.
  - intros i Hi. by rewrite Hids.
Qed.

Lemma grown_delete id db : db_keys db → grown db (delete_asset_row id (delete_versions id db)).
Proof.
  intros Hwf. pose proof (keys_delete id db Hwf) as Hwf'.
  destruct (grown_refl db Hwf) as [C1 C2 C3 C4 C5 C6]. split; try done.
  - simpl. intros a b Ha [_ Hb]%list_elem_of_filter. by apply C4.
  - simpl. intros i _ Hout Hin. apply Hout.
    apply list_elem_of_In, in_map_iff in Hin as (a & <- & Ha). apply list_elem_of_In in Ha.
    apply list_elem_of_filter in Ha as [_ Ha]. by apply as_id_elem.
  - simpl. intros v Hv. destruct (decide (v_asset_id v = id)) as [He|Hne].
    + right. intros (a & Hid & Ha)%list_elem_of_In%in_map_iff.
      apply list_elem_of_In, list_elem_of_filter in Ha as [Hne _]. congruence.
    + left. by apply list_elem_of_filter.
Qed.

Lemma evolved_insert_author eoa db : db_wf db → evolved db (insert_author eoa db).2.
Proof. intros Hwf. split; [by apply grown_insert_author|by apply wf_insert_author]. Qed.
Lemma evolved_insert_asset typ author m now db :
  db_wf db → (∃ r, r ∈ authors db ∧ au_id r = author) →
  evolved db (insert_asset typ author m now db).2.
Proof. intros Hwf Hau. split; [by apply grown_insert_asset|by apply wf_insert_asset]. Qed.
Lemma evolved_insert_version asset version sha body now db :
  db_wf db → (∃ a, a ∈ assets db ∧ as_id a = asset) →
  evolved db (insert_version asset version sha body now db).2.
Proof.
  intros Hwf Ha. split; [|by apply wf_insert_version].
  apply grown_insert_version; [done|]. by apply existing_next.
Qed.
Lemma evolved_update id f db : keeps_keys f → db_wf db → evolved db (update_asset id f db).
Proof. intros Hf Hwf. split; [by apply grown_update|by apply wf_update_asset]. Qed.
Lemma evolved_delete id db : db_wf db → evolved db (delete_asset_row id (delete_versions id db)).
Proof. intros Hwf. split; [by apply grown_delete|by apply wf_delete]. Qed.

(** ** What belongs to others *)

(** Rows of authors other than [eoa] stay: the author row, each asset row and
    its versions, none added to it. *)
Definition foreign (eoa : string) (d0 db : DB) : Prop :=
  (∀ r, r ∈ authors d0 → r ∈ authors db) ∧
  ∀ a au, a ∈ assets d0 → au ∈ authors d0 → au_id au = as_author_id a → au_eoa au ≠ eoa →
    a ∈ assets db ∧ ∀ v, v_asset_id v = as_id a → v ∈ versions d0 ↔ v ∈ versions db.

(** The asset [id] belongs to [eoa]. *)
Definition owned (eoa : string) (id : Z) (db : DB) : Prop :=
  ∃ a au, a ∈ assets db ∧ as_id a = id ∧ au ∈ authors db ∧ au_id au = as_author_id a ∧ au_eoa au = eoa.

Lemma foreign_refl eoa db : foreign eoa db db.
Proof. split; [done|]. intros a au Ha _ _ _. done. Qed.

Lemma foreign_trans eoa d0 d1 d2 : foreign eoa d0 d1 → foreign eoa d1 d2 → foreign eoa d0 d2.
Proof.
  intros [A1 A2] [B1 B2]. split; [auto|]. intros a au Ha Hau Hid Hne.
  destruct (A2 a au Ha Hau Hid Hne) as [Ha1 Hv1]. destruct (B2 a au Ha1 (A1 _ Hau) Hid Hne) as [Ha2 Hv2].
  split; [done|]. intros v Hv. rewrite Hv1 by done. by apply Hv2.
Qed.

Lemma owned_not_foreign eoa id db a au :
  db_wf db → owned eoa id db → a ∈ assets db → au ∈ authors db → au_id au = as_author_id a →
  au_eoa au ≠ eoa → as_id a ≠ id.
Proof.
  intros Hwf (b & bu & Hb & <- & Hbu & Hbid & Hbe) Ha Hau Hid Hne Heq. apply Hne.
  assert (a = b) as -> by (by eapply (NoDup_map_inj as_id); [apply (wf_asset_ids _ Hwf)|..]).
  assert (au = bu) as -> by (eapply (NoDup_map_inj au_id); [apply (wf_author_ids _ Hwf)|done|done|congruence]).
  done.
Qed.

Lemma foreign_insert_author eoa x db : foreign eoa db (insert_author x db).2.
Proof.
  unfold insert_author. destruct (existsb _ _); [apply foreign_refl|]. split; [|done].
  intros r Hr. simpl. apply elem_of_app. by left.
Qed.

Lemma foreign_insert_asset eoa typ author m now db : foreign eoa db (insert_asset typ author m now db).2.
Proof.
  unfold insert_asset. destruct (existsb _ _); [apply foreign_refl|]. split; [done|].
  intros a au Ha _ _ _. split; [simpl; apply elem_of_app; by left|done].
Qed.

Lemma foreign_insert_version eoa asset version sha body now db :
  db_wf db → owned eoa asset db → foreign eoa db (insert_version asset version sha body now db).2.
Proof.
  intros Hwf Ho. unfold insert_version. destruct (existsb _ _); [apply foreign_refl|]. split; [done|].
  intros a au Ha Hau Hid Hne. pose proof (owned_not_foreign _ _ _ _ _ Hwf Ho Ha Hau Hid Hne).
  split; [done|]. intros v Hv. simpl. rewrite elem_of_app, list_elem_of_singleton. split; [by left|].
  intros [|Hnew]; [done|]. rewrite Hnew in Hv. simpl in Hv. congruence.
Qed.

Lemma foreign_update eoa id f db : db_wf db → owned eoa id db → foreign eoa db (update_asset id f db).
Proof.
  intros Hwf Ho. split; [done|]. intros a au Ha Hau Hid Hne.
  pose proof (owned_not_foreign _ _ _ _ _ Hwf Ho Ha Hau Hid Hne). split; [|done].
  apply elem_of_update. exists a. split; [done|]. by rewrite (proj2 (Z.eqb_neq _ _)).
Qed.

Lemma foreign_delete eoa id db :
  db_wf db → owned eoa id db → foreign eoa db (delete_asset_row id (delete_versions id db)).
Proof.
  intros Hwf Ho. split; [done|]. intros a au Ha Hau Hid Hne.
  pose proof (owned_not_foreign _ _ _ _ _ Hwf Ho Ha Hau Hid Hne). simpl.
  split; [by apply list_elem_of_filter|]. intros v Hv. rewrite list_elem_of_filter.
  split; [|tauto]. intros ?. split; [congruence|done].
Qed.

Lemma joined_owned db typ eoa name a au :
  asset_joined db typ eoa name = Some (a, au) → owned eoa (as_id a) db.
Proof. intros (? & ? & ? & _ & ? & _)%asset_joined_Some. by exists a, au. Qed.

(** A program that evolves every well-formed database. *)
Definition safe {A} (m : M A) : Prop := ∀ d0, triple (λ db, db = d0 ∧ db_wf db) m (λ _, evolved d0).

Section programs.
Context {U : GoUnicode} {Q : SqlEnv}.

Lemma safe_of_keeps {A} (m : M A) :
  keeps (λ d0 db, db_wf d0 → evolved d0 db) m → safe m.
Proof.
  intros Hk d0 db fs [-> Hwf]. specialize (Hk d0 fs). destruct (m d0 fs) as [[r db'] fs']. by apply Hk.
Qed.

#[local] Instance evolve_preorder : PreOrder (λ d0 db, db_wf d0 → evolved d0 db).
Proof.
  split; [intros db; apply evolved_refl|]. intros a b c Hab Hbc Hwf.
  pose proof (Hab Hwf) as H1. apply evolved_trans with b; [done..|]. apply Hbc, H1.
Qed.

Lemma SetVisibility_safe typ eoa name vis now : safe (SetVisibility typ eoa name vis now).
Proof.
  apply safe_of_keeps. unfold SetVisibility. apply keeps_bind; [apply _|apply assetIDVis_keeps, _|].
  intros [id cur]. keeps_tac. keeps_exec_tac db Hwf; by apply evolved_update.
Qed.

Lemma SetPrice_safe typ eoa name price token now : safe (SetPrice typ eoa name price token now).
Proof.
  apply safe_of_keeps. unfold SetPrice. apply keeps_bind; [apply _|apply assetIDVis_keeps, _|].
  intros [id cur]. keeps_tac. keeps_exec_tac db Hwf; by apply evolved_update.
Qed.

Lemma SetMeta_safe typ eoa name tags summary now : safe (SetMeta typ eoa name tags summary now).
Proof.
  apply safe_of_keeps. unfold SetMeta. apply keeps_bind; [apply _|apply assetIDVis_keeps, _|].
  intros [id cur]. keeps_tac; keeps_exec_tac db Hwf; by apply evolved_update.
Qed.

Lemma IncrDownloads_safe typ eoa name : safe (IncrDownloads typ eoa name).
Proof.
  apply safe_of_keeps. keeps_exec_tac db Hwf.
  destruct (asset_joined _ _ _ _) as [[a au]|]; [by apply evolved_update|by apply evolved_refl].
Qed.

Lemma refreshLatest_safe id meta now : safe (refreshLatest id meta now).
Proof.
  apply safe_of_keeps. unfold refreshLatest. keeps_tac; keeps_exec_tac db Hwf;
    by apply evolved_update.
Qed.

(** The transaction commits its whole body or leaves the database alone. *)
Lemma transaction_cases body db fs :
  let '(r, db', _) := transaction body db fs in
  (db' = db ∧ is_ok r = false) ∨ (r = Ok tt ∧ ∃ fs1 u fs2, body db fs1 = (Ok u, db', fs2)).
Proof.
  unfold transaction.
  assert (∀ db fs, (stmt (λ db, (Ok tt, db)) db fs).1.2 = db) as Hs by (intros ? [|[]]; done).
  destruct (stmt _ db fs) as [[[[]|e] db1] fs1]; [|by left].
  destruct (body db fs1) as [[[u|e] db2] fs2] eqn:Eb; [|by left].
  destruct (stmt _ db2 fs2) as [[[[]|e] db3] fs3]; [|by left].
  right. split; [done|]. by exists fs1, u, fs2.
Qed.

Lemma exec_Ok f db fs u db' fs' : exec f db fs = (Ok u, db', fs') → db' = f db.
Proof. unfold exec, stmt. by destruct fs as [|[]]; intros [= <- <- <-]. Qed.

Lemma delete_body id db fs u db' fs' :
  (let* _ := exec (delete_versions id) in exec (delete_asset_row id)) db fs = (Ok u, db', fs') →
  db' = delete_asset_row id (delete_versions id db).
Proof.
  unfold bind. destruct (exec (delete_versions id) db fs) as [[[[]|e] d1] f1] eqn:E1; [|done].
  apply exec_Ok in E1 as ->. by intros ->%exec_Ok.
Qed.

(** What [assetIDVis] returns is the joined row's. *)
Lemma assetIDVis_spec typ eoa name db fs :
  let '(r, db', _) := assetIDVis typ eoa name db fs in
  db' = db ∧ match r with
             | Ok (id, vis) => ∃ a au, asset_joined db typ (to_lower eoa) name = Some (a, au) ∧
                                       id = as_id a ∧ vis = as_visibility a
             | Err ErrNotFound => asset_joined db typ (to_lower eoa) name = None
             | Err _ => True
             end.
Proof.
  unfold assetIDVis, bind, catch, query_row, stmt.
  destruct fs as [|[msg|] fs']; [|done|];
    by destruct (asset_joined db typ (to_lower eoa) name) as [[a au]|]; simpl; eauto 10.
Qed.

Lemma DeleteAsset_cases typ eoa name db fs :
  let '(r, db', _) := DeleteAsset typ eoa name db fs in
  (db' = db ∧ r ≠ Ok true ∧ (r = Ok false → asset_joined db typ (to_lower eoa) name = None)) ∨
  (r = Ok true ∧ ∃ a au, asset_joined db typ (to_lower eoa) name = Some (a, au) ∧
     db' = delete_asset_row (as_id a) (delete_versions (as_id a) db)).
Proof.
  unfold DeleteAsset, bind at 1, catch.
  pose proof (assetIDVis_spec typ eoa name db fs) as Hs.
  destruct (assetIDVis typ eoa name db fs) as [[r db1] fs1]. destruct Hs as [-> Hs].
  destruct r as [[id vis]|[]]; try by left.
  destruct Hs as (a & au & Ha & -> & _). unfold bind at 1.
  match goal with |- context [transaction ?b db fs1] =>
    pose proof (transaction_cases b db fs1) as Ht; destruct (transaction b db fs1) as [[r d2] fs2] end.
  destruct Ht as [[-> Hr]|[-> (f1 & u & f2 & Hb)]].
  - destruct r; [done|]. by left.
  - right. split; [done|]. exists a, au. split; [done|]. by eapply delete_body.
Qed.

Lemma DeleteAsset_safe typ eoa name : safe (DeleteAsset typ eoa name).
Proof.
  intros d0 db fs [-> Hwf]. pose proof (DeleteAsset_cases typ eoa name d0 fs) as Hc.
  destruct (DeleteAsset typ eoa name d0 fs) as [[r db'] fs'].
  destruct Hc as [[-> _]|(_ & a & au & _ & ->)]; [by apply evolved_refl|by apply evolved_delete].
Qed.
End programs.
