(* ===== verification/MarketStoreTheorems.v ===== *)
(** * pkg/market/sqlstore.go: properties of the store

    Histories of store operations under arbitrary failure schedules: invariant,
    version immutability, atomic deletion, push-then-install, the public
    listing, the search pattern and the version order. *)

From S2P Require Import Prelude GoStrings GoStringsFacts Strconv Hardware GoTime MarketStore.
From S2P Require Import MarketStoreProofs.
From Stdlib Require Import ZArith Lia ZifyBool Bool Ascii String SpecFloat.
From stdpp Require Import base option list gmap strings.

Open Scope go_scope.
Open Scope Z_scope.

(** ** Pushing *)

Section push.
Context {U : GoUnicode} {Q : SqlEnv}.

(** What a push by [owner] does to the database it started from. *)
Definition evo (owner : string) (d0 : DB) (db : DB) : Prop :=
  db_wf d0 ∧ evolved d0 db ∧ foreign owner d0 db.

Lemma evo_step owner d0 db db' :
  evo owner d0 db → (db_wf db → evolved db db' ∧ foreign owner db db') → evo owner d0 db'.
Proof.
  intros (Hwf & He & Hf) Hs. destruct (Hs (ev_wf _ _ He)) as [He' Hf']. split; [done|].
  split; [by eapply evolved_trans|by eapply foreign_trans].
Qed.

(** What [authorID] promises of the id it returns. *)
Definition author_ok (eoa : string) (d0 : DB) (r : result store_err Z) (db : DB) : Prop :=
  evo (to_lower eoa) d0 db ∧ match r with
              | Ok id => ∃ au, au ∈ authors db ∧ au_id au = id ∧ au_eoa au = to_lower eoa
              | Err _ => True
              end.

Lemma select_author_triple d0 eoa :
  triple (evo (to_lower eoa) d0)
    (query_row (λ db, au_id <$> find (λ r, au_eoa r =s? to_lower eoa) (authors db)))
    (author_ok eoa d0).
Proof.
  apply triple_stmt; [|done]. intros db Hd. destruct (find _ _) as [r|] eqn:Hf; [|done].
  split; [done|]. apply find_some in Hf as [Hr He%String.eqb_eq].
  exists r. split; [by apply list_elem_of_In|done].
Qed.

Lemma authorID_triple d0 eoa : triple (evo (to_lower eoa) d0) (authorID eoa) (author_ok eoa d0).
Proof.
  pose (caught := λ (r : result store_err (result store_err Z)) db, match r with Ok x => author_ok eoa d0 x db | Err _ => evo (to_lower eoa) d0 db end).
  unfold authorID. apply triple_bind with (R := caught); [| |by intros e db Hd; split].
  { eapply triple_catch; [apply select_author_triple|by intros r db]. }
  intros [id|e]; [by apply triple_ret|].
  destruct e; try (apply triple_raise; by intros db []).
  apply triple_bind with (R := caught); [| |by intros e db Hd; split].
  { apply triple_catch with (R := author_ok eoa d0); [|by intros r db].
    apply triple_stmt; [|by intros msg db []].
    intros db [Hd _].
    assert (db_wf db → evolved db (insert_author (to_lower eoa) db).2 ∧
      foreign (to_lower eoa) db (insert_author (to_lower eoa) db).2) as He
      by (split; [by apply evolved_insert_author|apply foreign_insert_author]).
    revert He. unfold insert_author. destruct (existsb _ _); intros He; [done|].
    split; [by eapply evo_step|]. eexists. split; [apply elem_of_app; right; by left|done]. }
  intros [id|e]; [by apply triple_ret|].
  apply triple_bind with (R := caught); [| |by intros e2 db Hd; split].
  { eapply triple_catch; [|by intros r db].
    eapply triple_weaken; [apply select_author_triple|by intros db []|by intros r db]. }
  intros [id|e2]; [by apply triple_ret|apply triple_raise; by intros db []].
Qed.

(** The asset row [id] of the pushed name exists. *)
Definition has_asset (inp : PushInput) (author id : Z) (db : DB) : Prop :=
  (∃ au, au ∈ authors db ∧ au_id au = author ∧ au_eoa au = to_lower (pi_Author inp)) ∧
  ∃ a, a ∈ assets db ∧ as_id a = id ∧ as_type a = pi_Type inp ∧ as_author_id a = author ∧
       as_name a = am_Name (pi_Meta inp).

Lemma has_asset_owned inp author id db : has_asset inp author id db → owned (to_lower (pi_Author inp)) id db.
Proof.
  intros [(au & Hau & Hid & He) (a & Ha & Haid & _ & Hx & _)]. exists a, au. split_and!; try done. congruence.
Qed.

(** The pushed version is stored under the pushed name. *)
Definition published (inp : PushInput) (author id : Z) (db : DB) : Prop :=
  has_asset inp author id db ∧
  ∃ v, v ∈ versions db ∧ v_asset_id v = id ∧ v_version v = am_Version (pi_Meta inp) ∧
       v_body v = pi_RecipeBody inp ∧ v_sha256 v = pi_SHA256 inp.

Lemma has_asset_update inp author id id' f db :
  keeps_keys f → has_asset inp author id db → has_asset inp author id (update_asset id' f db).
Proof.
  intros Hf [Hau (a & Ha & Hid & Ht & Hx & Hn)]. split; [done|].
  exists (if as_id a =? id' then f a else a). split; [apply elem_of_update; by exists a|].
  case_if; [|done]. destruct (Hf a) as [-> Hk]. unfold asset_key in Hk.
  injection Hk as Hk1 Hk2 Hk3. split_and!; congruence.
Qed.

Lemma published_update inp author id id' f db :
  keeps_keys f → published inp author id db → published inp author id (update_asset id' f db).
Proof. intros Hf [Ha Hv]. split; [by apply has_asset_update|done]. Qed.

Lemma find_or_insert_triple d0 inp author now :
  let au_ok db := ∃ au, au ∈ authors db ∧ au_id au = author ∧ au_eoa au = to_lower (pi_Author inp) in
  triple (λ db, evo (to_lower (pi_Author inp)) d0 db ∧ au_ok db)
    (let* row := catch (query_row (λ db, as_id <$> asset_by_key db (pi_Type inp) author
                                                     (am_Name (pi_Meta inp)))) in
     match row with
     | Ok id => ret id
     | Err ErrNoRows => stmt (insert_asset (pi_Type inp) author (pi_Meta inp) now)
     | Err e => raise e
     end)
    (λ r db, evo (to_lower (pi_Author inp)) d0 db ∧ match r with Ok id => has_asset inp author id db | Err _ => True end).
Proof.
  intros au_ok.
  eapply triple_bind with (R := λ r db, (evo (to_lower (pi_Author inp)) d0 db ∧ au_ok db) ∧
    match r with Ok (Ok id) => has_asset inp author id db | _ => True end).
  - eapply triple_catch with (R := λ r db, (evo (to_lower (pi_Author inp)) d0 db ∧ au_ok db) ∧
      match r with Ok id => has_asset inp author id db | _ => True end); [|by intros [] db].
    apply triple_stmt; [|done]. intros db Hd. unfold asset_by_key.
    destruct (find _ _) as [a|] eqn:Hf; [|done]. simpl. split; [done|]. split; [apply Hd|].
    apply find_some in Hf as [Ha Hf]. breflect_all. exists a. split; [by apply list_elem_of_In|done].
  - intros [id|e]; [apply triple_ret; by intros db [[]]|].
    destruct e; [apply triple_raise; by intros db [[]].. | |apply triple_raise; by intros db [[]]].
    apply triple_stmt; [|by intros msg db [[]]]. intros db [[Hd Hau] _].
    assert (∃ r, r ∈ authors db ∧ au_id r = author) as Hex by (destruct Hau as (au & ? & ? & _); eauto).
    assert (evo (to_lower (pi_Author inp)) d0 (insert_asset (pi_Type inp) author (pi_Meta inp) now db).2) as Hd'
      by (eapply evo_step; [done|]; intros Hwf; split;
          [by apply evolved_insert_asset|apply foreign_insert_asset]).
    revert Hd'. unfold insert_asset. destruct (existsb _ _); [done|]. intros Hd'. split; [done|].
    split; [done|]. simpl. eexists. split; [apply elem_of_app; right; by left|done].
  - by intros e db [[]].
Qed.

Lemma insert_version_triple d0 inp author id now :
  triple (λ db, evo (to_lower (pi_Author inp)) d0 db ∧ has_asset inp author id db)
    (stmt (insert_version id (am_Version (pi_Meta inp)) (pi_SHA256 inp) (pi_RecipeBody inp) now))
    (λ r db, evo (to_lower (pi_Author inp)) d0 db ∧ match r with Ok _ => published inp author id db | Err _ => True end).
Proof.
  apply triple_stmt; [|by intros msg db []]. intros db [Hd Ha].
  assert (∃ a, a ∈ assets db ∧ as_id a = id) as Hex by (destruct Ha as (_ & a & ? & ? & _); eauto).
  assert (evo (to_lower (pi_Author inp)) d0 (insert_version id (am_Version (pi_Meta inp)) (pi_SHA256 inp)
                    (pi_RecipeBody inp) now db).2) as Hd'
    by (eapply evo_step; [done|]; intros Hwf; split;
        [by apply evolved_insert_version|apply foreign_insert_version; [done|by eapply has_asset_owned]]).
  revert Hd'. unfold insert_version. destruct (existsb _ _); [done|]. intros Hd'. split; [done|].
  split; [done|]. simpl. eexists. split; [apply elem_of_app; right; by left|done].
Qed.

Lemma refresh_triple d0 inp author id now :
  triple (λ db, evo (to_lower (pi_Author inp)) d0 db ∧ published inp author id db) (refreshLatest id (pi_Meta inp) now)
    (λ r db, evo (to_lower (pi_Author inp)) d0 db ∧ published inp author id db).
Proof.
  unfold refreshLatest. eapply triple_bind with (R := λ _ db, evo (to_lower (pi_Author inp)) d0 db ∧ published inp author id db);
    [by apply triple_stmt| |done].
  intros vs. case_if; (apply triple_stmt; [|done]); intros db [Hd Hp];
    (split; [|by apply published_update]; eapply evo_step; [done|]; intros Hwf; split;
     [by apply evolved_update|apply foreign_update; [done|by eapply has_asset_owned, Hp]]).
Qed.

Lemma triple_assoc {A B C} P (m : M A) (k : A → M B) (h : B → M C) R :
  triple P (bind (bind m k) h) R → triple P (bind m (λ x, bind (k x) h)) R.
Proof.
  intros Ht db fs HP. specialize (Ht db fs HP). unfold bind in *.
  by destruct (m db fs) as [[[a|e] db'] fs'].
Qed.

(** A program that leaves the database alone keeps what is known of it. *)
Lemma triple_read {A} P (m : M A) : keeps eq m → triple P m (λ _, P).
Proof.
  intros Hk db fs HP. specialize (Hk db fs). destruct (m db fs) as [[r db'] fs']. by subst.
Qed.

Lemma PutAsset_triple d0 inp now :
  triple (evo (to_lower (pi_Author inp)) d0) (PutAsset inp now)
    (λ r db, evo (to_lower (pi_Author inp)) d0 db ∧ match r with Ok _ => ∃ author id, published inp author id db | Err _ => True end).
Proof.
  unfold PutAsset. eapply triple_bind; [apply authorID_triple| |by intros e db []].
  intros author. apply triple_assoc. eapply triple_bind; [apply find_or_insert_triple| |by intros e db []].
  intros id.
  apply triple_bind with (R := λ r db, evo (to_lower (pi_Author inp)) d0 db ∧ match r with Ok (Ok _) => published inp author id db | _ => True end);
    [| |by intros e db []].
  { eapply triple_catch; [apply insert_version_triple|done]. }
  intros [[]|e]; [|case_if; by (apply triple_raise; intros db [])].
  eapply triple_bind; [apply refresh_triple| |by intros e db []].
  intros []. eapply triple_bind; [apply triple_read, GetAsset_keeps, _| |by intros e db []].
  intros a. apply triple_ret. intros db [Hd Hp]. eauto.
Qed.
End push.

(** ** Histories *)

(** The operations of the Store interface with their arguments; the time is
    what the database's now() yields. *)
Inductive store_op :=
  | OpPut (inp : PushInput)
  | OpVisibility (typ eoa name visibility : string)
  | OpPrice (typ eoa name price : string) (token : option string)
  | OpMeta (typ eoa name : string) (tags summary : option string)
  | OpDelete (typ eoa name : string)
  | OpIncr (typ eoa name : string)
  | OpList (f : ListFilter)
  | OpMine (eoa : string) (f : ListFilter)
  | OpGet (typ eoa name version : string)
  | OpVersions (typ eoa name : string)
  | OpRecipe (typ eoa name version : string).

Section histories.
Context {U : GoUnicode} {Q : SqlEnv}.

(** The database after one operation at [now] under a failure schedule. *)
Definition run_op (db : DB) (o : store_op * string * schedule) : DB :=
  let '(op, now, fs) := o in
  match op with
  | OpPut inp => (PutAsset inp now db fs).1.2
  | OpVisibility typ eoa name vis => (SetVisibility typ eoa name vis now db fs).1.2
  | OpPrice typ eoa name price token => (SetPrice typ eoa name price token now db fs).1.2
  | OpMeta typ eoa name tags summary => (SetMeta typ eoa name tags summary now db fs).1.2
  | OpDelete typ eoa name => (DeleteAsset typ eoa name db fs).1.2
  | OpIncr typ eoa name => (IncrDownloads typ eoa name db fs).1.2
  | OpList f => (ListAssets f db fs).1.2
  | OpMine eoa f => (ListMine eoa f db fs).1.2
  | OpGet typ eoa name version => (GetAsset typ eoa name version db fs).1.2
  | OpVersions typ eoa name => (ListVersions typ eoa name db fs).1.2
  | OpRecipe typ eoa name version => (GetRecipe typ eoa name version db fs).1.2
  end.

Definition run_store (h : list (store_op * string * schedule)) (db : DB) : DB := fold_left run_op h db.

Lemma safe_run {A} (m : M A) db fs : safe m → db_wf db → evolved db (m db fs).1.2.
Proof.
  intros Hs Hwf. specialize (Hs db db fs (conj eq_refl Hwf)). by destruct (m db fs) as [[r db'] fs'].
Qed.

Lemma keeps_eq_run {A} (m : M A) db fs : keeps eq m → db_wf db → evolved db (m db fs).1.2.
Proof.
  intros Hk Hwf. specialize (Hk db fs). destruct (m db fs) as [[r db'] fs']. subst.
  by apply evolved_refl.
Qed.

Lemma PutAsset_safe inp now : safe (PutAsset inp now).
Proof.
  intros d0. eapply triple_weaken; [apply (PutAsset_triple d0)| |by intros r db [(_ & He & _) _]].
  intros db [-> Hwf]. split; [done|]. split; [by apply evolved_refl|apply foreign_refl].
Qed.

Lemma run_op_evolved db o : db_wf db → evolved db (run_op db o).
Proof.
  intros Hwf. destruct o as [[[] now] fs]; simpl.
  - apply safe_run, Hwf. apply PutAsset_safe.
  - apply safe_run, Hwf. apply SetVisibility_safe.
  - apply safe_run, Hwf. apply SetPrice_safe.
  - apply safe_run, Hwf. apply SetMeta_safe.
  - apply safe_run, Hwf. apply DeleteAsset_safe.
  - apply safe_run, Hwf. apply IncrDownloads_safe.
  - apply keeps_eq_run, Hwf. apply list_assets_keeps, _.
  - apply keeps_eq_run, Hwf. apply list_assets_keeps, _.
  - apply keeps_eq_run, Hwf. apply GetAsset_keeps, _.
  - apply keeps_eq_run, Hwf. apply ListVersions_keeps, _.
  - apply keeps_eq_run, Hwf. apply GetRecipe_keeps, _.
Qed.

Lemma run_store_evolved h db : db_wf db → evolved db (run_store h db).
Proof.
  revert db. induction h as [|o h IH]; intros db Hwf; [by apply evolved_refl|].
  apply evolved_trans with (run_op db o); [done|by apply run_op_evolved|].
  apply IH, ev_wf with db. by apply run_op_evolved.
Qed.

Lemma run_store_wf h : db_wf (run_store h empty_db).
Proof. eapply ev_wf, run_store_evolved, wf_empty. Qed.

(** From the empty database, after any history of store operations under any
    schedule of statement failures: author addresses are unique, an asset is
    unique under (type, author, name) and its author exists, a version is
    unique under its asset, and every version row belongs to an existing
    asset. *)
Theorem store_invariant (h : list (store_op * string * schedule)) :
  let db := run_store h empty_db in
  NoDup (map au_eoa (authors db)) ∧
  NoDup (map asset_key (assets db)) ∧
  (∀ a, a ∈ assets db → ∃ au, au ∈ authors db ∧ au_id au = as_author_id a) ∧
  NoDup (map version_key (versions db)) ∧
  (∀ v, v ∈ versions db → ∃ a, a ∈ assets db ∧ as_id a = v_asset_id v).
Proof. by destruct (run_store_wf h) as [[] ?]. Qed.

(** C2: Published versions are immutable: whatever operations follow and
    whichever statements fail, a version row stays in the database byte for
    byte, unless its whole asset is gone — and an asset id that is gone never
    comes back, so a deleted version is not served again under it. *)
Theorem versions_immutable (h1 h2 : list (store_op * string * schedule)) (v : VersionRow) :
  v ∈ versions (run_store h1 empty_db) →
  let db := run_store h2 (run_store h1 empty_db) in
  (v ∈ versions db ∨
   (v_asset_id v ∉ map as_id (assets db)) ∧ (∀ w, w ∈ versions db → v_asset_id w ≠ v_asset_id v)) ∧
  (∀ a b, a ∈ assets (run_store h1 empty_db) → b ∈ assets db → as_id a = as_id b →
     asset_key a = asset_key b).
Proof.
  intros Hv db. pose proof (run_store_evolved h2 _ (run_store_wf h1)) as He. fold db in He.
  split; [|apply (ev_keys _ _ He)]. destruct (ev_versions _ _ He v Hv) as [|Hg]; [by left|right].
  split; [done|]. intros w Hw Heq. apply Hg. rewrite <-Heq.
  destruct (wf_version_asset _ (ev_wf _ _ He) w Hw) as (a & Ha & <-). by apply as_id_elem.
Qed.
End histories.

(** ** What a push does when no statement fails *)

Section push_run.
Context {U : GoUnicode} {Q : SqlEnv}.

(** The part of [PutAsset] after the asset id is known. *)
Definition put_version (inp : PushInput) (now : string) (assetID : Z) : M (option Asset) :=
  let* res := catch (stmt (insert_version assetID (am_Version (pi_Meta inp)) (pi_SHA256 inp)
                             (pi_RecipeBody inp) now)) in
  match res with
  | Err e => if isUniqueViolation e then raise ErrVersionExists else raise e
  | Ok _ =>
      let* _ := refreshLatest assetID (pi_Meta inp) now in
      let* a := GetAsset (pi_Type inp) (pi_Author inp) (am_Name (pi_Meta inp)) "" in
      ret (fst <$> a)
  end.

(** The row an asset's push leaves under the asset's key. *)
Definition pushed_row (inp : PushInput) (now : string) (a : AssetRow) (db : DB) : AssetRow :=
  let latest := latest_of (map v_version
    (row_order (filter (λ v, v_asset_id v = as_id a) (versions db)))) in
  if latest =s? am_Version (pi_Meta inp) then set_latest_meta latest (pi_Meta inp) now a
  else set_latest latest now a.

Lemma unique_is_violation `{!GoUnicodeLaws U} : isUniqueViolation (EDriver unique_msg) = true.
Proof. unfold isUniqueViolation. rewrite to_lower_is_ascii by done. reflexivity. Qed.

Lemma put_version_dup `{!GoUnicodeLaws U} inp now id db :
  existsb (λ v, (v_asset_id v =? id) && (v_version v =s? am_Version (pi_Meta inp))) (versions db) = true →
  put_version inp now id db [] = (Err ErrVersionExists, db, []).
Proof.
  intros He. unfold put_version, bind, catch, stmt, insert_version. rewrite He.
  cbv beta iota zeta. by rewrite unique_is_violation.
Qed.

Lemma GetAsset_run typ eoa name db r :
  asset_joined db typ (to_lower eoa) name = Some r →
  ∃ vs, GetAsset typ eoa name "" db [] = (Ok (Some (scanAsset r, vs)), db, []).
Proof.
  intros Hr. unfold GetAsset, bind, catch, query_row, query, stmt. rewrite Hr. simpl.
  unfold ListVersions, bind, query, stmt. rewrite Hr. destruct r. simpl. by eexists.
Qed.

Lemma GetRecipe_run typ eoa name version db a au v :
  db_wf db → asset_joined db typ (to_lower eoa) name = Some (a, au) → version ≠ ""%string →
  v ∈ versions db → v_asset_id v = as_id a → v_version v = version →
  GetRecipe typ eoa name version db [] = (Ok (Some (v_body v, v_sha256 v, as_visibility a)), db, []).
Proof.
  intros Hwf Hr Hne Hv Hid Hver. unfold GetRecipe. apply String.eqb_neq in Hne. rewrite Hne.
  unfold bind, catch, query_row, stmt. rewrite Hr.
  rewrite (find_unique _ _ v Hv); [done| |].
  - by rewrite Hid, Hver, Z.eqb_refl, String.eqb_refl.
  - intros y Hy Hk. breflect_all. eapply (NoDup_map_inj version_key); [apply (wf_version_key _ Hwf)|done..|].
    unfold version_key. congruence.
Qed.

Lemma keeps_keys_pushed inp now a db : keeps_keys (λ b, pushed_row inp now b db) ∧
  as_visibility (pushed_row inp now a db) = as_visibility a.
Proof. split; [intros b|]; unfold pushed_row; by case_if. Qed.

Lemma put_version_new inp now db a au :
  db_wf db → a ∈ assets db → au ∈ authors db → au_id au = as_author_id a →
  as_type a = pi_Type inp → au_eoa au = to_lower (pi_Author inp) → as_name a = am_Name (pi_Meta inp) →
  existsb (λ v, (v_asset_id v =? as_id a) && (v_version v =s? am_Version (pi_Meta inp))) (versions db) = false →
  let db1 := (insert_version (as_id a) (am_Version (pi_Meta inp)) (pi_SHA256 inp) (pi_RecipeBody inp) now db).2 in
  let db' := update_asset (as_id a) (λ b, pushed_row inp now b db1) db1 in
  let a' := pushed_row inp now a db1 in
  put_version inp now (as_id a) db [] = (Ok (Some (scanAsset (a', au))), db', []) ∧
  db_wf db' ∧
  asset_joined db' (pi_Type inp) (to_lower (pi_Author inp)) (am_Name (pi_Meta inp)) = Some (a', au) ∧
  (am_Version (pi_Meta inp) ≠ ""%string →
   GetRecipe (pi_Type inp) (pi_Author inp) (am_Name (pi_Meta inp)) (am_Version (pi_Meta inp)) db' [] =
     (Ok (Some (pi_RecipeBody inp, pi_SHA256 inp, as_visibility a)), db', [])).
Proof.
  intros Hwf Ha Hau Hid Ht He Hn Hv db1 db' a'.
  destruct (keeps_keys_pushed inp now a db1) as [Hkk Hvis].
  assert (db_wf db') as Hwf' by (apply wf_update_asset, wf_insert_version; eauto).
  assert (assets db1 = assets db ∧ authors db1 = authors db) as [Ea Eau]
    by (unfold db1, insert_version; rewrite Hv; done).
  assert (a' ∈ assets db') as Ha'.
  { apply elem_of_update. exists a. rewrite Ea. split; [done|]. by rewrite Z.eqb_refl. }
  destruct (Hkk a) as [Hki Hkey]. injection Hkey as Hk1 Hk2 Hk3.
  assert (asset_joined db' (pi_Type inp) (to_lower (pi_Author inp)) (am_Name (pi_Meta inp))
          = Some (a', au)) as Hj.
  { rewrite <-Ht, <-He, <-Hn, <-Hk1, <-Hk3. apply asset_joined_spec; [done..| |unfold a'; congruence].
    change (authors db') with (authors db1). by rewrite Eau. }
  split_and!; [|done|done|].
  - destruct (GetAsset_run _ _ _ _ _ Hj) as [vs Hg].
    assert (stmt (insert_version (as_id a) (am_Version (pi_Meta inp)) (pi_SHA256 inp)
                    (pi_RecipeBody inp) now) db [] = (Ok tt, db1, [])) as E1.
    { unfold stmt, db1, insert_version. by rewrite Hv. }
    assert (refreshLatest (as_id a) (pi_Meta inp) now db1 [] = (Ok tt, db', [])) as E2.
    { unfold refreshLatest, bind, query, exec, stmt, db', update_asset, set_assets. simpl.
      destruct (_ =s? am_Version _) eqn:Hc; simpl; do 3 f_equal; apply map_ext_in; intros b _;
        destruct (as_id b =? as_id a) eqn:Hb; try done; apply Z.eqb_eq in Hb; unfold pushed_row;
        by rewrite Hb, Hc. }
    unfold put_version, bind at 1, catch. rewrite E1. unfold bind at 1. rewrite E2.
    unfold bind at 1. by rewrite Hg.
  - intros Hne. rewrite <-Hvis.
    pose (v := mkVersionRow (next_version db) (as_id a) (am_Version (pi_Meta inp)) (pi_SHA256 inp)
                 (pi_RecipeBody inp) now).
    apply (GetRecipe_run _ _ _ _ db' _ au v); [done..| |done|done].
    change (versions db') with (versions db1). unfold db1, insert_version. rewrite Hv.
    apply elem_of_app. right. by left.
Qed.

(** [authorID] without failures: the id of the one author row of the address,
    inserted if it was not there. *)
Lemma authorID_run eoa db :
  db_wf db → ∃ au db1, authorID eoa db [] = (Ok (au_id au), db1, []) ∧ db_wf db1 ∧
    assets db1 = assets db ∧ versions db1 = versions db ∧ next_asset db1 = next_asset db ∧
    au ∈ authors db1 ∧ au_eoa au = to_lower eoa ∧
    ((db1 = db ∧ au ∈ authors db) ∨
     (authors db1 = authors db ++ [au] ∧ ∀ r, r ∈ authors db → au_eoa r ≠ to_lower eoa)).
Proof.
  intros Hwf. unfold authorID, bind, catch, query_row, stmt.
  destruct (find (λ r, au_eoa r =s? to_lower eoa) (authors db)) as [au|] eqn:Hf; simpl.
  - apply find_some in Hf as [Hin He%String.eqb_eq]. apply list_elem_of_In in Hin.
    exists au, db. split_and!; auto.
  - assert (existsb (λ r, au_eoa r =s? to_lower eoa) (authors db) = false) as Hex.
    { apply not_true_iff_false. intros (r & Hr & Hp)%existsb_exists.
      by rewrite (find_none _ _ Hf r Hr) in Hp. }
    pose proof (wf_insert_author (to_lower eoa) db Hwf) as Hwf'. unfold insert_author in *.
    rewrite Hex in *. eexists (mkAuthor _ _ None), _. split; [reflexivity|].
    split_and!; try done; [apply elem_of_app; right; by left|right].
    split; [done|]. intros r Hr%list_elem_of_In He. pose proof (find_none _ _ Hf r Hr) as Hn.
    cbv beta in Hn. by rewrite He, String.eqb_refl in Hn.
Qed.

Lemma asset_by_key_joined db typ name au :
  db_wf db → au ∈ authors db →
  asset_by_key db typ (au_id au) name = fst <$> asset_joined db typ (au_eoa au) name.
Proof.
  intros Hwf Hau. destruct (asset_joined db typ (au_eoa au) name) as [[a au']|] eqn:Hj; simpl.
  - apply asset_joined_Some in Hj as (Ha & Hau' & Hid & <- & He & <-).
    assert (au' = au) as -> by (by eapply (NoDup_map_inj au_eoa); [apply (wf_eoa _ Hwf)|..]).
    apply find_unique; [done|by rewrite Hid, !String.eqb_refl, Z.eqb_refl|].
    intros y Hy Hk. breflect_all. eapply (NoDup_map_inj asset_key); [apply (wf_asset_key _ Hwf)|done..|].
    unfold asset_key. congruence.
  - destruct (asset_by_key db typ (au_id au) name) as [a|] eqn:Hf; [|done]. exfalso.
    apply find_some in Hf as [Ha Hk]. apply list_elem_of_In in Ha. breflect_all.
    by apply (asset_joined_None _ _ _ _ a au Hj).
Qed.

(** The part of [PutAsset] that finds or inserts the asset row. *)
Definition put_find (inp : PushInput) (now : string) (author : Z) : M Z :=
  let* row := catch (query_row (λ db, as_id <$> asset_by_key db (pi_Type inp) author
                                                 (am_Name (pi_Meta inp)))) in
  match row with
  | Ok id => ret id
  | Err ErrNoRows => stmt (insert_asset (pi_Type inp) author (pi_Meta inp) now)
  | Err e => raise e
  end.

Lemma PutAsset_steps inp now db author db1 id db2 :
  authorID (pi_Author inp) db [] = (Ok author, db1, []) →
  put_find inp now author db1 [] = (Ok id, db2, []) →
  PutAsset inp now db [] = put_version inp now id db2 [].
Proof.
  intros Hrun Hf. unfold PutAsset. unfold bind at 1. rewrite Hrun. revert Hf.
  unfold put_find. unfold bind at 1. intros Hf. unfold bind at 1.
  destruct (catch _ db1 []) as [[[row|e] d] f]; [|done]. unfold bind at 1. by rewrite Hf.
Qed.

Lemma authorID_keeps_join eoa db au db1 typ name :
  db_wf db → db_wf db1 → assets db1 = assets db → au ∈ authors db1 → au_eoa au = to_lower eoa →
  (db1 = db ∧ au ∈ authors db) ∨
    (authors db1 = authors db ++ [au] ∧ ∀ r, r ∈ authors db → au_eoa r ≠ to_lower eoa) →
  asset_joined db1 typ (to_lower eoa) name = asset_joined db typ (to_lower eoa) name.
Proof.
  intros Hwf Hwf1 Ea Hau He [[-> _]|[Happ Hnew]]; [done|].
  destruct (asset_joined db _ _ _) as [[a r]|] eqn:Hj.
  - apply asset_joined_Some in Hj as (_ & Hr & _ & _ & Heo & _). by apply Hnew in Hr.
  - destruct (asset_joined db1 _ _ _) as [[a r]|] eqn:Hj1; [|done]. exfalso.
    apply asset_joined_Some in Hj1 as (Ha & Hr & Hid & _ & Heo & _). rewrite Ea in Ha.
    destruct (wf_asset_author _ Hwf a Ha) as (r' & Hr' & Hid').
    apply (Hnew r' Hr'). rewrite <-Heo. f_equal.
    eapply (NoDup_map_inj au_id); [apply (wf_author_ids _ Hwf1)| |done|congruence].
    rewrite Happ. apply elem_of_app. by left.
Qed.

(** [put_find] without failures: the row found, or a new private one. *)
Lemma put_find_run inp now db1 au :
  db_wf db1 → au ∈ authors db1 → au_eoa au = to_lower (pi_Author inp) →
  ∃ a db2, put_find inp now (au_id au) db1 [] = (Ok (as_id a), db2, []) ∧ db_wf db2 ∧
    a ∈ assets db2 ∧ authors db2 = authors db1 ∧ versions db2 = versions db1 ∧
    au_id au = as_author_id a ∧ as_type a = pi_Type inp ∧ as_name a = am_Name (pi_Meta inp) ∧
    match asset_joined db1 (pi_Type inp) (au_eoa au) (am_Name (pi_Meta inp)) with
    | Some (o, _) => a = o ∧ db2 = db1
    | None => as_visibility a = "private"%string ∧ as_id a = next_asset db1 ∧ as_price a = "0"%string ∧ as_token a = None
    end.
Proof.
  intros Hwf Hau He. unfold put_find, bind, catch, query_row, stmt.
  pose proof (asset_by_key_joined db1 (pi_Type inp) (am_Name (pi_Meta inp)) au Hwf Hau) as Hkey.
  rewrite Hkey. destruct (asset_joined db1 _ _ _) as [[a au']|] eqn:Hj; simpl.
  - apply asset_joined_Some in Hj as (Ha & Hau' & Hid & Ht & Heo & Hn).
    assert (au' = au) as -> by (by eapply (NoDup_map_inj au_eoa); [apply (wf_eoa _ Hwf)|..]).
    by exists a, db1.
  - pose proof (wf_insert_asset (pi_Type inp) (au_id au) (pi_Meta inp) now db1 Hwf
                  (ex_intro _ au (conj Hau eq_refl))) as Hwf2. revert Hwf2. unfold insert_asset.
    destruct (existsb _ _) eqn:Hex.
    + exfalso. apply existsb_exists in Hex as (y & Hy & Hk).
      by rewrite (find_none _ _ Hkey y Hy) in Hk.
    + intros Hwf2. eexists (mkAssetRow _ _ _ _ _ _ _ _ _ _ _ _ _ _ _ _), _.
      split; [reflexivity|]. split_and!; try done. apply elem_of_app. right. by left.
Qed.

(** The version is already published under the pushed name. *)
Definition already_published (inp : PushInput) (db : DB) : bool :=
  match asset_joined db (pi_Type inp) (to_lower (pi_Author inp)) (am_Name (pi_Meta inp)) with
  | Some (a, _) => existsb (λ v, (v_asset_id v =? as_id a) &&
                                 (v_version v =s? am_Version (pi_Meta inp))) (versions db)
  | None => false
  end.

(** A push up to its INSERT of the version: the asset row is there, the one of
    the name or a new private one, and the push goes on from [db2]. *)
Lemma put_prepared (inp : PushInput) (now : string) (db : DB) :
  db_wf db →
  ∃ a au db2, PutAsset inp now db [] = put_version inp now (as_id a) db2 [] ∧ db_wf db2 ∧
    a ∈ assets db2 ∧ au ∈ authors db2 ∧ au_id au = as_author_id a ∧ as_type a = pi_Type inp ∧
    au_eoa au = to_lower (pi_Author inp) ∧ as_name a = am_Name (pi_Meta inp) ∧ versions db2 = versions db ∧
    existsb (λ v, (v_asset_id v =? as_id a) && (v_version v =s? am_Version (pi_Meta inp))) (versions db2)
      = already_published inp db ∧
    match asset_joined db (pi_Type inp) (to_lower (pi_Author inp)) (am_Name (pi_Meta inp)) with
    | Some (o, _) => a = o ∧ db2 = db
    | None => as_visibility a = "private"%string ∧ as_id a = next_asset db ∧ as_price a = "0"%string ∧ as_token a = None
    end.
Proof.
  intros Hwf.
  destruct (authorID_run (pi_Author inp) db Hwf) as (au & db1 & Hrun & Hwf1 & Ea & Ev & En & Hau & He & Hor).
  pose proof (authorID_keeps_join (pi_Author inp) db au db1 (pi_Type inp) (am_Name (pi_Meta inp))
    Hwf Hwf1 Ea Hau He Hor) as Hold.
  destruct (put_find_run inp now db1 au Hwf1 Hau He)
    as (a & db2 & Hfind & Hwf2 & Ha & Eau & Ev2 & Hid & Ht & Hn & Hcase).
  rewrite He, Hold in Hcase. exists a, au, db2. unfold already_published.
  split; [by apply PutAsset_steps with (au_id au) db1|]. rewrite Ev2, Ev.
  split_and!; try done; [by rewrite Eau| |].
  - destruct (asset_joined db _ _ _) as [[o r]|]; [by destruct Hcase as [-> _]|].
    destruct Hcase as (_ & Hnext & _). apply not_true_iff_false.
    intros (v & Hv & Hk)%existsb_exists. breflect_all. apply list_elem_of_In in Hv.
    pose proof (wf_version_next _ Hwf v Hv). lia.
  - destruct (asset_joined db _ _ _) as [[o r]|] eqn:Eold; [|by rewrite <-En].
    destruct Hcase as [-> ->]. split; [done|]. destruct Hor as [[]|[_ Hnew]]; [done|].
    apply asset_joined_Some in Eold as (_ & Hr & _ & _ & Heo & _). by apply Hnew in Hr.
Qed.

(** A push with no failing statement: if the version is already published it
    returns ErrVersionExists and leaves the database as it was; otherwise it
    succeeds with the asset under its (type, author, name), and an install of
    that version answers exactly the pushed body and digest, with the asset's
    visibility unchanged — private for a new asset. *)
Theorem push_then_install {L : GoUnicodeLaws U} (inp : PushInput) (now : string) (db : DB) :
  db_wf db → am_Version (pi_Meta inp) ≠ ""%string →
  let old := asset_joined db (pi_Type inp) (to_lower (pi_Author inp)) (am_Name (pi_Meta inp)) in
  let '(r, db', _) := PutAsset inp now db [] in
  if already_published inp db then r = Err ErrVersionExists ∧ db' = db
  else ∃ a, r = Ok (Some a) ∧ a_Type a = pi_Type inp ∧ a_Eoa a = to_lower (pi_Author inp) ∧
       a_Name a = am_Name (pi_Meta inp) ∧
       a_Visibility a = match old with Some (o, _) => as_visibility o | None => "private" end ∧
       GetRecipe (pi_Type inp) (pi_Author inp) (am_Name (pi_Meta inp)) (am_Version (pi_Meta inp)) db' []
       = (Ok (Some (pi_RecipeBody inp, pi_SHA256 inp, a_Visibility a)), db', []).
Proof.
  intros Hwf Hne old.
  destruct (put_prepared inp now db Hwf) as (a & au & db2 & Hput & Hwf2 & Ha & Hau & Hid & Ht & He & Hn & Ev & Hpub & Hcase).
  fold old in Hcase. rewrite Hput, <-Hpub. destruct (existsb _ (versions db2)) eqn:Eex.
  - rewrite put_version_dup by done. split; [done|]. symmetry in Hpub. unfold already_published in Hpub.
    fold old in Hpub. destruct old as [[o r]|]; [by destruct Hcase as [_ ->]|done].
  - destruct (put_version_new inp now db2 a au) as (Hp & _ & _ & Hg); try done.
    rewrite Hp. eexists. split; [done|]. specialize (Hg Hne).
    assert (as_visibility a = match old with Some (o, _) => as_visibility o | None => "private"%string end) as Hv
      by (destruct old as [[o r]|]; [by destruct Hcase as [-> _]|by destruct Hcase]).
    rewrite <-Hv.
    match goal with |- context [pushed_row inp now a ?d] =>
      destruct (keeps_keys_pushed inp now a d) as [Hkk Hvis] end.
    destruct (Hkk a) as [_ Hk]. injection Hk as Hk1 _ Hk3. simpl in *. rewrite Hvis.
    split_and!; congruence.
Qed.
End push_run.

(** ** Deleting *)

Section delete.
Context {U : GoUnicode} {Q : SqlEnv}.

Lemma asset_joined_delete db typ eoa name a au t e n :
  db_wf db → asset_joined db typ eoa name = Some (a, au) →
  asset_joined (delete_asset_row (as_id a) (delete_versions (as_id a) db)) t e n =
  if (t =s? typ) && (e =s? eoa) && (n =s? name) then None else asset_joined db t e n.
Proof.
  intros Hwf Hj. set (db' := delete_asset_row _ _).
  assert (db_wf db') as Hwf' by (by apply wf_delete).
  apply asset_joined_Some in Hj as (Ha & Hau & Hid & Ht & He & Hn).
  destruct ((t =s? typ) && (e =s? eoa) && (n =s? name)) eqn:Ek.
  - breflect_all. destruct (asset_joined db' _ _ _) as [[b bu]|] eqn:Hb; [|done]. exfalso.
    apply asset_joined_Some in Hb as (Hin & Hbu & Hbid & Hbt & Hbe & Hbn).
    apply list_elem_of_filter in Hin as [Hne Hin].
    assert (bu = au) as -> by (eapply (NoDup_map_inj au_eoa); [apply (wf_eoa _ Hwf)|done|done|congruence]).
    apply Hne. f_equal. eapply (NoDup_map_inj asset_key); [apply (wf_asset_key _ Hwf)|done..|].
    unfold asset_key. congruence.
  - destruct (asset_joined db t e n) as [[b bu]|] eqn:Hb.
    + apply asset_joined_Some in Hb as (Hin & Hbu & Hbid & <- & <- & <-).
      apply asset_joined_spec; [done| |done..]. apply list_elem_of_filter. split; [|done].
      intros Heq. assert (b = a) as -> by (by eapply (NoDup_map_inj as_id); [apply (wf_asset_ids _ Hwf)|..]).
      assert (bu = au) as -> by (eapply (NoDup_map_inj au_id); [apply (wf_author_ids _ Hwf)|done|done|congruence]).
      by rewrite Ht, He, Hn, !String.eqb_refl in Ek.
    + destruct (asset_joined db' t e n) as [[b bu]|] eqn:Hb'; [|done]. exfalso.
      apply asset_joined_Some in Hb' as (Hin & Hbu & Hbid & Hk).
      apply list_elem_of_filter in Hin as [_ Hin]. by apply (asset_joined_None _ _ _ _ b bu Hb).
Qed.

Lemma absent_reads typ eoa name version db :
  asset_joined db typ (to_lower eoa) name = None →
  GetAsset typ eoa name version db [] = (Ok None, db, []) ∧
  GetRecipe typ eoa name version db [] = (Ok None, db, []) ∧
  ListVersions typ eoa name db [] = (Ok [], db, []).
Proof.
  intros Hn. unfold GetAsset, GetRecipe, ListVersions, bind, catch, query_row, query, stmt.
  split_and!; [by rewrite Hn| |by rewrite Hn].
  destruct (version =s? ""); simpl; by rewrite Hn.
Qed.

(** C9: Deleting an asset is atomic under every failure schedule: either nothing
    changed — and the answer "nothing to delete" is given only when there is no
    such asset — or the asset existed, is gone with all its versions from every
    read, and every other asset and every version of another asset is as it
    was. *)
Theorem delete_atomic (typ eoa name : string) (db : DB) (fs : schedule) :
  db_wf db →
  let '(r, db', _) := DeleteAsset typ eoa name db fs in
  (db' = db ∧ r ≠ Ok true ∧ (r = Ok false → asset_joined db typ (to_lower eoa) name = None)) ∨
  (r = Ok true ∧ ∃ a au, asset_joined db typ (to_lower eoa) name = Some (a, au) ∧
    (∀ version, GetAsset typ eoa name version db' [] = (Ok None, db', []) ∧
       GetRecipe typ eoa name version db' [] = (Ok None, db', []) ∧
       ListVersions typ eoa name db' [] = (Ok [], db', [])) ∧
    (∀ t e n, (t, e, n) ≠ (typ, to_lower eoa, name) → asset_joined db' t e n = asset_joined db t e n) ∧
    (∀ v, v ∈ versions db' ↔ v ∈ versions db ∧ v_asset_id v ≠ as_id a)).
Proof.
  intros Hwf. pose proof (DeleteAsset_cases typ eoa name db fs) as Hc.
  destruct (DeleteAsset typ eoa name db fs) as [[r db'] fs'].
  destruct Hc as [|(-> & a & au & Hj & ->)]; [by left|right]. split; [done|]. exists a, au.
  split; [done|]. split_and!.
  - intros version. apply absent_reads.
    by rewrite (asset_joined_delete db typ (to_lower eoa) name a au), !String.eqb_refl.
  - intros t e n Hne. rewrite (asset_joined_delete db typ (to_lower eoa) name a au) by done.
    destruct ((t =s? typ) && (e =s? to_lower eoa) && (n =s? name)) eqn:Ek; [|done].
    breflect_all. subst. by destruct Hne.
  - intros v. simpl. rewrite list_elem_of_filter. tauto.
Qed.
End delete.

(** ** Listing *)

Section listing.
Context {U : GoUnicode} {Q : SqlEnv}.

Lemma insert_before_perm {A} (before : A → A → bool) x l : insert_before before x l ≡ₚ x :: l.
Proof.
  induction l as [|y l IH]; [done|]. simpl. destruct (before y x); [|done]. rewrite IH. constructor.
Qed.

Lemma order_by_perm {A} (before : A → A → bool) l : order_by before l ≡ₚ l.
Proof.
  unfold order_by. induction l as [|x l IH]; [done|]. simpl. by rewrite insert_before_perm, IH.
Qed.

(** The rows a public listing is about. *)
Definition listed (f : ListFilter) (db : DB) : list (AssetRow * AuthorRow) :=
  filter (λ r, list_match f "" true r = true) (joined db).

Lemma listed_spec f db r : r ∈ listed f db ↔ r ∈ joined db ∧ list_match f "" true r = true.
Proof. unfold listed. rewrite list_elem_of_filter. tauto. Qed.

Lemma listed_public f db a au : (a, au) ∈ listed f db → as_visibility a = "public"%string.
Proof.
  intros [_ Hm]%listed_spec. simpl in Hm. do 5 apply andb_true_iff in Hm as [Hm _].
  by apply String.eqb_eq in Hm.
Qed.

Lemma joined_spec db a au :
  (a, au) ∈ joined db → a ∈ assets db ∧ au ∈ authors db ∧ au_id au = as_author_id a.
Proof.
  unfold joined. rewrite list_elem_of_omap. intros (x & Hx & He).
  destruct (author_of db (as_author_id x)) as [r|] eqn:Er; [|done]. injection He as -> ->.
  by apply author_of_Some in Er as [? ?].
Qed.

Definition ordered (f : ListFilter) (db : DB) : list (AssetRow * AuthorRow) :=
  order_by (list_before (lf_Sort f)) (row_order (listed f db)).

Lemma ordered_perm {QL : SqlEnvLaws Q} f db : ordered f db ≡ₚ listed f db.
Proof. unfold ordered. by rewrite order_by_perm, row_order_perm. Qed.

Lemma ListAssets_Ok f db fs items total db' fs' :
  ListAssets f db fs = (Ok (items, total), db', fs') →
  db' = db ∧ total = Z.of_nat (length (listed f db)) ∧
  ∃ limit offset, 1 ≤ limit ≤ 100 ∧ items = map scanAsset (limit_offset limit offset (ordered f db)).
Proof.
  unfold ListAssets, list_assets, bind, query, stmt, ret.
  set (lim := if (lf_Limit f <=? 0) || (100 <? lf_Limit f) then 20 else lf_Limit f).
  assert (1 ≤ lim ≤ 100) by (unfold lim; case_if; lia).
  destruct fs as [|[msg|] [|[msg'|] fs]]; simpl; intros [= <- <- <- <-]; eauto 10.
Qed.

(** The public listing shows public assets only: whatever the filter, page
    and failures, each item it returns is a public asset of the database that
    matches the filter, at most 100 of them; the total counts exactly the
    public matching assets; and the database is not changed. *)
Theorem listing_public_only {QL : SqlEnvLaws Q} (f : ListFilter) (db : DB) (fs : schedule) items total db' fs' :
  ListAssets f db fs = (Ok (items, total), db', fs') →
  db' = db ∧ total = Z.of_nat (length (listed f db)) ∧ (length items ≤ 100)%nat ∧
  ∀ x, x ∈ items → ∃ a au, a ∈ assets db ∧ au ∈ authors db ∧ au_id au = as_author_id a ∧
    as_visibility a = "public"%string ∧ list_match f "" true (a, au) = true ∧ x = scanAsset (a, au).
Proof.
  intros (-> & -> & limit & offset & Hl & ->)%ListAssets_Ok. split_and!; [done..| |].
  - rewrite length_map. unfold limit_offset. rewrite length_take. lia.
  - intros x ([a au] & <- & Hin)%list_elem_of_In%in_map_iff. apply list_elem_of_In in Hin.
    assert ((a, au) ∈ listed f db) as Hr.
    { rewrite <-ordered_perm. unfold limit_offset in Hin. apply elem_of_take in Hin as (i & Hi & _).
      rewrite lookup_drop in Hi. by eapply list_elem_of_lookup_2. }
    pose proof (listed_public _ _ _ _ Hr). apply listed_spec in Hr as [Hj Hm].
    apply joined_spec in Hj as (? & ? & ?). exists a, au. done.
Qed.

(** The same filter at page [p]. *)
Definition at_page (f : ListFilter) (p : Z) : ListFilter :=
  mkFilter (lf_Type f) (lf_Author f) (lf_Query f) (lf_Paid f) (lf_Sort f) p (lf_Limit f).

Definition page_items (f : ListFilter) (db : DB) (p : Z) : list Asset :=
  match (ListAssets (at_page f p) db []).1.1 with Ok (items, _) => items | Err _ => [] end.

Lemma page_items_run f db p :
  1 ≤ lf_Limit f ≤ 100 → 1 ≤ p → p * lf_Limit f ≤ max_i64 →
  page_items f db p =
    map scanAsset (take (Z.to_nat (lf_Limit f)) (drop (Z.to_nat ((p - 1) * lf_Limit f)) (ordered f db))).
Proof.
  intros Hl Hp Hmax. unfold page_items, ListAssets, list_assets, bind, query, stmt, ret. simpl.
  destruct (Z.ltb_spec p 1); [lia|].
  destruct (Z.leb_spec (lf_Limit f) 0); [lia|]. destruct (Z.ltb_spec 100 (lf_Limit f)); [lia|]. simpl.
  unfold max_i64 in Hmax.
  rewrite (wrap_i64_id (p - 1)) by (unfold in_i64, min_i64, max_i64; nia).
  rewrite wrap_i64_id by (unfold in_i64, min_i64, max_i64; nia). reflexivity.
Qed.

End listing.

(** ** A push that fails half-way *)

Section half_push.
Context {U : GoUnicode} {Q : SqlEnv}.

(** The row [insert_asset] adds, and what reads see of an asset row that has no
    version yet. *)
Definition fresh_row (typ : string) (author : Z) (m : AssetMeta) (now : string) (db : DB) : AssetRow :=
  mkAssetRow (next_asset db) typ author (am_Name m) (am_Version m) (am_Summary m) (am_License m)
    (am_MinIsann m) (join_str "," (am_Tags m)) "private" "0" None 0 None now now.

Lemma insert_asset_fresh typ au m now db :
  db_wf db → au ∈ authors db → asset_joined db typ (au_eoa au) (am_Name m) = None →
  let db' := (insert_asset typ (au_id au) m now db).2 in
  (insert_asset typ (au_id au) m now db).1 = Ok (next_asset db) ∧ db_wf db' ∧
  versions db' = versions db ∧
  asset_joined db' typ (au_eoa au) (am_Name m) = Some (fresh_row typ (au_id au) m now db, au).
Proof.
  intros Hwf Hau Hn db'.
  assert (db_wf db') as Hwf' by (apply wf_insert_asset; eauto).
  pose proof (asset_by_key_joined db typ (am_Name m) au Hwf Hau) as Hkey. rewrite Hn in Hkey.
  assert (∃ d, insert_asset typ (au_id au) m now db = (Ok (next_asset db), d) ∧ versions d = versions db ∧
    authors d = authors db ∧ assets d = assets db ++ [fresh_row typ (au_id au) m now db])
    as (d & Hins & Hv & Hauth & Has).
  { unfold insert_asset. destruct (existsb _ _) eqn:Hex; [|by eexists].
    apply existsb_exists in Hex as (y & Hy & Hk). by rewrite (find_none _ _ Hkey y Hy) in Hk. }
  unfold db' in *. rewrite Hins in *. cbn [fst snd] in *. split_and!; [done..|].
  apply (asset_joined_spec d (fresh_row typ (au_id au) m now db) au); [done| | |done].
  - rewrite Has. apply elem_of_app. right. by left.
  - by rewrite Hauth.
Qed.

Lemma no_versions_reads {QL : SqlEnvLaws Q} typ eoa name db a au :
  asset_joined db typ (to_lower eoa) name = Some (a, au) →
  (∀ v, v ∈ versions db → v_asset_id v ≠ as_id a) →
  GetAsset typ eoa name "" db [] = (Ok (Some (scanAsset (a, au), [])), db, []) ∧
  GetRecipe typ eoa name "" db [] = (Ok None, db, []).
Proof.
  intros Hj Hv.
  assert (filter (λ v, v_asset_id v = as_id a) (versions db) = []) as Hf.
  { destruct (filter _ _) as [|v l] eqn:He; [done|].
    assert (v ∈ filter (λ v, v_asset_id v = as_id a) (versions db)) as Hin by (rewrite He; by left).
    apply list_elem_of_filter in Hin as [Hid Hin]. by apply Hv in Hin. }
  assert (row_order (A:=VersionRow) [] = []) as Hr by apply Permutation_nil, symmetry, row_order_perm.
  split.
  - unfold GetAsset, ListVersions, bind, catch, query_row, query, stmt. rewrite Hj. simpl.
    by rewrite Hj, Hf, Hr.
  - unfold GetRecipe, bind, catch, query_row, stmt. simpl. rewrite Hj. simpl. rewrite ?Hj.
    destruct (find _ _) as [v|] eqn:Hfd; [|done]. apply find_some in Hfd as [Hin Hk].
    breflect_all. by apply list_elem_of_In, Hv in Hin.
Qed.

(** PutAsset is not one transaction: for a new asset of a known author, if
    only the INSERT of the version fails, the push reports the failure but the
    asset row stays, advertising the pushed version as its latest, while it has
    no versions and installing it answers "not found". *)
Theorem put_not_atomic {QL : SqlEnvLaws Q} (inp : PushInput) (now msg : string) (db : DB) (au : AuthorRow) :
  db_wf db → au ∈ authors db → au_eoa au = to_lower (pi_Author inp) →
  asset_joined db (pi_Type inp) (to_lower (pi_Author inp)) (am_Name (pi_Meta inp)) = None →
  let '(r, db', _) := PutAsset inp now db [None; None; None; Some msg] in
  is_ok r = false ∧
  (∃ a, GetAsset (pi_Type inp) (pi_Author inp) (am_Name (pi_Meta inp)) "" db' [] =
          (Ok (Some (a, [])), db', []) ∧ a_Version a = am_Version (pi_Meta inp)) ∧
  GetRecipe (pi_Type inp) (pi_Author inp) (am_Name (pi_Meta inp)) "" db' [] = (Ok None, db', []).
Proof.
  intros Hwf Hau He Hn. pose proof Hn as Hn'. rewrite <-He in Hn'.
  destruct (insert_asset_fresh (pi_Type inp) au (pi_Meta inp) now db Hwf Hau Hn') as (H1 & Hwf' & Hv & Hj).
  pose proof (asset_by_key_joined db (pi_Type inp) (am_Name (pi_Meta inp)) au Hwf Hau) as Hkey.
  rewrite Hn' in Hkey. rewrite He in Hj.
  assert (find (λ r, au_eoa r =s? to_lower (pi_Author inp)) (authors db) = Some au) as Hfind.
  { apply find_unique; [done|by rewrite He, String.eqb_refl|]. intros y Hy Hk. breflect_all.
    eapply (NoDup_map_inj au_eoa); [apply (wf_eoa _ Hwf)|done|done|congruence]. }
  destruct (insert_asset (pi_Type inp) (au_id au) (pi_Meta inp) now db) as [r db'] eqn:Hins.
  cbn [fst snd] in *. subst r.
  assert (PutAsset inp now db [None; None; None; Some msg] =
    (Err (if isUniqueViolation (EDriver msg) then ErrVersionExists else EDriver msg), db', [])) as ->.
  { unfold PutAsset, authorID, bind, catch, query_row, stmt. rewrite Hfind. cbn [fmap option_fmap option_map].
    cbv beta iota zeta. cbn [tail ret]. rewrite Hkey. cbv beta iota zeta. simpl. rewrite Hins.
    simpl. by destruct (isUniqueViolation _). }
  destruct (no_versions_reads _ _ _ db' _ _ Hj) as [Hg Hr].
  { intros v Hin. rewrite Hv in Hin. destruct (wf_version_asset _ Hwf v Hin) as (b & Hb & Hid).
    pose proof (wf_asset_next _ Hwf b Hb). simpl. lia. }
  split; [done|]. split; [|done]. by eexists.
Qed.
End half_push.

(** ** Witnesses *)

#[local] Existing Instance ascii_tables.
Definition toy_sql : SqlEnv := {| row_order := λ _ l, l; time_parse := λ _ _, Some 0 |}.
#[local] Existing Instance toy_sql.
#[export] Instance toy_sql_laws : SqlEnvLaws toy_sql.
Proof. by split. Qed.

Definition demo_push (version : string) : PushInput :=
  mkPush "agent" "0xAB" (mkMeta "bot" "" version "a bot" "MIT" "" ["x"; "y"]) ("body " ++s version) "ff".
Definition demo_store : list (store_op * string * schedule) :=
  [(OpPut (demo_push "1.2"), "t1", []); (OpPut (demo_push "1.10"), "t2", []);
   (OpVisibility "agent" "0xab" "bot" "public", "t3", []);
   (OpPut (mkPush "app" "0xcd" (mkMeta "tool" "" "1.0" "" "" "" []) "b" "aa"), "t4", [Some "locked"%string])].
Definition demo_db : DB := run_store demo_store empty_db.
Definition demo_filter : ListFilter := mkFilter "agent" "" "BO" (Some false) "" 1 1.

Example demo_db_shape :
  length (authors demo_db) = 1%nat ∧ map as_latest (assets demo_db) = ["1.10"%string] ∧
  map v_version (versions demo_db) = ["1.2"; "1.10"]%string.
Proof. vm_compute. done. Qed.

Lemma demo_db_wf : db_wf demo_db.
Proof. apply run_store_wf. Defined.

Lemma versions_immutable_witness :
  let v := mkVersionRow 1 1 "1.2" "ff" "body 1.2" "t1" in
  let db := run_store [(OpDelete "agent" "0xab" "bot", "t5"%string, [])] demo_db in
  (v ∈ versions db ∨ (v_asset_id v ∉ map as_id (assets db)) ∧
     (∀ w, w ∈ versions db → v_asset_id w ≠ v_asset_id v)) ∧
  (∀ a b, a ∈ assets demo_db → b ∈ assets db → as_id a = as_id b → asset_key a = asset_key b).
Proof.
  apply (versions_immutable demo_store [(OpDelete "agent" "0xab" "bot", "t5"%string, [])]
           (mkVersionRow 1 1 "1.2" "ff" "body 1.2" "t1")).
  vm_compute. left.
Defined.

Lemma push_then_install_witness :
  ∃ a db', PutAsset (demo_push "2.0") "t6" demo_db [] = (Ok (Some a), db', []) ∧
    GetRecipe "agent" "0xAB" "bot" "2.0" db' [] = (Ok (Some ("body 2.0", "ff", a_Visibility a)), db', [])%string.
Proof.
  assert (am_Version (pi_Meta (demo_push "2.0")) ≠ ""%string) as Hv by (vm_compute; discriminate).
  pose proof (push_then_install (demo_push "2.0") "t6" demo_db demo_db_wf Hv) as Hp.
  destruct (PutAsset (demo_push "2.0") "t6" demo_db []) as [[r db'] fs] eqn:E.
  assert (fs = []) as -> by (vm_compute in E; injection E as _ _ <-; reflexivity).
  change (already_published (demo_push "2.0") demo_db) with false in Hp. cbv iota zeta in Hp.
  destruct Hp as (a & -> & _ & _ & _ & _ & Hg). exists a, db'. split; [reflexivity|exact Hg].
Defined.

Lemma delete_atomic_witness :
  let '(r, db', _) := DeleteAsset "agent" "0xab" "bot" demo_db [None; None; None; Some "locked"%string] in
  r ≠ Ok true ∧ db' = demo_db.
Proof.
  pose proof (delete_atomic "agent" "0xab" "bot" demo_db [None; None; None; Some "locked"%string]
                demo_db_wf) as Hd.
  destruct (DeleteAsset "agent" "0xab" "bot" demo_db [None; None; None; Some "locked"%string])
    as [[r db'] fs] eqn:E.
  destruct Hd as [(? & ? & _)|[Hr _]]; [split; assumption|].
  exfalso. subst r. vm_compute in E. discriminate E.
Defined.

Lemma listing_public_only_witness :
  ∃ items total, ListAssets demo_filter demo_db [] = (Ok (items, total), demo_db, []) ∧
    total = Z.of_nat (length (listed demo_filter demo_db)) ∧ length items = 1%nat.
Proof.
  destruct (ListAssets demo_filter demo_db []) as [[[[items total]|e] db'] fs'] eqn:E;
    [|vm_compute in E; discriminate E].
  pose proof (listing_public_only demo_filter demo_db [] items total db' fs' E) as (Hd & Ht & _ & _).
  exists items, total. vm_compute in E. injection E as <- <- _ <-. subst db'.
  split; [reflexivity|]. split; [exact Ht|reflexivity].
Defined.


Lemma put_not_atomic_witness :
  let inp := mkPush "app" "0xAB" (mkMeta "tool" "" "1.0" "" "" "" []) "b" "aa" in
  let '(r, db', _) := PutAsset inp "t7" demo_db [None; None; None; Some "disk I/O error"%string] in
  is_ok r = false ∧
  (∃ a, GetAsset "app" "0xAB" "tool" "" db' [] = (Ok (Some (a, [])), db', []) ∧ a_Version a = "1.0"%string) ∧
  GetRecipe "app" "0xAB" "tool" "" db' [] = (Ok None, db', []).
Proof.
  apply (put_not_atomic (mkPush "app" "0xAB" (mkMeta "tool" "" "1.0" "" "" "" []) "b" "aa") "t7"
           "disk I/O error" demo_db (mkAuthor 1 "0xab" None) demo_db_wf);
    [vm_compute; left|reflexivity|reflexivity].
Defined.
