(* ===== verification/MarketVersions.v ===== *)
(** * pkg/market/sqlstore.go: version order and search pattern

    On numeric versions [semverLess] is the lexicographic order of the
    components; with it the "latest" fold finds a maximum and the insertion sort
    sorts.  On other versions it is not even transitive.  The LIKE pattern the
    listing builds is a case-blind substring search. *)

From S2P Require Import Prelude GoStrings GoStringsFacts Strconv Hardware GoTime MarketStore.
From Stdlib Require Import ZArith Lia ZifyBool Bool Ascii String.
From stdpp Require Import base option list strings sorting.

Open Scope go_scope.
Open Scope Z_scope.

(** ** Numeric versions *)

Definition numeric_comp (c : string) : bool := match atoi c with (_, None) => true | _ => false end.

(** Every dot-separated component parses as an integer. *)
Definition numeric (v : string) : bool := forallb numeric_comp (split_byte "." v).

(** The components' values. *)
Definition nums (v : string) : list Z := map (λ c, (atoi c).1) (split_byte "." v).

(** The reference order: lexicographic, a proper prefix first. *)
Fixpoint lex_ltb (a b : list Z) : bool :=
  match a, b with
  | _, [] => false
  | [], _ :: _ => true
  | x :: a', y :: b' => (x <? y) || ((x =? y) && lex_ltb a' b')
  end.

Lemma lex_ltb_irrefl a : lex_ltb a a = false.
Proof. induction a as [|x a IH]; [done|]. simpl. rewrite IH. lia. Qed.

Lemma lex_ltb_trans a b c : lex_ltb a b = true → lex_ltb b c = true → lex_ltb a c = true.
Proof.
  revert b c. induction a as [|x a IH]; intros [|y b] [|z c]; simpl; try done.
  intros Hab Hbc. destruct (Z.ltb_spec x z); [done|].
  destruct (Z.ltb_spec x y), (Z.ltb_spec y z), (Z.eqb_spec x y), (Z.eqb_spec y z); simpl in *;
    try done; try lia. destruct (Z.eqb_spec x z); [|lia]. simpl. by apply IH with b.
Qed.

Lemma lex_ltb_total a b : lex_ltb a b = false → lex_ltb b a = false → a = b.
Proof.
  revert b. induction a as [|x a IH]; intros [|y b]; simpl; try done.
  destruct (Z.ltb_spec x y), (Z.ltb_spec y x), (Z.eqb_spec x y), (Z.eqb_spec y x); simpl; try done; try lia.
  intros. f_equal; [done|]. by apply IH.
Qed.

Lemma atoi_empty : ∃ e, atoi "" = (0, Some e).
Proof. by eexists. Qed.

Lemma numeric_comp_ne c : numeric_comp c = true → (c =s? "") = false ∧ str_ltb "" c = true ∧ str_ltb c "" = false.
Proof. by destruct c. Qed.

(** The loop from index [i] compares what is left of the two lists. *)
Lemma semver_loop_lex pa pb i fuel :
  forallb numeric_comp pa = true → forallb numeric_comp pb = true →
  (length pa ≤ i + fuel)%nat → (length pb ≤ i + fuel)%nat →
  semver_loop fuel i pa pb = lex_ltb (map (λ c, (atoi c).1) (drop i pa)) (map (λ c, (atoi c).1) (drop i pb)).
Proof.
  intros Ha Hb. rewrite forallb_forall in Ha, Hb. revert i. induction fuel as [|fuel IH]; intros i La Lb.
  - by rewrite !drop_ge by lia.
  - simpl. unfold nth_comp.
    destruct (pa !! i) as [xa|] eqn:Ea; destruct (pb !! i) as [xb|] eqn:Eb; simpl.
    + rewrite (drop_S pa xa i Ea), (drop_S pb xb i Eb). cbn [map lex_ltb].
      assert (numeric_comp xa = true) as Na by (by apply Ha, list_elem_of_In, list_elem_of_lookup_2 with i).
      assert (numeric_comp xb = true) as Nb by (by apply Hb, list_elem_of_In, list_elem_of_lookup_2 with i).
      unfold numeric_comp in Na, Nb. destruct (atoi xa) as [na [ea|]], (atoi xb) as [nb [eb|]]; try done.
      rewrite IH by lia. cbn [fst].
      destruct (Z.eqb_spec na nb) as [-> | Hne]; [by rewrite Z.ltb_irrefl|]. by rewrite orb_false_r.
    + assert (numeric_comp xa = true) as Na by (by apply Ha, list_elem_of_In, list_elem_of_lookup_2 with i).
      rewrite (drop_S pa xa i Ea), (drop_ge pb i) by (by apply lookup_ge_None). cbn [map lex_ltb].
      destruct (numeric_comp_ne xa Na) as (-> & _ & ->). by destruct (atoi xa) as [? [|]].
    + assert (numeric_comp xb = true) as Nb by (by apply Hb, list_elem_of_In, list_elem_of_lookup_2 with i).
      rewrite (drop_S pb xb i Eb), (drop_ge pa i) by (by apply lookup_ge_None). cbn [map lex_ltb].
      by destruct xb.
    + apply lookup_ge_None in Ea, Eb. rewrite !drop_ge by lia. rewrite IH by lia.
      by rewrite !drop_ge by lia.
Qed.

Lemma semverLess_lex a b : numeric a = true → numeric b = true → semverLess a b = lex_ltb (nums a) (nums b).
Proof. intros Ha Hb. unfold semverLess. rewrite semver_loop_lex by (done || lia). done. Qed.

(** On numeric versions semverLess is the lexicographic order of the
    component values, a proper prefix being smaller: so it is a strict weak
    order there, for every number of components, and two versions it does not
    separate have the same component values. *)
Theorem semverLess_numeric (a b : string) :
  numeric a = true → numeric b = true →
  semverLess a b = lex_ltb (nums a) (nums b) ∧
  (semverLess a b = false → semverLess b a = false → nums a = nums b).
Proof.
  intros Ha Hb. rewrite (semverLess_lex a b), (semverLess_lex b a) by done.
  split; [done|]. apply lex_ltb_total.
Qed.

(** Off the numeric versions semverLess is not transitive: "2" < "10" <
    "1a" but "1a" < "2", so the latest of a set containing such versions
    depends on the order in which the database returns them. *)
Theorem semverLess_not_transitive :
  semverLess "2" "10" = true ∧ semverLess "10" "1a" = true ∧ semverLess "1a" "2" = true ∧
  latest_of ["2"; "10"; "1a"]%string = "1a"%string ∧ latest_of ["10"; "1a"; "2"]%string = "2"%string ∧
  latest_of ["1a"; "2"; "10"]%string = "10"%string.
Proof. vm_compute. done. Qed.

(** ** The latest version *)

Lemma latest_fold_spec vs l :
  numeric l = true → Forall (λ v, numeric v = true) vs → l ≠ ""%string →
  let r := fold_left (λ latest v, if (latest =s? "") || semverLess latest v then v else latest) vs l in
  (r ∈ l :: vs) ∧ numeric r = true ∧ ∀ v, v ∈ l :: vs → lex_ltb (nums r) (nums v) = false.
Proof.
  revert l. induction vs as [|x vs IH]; intros l Hl Hvs Hne; simpl.
  - split_and!; [by left|done|]. intros v ->%list_elem_of_singleton. apply lex_ltb_irrefl.
  - apply Forall_cons in Hvs as [Hx Hvs]. apply String.eqb_neq in Hne as Hb. rewrite Hb. cbn [orb].
    rewrite semverLess_lex by done.
    assert (x ≠ ""%string) as Hxne by (intros ->; done).
    destruct (lex_ltb (nums l) (nums x)) eqn:Elt.
    + destruct (IH x Hx Hvs Hxne) as (Hin & Hn & Hmax). split_and!; [by right|done|].
      intros v [-> |[-> |Hv]%elem_of_cons]%elem_of_cons; [|apply Hmax; by left|apply Hmax; by right].
      destruct (lex_ltb _ (nums l)) eqn:E; [|done].
      rewrite <-(Hmax x) by (by left). symmetry. by eapply lex_ltb_trans.
    + destruct (IH l Hl Hvs Hne) as (Hin & Hn & Hmax). split_and!; [|done|].
      { apply elem_of_cons in Hin as [-> |Hin]; [by left|right; by right]. }
      intros v [-> |[-> |Hv]%elem_of_cons]%elem_of_cons; [apply Hmax; by left| |apply Hmax; by right].
      match goal with |- lex_ltb (nums ?r) _ = _ => set (m := r) in * end.
      destruct (lex_ltb (nums m) (nums x)) eqn:E; [|done].
      destruct (lex_ltb (nums x) (nums l)) eqn:E2.
      * rewrite <-(Hmax l) by (by left). symmetry. by eapply lex_ltb_trans.
      * rewrite (lex_ltb_total _ _ E2 Elt) in E. rewrite <-E. apply Hmax. by left.
Qed.

(** The stored latest version is a maximum: over a non-empty list of numeric
    versions, in whatever order the database returns them, the fold of
    refreshLatest yields a version of the list that no version of the list
    exceeds. *)
Theorem latest_is_max (vs : list string) :
  vs ≠ [] → Forall (λ v, numeric v = true) vs →
  latest_of vs ∈ vs ∧ ∀ v, v ∈ vs → semverLess (latest_of vs) v = false.
Proof.
  intros Hne Hvs. destruct vs as [|x vs]; [done|]. apply Forall_cons in Hvs as [Hx Hvs].
  assert (x ≠ ""%string) as Hxne by (intros ->; done).
  destruct (latest_fold_spec vs x Hx Hvs Hxne) as (Hin & Hn & Hmax).
  unfold latest_of. cbn [fold_left]. change (("" =s? "") || semverLess "" x) with true. cbn [orb].
  split; [done|]. intros v Hv. rewrite semverLess_lex; [by apply Hmax|done|].
  apply elem_of_cons in Hv as [-> |Hv]; [done|].
  rewrite Forall_forall in Hvs. by apply Hvs.
Qed.

(** ** The version listing *)

Lemma sift_perm x l : sift x l ≡ₚ x :: l.
Proof.
  induction l as [|y l IH]; [done|]. simpl. destruct (semverLess _ _); [|done].
  rewrite IH. constructor.
Qed.

Lemma sift_fold_perm vs acc : fold_left (λ acc x, sift x acc) vs acc ≡ₚ acc ++ vs.
Proof.
  revert acc. induction vs as [|x vs IH]; intros acc; simpl; [by rewrite app_nil_r|].
  rewrite IH, sift_perm. simpl. by rewrite Permutation_middle.
Qed.

Definition ver_le (a b : Version) : Prop := lex_ltb (nums (ver_Version b)) (nums (ver_Version a)) = false.
Definition ver_numeric (v : Version) : Prop := numeric (ver_Version v) = true.

Lemma lex_le_trans a b c :
  lex_ltb b a = false → lex_ltb c b = false → lex_ltb c a = false.
Proof.
  intros Hba Hcb. destruct (lex_ltb c a) eqn:E; [|done].
  destruct (lex_ltb a b) eqn:Eab.
  - rewrite <-Hcb. symmetry. by eapply lex_ltb_trans.
  - rewrite (lex_ltb_total _ _ Eab Hba) in E. congruence.
Qed.

Lemma sift_sorted x l :
  ver_numeric x → Forall ver_numeric l → StronglySorted ver_le l → StronglySorted ver_le (sift x l).
Proof.
  intros Hx. induction l as [|y l IH]; intros Hl Hs; [by constructor; constructor|].
  apply Forall_cons in Hl as [Hy Hl]. apply StronglySorted_inv in Hs as [Hs Hall]. simpl.
  rewrite semverLess_lex by done. destruct (lex_ltb _ _) eqn:E.
  - constructor; [by apply IH|]. rewrite sift_perm. constructor; [|done].
    unfold ver_le. destruct (lex_ltb (nums (ver_Version x)) _) eqn:E2; [|done].
    rewrite <-(lex_ltb_irrefl (nums (ver_Version x))). symmetry. by eapply lex_ltb_trans.
  - constructor; [by constructor|]. constructor; [exact E|].
    eapply Forall_impl; [exact Hall|]. intros z Hz. unfold ver_le in *. by eapply lex_le_trans.
Qed.

Lemma sift_fold_sorted vs acc :
  Forall ver_numeric vs → Forall ver_numeric acc → StronglySorted ver_le acc →
  StronglySorted ver_le (fold_left (λ acc x, sift x acc) vs acc).
Proof.
  revert acc. induction vs as [|x vs IH]; intros acc Hvs Hacc Hs; [done|]. simpl.
  apply Forall_cons in Hvs as [Hx Hvs]. apply IH; [done| |by apply sift_sorted].
  rewrite sift_perm. by constructor.
Qed.

Lemma StronglySorted_lookup {A} (R : A → A → Prop) l i j x y :
  StronglySorted R l → (i < j)%nat → l !! i = Some x → l !! j = Some y → R x y.
Proof.
  intros Hs. revert i j. induction Hs as [|z l Hs IH Hall]; intros i j Hij Hi Hj; [done|].
  destruct j as [|j]; [lia|]. destruct i as [|i]; simpl in *.
  - injection Hi as <-. rewrite Forall_forall in Hall. by eapply Hall, list_elem_of_lookup_2.
  - by apply (IH i j); [lia|..].
Qed.

(** The version listing is the stored list in descending order: for every
    list it is a permutation of the input, and for numeric versions each entry
    is at least every later one. *)
Theorem sortVersionsDesc_sorted (vs : list Version) :
  sortVersionsDesc vs ≡ₚ vs ∧
  (Forall ver_numeric vs →
   ∀ i j v w, (i < j)%nat → sortVersionsDesc vs !! i = Some v → sortVersionsDesc vs !! j = Some w →
     semverLess (ver_Version v) (ver_Version w) = false).
Proof.
  unfold sortVersionsDesc. set (l := fold_left _ vs []).
  assert (l ≡ₚ vs) as Hp by apply sift_fold_perm.
  split; [by rewrite <-Permutation_rev|]. intros Hvs i j v w Hij Hi Hj.
  assert (Forall ver_numeric l) as Hl by (by rewrite Hp).
  assert (StronglySorted ver_le l) as Hs by (apply sift_fold_sorted; [done|constructor|constructor]).
  rewrite rev_alt in Hi, Hj. apply reverse_lookup_Some in Hi as [Hi Li], Hj as [Hj Lj].
  assert (v ∈ l ∧ w ∈ l) as [Hv Hw] by (split; by eapply list_elem_of_lookup_2).
  rewrite Forall_forall in Hl. rewrite semverLess_lex by (by apply Hl).
  apply (StronglySorted_lookup ver_le l (length l - S j) (length l - S i) w v); [done|lia|done|done].
Qed.

(** ** The search pattern *)

(** No LIKE wildcard in the text. *)
Definition no_wild (q : string) : bool :=
  sforall (λ c, negb ((c =c? "%")%char || (c =c? "_")%char)) q.

Lemma sql_like_all s : sql_like "%" s = true.
Proof. induction s as [|c s IH]; [done|]. cbn in *. by rewrite IH. Qed.

Lemma sql_like_star pat s : sql_like pat s = true → sql_like (String "%" pat) s = true.
Proof.
  intros Hp. destruct s as [|c s].
  - change (sql_like pat "" || false = true). by rewrite Hp.
  - change (sql_like pat (String c s) || sql_like (String "%" pat) s = true). by rewrite Hp.
Qed.

(** Literal text then '%': a case-blind prefix test. *)
Lemma sql_like_prefix q s :
  no_wild q = true → sql_like (q ++s "%") s = has_prefix (sql_lower s) (smap lower_byte q).
Proof.
  revert s. induction q as [|p q IH]; intros s Hq.
  { cbn [String.append]. rewrite sql_like_all. by destruct s. }
  apply andb_true_iff in Hq as [Hp Hq]. apply negb_true_iff, orb_false_iff in Hp as [Hp Hu].
  cbn [String.append sql_like smap]. rewrite Hp. destruct s as [|c s]; [done|].
  cbn [sql_lower smap has_prefix]. rewrite Hu. cbn [orb]. by rewrite IH.
Qed.

Lemma contains_str_cons c s sub :
  contains_str (String c s) sub = has_prefix (String c s) sub || contains_str s sub.
Proof.
  unfold contains_str. cbn [index_str]. destruct (has_prefix (String c s) sub); [done|].
  destruct (index_str s sub); [|done]. done.
Qed.

Lemma contains_str_nil sub : contains_str "" sub = has_prefix "" sub.
Proof. unfold contains_str. by destruct sub. Qed.

Lemma sql_like_infix q s :
  no_wild q = true → sql_like ("%" ++s q ++s "%") s = contains_str (sql_lower s) (smap lower_byte q).
Proof.
  intros Hq. induction s as [|c s IH].
  - change (sql_like ("%" ++s q ++s "%") "") with (sql_like (q ++s "%") "" || false).
    rewrite orb_false_r, sql_like_prefix by done. symmetry. apply contains_str_nil.
  - change (sql_like ("%" ++s q ++s "%") (String c s))
      with (sql_like (q ++s "%") (String c s) || sql_like ("%" ++s q ++s "%") s).
    rewrite IH, sql_like_prefix by done. symmetry. apply contains_str_cons.
Qed.

(** The search term of the listing is a case-blind substring search: the
    pattern "%q%" over a lower-cased column matches exactly when the column
    contains the lower-cased term, for every term without LIKE wildcards; the
    wildcards are not escaped, so the term "%" matches every column. *)
Theorem search_is_substring (q column : string) :
  (no_wild q = true →
   sql_like ("%" ++s q ++s "%") (sql_lower column) = contains_str (sql_lower column) (smap lower_byte q)) ∧
  sql_like ("%" ++s "%" ++s "%") (sql_lower column) = true.
Proof.
  split.
  - intros Hq. rewrite sql_like_infix by done. unfold sql_lower. by rewrite smap_idem by apply lower_byte_idem.
  - apply (sql_like_star "%%"), (sql_like_star "%"), sql_like_all.
Qed.

(** ** Witnesses *)

Lemma semverLess_numeric_witness :
  semverLess "1.9" "1.10.0" = lex_ltb (nums "1.9") (nums "1.10.0") ∧ semverLess "1.9" "1.10.0" = true.
Proof.
  destruct (semverLess_numeric "1.9" "1.10.0") as [H _]; [reflexivity..|]. split; [exact H|reflexivity].
Defined.

Lemma latest_is_max_witness :
  latest_of ["1.2"; "1.10"; "1.9.9"]%string ∈ ["1.2"; "1.10"; "1.9.9"]%string ∧
  ∀ v, v ∈ ["1.2"; "1.10"; "1.9.9"]%string →
    semverLess (latest_of ["1.2"; "1.10"; "1.9.9"]%string) v = false.
Proof.
  apply (latest_is_max ["1.2"; "1.10"; "1.9.9"]%string); [discriminate|].
  repeat (constructor; [reflexivity|]). constructor.
Defined.

Lemma sortVersionsDesc_sorted_witness :
  let vs := [mkVersion "1.2" "" 0; mkVersion "1.10" "" 0; mkVersion "1.9" "" 0] in
  sortVersionsDesc vs ≡ₚ vs ∧ map ver_Version (sortVersionsDesc vs) = ["1.10"; "1.9"; "1.2"]%string.
Proof.
  split; [|reflexivity].
  apply (sortVersionsDesc_sorted [mkVersion "1.2" "" 0; mkVersion "1.10" "" 0; mkVersion "1.9" "" 0]).
Defined.

Lemma search_is_substring_witness :
  sql_like ("%" ++s "bot" ++s "%") (sql_lower "My ROBOT") = true.
Proof.
  destruct (search_is_substring "bot" "My ROBOT") as [H _]. rewrite H; [reflexivity|reflexivity].
Defined.
