(* ===== verification/MarketConc.v ===== *)
(** * pkg/market/sqlstore.go under concurrent requests

    net/http serves each request on a goroutine of its own, and the store's
    methods take no lock: what the database executes as one is a statement, or
    a transaction, and the statements of two requests interleave at will.  A
    method is here a program of such atomic actions; a state of the market is
    the database with the requests in flight, and a history is the sequence of
    arrivals and of single actions.  [MarketStore] has the same methods as
    functions of the database: a request that nobody interrupts. *)

From S2P Require Import Prelude GoStrings Strconv Hardware GoTime MarketStore MarketStoreTheorems.
From Stdlib Require Import ZArith Lia ZifyBool Bool Ascii String.
From stdpp Require Import base option list gmap strings.

Open Scope go_scope.
Open Scope Z_scope.

(** ** Programs of atomic actions *)

(** [Step m k]: the database executes [m] in one go, the goroutine then goes
    on with [k] of the outcome. *)
Inductive prog (A : Type) : Type :=
  | Done (r : result store_err A)
  | Step {B : Type} (m : M B) (k : result store_err B → prog A).
Arguments Done {A} r.
Arguments Step {A B} m k.

Definition pret {A} (a : A) : prog A := Done (Ok a).
Definition praise {A} (e : store_err) : prog A := Done (Err e).
Definition atomic {A} (m : M A) : prog A := Step m Done.

Fixpoint pbind {A B} (p : prog A) (k : A → prog B) : prog B :=
  match p with
  | Done (Ok a) => k a
  | Done (Err e) => Done (Err e)
  | Step m h => Step m (λ r, pbind (h r) k)
  end.

(** [x, err := p] with the error inspected by what follows. *)
Fixpoint pcatch {A} (p : prog A) : prog (result store_err A) :=
  match p with
  | Done r => Done (Ok r)
  | Step m h => Step m (λ r, pcatch (h r))
  end.

Notation "'let+' x := p 'in' k" := (pbind p (λ x, k))
  (at level 10, x pattern, p at level 100, k at level 200,
   format "'let+'  x  :=  p  'in' '//' k") : go_scope.

(** A program run to its end with nobody in between. *)
Fixpoint run {A} (p : prog A) : M A := λ db fs,
  match p with
  | Done r => (r, db, fs)
  | Step m k => let '(r, db', fs') := m db fs in run (k r) db' fs'
  end.

(** ** The methods, statement by statement

    A method of [MarketStore] that is one statement is one action. *)

Section programs.
Context {U : GoUnicode} {Q : SqlEnv}.

(** pkg/market/sqlstore.go:245-317 [sqlStore.list] *)
Definition list_assetsP (f : ListFilter) (mineEOA : string) (publicOnly : bool)
  : prog (list Asset * Z) :=
  let matching db := filter (λ r, list_match f mineEOA publicOnly r = true) (joined db) in
  let+ total := atomic (query (λ db, Z.of_nat (length (matching db)))) in
  let page := if lf_Page f <? 1 then 1 else lf_Page f in
  let limit := if (lf_Limit f <=? 0) || (100 <? lf_Limit f) then 20 else lf_Limit f in
  let offset := wrap_i64 (wrap_i64 (page - 1) * limit) in
  let+ rows := atomic (query (λ db, limit_offset limit offset
                                      (order_by (list_before (lf_Sort f)) (row_order (matching db))))) in
  pret (map scanAsset rows, total).

(** pkg/market/sqlstore.go:319-351 [sqlStore.GetAsset] *)
Definition GetAssetP (typ authorEOA name version : string) : prog (option (Asset * list Version)) :=
  let+ row := pcatch (atomic (query_row (λ db, asset_joined db typ (to_lower authorEOA) name))) in
  match row with
  | Err ErrNoRows => pret None
  | Err e => praise e
  | Ok r =>
      let a := scanAsset r in
      let+ versions := atomic (ListVersions typ authorEOA name) in
      if negb (version =s? "") then
        if existsb (λ v, ver_Version v =s? version) versions
        then pret (Some (pin_version a version, versions))
        else pret None
      else pret (Some (a, versions))
  end.

(** pkg/market/sqlstore.go:382-412 [sqlStore.GetRecipe] *)
Definition GetRecipeP (typ authorEOA name version : string) : prog (option (string * string * string)) :=
  let fetch version :=
    let+ row := pcatch (atomic (query_row (λ db,
      match asset_joined db typ (to_lower authorEOA) name with
      | Some (a, _) =>
          match find (λ v, (v_asset_id v =? as_id a) && (v_version v =s? version)) (versions db) with
          | Some v => Some (v_body v, v_sha256 v, as_visibility a)
          | None => None
          end
      | None => None
      end))) in
    match row with
    | Err ErrNoRows => pret None
    | Err e => praise e
    | Ok r => pret (Some r)
    end in
  if version =s? "" then
    let+ row := pcatch (atomic (query_row (λ db, asset_joined db typ (to_lower authorEOA) name))) in
    match row with
    | Err ErrNoRows => pret None
    | Err e => praise e
    | Ok (a, _) => fetch (as_latest a)
    end
  else fetch version.

(** pkg/market/sqlstore.go:170-190 [sqlStore.authorID] *)
Definition authorIDP (eoa : string) : prog Z :=
  let eoa := to_lower eoa in
  let select := query_row (λ db, au_id <$> find (λ r, au_eoa r =s? eoa) (authors db)) in
  let+ row := pcatch (atomic select) in
  match row with
  | Ok id => pret id
  | Err ErrNoRows =>
      let+ res := pcatch (atomic (stmt (insert_author eoa))) in
      match res with
      | Ok id => pret id
      | Err e =>
          let+ again := pcatch (atomic select) in
          match again with Ok id => pret id | Err _ => praise e end
      end
  | Err e => praise e
  end.

(** pkg/market/sqlstore.go:465-494 [sqlStore.refreshLatest] *)
Definition refreshLatestP (assetID : Z) (meta : AssetMeta) (now : string) : prog unit :=
  let+ vs := atomic (query (λ db,
    map v_version (row_order (filter (λ v, v_asset_id v = assetID) (versions db))))) in
  let latest := latest_of vs in
  if latest =s? am_Version meta
  then atomic (exec (update_asset assetID (set_latest_meta latest meta now)))
  else atomic (exec (update_asset assetID (set_latest latest now))).

(** pkg/market/sqlstore.go:420-439 [sqlStore.PutAsset part]: the asset row, found or inserted. *)
Definition put_findP (inp : PushInput) (now : string) (author : Z) : prog Z :=
  let+ row := pcatch (atomic (query_row (λ db,
    as_id <$> asset_by_key db (pi_Type inp) author (am_Name (pi_Meta inp))))) in
  match row with
  | Ok id => pret id
  | Err ErrNoRows => atomic (stmt (insert_asset (pi_Type inp) author (pi_Meta inp) now))
  | Err e => praise e
  end.

(** pkg/market/sqlstore.go:416-460 [sqlStore.PutAsset] *)
Definition PutAssetP (inp : PushInput) (now : string) : prog (option Asset) :=
  let+ author := authorIDP (pi_Author inp) in
  let+ assetID := put_findP inp now author in
  let+ res := pcatch (atomic (stmt (insert_version assetID (am_Version (pi_Meta inp)) (pi_SHA256 inp)
                                      (pi_RecipeBody inp) now))) in
  match res with
  | Err e => if isUniqueViolation e then praise ErrVersionExists else praise e
  | Ok _ =>
      let+ _ := refreshLatestP assetID (pi_Meta inp) now in
      let+ a := GetAssetP (pi_Type inp) (pi_Author inp) (am_Name (pi_Meta inp)) "" in
      pret (fst <$> a)
  end.

(** pkg/market/sqlstore.go:496-507 [sqlStore.SetVisibility] *)
Definition SetVisibilityP (typ authorEOA name visibility now : string) : prog bool :=
  let+ (id, cur) := atomic (assetIDVis typ authorEOA name) in
  if cur =s? visibility then pret false
  else let+ _ := atomic (exec (update_asset id (set_visibility visibility now))) in pret true.

(** pkg/market/sqlstore.go:509-535 [sqlStore.SetPrice] *)
Definition SetPriceP (typ authorEOA name price : string) (token : option string) (now : string) : prog bool :=
  let+ (id, _) := atomic (assetIDVis typ authorEOA name) in
  let+ (curPrice, curToken) := atomic (query_row (λ db,
    (λ a, (as_price a, as_token a)) <$> find (λ a, as_id a =? id) (assets db))) in
  let newToken := default ""%string token in
  if (curPrice =s? price) && (default ""%string curToken =s? newToken) then pret false
  else let+ _ := atomic (exec (update_asset id (set_price price token now))) in pret true.

(** pkg/market/sqlstore.go:537-563 [sqlStore.SetMeta] *)
Definition SetMetaP (typ authorEOA name : string) (tags summary : option string) (now : string) : prog bool :=
  let+ (id, _) := atomic (assetIDVis typ authorEOA name) in
  let+ (curTags, curSummary) := atomic (query_row (λ db,
    (λ a, (as_tags a, as_summary a)) <$> find (λ a, as_id a =? id) (assets db))) in
  let tags' := match tags with Some t => if t =s? curTags then None else Some t | None => None end in
  let summary' := match summary with
                  | Some t => if t =s? curSummary then None else Some t | None => None end in
  match tags', summary' with
  | None, None => pret false
  | _, _ => let+ _ := atomic (exec (update_asset id (set_meta tags' summary' now))) in pret true
  end.

(** pkg/market/sqlstore.go:565-585 [sqlStore.DeleteAsset]: the transaction is
    one action. *)
Definition DeleteAssetP (typ authorEOA name : string) : prog bool :=
  let+ r := pcatch (atomic (assetIDVis typ authorEOA name)) in
  match r with
  | Err ErrNotFound => pret false
  | Err e => praise e
  | Ok (id, _) =>
      let+ _ := atomic (transaction (let* _ := exec (delete_versions id) in exec (delete_asset_row id))) in
      pret true
  end.

(** ** Requests *)

Inductive answer :=
  | AAsset (a : option Asset)
  | AFull (r : option (Asset * list Version))
  | AFlag (b : bool)
  | ADone
  | AList (items : list Asset) (total : Z)
  | AVersions (vs : list Version)
  | ARecipe (r : option (string * string * string)).

Definition prog_of (op : store_op) (now : string) : prog answer :=
  match op with
  | OpPut inp => let+ a := PutAssetP inp now in pret (AAsset a)
  | OpVisibility typ eoa name vis => let+ b := SetVisibilityP typ eoa name vis now in pret (AFlag b)
  | OpPrice typ eoa name price token => let+ b := SetPriceP typ eoa name price token now in pret (AFlag b)
  | OpMeta typ eoa name tags summary => let+ b := SetMetaP typ eoa name tags summary now in pret (AFlag b)
  | OpDelete typ eoa name => let+ b := DeleteAssetP typ eoa name in pret (AFlag b)
  | OpIncr typ eoa name => let+ _ := atomic (IncrDownloads typ eoa name) in pret ADone
  | OpList f => let+ (l, n) := list_assetsP f "" true in pret (AList l n)
  | OpMine eoa f => let+ (l, n) := list_assetsP f (to_lower eoa) false in pret (AList l n)
  | OpGet typ eoa name version => let+ r := GetAssetP typ eoa name version in pret (AFull r)
  | OpVersions typ eoa name => let+ vs := atomic (ListVersions typ eoa name) in pret (AVersions vs)
  | OpRecipe typ eoa name version => let+ r := GetRecipeP typ eoa name version in pret (ARecipe r)
  end.

(** The same request as a function of the database. *)
Definition seq_of (op : store_op) (now : string) : M answer :=
  match op with
  | OpPut inp => let* a := PutAsset inp now in ret (AAsset a)
  | OpVisibility typ eoa name vis => let* b := SetVisibility typ eoa name vis now in ret (AFlag b)
  | OpPrice typ eoa name price token => let* b := SetPrice typ eoa name price token now in ret (AFlag b)
  | OpMeta typ eoa name tags summary => let* b := SetMeta typ eoa name tags summary now in ret (AFlag b)
  | OpDelete typ eoa name => let* b := DeleteAsset typ eoa name in ret (AFlag b)
  | OpIncr typ eoa name => let* _ := IncrDownloads typ eoa name in ret ADone
  | OpList f => let* (l, n) := ListAssets f in ret (AList l n)
  | OpMine eoa f => let* (l, n) := ListMine eoa f in ret (AList l n)
  | OpGet typ eoa name version => let* r := GetAsset typ eoa name version in ret (AFull r)
  | OpVersions typ eoa name => let* vs := ListVersions typ eoa name in ret (AVersions vs)
  | OpRecipe typ eoa name version => let* r := GetRecipe typ eoa name version in ret (ARecipe r)
  end.

(** ** The market with requests in flight *)

Record thread := mkThread { th_op : store_op; th_prog : prog answer }.
Record cstate := mkC { c_db : DB; c_threads : list thread }.

(** A request arrives; or the database executes the next action of the i-th
    request, its statements failing as [fs] says.  A request whose turn never
    comes again is one whose goroutine died or whose client hung up. *)
Inductive cevent :=
  | Start (op : store_op) (now : string)
  | Run (i : nat) (fs : schedule).

Definition cstep (s : cstate) (e : cevent) : cstate :=
  match e with
  | Start op now => mkC (c_db s) (c_threads s ++ [mkThread op (prog_of op now)])
  | Run i fs =>
      match c_threads s !! i with
      | Some (mkThread op (Step m k)) =>
          let '(r, db', _) := m (c_db s) fs in
          mkC db' (<[i := mkThread op (k r)]> (c_threads s))
      | _ => s
      end
  end.

Definition crun (h : list cevent) (s : cstate) : cstate := fold_left cstep h s.

Definition start_state : cstate := mkC empty_db [].

(** The answer of request [i], once it has one. *)
Definition finished (s : cstate) (i : nat) : option (store_op * result store_err answer) :=
  match c_threads s !! i with
  | Some (mkThread op (Done r)) => Some (op, r)
  | _ => None
  end.
End programs.

(** ** A request that is alone *)

Section alone.
Context {U : GoUnicode} {Q : SqlEnv}.

Lemma run_pbind {A B} (p : prog A) (k : A → prog B) db fs :
  run (pbind p k) db fs = bind (run p) (λ a, run (k a)) db fs.
Proof.
  revert db fs. induction p as [[a|e]|C m h IH]; intros db fs; [done..|]. simpl. unfold bind. simpl.
  destruct (m db fs) as [[r db'] fs']. apply IH.
Qed.

Lemma run_pcatch {A} (p : prog A) db fs : run (pcatch p) db fs = catch (run p) db fs.
Proof.
  revert db fs. induction p as [r|C m h IH]; intros db fs; [done|]. simpl. unfold catch. simpl.
  destruct (m db fs) as [[r db'] fs']. apply IH.
Qed.

Lemma run_atomic {A} (m : M A) db fs : run (atomic m) db fs = m db fs.
Proof. simpl. by destruct (m db fs) as [[r db'] fs']. Qed.

Lemma bind_ext {A B} (m m' : M A) (k k' : A → M B) db fs :
  (∀ db fs, m db fs = m' db fs) → (∀ a db fs, k a db fs = k' a db fs) →
  bind m k db fs = bind m' k' db fs.
Proof. intros Hm Hk. unfold bind. rewrite Hm. by destruct (m' db fs) as [[[a|e] d] f]. Qed.

Lemma catch_ext {A} (m m' : M A) db fs :
  (∀ db fs, m db fs = m' db fs) → catch m db fs = catch m' db fs.
Proof. intros Hm. unfold catch. by rewrite Hm. Qed.

(** Walk both programs down together. *)
Ltac alone_step :=
  match goal with
  | |- run (pbind _ _) _ _ = _ => rewrite run_pbind; apply bind_ext; intros
  | |- run (pcatch _) _ _ = _ => rewrite run_pcatch; apply catch_ext; intros
  | |- run (atomic _) _ _ = _ => apply run_atomic
  | |- run (if ?b then _ else _) _ _ = _ => destruct b
  | |- run (match ?x with _ => _ end) _ _ = _ => destruct x
  end.
Ltac alone_tac := repeat alone_step; try reflexivity.

Lemma list_assets_alone f mine pub db fs :
  run (list_assetsP f mine pub) db fs = list_assets f mine pub db fs.
Proof. unfold list_assetsP, list_assets. alone_tac. Qed.
Lemma GetAsset_alone typ eoa name version db fs :
  run (GetAssetP typ eoa name version) db fs = GetAsset typ eoa name version db fs.
Proof. unfold GetAssetP, GetAsset. alone_tac. Qed.
Lemma GetRecipe_alone typ eoa name version db fs :
  run (GetRecipeP typ eoa name version) db fs = GetRecipe typ eoa name version db fs.
Proof. unfold GetRecipeP, GetRecipe. alone_tac. Qed.
Lemma authorID_alone eoa db fs : run (authorIDP eoa) db fs = authorID eoa db fs.
Proof. unfold authorIDP, authorID. alone_tac. Qed.
Lemma refreshLatest_alone id meta now db fs :
  run (refreshLatestP id meta now) db fs = refreshLatest id meta now db fs.
Proof. unfold refreshLatestP, refreshLatest. alone_tac. Qed.
Lemma SetVisibility_alone typ eoa name vis now db fs :
  run (SetVisibilityP typ eoa name vis now) db fs = SetVisibility typ eoa name vis now db fs.
Proof. unfold SetVisibilityP, SetVisibility. alone_tac. Qed.
Lemma SetPrice_alone typ eoa name price token now db fs :
  run (SetPriceP typ eoa name price token now) db fs = SetPrice typ eoa name price token now db fs.
Proof. unfold SetPriceP, SetPrice. alone_tac. Qed.
Lemma SetMeta_alone typ eoa name tags summary now db fs :
  run (SetMetaP typ eoa name tags summary now) db fs = SetMeta typ eoa name tags summary now db fs.
Proof. unfold SetMetaP, SetMeta. alone_tac. Qed.
Lemma DeleteAsset_alone typ eoa name db fs :
  run (DeleteAssetP typ eoa name) db fs = DeleteAsset typ eoa name db fs.
Proof. unfold DeleteAssetP, DeleteAsset. alone_tac. Qed.

Lemma bind_assoc {A B C} (m : M A) (k : A → M B) (h : B → M C) db fs :
  bind (bind m k) h db fs = bind m (λ a, bind (k a) h) db fs.
Proof. unfold bind. by destruct (m db fs) as [[[a|e] d] f]. Qed.

Lemma put_find_alone inp now author db fs :
  run (put_findP inp now author) db fs = put_find inp now author db fs.
Proof. unfold put_findP, put_find. alone_tac. Qed.

Lemma PutAsset_alone inp now db fs : run (PutAssetP inp now) db fs = PutAsset inp now db fs.
Proof.
  unfold PutAssetP, PutAsset. rewrite run_pbind. apply bind_ext; [intros; apply authorID_alone|].
  intros author d f. rewrite run_pbind.
  transitivity (bind (put_find inp now author) (put_version inp now) d f); [|apply bind_assoc].
  apply bind_ext; [intros; apply put_find_alone|]. intros id d' f'. unfold put_version. alone_tac.
  - apply refreshLatest_alone.
  - apply GetAsset_alone.
Qed.

Lemma prog_of_alone op now db fs : run (prog_of op now) db fs = seq_of op now db fs.
Proof.
  destruct op; cbn [prog_of seq_of]; rewrite run_pbind; apply bind_ext; intros; try reflexivity;
    try (destruct a; reflexivity).
  - apply PutAsset_alone.
  - apply SetVisibility_alone.
  - apply SetPrice_alone.
  - apply SetMeta_alone.
  - apply DeleteAsset_alone.
  - apply run_atomic.
  - apply list_assets_alone.
  - apply list_assets_alone.
  - apply GetAsset_alone.
  - apply run_atomic.
  - apply GetRecipe_alone.
Qed.
End alone.
