(* ===== verification/MarketApi.v ===== *)
(** * pkg/market/store.go: the Store interface

    The interface as a class of operations over a type of computations, and
    its SQL implementation twice: as functions of the database ([sqlStore], the
    methods of [MarketStore]) and as programs of statements that interleave with
    others ([sqlStoreP], those of [MarketConc]).  The HTTP server of
    [MarketServer] is written against the class. *)

From S2P Require Import Prelude GoStrings Strconv Hardware GoTime MarketStore MarketStoreTheorems MarketConc.
From Stdlib Require Import ZArith Lia ZifyBool Bool Ascii String.
From stdpp Require Import base option list gmap strings.

Open Scope go_scope.
Open Scope Z_scope.

(** pkg/market/store.go:8-56 [Store]: [Close] apart, which ends the process's use
    of the database. *)
Class Store (T : Type → Type) := {
  st_ListAssets : ListFilter → T (list Asset * Z)%type;
  st_ListMine : string → ListFilter → T (list Asset * Z)%type;
  st_GetAsset : string → string → string → string → T (option (Asset * list Version));
  st_ListVersions : string → string → string → T (list Version);
  st_GetRecipe : string → string → string → string → T (option (string * string * string));
  st_PutAsset : PushInput → T (option Asset);
  st_SetVisibility : string → string → string → string → T bool;
  st_SetPrice : string → string → string → string → option string → T bool;
  st_SetMeta : string → string → string → option string → option string → T bool;
  st_DeleteAsset : string → string → string → T bool;
  st_IncrDownloads : string → string → string → T unit
}.

Section api.
Context {U : GoUnicode} {Q : SqlEnv}.

(** pkg/market/sqlstore.go:32-35 [sqlStore]: the SQL implementation, at the time the
    database's now() yields. *)
Definition sqlStore (now : string) : Store M := {|
  st_ListAssets := ListAssets;
  st_ListMine := ListMine;
  st_GetAsset := GetAsset;
  st_ListVersions := ListVersions;
  st_GetRecipe := GetRecipe;
  st_PutAsset inp := PutAsset inp now;
  st_SetVisibility typ eoa name vis := SetVisibility typ eoa name vis now;
  st_SetPrice typ eoa name price token := SetPrice typ eoa name price token now;
  st_SetMeta typ eoa name tags summary := SetMeta typ eoa name tags summary now;
  st_DeleteAsset := DeleteAsset;
  st_IncrDownloads := IncrDownloads
|}.

(** The same methods, statement by statement. *)
Definition sqlStoreP (now : string) : Store prog := {|
  st_ListAssets f := list_assetsP f "" true;
  st_ListMine eoa f := list_assetsP f (to_lower eoa) false;
  st_GetAsset := GetAssetP;
  st_ListVersions typ eoa name := atomic (ListVersions typ eoa name);
  st_GetRecipe := GetRecipeP;
  st_PutAsset inp := PutAssetP inp now;
  st_SetVisibility typ eoa name vis := SetVisibilityP typ eoa name vis now;
  st_SetPrice typ eoa name price token := SetPriceP typ eoa name price token now;
  st_SetMeta typ eoa name tags summary := SetMetaP typ eoa name tags summary now;
  st_DeleteAsset := DeleteAssetP;
  st_IncrDownloads typ eoa name := atomic (IncrDownloads typ eoa name)
|}.
End api.
