(* ===== verification/MarketConcLogic.v ===== *)
(** * Rely and guarantee for the concurrent market store

    A logic for the programs of [MarketConc]: [rg R G E Q w p db] says that
    from [db], whatever the other requests do within the rely [R] before each
    action of [p], every action of [p] keeps the guarantee [G] and a finished
    [p] ends in [Q].  The flag [w] remembers whether an action made the event
    [E] happen.  Then the relations between databases a request guarantees: keys
    kept, what is stored under other names untouched, nothing removed but by a
    deletion. *)

From S2P Require Import Prelude GoStrings Strconv Hardware GoTime MarketStore MarketStoreProofs.
From S2P Require Import MarketStoreTheorems MarketConc.
From Stdlib Require Import ZArith Lia ZifyBool Bool Ascii String.
From stdpp Require Import base option list gmap strings.

Open Scope go_scope.
Open Scope Z_scope.

(** ** The logic *)

Section rg.
Context (R : DB → DB → Prop) `{!PreOrder R} (G E : DB → DB → Prop).

Fixpoint rg {A} (Q : bool → result store_err A → DB → Prop) (w : bool) (p : prog A) (db : DB) : Prop :=
  match p with
  | Done r => ∀ db', R db db' → Q w r db'
  | Step m k => ∀ db' fs, R db db' →
      let '(r, db'', _) := m db' fs in
      G db' db'' ∧ ∃ w', (w' = w ∨ (w' = true ∧ E db' db'')) ∧ rg Q w' (k r) db''
  end.

(** The others' actions do not disturb it. *)
Lemma rg_stable {A} (Q : bool → result store_err A → DB → Prop) w p db db' :
  R db db' → rg Q w p db → rg Q w p db'.
Proof.
  intros HR. destruct p as [r|B m k]; simpl.
  - intros H d Hd. apply H. by etrans.
  - intros H d fs Hd. apply H. by etrans.
Qed.

(** An assertion the others' actions keep. *)
Definition stable (P : DB → Prop) : Prop := ∀ db db', R db db' → P db → P db'.

Definition rt {A} (P : bool → DB → Prop) (p : prog A) (Q : bool → result store_err A → DB → Prop) : Prop :=
  ∀ w db, P w db → rg Q w p db.

Lemma rt_ret {A} (a : A) P (Q : bool → result store_err A → DB → Prop) :
  (∀ w, stable (P w)) → (∀ w db, P w db → Q w (Ok a) db) → rt P (pret a) Q.
Proof. intros Hs H w db HP db' HR. apply H. by apply (Hs w db). Qed.

Lemma rt_raise {A} e P (Q : bool → result store_err A → DB → Prop) :
  (∀ w, stable (P w)) → (∀ w db, P w db → Q w (Err e) db) → rt P (praise e) Q.
Proof. intros Hs H w db HP db' HR. apply H. by apply (Hs w db). Qed.

Lemma rt_bind {A B} (p : prog A) (k : A → prog B) P Q1 (Q : bool → result store_err B → DB → Prop) :
  rt P p Q1 → (∀ a, rt (λ w, Q1 w (Ok a)) (k a) Q) → (∀ w e db, Q1 w (Err e) db → Q w (Err e) db) →
  rt P (pbind p k) Q.
Proof.
  intros Hp Hk He w db HP. specialize (Hp w db HP). clear HP. revert w db Hp.
  induction p as [[a|e]|C m h IH]; intros w db Hp; simpl in *.
  - apply Hk, Hp. reflexivity.
  - intros db' HR. by apply He, Hp.
  - intros db' fs HR. specialize (Hp db' fs HR). destruct (m db' fs) as [[r db''] fs''].
    destruct Hp as (HG & w' & Hw & Hrg). split; [done|]. exists w'. split; [done|]. by apply IH.
Qed.

Lemma rt_catch {A} (p : prog A) P Q1 (Q : bool → result store_err (result store_err A) → DB → Prop) :
  rt P p Q1 → (∀ w r db, Q1 w r db → Q w (Ok r) db) → rt P (pcatch p) Q.
Proof.
  intros Hp HQ w db HP. specialize (Hp w db HP). clear HP. revert w db Hp.
  induction p as [r|C m h IH]; intros w db Hp; simpl in *.
  - intros db' HR. by apply HQ, Hp.
  - intros db' fs HR. specialize (Hp db' fs HR). destruct (m db' fs) as [[r db''] fs''].
    destruct Hp as (HG & w' & Hw & Hrg). split; [done|]. exists w'. split; [done|]. by apply IH.
Qed.

Lemma rt_weaken {A} (p : prog A) P P' Q (Q' : bool → result store_err A → DB → Prop) :
  rt P' p Q' → (∀ w db, P w db → P' w db) → (∀ w r db, Q' w r db → Q w r db) → rt P p Q.
Proof.
  intros Hp HP HQ w db H. specialize (Hp w db (HP _ _ H)). clear H. revert w db Hp.
  induction p as [r|C m h IH]; intros w db Hp; simpl in *.
  - intros db' HR. by apply HQ, Hp.
  - intros db' fs HR. specialize (Hp db' fs HR). destruct (m db' fs) as [[r db''] fs''].
    destruct Hp as (HG & w' & Hw & Hrg). split; [done|]. exists w'. split; [done|]. by apply IH.
Qed.

Lemma rt_atomic {A} (m : M A) P (Q : bool → result store_err A → DB → Prop) :
  (∀ w, stable (P w)) → (∀ w r, stable (Q w r)) →
  (∀ w db fs, P w db → let '(r, db', _) := m db fs in
     G db db' ∧ ∃ w', (w' = w ∨ (w' = true ∧ E db db')) ∧ Q w' r db') →
  rt P (atomic m) Q.
Proof.
  intros Hs HsQ H w db HP db' fs HR. specialize (H w db' fs (Hs w _ _ HR HP)).
  destruct (m db' fs) as [[r db''] fs'']. destruct H as (HG & w' & Hw & HQ).
  split; [done|]. exists w'. split; [done|]. intros d Hd. by apply (HsQ w' r db'').
Qed.

(** An action that leaves the flag alone. *)
Lemma rt_action {A} (m : M A) P (Q : bool → result store_err A → DB → Prop) :
  (∀ w, stable (P w)) → (∀ w r, stable (Q w r)) →
  (∀ w db fs, P w db → let '(r, db', _) := m db fs in G db db' ∧ Q w r db') →
  rt P (atomic m) Q.
Proof.
  intros Hs HsQ H. apply rt_atomic; [done..|]. intros w db fs HP. specialize (H w db fs HP).
  destruct (m db fs) as [[r db'] fs']. destruct H as [HG HQ]. split; [done|]. exists w. auto.
Qed.

Lemma rt_read {A} (m : M A) P (Q : bool → result store_err A → DB → Prop) :
  (∀ db fs, (m db fs).1.2 = db) → (∀ w db, P w db → G db db) →
  (∀ w, stable (P w)) → (∀ w r, stable (Q w r)) →
  (∀ w db fs, P w db → Q w (m db fs).1.1 db) →
  rt P (atomic m) Q.
Proof.
  intros Hm HG Hs HsQ H. apply rt_action; [done..|]. intros w db fs HP. specialize (H w db fs HP).
  specialize (Hm db fs). destruct (m db fs) as [[r db'] fs']. simpl in *. subst db'.
  split; [by eapply HG|done].
Qed.

(** One writing statement: what it does when it is not failed. *)
Lemma rt_stmt {A} (f : DB → result store_err A * DB) P (Q : bool → result store_err A → DB → Prop) :
  (∀ w db, P w db → G db db) → (∀ w, stable (P w)) → (∀ w r, stable (Q w r)) →
  (∀ w msg db, P w db → Q w (Err (EDriver msg)) db) →
  (∀ w db, P w db → let '(r, db') := f db in
     G db db' ∧ ∃ w', (w' = w ∨ (w' = true ∧ E db db')) ∧ Q w' r db') →
  rt P (atomic (stmt f)) Q.
Proof.
  intros HG Hs HsQ He Hf. apply rt_atomic; [done..|]. intros w db fs HP. specialize (Hf w db HP).
  unfold stmt. destruct fs as [|[msg|] fs']; [by destruct (f db)| |by destruct (f db)].
  split; [by eapply HG|]. exists w. auto.
Qed.
End rg.

Lemma query_same {A} (f : DB → A) db fs : (query f db fs).1.2 = db.
Proof. unfold query, stmt. by destruct fs as [|[msg|] fs]. Qed.
Lemma query_row_same {A} (f : DB → option A) db fs : (query_row f db fs).1.2 = db.
Proof. unfold query_row, stmt. by destruct fs as [|[msg|] fs]. Qed.

(** ** Names *)

Notation nkey := (string * string * string)%type.
Definition nat_key (a : AssetRow) (au : AuthorRow) : nkey := (as_type a, au_eoa au, as_name a).

(** The asset row [id] is stored under (type, author address, name) [K]. *)
Definition names (K : nkey) (id : Z) (db : DB) : Prop :=
  ∃ a au, a ∈ assets db ∧ as_id a = id ∧ au ∈ authors db ∧ au_id au = as_author_id a ∧ nat_key a au = K.

Lemma names_joined K id db :
  db_keys db → names K id db ↔
  ∃ a au, asset_joined db K.1.1 K.1.2 K.2 = Some (a, au) ∧ as_id a = id.
Proof.
  intros Hk. split.
  - intros (a & au & Ha & Hid & Hau & Haid & <-). exists a, au. split; [|done].
    by apply asset_joined_spec.
  - intros (a & au & Hj & Hid). apply asset_joined_Some in Hj as (? & ? & ? & H1 & H2 & H3).
    exists a, au. split_and!; [done..|]. destruct K as [[t e] n]. unfold nat_key. simpl in *. congruence.
Qed.

Lemma names_id K id id' db : db_keys db → names K id db → names K id' db → id = id'.
Proof.
  intros Hk (a & au & Hj & <-)%names_joined (b & bu & Hj' & <-)%names_joined; [|done..]. congruence.
Qed.

Lemma names_key K K' id db : db_keys db → names K id db → names K' id db → K = K'.
Proof.
  intros Hk (a & au & Ha & Hid & Hau & Haid & <-) (b & bu & Hb & Hid' & Hbu & Hbid & <-).
  assert (a = b) as -> by (eapply (NoDup_map_inj as_id); [apply (wf_asset_ids _ Hk)|done|done|congruence]).
  assert (au = bu) as -> by (eapply (NoDup_map_inj au_id); [apply (wf_author_ids _ Hk)|done|done|congruence]).
  done.
Qed.

(** The id is [K]'s asset, or an asset that is gone. *)
Definition bound (K : nkey) (id : Z) (db : DB) : Prop :=
  id < next_asset db ∧ ∀ K', names K' id db → K' = K.

Lemma names_bound K id db : db_keys db → names K id db → bound K id db.
Proof.
  intros Hk Hn. split; [|intros K' Hn'; by eapply names_key].
  destruct Hn as (a & _ & Ha & <- & _). by apply wf_asset_next.
Qed.

Lemma names_grown K id d0 db : db_keys d0 → grown d0 db → names K id db → id < next_asset d0 →
  names K id d0.
Proof.
  intros Hk Hg (a & au & Ha & <- & Hau & Haid & <-) Hlt.
  destruct (decide (as_id a ∈ map as_id (assets d0))) as [Hin|Hout].
  - apply as_id_elem_inv in Hin as (b & Hb & Hid). pose proof (ev_keys _ _ Hg b a Hb Ha Hid) as [= H1 H2 H3].
    destruct (wf_asset_author _ Hk b Hb) as (r & Hr & Hrid). exists b, r. split_and!; [done..|].
    assert (r = au) as -> by (eapply (NoDup_map_inj au_id);
      [apply (wf_author_ids _ (ev_dbkeys _ _ Hg))|by apply (ev_authors _ _ Hg)|done|congruence]).
    unfold nat_key. congruence.
  - exfalso. apply (ev_gone _ _ Hg _ Hlt Hout). by apply as_id_elem.
Qed.

Lemma bound_grown K id d0 db : db_keys d0 → grown d0 db → bound K id d0 → bound K id db.
Proof.
  intros Hk Hg [Hlt Hb]. split; [pose proof (ev_next _ _ Hg); lia|]. intros K' Hn.
  apply Hb. by eapply names_grown.
Qed.

(** ** What a request guarantees to the others *)

Definition with_downloads (n : Z) (a : AssetRow) : AssetRow :=
  mkAssetRow (as_id a) (as_type a) (as_author_id a) (as_name a) (as_latest a) (as_summary a)
    (as_license a) (as_min_isann a) (as_tags a) (as_visibility a) (as_price a) (as_token a)
    n (as_rating a) (as_created a) (as_updated a).

(** What is stored under [K] is as it was, the download counter apart, which
    never falls. *)
Record insulated (K : nkey) (d0 db : DB) : Prop := {
  in_row : ∀ a au, a ∈ assets d0 → au ∈ authors d0 → au_id au = as_author_id a → nat_key a au = K →
    ∃ n, as_downloads a ≤ n ∧ with_downloads n a ∈ assets db;
  in_versions : ∀ id, names K id d0 → ∀ v, v_asset_id v = id → v ∈ versions d0 ↔ v ∈ versions db;
  in_new : ∀ id, names K id db → names K id d0
}.

(** Nothing stored under [K] is removed. *)
Definition spares (K : nkey) (d0 db : DB) : Prop :=
  ∀ id, names K id d0 → names K id db ∧ ∀ v, v_asset_id v = id → v ∈ versions d0 → v ∈ versions db.

(** A request that writes only under [own], and deletes only under [del]. *)
Record guar (own del : option nkey) (d0 db : DB) : Prop := {
  gu_grown :> grown d0 db;
  gu_insulated : ∀ K, own ≠ Some K → insulated K d0 db;
  gu_spares : ∀ K, del ≠ Some K → spares K d0 db
}.

Lemma insulated_names K id d0 db :
  (∀ r, r ∈ authors d0 → r ∈ authors db) → insulated K d0 db → names K id d0 → names K id db.
Proof.
  intros Hau [Hr _ _] (a & au & Ha & Hid & Hin & Haid & Hk).
  destruct (Hr a au Ha Hin Haid Hk) as (n & _ & Hn). exists (with_downloads n a), au.
  split_and!; auto.
Qed.

Lemma insulated_spares K d0 db :
  (∀ r, r ∈ authors d0 → r ∈ authors db) → insulated K d0 db → spares K d0 db.
Proof.
  intros Hau Hi id Hn. split; [by eapply insulated_names|]. intros v Hv. by apply (in_versions _ _ _ Hi id Hn).
Qed.

Lemma insulated_refl K db : insulated K db db.
Proof.
  split; [|done..]. intros a au Ha _ _ _. exists (as_downloads a). split; [lia|]. by destruct a.
Qed.

Lemma insulated_trans K d0 d1 d2 :
  (∀ r, r ∈ authors d0 → r ∈ authors d1) → insulated K d0 d1 → insulated K d1 d2 → insulated K d0 d2.
Proof.
  intros Hau Hi01 [B1 B2 B3]. pose proof Hi01 as [A1 A2 A3]. split.
  - intros a au Ha Hin Haid Hk. destruct (A1 a au Ha Hin Haid Hk) as (n & Hn & Ha1).
    destruct (B1 _ au Ha1 (Hau _ Hin) Haid Hk) as (n' & Hn' & Ha2). exists n'. simpl in Hn'.
    split; [lia|done].
  - intros id Hid v Hv. rewrite (A2 id Hid v Hv). apply (B2 id); [|done]. by eapply insulated_names.
  - auto.
Qed.

Lemma spares_trans K d0 d1 d2 : spares K d0 d1 → spares K d1 d2 → spares K d0 d2.
Proof.
  intros A B id Hid. destruct (A id Hid) as [H1 V1]. destruct (B id H1) as [H2 V2]. auto.
Qed.

Lemma guar_refl own del db : db_keys db → guar own del db db.
Proof. intros Hk. split; [by apply grown_refl|intros; apply insulated_refl|done]. Qed.

Lemma guar_trans own del d0 d1 d2 : db_keys d0 → guar own del d0 d1 → guar own del d1 d2 → guar own del d0 d2.
Proof.
  intros Hk [A1 A2 A3] [B1 B2 B3]. split.
  - by apply grown_trans with d1.
  - intros K HK. apply insulated_trans with d1; [apply (ev_authors _ _ A1)|auto..].
  - intros K HK. apply spares_trans with d1; auto.
Qed.

(** It suffices to show the two for the key itself. *)
Lemma guar_intro own del d0 db :
  grown d0 db → (∀ K, own ≠ Some K → insulated K d0 db) →
  (∀ K, own = Some K → del ≠ Some K → spares K d0 db) → guar own del d0 db.
Proof.
  intros Hg Hi Hs. split; [done..|]. intros K HK. destruct (decide (own = Some K)) as [He|Hne]; [by apply Hs|].
  apply insulated_spares; [apply (ev_authors _ _ Hg)|by apply Hi].
Qed.

(** Assets unchanged: only the versions count. *)
Lemma names_same K id d0 db : assets db = assets d0 → authors db = authors d0 → names K id db ↔ names K id d0.
Proof. unfold names. by intros -> ->. Qed.

Lemma guar_insert_author own del eoa db : db_keys db → guar own del db (insert_author eoa db).2.
Proof.
  intros Hk. pose proof (grown_insert_author eoa db Hk) as Hg.
  assert (assets (insert_author eoa db).2 = assets db ∧ versions (insert_author eoa db).2 = versions db)
    as [Ha Hv] by (unfold insert_author; by destruct (existsb _ _)).
  apply guar_intro; [done| |].
  - intros K _. split.
    + intros a au Hin _ _ _. exists (as_downloads a). rewrite Ha. split; [lia|]. by destruct a.
    + intros id _ v _. by rewrite Hv.
    + intros id Hn. apply (names_grown K id _ _ Hk Hg Hn).
      destruct Hn as (a & _ & Hin & <- & _). rewrite Ha in Hin. by apply wf_asset_next.
  - intros K _ _ id (a & au & Hin & Hid & Hau & Haid & HK). rewrite Hv. split; [|done].
    exists a, au. rewrite Ha. split_and!; try done. by apply (ev_authors _ _ Hg).
Qed.

Lemma guar_insert_asset K del author m now db :
  db_keys db → am_Name m = K.2 →
  (∃ au, au ∈ authors db ∧ au_id au = author ∧ au_eoa au = K.1.2) →
  guar (Some K) del db (insert_asset K.1.1 author m now db).2.
Proof.
  intros Hk Hnm (au & Hau & Hauid & Heoa).
  assert (grown db (insert_asset K.1.1 author m now db).2) as Hg by (apply grown_insert_asset; eauto).
  revert Hg. unfold insert_asset. destruct (existsb _ _); [intros _; by apply guar_refl|].
  simpl. intros Hg. apply guar_intro; [done| |].
  - intros K' Hne. split; simpl.
    + intros a bu Hin _ _ _. exists (as_downloads a). split; [lia|]. apply elem_of_app. left. by destruct a.
    + done.
    + intros id (a & bu & Hin & Hid & Hbu & Hbid & HK). simpl in *.
      apply elem_of_app in Hin as [Hin|Hin%list_elem_of_singleton]; [by exists a, bu|]. exfalso. subst a.
      simpl in Hbid. apply Hne. f_equal. rewrite <-HK. unfold nat_key. simpl.
      assert (bu = au) as -> by (eapply (NoDup_map_inj au_id); [apply (wf_author_ids _ Hk)|done|done|congruence]).
      rewrite Hnm, Heoa. by destruct K as [[]].
  - intros K' _ _ id (a & bu & Hin & Hid & Hbu & Hbid & HK). split; [|done]. exists a, bu. simpl.
    split_and!; try done. apply elem_of_app. by left.
Qed.

Lemma guar_insert_version K del id version sha body now db :
  db_keys db → bound K id db → guar (Some K) del db (insert_version id version sha body now db).2.
Proof.
  intros Hk [Hlt Hb]. pose proof (grown_insert_version id version sha body now db Hk Hlt) as Hg.
  revert Hg. unfold insert_version. destruct (existsb _ _); [intros _; by apply guar_refl|].
  simpl. intros Hg. apply guar_intro; [done| |].
  - intros K' Hne. split; simpl.
    + intros a bu Hin _ _ _. exists (as_downloads a). split; [lia|]. by destruct a.
    + intros i Hn v Hv. rewrite elem_of_app, list_elem_of_singleton. split; [by left|].
      intros [|Hnew]; [done|]. subst v. simpl in Hv. subst i. apply Hb in Hn. congruence.
    + done.
  - intros K' _ _ i Hn. simpl. split; [done|]. intros v _ Hv. apply elem_of_app. by left.
Qed.

Lemma names_update K id i f db : keeps_keys f → names K i db → names K i (update_asset id f db).
Proof.
  intros Hf (a & au & Ha & Hid & Hau & Haid & HK). exists (if as_id a =? id then f a else a), au.
  destruct (Hf a) as [Hi Hk]. injection Hk as H1 H2 H3.
  split_and!; [apply elem_of_update; by exists a|case_if; congruence|done|case_if; congruence|].
  case_if; [|done]. rewrite <-HK. unfold nat_key. congruence.
Qed.

Lemma guar_update K del id f db :
  db_keys db → keeps_keys f → bound K id db → guar (Some K) del db (update_asset id f db).
Proof.
  intros Hk Hf [Hlt Hb]. pose proof (grown_update id f db Hf Hk) as Hg. apply guar_intro; [done| |].
  - intros K' Hne. split; [|done|].
    + intros a au Ha Hau Haid HK. exists (as_downloads a). split; [lia|]. apply elem_of_update. exists a.
      split; [done|]. case_if; [|by destruct a]. exfalso. apply Hne. f_equal. symmetry. apply Hb.
      exists a, au. by split_and!.
    + intros i Hn. apply (names_grown K' i _ _ Hk Hg Hn). destruct Hn as (a & _ & Ha & <- & _).
      apply (wf_asset_next _ (ev_dbkeys _ _ Hg)) in Ha. done.
  - intros K' _ _ i Hn. split; [|done]. by apply names_update.
Qed.

Lemma guar_delete K id db :
  db_keys db → bound K id db →
  guar (Some K) (Some K) db (delete_asset_row id (delete_versions id db)).
Proof.
  intros Hk [Hlt Hb]. pose proof (grown_delete id db Hk) as Hg. apply guar_intro; [done| |congruence].
  intros K' Hne.
  assert (∀ i, names K' i db → i ≠ id) as Hi by (intros i Hn ->; apply Hb in Hn; congruence).
  split; simpl.
  - intros a au Ha Hau Haid HK. exists (as_downloads a). split; [lia|]. apply list_elem_of_filter.
    split; [|by destruct a]. simpl. apply Hi. by exists a, au.
  - intros i Hn v Hv. rewrite list_elem_of_filter. split; [|tauto]. intros Hin. split; [|done].
    rewrite Hv. by apply Hi.
  - intros i (a & au & Ha & Hid & Hau & Haid & HK). simpl in *.
    apply list_elem_of_filter in Ha as [_ Ha]. by exists a, au.
Qed.

Lemma guar_incr id db : db_keys db → guar None None db (update_asset id incr_downloads db).
Proof.
  intros Hk. assert (keeps_keys incr_downloads) as Hf by done.
  pose proof (grown_update id incr_downloads db Hf Hk) as Hg. apply guar_intro; [done| |done].
  intros K _. split; [|done|].
  - intros a au Ha Hau Haid HK. exists (if as_id a =? id then as_downloads a + 1 else as_downloads a).
    split; [case_if; lia|]. apply elem_of_update. exists a. split; [done|]. case_if; by destruct a.
  - intros i Hn. apply (names_grown K i _ _ Hk Hg Hn). destruct Hn as (a & _ & Ha & <- & _).
    by apply (wf_asset_next _ (ev_dbkeys _ _ Hg)) in Ha.
Qed.
