(* ===== verification/MarketConcProofs.v ===== *)
(** * Every store request keeps its guarantee

    For each method of [MarketConc], from a database with its keys in order and
    under any rely in which the others keep the keys: what it writes stays
    under its own (type, author, name), only a deletion removes, and a push that
    answers Ok was the one to publish its version. *)

From S2P Require Import Prelude GoStrings Strconv Hardware GoTime MarketStore MarketStoreProofs.
From S2P Require Import MarketStoreTheorems MarketConc MarketConcLogic.
From Stdlib Require Import ZArith Lia ZifyBool Bool Ascii String.
From stdpp Require Import base option list gmap strings.

Open Scope go_scope.
Open Scope Z_scope.

(** The others keep the keys, and remove nothing stored under the names of [X]. *)
Definition rely (X : nkey → bool) (d0 db : DB) : Prop :=
  db_keys d0 → grown d0 db ∧ ∀ K, X K = true → spares K d0 db.

#[export] Instance rely_preorder X : PreOrder (rely X).
Proof.
  split.
  - intros db Hk. split; [by apply grown_refl|]. by intros K _ id.
  - intros a b c Hab Hbc Hk. destruct (Hab Hk) as [Hg Hs].
    destruct (Hbc (ev_dbkeys _ _ Hg)) as [Hg' Hs']. split; [by apply grown_trans with b|].
    intros K HK. apply spares_trans with b; auto.
Qed.

Lemma guar_rely X own del d0 db :
  (∀ K, X K = true → del ≠ Some K) → guar own del d0 db → rely X d0 db.
Proof. intros HX [Hg _ Hs] _. split; [done|]. auto. Qed.

Section assertions.
Context (X : nkey → bool).

(** Assertions about a database whose keys are in order. *)
Definition firm (P : DB → Prop) : Prop := stable (rely X) (λ db, db_keys db ∧ P db).

Lemma firm_and P P' : firm P → firm P' → firm (λ db, P db ∧ P' db).
Proof.
  intros H H' db db' HR (Hk & HP & HP').
  destruct (H db db' HR (conj Hk HP)) as [? ?]. by destruct (H' db db' HR (conj Hk HP')) as [? ?].
Qed.

Lemma firm_const (b : Prop) : firm (λ _, b).
Proof. intros db db' HR [Hk Hb]. split; [|done]. apply (HR Hk). Qed.

Lemma firm_imp (b : Prop) P : (b → firm P) → firm (λ db, b → P db).
Proof.
  intros H db db' HR [Hk HP]. split; [apply (HR Hk)|]. intros Hb.
  by destruct (H Hb db db' HR (conj Hk (HP Hb))).
Qed.

Lemma firm_stable P : firm P → stable (rely X) (λ db, db_keys db ∧ P db).
Proof. done. Qed.

Definition author_row (eoa : string) (id : Z) (db : DB) : Prop :=
  ∃ au, au ∈ authors db ∧ au_id au = id ∧ au_eoa au = eoa.

Lemma firm_author eoa id : firm (author_row eoa id).
Proof.
  intros db db' HR [Hk (au & Hau & H)]. destruct (HR Hk) as [Hg _]. split; [apply Hg|].
  exists au. split; [by apply (ev_authors _ _ Hg)|done].
Qed.

(** The id is [K]'s asset or gone; there, if nothing of [K] is ever removed. *)
Definition held (K : nkey) (id : Z) (db : DB) : Prop :=
  bound K id db ∧ (X K = true → names K id db).

Lemma firm_bound K id : firm (bound K id).
Proof.
  intros db db' HR [Hk Hb]. destruct (HR Hk) as [Hg _]. split; [apply Hg|]. by eapply bound_grown.
Qed.

Lemma firm_names K id : X K = true → firm (names K id).
Proof.
  intros HX db db' HR [Hk Hn]. destruct (HR Hk) as [Hg Hs]. split; [apply Hg|]. by apply (Hs K HX id).
Qed.

Lemma firm_held K id : firm (held K id).
Proof. apply firm_and; [apply firm_bound|]. apply firm_imp. intros HX. by apply firm_names. Qed.

(** The version row of a push. *)
Definition stored (inp : PushInput) (id : Z) (db : DB) : Prop :=
  ∃ v, v ∈ versions db ∧ v_asset_id v = id ∧ v_version v = am_Version (pi_Meta inp) ∧
       v_body v = pi_RecipeBody inp ∧ v_sha256 v = pi_SHA256 inp.

Definition kept (inp : PushInput) (K : nkey) (id : Z) (db : DB) : Prop := names K id db ∧ stored inp id db.

Lemma firm_kept inp K id : X K = true → firm (kept inp K id).
Proof.
  intros HX db db' HR [Hk [Hn (v & Hv & Hid & H)]]. destruct (HR Hk) as [Hg Hs]. split; [apply Hg|].
  destruct (Hs K HX id Hn) as [Hn' Hv']. split; [done|]. exists v. split; [by apply Hv'|done].
Qed.
End assertions.

Create HintDb firm.
#[export] Hint Resolve firm_and firm_const firm_imp firm_author firm_held firm_kept : firm.

Section requests.
Context {U : GoUnicode} {Q : SqlEnv}.

(** ** What each request writes *)

Definition put_key (inp : PushInput) : nkey :=
  (pi_Type inp, to_lower (pi_Author inp), am_Name (pi_Meta inp)).

(** The name a request writes under, and the one it deletes. *)
Definition writes (op : store_op) : option nkey :=
  match op with
  | OpPut inp => Some (put_key inp)
  | OpVisibility typ eoa name _ | OpPrice typ eoa name _ _ | OpMeta typ eoa name _ _
  | OpDelete typ eoa name => Some (typ, to_lower eoa, name)
  | _ => None
  end.
Definition deletes (op : store_op) : option nkey :=
  match op with OpDelete typ eoa name => Some (typ, to_lower eoa, name) | _ => None end.

(** The version is published under the name. *)
Definition has_version (K : nkey) (version : string) (db : DB) : Prop :=
  ∃ id, names K id db ∧ ∃ v, v ∈ versions db ∧ v_asset_id v = id ∧ v_version v = version.
Definition appears (K : nkey) (version : string) (d0 db : DB) : Prop :=
  ¬ has_version K version d0 ∧ has_version K version db.

(** The event a push makes happen once. *)
Definition event (op : store_op) : DB → DB → Prop :=
  match op with
  | OpPut inp => appears (put_key inp) (am_Version (pi_Meta inp))
  | _ => λ _ _, False
  end.

Context (X : nkey → bool).

(** What a request's answer says of the database, if the rely spares its name. *)
Definition answered (op : store_op) (w : bool) (r : result store_err answer) (db : DB) : Prop :=
  match op, r with
  | OpPut inp, Ok ans => X (put_key inp) = true →
      w = true ∧ (∃ a, ans = AAsset (Some a)) ∧ ∃ id, kept inp (put_key inp) id db
  | _, _ => True
  end.

Definition guarded (op : store_op) (w : bool) (p : prog answer) (db : DB) : Prop :=
  rg (rely X) (guar (writes op) (deletes op)) (event op)
     (λ w r db, db_keys db ∧ answered op w r db) w p db.

Section walk.
Context (own del : option nkey) (E : DB → DB → Prop).
#[local] Notation triple_c P p Q := (rt (rely X) (guar own del) E P p Q).
(** An assertion about the database and the flag, the keys being in order. *)
#[local] Notation "⟪ P ⟫" := (λ w db, db_keys db ∧ P w db).

(** *** Reads *)

Lemma rt_reading {A} (m : M A) (I : bool → DB → Prop) :
  (∀ db fs, (m db fs).1.2 = db) → (∀ w, firm X (I w)) →
  triple_c ⟪I⟫ (atomic m) (λ w _, ⟪I⟫ w).
Proof.
  intros Hm HI. apply rt_read; [done| |intros w; apply HI|intros w _; apply HI|done].
  intros w db [Hk _]. by apply guar_refl.
Qed.

Lemma ListVersions_same typ eoa name db fs : (ListVersions typ eoa name db fs).1.2 = db.
Proof.
  pose proof (ListVersions_keeps eq typ eoa name db fs) as H. by destruct (ListVersions _ _ _ db fs) as [[]].
Qed.
Lemma assetIDVis_same typ eoa name db fs : (assetIDVis typ eoa name db fs).1.2 = db.
Proof.
  pose proof (assetIDVis_keeps eq typ eoa name db fs) as H. by destruct (assetIDVis _ _ _ db fs) as [[]].
Qed.

(** *** Programs that keep an assertion *)

Section keep.
Context (I : bool → DB → Prop) (HI : ∀ w, firm X (I w)).
#[local] Notation keep p := (triple_c ⟪I⟫ p (λ w _, ⟪I⟫ w)).

Lemma keep_ret {A} (a : A) : keep (pret a).
Proof. apply rt_ret; [intros w; apply HI|done]. Qed.
Lemma keep_raise {A} e : keep (praise (A:=A) e).
Proof. apply rt_raise; [intros w; apply HI|done]. Qed.
Lemma keep_bind {A B} (p : prog A) (k : A → prog B) : keep p → (∀ a, keep (k a)) → keep (pbind p k).
Proof. intros Hp Hk. by eapply rt_bind; [apply _|apply Hp|apply Hk|]. Qed.
Lemma keep_catch {A} (p : prog A) : keep p → keep (pcatch p).
Proof. intros Hp. by eapply rt_catch; [apply Hp|]. Qed.
Lemma keep_query {A} (f : DB → A) : keep (atomic (query f)).
Proof. apply rt_reading; [apply query_same|done]. Qed.
Lemma keep_query_row {A} (f : DB → option A) : keep (atomic (query_row f)).
Proof. apply rt_reading; [apply query_row_same|done]. Qed.
Lemma keep_ListVersions typ eoa name : keep (atomic (ListVersions typ eoa name)).
Proof. apply rt_reading; [apply ListVersions_same|done]. Qed.
Lemma keep_assetIDVis typ eoa name : keep (atomic (assetIDVis typ eoa name)).
Proof. apply rt_reading; [apply assetIDVis_same|done]. Qed.
Lemma keep_exec f :
  (∀ w db, db_keys db → I w db → guar own del db (f db) ∧ I w (f db)) → keep (atomic (exec f)).
Proof.
  intros Hf. apply rt_stmt.
  - intros w db [Hk _]. by apply guar_refl.
  - intros w. apply HI.
  - intros w _. apply HI.
  - done.
  - intros w db [Hk HP]. destruct (Hf w db Hk HP) as [Hg HP']. split; [done|]. exists w.
    split; [by left|]. split; [apply Hg|done].
Qed.
End keep.
End walk.
End requests.

Ltac keep_step :=
  match goal with
  | |- rt _ _ _ _ (pbind _ _) _ => apply keep_bind; [|intros ?]
  | |- rt _ _ _ _ (pcatch _) _ => apply keep_catch
  | |- rt _ _ _ _ (pret _) _ => apply keep_ret; solve [auto with firm]
  | |- rt _ _ _ _ (praise _) _ => apply keep_raise; solve [auto with firm]
  | |- rt _ _ _ _ (atomic (query _)) _ => apply keep_query; solve [auto with firm]
  | |- rt _ _ _ _ (atomic (query_row _)) _ => apply keep_query_row; solve [auto with firm]
  | |- rt _ _ _ _ (atomic (ListVersions _ _ _)) _ => apply keep_ListVersions; solve [auto with firm]
  | |- rt _ _ _ _ (atomic (assetIDVis _ _ _)) _ => apply keep_assetIDVis; solve [auto with firm]
  | |- rt _ _ _ _ (if ?b then _ else _) _ => destruct b
  | |- rt _ _ _ _ (match ?x with _ => _ end) _ => destruct x
  end.
Ltac keep_tac := repeat keep_step.

Section methods.
Context {U : GoUnicode} {Q : SqlEnv} (X : nkey → bool) (own del : option nkey) (E : DB → DB → Prop).
#[local] Notation triple_c P p Q := (rt (rely X) (guar own del) E P p Q).
#[local] Notation "⟪ P ⟫" := (λ w db, db_keys db ∧ P w db).

Section reads.
Context (I : bool → DB → Prop) (HI : ∀ w, firm X (I w)).
#[local] Notation keep p := (triple_c ⟪I⟫ p (λ w _, ⟪I⟫ w)).

Lemma list_assetsP_rt f mine pub : keep (list_assetsP f mine pub).
Proof. unfold list_assetsP. keep_tac. Qed.
Lemma GetAssetP_rt typ eoa name version : keep (GetAssetP typ eoa name version).
Proof. unfold GetAssetP. keep_tac. Qed.
Lemma GetRecipeP_rt typ eoa name version : keep (GetRecipeP typ eoa name version).
Proof. unfold GetRecipeP. keep_tac. Qed.

(** An asset that is there is found. *)
Lemma GetAssetP_found typ eoa name :
  (∀ w db, I w db → X (typ, to_lower eoa, name) = true → ∃ id, names (typ, to_lower eoa, name) id db) →
  triple_c ⟪I⟫ (GetAssetP typ eoa name "")
    (λ w r db, ⟪I⟫ w db ∧ (X (typ, to_lower eoa, name) = true → r ≠ Ok None)).
Proof.
  intros Hn. unfold GetAssetP.
  apply rt_bind with (Q1 := λ w r db, ⟪I⟫ w db ∧ (X (typ, to_lower eoa, name) = true → r ≠ Ok (Err ErrNoRows)));
    [apply _| | |by intros w e db [? _]].
  - apply rt_catch with (Q1 := λ w r db, ⟪I⟫ w db ∧ (X (typ, to_lower eoa, name) = true → r ≠ Err ErrNoRows));
      [|intros w r db [? Hr]; split; [done|]; intros HX [= ->]; by apply Hr].
    apply rt_read; [apply query_row_same|by intros w db [Hk _]; apply guar_refl|intros w; apply HI| |].
    + intros w r db db' HR [HP Hr]. split; [by apply (HI w db)|done].
    + intros w db fs [Hk HP]. split; [done|]. intros HX. destruct (Hn w db HP HX) as [id Hid].
      apply names_joined in Hid as (a & au & Hj & _); [|done]. simpl in Hj.
      unfold query_row, stmt. by destruct fs as [|[msg|] fs]; simpl; rewrite ?Hj.
  - intros [r|[]].
    + eapply rt_weaken with (P' := ⟪I⟫) (Q' := λ w r db, ⟪I⟫ w db ∧ r ≠ Ok None);
        [|by intros w db [? _]|by intros w r' db [? ?]].
      apply rt_bind with (Q1 := λ w _, ⟪I⟫ w); [apply _|apply keep_ListVersions, HI| |by intros w e db].
      intros vs. apply rt_ret; [intros w; apply HI|done].
    + apply rt_raise; [|by intros w db [? _]]. intros w db db' HR [HP Hr]. split; [by apply (HI w db)|done].
    + apply rt_raise; [|by intros w db [? _]]. intros w db db' HR [HP Hr]. split; [by apply (HI w db)|done].
    + intros w db [HP Hr]. simpl. intros db' HR. split; [by apply (HI w db)|]. intros HX. by destruct Hr.
    + apply rt_raise; [|by intros w db [? _]]. intros w db db' HR [HP Hr]. split; [by apply (HI w db)|done].
Qed.
End reads.

(** *** Updates of one asset *)

Lemma keep_update K id f (I : bool → DB → Prop) :
  (∀ w, firm X (I w)) → own = Some K → keeps_keys f → (∀ w db, I w db → bound K id db) →
  (∀ w db, I w db → I w (update_asset id f db)) →
  triple_c ⟪I⟫ (atomic (exec (update_asset id f))) (λ w _, ⟪I⟫ w).
Proof.
  intros HI Ho Hf Hb Hu. apply keep_exec; [done|]. intros w db Hk HP. rewrite Ho.
  split; [|by apply Hu]. by eapply guar_update, Hb.
Qed.

Lemma bound_update K id i f db : keeps_keys f → bound K i db → bound K i (update_asset id f db).
Proof.
  intros Hf [Hlt Hb]. split; [done|]. intros K' (a & au & (b & Hb' & ->)%elem_of_update & Hid & Hau & Haid & HK).
  apply Hb. destruct (Hf b) as [Hi Hk]. injection Hk as H1 H2 H3. exists b, au. simpl in Hau.
  split_and!; [done|by revert Hid; case_if; congruence|done|by revert Haid; case_if; congruence|].
  rewrite <-HK. unfold nat_key. case_if; congruence.
Qed.

Lemma keep_bound_update K id f :
  own = Some K → keeps_keys f →
  triple_c ⟪λ _, bound K id⟫ (atomic (exec (update_asset id f))) (λ w _, ⟪λ _, bound K id⟫ w).
Proof.
  intros Ho Hf. apply (keep_update K id); try done.
  - intros w. apply firm_bound.
  - intros w db. by apply bound_update.
Qed.

(** What [assetIDVis] finds is held. *)
Lemma assetIDVis_rt typ eoa name :
  triple_c ⟪λ _ _, True⟫ (atomic (assetIDVis typ eoa name))
    (λ w r db, db_keys db ∧ match r with Ok (id, _) => bound (typ, to_lower eoa, name) id db | Err _ => True end).
Proof.
  apply rt_read; [apply assetIDVis_same|by intros w db [Hk _]; apply guar_refl|intros w; apply firm_const| |].
  - intros w [[id vis]|e]; [apply firm_bound|apply firm_const].
  - intros w db fs [Hk _]. split; [done|]. pose proof (assetIDVis_spec typ eoa name db fs) as Hs.
    destruct (assetIDVis typ eoa name db fs) as [[[[id vis]|e] d] f]; [|done]. simpl.
    destruct Hs as [-> (a & au & Hj & -> & _)]. apply names_bound; [done|]. apply names_joined; [done|].
    by exists a, au.
Qed.

(** *** The writing methods *)

Notation top := ⟪λ _ _, True⟫.

(** Find the asset, then go on keeping it. *)
Lemma with_asset {A} typ eoa name (k : Z * string → prog A) :
  (∀ id vis, triple_c ⟪λ _, bound (typ, to_lower eoa, name) id⟫ (k (id, vis))
     (λ w _, ⟪λ _, bound (typ, to_lower eoa, name) id⟫ w)) →
  triple_c top (pbind (atomic (assetIDVis typ eoa name)) k) (λ w _, top w).
Proof.
  intros Hk. eapply rt_bind; [apply _|apply assetIDVis_rt| |by intros w e db [? _]].
  intros [id vis]. eapply rt_weaken; [apply Hk|done|]. by intros w r db [? _].
Qed.

Lemma SetVisibilityP_rt typ eoa name vis now :
  own = Some (typ, to_lower eoa, name) → triple_c top (SetVisibilityP typ eoa name vis now) (λ w _, top w).
Proof.
  intros Ho. unfold SetVisibilityP. apply with_asset. intros id cur.
  assert (∀ w : bool, firm X (bound (typ, to_lower eoa, name) id)) by (intros; apply firm_bound).
  keep_tac. by apply keep_bound_update.
Qed.

Lemma SetPriceP_rt typ eoa name price token now :
  own = Some (typ, to_lower eoa, name) → triple_c top (SetPriceP typ eoa name price token now) (λ w _, top w).
Proof.
  intros Ho. unfold SetPriceP. apply with_asset. intros id cur.
  assert (∀ w : bool, firm X (bound (typ, to_lower eoa, name) id)) by (intros; apply firm_bound).
  keep_tac. by apply keep_bound_update.
Qed.

Lemma SetMetaP_rt typ eoa name tags summary now :
  own = Some (typ, to_lower eoa, name) → triple_c top (SetMetaP typ eoa name tags summary now) (λ w _, top w).
Proof.
  intros Ho. unfold SetMetaP. apply with_asset. intros id cur.
  assert (∀ w : bool, firm X (bound (typ, to_lower eoa, name) id)) by (intros; apply firm_bound).
  keep_tac; by apply keep_bound_update.
Qed.

Lemma DeleteAssetP_rt typ eoa name :
  own = Some (typ, to_lower eoa, name) → del = Some (typ, to_lower eoa, name) →
  triple_c top (DeleteAssetP typ eoa name) (λ w _, top w).
Proof.
  intros Ho Hd. unfold DeleteAssetP.
  apply rt_bind with (Q1 := λ w r db, db_keys db ∧ match r with Ok (Ok (id, _)) =>
      bound (typ, to_lower eoa, name) id db | _ => True end);
    [apply _|by eapply rt_catch; [apply assetIDVis_rt|]| |by intros w e db [? _]].
  intros [[id vis]|[]]; [|apply keep_ret; auto with firm|apply keep_raise; auto with firm..].
  apply rt_bind with (Q1 := λ w _, top w); [apply _| | |done].
  - apply rt_action; [intros w; apply firm_bound|intros w _; apply firm_const|].
    intros w db fs [Hk Hb].
    pose proof (transaction_cases (let* _ := exec (delete_versions id) in exec (delete_asset_row id)) db fs) as Ht.
    destruct (transaction _ db fs) as [[r d] f]. rewrite Ho, Hd.
    assert (guar (Some (typ, to_lower eoa, name)) (Some (typ, to_lower eoa, name)) db d) as Hg.
    { destruct Ht as [[-> _]|(_ & f1 & u & f2 & ->%delete_body)]; [by apply guar_refl|by apply guar_delete]. }
    split; [done|]. split; [apply Hg|done].
  - intros u. apply keep_ret. auto with firm.
Qed.

Lemma guar_none db d : guar None None db d → guar own del db d.
Proof. intros [Hg Hi Hs]. split; [done|by intros K _; apply Hi|by intros K _; apply Hs]. Qed.

Lemma IncrDownloads_rt typ eoa name : triple_c top (atomic (IncrDownloads typ eoa name)) (λ w _, top w).
Proof.
  apply keep_exec; [auto with firm|]. intros w db Hk _. split; [|done].
  destruct (asset_joined _ _ _ _) as [[a au]|]; [|by apply guar_refl]. by apply guar_none, guar_incr.
Qed.
End methods.
