(* ===== verification/MarketConcPut.v ===== *)
(** * A push among other requests

    The push, statement by statement, under the logic of [MarketConcLogic]: it
    writes under its own name only, and its Ok means that this push made the
    version appear and that the version is there, with its body and digest, as
    long as nobody deletes the asset.  Then every request of the store. *)

From S2P Require Import Prelude GoStrings Strconv Hardware GoTime MarketStore MarketStoreProofs.
From S2P Require Import MarketStoreTheorems MarketConc MarketConcLogic MarketConcProofs.
From Stdlib Require Import ZArith Lia ZifyBool Bool Ascii String.
From stdpp Require Import base option list gmap strings.

Open Scope go_scope.
Open Scope Z_scope.

Section put.
Context {U : GoUnicode} {Q : SqlEnv} (X : nkey → bool) (inp : PushInput) (now : string).
#[local] Notation K := (put_key inp).
#[local] Notation triple_c P p Q := (rt (rely X) (guar (Some K) None) (event (OpPut inp)) P p Q).
#[local] Notation "⟪ P ⟫" := (λ w db, db_keys db ∧ P w db).
#[local] Notation eoa := (to_lower (pi_Author inp)).

(** The row of the author, whoever inserted it. *)
#[local] Definition author_post (r : result store_err Z) (db : DB) : Prop :=
  match r with Ok id => author_row eoa id db | Err _ => True end.

Lemma firm_author_post r : firm X (author_post r).
Proof. destruct r; [apply firm_author|apply firm_const]. Qed.
Hint Resolve firm_author_post : firm.

#[local] Definition caught {A} (P : result store_err A → DB → Prop)
  (r : result store_err (result store_err A)) (db : DB) : Prop :=
  match r with Ok r => P r db | Err _ => True end.

Lemma firm_caught {A} (P : result store_err A → DB → Prop) r : (∀ r, firm X (P r)) → firm X (caught P r).
Proof. intros HP. destruct r; [apply HP|apply firm_const]. Qed.

Lemma select_author_rt (P : bool → DB → Prop) :
  (∀ w, firm X (P w)) →
  triple_c ⟪P⟫ (pcatch (atomic (query_row (λ db, au_id <$> find (λ r, au_eoa r =s? eoa) (authors db)))))
    (λ w r db, db_keys db ∧ caught author_post r db).
Proof.
  intros HP. eapply rt_catch with (Q1 := λ w r db, db_keys db ∧ author_post r db); [|done].
  apply rt_read; [apply query_row_same|by intros w db [Hk _]; apply guar_refl|done|intros w r; apply firm_author_post|].
  intros w db fs [Hk _]. split; [done|]. unfold query_row, stmt.
  assert (match (au_id <$> find (λ r, au_eoa r =s? eoa) (authors db)) with
          | Some id => author_row eoa id db | None => True end) as Hf.
  { destruct (find _ _) as [r|] eqn:Hf; [|done]. simpl. apply find_some in Hf as [Hr He%String.eqb_eq].
    exists r. split; [by apply list_elem_of_In|done]. }
  by destruct fs as [|[msg|] fs]; simpl; destruct (au_id <$> _).
Qed.

(** Giving back what is known, or an error. *)
Lemma give_rt {A} (P : result store_err A → DB → Prop) (r : result store_err A) (I : DB → Prop) :
  firm X I → (∀ db, I db → P r db) → triple_c ⟪λ _, I⟫ (Done r) (λ w r db, db_keys db ∧ P r db).
Proof. intros HI HP w db H db' HR. destruct (HI db db' HR H) as [Hk H']. split; [done|by apply HP]. Qed.

Lemma insert_author_rt :
  triple_c ⟪λ _ _, True⟫ (atomic (stmt (insert_author eoa))) (λ w r db, db_keys db ∧ author_post r db).
Proof.
  apply rt_stmt; [by intros w db [Hk _]; apply guar_refl|intros w; apply firm_const|
    intros w r; apply firm_author_post|done|].
  intros w db [Hk _]. pose proof (guar_insert_author (Some K) None eoa db Hk) as Hg. revert Hg.
  unfold insert_author. destruct (existsb _ _); intros Hg; (split; [done|]); exists w; (split; [by left|]);
    (split; [apply Hg|]); [done|]. eexists. split; [apply elem_of_app; right; by left|done].
Qed.

Lemma authorIDP_rt : triple_c ⟪λ _ _, True⟫ (authorIDP (pi_Author inp)) (λ w r db, db_keys db ∧ author_post r db).
Proof.
  unfold authorIDP.
  eapply rt_bind; [apply _|apply select_author_rt; intros; apply firm_const| |by intros w e db [? _]].
  intros [id|e]; [by apply give_rt; [apply firm_author|]|].
  destruct e; try (by apply give_rt; [apply firm_caught, firm_author_post|]).
  apply rt_bind with (Q1 := λ w r db, db_keys db ∧ caught author_post r db);
    [apply _|by eapply rt_catch; [apply insert_author_rt|]| |by intros w e db [? _]].
  intros [id|e]; [by apply give_rt; [apply firm_author|]|].
  eapply rt_bind; [apply _|apply select_author_rt; intros; apply firm_caught, firm_author_post| |by intros w e2 db [? _]].
  intros [id|e2]; [by apply give_rt; [apply firm_author|]|by apply give_rt; [apply firm_caught, firm_author_post|]].
Qed.

(** The asset row of the name, whoever inserted it. *)
#[local] Definition held_post (r : result store_err Z) (db : DB) : Prop :=
  match r with Ok id => held X K id db | Err _ => True end.

Lemma firm_held_post r : firm X (held_post r).
Proof. destruct r; [apply firm_held|apply firm_const]. Qed.

Lemma put_findP_rt author :
  triple_c ⟪λ _, author_row eoa author⟫ (put_findP inp now author) (λ w r db, db_keys db ∧ held_post r db).
Proof.
  unfold put_findP.
  apply rt_bind with (Q1 := λ w r db, db_keys db ∧ author_row eoa author db ∧ caught held_post r db);
    [apply _| | |by intros w e db [? _]].
  - eapply rt_catch with (Q1 := λ w r db, db_keys db ∧ author_row eoa author db ∧ held_post r db); [|done].
    apply rt_read; [apply query_row_same|by intros w db [Hk _]; apply guar_refl|intros w; apply firm_author| |].
    + intros w r. apply firm_and; [apply firm_author|apply firm_held_post].
    + intros w db fs [Hk Hau]. split; [done|]. split; [done|]. unfold query_row, stmt, asset_by_key.
      assert (match (as_id <$> find (λ a, (as_type a =s? pi_Type inp) && (as_author_id a =? author) &&
                 (as_name a =s? am_Name (pi_Meta inp))) (assets db)) with
              | Some id => held X K id db | None => True end) as Hf.
      { destruct (find _ _) as [a|] eqn:Hf; [|done]. simpl. apply find_some in Hf as [Ha Hm]. breflect_all.
        apply list_elem_of_In in Ha. destruct Hau as (au & Hin & Hid & He).
        assert (names K (as_id a) db) as Hn.
        { exists a, au. split_and!; try done; [congruence|]. unfold nat_key, put_key. congruence. }
        split; [by apply names_bound|done]. }
      by destruct fs as [|[msg|] fs]; simpl; destruct (as_id <$> _).
  - assert (∀ r, firm X (λ db, author_row eoa author db ∧ caught held_post r db)) as Hf
      by (intros r; apply firm_and; [apply firm_author|apply firm_caught, firm_held_post]).
    intros [id|e]; [apply give_rt; [apply Hf|by intros db [_ ?]]|].
    destruct e; try (by apply give_rt; [apply Hf|]).
    apply rt_stmt; [by intros w db [Hk _]; apply guar_refl|intros w|intros w r; apply firm_held_post|by intros w m db [? _]|].
    + apply Hf.
    + intros w db [Hk [(au & Hin & Hid & He) _]].
      assert (guar (Some K) None db (insert_asset (pi_Type inp) author (pi_Meta inp) now db).2) as Hg
        by (apply (guar_insert_asset K); [done|done|by exists au]).
      revert Hg. unfold insert_asset. destruct (existsb _ _); intros Hg; (split; [done|]); exists w;
        (split; [by left|]); (split; [apply Hg|]); [done|]. simpl.
      match goal with |- held X K ?i ?d => assert (names K i d) as Hn end.
      { eexists _, au. split_and!; [apply elem_of_app; right; by left|done|done|done|]. unfold nat_key, put_key. simpl. congruence. }
      split; [by apply names_bound; [apply Hg|]|done].
Qed.

(** The version is this push's own. *)
Definition won (id : Z) (w : bool) (db : DB) : Prop :=
  bound K id db ∧ (X K = true → w = true ∧ kept inp K id db).

Lemma firm_won id w : firm X (won id w).
Proof.
  apply firm_and; [apply firm_bound|]. apply firm_imp. intros HX.
  apply firm_and; [apply firm_const|by apply firm_kept].
Qed.

Lemma insert_version_rt id :
  triple_c ⟪λ _, held X K id⟫
    (atomic (stmt (insert_version id (am_Version (pi_Meta inp)) (pi_SHA256 inp) (pi_RecipeBody inp) now)))
    (λ w r db, db_keys db ∧ match r with Ok _ => won id w db | Err _ => True end).
Proof.
  apply rt_stmt; [by intros w db [Hk _]; apply guar_refl|intros w; apply firm_held| |by intros w m db [? _]|].
  - intros w [u|e]; [apply firm_won|apply firm_const].
  - intros w db [Hk [Hb Hn]].
    pose proof (guar_insert_version K None id (am_Version (pi_Meta inp)) (pi_SHA256 inp)
      (pi_RecipeBody inp) now db Hk Hb) as Hg. revert Hg.
    unfold insert_version. destruct (existsb _ _) eqn:Hex; intros Hg; (split; [done|]); [exists w; auto|].
    exists (if X K then true else w). simpl in Hg.
    set (v := mkVersionRow _ _ _ _ _ _) in *. set (db' := mkDB _ _ _ _ _ _) in *.
    assert (v ∈ versions db') as Hv by (apply elem_of_app; right; by left).
    split; [|split; [apply Hg|]].
    + destruct (X K) eqn:HX; [right|by left]. split; [done|]. split.
      * intros (i & Hi & v' & Hv' & Hid & Hver). assert (i = id) as -> by (eapply names_id; [done|done|by apply Hn]).
        apply (existsb_false _ _ _ Hex) in Hv'. by rewrite Hid, Hver, Z.eqb_refl, String.eqb_refl in Hv'.
      * exists id. split; [by apply (names_same K id db db'), Hn|]. by exists v.
    + split; [exact Hb|]. intros HX. rewrite HX. split; [done|]. split; [by apply Hn|]. by exists v.
Qed.

Lemma won_update id f w db : keeps_keys f → won id w db → won id w (update_asset id f db).
Proof.
  intros Hf [Hb Hw]. split; [by apply bound_update|]. intros HX. destruct (Hw HX) as [? [Hn Hs]].
  split; [done|]. split; [by apply names_update|done].
Qed.

Lemma refreshLatestP_rt id :
  triple_c ⟪won id⟫ (refreshLatestP id (pi_Meta inp) now) (λ w _, ⟪won id⟫ w).
Proof.
  assert (∀ w, firm X (won id w)) as HI by apply firm_won.
  unfold refreshLatestP. keep_tac;
    (apply (keep_update X _ _ _ K); [done|done|done|by intros w db []|by intros; apply won_update]).
Qed.

Lemma PutAssetP_rt :
  triple_c ⟪λ _ _, True⟫ (PutAssetP inp now)
    (λ w r db, db_keys db ∧ ∀ a, r = Ok a → X K = true → w = true ∧ is_Some a ∧ ∃ id, kept inp K id db).
Proof.
  unfold PutAssetP. eapply rt_bind; [apply _|apply authorIDP_rt| |by intros w e db [? _]].
  intros author. eapply rt_bind; [apply _|apply put_findP_rt| |by intros w e db [? _]].
  intros id.
  apply rt_bind with (Q1 := λ w r db, db_keys db ∧ match r with Ok (Ok _) => won id w db | _ => True end);
    [apply _|by eapply rt_catch; [apply insert_version_rt|]| |by intros w e db [? _]].
  intros [u|e]; [|destruct (isUniqueViolation e); (apply rt_raise; [intros w; apply firm_const|by intros w db [? _]])].
  apply rt_bind with (Q1 := λ w _, ⟪won id⟫ w); [apply _|apply refreshLatestP_rt| |by intros w e db [? _]].
  intros _. eapply rt_bind; [apply _|apply (GetAssetP_found X _ _ _ (won id))| |by intros w e db [[? _] _]].
  - apply firm_won.
  - intros w db [_ Hw] HX. exists id. by apply Hw.
  - intros a. apply rt_ret.
    + intros w db db' HR [H Ha]. split; [by apply (firm_won id w db)|done].
    + intros w db [[Hk [_ Hw]] Ha]. split; [done|]. intros a' [= <-] HX. destruct (Hw HX) as [-> Hs].
      split; [done|]. split; [|by exists id]. destruct a as [[a vs]|]; [by eexists|]. by destruct (Ha HX).
Qed.
End put.

(** ** Every request *)

Section all.
Context {U : GoUnicode} {Q : SqlEnv} (X : nkey → bool).

Lemma prog_of_guarded op now db : db_keys db → guarded X op false (prog_of op now) db.
Proof.
  intros Hk. unfold guarded.
  assert (∀ {A} (p : prog A) (k : A → prog answer),
    rt (rely X) (guar (writes op) (deletes op)) (event op) (λ w db, db_keys db ∧ True) p
      (λ w _ db, db_keys db ∧ True) →
    (∀ a, ∃ r, k a = Done r) → (∀ w r d, answered X op w r d) →
    rg (rely X) (guar (writes op) (deletes op)) (event op)
      (λ w r db, db_keys db ∧ answered X op w r db) false (pbind p k) db) as Hplain.
  { intros A p k Hp Hr Ha. eapply (rt_bind (rely X) _ _ p k (λ w db, db_keys db ∧ True)); [apply Hp| |by intros w e d [? _]|done].
    intros a w d [Hd _]. destruct (Hr a) as [r ->]. intros d' HR. split; [apply (HR Hd)|apply Ha]. }
  assert (∀ w : bool, firm X (λ _, True)) as HI by (intros; apply firm_const).
  destruct op; cbn [prog_of]; try (apply Hplain; [|by intros []; eexists|done]).
  - eapply (rt_bind (rely X) _ _ _ _ (λ w db, db_keys db ∧ True)); [apply PutAssetP_rt| |by intros w e d [? _]|done].
    intros a w d [Hd Ha]. intros d' HR. destruct (HR Hd) as [Hg Hs]. split; [apply Hg|]. intros HX.
    destruct (Ha a eq_refl HX) as (-> & [b ->] & id & Hkept). split; [done|]. split; [by exists b|].
    exists id. by apply (firm_kept X inp _ id HX d d').
  - by apply SetVisibilityP_rt.
  - by apply SetPriceP_rt.
  - by apply SetMetaP_rt.
  - by apply DeleteAssetP_rt.
  - apply IncrDownloads_rt.
  - by apply (list_assetsP_rt X _ _ _ (λ _ _, True)).
  - by apply (list_assetsP_rt X _ _ _ (λ _ _, True)).
  - by apply (GetAssetP_rt X _ _ _ (λ _ _, True)).
  - by apply (keep_ListVersions X _ _ _ (λ _ _, True)).
  - by apply (GetRecipeP_rt X _ _ _ (λ _ _, True)).
Qed.
End all.
