(* ===== verification/MarketConcTheorems.v ===== *)
(** * Properties of the store under concurrent requests

    For every interleaving of any requests, with any failing statements: the
    keys stay unique, a published version stays as it is, what a request does
    to other names is nothing; of concurrent pushes of one version one wins;
    every request ends after a bounded number of its own actions; and requests
    one after the other are one of the interleavings.  Then three interleavings
    that go wrong. *)

From S2P Require Import Prelude GoStrings Strconv Hardware GoTime MarketStore MarketStoreProofs.
From S2P Require Import MarketStoreTheorems MarketConc MarketConcLogic MarketConcProofs MarketConcPut.
From Stdlib Require Import ZArith Lia ZifyBool Bool Ascii String.
From stdpp Require Import base option list gmap strings.

Open Scope go_scope.
Open Scope Z_scope.

Section machine.
Context {U : GoUnicode} {Q : SqlEnv}.

(** ** One step *)

Lemma cstep_run s i fs :
  cstep s (Run i fs) = s ∨
  ∃ op B (m : M B) k r db' fs', c_threads s !! i = Some (mkThread op (Step m k)) ∧ m (c_db s) fs = (r, db', fs') ∧
    cstep s (Run i fs) = mkC db' (<[i := mkThread op (k r)]> (c_threads s)).
Proof.
  simpl. destruct (c_threads s !! i) as [[op [r|B m k]]|] eqn:Ht; [by left| |by left]. right.
  destruct (m (c_db s) fs) as [[r db'] fs'] eqn:Em. by exists op, B, m, k, r, db', fs'.
Qed.

(** ** The invariant: every request in flight is guarded *)

Context (X : nkey → bool).

(** The request deletes nothing under the names of [X]. *)
Definition sparing (op : store_op) : Prop := ∀ K, X K = true → deletes op ≠ Some K.
Definition sparing_event (e : cevent) : Prop := match e with Start op _ => sparing op | Run _ _ => True end.

Definition flight (db : DB) (w : bool) (t : thread) : Prop :=
  sparing (th_op t) ∧ guarded X (th_op t) w (th_prog t) db.
Definition cinv (ws : list bool) (s : cstate) : Prop :=
  db_keys (c_db s) ∧ Forall2 (flight (c_db s)) ws (c_threads s).

Lemma flight_stable w t db db' : rely X db db' → flight db w t → flight db' w t.
Proof.
  intros HR [Hs Hg]. split; [done|]. by apply (rg_stable (rely X) _ _ _ _ _ db db').
Qed.

(** An arrival changes nothing but the list of requests; an action keeps its
    request's guarantee, and raises its request's flag only by the event. *)
Lemma cinv_step ws s e :
  cinv ws s → sparing_event e →
  ∃ ws', cinv ws' (cstep s e) ∧ rely X (c_db s) (c_db (cstep s e)) ∧
    match e with
    | Start op now => ws' = ws ++ [false] ∧ c_threads (cstep s e) = c_threads s ++ [mkThread op (prog_of op now)] ∧
                      c_db (cstep s e) = c_db s
    | Run i fs => th_op <$> c_threads (cstep s e) = th_op <$> c_threads s ∧
        (ws' = ws ∨ ∃ t, c_threads s !! i = Some t ∧ ws' = <[i := true]> ws ∧
                         event (th_op t) (c_db s) (c_db (cstep s e))) ∧
        (cstep s e = s ∨ ∃ t, c_threads s !! i = Some t ∧
                         guar (writes (th_op t)) (deletes (th_op t)) (c_db s) (c_db (cstep s e)))
    end.
Proof.
  intros [Hk Hf] He. destruct e as [op now|i fs].
  - exists (ws ++ [false]). split; [|split; [reflexivity|done]]. split; [done|]. simpl.
    apply Forall2_app; [done|]. constructor; [|done]. split; [done|]. by apply prog_of_guarded.
  - destruct (cstep_run s i fs) as [-> | (op & B & m & k & r & db' & fs' & Ht & Hm & ->)].
    { exists ws. split; [done|]. split; [reflexivity|]. auto. }
    destruct (Forall2_lookup_r _ _ _ _ _ Hf Ht) as (w & Hw & [Hsp Hg]). unfold guarded in Hg. simpl in Hsp, Hg.
    specialize (Hg (c_db s) fs ltac:(reflexivity)). rewrite Hm in Hg. destruct Hg as (HG & w' & Hw' & Hrg).
    assert (rely X (c_db s) db') as HR by (by eapply guar_rely, HG).
    exists (<[i := w']> ws). cbn [c_db c_threads]. split; [split; [apply HG|]|split; [done|]].
    + apply Forall2_insert; [|by split]. eapply Forall2_impl; [apply Hf|]. intros w0 t. by apply flight_stable.
    + split; [|split].
      * rewrite list_fmap_insert. apply list_insert_id. by rewrite list_lookup_fmap, Ht.
      * destruct Hw' as [-> | [-> HE]]; [left; by apply list_insert_id|right]. by exists (mkThread op (Step m k)).
      * right. by exists (mkThread op (Step m k)).
Qed.

Lemma cinv_start : cinv [] start_state.
Proof. split; [apply keys_empty|constructor]. Qed.

Lemma cinv_run ws s h :
  cinv ws s → Forall sparing_event h →
  ∃ ws', cinv ws' (crun h s) ∧ rely X (c_db s) (c_db (crun h s)) ∧ ∃ l, th_op <$> c_threads (crun h s) = (th_op <$> c_threads s) ++ l.
Proof.
  intros Hi Hh. revert ws s Hi. induction Hh as [|e h He Hh IH]; intros ws s Hi.
  { exists ws. split; [done|]. split; [reflexivity|]. exists []. by rewrite app_nil_r. }
  destruct (cinv_step ws s e Hi He) as (ws1 & Hi1 & HR & Hc). destruct (IH ws1 _ Hi1) as (ws2 & Hi2 & HR2 & l & Hl).
  exists ws2. split; [done|]. split; [by etrans|]. change (crun (e :: h) s) with (crun h (cstep s e)).
  rewrite Hl. destruct e as [op now|i fs].
  - destruct Hc as (_ & -> & _). rewrite fmap_app, <-app_assoc. by eexists.
  - destruct Hc as (-> & _). by eexists.
Qed.
End machine.

(** ** What holds of every history *)

Section histories.
Context {U : GoUnicode} {Q : SqlEnv}.

Lemma crun_app h1 h2 s : crun (h1 ++ h2) s = crun h2 (crun h1 s).
Proof. apply fold_left_app. Qed.

Lemma sparing_none h : Forall (sparing_event (λ _, false)) h.
Proof. apply Forall_true. by intros [op now|i fs]. Qed.

Lemma reached h : ∃ ws, cinv (λ _, false) ws (crun h start_state).
Proof.
  destruct (cinv_run (λ _, false) [] start_state h (cinv_start _) (sparing_none h)) as (ws & Hi & _). by exists ws.
Qed.

(** C11: Whatever requests arrive, however the database interleaves their
    statements and whichever of these fail: author addresses, assets under
    (type, author, name) and versions under their asset stay unique; from any
    moment on, a published version stays in the database byte for byte unless
    its asset row is gone, an asset id never changes its name or author, and an
    id that is gone never comes back. *)
Theorem concurrent_store_safe (h1 h2 : list cevent) :
  let d1 := c_db (crun h1 start_state) in
  let d2 := c_db (crun (h1 ++ h2) start_state) in
  NoDup (map au_eoa (authors d2)) ∧ NoDup (map asset_key (assets d2)) ∧ NoDup (map version_key (versions d2)) ∧
  (∀ v, v ∈ versions d1 → v ∈ versions d2 ∨ v_asset_id v ∉ map as_id (assets d2)) ∧
  (∀ a b, a ∈ assets d1 → b ∈ assets d2 → as_id a = as_id b → asset_key a = asset_key b) ∧
  (∀ v, v ∈ versions d1 → v_asset_id v ∉ map as_id (assets d1) → v_asset_id v ∉ map as_id (assets d2)).
Proof.
  intros d1 d2. destruct (reached h1) as [ws Hi]. pose proof Hi as [Hk _].
  destruct (cinv_run _ ws _ h2 Hi (sparing_none h2)) as (ws2 & _ & HR & _).
  unfold d2. rewrite crun_app. fold d1 in HR, Hk. destruct (HR Hk) as [Hg _].
  pose proof (ev_dbkeys _ _ Hg) as Hk2.
  split_and!; [apply Hk2..|apply (ev_versions _ _ Hg)|apply (ev_keys _ _ Hg)|].
  intros v Hv. apply (ev_gone _ _ Hg). by apply (wf_version_next _ Hk).
Qed.

(** What the requests that act in a history can reach. *)
Lemma acting_insulated K h s ws :
  cinv (λ _, false) ws s →
  (∀ i fs t, Run i fs ∈ h → c_threads (crun h s) !! i = Some t → writes (th_op t) ≠ Some K) →
  insulated K (c_db s) (c_db (crun h s)).
Proof.
  revert s ws. induction h as [|e h IH]; intros s ws Hi Hw; [apply insulated_refl|].
  destruct (cinv_step _ ws s e Hi) as (ws1 & Hi1 & HR & Hc); [by destruct e|].
  destruct (HR (proj1 Hi)) as [Hg _]. change (crun (e :: h) s) with (crun h (cstep s e)) in *.
  apply insulated_trans with (c_db (cstep s e)); [apply (ev_authors _ _ Hg)| |].
  - destruct e as [op now|i fs]; [by destruct Hc as (_ & _ & ->); apply insulated_refl|].
    destruct Hc as (Hops & _ & [-> | (t & Ht & HG)]); [apply insulated_refl|].
    apply (gu_insulated _ _ _ _ HG).
    destruct (cinv_run _ _ _ h Hi1 (sparing_none h)) as (_ & _ & _ & l & Hl). rewrite Hops in Hl.
    assert ((th_op <$> c_threads (crun h (cstep s (Run i fs)))) !! i = Some (th_op t)) as Hat.
    { rewrite Hl. apply lookup_app_l_Some. by rewrite list_lookup_fmap, Ht. }
    rewrite list_lookup_fmap in Hat. destruct (_ !! i) as [t'|] eqn:Ht' in Hat; [|done]. injection Hat as Hat.
    rewrite <-Hat. apply (Hw i fs t'); [by left|done].
  - apply (IH _ ws1 Hi1). intros i fs t Hin. apply (Hw i fs t). by right.
Qed.

(** No request reaches what is stored under another name, however the
    requests interleave: over any stretch of a history in which no request that
    pushes, edits or deletes under (type, author, name) [K] acts, the asset row
    of [K] stays as it was but for a download counter that never falls, its
    versions stay the same, and no asset appears under [K]. *)
Theorem bystander_isolation (K : nkey) (h1 h2 : list cevent) :
  (∀ i fs t, Run i fs ∈ h2 → c_threads (crun (h1 ++ h2) start_state) !! i = Some t → writes (th_op t) ≠ Some K) →
  let d1 := c_db (crun h1 start_state) in
  let d2 := c_db (crun (h1 ++ h2) start_state) in
  (∀ a au, a ∈ assets d1 → au ∈ authors d1 → au_id au = as_author_id a → nat_key a au = K →
     ∃ n, as_downloads a ≤ n ∧ with_downloads n a ∈ assets d2) ∧
  (∀ id v, names K id d1 → v_asset_id v = id → v ∈ versions d1 ↔ v ∈ versions d2) ∧
  (∀ id, names K id d2 → names K id d1).
Proof.
  intros Hw d1 d2. destruct (reached h1) as [ws Hi]. unfold d2. rewrite crun_app in *.
  destruct (acting_insulated K h2 _ ws Hi Hw) as [Ha Hv Hn]. split_and!; [done| |done].
  intros id v Hid Hva. by apply (Hv id).
Qed.

(** ** Concurrent pushes of one version *)

Definition pushes (K : nkey) (version : string) (op : store_op) : Prop :=
  ∃ inp, op = OpPut inp ∧ put_key inp = K ∧ am_Version (pi_Meta inp) = version.

(** Request [i] pushes the version and has its flag up. *)
Definition flagged (K : nkey) (version : string) (ops : list store_op) (ws : list bool) (i : nat) : Prop :=
  ∃ op, ops !! i = Some op ∧ pushes K version op ∧ ws !! i = Some true.

(** There is at most one such, and then the version is there. *)
Definition one_flag (K : nkey) (version : string) (ops : list store_op) (ws : list bool) (db : DB) : Prop :=
  (∀ i, flagged K version ops ws i → has_version K version db) ∧
  (∀ i j, flagged K version ops ws i → flagged K version ops ws j → i = j).

Lemma has_version_stable X K version db db' :
  X K = true → db_keys db → rely X db db' → has_version K version db → has_version K version db'.
Proof.
  intros HX Hk HR (id & Hn & v & Hv & Hid & Hver). destruct (HR Hk) as [_ Hs].
  destruct (Hs K HX id Hn) as [Hn' Hv']. exists id. split; [done|]. exists v. split; [by apply Hv'|done].
Qed.

Lemma flagged_app K version ops ws op i :
  length ws = length ops → flagged K version (ops ++ [op]) (ws ++ [false]) i → flagged K version ops ws i.
Proof.
  intros Hlen (o & Ho & Hp & Hw). apply lookup_app_Some in Hw as [Hw|[_ Hw]].
  - exists o. split; [|done]. apply lookup_lt_Some in Hw. by rewrite lookup_app_l in Ho by lia.
  - by apply list_lookup_singleton_Some in Hw as [_ ?].
Qed.

Lemma flagged_insert K version ops ws i j :
  flagged K version ops (<[i:=true]> ws) j → j = i ∨ flagged K version ops ws j.
Proof.
  intros (o & Ho & Hp & Hw). destruct (decide (j = i)) as [-> | Hne]; [by left|right].
  exists o. by rewrite list_lookup_insert_ne in Hw by done.
Qed.

(** A push raises its flag when the version appears: nobody had one up. *)
Lemma one_flag_raise K version ops ws i op db db' :
  ops !! i = Some op → event op db db' → one_flag K version ops ws db →
  (has_version K version db → has_version K version db') → one_flag K version ops (<[i:=true]> ws) db'.
Proof.
  intros Hop HE [H1 H2] Hst.
  assert (∀ j, flagged K version ops (<[i:=true]> ws) j → flagged K version ops ws j ∨
    (j = i ∧ ¬ has_version K version db ∧ has_version K version db')) as Hc.
  { intros j Hj. destruct (flagged_insert _ _ _ _ _ _ Hj) as [-> | ?]; [right|by left].
    destruct Hj as (o & Ho & (inp & -> & <- & <-) & _). split; [done|].
    assert (op = OpPut inp) as -> by congruence. apply HE. }
  split.
  - intros j [Hj|(_ & _ & ?)]%Hc; [|done]. by eapply Hst, H1.
  - intros j k [Hj|(-> & Hn & _)]%Hc [Hk|(-> & Hn' & _)]%Hc; [by apply H2| | |done];
      exfalso; [by eapply Hn', H1|by eapply Hn, H1].
Qed.

Notation only K := (λ k, bool_decide (k = K)).

Lemma one_flag_step K version ws s e :
  cinv (only K) ws s → sparing_event (only K) e → one_flag K version (th_op <$> c_threads s) ws (c_db s) →
  ∃ ws', cinv (only K) ws' (cstep s e) ∧
         one_flag K version (th_op <$> c_threads (cstep s e)) ws' (c_db (cstep s e)).
Proof.
  intros Hi He Hf. destruct (cinv_step _ ws s e Hi He) as (ws' & Hi' & HR & Hc). exists ws'. split; [done|].
  assert (has_version K version (c_db s) → has_version K version (c_db (cstep s e))) as Hst.
  { apply (has_version_stable (only K)); [by apply bool_decide_eq_true|apply Hi|done]. }
  destruct e as [op now|i fs].
  - destruct Hc as (-> & -> & ->). destruct Hf as [H1 H2]. rewrite fmap_app.
    pose proof (Forall2_length _ _ _ (proj2 Hi)) as Hlen. rewrite <-(length_fmap th_op) in Hlen.
    split; [intros j Hj|intros j k Hj Hk]; [|apply H2]; eauto using flagged_app.
  - destruct Hc as (-> & [-> | (t & Ht & -> & HE)] & _).
    + destruct Hf as [H1 H2]. split; [intros j Hj; by eapply Hst, H1|done].
    + eapply one_flag_raise; [|done..]. by rewrite list_lookup_fmap, Ht.
Qed.

Lemma one_flag_run K version h :
  Forall (sparing_event (only K)) h →
  ∃ ws, cinv (only K) ws (crun h start_state) ∧
        one_flag K version (th_op <$> c_threads (crun h start_state)) ws (c_db (crun h start_state)).
Proof.
  induction h as [|e h IH] using rev_ind; intros Hh.
  - exists []. split; [apply cinv_start|]. by split; [intros i (o & ? & _)|intros i j (o & ? & _)].
  - apply Forall_app in Hh as [Hh [He _]%Forall_cons]. destruct (IH Hh) as (ws & Hi & Hf).
    rewrite crun_app. by apply one_flag_step with ws.
Qed.

(** The history deletes nothing under [K]. *)
Definition no_delete (K : nkey) (h : list cevent) : Prop :=
  Forall (λ e, match e with Start op _ => deletes op ≠ Some K | Run _ _ => True end) h.

Lemma no_delete_sparing K h : no_delete K h → Forall (sparing_event (only K)) h.
Proof.
  intros Hn. eapply Forall_impl; [apply Hn|]. intros [op now|i fs] He; [|done].
  by intros k ->%bool_decide_eq_true.
Qed.

Lemma finished_flag K s ws i inp a :
  cinv (only K) ws s → put_key inp = K → finished s i = Some (OpPut inp, Ok a) →
  flagged K (am_Version (pi_Meta inp)) (th_op <$> c_threads s) ws i ∧
  (∃ b, a = AAsset (Some b)) ∧ ∃ id, kept inp K id (c_db s).
Proof.
  intros [Hk Hf] <- Hfin. unfold finished in Hfin. destruct (c_threads s !! i) as [[op [r|]]|] eqn:Ht; [|done..].
  injection Hfin as -> ->. destruct (Forall2_lookup_r _ _ _ _ _ Hf Ht) as (w & Hw & _ & Hg).
  destruct (Hg (c_db s) ltac:(reflexivity)) as [_ Ha].
  destruct Ha as (-> & Hb & Hkept); [by apply bool_decide_eq_true|]. split; [|done].
  exists (OpPut inp). rewrite list_lookup_fmap, Ht. split; [done|]. split; [|done]. by exists inp.
Qed.

Lemma one_push_wins_at (h : list cevent) (i j : nat) (p q : PushInput) (a : answer) (r : result store_err answer) :
  let s := crun h start_state in
  no_delete (put_key p) h →
  finished s i = Some (OpPut p, Ok a) → finished s j = Some (OpPut q, r) →
  put_key q = put_key p → am_Version (pi_Meta q) = am_Version (pi_Meta p) →
  (∃ b, a = AAsset (Some b)) ∧ (∃ id, kept p (put_key p) id (c_db s)) ∧ (is_ok r = true → i = j).
Proof.
  intros s Hnd Hi Hj HK Hv.
  destruct (one_flag_run (put_key p) (am_Version (pi_Meta p)) h (no_delete_sparing _ _ Hnd)) as (ws & Hinv & _ & H2).
  destruct (finished_flag (put_key p) s ws i p a Hinv eq_refl Hi) as (Hfi & Ha & Hkept).
  split; [done|]. split; [done|]. destruct r as [b|e]; [|done]. intros _.
  destruct (finished_flag (put_key p) s ws j q b Hinv HK Hj) as (Hfj & _). rewrite Hv in Hfj. by apply H2.
Qed.

(** Of any number of concurrent pushes of one version, one wins: however
    their statements interleave with each other and with any other requests,
    and whichever statements fail, as long as nobody deletes the asset a push
    that answered Ok answered with the asset and its version row holds exactly
    its body and digest; and no two pushes of the same type, author, name and
    version both answer Ok. *)
Theorem one_push_wins (h : list cevent) (i j : nat) (p q : PushInput) (a : answer) (r : result store_err answer) :
  let s := crun h start_state in
  no_delete (put_key p) h →
  finished s i = Some (OpPut p, Ok a) → finished s j = Some (OpPut q, r) →
  put_key q = put_key p → am_Version (pi_Meta q) = am_Version (pi_Meta p) →
  (∃ b, a = AAsset (Some b)) ∧ (∃ id, kept p (put_key p) id (c_db s)) ∧ (is_ok r = true → i = j).
Proof. apply one_push_wins_at. Qed.
End histories.
