(* ===== verification/MarketConcRuns.v ===== *)
(** * Requests end, and requests in turn are one of the interleavings

    Every store request is over after ten of its own actions, whatever the
    others do; a history of [MarketStoreTheorems], one request after the other,
    is a history of [MarketConc] with the same database and answers.  Then the
    interleavings that go wrong. *)

From S2P Require Import Prelude GoStrings Strconv Hardware GoTime MarketStore MarketStoreProofs.
From S2P Require Import MarketStoreTheorems MarketConc MarketConcLogic MarketConcProofs MarketConcPut.
From S2P Require Import MarketConcTheorems.
From Stdlib Require Import ZArith Lia ZifyBool Bool Ascii String.
From stdpp Require Import base option list gmap strings.

Open Scope go_scope.
Open Scope Z_scope.

(** ** Bounded programs *)

(** The program is over after at most [n] actions, whatever they answer. *)
Fixpoint within {A} (n : nat) (p : prog A) {struct p} : Prop :=
  match p with
  | Done _ => True
  | Step m k => match n with O => False | S n' => ∀ r, within n' (k r) end
  end.

Lemma within_mono {A} (p : prog A) n n' : (n ≤ n')%nat → within n p → within n' p.
Proof.
  revert n n'. induction p as [r|B m k IH]; [done|].
  intros n n' Hle H. destruct n as [|n]; [done|]. destruct n' as [|n']; [lia|]. intros r. apply (IH r n); [lia|apply H].
Qed.

Lemma within_bind {A B} (p : prog A) (k : A → prog B) n n' :
  within n p → (∀ a, within n' (k a)) → within (n + n') (pbind p k).
Proof.
  intros Hp Hk. revert n Hp. induction p as [[a|e]|C m h IH]; intros n Hp; simpl; [|done|].
  - apply within_mono with n'; [lia|apply Hk].
  - destruct n as [|n]; [done|]. simpl. intros r. apply IH, Hp.
Qed.

Lemma within_catch {A} (p : prog A) n : within n p → within n (pcatch p).
Proof. revert n. induction p as [r|B m k IH]; intros [|n]; simpl; [done..|]. intros H r. apply IH, H. Qed.

Lemma within_atomic {A} (m : M A) : within 1 (atomic m).
Proof. done. Qed.

(** Find the bounds of the parts from the bound of the whole. *)
Ltac within_step :=
  match goal with
  | |- within _ (let x := _ in _) => cbv zeta
  | |- within _ (pret _) => done
  | |- within _ (praise _) => done
  | |- within _ (atomic _) => apply within_mono with 1%nat; [lia|apply within_atomic]
  | |- within _ (pcatch _) => apply within_catch
  | |- within (S ?n) (pbind (atomic _) _) => apply (within_bind _ _ 1 n); [|intros ?]
  | |- within (S ?n) (pbind (pcatch (atomic _)) _) => apply (within_bind _ _ 1 n); [|intros ?]
  | |- within _ (if ?b then _ else _) => destruct b
  | |- within _ (match ?x with _ => _ end) => destruct x
  end.
Ltac within_tac := repeat within_step.

Section bounds.
Context {U : GoUnicode} {Q : SqlEnv}.

Lemma authorIDP_within eoa : within 3 (authorIDP eoa).
Proof. unfold authorIDP. within_tac. Qed.
Lemma put_findP_within inp now author : within 2 (put_findP inp now author).
Proof. unfold put_findP. within_tac. Qed.
Lemma refreshLatestP_within id meta now : within 2 (refreshLatestP id meta now).
Proof. unfold refreshLatestP. within_tac. Qed.
Lemma GetAssetP_within typ eoa name version : within 2 (GetAssetP typ eoa name version).
Proof. unfold GetAssetP. within_tac. Qed.

Lemma PutAssetP_within inp now : within 10 (PutAssetP inp now).
Proof.
  unfold PutAssetP. apply (within_bind _ _ 3 7); [apply authorIDP_within|intros author].
  apply (within_bind _ _ 2 5); [apply put_findP_within|intros id].
  apply (within_bind _ _ 1 4); [within_tac|]. intros [[]|e]; [|by case_if].
  apply (within_bind _ _ 2 2); [apply refreshLatestP_within|intros _].
  apply (within_bind _ _ 2 0); [apply GetAssetP_within|done].
Qed.

(** An answer put into its sum. *)
Lemma within_answer {A} (p : prog A) (k : A → prog answer) n :
  within n p → (n ≤ 10)%nat → (∀ a, ∃ r, k a = Done r) → within 10 (pbind p k).
Proof.
  intros Hp Hn Hk. apply within_mono with (n + 0)%nat; [lia|]. apply within_bind; [done|].
  intros a. by destruct (Hk a) as [r ->].
Qed.

Lemma prog_of_within op now : within 10 (prog_of op now).
Proof.
  destruct op; cbn [prog_of]; (eapply within_answer; [| |by intros []; eexists]).
  - apply PutAssetP_within.
  - lia.
  - apply (within_bind _ _ 1 1); [|intros ?]; within_tac.
  - lia.
  - apply (within_bind _ _ 1 2); [|intros ?]; within_tac.
  - lia.
  - apply (within_bind _ _ 1 2); [|intros ?]; within_tac.
  - lia.
  - apply (within_bind _ _ 1 1); [|intros ?]; within_tac.
  - lia.
  - apply within_atomic.
  - lia.
  - apply (within_bind _ _ 1 1); [|intros ?]; within_tac.
  - lia.
  - apply (within_bind _ _ 1 1); [|intros ?]; within_tac.
  - lia.
  - apply GetAssetP_within.
  - lia.
  - apply within_atomic.
  - lia.
  - unfold GetRecipeP. instantiate (1 := 2%nat). within_tac.
  - lia.
Qed.

(** ** Every request ends *)

(** The actions a history gives to request [i]. *)
Definition is_run (i : nat) (e : cevent) : bool :=
  match e with Run j _ => (j =? i)%nat | Start _ _ => false end.
Definition runs (i : nat) (h : list cevent) : nat := length (List.filter (is_run i) h).

Lemma runs_cons i e h : runs i (e :: h) = ((if is_run i e then 1 else 0) + runs i h)%nat.
Proof. unfold runs. simpl. by destruct (is_run i e). Qed.

Lemma step_within s e i t n :
  c_threads s !! i = Some t → within ((if is_run i e then 1 else 0) + n) (th_prog t) →
  ∃ t', c_threads (cstep s e) !! i = Some t' ∧ th_op t' = th_op t ∧ within n (th_prog t').
Proof.
  intros Ht Hw. destruct e as [op now|j fs]; simpl in *.
  - exists t. split; [by apply lookup_app_l_Some|done].
  - destruct (Nat.eqb_spec j i) as [-> | Hne]; simpl in Hw.
    + rewrite Ht. destruct t as [op [r|B m k]]; [by eexists|].
      destruct (m (c_db s) fs) as [[r db'] fs']. simpl in *.
      exists (mkThread op (k r)). split; [|split; [done|apply Hw]].
      apply list_lookup_insert_eq. by eapply lookup_lt_Some.
    + destruct (c_threads s !! j) as [[op [r|B m k]]|]; [by eexists| |by eexists].
      destruct (m (c_db s) fs) as [[r db'] fs']. exists t. simpl. by rewrite list_lookup_insert_ne.
Qed.

Lemma run_within h s i t n :
  c_threads s !! i = Some t → within (runs i h + n) (th_prog t) →
  ∃ t', c_threads (crun h s) !! i = Some t' ∧ th_op t' = th_op t ∧ within n (th_prog t').
Proof.
  revert s t. induction h as [|e h IH]; intros s t Ht Hw; [by exists t|].
  rewrite runs_cons, <-Nat.add_assoc in Hw.
  destruct (step_within s e i t _ Ht Hw) as (t1 & Ht1 & Ho1 & Hw1).
  destruct (IH (cstep s e) t1 Ht1 Hw1) as (t2 & Ht2 & Ho2 & Hw2). exists t2. split; [done|]. split; [congruence|done].
Qed.

(** A request waits for nobody: from its arrival on, once ten of its own actions
    have been executed it has its answer, whatever the other requests do in
    between, whether or not they ever end, and whichever statements fail. *)
Theorem request_finishes (s : cstate) (op : store_op) (now : string) (h : list cevent) :
  (10 ≤ runs (length (c_threads s)) h)%nat →
  ∃ r, finished (crun (Start op now :: h) s) (length (c_threads s)) = Some (op, r).
Proof.
  intros Hn. set (i := length (c_threads s)) in *. change (crun (Start op now :: h) s) with (crun h (cstep s (Start op now))).
  destruct (run_within h (cstep s (Start op now)) i (mkThread op (prog_of op now)) 0) as (t & Ht & Ho & Hw).
  - by apply list_lookup_middle.
  - apply within_mono with 10%nat; [lia|]. apply prog_of_within.
  - unfold finished. rewrite Ht. destruct t as [o [r|B m k]]; [|done]. exists r. simpl in Ho. by rewrite Ho.
Qed.

(** ** One request after the other *)

(** The actions of request [i] alone take it to the answer, and the database to
    the state, of the uninterrupted method. *)
Lemma run_alone {p : prog answer} (l : list thread) op db fs :
  let '(r, db', _) := run p db fs in
  ∃ h, Forall (λ e, ∃ fs, e = Run (length l) fs) h ∧
       crun h (mkC db (l ++ [mkThread op p])) = mkC db' (l ++ [mkThread op (Done r)]).
Proof.
  revert db fs. induction p as [r|B m k IH]; intros db fs; simpl; [by exists []|].
  destruct (m db fs) as [[r db1] fs1] eqn:Em. specialize (IH r db1 fs1).
  destruct (run (k r) db1 fs1) as [[r' db'] fs']. destruct IH as (h & Hh & Hr).
  exists (Run (length l) fs :: h). split; [constructor; [by eexists|done]|].
  change (crun (Run (length l) fs :: h) ?s) with (crun h (cstep s (Run (length l) fs))). simpl.
  rewrite list_lookup_middle by done. rewrite Em.
  by rewrite (insert_app_r_alt _ _ (length l)), Nat.sub_diag by lia.
Qed.

Definition seq_answer (db : DB) (o : store_op * string * schedule) : result store_err answer :=
  let '(op, now, fs) := o in (seq_of op now db fs).1.1.

(** The answers of a history of [MarketStoreTheorems]. *)
Fixpoint seq_answers (db : DB) (h : list (store_op * string * schedule)) : list (store_op * result store_err answer) :=
  match h with
  | [] => []
  | o :: h' => (o.1.1, seq_answer db o) :: seq_answers (run_op db o) h'
  end.

Lemma bind_db {A B} (m : M A) (k : A → M B) db fs :
  (∀ a d f, (k a d f).1.2 = d) → (bind m k db fs).1.2 = (m db fs).1.2.
Proof. intros Hk. unfold bind. destruct (m db fs) as [[[a|e] d] f]; [apply Hk|done]. Qed.

Lemma seq_of_db op now db fs : (seq_of op now db fs).1.2 = run_op db (op, now, fs).
Proof. destruct op; simpl; apply bind_db; by try intros []. Qed.

(** Requests served one after the other are one of the interleavings: for
    every sequential history there is a history of arrivals and single actions
    that leads to the same database, in which each request has exactly the
    answer the uninterrupted method gives. *)
Theorem sequential_is_interleaving (h : list (store_op * string * schedule)) :
  ∃ ch, c_db (crun ch start_state) = run_store h empty_db ∧
        (λ t, (th_op t, th_prog t)) <$> c_threads (crun ch start_state) =
        (λ x, (x.1, Done x.2)) <$> seq_answers empty_db h.
Proof.
  assert (∀ s, ∃ ch, c_db (crun ch s) = run_store h (c_db s) ∧
    c_threads (crun ch s) = c_threads s ++ ((λ x, mkThread x.1 (Done x.2)) <$> seq_answers (c_db s) h)) as Hgen.
  { induction h as [|[[op now] fs] h IH]; intros s.
    { exists []. simpl. by rewrite app_nil_r. }
    destruct s as [db l]. pose proof (run_alone l op db fs (p := prog_of op now)) as Ha.
    rewrite prog_of_alone in Ha. pose proof (seq_of_db op now db fs) as Hdb.
    destruct (seq_of op now db fs) as [[r db'] fs'] eqn:Es.
    destruct Ha as (h1 & _ & H1). cbn [fst snd] in *.
    destruct (IH (mkC db' (l ++ [mkThread op (Done r)]))) as (ch & Hc1 & Hc2).
    exists (Start op now :: h1 ++ ch).
    change (crun (Start op now :: h1 ++ ch) (mkC db l))
      with (fold_left cstep (h1 ++ ch) (mkC db (l ++ [mkThread op (prog_of op now)]))).
    rewrite fold_left_app. unfold crun in H1, Hc1, Hc2. rewrite H1, Hc1, Hc2.
    cbn [c_db c_threads run_store fold_left]. change (fold_left run_op h ?d) with (run_store h d).
    rewrite <-Hdb. split; [done|]. rewrite <-app_assoc. cbn [seq_answers seq_answer]. rewrite Es, <-Hdb. done. }
  destruct (Hgen start_state) as (ch & H1 & H2). exists ch. split; [done|]. rewrite H2. simpl.
  rewrite <-list_fmap_compose. done.
Qed.
End bounds.

(** ** Interleavings that go wrong

    No statement fails in these. *)

#[local] Existing Instance ascii_tables.
#[local] Existing Instance toy_sql.

(** [n] actions of request [i]. *)
Definition go (i n : nat) : list cevent := replicate n (Run i []).

Definition race_push (version : string) : cevent := Start (OpPut (demo_push version)) "t".

(** Version 1.0 is there; 1.1 has inserted its row and read the versions when
    1.2 is pushed from beginning to end. *)
Definition latest_history : list cevent :=
  race_push "1.0" :: go 0 10 ++ race_push "1.1" :: race_push "1.2" :: go 1 4 ++ go 2 10 ++ go 1 10.

Definition all_ok (s : cstate) : bool :=
  forallb (λ t, match th_prog t with Done (Ok _) => true | _ => false end) (c_threads s).

(** refreshLatest loses an update: three pushes all answer Ok, versions 1.1 and
    1.2 are both published, and the asset's latest version stays 1.1 — an
    install of "latest" gives the older recipe. *)
Theorem latest_race :
  ∃ h, let s := crun h start_state in
    no_delete ("agent", "0xab", "bot")%string h ∧ all_ok s = true ∧
    (∃ a v, a ∈ assets (c_db s) ∧ v ∈ versions (c_db s) ∧ v_asset_id v = as_id a ∧
       semverLess (as_latest a) (v_version v) = true) ∧
    (GetRecipe "agent" "0xab" "bot" "" (c_db s) []).1.1 = Ok (Some ("body 1.1", "ff", "private"))%string.
Proof.
  exists latest_history. split; [by repeat constructor|]. split; [by vm_compute|]. split; [|by vm_compute].
  exists (mkAssetRow 1 "agent" 1 "bot" "1.1" "a bot" "MIT" "" "x,y" "private" "0" None 0 None "t" "t"),
         (mkVersionRow 3 1 "1.2" "ff" "body 1.2" "t").
  split; [vm_compute; left|]. split; [vm_compute; repeat constructor|]. split; reflexivity.
Qed.

(** The first two pushes of a new asset: both find no asset row; the second to
    insert it hits the UNIQUE constraint, and unlike the author row it is not
    selected again: the push fails with the driver's message, although no
    statement failed and its version was never published. *)
Definition first_history : list cevent :=
  race_push "1.0" :: race_push "1.1" :: go 0 3 ++ go 1 2 ++ go 0 10 ++ go 1 10.

Theorem first_push_race :
  ∃ h, let s := crun h start_state in
    finished s 1 = Some (OpPut (demo_push "1.1"), Err (EDriver unique_msg)) ∧
    map v_version (versions (c_db s)) = ["1.0"%string] ∧
    (∃ a, finished s 0 = Some (OpPut (demo_push "1.0"), Ok (AAsset (Some a)))).
Proof. exists first_history. split; [by vm_compute|]. split; [by vm_compute|]. eexists. by vm_compute. Qed.

(** A deletion between a push's select of the asset row and its insert of the
    version: the push answers Ok without an asset, and leaves a version row
    under an asset id that is gone for ever. *)
Definition orphan_history : list cevent :=
  race_push "1.0" :: go 0 10 ++ race_push "1.1" :: Start (OpDelete "agent" "0xab" "bot") "t" ::
  go 1 2 ++ go 2 10 ++ go 1 10.

Theorem orphan_race :
  ∃ h, let s := crun h start_state in
    finished s 1 = Some (OpPut (demo_push "1.1"), Ok (AAsset None)) ∧ assets (c_db s) = [] ∧
    map v_version (versions (c_db s)) = ["1.1"%string].
Proof. exists orphan_history. split_and!; by vm_compute. Qed.

(** ** Witnesses *)

(** Two pushes of one version, step by step in turn: the second is refused. *)
Definition duel_history : list cevent :=
  race_push "1.0" :: race_push "1.0" :: concat (replicate 10 [Run 0 []; Run 1 []]).

Definition duel_answer : answer :=
  match finished (crun duel_history start_state) 0 with Some (_, Ok a) => a | _ => ADone end.

Lemma one_push_wins_witness :
  let s := crun duel_history start_state in
  finished s 1 = Some (OpPut (demo_push "1.0"), Err ErrVersionExists) ∧
  (∃ b, duel_answer = AAsset (Some b)) ∧ (∃ id, kept (demo_push "1.0") (put_key (demo_push "1.0")) id (c_db s)) ∧
  (is_ok (Err (T:=answer) ErrVersionExists) = true → 0%nat = 1%nat).
Proof.
  split; [by vm_compute|].
  apply (one_push_wins duel_history 0 1 (demo_push "1.0") (demo_push "1.0") duel_answer (Err ErrVersionExists));
    [by repeat constructor|by vm_compute..].
Defined.

Definition tool_push : PushInput := mkPush "app" "0xcd" (mkMeta "tool" "" "1.0" "" "" "" []) "b" "aa".

Lemma bystander_isolation_witness :
  let d1 := c_db (crun (Start (OpPut tool_push) "t" :: go 0 10) start_state) in
  let d2 := c_db (crun ((Start (OpPut tool_push) "t" :: go 0 10) ++ (race_push "1.0" :: go 1 10)) start_state) in
  (∀ a au, a ∈ assets d1 → au ∈ authors d1 → au_id au = as_author_id a → nat_key a au = put_key tool_push →
     ∃ n, as_downloads a ≤ n ∧ with_downloads n a ∈ assets d2) ∧
  (∀ id v, names (put_key tool_push) id d1 → v_asset_id v = id → v ∈ versions d1 ↔ v ∈ versions d2) ∧
  (∀ id, names (put_key tool_push) id d2 → names (put_key tool_push) id d1).
Proof.
  apply (bystander_isolation (put_key tool_push) (Start (OpPut tool_push) "t" :: go 0 10) (race_push "1.0" :: go 1 10)).
  intros i fs t Hin Ht.
  assert (Forall (λ e, match e with Run j _ => j = 1%nat | Start _ _ => True end) (race_push "1.0" :: go 1 10)) as Hf
    by (repeat constructor).
  rewrite Forall_forall in Hf. specialize (Hf _ Hin). simpl in Hf. subst i.
  vm_compute in Ht. injection Ht as <-. vm_compute. discriminate.
Defined.

Lemma request_finishes_witness :
  ∃ r, finished (crun (Start (OpPut (demo_push "1.0")) "t" :: go 0 10) start_state) (length (c_threads start_state)) =
       Some (OpPut (demo_push "1.0"), r).
Proof.
  apply (request_finishes start_state (OpPut (demo_push "1.0")) "t" (go 0 10)).
  vm_compute. repeat constructor.
Defined.

(** * What a fetch answers after a push, among other requests

    Once a push has answered Ok, any fetch of its version that starts later
    answers with its body and digest, whatever the other requests do, as long as
    nobody deletes the asset. *)

Section reads.
Context {U : GoUnicode} {Q : SqlEnv} (inp : PushInput).
Notation K := (put_key inp).
Notation X := (λ k, bool_decide (k = K)).

(** Nothing is asked of the action itself. *)
Notation observes := (rg (rely X) (λ _ _, True) (λ _ _, False)).

Lemma observes_any {A} w (p : prog A) db : observes (λ _ _ _, True) w p db.
Proof.
  revert w db. induction p as [r|B m k IH]; intros w db; simpl; [done|].
  intros db' fs _. destruct (m db' fs) as [[r db''] fs'']. split; [done|]. exists w. auto.
Qed.

(** The version is stored under the name's asset. *)
Definition published_as (db : DB) : Prop := ∃ id, kept inp K id db.

Lemma published_as_stable db db' : db_keys db → rely X db db' → published_as db → published_as db'.
Proof.
  intros Hk HR (id & Hid). exists id.
  by apply (firm_kept X inp K id (bool_decide_eq_true_2 _ eq_refl) db db' HR (conj Hk Hid)).
Qed.

(** What the fetch's statement finds. *)
Lemma fetch_finds db fs :
  db_keys db → published_as db →
  let row := query_row (λ db,
      match asset_joined db (pi_Type inp) (to_lower (pi_Author inp)) (am_Name (pi_Meta inp)) with
      | Some (a, _) =>
          match find (λ v, (v_asset_id v =? as_id a) && (v_version v =s? am_Version (pi_Meta inp))) (versions db) with
          | Some v => Some (v_body v, v_sha256 v, as_visibility a)
          | None => None
          end
      | None => None
      end) db fs in
  row.1.2 = db ∧ ((∃ vis, row.1.1 = Ok (pi_RecipeBody inp, pi_SHA256 inp, vis)) ∨ ∃ msg, row.1.1 = Err (EDriver msg)).
Proof.
  intros Hk (id & Hn & v & Hv & Hid & Hver & Hb & Hs).
  apply names_joined in Hn as (a & au & Hj & Ha); [|done]. simpl in Hj. cbv zeta.
  unfold query_row, stmt.
  assert (find (λ v, (v_asset_id v =? as_id a) && (v_version v =s? am_Version (pi_Meta inp))) (versions db) = Some v) as Hf.
  { destruct (find _ _) as [w|] eqn:Hf.
    - apply find_some in Hf as [Hw Hm]. breflect_all. f_equal.
      eapply (NoDup_map_inj version_key); [apply (wf_version_key _ Hk)|by apply list_elem_of_In|done|].
      unfold version_key. congruence.
    - exfalso. apply find_none with (x := v) in Hf; [|by apply list_elem_of_In].
      by rewrite Hid, Hver, <-Ha, Z.eqb_refl, String.eqb_refl in Hf. }
  destruct fs as [|[msg|] fs]; simpl; rewrite ?Hj, ?Hf, ?Hb, ?Hs; split; try done; eauto.
Qed.

(** The answer to a fetch of this version. *)
Definition told (op : store_op) (r : result store_err answer) : Prop :=
  match op with
  | OpRecipe typ eoa name version =>
      (typ, to_lower eoa, name) = K → version = am_Version (pi_Meta inp) → version ≠ ""%string →
      ∀ x, r = Ok (ARecipe x) → ∃ vis, x = Some (pi_RecipeBody inp, pi_SHA256 inp, vis)
  | _ => True
  end.

Lemma prog_of_observes op now db :
  db_keys db → published_as db → observes (λ _ r _, told op r) false (prog_of op now) db.
Proof.
  intros Hk Hp. destruct op; try apply observes_any. cbn [prog_of told].
  destruct (decide ((typ, to_lower eoa, name) = K ∧ version = am_Version (pi_Meta inp) ∧ version ≠ ""%string))
    as [(HK & -> & Hne)|Hno].
  - unfold GetRecipeP. apply String.eqb_neq in Hne. rewrite Hne. unfold put_key in HK.
    injection HK as -> Heoa ->. intros db' fs HR.
    pose proof (published_as_stable db db' Hk HR Hp) as Hp'.
    pose proof (fetch_finds db' fs (ev_dbkeys _ _ (proj1 (HR Hk))) Hp') as Hf. rewrite <-Heoa in Hf. cbv zeta in Hf.
    destruct (query_row _ db' fs) as [[row d] f]. cbn [fst snd] in Hf. destruct Hf as [-> Hf].
    split; [done|]. exists false. split; [by left|].
    destruct Hf as [[vis ->]|[msg ->]]; simpl; intros _ _ _ _ _ x [= <-]. by exists vis.
  - eapply rt_weaken with (P := λ _ _, True) (P' := λ _ _, True); [|done| |done].
    + intros w d _. apply observes_any.
    + intros w r d _ ? ? ?. by destruct Hno.
Qed.

(** After the push: the version is there, and the requests from the [n]-th on
    are told so. *)
Record told_from (n : nat) (s : cstate) : Prop := {
  tf_kept : published_as (c_db s);
  tf_threads : ∀ k t, (n ≤ k)%nat → c_threads s !! k = Some t →
    observes (λ _ r _, told (th_op t) r) false (th_prog t) (c_db s)
}.

Lemma told_step n s ws e :
  cinv X ws s → sparing_event X e → told_from n s → told_from n (cstep s e).
Proof.
  intros Hi He [Hkept Hth]. destruct (cinv_step X ws s e Hi He) as (ws' & Hi' & HR & _).
  pose proof (proj1 Hi) as Hk. pose proof (published_as_stable _ _ Hk HR Hkept) as Hkept'. split; [done|].
  intros k t Hle Ht. destruct e as [op now|i fs].
  - simpl in *. apply lookup_app_Some in Ht as [Ht|[_ Ht]]; [by apply (Hth k)|].
    apply list_lookup_singleton_Some in Ht as [_ <-]. by apply prog_of_observes.
  - destruct (cstep_run s i fs) as [He' | (op & B & m & h & r & db' & fs' & Hti & Hm & He')];
      rewrite He' in *; [by apply (Hth k)|]. simpl in *.
    apply list_lookup_insert_Some in Ht as [(-> & <- & _)|[Hne Ht]].
    + specialize (Hth k _ Hle Hti (c_db s) fs ltac:(reflexivity)). simpl in Hth. rewrite Hm in Hth.
      by destruct Hth as (_ & w' & [->|[_ []]] & Hrg).
    + eapply (rg_stable (rely X)); [apply HR|]. by apply (Hth k).
Qed.

Lemma told_run n h s ws :
  cinv X ws s → Forall (sparing_event X) h → told_from n s → told_from n (crun h s).
Proof.
  intros Hi Hh. revert s ws Hi. induction Hh as [|e h He Hh IH]; intros s ws Hi Ht; [done|].
  destruct (cinv_step X ws s e Hi He) as (ws' & Hi' & _). by apply (IH (cstep s e) ws'), (told_step n s ws).
Qed.

(** Once a push has answered Ok, a fetch of its version that arrives later and
    is answered without an error is answered with exactly what was pushed, however
    it interleaves with other requests, none of which deletes the asset. *)
Lemma push_then_fetch_at (h1 h2 : list cevent) (i j : nat) (a : answer) typ eoa name version x :
  no_delete K (h1 ++ h2) →
  finished (crun h1 start_state) i = Some (OpPut inp, Ok a) →
  (length (c_threads (crun h1 start_state)) ≤ j)%nat →
  finished (crun (h1 ++ h2) start_state) j = Some (OpRecipe typ eoa name version, Ok (ARecipe x)) →
  (typ, to_lower eoa, name) = K → version = am_Version (pi_Meta inp) → version ≠ ""%string →
  ∃ vis, x = Some (pi_RecipeBody inp, pi_SHA256 inp, vis).
Proof.
  intros Hnd Hfin Hle Hfj HK Hv Hne. apply Forall_app in Hnd as [Hn1 Hn2].
  destruct (cinv_run X [] start_state h1 (cinv_start X) (no_delete_sparing K h1 Hn1)) as (ws & Hi & _).
  destruct (finished_flag K _ ws i inp a Hi eq_refl Hfin) as (_ & _ & Hkept).
  assert (told_from (length (c_threads (crun h1 start_state))) (crun h1 start_state)) as Ht.
  { split; [done|]. intros k t Hk Htk. apply lookup_lt_Some in Htk. lia. }
  apply (told_run _ h2 _ ws Hi (no_delete_sparing K h2 Hn2)) in Ht. rewrite <-crun_app in Ht.
  unfold finished in Hfj. destruct (c_threads _ !! j) as [[op [r|]]|] eqn:Hj; [|done..]. injection Hfj as -> ->.
  specialize (tf_threads _ _ Ht j _ Hle Hj (c_db (crun (h1 ++ h2) start_state)) ltac:(reflexivity)) as Htold.
  by apply (Htold HK Hv Hne x).
Qed.
End reads.
