(* ===== verification/MarketInterface.v ===== *)
(** * pkg/market/store.go: what the Store interface promises

    What the comments of the interface [MarketApi.Store] promise, as an abstract
    machine: a finite map from (type, author, name) to a
    shelf - visibility, price, and the published versions with their recipe and
    digest.  [sqlStore] is the instance of [MarketStore]; [MarketRefines] shows
    that it refines the map. *)

From S2P Require Import Prelude GoStrings Strconv Hardware GoTime MarketStore MarketStoreProofs.
From S2P Require Import MarketStoreTheorems MarketConc MarketApi MarketConcLogic MarketConcProofs MarketConcPut.
From Stdlib Require Import ZArith Lia ZifyBool Bool Ascii String.
From stdpp Require Import base option list gmap strings.

Open Scope go_scope.
Open Scope Z_scope.

Section interface.
Context {U : GoUnicode} {Q : SqlEnv}.

(** ** The abstract machine *)

Record shelf := mkShelf {
  sh_visibility : string; sh_price : string; sh_token : string;
  sh_versions : gmap string (string * string)
}.
Notation market := (gmap nkey shelf).

(** What a caller is told. *)
Inductive reply :=
  | RErr (e : store_err)
  | RStored
  | RChanged (b : bool)
  | RFound (b : bool)
  | RRecipe (r : option (string * string * string))
  | RVersions (vs : gset string)
  | ROther.

Definition no_shelf : shelf := mkShelf "private" "0" "" ∅.

Definition spec_put (inp : PushInput) (σ : market) : reply * market :=
  let old := default no_shelf (σ !! put_key inp) in
  match sh_versions old !! am_Version (pi_Meta inp) with
  | Some _ => (RErr ErrVersionExists, σ)
  | None => (RStored, <[put_key inp := mkShelf (sh_visibility old) (sh_price old) (sh_token old)
      (<[am_Version (pi_Meta inp) := (pi_RecipeBody inp, pi_SHA256 inp)]> (sh_versions old))]> σ)
  end.

Definition spec_visibility (K : nkey) (vis : string) (σ : market) : reply * market :=
  match σ !! K with
  | None => (RErr ErrNotFound, σ)
  | Some sh => if sh_visibility sh =s? vis then (RChanged false, σ)
               else (RChanged true, <[K := mkShelf vis (sh_price sh) (sh_token sh) (sh_versions sh)]> σ)
  end.

Definition spec_price (K : nkey) (price : string) (token : option string) (σ : market) : reply * market :=
  match σ !! K with
  | None => (RErr ErrNotFound, σ)
  | Some sh =>
      let tok := default ""%string token in
      if (sh_price sh =s? price) && (sh_token sh =s? tok) then (RChanged false, σ)
      else (RChanged true, <[K := mkShelf (sh_visibility sh) price tok (sh_versions sh)]> σ)
  end.

(** The machine's step; [ROther] where the reply is not about shelves. *)
Definition spec_step (op : store_op) (σ : market) : reply * market :=
  match op with
  | OpPut inp => spec_put inp σ
  | OpVisibility typ eoa name vis => spec_visibility (typ, to_lower eoa, name) vis σ
  | OpPrice typ eoa name price token => spec_price (typ, to_lower eoa, name) price token σ
  | OpMeta typ eoa name _ _ =>
      (match σ !! (typ, to_lower eoa, name) with None => RErr ErrNotFound | Some _ => ROther end, σ)
  | OpDelete typ eoa name =>
      (RChanged (bool_decide (is_Some (σ !! (typ, to_lower eoa, name)))), delete (typ, to_lower eoa, name) σ)
  | OpGet typ eoa name version =>
      (RFound match σ !! (typ, to_lower eoa, name) with
              | None => false
              | Some sh => (version =s? "") || bool_decide (is_Some (sh_versions sh !! version))
              end, σ)
  | OpVersions typ eoa name =>
      (RVersions (default ∅ (dom ∘ sh_versions <$> σ !! (typ, to_lower eoa, name))), σ)
  | OpRecipe typ eoa name version =>
      (if version =s? "" then ROther
       else RRecipe (σ !! (typ, to_lower eoa, name) ≫= λ sh,
              (λ bs, (bs.1, bs.2, sh_visibility sh)) <$> sh_versions sh !! version), σ)
  | OpIncr _ _ _ | OpList _ | OpMine _ _ => (ROther, σ)
  end.

(** What the machine's reply says of an answer of the implementation. *)
Definition observe (op : store_op) (r : result store_err answer) : reply :=
  match op, r with
  | OpIncr _ _ _, _ | OpList _, _ | OpMine _ _, _ => ROther
  | OpRecipe _ _ _ version, _ =>
      if version =s? "" then ROther
      else match r with Ok (ARecipe x) => RRecipe x | Err e => RErr e | _ => ROther end
  | OpMeta _ _ _ _ _, Ok _ => ROther
  | OpPut _, Ok (AAsset (Some _)) => RStored
  | OpGet _ _ _ _, Ok (AFull x) => RFound (match x with Some _ => true | None => false end)
  | OpVersions _ _ _, Ok (AVersions vs) => RVersions (list_to_set (map ver_Version vs))
  | _, Ok (AFlag b) => RChanged b
  | _, Err e => RErr e
  | _, _ => ROther
  end.

(** ** What an implementation owes, and what its callers may rely on *)

(** A request through the interface. *)
Definition call (S : Store M) (op : store_op) : M answer :=
  match op with
  | OpPut inp => let* a := st_PutAsset inp in ret (AAsset a)
  | OpVisibility typ eoa name vis => let* b := st_SetVisibility typ eoa name vis in ret (AFlag b)
  | OpPrice typ eoa name price token => let* b := st_SetPrice typ eoa name price token in ret (AFlag b)
  | OpMeta typ eoa name tags summary => let* b := st_SetMeta typ eoa name tags summary in ret (AFlag b)
  | OpDelete typ eoa name => let* b := st_DeleteAsset typ eoa name in ret (AFlag b)
  | OpIncr typ eoa name => let* _ := st_IncrDownloads typ eoa name in ret ADone
  | OpList f => let* (l, n) := st_ListAssets f in ret (AList l n)
  | OpMine eoa f => let* (l, n) := st_ListMine eoa f in ret (AList l n)
  | OpGet typ eoa name version => let* r := st_GetAsset typ eoa name version in ret (AFull r)
  | OpVersions typ eoa name => let* vs := st_ListVersions typ eoa name in ret (AVersions vs)
  | OpRecipe typ eoa name version => let* r := st_GetRecipe typ eoa name version in ret (ARecipe r)
  end.

(** The contract: there is a view of the database as shelves that every method,
    when no statement fails, changes as the machine changes its map, telling
    the caller what the machine tells. *)
Class StoreLaws (S : string → Store M) := {
  st_inv : DB → Prop;
  st_shelves : DB → gmap nkey shelf;
  st_empty : st_inv empty_db;
  st_none : st_shelves empty_db = ∅;
  st_step : ∀ op now db, st_inv db →
    st_inv (call (S now) op db []).1.2 ∧
    spec_step op (st_shelves db) =
      (observe op (call (S now) op db []).1.1, st_shelves (call (S now) op db []).1.2)
}.

(** The version with its recipe and digest is on the shelf. *)
Definition on_shelf (K : nkey) (version : string) (bs : string * string) (σ : market) : Prop :=
  ∃ sh, σ !! K = Some sh ∧ sh_versions sh !! version = Some bs.

Lemma spec_put_shelf inp σ :
  (spec_put inp σ).1 = RStored →
  on_shelf (put_key inp) (am_Version (pi_Meta inp)) (pi_RecipeBody inp, pi_SHA256 inp) (spec_put inp σ).2.
Proof.
  unfold spec_put. destruct (sh_versions _ !! _); [done|]. intros _. eexists. simpl.
  rewrite lookup_insert_eq. split; [done|]. simpl. by rewrite lookup_insert_eq.
Qed.

(** Changing one shelf without losing its versions. *)
Lemma on_shelf_insert K version bs σ K' sh :
  on_shelf K version bs σ →
  (∀ old, σ !! K' = Some old → ∀ v x, sh_versions old !! v = Some x → sh_versions sh !! v = Some x) →
  on_shelf K version bs (<[K' := sh]> σ).
Proof.
  intros (old & Hold & Hv) Hsh. destruct (decide (K' = K)) as [-> | Hne].
  - exists sh. rewrite lookup_insert_eq. split; [done|]. by eapply Hsh.
  - exists old. by rewrite lookup_insert_ne.
Qed.

Lemma spec_keeps_shelf op K version bs σ :
  deletes op ≠ Some K → on_shelf K version bs σ → on_shelf K version bs (spec_step op σ).2.
Proof.
  intros Hd Ho. destruct op; simpl; try done.
  - unfold spec_put. destruct (sh_versions _ !! am_Version _) eqn:Hv; [done|]. simpl.
    apply on_shelf_insert; [done|]. intros old Hold v x Hx. rewrite Hold in Hv. simpl in *. rewrite Hold. simpl.
    rewrite lookup_insert_ne; [done|]. congruence.
  - unfold spec_visibility. destruct (σ !! _) as [sh|] eqn:Hsh; [|done]. destruct (_ =s? _); [done|]. simpl.
    apply on_shelf_insert; [done|]. intros old Hold v x Hx. simpl. by simplify_eq.
  - unfold spec_price. destruct (σ !! _) as [sh|] eqn:Hsh; [|done]. cbv zeta. destruct (_ && _); [done|]. simpl.
    apply on_shelf_insert; [done|]. intros old Hold v x Hx. simpl. by simplify_eq.
  - destruct Ho as (sh & Hsh & Hv). exists sh. rewrite lookup_delete_ne; [done|]. intros <-. by apply Hd.
Qed.

Section client.
Context (S : string → Store M) {SL : StoreLaws S}.

Definition calls (h : list (store_op * string)) (db : DB) : DB :=
  fold_left (λ d o, (call (S o.2) o.1 d []).1.2) h db.

Lemma calls_inv h db : st_inv db → st_inv (calls h db).
Proof.
  revert db. induction h as [|[op now] h IH]; intros db Hi; [done|]. apply IH.
  by apply (st_step op now db Hi).
Qed.

Lemma calls_keep h K version bs db :
  st_inv db → Forall (λ o, deletes o.1 ≠ Some K) h →
  on_shelf K version bs (st_shelves db) → on_shelf K version bs (st_shelves (calls h db)).
Proof.
  intros Hi Hh. revert db Hi. induction Hh as [|[op now] h Hd Hh IH]; intros db Hi Ho; [done|].
  destruct (st_step op now db Hi) as [Hi' Hs]. apply IH; [done|]. simpl.
  apply (spec_keeps_shelf op K version bs _ Hd) in Ho. by rewrite Hs in Ho.
Qed.

(** Against any implementation of the Store interface that meets its
    contract: once a push has been answered "stored", then whatever requests
    follow, short of deleting the asset, a fetch of that version is answered
    with exactly the recipe and digest that were pushed. *)
Theorem interface_push_then_fetch (h1 h2 : list (store_op * string)) (inp : PushInput) (now now' eoa : string) :
  let db1 := calls h1 empty_db in
  observe (OpPut inp) (call (S now) (OpPut inp) db1 []).1.1 = RStored →
  Forall (λ o, deletes o.1 ≠ Some (put_key inp)) h2 →
  to_lower eoa = to_lower (pi_Author inp) → am_Version (pi_Meta inp) ≠ ""%string →
  let get := OpRecipe (pi_Type inp) eoa (am_Name (pi_Meta inp)) (am_Version (pi_Meta inp)) in
  ∃ visibility,
    observe get (call (S now') get (calls ((OpPut inp, now) :: h2) db1) []).1.1 =
    RRecipe (Some (pi_RecipeBody inp, pi_SHA256 inp, visibility)).
Proof.
  intros db1 Hput Hh2 He Hne get.
  assert (st_inv db1) as Hi by apply calls_inv, st_empty.
  destruct (st_step (OpPut inp) now db1 Hi) as [Hi2 Hs2].
  assert (on_shelf (put_key inp) (am_Version (pi_Meta inp)) (pi_RecipeBody inp, pi_SHA256 inp)
            (st_shelves (call (S now) (OpPut inp) db1 []).1.2)) as Ho.
  { pose proof (spec_put_shelf inp (st_shelves db1)) as Ho. cbn [spec_step] in Hs2. rewrite Hs2 in Ho. by apply Ho. }
  apply (calls_keep h2) in Ho; [|done..].
  change (calls ((OpPut inp, now) :: h2) db1) with (calls h2 (call (S now) (OpPut inp) db1 []).1.2).
  destruct (st_step get now' _ (calls_inv h2 _ Hi2)) as [_ Hs]. destruct Ho as (sh & Hsh & Hv).
  exists (sh_visibility sh). apply (f_equal fst) in Hs. cbn [fst] in Hs. rewrite <-Hs. unfold get. cbn [spec_step fst].
  apply String.eqb_neq in Hne. rewrite Hne, He. unfold put_key in Hsh. rewrite Hsh. simpl. by rewrite Hv.
Qed.
End client.

(** ** The abstraction *)

Definition versions_of (db : DB) (id : Z) : gmap string (string * string) :=
  list_to_map (map (λ v, (v_version v, (v_body v, v_sha256 v))) (filter (λ v, v_asset_id v = id) (versions db))).

Definition shelf_of (db : DB) (a : AssetRow) : shelf :=
  mkShelf (as_visibility a) (as_price a) (default ""%string (as_token a)) (versions_of db (as_id a)).

Definition shelves (db : DB) : market :=
  list_to_map (map (λ r, (nat_key r.1 r.2, shelf_of db r.1)) (joined db)).

Lemma joined_key db K a au :
  db_keys db → (a, au) ∈ joined db → nat_key a au = K → asset_joined db K.1.1 K.1.2 K.2 = Some (a, au).
Proof.
  intros Hk Hj <-. apply joined_spec in Hj as (Ha & Hau & Hid). by apply asset_joined_spec.
Qed.

Lemma shelves_lookup db K :
  db_keys db → shelves db !! K = (λ r, shelf_of db r.1) <$> asset_joined db K.1.1 K.1.2 K.2.
Proof.
  intros Hk. unfold shelves.
  assert (∀ sh, (K, sh) ∈ map (λ r, (nat_key r.1 r.2, shelf_of db r.1)) (joined db) →
    ∃ a au, asset_joined db K.1.1 K.1.2 K.2 = Some (a, au) ∧ sh = shelf_of db a) as Hin.
  { intros sh ([b bu] & He & Hin)%list_elem_of_In%in_map_iff. injection He as HK <-.
    apply list_elem_of_In in Hin. exists b, bu. split; [by apply joined_key|done]. }
  destruct (asset_joined db K.1.1 K.1.2 K.2) as [[a au]|] eqn:Hj; simpl.
  - apply elem_of_list_to_map_1'; [intros sh (b & bu & [= -> ->] & ->)%Hin; done|].
    pose proof Hj as (Ha & Hau & Hid & Ht & He & Hn)%asset_joined_Some.
    apply list_elem_of_In, in_map_iff. exists (a, au). split.
    + f_equal. unfold nat_key. destruct K as [[t e] n]. simpl in *. congruence.
    + apply list_elem_of_In. unfold joined. apply list_elem_of_omap. exists a.
      by rewrite <-Hid, author_of_spec.
  - apply not_elem_of_list_to_map. intros ([K' sh] & HK & Hsh)%list_elem_of_fmap. simpl in HK. subst K'.
    by destruct (Hin sh Hsh) as (? & ? & ? & _).
Qed.

Lemma versions_of_spec db id version b s :
  db_keys db →
  versions_of db id !! version = Some (b, s) ↔
  ∃ v, v ∈ versions db ∧ v_asset_id v = id ∧ v_version v = version ∧ v_body v = b ∧ v_sha256 v = s.
Proof.
  intros Hk. unfold versions_of.
  assert (∀ x, (version, x) ∈ map (λ v, (v_version v, (v_body v, v_sha256 v)))
      (filter (λ v, v_asset_id v = id) (versions db)) ↔
    ∃ v, v ∈ versions db ∧ v_asset_id v = id ∧ v_version v = version ∧ x = (v_body v, v_sha256 v)) as Hin.
  { intros x. rewrite list_elem_of_In, in_map_iff. split.
    - intros (v & [= <- <-] & Hv). apply list_elem_of_In, list_elem_of_filter in Hv as [Hid Hv]. by exists v.
    - intros (v & Hv & Hid & <- & ->). exists v. split; [done|]. by apply list_elem_of_In, list_elem_of_filter. }
  split.
  - intros (v & Hv & Hid & Hver & [= -> ->])%elem_of_list_to_map_2%Hin. by exists v.
  - intros (v & Hv & Hid & Hver & <- & <-). apply elem_of_list_to_map_1'; [|apply Hin; by exists v].
    intros x (w & Hw & Hwid & Hwver & ->)%Hin.
    assert (v = w) as ->; [|done]. eapply (NoDup_map_inj version_key); [apply (wf_version_key _ Hk)|done..|].
    unfold version_key. congruence.
Qed.

Lemma versions_of_None db id version :
  db_keys db → versions_of db id !! version = None ↔ ∀ v, v ∈ versions db → v_asset_id v = id → v_version v ≠ version.
Proof.
  intros Hk. split.
  - intros Hn v Hv Hid Hver. assert (versions_of db id !! version = Some (v_body v, v_sha256 v)); [|congruence].
    apply versions_of_spec; [done|]. by exists v.
  - intros Hn. destruct (versions_of db id !! version) as [[b s]|] eqn:Hs; [|done].
    apply versions_of_spec in Hs as (v & Hv & Hid & Hver & _); [|done]. by destruct (Hn v Hv Hid).
Qed.

(** The lookup of one version, as the reads' SQL does it. *)
Lemma versions_of_existsb db id version :
  db_keys db →
  existsb (λ v, (v_asset_id v =? id) && (v_version v =s? version)) (versions db) =
  bool_decide (is_Some (versions_of db id !! version)).
Proof.
  intros Hk. destruct (versions_of db id !! version) as [[b s]|] eqn:Hs.
  - rewrite bool_decide_eq_true_2 by done. apply versions_of_spec in Hs as (v & Hv & Hid & Hver & _); [|done].
    apply existsb_exists. exists v. split; [by apply list_elem_of_In|].
    by rewrite Hid, Hver, Z.eqb_refl, String.eqb_refl.
  - rewrite bool_decide_eq_false_2 by (by intros []). apply not_true_iff_false. intros (v & Hv & Hm)%existsb_exists.
    breflect_all. apply list_elem_of_In in Hv. rewrite versions_of_None in Hs by done. by apply (Hs v Hv).
Qed.

Lemma versions_of_ext db db' id :
  db_keys db → db_keys db' → (∀ v, v_asset_id v = id → v ∈ versions db ↔ v ∈ versions db') →
  versions_of db id = versions_of db' id.
Proof.
  intros Hk Hk' Hv. apply map_eq. intros version. apply option_eq. intros [b s].
  rewrite !versions_of_spec by done. split; intros (v & Hin & Hid & H); exists v; (split; [by apply (Hv v Hid)|done]).
Qed.
End interface.
