(* ===== verification/MarketRefines.v ===== *)
(** * The SQL store refines the abstract map

    Without failing statements, every method of [MarketStore] does to the
    shelves of its database what the machine of [MarketInterface] does to the
    map, and tells its caller the same; so does every history.  With failing
    statements the shelves of other names still stay as they are. *)

From S2P Require Import Prelude GoStrings GoStringsFacts Strconv Hardware GoTime MarketStore MarketStoreProofs.
From S2P Require Import MarketStoreTheorems MarketConc MarketConcLogic MarketConcProofs MarketConcPut MarketConcRuns.
From S2P Require Import MarketApi MarketInterface MarketVersions.
From Stdlib Require Import ZArith Lia ZifyBool Bool Ascii String.
From stdpp Require Import base option list gmap strings.

Open Scope go_scope.
Open Scope Z_scope.

Section refines.
Context {U : GoUnicode} {Q : SqlEnv}.

(** ** Other names *)

Lemma rg_run {A} X own del E (Qp : bool → result store_err A → DB → Prop) w p db fs :
  db_keys db → rg (rely X) (guar own del) E Qp w p db → guar own del db (run p db fs).1.2.
Proof.
  intros Hk Hp. revert w db fs Hk Hp. induction p as [r|B m k IH]; intros w db fs Hk Hp; [by apply guar_refl|].
  simpl in *. specialize (Hp db fs ltac:(reflexivity)). destruct (m db fs) as [[r db'] fs'].
  destruct Hp as (HG & w' & _ & Hrg). apply guar_trans with db'; [done..|]. eapply IH; [apply HG|done].
Qed.

(** Under any failures, a method keeps its guarantee. *)
Lemma seq_guar op now db fs : db_keys db → guar (writes op) (deletes op) db (run_op db (op, now, fs)).
Proof.
  intros Hk. rewrite <-seq_of_db, <-prog_of_alone. eapply rg_run; [done|].
  by apply (prog_of_guarded (λ _, false)).
Qed.

Lemma insulated_shelf K db db' :
  db_keys db → grown db db' → insulated K db db' → shelves db' !! K = shelves db !! K.
Proof.
  intros Hk Hg Hi. pose proof (ev_dbkeys _ _ Hg) as Hk'. rewrite !shelves_lookup by done.
  destruct (asset_joined db K.1.1 K.1.2 K.2) as [[a au]|] eqn:Hj; simpl.
  - assert (names K (as_id a) db) as Hn by (apply names_joined; [done|]; by exists a, au).
    pose proof Hj as (Ha & Hau & Hid & Ht & He & Hnm)%asset_joined_Some.
    destruct (in_row _ _ _ Hi a au Ha Hau Hid) as (n & _ & Hn').
    { destruct K as [[t e] nm]. unfold nat_key. simpl in *. congruence. }
    pose proof (asset_joined_spec db' (with_downloads n a) au Hk' Hn' (ev_authors _ _ Hg _ Hau) Hid) as Hj'.
    simpl in Hj'. rewrite <-Ht, <-He, <-Hnm, Hj'. simpl. unfold shelf_of. simpl. do 2 f_equal. symmetry.
    apply versions_of_ext; [done..|]. by apply (in_versions _ _ _ Hi).
  - destruct (asset_joined db' K.1.1 K.1.2 K.2) as [[a au]|] eqn:Hj'; [|done]. exfalso.
    assert (names K (as_id a) db') as Hn by (apply names_joined; [done|]; by exists a, au).
    apply (in_new _ _ _ Hi), names_joined in Hn as (b & bu & Hb & _); [|done]. congruence.
Qed.

Lemma guar_shelves own del K db db' :
  db_keys db → guar own del db db' → own ≠ Some K → shelves db' !! K = shelves db !! K.
Proof. intros Hk HG Hne. apply insulated_shelf; [done|apply HG|by apply HG]. Qed.

(** What is left to show of a write: its own shelf. *)
Lemma shelves_insert K del sh db db' :
  db_keys db → guar (Some K) del db db' → shelves db' !! K = Some sh → shelves db' = <[K := sh]> (shelves db).
Proof.
  intros Hk HG Hsh. apply map_eq. intros K'. destruct (decide (K' = K)) as [-> | Hne].
  - by rewrite lookup_insert_eq.
  - rewrite lookup_insert_ne by done. apply (guar_shelves (Some K) del); [done..|congruence].
Qed.

Lemma shelves_none op now db fs :
  db_keys db → writes op = None → shelves (run_op db (op, now, fs)) = shelves db.
Proof.
  intros Hk Hw. apply map_eq. intros K. eapply guar_shelves; [done|by apply seq_guar|]. by rewrite Hw.
Qed.

(** ** Updates *)

Lemma update_joined f db typ eoa name a au :
  db_keys db → keeps_keys f → asset_joined db typ eoa name = Some (a, au) →
  asset_joined (update_asset (as_id a) f db) typ eoa name = Some (f a, au).
Proof.
  intros Hk Hf (Ha & Hau & Hid & <- & <- & <-)%asset_joined_Some.
  destruct (Hf a) as [Hi Hkey]. injection Hkey as H1 H2 H3. rewrite <-H1, <-H3.
  apply asset_joined_spec; [by apply keys_update_asset| |done|congruence].
  apply elem_of_update. exists a. by rewrite Z.eqb_refl.
Qed.

Lemma joined_shelf db typ eoa name a au :
  db_keys db → asset_joined db typ eoa name = Some (a, au) → shelves db !! (typ, eoa, name) = Some (shelf_of db a).
Proof. intros Hk Hj. rewrite shelves_lookup by done. simpl. by rewrite Hj. Qed.

Lemma shelves_update f db typ eoa name a au :
  db_keys db → keeps_keys f → asset_joined db typ eoa name = Some (a, au) →
  shelves (update_asset (as_id a) f db) = <[(typ, eoa, name) := shelf_of db (f a)]> (shelves db).
Proof.
  intros Hk Hf Hj. apply (shelves_insert _ None); [done| |].
  - apply guar_update; [done..|]. apply names_bound; [done|]. apply names_joined; [done|]. by exists a, au.
  - rewrite (joined_shelf _ _ _ _ (f a) au); [|by apply keys_update_asset|by apply update_joined]. done.
Qed.

Lemma find_joined db typ eoa name a au :
  db_keys db → asset_joined db typ eoa name = Some (a, au) → find (λ b, as_id b =? as_id a) (assets db) = Some a.
Proof.
  intros Hk (Ha & _)%asset_joined_Some. apply find_unique; [done|apply Z.eqb_refl|].
  intros y Hy He%Z.eqb_eq. by eapply (NoDup_map_inj as_id); [apply (wf_asset_ids _ Hk)|..].
Qed.

Lemma assetIDVis_run typ eoa name db :
  assetIDVis typ eoa name db [] =
  match asset_joined db typ (to_lower eoa) name with
  | Some (a, _) => (Ok (as_id a, as_visibility a), db, [])
  | None => (Err ErrNotFound, db, [])
  end.
Proof. unfold assetIDVis, bind, catch, query_row, stmt. by destruct (asset_joined _ _ _ _) as [[a au]|]. Qed.

(** The step of the machine and the method, side by side. *)
Definition refined (op : store_op) (now : string) (db : DB) : Prop :=
  spec_step op (shelves db) =
  (observe op (seq_answer db (op, now, [])), shelves (run_op db (op, now, []))).

Lemma SetVisibility_run typ eoa name vis now db :
  SetVisibility typ eoa name vis now db [] =
  match asset_joined db typ (to_lower eoa) name with
  | Some (a, _) => if as_visibility a =s? vis then (Ok false, db, [])
                   else (Ok true, update_asset (as_id a) (set_visibility vis now) db, [])
  | None => (Err ErrNotFound, db, [])
  end.
Proof.
  unfold SetVisibility, bind at 1. rewrite assetIDVis_run.
  destruct (asset_joined _ _ _ _) as [[a au]|]; [|done]. by case_if.
Qed.

Lemma SetPrice_run typ eoa name price token now db :
  db_keys db →
  SetPrice typ eoa name price token now db [] =
  match asset_joined db typ (to_lower eoa) name with
  | Some (a, _) =>
      if (as_price a =s? price) && (default ""%string (as_token a) =s? default ""%string token) then (Ok false, db, [])
      else (Ok true, update_asset (as_id a) (set_price price token now) db, [])
  | None => (Err ErrNotFound, db, [])
  end.
Proof.
  intros Hk. unfold SetPrice, bind at 1. rewrite assetIDVis_run.
  destruct (asset_joined _ _ _ _) as [[a au]|] eqn:Hj; [|done].
  unfold bind at 1, query_row, stmt. rewrite (find_joined _ _ _ _ _ _ Hk Hj). cbn [fmap option_fmap option_map].
  by case_if.
Qed.

Lemma SetMeta_run typ eoa name tags summary now db :
  db_keys db →
  SetMeta typ eoa name tags summary now db [] =
  match asset_joined db typ (to_lower eoa) name with
  | Some (a, _) =>
      let t := match tags with Some t => if t =s? as_tags a then None else Some t | None => None end in
      let s := match summary with Some t => if t =s? as_summary a then None else Some t | None => None end in
      match t, s with
      | None, None => (Ok false, db, [])
      | _, _ => (Ok true, update_asset (as_id a) (set_meta t s now) db, [])
      end
  | None => (Err ErrNotFound, db, [])
  end.
Proof.
  intros Hk. unfold SetMeta, bind at 1. rewrite assetIDVis_run.
  destruct (asset_joined _ _ _ _) as [[a au]|] eqn:Hj; [|done].
  unfold bind at 1, query_row, stmt. rewrite (find_joined _ _ _ _ _ _ Hk Hj). cbn [fmap option_fmap option_map].
  cbv zeta. repeat (reflexivity || case_match).
Qed.

Lemma SetVisibility_refined typ eoa name vis now db :
  db_keys db → refined (OpVisibility typ eoa name vis) now db.
Proof.
  intros Hk. unfold refined, seq_answer, seq_of, run_op, bind. rewrite SetVisibility_run.
  cbn [spec_step]. unfold spec_visibility. rewrite shelves_lookup by done. cbn [fst snd].
  destruct (asset_joined db typ (to_lower eoa) name) as [[a au]|] eqn:Hj; [|done]. cbn [fmap option_fmap option_map].
  change (sh_visibility (shelf_of db (a, au).1)) with (as_visibility a).
  destruct (as_visibility a =s? vis); [done|]. cbn [fst snd].
  by rewrite (shelves_update (set_visibility vis now) db typ (to_lower eoa) name a au).
Qed.

Lemma SetPrice_refined typ eoa name price token now db :
  db_keys db → refined (OpPrice typ eoa name price token) now db.
Proof.
  intros Hk. unfold refined, seq_answer, seq_of, run_op, bind. rewrite SetPrice_run by done.
  cbn [spec_step]. unfold spec_price. rewrite shelves_lookup by done. cbn [fst snd].
  destruct (asset_joined db typ (to_lower eoa) name) as [[a au]|] eqn:Hj; [|done].
  cbn [fmap option_fmap option_map fst shelf_of sh_price sh_token].
  destruct (_ && _); [done|]. cbn [fst snd].
  by rewrite (shelves_update (set_price price token now) db typ (to_lower eoa) name a au).
Qed.

Lemma SetMeta_refined typ eoa name tags summary now db :
  db_keys db → refined (OpMeta typ eoa name tags summary) now db.
Proof.
  intros Hk. unfold refined, seq_answer, seq_of, run_op, bind. rewrite SetMeta_run by done.
  cbn [spec_step]. rewrite shelves_lookup by done. cbn [fst snd].
  destruct (asset_joined db typ (to_lower eoa) name) as [[a au]|] eqn:Hj; [|done].
  assert (∀ t s, shelves (update_asset (as_id a) (set_meta t s now) db) = shelves db) as Hsame.
  { intros t s. rewrite (shelves_update (set_meta t s now) db typ (to_lower eoa) name a au) by done.
    by rewrite (insert_id _ _ _ (joined_shelf _ _ _ _ _ _ Hk Hj)). }
  cbv zeta. repeat case_match; simplify_eq; cbn [fst snd]; by rewrite ?Hsame.
Qed.

(** ** Deletion *)

Lemma DeleteAsset_run typ eoa name db :
  DeleteAsset typ eoa name db [] =
  match asset_joined db typ (to_lower eoa) name with
  | Some (a, _) => (Ok true, delete_asset_row (as_id a) (delete_versions (as_id a) db), [])
  | None => (Ok false, db, [])
  end.
Proof.
  unfold DeleteAsset, bind at 1, catch. rewrite assetIDVis_run.
  by destruct (asset_joined _ _ _ _) as [[a au]|].
Qed.

Lemma DeleteAsset_refined typ eoa name now db : db_wf db → refined (OpDelete typ eoa name) now db.
Proof.
  intros Hwf. assert (db_keys db) as Hk by done.
  unfold refined, seq_answer, seq_of, run_op, bind. rewrite DeleteAsset_run.
  cbn [spec_step]. rewrite shelves_lookup by done. cbn [fst snd].
  destruct (asset_joined db typ (to_lower eoa) name) as [[a au]|] eqn:Hj; cbn [fst snd fmap option_fmap option_map].
  - rewrite bool_decide_eq_true_2 by done. f_equal. apply map_eq. intros K.
    set (db' := delete_asset_row _ _).
    assert (db_keys db') as Hk' by (by apply keys_delete).
    destruct (decide (K = (typ, to_lower eoa, name))) as [-> | Hne].
    + rewrite lookup_delete_eq, shelves_lookup by done. cbn [fst snd]. unfold db'.
      by rewrite (asset_joined_delete db typ (to_lower eoa) name a au), !String.eqb_refl.
    + rewrite lookup_delete_ne by done. symmetry.
      apply (guar_shelves (Some (typ, to_lower eoa, name)) (Some (typ, to_lower eoa, name))); [done| |congruence].
      apply guar_delete; [done|]. apply names_bound; [done|]. apply names_joined; [done|]. by exists a, au.
  - rewrite bool_decide_eq_false_2 by (by intros []). f_equal. symmetry. symmetry. apply delete_id.
    rewrite shelves_lookup by done. cbn [fst snd]. by rewrite Hj.
Qed.

(** ** Reads *)

Context {QL : SqlEnvLaws Q}.

Definition version_list (db : DB) (id : Z) : list Version :=
  sortVersionsDesc (map (λ v, mkVersion (v_version v) (v_sha256 v) (parseTime (v_created v)))
    (row_order (filter (λ v, v_asset_id v = id) (versions db)))).

Lemma version_list_elem db id version :
  db_keys db → version ∈ map ver_Version (version_list db id) ↔ is_Some (versions_of db id !! version).
Proof.
  intros Hk. unfold version_list, sortVersionsDesc. rewrite <-Permutation_rev.
  rewrite list_elem_of_In, in_map_iff. split.
  - intros (x & <- & Hx). apply list_elem_of_In in Hx. rewrite sift_fold_perm in Hx. simpl in Hx.
    apply list_elem_of_In, in_map_iff in Hx as (v & <- & Hv). apply list_elem_of_In in Hv.
    rewrite row_order_perm in Hv. apply list_elem_of_filter in Hv as [Hid Hv]. exists (v_body v, v_sha256 v).
    apply versions_of_spec; [done|]. by exists v.
  - intros ([b s] & (v & Hv & Hid & <- & _)%versions_of_spec); [|done].
    exists (mkVersion (v_version v) (v_sha256 v) (parseTime (v_created v))). split; [done|].
    apply list_elem_of_In. rewrite sift_fold_perm. simpl.
    apply list_elem_of_In, in_map_iff. exists v. split; [done|]. apply list_elem_of_In.
    rewrite row_order_perm. by apply list_elem_of_filter.
Qed.

Lemma ListVersions_run typ eoa name db :
  ListVersions typ eoa name db [] =
  (Ok match asset_joined db typ (to_lower eoa) name with Some (a, _) => version_list db (as_id a) | None => [] end, db, []).
Proof.
  unfold ListVersions, bind, query, stmt. simpl. by destruct (asset_joined _ _ _ _) as [[a au]|].
Qed.

Lemma ListVersions_refined typ eoa name now db : db_keys db → refined (OpVersions typ eoa name) now db.
Proof.
  intros Hk. unfold refined, seq_answer, seq_of, run_op, bind. rewrite ListVersions_run.
  cbn [spec_step observe fst snd]. rewrite shelves_lookup by done. cbn [fst snd]. do 2 f_equal.
  destruct (asset_joined db typ (to_lower eoa) name) as [[a au]|]; [|done].
  cbn. apply set_eq. intros version. rewrite elem_of_list_to_set, version_list_elem by done. apply elem_of_dom.
Qed.

Lemma existsb_versions db id version :
  db_keys db → existsb (λ v, ver_Version v =s? version) (version_list db id) =
  bool_decide (is_Some (versions_of db id !! version)).
Proof.
  intros Hk. apply eq_true_iff_eq. rewrite bool_decide_eq_true, <-version_list_elem by done.
  rewrite existsb_exists, list_elem_of_In, in_map_iff. split; intros (v & H1 & H2); exists v.
  - split; [by apply String.eqb_eq|done].
  - split; [done|by apply String.eqb_eq].
Qed.

Lemma GetAsset_refined typ eoa name version now db : db_keys db → refined (OpGet typ eoa name version) now db.
Proof.
  intros Hk. unfold refined, seq_answer. rewrite (shelves_none (OpGet typ eoa name version)) by done.
  cbn [seq_of spec_step]. rewrite shelves_lookup by done. cbn [fst snd].
  unfold GetAsset, bind, catch, query_row, stmt.
  destruct (asset_joined db typ (to_lower eoa) name) as [[a au]|] eqn:Hj; [|done].
  cbn [tail]. rewrite ListVersions_run, Hj. cbn [fmap option_fmap option_map fst sh_versions shelf_of].
  rewrite existsb_versions by done.
  destruct (version =s? ""); [done|]. cbn [negb]. by destruct (bool_decide _).
Qed.

Lemma find_version db id version :
  db_keys db →
  (λ v, (v_body v, v_sha256 v)) <$> find (λ v, (v_asset_id v =? id) && (v_version v =s? version)) (versions db) =
  versions_of db id !! version.
Proof.
  intros Hk. destruct (find _ _) as [v|] eqn:Hf; simpl; symmetry.
  - apply find_some in Hf as [Hv Hm]. breflect_all. apply list_elem_of_In in Hv.
    apply versions_of_spec; [done|]. by exists v.
  - apply versions_of_None; [done|]. intros v Hv Hid Hver. apply list_elem_of_In in Hv.
    pose proof (find_none _ _ Hf v Hv) as Hn. cbv beta in Hn. by rewrite Hid, Hver, Z.eqb_refl, String.eqb_refl in Hn.
Qed.

Lemma GetRecipe_refined typ eoa name version now db : db_keys db → refined (OpRecipe typ eoa name version) now db.
Proof.
  intros Hk. unfold refined, seq_answer. rewrite (shelves_none (OpRecipe typ eoa name version)) by done.
  cbn [seq_of spec_step observe]. rewrite shelves_lookup by done. cbn [fst snd].
  destruct (version =s? "") eqn:Ev; [done|].
  unfold GetRecipe, bind, catch, query_row, stmt. rewrite Ev. cbn [tail].
  destruct (asset_joined db typ (to_lower eoa) name) as [[a au]|]; [|done].
  cbn [fmap option_fmap option_map fst snd mbind option_bind sh_versions sh_visibility shelf_of].
  rewrite <-find_version by done. by destruct (find _ _) as [v|].
Qed.

(** ** Pushing *)

Lemma already_published_spec inp db :
  db_keys db →
  already_published inp db =
  match shelves db !! put_key inp with
  | Some sh => bool_decide (is_Some (sh_versions sh !! am_Version (pi_Meta inp)))
  | None => false
  end.
Proof.
  intros Hk. unfold already_published. rewrite shelves_lookup by done. cbn [put_key fst snd].
  destruct (asset_joined _ _ _ _) as [[a au]|]; [|done]. by apply versions_of_existsb.
Qed.

Lemma versions_of_insert db id version sha body now :
  existsb (λ v, (v_asset_id v =? id) && (v_version v =s? version)) (versions db) = false →
  versions_of (insert_version id version sha body now db).2 id = <[version := (body, sha)]> (versions_of db id).
Proof.
  intros Hex. unfold insert_version. rewrite Hex. unfold versions_of. cbn [snd versions].
  rewrite filter_app, filter_cons, filter_nil, decide_True, map_app by done. simpl. apply list_to_map_snoc.
  intros ([ver x] & -> & (v & [= Hver _] & Hv)%list_elem_of_In%in_map_iff)%list_elem_of_fmap.
  apply list_elem_of_In, list_elem_of_filter in Hv as [Hid Hv]. apply (existsb_false _ _ _ Hex) in Hv.
  simpl in Hv. by rewrite Hid, Hver, Z.eqb_refl, String.eqb_refl in Hv.
Qed.

(** The shelf a successful push leaves. *)
Lemma pushed_shelf inp now db db2 a au :
  db_wf db2 → a ∈ assets db2 → au ∈ authors db2 → au_id au = as_author_id a →
  as_type a = pi_Type inp → au_eoa au = to_lower (pi_Author inp) → as_name a = am_Name (pi_Meta inp) →
  existsb (λ v, (v_asset_id v =? as_id a) && (v_version v =s? am_Version (pi_Meta inp))) (versions db2) = false →
  PutAsset inp now db [] = put_version inp now (as_id a) db2 [] →
  ∃ b, (PutAsset inp now db []).1.1 = Ok (Some b) ∧
  shelves (PutAsset inp now db []).1.2 !! put_key inp =
  Some (mkShelf (as_visibility a) (as_price a) (default ""%string (as_token a))
    (<[am_Version (pi_Meta inp) := (pi_RecipeBody inp, pi_SHA256 inp)]> (versions_of db2 (as_id a)))).
Proof.
  intros Hwf Ha Hau Hid Ht He Hn Hex Hput.
  destruct (put_version_new inp now db2 a au Hwf Ha Hau Hid Ht He Hn Hex) as (Hp & Hwf' & Hj & _).
  rewrite Hput, Hp. cbn [fst snd]. eexists. split; [done|]. unfold put_key.
  etrans; [apply (joined_shelf _ _ _ _ _ _ (wf_keys _ Hwf') Hj)|]. f_equal.
  set (a' := pushed_row _ _ _ _). assert (as_id a' = as_id a ∧ as_visibility a' = as_visibility a ∧
    as_price a' = as_price a ∧ as_token a' = as_token a) as (Hi & Hv & Hpr & Htk)
    by (unfold a', pushed_row; by case_if).
  unfold shelf_of. rewrite Hi, Hv, Hpr, Htk. f_equal. by rewrite <-(versions_of_insert db2 (as_id a) _ _ _ now Hex).
Qed.

Lemma PutAsset_refined {L : GoUnicodeLaws U} inp now db : db_wf db → refined (OpPut inp) now db.
Proof.
  intros Hwf. assert (db_keys db) as Hk by done.
  destruct (put_prepared inp now db Hwf) as (a & au & db2 & Hput & Hwf2 & Ha & Hau & Hid & Ht & He & Hn & Ev & Hpub & Hcase).
  unfold refined, seq_answer, seq_of. cbn [spec_step]. unfold spec_put.
  rewrite already_published_spec in Hpub by done.
  assert (shelves db !! put_key inp = (λ r, shelf_of db r.1) <$>
    asset_joined db (pi_Type inp) (to_lower (pi_Author inp)) (am_Name (pi_Meta inp))) as Hsh
    by by apply shelves_lookup.
  destruct (existsb _ (versions db2)) eqn:Hex.
  - (* the version is there *)
    destruct (shelves db !! put_key inp) as [sh|] eqn:Hold; [|done]. simpl in Hpub.
    symmetry in Hpub. apply bool_decide_eq_true in Hpub as [x Hx]. simpl. rewrite Hx.
    unfold bind. rewrite Hput, (put_version_dup inp now (as_id a) db2 Hex). simpl.
    destruct (asset_joined db _ _ _) as [[o r]|]; [by destruct Hcase as [_ ->]|].
    done.
  - destruct (pushed_shelf inp now db db2 a au Hwf2 Ha Hau Hid Ht He Hn Hex Hput) as (b & Hr & Hs).
    assert (guar (Some (put_key inp)) None db (PutAsset inp now db []).1.2) as HG
      by apply (seq_guar (OpPut inp) now db [] Hk).
    pose proof (shelves_insert _ _ _ _ _ Hk HG Hs) as Hins. cbn [run_op]. rewrite Hins. unfold bind.
    destruct (PutAsset inp now db []) as [[r d] f]. cbn [fst snd] in *. subst r. simpl.
    assert (default no_shelf (shelves db !! put_key inp) = mkShelf (as_visibility a) (as_price a)
      (default ""%string (as_token a)) (versions_of db2 (as_id a))) as ->.
    { rewrite Hsh.
      destruct (asset_joined db _ _ _) as [[o r]|]; simpl; [by destruct Hcase as [-> ->]|].
      destruct Hcase as (-> & Hnext & -> & ->). unfold no_shelf. f_equal. symmetry. apply map_eq. intros version.
      rewrite lookup_empty. apply versions_of_None; [done|]. intros v Hv Hva. rewrite Ev in Hv.
      pose proof (wf_version_next _ Hk v Hv). lia. }
    cbn [sh_versions sh_visibility sh_price sh_token].
    assert (versions_of db2 (as_id a) !! am_Version (pi_Meta inp) = None) as ->; [|done].
    rewrite versions_of_existsb in Hex by done. apply bool_decide_eq_false in Hex.
    by destruct (versions_of db2 (as_id a) !! am_Version (pi_Meta inp)); [destruct Hex|].
Qed.

(** ** Histories *)

Lemma op_refined {L : GoUnicodeLaws U} op now db : db_wf db → refined op now db.
Proof.
  intros Hwf. assert (db_keys db) as Hk by done. destruct op.
  - by apply PutAsset_refined.
  - by apply SetVisibility_refined.
  - by apply SetPrice_refined.
  - by apply SetMeta_refined.
  - by apply DeleteAsset_refined.
  - unfold refined. by rewrite shelves_none.
  - unfold refined. by rewrite shelves_none.
  - unfold refined. by rewrite shelves_none.
  - by apply GetAsset_refined.
  - by apply ListVersions_refined.
  - by apply GetRecipe_refined.
Qed.

Lemma sqlStore_step {L : GoUnicodeLaws U} op now db :
  db_wf db →
  db_wf (call (sqlStore now) op db []).1.2 ∧
  spec_step op (shelves db) =
    (observe op (call (sqlStore now) op db []).1.1, shelves (call (sqlStore now) op db []).1.2).
Proof.
  intros Hwf. assert (call (sqlStore now) op db [] = seq_of op now db []) as -> by by destruct op.
  rewrite seq_of_db. split; [eapply ev_wf; by apply run_op_evolved|by apply op_refined].
Qed.

(** The machine run over a history: its replies and its last map. *)
Fixpoint spec_run (ops : list store_op) (σ : gmap nkey shelf) : list reply * gmap nkey shelf :=
  match ops with
  | [] => ([], σ)
  | op :: ops' =>
      let '(r, σ1) := spec_step op σ in
      let '(rs, σ2) := spec_run ops' σ1 in (r :: rs, σ2)
  end.

Lemma store_refines_from {L : GoUnicodeLaws U} h db :
  db_wf db →
  spec_run (map fst h) (shelves db) =
  (map (λ x, observe x.1 x.2) (seq_answers db (map (λ o, (o.1, o.2, [])) h)),
   shelves (run_store (map (λ o, (o.1, o.2, [])) h) db)).
Proof.
  revert db. induction h as [|[op now] h IH]; intros db Hwf; [done|].
  cbn [map fst snd spec_run seq_answers]. rewrite (op_refined op now db Hwf), IH.
  - done.
  - eapply ev_wf. by apply run_op_evolved.
Qed.

(** C4: The SQL store implements the interface's contract: over any history of
    requests whose statements succeed, what callers are told - stored, already
    published, changed or not, not found, the recipe with its digest and
    visibility, the published versions - and what is on the shelves is exactly
    what the abstract machine answers and holds: a finite map from (type,
    author, name) to visibility, price and immutable versions, where a new shelf
    is private and free, an edit of the metadata touches no version and a
    deletion removes the shelf. *)
Theorem store_refines_map {L : GoUnicodeLaws U} (h : list (store_op * string)) :
  let hs := map (λ o, (o.1, o.2, [])) h in
  spec_run (map fst h) ∅ =
  (map (λ x, observe x.1 x.2) (seq_answers empty_db hs), shelves (run_store hs empty_db)).
Proof. exact (store_refines_from h empty_db wf_empty). Qed.

(** The SQL store meets the contract of the interface. *)
#[export] Instance sqlStore_laws {L : GoUnicodeLaws U} : StoreLaws sqlStore := {|
  st_inv := db_wf; st_shelves := shelves; st_empty := wf_empty; st_none := eq_refl; st_step := sqlStore_step |}.
End refines.

(** ** A run of both *)

#[local] Existing Instance ascii_tables.
#[local] Existing Instance toy_sql.

Definition demo_requests : list (store_op * string) :=
  [(OpPut (demo_push "1.0"), "t1"); (OpPut (demo_push "1.0"), "t2"); (OpPut (demo_push "1.1"), "t3");
   (OpVisibility "agent" "0xAB" "bot" "public", "t4"); (OpRecipe "agent" "0xab" "bot" "1.0", "t5");
   (OpPrice "agent" "0xab" "tool" "5" None, "t6"); (OpDelete "agent" "0xab" "bot", "t7");
   (OpGet "agent" "0xab" "bot" "", "t8")]%string.

Example demo_replies :
  (spec_run (map fst demo_requests) ∅).1 =
  [RStored; RErr ErrVersionExists; RStored; RChanged true; RRecipe (Some ("body 1.0", "ff", "public")%string);
   RErr ErrNotFound; RChanged true; RFound false].
Proof. vm_compute. reflexivity. Qed.

Lemma store_refines_map_witness :
  let hs := map (λ o, (o.1, o.2, [])) demo_requests in
  (spec_run (map fst demo_requests) ∅).1 = map (λ x, observe x.1 x.2) (seq_answers empty_db hs).
Proof. exact (f_equal fst (store_refines_map demo_requests)). Defined.

Lemma interface_push_then_fetch_witness :
  ∃ visibility,
    observe (OpRecipe "agent" "0xab" "bot" "1.0")
      (call (sqlStore "t9") (OpRecipe "agent" "0xab" "bot" "1.0")
         (calls sqlStore ((OpPut (demo_push "1.0"), "t1"%string) :: [(OpPut (demo_push "1.1"), "t2"%string)])
            (calls sqlStore [] empty_db)) []).1.1 =
    RRecipe (Some ("body 1.0"%string, "ff"%string, visibility)).
Proof.
  apply (interface_push_then_fetch sqlStore [] [(OpPut (demo_push "1.1"), "t2"%string)] (demo_push "1.0") "t1" "t9" "0xab").
  - vm_compute. reflexivity.
  - repeat constructor. discriminate.
  - reflexivity.
  - discriminate.
Defined.
