(* ===== verification/MarketFailures.v ===== *)
(** * What a failing statement leaves on the shelves

    Under any schedule of statement failures a method leaves the shelves of
    [MarketInterface] as they were or as the machine's step makes them; only a
    first push that fails half-way can leave something else, an empty private
    shelf. *)

From S2P Require Import Prelude GoStrings GoStringsFacts Strconv Hardware GoTime MarketStore MarketStoreProofs.
From S2P Require Import MarketStoreTheorems MarketConc MarketConcLogic MarketConcProofs MarketConcPut MarketConcRuns.
From S2P Require Import MarketApi MarketInterface MarketRefines.
From Stdlib Require Import ZArith Lia ZifyBool Bool Ascii String.
From stdpp Require Import base option list gmap strings.

Open Scope go_scope.
Open Scope Z_scope.

Section failures.
Context {U : GoUnicode} {Q : SqlEnv}.

(** ** Updates and deletion *)

(** A method that finds its asset and then only reads, or applies one update. *)
Lemma assetIDVis_then {A} typ eoa name (k : Z * string → M A) (P : DB → Prop) db fs :
  P db →
  (∀ a au fs', asset_joined db typ (to_lower eoa) name = Some (a, au) → P (k (as_id a, as_visibility a) db fs').1.2) →
  P (bind (assetIDVis typ eoa name) k db fs).1.2.
Proof.
  intros HP Hk. unfold bind. pose proof (assetIDVis_spec typ eoa name db fs) as Hs.
  destruct (assetIDVis typ eoa name db fs) as [[[[id vis]|e] d] f]; destruct Hs as [-> Hs]; [|done].
  destruct Hs as (a & au & Hj & -> & ->). by apply (Hk a au).
Qed.

Lemma exec_outcome (f : DB → DB) db fs : (exec f db fs).1.2 = db ∨ (exec f db fs).1.2 = f db.
Proof. unfold exec, stmt. destruct fs as [|[msg|] fs]; [by right|by left|by right]. Qed.

Lemma exec_ret_outcome {A} (f : DB → DB) (a : A) db fs :
  (bind (exec f) (λ _, ret a) db fs).1.2 = db ∨ (bind (exec f) (λ _, ret a) db fs).1.2 = f db.
Proof.
  pose proof (exec_outcome f db fs) as Ho. unfold bind. by destruct (exec f db fs) as [[[u|e] d] fs'].
Qed.

(** The shelves after, against those before and the machine's step. *)
Definition left_or_done (op : store_op) (db db' : DB) : Prop :=
  shelves db' = shelves db ∨ shelves db' = (spec_step op (shelves db)).2.

Lemma SetVisibility_outcome typ eoa name vis now db fs :
  db_keys db → left_or_done (OpVisibility typ eoa name vis) db (SetVisibility typ eoa name vis now db fs).1.2.
Proof.
  intros Hk. unfold SetVisibility.
  apply (assetIDVis_then typ eoa name _ (left_or_done (OpVisibility typ eoa name vis) db)); [by left|].
  intros a au fs' Hj. destruct (as_visibility a =s? vis) eqn:Ev; [by left|].
  destruct (exec_ret_outcome (update_asset (as_id a) (set_visibility vis now)) true db fs') as [-> | ->]; [by left|right].
  rewrite (shelves_update (set_visibility vis now) db typ (to_lower eoa) name a au) by done. simpl.
  unfold spec_visibility. rewrite (joined_shelf _ _ _ _ _ _ Hk Hj). simpl. by rewrite Ev.
Qed.

Lemma SetPrice_outcome typ eoa name price token now db fs :
  db_keys db → left_or_done (OpPrice typ eoa name price token) db (SetPrice typ eoa name price token now db fs).1.2.
Proof.
  intros Hk. unfold SetPrice.
  apply (assetIDVis_then typ eoa name _ (left_or_done (OpPrice typ eoa name price token) db)); [by left|].
  intros a au fs' Hj. unfold bind at 1, query_row, stmt. rewrite (find_joined _ _ _ _ _ _ Hk Hj).
  assert (∀ f, left_or_done (OpPrice typ eoa name price token) db
    ((if (as_price a =s? price) && (default ""%string (as_token a) =s? default ""%string token) then ret false
      else let* _ := exec (update_asset (as_id a) (set_price price token now)) in ret true) db f).1.2) as Hrest.
  { intros f. destruct (_ && _) eqn:Ev; [by left|].
    destruct (exec_ret_outcome (update_asset (as_id a) (set_price price token now)) true db f) as [-> | ->]; [by left|right].
    rewrite (shelves_update (set_price price token now) db typ (to_lower eoa) name a au) by done. simpl.
    unfold spec_price. rewrite (joined_shelf _ _ _ _ _ _ Hk Hj). simpl. by rewrite Ev. }
  destruct fs' as [|[msg|] fs']; [apply Hrest|by left|apply Hrest].
Qed.

Lemma SetMeta_outcome typ eoa name tags summary now db fs :
  db_keys db → shelves (SetMeta typ eoa name tags summary now db fs).1.2 = shelves db.
Proof.
  intros Hk. unfold SetMeta.
  apply (assetIDVis_then typ eoa name _ (λ d, shelves d = shelves db)); [done|].
  intros a au fs' Hj. unfold bind at 1, query_row, stmt. rewrite (find_joined _ _ _ _ _ _ Hk Hj).
  assert (∀ t s f, shelves ((let* _ := exec (update_asset (as_id a) (set_meta t s now)) in ret true) db f).1.2
                   = shelves db) as Hup.
  { intros t s f. destruct (exec_ret_outcome (update_asset (as_id a) (set_meta t s now)) true db f) as [-> | ->]; [done|].
    rewrite (shelves_update (set_meta t s now) db typ (to_lower eoa) name a au) by done.
    by rewrite (insert_id _ _ _ (joined_shelf _ _ _ _ _ _ Hk Hj)). }
  destruct fs' as [|[msg|] fs']; [|done|]; simpl; repeat case_match; simplify_eq; try done; apply Hup.
Qed.

Lemma DeleteAsset_outcome typ eoa name db fs :
  db_wf db → left_or_done (OpDelete typ eoa name) db (DeleteAsset typ eoa name db fs).1.2.
Proof.
  intros Hwf. pose proof (DeleteAsset_cases typ eoa name db fs) as Hc.
  pose proof (DeleteAsset_refined typ eoa name "" db Hwf) as Hr.
  unfold refined, run_op in Hr. rewrite DeleteAsset_run in Hr.
  destruct (DeleteAsset typ eoa name db fs) as [[r d] f].
  destruct Hc as [[-> _]|(_ & a & au & Hj & ->)]; [by left|right]. rewrite Hr, Hj. done.
Qed.

(** ** Pushing *)

Section push.
Context (inp : PushInput) (now : string) (σ : gmap nkey shelf).
#[local] Notation K := (put_key inp).
#[local] Notation ver := (am_Version (pi_Meta inp)).

(** No shelf, or an empty private one: the push has not published yet. *)
Definition before_version (db : DB) : Prop :=
  shelves db = σ ∨ (σ !! K = None ∧ shelves db = <[K := no_shelf]> σ).

Definition author_known (author : Z) (db : DB) : Prop :=
  ∃ au, au ∈ authors db ∧ au_id au = author ∧ au_eoa au = to_lower (pi_Author inp).

(** The rows of a put, read from the shelves. *)
Lemma has_asset_names author id db : has_asset inp author id db → names K id db.
Proof.
  intros [(au & Hau & Hid & He) (a & Ha & Haid & Ht & Hx & Hn)]. exists a, au. split_and!; try done; [congruence|].
  unfold nat_key, put_key. congruence.
Qed.

Lemma names_shelf id db :
  db_keys db → names K id db → ∃ a, as_id a = id ∧ shelves db !! K = Some (shelf_of db a) ∧
    ∃ au, asset_joined db (pi_Type inp) (to_lower (pi_Author inp)) (am_Name (pi_Meta inp)) = Some (a, au).
Proof.
  intros Hk (a & au & Hj & Hid)%names_joined; [|done]. cbn [put_key fst snd] in Hj. exists a. split; [done|].
  split; [by apply (joined_shelf _ _ _ _ a au)|by exists au].
Qed.

Lemma insert_author_shelves eoa db : db_keys db → shelves (insert_author eoa db).2 = shelves db.
Proof.
  intros Hk. apply map_eq. intros K'. apply (guar_shelves None None); [done|by apply guar_insert_author|done].
Qed.

Lemma insert_asset_shelves author db :
  db_wf db → author_known author db → is_ok (insert_asset (pi_Type inp) author (pi_Meta inp) now db).1 = true →
  shelves db !! K = None ∧
  shelves (insert_asset (pi_Type inp) author (pi_Meta inp) now db).2 = <[K := no_shelf]> (shelves db).
Proof.
  intros Hwf (au & Hau & <- & He) Hok. assert (db_keys db) as Hk by done.
  pose proof (asset_by_key_joined db (pi_Type inp) (am_Name (pi_Meta inp)) au Hwf Hau) as Hkey.
  destruct (asset_joined db (pi_Type inp) (au_eoa au) (am_Name (pi_Meta inp))) as [[a r]|] eqn:Hj.
  - exfalso. apply find_some in Hkey as [Hin Hm]. unfold insert_asset in Hok.
    by rewrite (proj2 (existsb_exists _ _) (ex_intro _ a (conj Hin Hm))) in Hok.
  - destruct (insert_asset_fresh (pi_Type inp) au (pi_Meta inp) now db Hwf Hau Hj) as (_ & Hwf' & Hv & Hj').
    rewrite He in Hj, Hj'. assert (shelves db !! K = None) as Hnone by (rewrite shelves_lookup by done; simpl; by rewrite Hj).
    split; [done|]. apply (shelves_insert _ None); [done|apply (guar_insert_asset K); [done|done|by exists au]|].
    etrans; [apply (joined_shelf _ _ _ _ _ _ (wf_keys _ Hwf') Hj')|]. f_equal. unfold shelf_of, no_shelf. f_equal.
    apply map_eq. intros version. rewrite lookup_empty. apply versions_of_None; [done|].
    intros v Hin Hid. rewrite Hv in Hin. apply (wf_version_next _ Hk) in Hin. simpl in Hid. lia.
Qed.

(** The version's INSERT takes either state to the machine's. *)
Lemma insert_version_shelves id db :
  db_keys db → before_version db → names K id db →
  is_ok (insert_version id ver (pi_SHA256 inp) (pi_RecipeBody inp) now db).1 = true →
  shelves (insert_version id ver (pi_SHA256 inp) (pi_RecipeBody inp) now db).2 = (spec_put inp σ).2.
Proof.
  intros Hk Hb Hn Hok.
  pose proof (guar_insert_version K None id ver (pi_SHA256 inp) (pi_RecipeBody inp) now db Hk (names_bound _ _ _ Hk Hn)) as HG.
  destruct (names_shelf id db Hk Hn) as (a & Haid & Hsh & au & Hj).
  assert (existsb (λ v, (v_asset_id v =? id) && (v_version v =s? ver)) (versions db) = false) as Hex
    by (unfold insert_version in Hok; by destruct (existsb _ _)).
  set (db' := (insert_version id ver (pi_SHA256 inp) (pi_RecipeBody inp) now db).2) in *.
  assert (shelf_of db a = default no_shelf (σ !! K) ∧ ∀ sh, <[K := sh]> (shelves db) = <[K := sh]> σ) as [Hold Hins].
  { destruct Hb as [Hb|[HK Hb]]; rewrite Hb in Hsh |- *; [by rewrite Hsh|].
    rewrite lookup_insert_eq in Hsh. apply (inj Some) in Hsh. rewrite HK. split; [done|]. intros sh. apply insert_insert_eq. }
  assert (shelves db' !! K = Some (mkShelf (as_visibility a) (as_price a) (default ""%string (as_token a))
    (<[ver := (pi_RecipeBody inp, pi_SHA256 inp)]> (versions_of db id)))) as Hs.
  { assert (asset_joined db' (pi_Type inp) (to_lower (pi_Author inp)) (am_Name (pi_Meta inp)) = Some (a, au)) as Hj'.
    { unfold db', insert_version. by rewrite Hex. }
    etrans; [apply (joined_shelf _ _ _ _ _ _ (ev_dbkeys _ _ HG) Hj')|]. unfold shelf_of, db'.
    by rewrite Haid, versions_of_insert. }
  rewrite (shelves_insert _ _ _ _ _ Hk HG Hs), Hins. unfold spec_put. rewrite <-Hold. cbn [shelf_of sh_versions].
  rewrite versions_of_existsb in Hex by done. apply bool_decide_eq_false in Hex. rewrite Haid.
  destruct (versions_of db id !! ver); [by destruct Hex|done].
Qed.

Lemma update_shelves id f db :
  db_keys db → names K id db → keeps_keys f → (∀ a, shelf_of db (f a) = shelf_of db a) →
  shelves (update_asset id f db) = shelves db.
Proof.
  intros Hk Hn Hf Hs. destruct (names_shelf id db Hk Hn) as (a & <- & Hsh & au & Hj).
  rewrite (shelves_update f _ _ _ _ a au Hk Hf Hj), Hs. by apply insert_id.
Qed.

(** *** The whole push *)

Lemma authorID_shelves :
  triple (λ db, db_wf db ∧ shelves db = σ) (authorID (pi_Author inp))
    (λ r db, db_wf db ∧ shelves db = σ ∧ match r with Ok id => author_known id db | Err _ => True end).
Proof.
  intros db fs [Hwf Hs].
  assert (keeps (λ d0 db, db_wf d0 → db_wf db ∧ shelves db = shelves d0) (authorID (pi_Author inp))) as Hkeep.
  { assert (PreOrder (λ d0 db, db_wf d0 → db_wf db ∧ shelves db = shelves d0)) as HP.
    { split; [done|]. intros x y z Hxy Hyz Hx. destruct (Hxy Hx) as [Hy Hs1]. destruct (Hyz Hy) as [Hz Hs2].
      split; [done|congruence]. }
    unfold authorID. keeps_tac. apply keeps_stmt; [apply _|]. intros d Hd.
    split; [by apply wf_insert_author|by apply insert_author_shelves]. }
  specialize (Hkeep db fs).
  pose proof (authorID_triple db (pi_Author inp) db fs) as Ht.
  destruct (authorID (pi_Author inp) db fs) as [[r d] f]. destruct (Hkeep Hwf) as [Hwd Hsd].
  split; [done|]. split; [congruence|]. apply Ht. split; [done|]. split; [by apply evolved_refl|apply foreign_refl].
Qed.

Lemma put_find_shelves author :
  triple (λ db, db_wf db ∧ shelves db = σ ∧ author_known author db) (put_find inp now author)
    (λ r db, db_wf db ∧ before_version db ∧ match r with Ok id => names K id db | Err _ => True end).
Proof.
  set (P := λ db, db_wf db ∧ shelves db = σ ∧ author_known author db).
  assert (∀ db, P db → db_wf db ∧ before_version db) as HP by (intros db (? & ? & _); split; [done|by left]).
  unfold put_find.
  apply triple_bind with (R := λ r db, P db ∧ match r with Ok (Ok id) => names K id db | _ => True end).
  - eapply triple_catch with (R := λ r db, P db ∧ match r with Ok id => names K id db | _ => True end); [|by intros [] db].
    apply triple_stmt; [|done]. intros db Hd. unfold asset_by_key.
    destruct (find _ _) as [a|] eqn:Hf; [|done]. simpl. split; [done|].
    apply find_some in Hf as [Ha Hf]. breflect_all. apply has_asset_names with author.
    split; [apply Hd|]. exists a. split; [by apply list_elem_of_In|done].
  - intros [id|[]]; try (apply triple_raise || apply triple_ret; intros db [Hd ?]; destruct (HP db Hd); done).
    apply triple_stmt; [|intros msg db [Hd _]; destruct (HP db Hd); done]. intros db [Hd _].
    pose proof Hd as (Hwf & Hs & au & Hau & Hid & He).
    pose proof (insert_asset_shelves author db Hwf ltac:(by exists au)) as Hins.
    assert (db_wf (insert_asset (pi_Type inp) author (pi_Meta inp) now db).2) as Hwf' by (apply wf_insert_asset; eauto).
    revert Hins Hwf'. unfold insert_asset. destruct (existsb _ _); [intros _ _; by destruct (HP db Hd)|].
    intros Hins Hwf'. destruct (Hins eq_refl) as [HK Hsh]. split; [done|]. rewrite Hs in HK, Hsh.
    split; [by right|]. eexists _, au.
    split_and!; [apply elem_of_app; right; by left|done|done|done|]. unfold nat_key, put_key. simpl. congruence.
  - intros e db [Hd _]. by destruct (HP db Hd).
Qed.

(** Reading and updating after the version is in. *)
Definition version_in (id : Z) (db : DB) : Prop := db_wf db ∧ shelves db = (spec_put inp σ).2 ∧ names K id db.

Lemma refresh_shelves id : triple (version_in id) (refreshLatest id (pi_Meta inp) now) (λ _, version_in id).
Proof.
  assert (∀ f db, keeps_keys f → (∀ d a, shelf_of d (f a) = shelf_of d a) → version_in id db →
    version_in id (update_asset id f db)) as Hup.
  { intros f db Hf Hs (Hwf & Hsh & Hn). split; [by apply wf_update_asset|]. split; [|by apply names_update].
    by rewrite update_shelves. }
  unfold refreshLatest. eapply triple_bind with (R := λ _, version_in id); [by apply triple_stmt| |done].
  intros vs. case_if; (apply triple_stmt; [|done]); intros db Hv; by apply Hup.
Qed.

Definition pushed_shelves (db : DB) : Prop := before_version db ∨ shelves db = (spec_put inp σ).2.

Lemma put_version_shelves id :
  triple (λ db, db_wf db ∧ before_version db ∧ names K id db) (put_version inp now id) (λ _, pushed_shelves).
Proof.
  unfold put_version.
  apply triple_bind with (R := λ r db, match r with Ok (Ok _) => version_in id db | _ => pushed_shelves db end); [| |done].
  - eapply triple_catch with (R := λ r db, match r with Ok _ => version_in id db | _ => pushed_shelves db end); [|by intros [] db].
    apply triple_stmt; [|intros msg db (_ & Hb & _); by left]. intros db (Hwf & Hb & Hn).
    pose proof (insert_version_shelves id db Hwf Hb Hn) as Hi.
    assert (db_wf (insert_version id ver (pi_SHA256 inp) (pi_RecipeBody inp) now db).2) as Hwf'.
    { apply wf_insert_version; [done|]. destruct Hn as (a & _ & Ha & Haid & _). by exists a. }
    revert Hi Hwf'. unfold insert_version. destruct (existsb _ _); [by left|]. intros Hi Hwf'.
    split; [done|]. split; [by apply Hi|done].
  - intros [[]|e]; [|case_if; by apply triple_raise].
    eapply triple_bind; [apply refresh_shelves| |intros e db (_ & ? & _); by right].
    intros []. eapply triple_bind; [apply triple_read, GetAsset_keeps, _| |intros e db (_ & ? & _); by right].
    intros a. apply triple_ret. intros db (_ & ? & _). by right.
Qed.

Lemma PutAsset_shelves : triple (λ db, db_wf db ∧ shelves db = σ) (PutAsset inp now) (λ _, pushed_shelves).
Proof.
  unfold PutAsset. eapply triple_bind; [apply authorID_shelves| |intros e db (_ & ? & _); by left; left].
  intros author. apply triple_assoc. eapply triple_bind; [apply (put_find_shelves author)| |intros e db (_ & ? & _); by left].
  intros id. apply (put_version_shelves id).
Qed.
End push.

(** C29: Whatever statements fail, and whatever a method then answers: the shelves
    are as they were or as the machine's step makes them - no method leaves a
    shelf half changed -, except that a first push that fails half-way can
    leave an empty, private, free shelf under its own name. *)
Theorem failing_request_shelves (h : list (store_op * string * schedule)) (op : store_op) (now : string) (fs : schedule) :
  let db := run_store h empty_db in
  let db' := run_op db (op, now, fs) in
  left_or_done op db db' ∨
  ∃ inp, op = OpPut inp ∧ shelves db !! put_key inp = None ∧ shelves db' = <[put_key inp := no_shelf]> (shelves db).
Proof.
  intros db db'. assert (db_wf db) as Hwf by apply run_store_wf. assert (db_keys db) as Hk by done.
  destruct op; try (left; left; by apply shelves_none).
  - pose proof (PutAsset_shelves inp now (shelves db) db fs (conj Hwf eq_refl)) as Hp. unfold db'. cbn [run_op].
    destruct (PutAsset inp now db fs) as [[r d] f]. destruct Hp as [[Hp|[HK Hp]]|Hp]; [by left; left|right|by left; right].
    by exists inp.
  - left. by apply SetVisibility_outcome.
  - left. by apply SetPrice_outcome.
  - left. left. by apply SetMeta_outcome.
  - left. by apply DeleteAsset_outcome.
Qed.
End failures.
