(* ===== verification/RecipeParser.v ===== *)
(** * pkg/recipe/parser.go: the recipe language's parser

    The header directives (pragma, doc-string, requires), the byte-wise
    tokenizer with its three statement terminators, the control-flow check and
    the inlining of includes.  An [error] is a constructor of [recipe_err] that
    carries what the message shows.  The files a recipe may include are a
    finite map; absolute paths, directories and joins, which depend on the
    operating system and the working directory, are the class [PathOps]. *)

From S2P Require Import Prelude GoStrings GoStringsFacts Strconv Hardware.
From Stdlib Require Import ZArith Lia ZifyBool Bool Ascii String SpecFloat.
From stdpp Require Import base option list gmap sets strings.

Open Scope go_scope.
Open Scope Z_scope.

Class PathOps := {
  path_abs : string → string;
  path_dir : string → string;
  path_join : string → string → string;
  path_is_abs : string → bool
}.

(** ** Data *)

Inductive control := CNone | CIf | CElseIf | CElse | CEnd.
#[export] Instance control_eq_dec : EqDecision control.
Proof. solve_decision. Defined.

(** pkg/recipe/parser.go:47-54 [Statement]: the string field Control as an
    enumeration of its five values. *)
Record Statement := mkStmt {
  s_Line : Z; s_Argv : list string; s_Capture : string; s_Src : string;
  s_Control : control; s_Cond : list string
}.

(** pkg/recipe/parser.go:57-60 [Requires] *)
Record Requires := mkReqs { rq_VRAMGB : float64; rq_GPUPatterns : list string }.

(** pkg/recipe/parser.go:26-32 [Recipe] *)
Record Recipe := mkRecipe {
  rc_Path : string; rc_MinIsannVersion : string; rc_Meta : gmap string string;
  rc_Requires : option Requires; rc_Statements : list Statement
}.

Inductive recipe_err :=
  | EEmptyRecipe (path : string)
  | EFirstLine (path line : string)
  | EMalformedPragma (path line : string)
  | EPragmaVersion (path ver : string)
  | ERequiresItem (path : string) (line : Z) (raw : string)
  | EVram (path : string) (line : Z) (val : string)
  | ERequiresV2 (path : string) (line : Z) (key : string)
  | ERequiresKey (path : string) (line : Z) (key : string)
  | EHeader (path : string) (line : Z) (argv : list string)
  | ENeedsBegin (path : string) (line : Z) (word : string)
  | EEndTerminator (path : string) (line : Z) (argv : list string)
  | EUnterminatedQuote (path : string) (line : Z)
  | ENotTerminated (path : string) (line : Z)
  | EOutsideIf (path : string) (line : Z) (c : control)
  | EAfterElse (path : string) (line : Z) (c : control)
  | EEndWithoutIf (path : string) (line : Z)
  | EIfNotClosed (path : string) (line : Z)
  | EIncludeArgs (src : string) (line : Z)
  | EIncludeCycle (src : string) (line : Z) (abs : string)
  | EIncludeRead (src : string) (line : Z) (target : string)
  | EIncludeRequires (abs src : string) (line : Z)
  | EFuel.

Definition newline : ascii := ch 10.
Definition crlf : string := String (ch 13) (str1 newline).
Definition squote : ascii := "'".
Definition dquote : ascii := ch 34.

(** ** The header directives *)

(** pkg/recipe/parser.go:160-175 [looksLikeSemver] *)
Definition looksLikeSemver (s : string) : bool :=
  let parts := split_byte "." (trim_prefix s "v") in
  if (length parts <? 1)%nat || (4 <? length parts)%nat then false
  else forallb (λ p, negb (p =s? "") && match (atoi p).2 with None => true | Some _ => false end) parts.

(** pkg/recipe/parser.go:206-215 [splitVerNums]: [Atoi]'s value even on error. *)
Definition splitVerNums (s : string) : list Z :=
  map (λ p, (atoi p).1) (split_byte "." (trim_prefix s "v")).

(** pkg/recipe/parser.go:187-203 [CompareSemver part]: the comparison loop over the longer list, missing components zero. *)
Fixpoint compare_nums (fuel : nat) (aa bb : list Z) : Z :=
  match fuel with
  | O => 0
  | S fuel' =>
      let av := default 0 (head aa) in
      let bv := default 0 (head bb) in
      if av <? bv then -1 else if bv <? av then 1 else compare_nums fuel' (tail aa) (tail bb)
  end.

(** pkg/recipe/parser.go:180-204 [CompareSemver] *)
Definition CompareSemver (a b : string) : Z :=
  let aa := splitVerNums a in
  let bb := splitVerNums b in
  compare_nums (max (length aa) (length bb)) aa bb.

(** pkg/recipe/parser.go:132-154 [parsePragma] *)
Definition parsePragma (path : string) (lines : list string) : result recipe_err string :=
  match lines with
  | [] => Err (EEmptyRecipe path)
  | line0 :: _ =>
      let first := trim_space line0 in
      if (first =s? "") || negb (has_prefix first "#pragma") then Err (EFirstLine path line0)
      else
        let rest := trim_space (trim_prefix first "#pragma") in
        let rest := match index_str rest " #" with
                    | Some hash => trim_space (take_str hash rest)
                    | None => rest
                    end in
        match fields rest with
        | w :: ver :: _ =>
            if negb (w =s? "ISANN") then Err (EMalformedPragma path first)
            else if negb (looksLikeSemver ver) then Err (EPragmaVersion path ver)
            else Ok ver
        | _ => Err (EMalformedPragma path first)
        end
  end.

(** A letter, '_' or '-', or past the first byte a digit. *)
Definition ident_byte (dash : bool) (first : bool) (c : ascii) : bool :=
  (c =c? "_")%char || (dash && (c =c? "-")%char) || is_lower_ascii c || is_upper_ascii c
  || (negb first && is_digit c).

Definition ident_string (dash : bool) (s : string) : bool :=
  match s with
  | EmptyString => true
  | String c s' => ident_byte dash true c && sforall (ident_byte dash false) s'
  end.

(** pkg/recipe/parser.go:261-276 [isDocKey]: the runes admitted are ASCII, so
    the loop over runes is one over bytes. *)
Definition isDocKey (s : string) : bool :=
  if (s =s? "") || (32 <? String.length s)%nat then false else ident_string true s.

(** pkg/recipe/parser.go:662-677 [isVarName] *)
Definition isVarName (s : string) : bool :=
  if s =s? "" then false else ident_string false s.

(** pkg/recipe/parser.go:228-254 [parseDocString part] *)
Fixpoint doc_loop (lines : list string) (out : gmap string string) : gmap string string :=
  match lines with
  | [] => out
  | raw :: lines' =>
      let t := trim_space raw in
      if t =s? "" then doc_loop lines' out
      else if negb (has_prefix t "#") then out
      else if t =s? "# requires:" then out
      else
        let body := trim_space (trim_prefix t "#") in
        if body =s? "" then doc_loop lines' out
        else
          let '(key, val, ok) := cut_byte ":" body in
          if negb ok then doc_loop lines' out
          else
            let key := trim_space key in
            let val := trim_space val in
            if (key =s? "") || (val =s? "") || negb (isDocKey key) then doc_loop lines' out
            else doc_loop lines' (<[key := val]> out)
  end.

(** pkg/recipe/parser.go:226-255 [parseDocString] *)
Definition parseDocString (lines : list string) : gmap string string := doc_loop lines ∅.

(** pkg/recipe/parser.go:681-690 [parseAlternation] *)
Definition parseAlternation (s : string) : list string :=
  filter (λ p, p ≠ ""%string) (map trim_space (split_byte "|" s)).

Section parser.
Context {U : GoUnicode} {PF : ParseFloat}.

(** pkg/recipe/parser.go:642-655 [parseVRAM] *)
Definition parseVRAM (s : string) : option float64 :=
  let v := trim_space (trim_suffix (trim_space s) "+") in
  let low := trim_suffix (trim_suffix (to_lower v) "gb") "g" in
  parse_float (trim_space low).

(** pkg/recipe/parser.go:331-349 [parseRequires part]: the first loop of [parseRequires]: the index of the first directive and
    whether it is a requires header. *)
Fixpoint seek_directive (i : nat) (lines : list string) : nat * bool :=
  match lines with
  | [] => (i, false)
  | l :: lines' =>
      let t := trim_space l in
      if t =s? "" then seek_directive (S i) lines'
      else if (t =s? "requires:") || (t =s? "# requires:") then (i, true)
      else if has_prefix t "#" then seek_directive (S i) lines'
      else (i, false)
  end.

(** pkg/recipe/parser.go:354-385 [parseRequires part]: the second loop: the items until a blank line; [i] is the line index. *)
Fixpoint requires_items (path : string) (i : nat) (lines : list string) (req : Requires)
  : result recipe_err (nat * Requires) :=
  match lines with
  | [] => Ok (i, req)
  | raw :: lines' =>
      if trim_space raw =s? "" then Ok (S i, req)
      else
        let item := trim_space (trim_prefix (trim_space raw) "#") in
        let line := Z.of_nat i + 1 in
        if item =s? "" then requires_items path (S i) lines' req
        else
          let '(key, val, ok) := cut_byte ":" item in
          if negb ok then Err (ERequiresItem path line raw)
          else
            let key := trim_space key in
            let val := trim_space val in
            if key =s? "vram" then
              match parseVRAM val with
              | None => Err (EVram path line val)
              | Some gb => requires_items path (S i) lines' (mkReqs gb (rq_GPUPatterns req))
              end
            else if key =s? "gpu" then
              requires_items path (S i) lines' (mkReqs (rq_VRAMGB req) (parseAlternation val))
            else if (key =s? "os") || (key =s? "docker") || (key =s? "engines_installed")
                    || (key =s? "engines_running") then Err (ERequiresV2 path line key)
            else Err (ERequiresKey path line key)
  end.

(** pkg/recipe/parser.go:326-386 [parseRequires] *)
Definition parseRequires (path : string) (lines : list string)
  : result recipe_err (nat * option Requires) :=
  match seek_directive 0 lines with
  | (i, false) => Ok (i, None)
  | (i, true) =>
      let! (body, req) := requires_items path (S i) (drop (S i) lines) (mkReqs f_zero []) in
      Ok (body, Some req)
  end.
End parser.

(** ** The tokenizer *)

(** pkg/recipe/parser.go:390-396 [termKind part] *)
Inductive termKind := termSemi | termBegin | termEnd.

(** pkg/recipe/parser.go:562-586 [headerStatement] *)
Definition headerStatement (path : string) (line : Z) (argv : list string) : result recipe_err Statement :=
  match argv with
  | [] => Err (EHeader path line argv)
  | w :: rest =>
      if w =s? "IF" then
        match rest with
        | [] => Err (EHeader path line argv)
        | _ => Ok (mkStmt line [] "" path CIf rest)
        end
      else if w =s? "ELSE" then
        match rest with
        | [] => Ok (mkStmt line [] "" path CElse [])
        | w2 :: cond =>
            if w2 =s? "IF" then
              match cond with
              | [] => Err (EHeader path line argv)
              | _ => Ok (mkStmt line [] "" path CElseIf cond)
              end
            else Err (EHeader path line argv)
        end
      else Err (EHeader path line argv)
  end.

(** pkg/recipe/parser.go:546-558 [normalStatement] *)
Definition normalStatement (path : string) (line : Z) (argv : list string) : result recipe_err Statement :=
  match argv with
  | w :: _ =>
      if (w =s? "IF") || (w =s? "ELSE") then Err (ENeedsBegin path line w)
      else match argv with
           | name :: op :: (_ :: _) as cmd =>
               if (op =s? ":=") && isVarName name
               then Ok (mkStmt line (drop 2 argv) name path CNone [])
               else Ok (mkStmt line argv "" path CNone [])
           | _ => Ok (mkStmt line argv "" path CNone [])
           end
  | [] => Ok (mkStmt line argv "" path CNone [])
  end.

(** pkg/recipe/parser.go:404-413 [parseStatements part]: the variables of [parseStatements]. *)
Record tstate := mkT {
  t_out : list Statement; t_argv : list string; t_tok : string; t_in : bool; t_quoted : bool;
  t_quote : option ascii; t_line : Z; t_err : option recipe_err
}.
Definition t_init : tstate := mkT [] [] "" false false None 0 None.

Definition t_emit_result (r : result recipe_err Statement) (t : tstate) : tstate :=
  match r with
  | Err e => mkT (t_out t) [] (t_tok t) (t_in t) (t_quoted t) (t_quote t) (t_line t) (Some e)
  | Ok st => mkT (t_out t ++ [st]) [] (t_tok t) (t_in t) (t_quoted t) (t_quote t) (t_line t) (t_err t)
  end.

(** pkg/recipe/parser.go:416-445 [parseStatements part]: the closure emit *)
Definition emit (path : string) (term : termKind) (t : tstate) : tstate :=
  match t_err t with
  | Some _ => t
  | None =>
      match term with
      | termBegin => t_emit_result (headerStatement path (t_line t) (t_argv t)) t
      | termEnd =>
          if (0 <? length (t_argv t))%nat
          then t_emit_result (Err (EEndTerminator path (t_line t) (t_argv t))) t
          else t_emit_result (Ok (mkStmt (t_line t) [] "" path CEnd [])) t
      | termSemi =>
          if (0 <? length (t_argv t))%nat
          then t_emit_result (normalStatement path (t_line t) (t_argv t)) t
          else mkT (t_out t) [] (t_tok t) (t_in t) (t_quoted t) (t_quote t) (t_line t) (t_err t)
      end
  end.

(** pkg/recipe/parser.go:450-471 [parseStatements part]: the closure flushTok *)
Definition flushTok (path : string) (t : tstate) : tstate :=
  if negb (t_in t) then t
  else
    let tok := t_tok t in
    let t' := mkT (t_out t) (t_argv t) "" false false (t_quote t) (t_line t) (t_err t) in
    if negb (t_quoted t) && (tok =s? "BEGIN") then emit path termBegin t'
    else if negb (t_quoted t) && (tok =s? "END") then emit path termEnd t'
    else mkT (t_out t) (t_argv t ++ [tok]) "" false false (t_quote t) (t_line t) (t_err t).

(** pkg/recipe/parser.go:472-479 [parseStatements part]: the closure startTok *)
Definition startTok (lineNo : Z) (t : tstate) : tstate :=
  if t_in t then t
  else mkT (t_out t) (t_argv t) (t_tok t) true (t_quoted t) (t_quote t)
         (if (length (t_argv t) =? 0)%nat then lineNo else t_line t) (t_err t).

Definition write_byte (c : ascii) (t : tstate) : tstate :=
  mkT (t_out t) (t_argv t) (t_tok t ++s str1 c) (t_in t) (t_quoted t) (t_quote t) (t_line t) (t_err t).
Definition set_quote (q : option ascii) (t : tstate) : tstate :=
  mkT (t_out t) (t_argv t) (t_tok t) (t_in t) (t_quoted t) q (t_line t) (t_err t).
Definition open_quote (q : ascii) (t : tstate) : tstate :=
  mkT (t_out t) (t_argv t) (t_tok t) (t_in t) true (Some q) (t_line t) (t_err t).

(** pkg/recipe/parser.go:486-509 [parseStatements part]: one byte of a line outside a comment. *)
Definition scan_byte (path : string) (lineNo : Z) (c : ascii) (t : tstate) : tstate :=
  match t_quote t with
  | Some q => if (c =c? q)%char then set_quote None t else write_byte c t
  | None =>
      if (c =c? " ")%char || (c =c? ch 9)%char then flushTok path t
      else if (c =c? ";")%char then emit path termSemi (flushTok path t)
      else if (c =c? dquote)%char || (c =c? squote)%char then open_quote c (startTok lineNo t)
      else write_byte c (startTok lineNo t)
  end.

(** pkg/recipe/parser.go:484-513 [parseStatements part]: the inner loop over the bytes of one line: a '#' outside quotes skips the
    rest, an error stops. *)
Fixpoint scan_line (path : string) (lineNo : Z) (line : string) (t : tstate) : tstate :=
  match line with
  | EmptyString => t
  | String c rest =>
      if match t_quote t with None => (c =c? "#")%char | Some _ => false end then t
      else
        let t' := scan_byte path lineNo c t in
        match t_err t' with
        | Some _ => t'
        | None => scan_line path lineNo rest t'
        end
  end.

(** pkg/recipe/parser.go:518-522 [parseStatements part]: the end of a line: a newline inside a quote, a separator outside. *)
Definition end_line (path : string) (t : tstate) : tstate :=
  match t_quote t with
  | Some _ => write_byte newline t
  | None => flushTok path t
  end.

(** pkg/recipe/parser.go:481-526 [parseStatements part]: the outer loop over the lines; it stops at an error. *)
Fixpoint scan_lines (path : string) (lineNo : Z) (lines : list string) (t : tstate) : tstate :=
  match lines with
  | [] => t
  | line :: lines' =>
      let t1 := scan_line path lineNo line t in
      match t_err t1 with
      | Some _ => t1
      | None =>
          let t2 := end_line path t1 in
          match t_err t2 with
          | Some _ => t2
          | None => scan_lines path (lineNo + 1) lines' t2
          end
      end
  end.

(** pkg/recipe/parser.go:607-637 [validateControlFlow part]: the loop of [validateControlFlow]; a frame is (line, sawElse), the stack's
    top first. *)
Fixpoint control_loop (path : string) (stmts : list Statement) (stack : list (Z * bool))
  : option recipe_err :=
  match stmts with
  | [] => match stack with
          | (line, _) :: _ => Some (EIfNotClosed path line)
          | [] => None
          end
  | st :: stmts' =>
      match s_Control st with
      | CNone => control_loop path stmts' stack
      | CIf => control_loop path stmts' ((s_Line st, false) :: stack)
      | CElseIf | CElse =>
          match stack with
          | [] => Some (EOutsideIf path (s_Line st) (s_Control st))
          | (line, sawElse) :: stack' =>
              if sawElse then Some (EAfterElse path (s_Line st) (s_Control st))
              else control_loop path stmts'
                     ((line, bool_decide (s_Control st = CElse)) :: stack')
          end
      | CEnd =>
          match stack with
          | [] => Some (EEndWithoutIf path (s_Line st))
          | _ :: stack' => control_loop path stmts' stack'
          end
      end
  end.

(** pkg/recipe/parser.go:606-638 [validateControlFlow] *)
Definition validateControlFlow (path : string) (stmts : list Statement) : option recipe_err :=
  control_loop path stmts [].

(** pkg/recipe/parser.go:403-541 [parseStatements] *)
Definition parseStatements (path : string) (lines : list string) (start : nat)
  : result recipe_err (list Statement) :=
  let t := scan_lines path (Z.of_nat start + 1) (drop start lines) t_init in
  match t_err t with
  | Some e => Err e
  | None =>
      match t_quote t with
      | Some _ => Err (EUnterminatedQuote path (t_line t))
      | None =>
          let t := flushTok path t in
          match t_err t with
          | Some e => Err e
          | None =>
              if (0 <? length (t_argv t))%nat then Err (ENotTerminated path (t_line t))
              else match validateControlFlow path (t_out t) with
                   | Some e => Err e
                   | None => Ok (t_out t)
                   end
          end
      end
  end.

Section parse.
Context {U : GoUnicode} {PF : ParseFloat} {PO : PathOps}.

(** pkg/recipe/parser.go:97-121 [parseFile] *)
Definition parseFile (path : string) (src : string) : result recipe_err Recipe :=
  let lines := split_byte newline (replace_all src crlf (str1 newline)) in
  let! minVer := parsePragma path lines in
  let meta := parseDocString lines in
  let! (bodyStart, req) := parseRequires path lines in
  let! stmts := parseStatements path lines bodyStart in
  Ok (mkRecipe path minVer meta req stmts).

(** pkg/recipe/parser.go:283-321 [resolveIncludes]: [fs] are the readable
    files.  The chain map is restored by the [delete] before the next
    statement, so it is passed by value; [fuel] bounds the include depth. *)
Fixpoint resolveIncludes (fuel : nat) (fs : gmap string string) (stmts : list Statement)
  (baseDir : string) (chain : gset string) : result recipe_err (list Statement) :=
  match fuel with
  | O => Err EFuel
  | S fuel' =>
      (fix go (stmts : list Statement) : result recipe_err (list Statement) :=
         match stmts with
         | [] => Ok []
         | st :: rest =>
             if negb (default "" (head (s_Argv st)) =s? "include") then
               let! out := go rest in Ok (st :: out)
             else
               match s_Argv st with
               | [_; arg] =>
                   let target := if negb (path_is_abs arg) then path_join baseDir arg else arg in
                   let abs := path_abs target in
                   if bool_decide (abs ∈ chain) then Err (EIncludeCycle (s_Src st) (s_Line st) abs)
                   else
                     match fs !! abs with
                     | None => Err (EIncludeRead (s_Src st) (s_Line st) arg)
                     | Some data =>
                         let! inc := parseFile abs data in
                         match rc_Requires inc with
                         | Some _ => Err (EIncludeRequires abs (s_Src st) (s_Line st))
                         | None =>
                             let! sub := resolveIncludes fuel' fs (rc_Statements inc) (path_dir abs)
                                           ({[abs]} ∪ chain) in
                             let! out := go rest in Ok (sub ++ out)
                         end
                     end
               | _ => Err (EIncludeArgs (s_Src st) (s_Line st))
               end
         end) stmts
  end.

(** pkg/recipe/parser.go:72-86 [Parse] *)
Definition Parse (fs : gmap string string) (path : string) (src : string) : result recipe_err Recipe :=
  let! rc := parseFile path src in
  let abs := path_abs path in
  let! stmts := resolveIncludes (S (size fs)) fs (rc_Statements rc) (path_dir abs) {[abs]} in
  Ok (mkRecipe (rc_Path rc) (rc_MinIsannVersion rc) (rc_Meta rc) (rc_Requires rc) stmts).
End parse.
