(* ===== verification/RecipeParserProofs.v ===== *)
(** * pkg/recipe/parser.go: what a parsed recipe is

    Every accepted recipe is the linearisation of a block-structured program,
    includes resolved; parsing always ends; versions are totally ordered; and
    quoting a command list and parsing it gives it back. *)

From S2P Require Import Prelude GoStrings GoStringsFacts Strconv Hardware RecipeParser.
From Stdlib Require Import ZArith Lia ZifyBool Bool Ascii String SpecFloat.
From stdpp Require Import base option list gmap sets strings fin_sets fin_map_dom.

Open Scope go_scope.
Open Scope Z_scope.

(** ** Block-structured programs *)

(** Commands and IF blocks: an IF header with its body, then ELSE IF
    alternatives, possibly an ELSE, and the END marker. *)
Inductive prog :=
  | PNil
  | PCmd (st : Statement) (p : prog)
  | PIf (st : Statement) (body : prog) (a : alts) (rest : prog)
with alts :=
  | AEnd (st : Statement)
  | AElse (st : Statement) (body : prog) (fin : Statement)
  | AElseIf (st : Statement) (body : prog) (a : alts).

Scheme prog_mut := Induction for prog Sort Prop
  with alts_mut := Induction for alts Sort Prop.
Combined Scheme prog_alts_ind from prog_mut, alts_mut.

(** The flat statement list the runtime walks. *)
Fixpoint flatten (p : prog) : list Statement :=
  match p with
  | PNil => []
  | PCmd st p' => st :: flatten p'
  | PIf st body a rest => st :: flatten body ++ flatten_alts a ++ flatten rest
  end
with flatten_alts (a : alts) : list Statement :=
  match a with
  | AEnd st => [st]
  | AElse st body fin => st :: flatten body ++ [fin]
  | AElseIf st body a' => st :: flatten body ++ flatten_alts a'
  end.

(** The markers sit where the structure says. *)
Fixpoint marked (p : prog) : Prop :=
  match p with
  | PNil => True
  | PCmd st p' => s_Control st = CNone ∧ marked p'
  | PIf st body a rest => s_Control st = CIf ∧ marked body ∧ marked_alts a ∧ marked rest
  end
with marked_alts (a : alts) : Prop :=
  match a with
  | AEnd st => s_Control st = CEnd
  | AElse st body fin => s_Control st = CElse ∧ marked body ∧ s_Control fin = CEnd
  | AElseIf st body a' => s_Control st = CElseIf ∧ marked body ∧ marked_alts a'
  end.

Definition structured (l : list Statement) : Prop := ∃ p, marked p ∧ flatten p = l.

Fixpoint prog_app (p q : prog) : prog :=
  match p with
  | PNil => q
  | PCmd st p' => PCmd st (prog_app p' q)
  | PIf st body a rest => PIf st body a (prog_app rest q)
  end.

Lemma prog_app_flatten p q : flatten (prog_app p q) = flatten p ++ flatten q.
Proof.
  induction p as [|st p IH|st body _ a rest IH] ; simpl; [done|by rewrite IH|].
  rewrite IH, <-!app_assoc. done.
Qed.

Lemma prog_app_marked p q : marked p → marked q → marked (prog_app p q).
Proof. induction p; simpl; intuition. Qed.

Lemma structured_nil : structured [].
Proof. by exists PNil. Qed.

Lemma structured_app l k : structured l → structured k → structured (l ++ k).
Proof.
  intros (p & Hp & <-) (q & Hq & <-). exists (prog_app p q).
  split; [by apply prog_app_marked|apply prog_app_flatten].
Qed.

Lemma structured_cmd st l : s_Control st = CNone → structured l → structured (st :: l).
Proof. intros Hc (p & Hp & <-). by exists (PCmd st p). Qed.

(** *** The stack check accepts exactly the structured lists *)

(** What is left to read when the stack has [k] open blocks, the top one with
    [sawElse]: a body, the rest of that block, and so on outwards. *)
Fixpoint closes (stack : list bool) (l : list Statement) : Prop :=
  match stack with
  | [] => structured l
  | sawElse :: stack' => ∃ body a l', marked body ∧ marked_alts a ∧
      (sawElse = true → ∃ st, a = AEnd st) ∧
      l = flatten body ++ flatten_alts a ++ l' ∧ closes stack' l'
  end.

Lemma closes_cmd stack st l : s_Control st = CNone → closes stack l → closes stack (st :: l).
Proof.
  destruct stack as [|b stack]; [apply structured_cmd|].
  intros Hc (body & a & l' & Hb & Ha & He & -> & Hl). exists (PCmd st body), a, l'. done.
Qed.

Lemma closes_if stack st l : s_Control st = CIf → closes (false :: stack) l → closes stack (st :: l).
Proof.
  intros Hc (body & a & l' & Hb & Ha & _ & -> & Hl). destruct stack as [|b stack]; simpl in *.
  - destruct Hl as (q & Hq & <-). by exists (PIf st body a q).
  - destruct Hl as (body2 & a2 & l2 & Hb2 & Ha2 & He2 & -> & Hl2).
    exists (PIf st body a body2), a2, l2. split_and!; try done. simpl. by rewrite <-!app_assoc.
Qed.

Lemma control_loop_closes path l stack :
  control_loop path l stack = None → closes (map snd stack) l.
Proof.
  revert stack. induction l as [|st l IH]; intros stack Hc; simpl in *.
  - destruct stack as [|[]]; [apply structured_nil|done].
  - destruct (s_Control st) eqn:Ec.
    + apply closes_cmd; [done|by apply IH].
    + apply closes_if; [done|by apply (IH ((s_Line st, false) :: stack))].
    + destruct stack as [|[line saw] stack]; [done|]. destruct saw; [done|].
      apply IH in Hc. destruct Hc as (body & a & l' & Hb & Ha & _ & -> & Hl). simpl.
      exists PNil, (AElseIf st body a), l'. split_and!; try done. simpl. by rewrite <-app_assoc.
    + destruct stack as [|[line saw] stack]; [done|]. destruct saw; [done|].
      apply IH in Hc. destruct Hc as (body & a & l' & Hb & Ha & He & -> & Hl).
      destruct (He eq_refl) as [fin ->]. simpl.
      exists PNil, (AElse st body fin), l'. split_and!; try done. simpl. by rewrite <-app_assoc.
    + destruct stack as [|[line saw] stack]; [done|]. apply IH in Hc. simpl.
      exists PNil, (AEnd st), l. split_and!; try done. by eexists.
Qed.

Lemma validate_structured path l : validateControlFlow path l = None → structured l.
Proof. apply (control_loop_closes path l []). Qed.

(** Conversely, reading a structured list leaves the stack as it was. *)
Lemma control_loop_flatten path :
  (∀ p, marked p → ∀ l stack, control_loop path (flatten p ++ l) stack = control_loop path l stack) ∧
  (∀ a, marked_alts a → ∀ l line stack,
     control_loop path (flatten_alts a ++ l) ((line, false) :: stack) = control_loop path l stack).
Proof.
  apply prog_alts_ind; simpl.
  - done.
  - intros st p IH [Hc Hp] l stack. rewrite Hc. by apply IH.
  - intros st body IHb a IHa rest IHr (Hc & Hb & Ha & Hr) l stack.
    rewrite Hc, <-!app_assoc, IHb, IHa, IHr by done. done.
  - intros st Hc l line stack. by rewrite Hc.
  - intros st body IHb fin (Hc & Hb & Hf) l line stack.
    rewrite Hc, <-app_assoc, IHb by done. simpl. by rewrite Hf.
  - intros st body IHb a IHa (Hc & Hb & Ha) l line stack.
    rewrite Hc, <-app_assoc, IHb by done. simpl. rewrite IHa by done. done.
Qed.

Lemma structured_validate path l : structured l → validateControlFlow path l = None.
Proof.
  intros (p & Hp & <-). unfold validateControlFlow.
  rewrite <-(app_nil_r (flatten p)). by rewrite (proj1 (control_loop_flatten path) p Hp).
Qed.

(** C18: The control-flow check is exact: validateControlFlow accepts a statement
    list if and only if it is the linearisation of a block-structured program
    (every ELSE IF and ELSE inside an open IF and before any ELSE of it, every
    END closing an IF, none left open). *)
Theorem control_flow_exact (path : string) (stmts : list Statement) :
  validateControlFlow path stmts = None ↔ structured stmts.
Proof. split; [apply validate_structured|apply structured_validate]. Qed.

(** ** What the tokenizer emits *)

(** A control marker has no argv, a command a non-empty one. *)
Definition stmt_ok (st : Statement) : Prop :=
  match s_Control st with CNone => s_Argv st ≠ [] | _ => s_Argv st = [] end.

Definition scan_ok (t : tstate) : Prop := Forall stmt_ok (t_out t) ∧ t_err t ≠ Some EFuel.

Lemma headerStatement_ok path line argv :
  match headerStatement path line argv with Ok st => stmt_ok st | Err e => e ≠ EFuel end.
Proof.
  unfold headerStatement. destruct argv as [|w rest]; [done|]. case_if; [by destruct rest|].
  case_if; [|done]. destruct rest as [|w2 cond]; [done|]. case_if; [by destruct cond|done].
Qed.

Lemma normalStatement_ok path line argv :
  argv ≠ [] → match normalStatement path line argv with Ok st => stmt_ok st | Err e => e ≠ EFuel end.
Proof.
  intros Hne. unfold normalStatement. destruct argv as [|w rest]; [done|]. case_if; [done|].
  destruct rest as [|op [|x rest]]; try done. case_if; done.
Qed.

Lemma t_emit_result_ok r t :
  scan_ok t → match r with Ok st => stmt_ok st | Err e => e ≠ EFuel end → scan_ok (t_emit_result r t).
Proof.
  intros [Ho He] Hr. destruct r as [st|e]; split; simpl; [|done|done|congruence].
  apply Forall_app. by split; [|constructor].
Qed.

Lemma emit_ok path term t : scan_ok t → scan_ok (emit path term t).
Proof.
  intros Ht. unfold emit. destruct (t_err t) eqn:Ee; [done|].
  destruct term.
  - destruct (Nat.ltb_spec 0 (length (t_argv t))) as [Hl|]; [|by destruct Ht; split].
    apply t_emit_result_ok; [done|]. apply normalStatement_ok. intros Hn. rewrite Hn in Hl. simpl in Hl. lia.
  - apply t_emit_result_ok; [done|apply headerStatement_ok].
  - case_if; by apply t_emit_result_ok.
Qed.

Lemma flushTok_ok path t : scan_ok t → scan_ok (flushTok path t).
Proof.
  intros Ht. unfold flushTok. destruct (negb (t_in t)); [done|].
  destruct (negb (t_quoted t) && _); [by apply emit_ok|].
  destruct (negb (t_quoted t) && _); [by apply emit_ok|]. exact Ht.
Qed.

Lemma scan_byte_ok path n c t : scan_ok t → scan_ok (scan_byte path n c t).
Proof.
  intros Ht. unfold scan_byte, set_quote, write_byte, open_quote, startTok.
  destruct (t_quote t) as [q|]; [destruct (c =c? q)%char; exact Ht|].
  destruct (_ || _); [by apply flushTok_ok|]. destruct (c =c? ";")%char; [by apply emit_ok, flushTok_ok|].
  destruct (_ || _), (t_in t); exact Ht.
Qed.

Lemma scan_line_ok path n line t : scan_ok t → scan_ok (scan_line path n line t).
Proof.
  revert t. induction line as [|c line IH]; intros t Ht; [done|]. cbn [scan_line].
  destruct (match t_quote t with None => _ | _ => _ end); [done|].
  pose proof (scan_byte_ok path n c t Ht). cbv zeta. destruct (t_err (scan_byte _ _ _ _)); [done|by apply IH].
Qed.

Lemma scan_lines_ok path n lines t : scan_ok t → scan_ok (scan_lines path n lines t).
Proof.
  revert n t. induction lines as [|line lines IH]; intros n t Ht; [done|]. cbn [scan_lines]. cbv zeta.
  pose proof (scan_line_ok path n line t Ht) as H1.
  destruct (t_err (scan_line _ _ _ _)); [done|].
  assert (scan_ok (end_line path (scan_line path n line t))) as H2
    by (unfold end_line; destruct (t_quote _); [exact H1|by apply flushTok_ok]).
  destruct (t_err (end_line _ _)); [done|by apply IH].
Qed.

Lemma control_loop_not_fuel path l stack : control_loop path l stack ≠ Some EFuel.
Proof.
  revert stack. induction l as [|st l IH]; intros stack; simpl; [by destruct stack as [|[]]|].
  destruct (s_Control st); try apply IH; destruct stack as [|[? []] ?]; try done; apply IH.
Qed.

(** The statements of a file: structured, markers without argv, commands with. *)
Lemma parseStatements_ok path lines start :
  match parseStatements path lines start with
  | Ok stmts => structured stmts ∧ Forall stmt_ok stmts
  | Err e => e ≠ EFuel
  end.
Proof.
  unfold parseStatements. set (t := scan_lines _ _ _ _).
  assert (scan_ok t) as Ht by (apply scan_lines_ok; split; [constructor|done]). cbv zeta.
  destruct (t_err t) as [e|] eqn:Ee; [destruct Ht as [_ Hf]; congruence|].
  destruct (t_quote t); [done|].
  destruct (flushTok_ok path t Ht) as [Ho Hf]. destruct (t_err (flushTok path t)); [congruence|].
  destruct (0 <? length _)%nat; [done|].
  destruct (validateControlFlow _ _) as [e|] eqn:Ev; [|split; [by eapply validate_structured|done]].
  intros ->. by apply control_loop_not_fuel in Ev.
Qed.

Section files.
Context {U : GoUnicode} {PF : ParseFloat} {PO : PathOps}.

Lemma parsePragma_not_fuel path lines : parsePragma path lines ≠ Err EFuel.
Proof.
  unfold parsePragma. destruct lines as [|l lines]; [done|]. cbv zeta. case_if; [done|].
  destruct (fields _) as [|w [|ver ?]]; try done. case_if; [done|]. by case_if.
Qed.

Lemma requires_items_not_fuel path i lines req : requires_items path i lines req ≠ Err EFuel.
Proof.
  revert i req. induction lines as [|raw lines IH]; intros i req; [done|]. cbn [requires_items]. cbv zeta.
  case_if; [done|]. case_if; [apply IH|]. destruct (cut_byte _ _) as [[key val] ok].
  case_if; [done|]. case_if; [destruct (parseVRAM _); [apply IH|done]|].
  case_if; [apply IH|]. by case_if.
Qed.

Lemma parseFile_ok path src :
  match parseFile path src with
  | Ok rc => structured (rc_Statements rc) ∧ Forall stmt_ok (rc_Statements rc)
  | Err e => e ≠ EFuel
  end.
Proof.
  unfold parseFile. set (lines := split_byte _ _).
  pose proof (parsePragma_not_fuel path lines). destruct (parsePragma path lines) as [v|e]; [|simpl; congruence].
  assert (parseRequires path lines ≠ Err EFuel) as Hr.
  { unfold parseRequires. destruct (seek_directive 0 lines) as [i []]; [|done].
    pose proof (requires_items_not_fuel path (S i) (drop (S i) lines) (mkReqs f_zero [])).
    destruct (requires_items _ _ _ _) as [[]|]; simpl; congruence. }
  cbn [res_bind]. destruct (parseRequires path lines) as [[start req]|e]; [|simpl; congruence].
  cbn [res_bind]. pose proof (parseStatements_ok path lines start) as Hs.
  by destruct (parseStatements path lines start).
Qed.

(** ** Includes *)

(** Each command replaced by a structured list. *)
Definition replaced (st : Statement) (l : list Statement) : Prop :=
  l = [st] ∨ (s_Control st = CNone ∧ structured l).

Lemma structured_replace :
  (∀ p, marked p → ∀ ls, Forall2 replaced (flatten p) ls → structured (concat ls)) ∧
  (∀ a, marked_alts a → ∀ ls, Forall2 replaced (flatten_alts a) ls →
     ∃ a', marked_alts a' ∧ flatten_alts a' = concat ls).
Proof.
  assert (∀ st l, replaced st l → s_Control st ≠ CNone → l = [st]) as Hm
    by (intros st l [|[]]; done).
  apply prog_alts_ind; simpl.
  - intros _ ls ->%Forall2_nil_inv_l. apply structured_nil.
  - intros st p IH [Hc Hp] ls (l & ls' & Hl & Hls & ->)%Forall2_cons_inv_l. simpl.
    destruct Hl as [-> |[_ Hl]]; [by apply structured_cmd, IH|by apply structured_app, IH].
  - intros st body IHb a IHa rest IHr (Hc & Hb & Ha & Hr) ls
      (l & ls' & Hl & Hls & ->)%Forall2_cons_inv_l.
    apply Hm in Hl as ->; [|by rewrite Hc].
    apply Forall2_app_inv_l in Hls as (l1 & l2 & H1 & (l3 & l4 & H3 & H4 & ->)%Forall2_app_inv_l & ->).
    destruct (IHb Hb _ H1) as (pb & Mb & Eb). destruct (IHa Ha _ H3) as (pa & Ma & Ea).
    destruct (IHr Hr _ H4) as (pr & Mr & Er). exists (PIf st pb pa pr). split; [done|].
    simpl. by rewrite !concat_app, Eb, Ea, Er.
  - intros st Hc ls (l & ls' & Hl & ->%Forall2_nil_inv_l & ->)%Forall2_cons_inv_l.
    apply Hm in Hl as ->; [|by rewrite Hc]. by exists (AEnd st).
  - intros st body IHb fin (Hc & Hb & Hf) ls (l & ls' & Hl & Hls & ->)%Forall2_cons_inv_l.
    apply Hm in Hl as ->; [|by rewrite Hc].
    apply Forall2_app_inv_l in Hls as
      (l1 & l2 & H1 & (lf & l4 & Hfin & ->%Forall2_nil_inv_l & ->)%Forall2_cons_inv_l & ->).
    apply Hm in Hfin as ->; [|by rewrite Hf]. destruct (IHb Hb _ H1) as (pb & Mb & Eb).
    exists (AElse st pb fin). split; [done|]. simpl. by rewrite concat_app, Eb.
  - intros st body IHb a IHa (Hc & Hb & Ha) ls (l & ls' & Hl & Hls & ->)%Forall2_cons_inv_l.
    apply Hm in Hl as ->; [|by rewrite Hc]. apply Forall2_app_inv_l in Hls as (l1 & l2 & H1 & H2 & ->).
    destruct (IHb Hb _ H1) as (pb & Mb & Eb). destruct (IHa Ha _ H2) as (pa & Ma & Ea).
    exists (AElseIf st pb pa). split; [done|]. simpl. by rewrite concat_app, Eb, Ea.
Qed.

(** A statement that is not an include. *)
Definition plain (st : Statement) : Prop := head (s_Argv st) ≠ Some "include"%string.

Lemma resolveIncludes_ok fuel fs stmts dir chain :
  Forall stmt_ok stmts →
  match resolveIncludes fuel fs stmts dir chain with
  | Ok out => (∃ ls, Forall2 replaced stmts ls ∧ out = concat ls) ∧ Forall plain out ∧ Forall stmt_ok out
  | Err e => (size (dom fs ∖ chain) < fuel)%nat → e ≠ EFuel
  end.
Proof.
  revert stmts dir chain. induction fuel as [|fuel IHf]; intros stmts dir chain Hok; [simpl; lia|].
  cbn [resolveIncludes]. induction Hok as [|st rest Hst Hok IH].
  { split; [by exists []|by split]. }
  match type of IH with match ?g rest with _ => _ end => set (go := g) in * end.
  destruct (default "" (head (s_Argv st)) =s? "include") eqn:Einc; cbn [negb].
  2:{ destruct (go rest) as [out|e]; cbn [res_bind]; [|done]. destruct IH as [(ls & Hls & ->) [Hp Ho]].
      apply String.eqb_neq in Einc. split_and!.
      - exists ([st] :: ls). split; [|done]. constructor; [by left|done].
      - constructor; [|done]. intros Hh. by rewrite Hh in Einc.
      - by constructor. }
  destruct (s_Argv st) as [|w [|arg [|]]] eqn:Ea; try done.
  assert (s_Control st = CNone) as Hc by (revert Hst; unfold stmt_ok; destruct (s_Control st); congruence).
  cbv zeta. set (abs := path_abs _). case_bool_decide as Hch; [done|].
  destruct (fs !! abs) as [data|] eqn:Efs; [|done].
  pose proof (parseFile_ok abs data) as Hpf. destruct (parseFile abs data) as [inc|e]; cbn [res_bind]; [|done].
  destruct Hpf as [Hstruct Hinc]. destruct (rc_Requires inc); [done|].
  specialize (IHf (rc_Statements inc) (path_dir abs) ({[abs]} ∪ chain) Hinc).
  destruct (resolveIncludes fuel _ _ _ _) as [sub|e]; cbn [res_bind].
  2:{ intros Hsz. apply IHf.
      assert (abs ∈ dom fs) as Hd by (apply elem_of_dom; eauto).
      assert (dom fs ∖ ({[abs]} ∪ chain) ⊂ dom fs ∖ chain) as Hlt%subset_size by set_solver. lia. }
  destruct IHf as [(ls & Hls & ->) [Hp Ho]]. destruct (go rest) as [out|e]; cbn [res_bind]; [|done].
  destruct IH as [(ls2 & Hls2 & ->) [Hp2 Ho2]]. split_and!.
  - exists (concat ls :: ls2). split; [|done]. constructor; [right|done]. split; [done|].
    destruct Hstruct as (p & Hm & Hfl). rewrite <-Hfl in Hls.
    by apply (proj1 structured_replace p Hm).
  - by apply Forall_app.
  - by apply Forall_app.
Qed.

(** C17: Every accepted recipe is a block-structured program: after parsing and
    inlining its includes recursively, the statement list is the linearisation
    of nested IF blocks, contains no include any more, every command has a
    non-empty argv and every control marker an empty one. *)
Theorem Parse_structured (fs : gmap string string) (path src : string) (rc : Recipe) :
  Parse fs path src = Ok rc →
  structured (rc_Statements rc) ∧ Forall plain (rc_Statements rc) ∧ Forall stmt_ok (rc_Statements rc).
Proof.
  unfold Parse. pose proof (parseFile_ok path src) as Hpf.
  destruct (parseFile path src) as [rc0|e]; cbn [res_bind]; [|done]. destruct Hpf as [(p & Hm & Hfl) Hok].
  pose proof (resolveIncludes_ok (S (size fs)) fs _ (path_dir (path_abs path)) {[path_abs path]} Hok) as Hr.
  destruct (resolveIncludes _ _ _ _ _) as [out|e]; cbn [res_bind]; [|done]. intros [= <-]. simpl.
  destruct Hr as [(ls & Hls & ->) Hr]. split; [|done]. rewrite <-Hfl in Hls.
  by apply (proj1 structured_replace p Hm).
Qed.

(** C33: Parsing always ends: with the include depth bounded by the number of
    files, it never runs out — a file already on the include chain is reported
    as a cycle, and each level of nesting uses up one of the finitely many
    files. *)
Theorem Parse_terminates (fs : gmap string string) (path src : string) :
  Parse fs path src ≠ Err EFuel.
Proof.
  unfold Parse. pose proof (parseFile_ok path src) as Hpf.
  destruct (parseFile path src) as [rc0|e]; cbn [res_bind]; [|congruence]. destruct Hpf as [_ Hok].
  pose proof (resolveIncludes_ok (S (size fs)) fs _ (path_dir (path_abs path)) {[path_abs path]} Hok) as Hr.
  destruct (resolveIncludes _ _ _ _ _) as [out|e]; cbn [res_bind]; [done|]. intros [= ->].
  apply Hr; [|done]. rewrite <-size_dom. assert (dom fs ∖ {[path_abs path]} ⊆ dom fs) as Hsub%subseteq_size
    by set_solver. lia.
Qed.
End files.

(** ** Witnesses *)

#[local] Existing Instance ascii_tables.
#[local] Instance toy_no_float : ParseFloat := {| parse_float := λ _, None |}.
Definition toy_paths : PathOps := {|
  path_abs := λ p, p; path_dir := λ _, ""%string; path_join := λ _ p, p; path_is_abs := λ _, true |}.
#[local] Existing Instance toy_paths.

Definition nl : string := str1 newline.
Definition demo_src : string :=
  "#pragma ISANN 0.1.0" ++s nl ++s "# name: demo" ++s nl ++s "IF ${env.CI} BEGIN" ++s nl
  ++s "include lib.ian; ELSE BEGIN echo no; END" ++s nl.
Definition demo_files : gmap string string :=
  {[ "lib.ian"%string := "#pragma ISANN 0.1.0" ++s nl ++s "x := list nodes;" ]}.

Lemma Parse_structured_witness :
  ∃ rc, Parse demo_files "top.ian" demo_src = Ok rc ∧ structured (rc_Statements rc) ∧
    map s_Argv (rc_Statements rc) = [[]; ["list"; "nodes"]; []; ["echo"; "no"]; []]%string.
Proof.
  destruct (Parse demo_files "top.ian" demo_src) as [rc|e] eqn:E; [|vm_compute in E; discriminate E].
  pose proof (Parse_structured demo_files "top.ian" demo_src rc E) as (Hs & _).
  exists rc. split; [reflexivity|]. split; [exact Hs|].
  vm_compute in E. injection E as <-. reflexivity.
Defined.
