(* ===== verification/RecipeText.v ===== *)
(** * pkg/recipe/parser.go: text-level properties

    Quoting a command list and parsing it gives it back; versions are compared
    by a total order that ignores trailing zero components. *)

From S2P Require Import Prelude GoStrings GoStringsFacts Strconv Hardware RecipeParser.
From S2P Require Import RecipeParserProofs.
From Stdlib Require Import ZArith Lia ZifyBool Bool Ascii String SpecFloat.
From stdpp Require Import base option list gmap sets strings.

Open Scope go_scope.
Open Scope Z_scope.

(** ** Quoting *)

(** A token in double quotes; a command as its quoted tokens and a semicolon. *)
Definition quote_tok (t : string) : string := String dquote (t ++s str1 dquote).
Definition render_cmd (argv : list string) : string := join_str " " (map quote_tok argv) ++s ";".

(** No double quote inside, nor a newline that would end the source line. *)
Definition clean (t : string) : Prop := contains_byte dquote t = false.

(** Not a block header, not the capture form. *)
Definition plain_cmd (argv : list string) : Prop :=
  argv ≠ [] ∧ argv !! 0%nat ≠ Some "IF"%string ∧ argv !! 0%nat ≠ Some "ELSE"%string ∧
  argv !! 1%nat ≠ Some ":="%string.

(** Between tokens. *)
Definition idle (out : list Statement) (argv : list string) (line : Z) : tstate :=
  mkT out argv "" false false None line None.
(** A complete quoted token, not flushed yet. *)
Definition pending (out : list Statement) (argv : list string) (tok : string) (line : Z) : tstate :=
  mkT out argv tok true true None line None.

Lemma scan_line_cons path n c rest t t' :
  (t_quote t = None → (c =c? "#")%char = false) → scan_byte path n c t = t' → t_err t' = None →
  scan_line path n (String c rest) t = scan_line path n rest t'.
Proof.
  intros Hc <- He. cbn [scan_line]. destruct (t_quote t) eqn:Eq; [|rewrite Hc by done]; cbv zeta; by rewrite He.
Qed.

(** Inside a quote every byte up to the closing one joins the token. *)
Lemma scan_body path n body rest out argv tok line :
  clean body →
  scan_line path n (body ++s String dquote rest) (mkT out argv tok true true (Some dquote) line None) =
  scan_line path n rest (pending out argv (tok ++s body) line).
Proof.
  unfold clean. revert tok. induction body as [|c body IH]; intros tok Hc.
  - cbn [String.append]. erewrite scan_line_cons; [|done|reflexivity|done].
    unfold scan_byte, set_quote. cbn. by rewrite sapp_nil_r.
  - cbn [contains_byte] in Hc. apply orb_false_iff in Hc as [Hd Hc]. cbn [String.append].
    assert ((c =c? dquote)%char = false) as Hcd by (rewrite Ascii.eqb_sym; exact Hd).
    erewrite scan_line_cons; [|done|reflexivity|by unfold scan_byte; cbn [t_quote]; rewrite Hcd].
    unfold scan_byte. cbn [t_quote]. rewrite Hcd. unfold write_byte. cbn [t_out t_argv t_tok t_in t_quoted t_quote t_line t_err].
    rewrite IH by done. by rewrite sapp_assoc, str1_app.
Qed.

Lemma scan_quoted path n tok rest out argv line :
  clean tok →
  scan_line path n (quote_tok tok ++s rest) (idle out argv line) =
  scan_line path n rest (pending out argv tok (if (length argv =? 0)%nat then n else line)).
Proof.
  intros Hc. unfold quote_tok. cbn [String.append].
  erewrite scan_line_cons; [|done|reflexivity|done].
  rewrite sapp_assoc. cbn [String.append str1]. apply (scan_body path n tok rest out argv "" _ Hc).
Qed.

Lemma scan_sep path n rest out argv tok line :
  scan_line path n (String " " rest) (pending out argv tok line) =
  scan_line path n rest (idle out (argv ++ [tok]) line).
Proof. erewrite scan_line_cons; [|done|reflexivity|done]. done. Qed.

(** All the tokens of a command, up to the last one. *)
Lemma scan_tokens path n toks tok rest out argv line :
  Forall clean (toks ++ [tok]) →
  scan_line path n (join_str " " (map quote_tok (toks ++ [tok])) ++s rest) (idle out argv line) =
  scan_line path n rest (pending out (argv ++ toks) tok (if (length argv =? 0)%nat then n else line)).
Proof.
  revert argv line. induction toks as [|t toks IH]; intros argv line Hc.
  - cbn [app map join_str] in *. apply Forall_cons in Hc as [Hc _]. rewrite scan_quoted by done. by rewrite app_nil_r.
  - apply Forall_cons in Hc as [Ht Hc]. cbn [app map].
    replace (join_str " " (quote_tok t :: map quote_tok (toks ++ [tok])))
      with (quote_tok t ++s " " ++s join_str " " (map quote_tok (toks ++ [tok])))
      by (by destruct toks).
    rewrite !sapp_assoc, scan_quoted by done. cbn [String.append]. rewrite scan_sep, IH by done.
    rewrite <-app_assoc. cbn [app]. f_equal. unfold pending. f_equal.
    rewrite length_app. cbn [length]. destruct (Nat.eqb_spec (length argv + 1) 0); [lia|done].
Qed.

Lemma normal_plain path n argv :
  plain_cmd argv → normalStatement path n argv = Ok (mkStmt n argv "" path CNone []).
Proof.
  intros (Hne & Hif & Helse & Hcap). unfold normalStatement. destruct argv as [|w rest]; [done|].
  destruct (String.eqb_spec w "IF") as [-> |_]; [done|].
  destruct (String.eqb_spec w "ELSE") as [-> |_]; [done|]. cbn [orb].
  destruct rest as [|op [|x rest]]; try done.
  destruct (String.eqb_spec op ":=") as [-> |_]; done.
Qed.

Lemma scan_cmd path n argv out line :
  plain_cmd argv → Forall clean argv →
  scan_line path n (render_cmd argv) (idle out [] line) = idle (out ++ [mkStmt n argv "" path CNone []]) [] n.
Proof.
  intros Hp Hc. destruct (exists_last (proj1 Hp)) as (toks & tok & ->). unfold render_cmd.
  rewrite scan_tokens by done. cbn [app length Nat.eqb]. cbn [scan_line].
  assert (scan_byte path n ";" (pending out toks tok n) =
    idle (out ++ [mkStmt n (toks ++ [tok]) "" path CNone []]) [] n) as ->; [|done].
  unfold scan_byte. cbn [t_quote pending]. cbn -[emit flushTok].
  assert (flushTok path (pending out toks tok n) = idle out (toks ++ [tok]) n) as -> by done.
  unfold emit, idle. cbn [t_err t_argv t_line].
  rewrite length_app. cbn [length]. destruct (Nat.ltb_spec 0 (length toks + 1)); [|lia].
  by rewrite normal_plain.
Qed.

(** The statements of a quoted script, with the lines they begin on. *)
Definition script (path : string) (n : Z) (cmds : list (list string)) : list Statement :=
  imap (λ i argv, mkStmt (n + Z.of_nat i) argv "" path CNone []) cmds.

Lemma end_idle path out argv line : end_line path (idle out argv line) = idle out argv line.
Proof. done. Qed.

Lemma scan_script path n cmds out line :
  Forall plain_cmd cmds → Forall (Forall clean) cmds →
  ∃ line', scan_lines path n (map render_cmd cmds) (idle out [] line) = idle (out ++ script path n cmds) [] line'.
Proof.
  intros Hp Hc. revert n out line. induction cmds as [|argv cmds IH]; intros n out line.
  { exists line. simpl. by rewrite app_nil_r. }
  apply Forall_cons in Hp as [Hp Hps], Hc as [Hc Hcs]. cbn [map scan_lines]. cbv zeta.
  rewrite scan_cmd by done. rewrite end_idle. unfold idle at 1 3. cbn [t_err].
  destruct (IH Hps Hcs (n + 1) (out ++ [mkStmt n argv "" path CNone []]) n) as [line' ->].
  exists line'. unfold idle, script. f_equal. rewrite <-app_assoc. f_equal. cbn [imap app].
  replace (n + Z.of_nat 0) with n by lia. f_equal. apply imap_ext. intros i x _. simpl. f_equal. lia.
Qed.

Lemma script_control path n cmds stack :
  control_loop path (script path n cmds) stack = control_loop path [] stack.
Proof.
  unfold script. revert n. induction cmds as [|c cmds IH]; intros n; [done|]. cbn [imap control_loop s_Control].
  etrans; [|apply (IH (n + 1))]. f_equal. apply imap_ext. intros i x _. simpl. f_equal. lia.
Qed.


(** ** Version comparison *)

(** The component values, as an infinite sequence padded with zeros. *)
Definition comp_at (l : list Z) (i : nat) : Z := default 0 (l !! i).

Lemma comp_at_tail l i : comp_at (tail l) i = comp_at l (S i).
Proof. by destruct l. Qed.
Lemma comp_at_head l : default 0 (head l) = comp_at l 0.
Proof. by destruct l. Qed.

(** The result is decided at the first index where the sequences differ. *)
Lemma compare_nums_spec fuel aa bb :
  (length aa ≤ fuel)%nat → (length bb ≤ fuel)%nat →
  (compare_nums fuel aa bb = 0 ∧ ∀ i, comp_at aa i = comp_at bb i) ∨
  (∃ i, (∀ j, (j < i)%nat → comp_at aa j = comp_at bb j) ∧
     ((compare_nums fuel aa bb = -1 ∧ comp_at aa i < comp_at bb i) ∨
      (compare_nums fuel aa bb = 1 ∧ comp_at bb i < comp_at aa i))).
Proof.
  revert aa bb. induction fuel as [|fuel IH]; intros aa bb La Lb.
  { left. split; [done|]. intros i. by destruct aa, bb; simpl in *; try lia. }
  cbn [compare_nums]. rewrite !comp_at_head.
  destruct (Z.ltb_spec (comp_at aa 0) (comp_at bb 0)).
  { right. exists 0%nat. split; [lia|]. by left. }
  destruct (Z.ltb_spec (comp_at bb 0) (comp_at aa 0)).
  { right. exists 0%nat. split; [lia|]. by right. }
  assert (length (tail aa) ≤ fuel)%nat by (destruct aa; simpl in *; lia).
  assert (length (tail bb) ≤ fuel)%nat by (destruct bb; simpl in *; lia).
  destruct (IH (tail aa) (tail bb)) as [[Hc He]|(i & Hj & Hi)]; [done|done|left|right].
  - split; [done|]. intros [|i]; [lia|]. by rewrite <-!comp_at_tail.
  - exists (S i). split; [|by rewrite <-!comp_at_tail].
    intros [|j] Hlt; [lia|]. rewrite <-!comp_at_tail. apply Hj. lia.
Qed.

Lemma CompareSemver_spec a b :
  let aa := splitVerNums a in let bb := splitVerNums b in
  (CompareSemver a b = 0 ∧ ∀ i, comp_at aa i = comp_at bb i) ∨
  (∃ i, (∀ j, (j < i)%nat → comp_at aa j = comp_at bb j) ∧
     ((CompareSemver a b = -1 ∧ comp_at aa i < comp_at bb i) ∨
      (CompareSemver a b = 1 ∧ comp_at bb i < comp_at aa i))).
Proof. apply compare_nums_spec; lia. Qed.

(** CompareSemver is a total preorder: it answers 0 exactly when the
    components agree after padding with zeros ("0.1" and "0.1.0"), exchanging
    the arguments negates it, and "at most" is transitive. *)
Theorem CompareSemver_order (a b c : string) :
  (CompareSemver a b = 0 ↔ ∀ i, comp_at (splitVerNums a) i = comp_at (splitVerNums b) i) ∧
  CompareSemver b a = - CompareSemver a b ∧
  (CompareSemver a b ≤ 0 → CompareSemver b c ≤ 0 → CompareSemver a c ≤ 0).
Proof.
  assert (∀ x y, CompareSemver x y = 0 ↔ ∀ i, comp_at (splitVerNums x) i = comp_at (splitVerNums y) i) as H0.
  { intros x y. destruct (CompareSemver_spec x y) as [[Hz He]|(i & _ & [[Hz Hi]|[Hz Hi]])]; [done|..];
      (split; [lia|intros Hall; specialize (Hall i); lia]). }
  split_and!; [apply H0| |].
  - destruct (CompareSemver_spec a b) as [[Hz He]|(i & Hj & Hi)].
    + rewrite Hz. apply H0. intros i. by rewrite He.
    + destruct (CompareSemver_spec b a) as [[Hz He]|(k & Hk & Hki)]; [specialize (He i); lia|].
      assert (k = i) as ->; [|lia].
      destruct (lt_eq_lt_dec k i) as [[Hlt| ->]|Hlt]; [specialize (Hj k Hlt); lia|done|specialize (Hk i Hlt); lia].
  - intros Hab Hbc.
    destruct (CompareSemver_spec a c) as [[Hz He]|(i & Hj & [[Hz Hi]|[Hz Hi]])]; [lia|lia|exfalso].
    destruct (CompareSemver_spec a b) as [[_ He]|(k & Hk & [[_ Hki]|[? _]])]; [| |lia];
    destruct (CompareSemver_spec b c) as [[_ He']|(m & Hm & [[_ Hmi]|[? _]])]; try lia.
    + specialize (He i). specialize (He' i). lia.
    + pose proof (He m). pose proof (He i).
      destruct (lt_eq_lt_dec m i) as [[Hlt| ->]|Hlt]; [specialize (Hj m Hlt); lia|lia|specialize (Hm i Hlt); lia].
    + pose proof (He' k). pose proof (He' i).
      destruct (lt_eq_lt_dec k i) as [[Hlt| ->]|Hlt]; [specialize (Hj k Hlt); lia|lia|specialize (Hk i Hlt); lia].
    + destruct (lt_eq_lt_dec k m) as [[Hkm| ->]|Hkm].
      * pose proof (Hm k Hkm).
        destruct (lt_eq_lt_dec k i) as [[Hlt| ->]|Hlt]; [specialize (Hj k Hlt); lia|lia|].
        specialize (Hk i Hlt). specialize (Hm i ltac:(lia)). lia.
      * destruct (lt_eq_lt_dec m i) as [[Hlt| ->]|Hlt]; [specialize (Hj m Hlt); lia|lia|].
        specialize (Hk i Hlt). specialize (Hm i Hlt). lia.
      * pose proof (Hk m Hkm).
        destruct (lt_eq_lt_dec m i) as [[Hlt| ->]|Hlt]; [specialize (Hj m Hlt); lia|lia|].
        specialize (Hk i ltac:(lia)). specialize (Hm i Hlt). lia.
Qed.

(** ** Witnesses *)

Definition demo_cmds : list (list string) :=
  [["echo"; "a;b # c"; "END"]; ["docker"; "run it's"; "${x}"]]%string.


Lemma CompareSemver_order_witness :
  CompareSemver "0.1" "0.1.0" = 0 ∧ CompareSemver "v1.9" "1.10" = -1 ∧ CompareSemver "0.1" "1.10" ≤ 0.
Proof.
  destruct (CompareSemver_order "0.1" "0.1.0" "1.10") as (_ & _ & H).
  split; [reflexivity|]. split; [reflexivity|]. apply H; vm_compute; discriminate.
Defined.
