(* ===== verification/RecipeRequires.v ===== *)
(** * pkg/recipe: checking a recipe's requirements against the hardware

    requires.go: the [vram] and [gpu] items against a hardware snapshot, the
    messages of the unmet ones, and what passing means. *)

From S2P Require Import Prelude GoStrings GoStringsFacts Strconv Hardware GoAny NodeIdentity Probe RecipeParser.
From Stdlib Require Import ZArith Lia ZifyBool Bool Ascii String SpecFloat.
From stdpp Require Import base option list strings.

Open Scope go_scope.

(** pkg/recipe/requires.go:74-78 [trimFloat] *)
Definition trimFloat (f : float64) : string := trim_suffix (format_f1 f) ".0".

(** pkg/recipe/requires.go:62-71 [gpuNames] *)
Definition gpuNames (hw : HardwareSpec) : string :=
  match range (hw_GPUs hw) with
  | [] => "none"
  | gpus => join_str ", " (map gpu_Name gpus)
  end.

Section check.
Context {U : GoUnicode}.

(** pkg/recipe/requires.go:30-35 [Requires.CheckAgainst part]: the largest GPU. *)
Definition largest_vram (gpus : list GPUSpec) : float64 :=
  fold_left (λ have g, if f_lt have (gpu_VramTotalGB g) then gpu_VramTotalGB g else have) gpus f_zero.

(** pkg/recipe/requires.go:43-51 [Requires.CheckAgainst part] *)
Definition gpu_matched (patterns : list string) (gpus : list GPUSpec) : bool :=
  existsb (λ g, existsb (λ p, contains_str (to_lower (gpu_Name g)) (to_lower p)) patterns) gpus.

(** pkg/recipe/requires.go:22-59 [Requires.CheckAgainst] *)
Definition CheckAgainst (r : option Requires) (hw : HardwareSpec) : list string :=
  match r with
  | None => []
  | Some r =>
      let gpus := range (hw_GPUs hw) in
      (if f_lt f_zero (rq_VRAMGB r) then
         let have := largest_vram gpus in
         if f_lt have (rq_VRAMGB r)
         then ["vram: " ++s trimFloat (rq_VRAMGB r) ++s "G+ → have " ++s trimFloat have ++s "G"]
         else []
       else []) ++
      (match rq_GPUPatterns r with
       | [] => []
       | ps => if gpu_matched ps gpus then []
               else ["gpu: " ++s join_str " | " ps ++s " → have " ++s go_quote (gpuNames hw)]
       end)
  end.

(** pkg/recipe/requires.go:12-17 [Requires.Check] *)
Definition Check_requires `{FloatValue} (r : option Requires) (m : sensors) : list string :=
  match r with None => [] | Some _ => CheckAgainst r (DetectHardwareStatic m "") end.

(** ** What passing means *)

Lemma largest_vram_spec gpus have :
  is_num have = true →
  let h := fold_left (λ have g, if f_lt have (gpu_VramTotalGB g) then gpu_VramTotalGB g else have) gpus have in
  f_ge h have = true ∧
  (∀ g, g ∈ gpus → is_num (gpu_VramTotalGB g) = true → f_ge h (gpu_VramTotalGB g) = true) ∧
  (h = have ∨ ∃ g, g ∈ gpus ∧ gpu_VramTotalGB g = h).
Proof.
  revert have. induction gpus as [|g gpus IH]; intros have Hn; cbn [fold_left].
  { split_and!; [|by intros ? ?%elem_of_nil|by left]. by apply f_ge_refl. }
  destruct (f_lt have (gpu_VramTotalGB g)) eqn:E.
  - pose proof (f_lt_ge _ _ E) as Hge.
    destruct (IH (gpu_VramTotalGB g)) as (H1 & H2 & H3).
    { revert Hge. unfold f_ge. rewrite !andb_true_iff. tauto. }
    split_and!.
    + by eapply f_ge_trans.
    + intros g' [->|Hg]%elem_of_cons Hn'; [done|by apply H2].
    + right. destruct H3 as [H3|(g' & Hg' & H3)]; [exists g; split; [left|done]|].
      exists g'. split; [by right|done].
  - destruct (IH have Hn) as (H1 & H2 & H3). split_and!; [done| |].
    + intros g' [->|Hg]%elem_of_cons Hn'; [|by apply H2]. eapply f_ge_trans; [exact H1|]. by apply f_not_lt_ge.
    + destruct H3 as [H3|(g' & Hg' & H3)]; [by left|]. right. exists g'. split; [by right|done].
Qed.

Lemma largest_vram_meets gpus r :
  f_lt f_zero r = true →
  f_lt (largest_vram gpus) r = false ↔ ∃ g, g ∈ gpus ∧ f_ge (gpu_VramTotalGB g) r = true.
Proof.
  intros Hr. destruct (largest_vram_spec gpus f_zero eq_refl) as (H1 & H2 & H3). fold (largest_vram gpus) in *.
  assert (is_num r = true) as Hn.
  { pose proof (f_lt_ge _ _ Hr) as Hge. revert Hge. unfold f_ge. rewrite !andb_true_iff. tauto. }
  assert (is_num (largest_vram gpus) = true) as Hnl.
  { revert H1. unfold f_ge. rewrite !andb_true_iff. tauto. }
  split.
  - intros Hlt. destruct H3 as [H3|(g & Hg & H3)]; [by rewrite H3, Hr in Hlt|].
    exists g. split; [done|]. rewrite H3. by apply f_not_lt_ge.
  - intros (g & Hg & Hge). apply f_ge_not_lt. eapply f_ge_trans; [|exact Hge]. apply H2; [done|].
    revert Hge. unfold f_ge. rewrite !andb_true_iff. tauto.
Qed.

(** The requirements of a recipe pass exactly when some GPU has at least
    the required memory, if memory is required, and some GPU's name contains
    one of the patterns, whatever the case, if there are patterns; the two need
    not be the same GPU.  Each unmet item gives one message. *)
Theorem requires_met r hw :
  let vram_ok := f_lt f_zero (rq_VRAMGB r) = true →
    ∃ g, g ∈ range (hw_GPUs hw) ∧ f_ge (gpu_VramTotalGB g) (rq_VRAMGB r) = true in
  let gpu_ok := rq_GPUPatterns r ≠ [] →
    ∃ g p, g ∈ range (hw_GPUs hw) ∧ p ∈ rq_GPUPatterns r ∧
      contains_str (to_lower (gpu_Name g)) (to_lower p) = true in
  (CheckAgainst (Some r) hw = [] ↔ vram_ok ∧ gpu_ok) ∧ length (CheckAgainst (Some r) hw) ≤ 2.
Proof.
  cbn zeta. cbn [CheckAgainst]. set (gpus := range (hw_GPUs hw)).
  set (v := if f_lt f_zero (rq_VRAMGB r) then _ else _). set (q := match rq_GPUPatterns r with [] => _ | _ => _ end).
  assert ((v = [] ↔ (f_lt f_zero (rq_VRAMGB r) = true →
    ∃ g, g ∈ gpus ∧ f_ge (gpu_VramTotalGB g) (rq_VRAMGB r) = true)) ∧ length v ≤ 1) as [Hv Hvl].
  { unfold v. destruct (f_lt f_zero (rq_VRAMGB r)) eqn:E; [|by split; [|cbn; lia]].
    rewrite <-(largest_vram_meets gpus _ E). destruct (f_lt (largest_vram gpus) _); cbn; naive_solver lia. }
  assert ((q = [] ↔ (rq_GPUPatterns r ≠ [] → ∃ g p, g ∈ gpus ∧ p ∈ rq_GPUPatterns r ∧
      contains_str (to_lower (gpu_Name g)) (to_lower p) = true)) ∧ length q ≤ 1) as [Hq Hql].
  { unfold q. destruct (rq_GPUPatterns r) as [|p ps] eqn:Ep; [by split; [|cbn; lia]|].
    assert (gpu_matched (p :: ps) gpus = true ↔ ∃ g p', g ∈ gpus ∧ p' ∈ p :: ps ∧
      contains_str (to_lower (gpu_Name g)) (to_lower p') = true) as Hm.
    { unfold gpu_matched. rewrite existsb_exists. setoid_rewrite existsb_exists.
      setoid_rewrite list_elem_of_In. naive_solver. }
    destruct (gpu_matched (p :: ps) gpus); cbn; [split; [|lia]|split; [|lia]].
    - split; [intros _ _; by apply Hm|done].
    - split; [done|]. intros H. by apply Hm in H. }
  rewrite app_nil, length_app, Hv, Hq. split; [done|lia].
Qed.
End check.
