(* ===== verification/RecipeExpand.v ===== *)
(** * pkg/recipe/expand.go: path expansion

    [${path}] references inside argv tokens, resolved against the variable
    memory and the environment.  The formatting of floats and of compound
    values ([strconv.FormatFloat] and [fmt]'s %v) is the class [GoFormat]. *)

From S2P Require Import Prelude GoStrings GoStringsFacts Strconv Hardware GoAny RecipeParser.
From Stdlib Require Import ZArith Lia ZifyBool Bool Ascii String SpecFloat.
From stdpp Require Import base option list gmap strings.

Open Scope go_scope.
Open Scope Z_scope.

Class GoFormat := {
  format_float_g : float64 → string;
  sprint_v : any → string
}.

Inductive expand_err :=
  | XUnterminated (tok : string)
  | XEmptyPath
  | XExpectedIdent
  | XEnvName (path : string)
  | XEnvContinuation (path name next : string)
  | XUnknownVar (root path : string)
  | XIn (path : string) (e : expand_err)
  | XNoLength (path : string)
  | XNotObject (path name : string)
  | XNoField (path name : string)
  | XUnmatched (path : string)
  | XInvalidIndex (path idx : string)
  | XNotArray (path : string)
  | XOutOfRange (path : string) (idx len : Z)
  | XUnexpected (path : string) (c : ascii)
  | XFuel.

Definition memory := gmap string any.

(** The longest prefix of identifier bytes after the first one, and the rest. *)
Fixpoint split_ident_tail (s : string) : string * string :=
  match s with
  | EmptyString => (""%string, ""%string)
  | String c s' =>
      if ident_byte false false c then let '(a, b) := split_ident_tail s' in (String c a, b)
      else (""%string, s)
  end.

(** pkg/recipe/expand.go:179-201 [splitFirstIdent] *)
Definition splitFirstIdent (s : string) : result expand_err (string * string) :=
  match s with
  | EmptyString => Err XExpectedIdent
  | String c s' =>
      if ident_byte false true c then let '(a, b) := split_ident_tail s' in Ok (String c a, b)
      else Err XExpectedIdent
  end.

(** [fmt.Errorf("in ${%s}: %w", path, err)] *)
Definition wrap_in {A} (path : string) (r : result expand_err A) : result expand_err A :=
  match r with Ok x => Ok x | Err e => Err (XIn path e) end.

(** pkg/recipe/expand.go:128-149 [evalPath part]: the [.field] step: "length" is synthetic, on arrays and strings only. *)
Definition field_step (path name : string) (val : any) : result expand_err any :=
  if name =s? "length" then
    match val with
    | AArr l => Ok (AInt (Z.of_nat (length l)))
    | AStr s => Ok (AInt (Z.of_nat (String.length s)))
    | _ => Err (XNoLength path)
    end
  else
    match as_obj (Some val) with
    | None => Err (XNotObject path name)
    | Some obj => match obj_get obj name with
                  | None => Err (XNoField path name)
                  | Some v => Ok v
                  end
    end.

(** pkg/recipe/expand.go:156-168 [evalPath part]: the [[index]] step. *)
Definition index_step (path idxStr : string) (val : any) : result expand_err any :=
  match atoi idxStr with
  | (_, Some _) => Err (XInvalidIndex path idxStr)
  | (idx, None) =>
      match as_arr (Some val) with
      | None => Err (XNotArray path)
      | Some arr =>
          if (idx <? 0) || (Z.of_nat (length arr) <=? idx)
          then Err (XOutOfRange path idx (Z.of_nat (length arr)))
          else match arr !! Z.to_nat idx with
               | Some v => Ok v
               | None => Err (XOutOfRange path idx (Z.of_nat (length arr)))
               end
      end
  end.

(** pkg/recipe/expand.go:118-174 [evalPath part]: the loop of [evalPath] over what is left of the path. *)
Fixpoint walk (fuel : nat) (path rest : string) (val : any) : result expand_err any :=
  match rest with
  | EmptyString => Ok val
  | String c rest1 =>
      match fuel with
      | O => Err XFuel
      | S fuel' =>
          if (c =c? ".")%char then
            let! (name, next) := wrap_in path (splitFirstIdent rest1) in
            let! v := field_step path name val in
            walk fuel' path next v
          else if (c =c? "[")%char then
            match index_byte rest "]" with
            | None => Err (XUnmatched path)
            | Some closeBr =>
                let! v := index_step path (trim_space (take_str (closeBr - 1) rest1)) val in
                walk fuel' path (drop_str (S closeBr) rest) v
            end
          else Err (XUnexpected path c)
      end
  end.

(** pkg/recipe/expand.go:86-175 [evalPath] *)
Definition evalPath (getenv : string → string) (mem : memory) (path : string) : result expand_err any :=
  let path := trim_space path in
  if path =s? "" then Err XEmptyPath
  else
    let! (root, rest) := splitFirstIdent path in
    if root =s? "env" then
      if negb (has_prefix rest ".") then Err (XEnvName path)
      else
        let! (name, next) := wrap_in path (splitFirstIdent (drop_str 1 rest)) in
        if negb (next =s? "") then Err (XEnvContinuation path name next)
        else Ok (AStr (getenv name))
    else
      match mem !! root with
      | None => Err (XUnknownVar root path)
      | Some val => walk (String.length rest) path rest val
      end.

Section format.
Context {F : GoFormat}.

(** pkg/recipe/expand.go:211-236 [stringify] *)
Definition stringify (v : any) : string :=
  match v with
  | ANil => ""
  | AStr x => x
  | ABool x => if x then "true" else "false"
  | AInt x => format_int x
  | AFloat x => if SFeqb x (int_to_float (float_to_int x)) then format_int (float_to_int x)
                else format_float_g x
  | _ => sprint_v v
  end.

(** pkg/recipe/expand.go:42-60 [expandToken part]: the loop of [expandToken]; [skip] counts the bytes of a reference still to
    be passed over. *)
Fixpoint expand_loop (getenv : string → string) (mem : memory) (tok : string) (skip : nat) (s : string)
  : result expand_err string :=
  match s with
  | EmptyString => Ok ""%string
  | String c s' =>
      match skip with
      | S k => expand_loop getenv mem tok k s'
      | O =>
          if has_prefix s "${" then
            match index_byte (drop_str 2 s) "}" with
            | None => Err (XUnterminated tok)
            | Some fin =>
                let! val := evalPath getenv mem (take_str fin (drop_str 2 s)) in
                let! out := expand_loop getenv mem tok (2 + fin) s' in
                Ok (stringify val ++s out)
            end
          else
            let! out := expand_loop getenv mem tok 0 s' in
            Ok (String c out)
      end
  end.

(** pkg/recipe/expand.go:36-61 [expandToken] *)
Definition expandToken (getenv : string → string) (mem : memory) (tok : string) : result expand_err string :=
  if negb (contains_str tok "${") then Ok tok else expand_loop getenv mem tok 0 tok.

(** pkg/recipe/expand.go:64-74 [expandArgv] *)
Fixpoint expandArgv (getenv : string → string) (mem : memory) (argv : list string)
  : result expand_err (list string) :=
  match argv with
  | [] => Ok []
  | t :: argv' =>
      let! v := expandToken getenv mem t in
      let! out := expandArgv getenv mem argv' in
      Ok (v :: out)
  end.
End format.

(** ** Termination *)

Lemma split_ident_tail_spec s : let '(a, b) := split_ident_tail s in s = a ++s b.
Proof.
  induction s as [|c s IH]; [done|]. simpl. destruct (ident_byte false false c); [|done].
  destruct (split_ident_tail s) as [a b]. cbn [String.append]. by f_equal.
Qed.

Lemma splitFirstIdent_spec s a b : splitFirstIdent s = Ok (a, b) → s = a ++s b ∧ a ≠ ""%string.
Proof.
  unfold splitFirstIdent. destruct s as [|c s]; [done|]. case_if; [|done].
  pose proof (split_ident_tail_spec s). destruct (split_ident_tail s) as [x y].
  intros [= <- <-]. split; [cbn [String.append]; by f_equal|done].
Qed.

Lemma splitFirstIdent_not_fuel s : splitFirstIdent s ≠ Err XFuel.
Proof. unfold splitFirstIdent. destruct s; [done|]. case_if; [|done]. by destruct (split_ident_tail s). Qed.

(** The loop ends within as many steps as the path has bytes. *)
Lemma walk_terminates fuel path rest val :
  (String.length rest ≤ fuel)%nat → walk fuel path rest val ≠ Err XFuel.
Proof.
  revert rest val. induction fuel as [|fuel IH]; intros rest val Hl.
  { destruct rest; simpl in *; [done|lia]. }
  destruct rest as [|c rest]; [done|]. cbn [String.length] in Hl. cbn [walk]. case_if.
  - destruct (splitFirstIdent rest) as [[name next]|e] eqn:Es; cbn [wrap_in res_bind]; [|done].
    apply splitFirstIdent_spec in Es as [-> _]. rewrite slength_app in Hl.
    unfold field_step. destruct (name =s? "length"); [destruct val; cbn [res_bind]; try done; apply IH; lia|].
    destruct (as_obj _); [|done]. destruct (obj_get _ _); cbn [res_bind]; [|done]. apply IH. lia.
  - case_if; [|done]. destruct (index_byte _ _) as [k|]; [|done]. unfold index_step.
    destruct (atoi _) as [idx [|]]; [done|]. destruct (as_arr _); [|done]. case_if; [done|].
    destruct (_ !! _); cbn [res_bind]; [|done]. apply IH. rewrite drop_str_length. cbn [String.length]. lia.
Qed.

Lemma evalPath_terminates getenv mem path : evalPath getenv mem path ≠ Err XFuel.
Proof.
  unfold evalPath. case_if; [done|]. pose proof (splitFirstIdent_not_fuel (trim_space path)).
  destruct (splitFirstIdent _) as [[root rest]|e]; cbn [res_bind]; [|congruence].
  case_if; [case_if; [done|]; destruct (splitFirstIdent _) as [[]|]; cbn [wrap_in res_bind]; [by case_if|done]|].
  destruct (mem !! root); [|done]. by apply walk_terminates.
Qed.

(** ** Resolution *)

(** A path as written: the root variable and its accessors. *)
Inductive accessor := Field (name : string) | Index (i : Z).

Definition render_accessor (a : accessor) : string :=
  match a with Field n => "." ++s n | Index i => "[" ++s format_int i ++s "]" end.
Definition render_path (root : string) (l : list accessor) : string :=
  root ++s join_str "" (map render_accessor l).

(** What it denotes: the value reached, [None] when an accessor does not apply. *)
Definition access (v : any) (a : accessor) : option any :=
  match a with
  | Field n =>
      if n =s? "length" then
        match v with
        | AArr l => Some (AInt (Z.of_nat (length l)))
        | AStr s => Some (AInt (Z.of_nat (String.length s)))
        | _ => None
        end
      else match v with AObj m => obj_get m n | _ => None end
  | Index i => match v with AArr l => if i <? 0 then None else l !! Z.to_nat i | _ => None end
  end.
Fixpoint access_all (v : any) (l : list accessor) : option any :=
  match l with
  | [] => Some v
  | a :: l' => match access v a with Some v' => access_all v' l' | None => None end
  end.

(** A well-formed accessor: an identifier, or an index that fits an int. *)
Definition accessor_ok (a : accessor) : Prop :=
  match a with Field n => isVarName n = true | Index i => in_i64 i end.

Lemma isVarName_inv s :
  isVarName s = true → ∃ c s', s = String c s' ∧ ident_byte false true c = true ∧
    sforall (ident_byte false false) s' = true.
Proof.
  unfold isVarName. destruct s as [|c s]; [done|]. simpl. intros [? ?]%andb_true_iff. by eexists _, _.
Qed.

Lemma split_ident_tail_app s rest :
  sforall (ident_byte false false) s = true →
  match rest with EmptyString => True | String c _ => ident_byte false false c = false end →
  split_ident_tail (s ++s rest) = (s, rest).
Proof.
  intros Hs Hr. induction s as [|c s IH].
  - destruct rest as [|c rest]; [done|]. simpl. by rewrite Hr.
  - cbn [sforall] in Hs. apply andb_true_iff in Hs as [Hc Hs]. cbn [String.append split_ident_tail].
    by rewrite Hc, IH.
Qed.

Lemma splitFirstIdent_app s rest :
  isVarName s = true →
  match rest with EmptyString => True | String c _ => ident_byte false false c = false end →
  splitFirstIdent (s ++s rest) = Ok (s, rest).
Proof.
  intros (c & s' & -> & Hc & Hs)%isVarName_inv Hr. cbn [String.append splitFirstIdent].
  rewrite Hc. by rewrite split_ident_tail_app.
Qed.

Definition render_rest (l : list accessor) : string := join_str "" (map render_accessor l).

Lemma render_rest_cons a l : render_rest (a :: l) = render_accessor a ++s render_rest l.
Proof. unfold render_rest. destruct l; [simpl; by rewrite sapp_nil_r|done]. Qed.

(** What follows an identifier in a rendered path does not extend it. *)
Lemma render_rest_stop l :
  match render_rest l with EmptyString => True | String c _ => ident_byte false false c = false end.
Proof. destruct l as [|[n|i] l]; [done|..]; by rewrite render_rest_cons. Qed.

Lemma ident_plain first c : ident_byte false first c = true → is_plain c = true.
Proof.
  unfold ident_byte, is_lower_ascii, is_upper_ascii, is_digit, is_plain. cbn [andb].
  destruct (Ascii.eqb_spec c "_") as [-> | _]; [done|]. destruct first; cbn [negb andb orb]; lia.
Qed.

Lemma sforall_ident_plain first s : sforall (ident_byte false first) s = true → sforall is_plain s = true.
Proof. apply sforall_impl. apply ident_plain. Qed.

Lemma varname_plain s : isVarName s = true → sforall is_plain s = true.
Proof.
  intros (c & s' & -> & Hc & Hs)%isVarName_inv. simpl.
  apply andb_true_iff. split; [by eapply ident_plain|by eapply sforall_ident_plain].
Qed.

Lemma render_rest_plain l : Forall accessor_ok l → sforall is_plain (render_rest l) = true.
Proof.
  induction 1 as [|a l Ha Hl IH]; [done|]. rewrite render_rest_cons, sforall_app, IH, andb_true_r.
  destruct a as [n|i]; cbn [render_accessor accessor_ok] in *; rewrite !sforall_app.
  - by rewrite (varname_plain n).
  - by rewrite format_int_plain.
Qed.

Lemma field_step_access path name v :
  match field_step path name v with
  | Ok v' => access v (Field name) = Some v'
  | Err _ => access v (Field name) = None
  end.
Proof.
  unfold field_step, access. destruct (name =s? "length"); [by destruct v|].
  destruct v; try done. simpl. by destruct (obj_get m name).
Qed.

Lemma index_step_access path i v :
  in_i64 i →
  match index_step path (trim_space (format_int i)) v with
  | Ok v' => access v (Index i) = Some v'
  | Err _ => access v (Index i) = None
  end.
Proof.
  intros Hi. rewrite trim_space_plain by apply format_int_plain. unfold index_step, atoi.
  rewrite parse_int_format by done. destruct v as [| | | | |l|]; try done. simpl.
  destruct (Z.ltb_spec i 0); [done|]. cbn [orb].
  destruct (Z.leb_spec (Z.of_nat (length l)) i); [apply lookup_ge_None; lia|].
  by destruct (l !! Z.to_nat i).
Qed.

Lemma index_close i rest :
  index_byte ("[" ++s format_int i ++s "]" ++s rest) "]" = Some (S (String.length (format_int i))).
Proof.
  cbn [String.append index_byte]. cbn [Ascii.eqb Bool.eqb].
  assert (index_byte (format_int i ++s String "]" rest) "]" = Some (String.length (format_int i))) as Hx.
  { apply index_byte_app. apply format_int_no_byte; done. }
  cbn [String.append] in Hx. by rewrite Hx.
Qed.

Lemma walk_render fuel path l v :
  Forall accessor_ok l → (String.length (render_rest l) ≤ fuel)%nat →
  match walk fuel path (render_rest l) v with
  | Ok v' => access_all v l = Some v'
  | Err _ => access_all v l = None
  end.
Proof.
  intros Hl. revert fuel v. induction Hl as [|a l Ha Hl IH]; intros fuel v Hf.
  { by destruct fuel. }
  rewrite render_rest_cons in *. cbn [access_all]. destruct a as [n|i]; simpl in Ha.
  - cbn [render_accessor String.append] in *. cbn [String.length] in Hf. destruct fuel as [|fuel]; [lia|].
    cbn [walk]. cbn [Ascii.eqb Bool.eqb].
    rewrite splitFirstIdent_app by (done || apply render_rest_stop). cbn [wrap_in res_bind].
    pose proof (field_step_access path n v) as Hs.
    destruct (field_step path n v) as [v'|]; cbn [res_bind]; rewrite Hs; [|done].
    apply IH. rewrite slength_app in Hf. lia.
  - destruct fuel as [|fuel]; [cbn [render_accessor String.append String.length] in Hf; lia|].
    cbn [render_accessor]. rewrite !sapp_assoc. pose proof (index_close i (render_rest l)) as Hc.
    cbn [String.append] in *. cbn [walk]. cbn [Ascii.eqb Bool.eqb]. rewrite Hc.
    replace (S (String.length (format_int i)) - 1)%nat with (String.length (format_int i)) by lia.
    rewrite take_str_app. pose proof (index_step_access path i v Ha) as Hs.
    destruct (index_step path _ v) as [v'|]; cbn [res_bind]; rewrite Hs; [|done].
    match goal with |- context [drop_str (S (S ?k)) (String "[" ?x)] =>
      change (drop_str (S (S k)) (String "[" x)) with (drop_str (S k) x) end.
    rewrite drop_str_S_app. apply IH.
    cbn [render_accessor String.append String.length] in Hf. rewrite !slength_app in Hf. simpl in Hf. lia.
Qed.

(** C34: Path resolution is exact: a path written as a variable followed by field
    and index accessors resolves to the value the accessors denote — nested
    fields, array elements, the synthetic length — and is an error exactly when
    the variable is unknown or some accessor does not apply (missing field,
    index out of range or negative, wrong kind of value); never a silent null. *)
Theorem evalPath_denotes (getenv : string → string) (mem : memory) (root : string) (l : list accessor) :
  isVarName root = true → root ≠ "env"%string → Forall accessor_ok l →
  match evalPath getenv mem (render_path root l) with
  | Ok v => ∃ v0, mem !! root = Some v0 ∧ access_all v0 l = Some v
  | Err _ => ∀ v0, mem !! root = Some v0 → access_all v0 l = None
  end.
Proof.
  intros Hroot Hne Hl. unfold evalPath, render_path. fold (render_rest l).
  rewrite trim_space_plain
    by (rewrite sforall_app, varname_plain, render_rest_plain by done; done).
  assert ((root ++s render_rest l =s? "") = false) as ->
    by (apply isVarName_inv in Hroot as (c & s' & -> & _); done).
  rewrite splitFirstIdent_app by (done || apply render_rest_stop). cbn [res_bind].
  apply String.eqb_neq in Hne. rewrite Hne. destruct (mem !! root) as [v0|]; [|done].
  pose proof (walk_render (String.length (render_rest l)) (root ++s render_rest l) l v0 Hl (le_n _)) as Hw.
  destruct (walk _ _ _ _); [by eauto|]. by intros ? [= <-].
Qed.

(** ** Substitution *)

(** A token as literal text and references. *)
Inductive piece := Lit (s : string) | Ref (path : string).

Definition render_piece (p : piece) : string :=
  match p with Lit s => s | Ref path => "${" ++s path ++s "}" end.
Definition piece_ok (p : piece) : Prop :=
  match p with Lit s => contains_byte "$" s = false | Ref path => contains_byte "}" path = false end.

Section substitution.
Context {F : GoFormat}.

(** The text a piece stands for. *)
Definition piece_value (getenv : string → string) (mem : memory) (p : piece) : result expand_err string :=
  match p with
  | Lit s => Ok s
  | Ref path => let! v := evalPath getenv mem path in Ok (stringify v)
  end.
Fixpoint pieces_value (getenv : string → string) (mem : memory) (l : list piece) : result expand_err string :=
  match l with
  | [] => Ok ""%string
  | p :: l' =>
      let! s := piece_value getenv mem p in
      let! out := pieces_value getenv mem l' in
      Ok (s ++s out)
  end.

Lemma expand_skip getenv mem tok a b :
  expand_loop getenv mem tok (String.length a) (a ++s b) = expand_loop getenv mem tok 0 b.
Proof.
  induction a as [|c a IH]; [by destruct b|]. cbn [String.length String.append expand_loop]. exact IH.
Qed.

Lemma expand_loop_ref getenv mem tok s :
  expand_loop getenv mem tok 0 (String "$" (String "{" s)) =
  match index_byte s "}" with
  | None => Err (XUnterminated tok)
  | Some fin =>
      let! val := evalPath getenv mem (take_str fin s) in
      let! out := expand_loop getenv mem tok (S fin) s in
      Ok (stringify val ++s out)
  end.
Proof. reflexivity. Qed.

Lemma expand_pieces getenv mem tok l :
  Forall piece_ok l →
  expand_loop getenv mem tok 0 (foldr (λ p s, render_piece p ++s s) ""%string l) = pieces_value getenv mem l.
Proof.
  induction 1 as [|p l Hp Hl IH]; [done|]. cbn [foldr pieces_value]. rewrite <-IH. clear IH.
  generalize (foldr (λ p s, render_piece p ++s s) ""%string l) as rest. intros rest.
  destruct p as [s|path]; cbn [render_piece piece_value res_bind]; simpl in Hp.
  - induction s as [|c s IHs]; [cbn [String.append]; by destruct (expand_loop _ _ _ _ rest)|].
    cbn [contains_byte] in Hp. apply orb_false_iff in Hp as [Hc Hp]. cbn [String.append expand_loop has_prefix].
    rewrite Hc. cbn [andb]. rewrite IHs by done. by destruct (expand_loop _ _ _ _ rest).
  - rewrite !sapp_assoc. cbn [String.append]. rewrite expand_loop_ref.
    rewrite (index_byte_app path "}" rest) by done. rewrite take_str_app.
    destruct (evalPath getenv mem path) as [v|e]; cbn [res_bind]; [|done].
    assert (expand_loop getenv mem tok (S (String.length path)) (path ++s String "}" rest)
      = expand_loop getenv mem tok 0 rest) as Hsk.
    { replace (path ++s String "}" rest) with ((path ++s "}") ++s rest) by (by rewrite sapp_assoc).
      replace (S (String.length path)) with (String.length (path ++s "}"))
        by (rewrite slength_app; simpl; lia).
      apply expand_skip. }
    by rewrite Hsk.
Qed.

(** Substitution is one pass and exact: a token made of literal text and
    references expands to the literals and the values, in order, each reference
    resolved once — the text of a value is never expanded again, whatever it
    contains — and fails with the first reference that does not resolve. *)
Theorem expandToken_pieces (getenv : string → string) (mem : memory) (l : list piece) :
  Forall piece_ok l →
  expandToken getenv mem (foldr (λ p s, render_piece p ++s s) ""%string l) = pieces_value getenv mem l.
Proof.
  intros Hl. unfold expandToken. set (tok := foldr _ _ l).
  destruct (contains_str tok "${") eqn:Ec; cbn [negb]; [by apply expand_pieces|].
  rewrite <-(expand_pieces getenv mem tok l Hl). fold tok.
  assert (∀ s t, contains_str s "${" = false → expand_loop getenv mem t 0 s = Ok s) as Hid; [|by rewrite Hid].
  clear. intros s t. induction s as [|c s IH]; [done|]. intros Hc.
  assert (has_prefix (String c s) "${" = false ∧ contains_str s "${" = false) as [Hp Hs].
  { unfold contains_str in *. cbn [index_str] in Hc. destruct (has_prefix (String c s) "${"); [done|].
    split; [done|]. destruct (index_str s "${"); [done|]. done. }
  cbn [expand_loop]. rewrite Hp. by rewrite IH.
Qed.
End substitution.

(** ** Witnesses *)

Definition toy_format : GoFormat := {| format_float_g := λ _, "f"%string; sprint_v := λ _, "v"%string |}.
#[local] Existing Instance toy_format.

Definition demo_mem : memory :=
  {[ "nodes"%string := AArr [AObj [("id"%string, AStr "0xab")]; AStr "${nodes}"] ]}.

Lemma evalPath_denotes_witness :
  render_path "nodes" [Index 0; Field "id"] = "nodes[0].id"%string ∧
  ∃ v, evalPath (λ _, ""%string) demo_mem (render_path "nodes" [Index 0; Field "id"]) = Ok v ∧ v = AStr "0xab".
Proof.
  split; [reflexivity|].
  assert (Forall accessor_ok [Index 0; Field "id"]) as Hl
    by (constructor; [split; vm_compute; discriminate|constructor; [reflexivity|constructor]]).
  assert ("nodes"%string ≠ "env"%string) as Hne by discriminate.
  pose proof (evalPath_denotes (λ _, ""%string) demo_mem "nodes" [Index 0; Field "id"] eq_refl Hne Hl) as Hp.
  destruct (evalPath (λ _, ""%string) demo_mem (render_path "nodes" [Index 0; Field "id"])) as [v|e] eqn:E;
    [|vm_compute in E; discriminate E].
  exists v. split; [reflexivity|]. destruct Hp as (v0 & Hv0 & Hv). vm_compute in Hv0. injection Hv0 as <-.
  vm_compute in Hv. injection Hv as <-. reflexivity.
Defined.

Lemma expandToken_pieces_witness :
  expandToken (λ _, ""%string) demo_mem "x=${nodes[1]}!" = Ok "x=${nodes}!"%string.
Proof.
  assert (Forall piece_ok [Lit "x="; Ref "nodes[1]"; Lit "!"]) as Hl by (repeat constructor).
  etransitivity; [apply (expandToken_pieces (λ _, ""%string) demo_mem [Lit "x="; Ref "nodes[1]"; Lit "!"] Hl)|].
  reflexivity.
Defined.
