(* ===== verification/RecipeRuntime.v ===== *)
(** * pkg/recipe/runtime.go: running a recipe

    The statement loop with its branch stack, the builtins and the dispatch of
    commands.  The world outside the runner (the in-process dispatcher, forked
    commands, standard input and error, the clock) is the class [Host]: an
    abstract state and what each call does to it.  The trace and failure lines
    printed to stderr are not modelled.  Then its standard input and the plan of
    a dry run. *)

From S2P Require Import Prelude GoStrings GoStringsFacts Strconv Hardware GoAny GoTime RecipeParser.
From S2P Require Import RecipeParserProofs RecipeExpand.
From Stdlib Require Import ZArith Lia ZifyBool Bool Ascii String SpecFloat.
From stdpp Require Import base option list gmap strings.

Open Scope go_scope.
Open Scope Z_scope.

Class Host := {
  world : Type;
  getenv : string → string;
  (* InProcessDispatcher(argv): handled, error *)
  dispatch : list string → world → bool * option string * world;
  (* os.Pipe() *)
  open_pipe : world → option string * world;
  (* the dispatcher with os.Stdout swapped for the pipe: what arrived in it too *)
  dispatch_capture : list string → world → bool * option string * string * world;
  (* exec.Command(self, argv...).Run() *)
  fork : list string → world → option string * world;
  fork_capture : list string → world → option string * string * world;
  read_stdin : bool → world → result string string * world;
  write_stderr : string → world → option string * world;
  sleep_for : duration → world → world;
  parse_duration : string → option duration;
  json_unmarshal : string → option any
}.

(** pkg/recipe/runtime.go:32-44 [Runtime part]: the configuration fields of [Runtime]; [rt_InProcess] is [useInProcess]. *)
Record runtime := mkRt { rt_KeepGoing : bool; rt_DryRun : bool; rt_Force : bool; rt_InProcess : bool }.

Inductive assert_err := AMissing | AOperator (op : string) | ATokens (n : nat).

Inductive stmt_err :=
  | SEmpty
  | SRecipe (verb : string)
  | SMarketInstall
  | SFuncMissing
  | SFunc (name : string)
  | SNotCapturable (kw : string)
  | SReadIsFunc
  | SSetRenamed
  | SRead (e : string)
  | SVarArgs (n : nat)
  | SVarName (name : string)
  | SVarEq (tok : string)
  | SSleepArgs (n : nat)
  | SSleepDuration (s : string)
  | SAssert (kw : string) (e : assert_err)
  | SAssertFailed (msg : string)
  | SCaptureJSON (name stdout : string)
  | SHost (msg : string).

Inductive run_err :=
  | RExpand (src : string) (line : Z) (e : expand_err)
  | RCondExpand (src : string) (line : Z) (c : control) (e : expand_err)
  | RCondAssert (src : string) (line : Z) (c : control) (e : assert_err)
  | RWithoutIf (src : string) (line : Z) (c : control)
  | RStatement (src : string) (line : Z) (cmdline : string) (e : stmt_err)
  | RFailures (l : list run_err).

Section runtime.
Context {U : GoUnicode} {F : GoFormat} {H : Host}.

(** Memory and the outside world. *)
Definition rstate : Type := memory * world.

(** ** require / assert *)

(** pkg/recipe/runtime.go:697-703 [isTruthy] *)
Definition isTruthy (s : string) : bool :=
  let t := to_lower (trim_space s) in
  negb ((t =s? "") || (t =s? "false") || (t =s? "0") || (t =s? "no") || (t =s? "off")
        || (t =s? "null") || (t =s? "nil")).

(** pkg/recipe/runtime.go:674-693 [evalAssertExpr] *)
Definition evalAssertExpr (expr : list string) : result assert_err bool :=
  match expr with
  | [] => Err AMissing
  | [x] => Ok (isTruthy x)
  | [a; op; b] =>
      if op =s? "==" then Ok (a =s? b)
      else if op =s? "!=" then Ok (negb (a =s? b))
      else Err (AOperator op)
  | _ => Err (ATokens (length expr))
  end.

(** pkg/recipe/runtime.go:655-668 [splitRequireMessage part]: the loop of [splitRequireMessage]; [before] are the tokens already passed. *)
Fixpoint split_message (before tokens : list string) : list string * string :=
  match tokens with
  | [] => (before, ""%string)
  | t :: rest =>
      if t =s? "," then
        match before with
        | [] => ([""%string], join_str " " rest)
        | _ => (before, join_str " " rest)
        end
      else if has_suffix t "," then (before ++ [trim_suffix t ","], join_str " " rest)
      else split_message (before ++ [t]) rest
  end.

(** pkg/recipe/runtime.go:654-669 [splitRequireMessage] *)
Definition splitRequireMessage (tokens : list string) : list string * string := split_message [] tokens.

(** pkg/recipe/runtime.go:629-643 [Runtime.execRequire] *)
Definition execRequire (argv : list string) (s : rstate) : option stmt_err * rstate :=
  let kw := default ""%string (head argv) in
  let '(expr, msg) := splitRequireMessage (tail argv) in
  match evalAssertExpr expr with
  | Err e => (Some (SAssert kw e), s)
  | Ok true => (None, s)
  | Ok false =>
      (Some (SAssertFailed (if msg =s? "" then kw ++s " failed: " ++s join_str " " expr else msg)), s)
  end.

(** ** The builtins *)

(** pkg/recipe/runtime.go:571-585 [Runtime.execVar] *)
Definition execVar (argv : list string) (s : rstate) : option stmt_err * rstate :=
  match argv with
  | _ :: name :: eq :: (_ :: _) as value =>
      if negb (isVarName name) then (Some (SVarName name), s)
      else if negb (eq =s? "=") then (Some (SVarEq eq), s)
      else (None, (<[name := AStr (join_str " " (drop 3 argv))]> s.1, s.2))
  | _ => (Some (SVarArgs (length argv - 1)), s)
  end.

(** pkg/recipe/runtime.go:590-593 [Runtime.execEcho] *)
Definition execEcho (argv : list string) (s : rstate) : option stmt_err * rstate :=
  let '(err, w) := write_stderr (join_str " " (tail argv) ++s str1 newline) s.2 in
  (SHost <$> err, (s.1, w)).

(** pkg/recipe/runtime.go:598-608 [Runtime.execSleep] *)
Definition execSleep (argv : list string) (s : rstate) : option stmt_err * rstate :=
  match argv with
  | [_; d] =>
      match parse_duration d with
      | None => (Some (SSleepDuration d), s)
      | Some d => (None, (s.1, sleep_for d s.2))
      end
  | _ => (Some (SSleepArgs (length argv - 1)), s)
  end.

(** pkg/recipe/runtime.go:506-526 [Runtime.execRead]: the prompt is written to
    stderr, its error ignored. *)
Definition execRead (st : Statement) (argv : list string) (s : rstate) : option stmt_err * rstate :=
  let secret := match argv with _ :: f :: _ => f =s? "-secret" | _ => false end in
  let prompt := join_str " " (drop (if secret then 2 else 1) argv) in
  let w := if negb (prompt =s? "") then (write_stderr prompt s.2).2 else s.2 in
  match read_stdin secret w with
  | (Err e, w) => (Some (SRead e), (s.1, w))
  | (Ok line, w) =>
      (None, (if negb (s_Capture st =s? "") then <[s_Capture st := AStr line]> s.1 else s.1, w))
  end.

(** pkg/recipe/runtime.go:472-489 [Runtime.storeCapture] *)
Definition storeCapture (st : Statement) (raw : string) (s : rstate) : option stmt_err * rstate :=
  let trimmed := trim_space raw in
  if trimmed =s? "" then (None, (<[s_Capture st := ANil]> s.1, s.2))
  else match json_unmarshal trimmed with
       | None => (Some (SCaptureJSON (s_Capture st) raw), s)
       | Some v => (None, (<[s_Capture st := v]> s.1, s.2))
       end.

(** pkg/recipe/runtime.go:445-468 [Runtime.captureInProcess]: os.Stdout is swapped,
    the pipe drained and closed, and os.Stdout restored around the dispatcher;
    what it wrote is returned whether or not it handled the command. *)
Definition captureInProcess (argv : list string) (w : world) : bool * option string * string * world :=
  match open_pipe w with
  | (Some perr, w) => (false, Some ("capture: create pipe: " ++s perr), ""%string, w)
  | (None, w) => dispatch_capture argv w
  end.

(** pkg/recipe/runtime.go:422-434 [Runtime.execCapture part]: capturing a forked
    command's output; the buffer already holds [stdout]. *)
Definition capture_fork (st : Statement) (argv : list string) (stdout : string) (s : rstate)
  : option stmt_err * rstate :=
  match fork_capture argv s.2 with
  | (Some e, _, w) => (Some (SHost e), (s.1, w))
  | (None, out, w) => storeCapture st (stdout ++s out) (s.1, w)
  end.

(** pkg/recipe/runtime.go:405-435 [Runtime.execCapture]: one buffer for both
    paths: what an in-process attempt wrote stays in front. *)
Definition execCapture (rt : runtime) (st : Statement) (argv : list string) (s : rstate)
  : option stmt_err * rstate :=
  if rt_InProcess rt then
    match captureInProcess argv s.2 with
    | (true, Some e, _, w) => (Some (SHost e), (s.1, w))
    | (true, None, stdout, w) => storeCapture st stdout (s.1, w)
    | (false, _, stdout, w) => capture_fork st argv stdout (s.1, w)
    end
  else capture_fork st argv "" s.

(** pkg/recipe/runtime.go:366-380 [Runtime.execStatement part]: a command that is not a builtin, without capture. *)
Definition run_command (rt : runtime) (argv : list string) (s : rstate) : option stmt_err * rstate :=
  let forked (w : world) := let '(err, w) := fork argv w in (SHost <$> err, (s.1, w)) in
  if rt_InProcess rt then
    match dispatch argv s.2 with
    | (true, err, w) => (SHost <$> err, (s.1, w))
    | (false, _, w) => forked w
    end
  else forked s.2.

(** pkg/recipe/runtime.go:280-381 [Runtime.execStatement] *)
Definition execStatement (rt : runtime) (st : Statement) (argv : list string) (s : rstate)
  : option stmt_err * rstate :=
  let captured := negb (s_Capture st =s? "") in
  match argv with
  | [] => (Some SEmpty, s)
  | cmd :: args =>
      if cmd =s? "recipe" then (Some (SRecipe (default ""%string (head args))), s)
      else if (cmd =s? "market") && match args with a :: _ => a =s? "install" | [] => false end
      then (Some SMarketInstall, s)
      else if cmd =s? "func" then
        match args with
        | [] => (Some SFuncMissing, s)
        | f :: _ => if f =s? "read" then execRead st args s else (Some (SFunc f), s)
        end
      else if cmd =s? "echo" then
        if captured then (Some (SNotCapturable "echo"), s) else execEcho argv s
      else if cmd =s? "sleep" then
        if captured then (Some (SNotCapturable "sleep"), s) else execSleep argv s
      else if cmd =s? "var" then
        if captured then (Some (SNotCapturable "var"), s) else execVar argv s
      else if (cmd =s? "require") || (cmd =s? "assert") then
        if captured then (Some (SNotCapturable cmd), s) else execRequire argv s
      else if cmd =s? "read" then (Some SReadIsFunc, s)
      else if cmd =s? "set" then (Some SSetRenamed, s)
      else if captured then execCapture rt st argv s
      else run_command rt argv s
  end.

(** ** Control flow *)

(** pkg/recipe/runtime.go:184-188 [condFrame] *)
Record condFrame := mkFrame { enclosingActive : bool; anyMatched : bool; branchActive : bool }.

(** pkg/recipe/runtime.go:191-196 [condActive]: the stack's top first. *)
Definition condActive (stack : list condFrame) : bool :=
  match stack with [] => true | f :: _ => branchActive f end.

(** pkg/recipe/runtime.go:249-259 [Runtime.evalCond] *)
Definition evalCond (st : Statement) (mem : memory) : result run_err bool :=
  match expandArgv getenv mem (s_Cond st) with
  | Err e => Err (RCondExpand (s_Src st) (s_Line st) (s_Control st) e)
  | Ok expanded =>
      match evalAssertExpr expanded with
      | Err e => Err (RCondAssert (s_Src st) (s_Line st) (s_Control st) e)
      | Ok b => Ok b
      end
  end.

(** pkg/recipe/runtime.go:199-244 [Runtime.applyControl]: the error and the
    stack, which an error may leave changed. *)
Definition applyControl (st : Statement) (mem : memory) (stack : list condFrame)
  : option run_err * list condFrame :=
  match s_Control st with
  | CNone => (None, stack)
  | CIf =>
      let enclosing := condActive stack in
      match (if enclosing then evalCond st mem else Ok false) with
      | Err e => (Some e, stack)
      | Ok matched => (None, mkFrame enclosing matched matched :: stack)
      end
  | CElseIf =>
      match stack with
      | [] => (Some (RWithoutIf (s_Src st) (s_Line st) CElseIf), stack)
      | f :: stack' =>
          if enclosingActive f && negb (anyMatched f) then
            match evalCond st mem with
            | Err e => (Some e, mkFrame (enclosingActive f) (anyMatched f) false :: stack')
            | Ok true => (None, mkFrame (enclosingActive f) true true :: stack')
            | Ok false => (None, mkFrame (enclosingActive f) (anyMatched f) false :: stack')
            end
          else (None, mkFrame (enclosingActive f) (anyMatched f) false :: stack')
      end
  | CElse =>
      match stack with
      | [] => (Some (RWithoutIf (s_Src st) (s_Line st) CElse), stack)
      | f :: stack' =>
          let active := enclosingActive f && negb (anyMatched f) in
          (None, mkFrame (enclosingActive f) (active || anyMatched f) active :: stack')
      end
  | CEnd =>
      match stack with
      | [] => (Some (RWithoutIf (s_Src st) (s_Line st) CEnd), stack)
      | _ :: stack' => (None, stack')
      end
  end.

(** pkg/recipe/runtime.go:68-75 [argvHasForce] *)
Definition argvHasForce (argv : list string) : bool :=
  existsb (λ a, (a =s? "-force") || (a =s? "--force")) argv.

(** pkg/recipe/runtime.go:136-138 [Runtime.Run part]: the -force propagation of [Run]. *)
Definition add_force (rt : runtime) (argv : list string) : list string :=
  match argv with
  | noun :: verb :: _ =>
      if rt_Force rt && (verb =s? "pull") && ((noun =s? "app") || (noun =s? "skill") || (noun =s? "model"))
         && negb (argvHasForce argv)
      then argv ++ ["-force"%string] else argv
  | _ => argv
  end.

(** pkg/recipe/runtime.go:612-617 [stmtSrc] *)
Definition stmtSrc (st : Statement) (rc_path : string) : string :=
  if negb (s_Src st =s? "") then s_Src st else rc_path.

(** pkg/recipe/runtime.go:123-162 [Runtime.Run part]: one command in an active context: expansion, -force, execution. *)
Definition run_stmt (rt : runtime) (rc_path : string) (st : Statement) (s : rstate)
  : option run_err * rstate :=
  match expandArgv getenv s.1 (s_Argv st) with
  | Err e => (Some (RExpand (stmtSrc st rc_path) (s_Line st) e), s)
  | Ok argv =>
      let argv := add_force rt argv in
      let prefix := if negb (s_Capture st =s? "") then s_Capture st ++s " := " else ""%string in
      match execStatement rt st argv s with
      | (Some e, s') =>
          (Some (RStatement (stmtSrc st rc_path) (s_Line st) (prefix ++s join_str " " argv) e), s')
      | (None, s') => (None, s')
      end
  end.

(** pkg/recipe/runtime.go:101-171 [Runtime.Run part]: the statement loop: the failures recorded so far, the branch stack, the
    state. *)
Fixpoint run_loop (rt : runtime) (rc_path : string) (stmts : list Statement) (failures : list run_err)
  (stack : list condFrame) (s : rstate) : option run_err * rstate :=
  match stmts with
  | [] => (match failures with [] => None | _ => Some (RFailures failures) end, s)
  | st :: stmts' =>
      if negb (bool_decide (s_Control st = CNone)) then
        match applyControl st s.1 stack with
        | (Some e, stack') =>
            if negb (rt_KeepGoing rt) then (Some e, s)
            else run_loop rt rc_path stmts' (failures ++ [e]) stack' s
        | (None, stack') => run_loop rt rc_path stmts' failures stack' s
        end
      else if negb (condActive stack) then run_loop rt rc_path stmts' failures stack s
      else
        match run_stmt rt rc_path st s with
        | (Some e, s') =>
            if negb (rt_KeepGoing rt) then (Some e, s')
            else run_loop rt rc_path stmts' (failures ++ [e]) stack s'
        | (None, s') => run_loop rt rc_path stmts' failures stack s'
        end
  end.

(** pkg/recipe/runtime.go:80-172 [Runtime.Run]: a dry run prints the plan and
    executes nothing. *)
Definition Run (rt : runtime) (rc : Recipe) (s : rstate) : option run_err * rstate :=
  if rt_DryRun rt then (None, s) else run_loop rt (rc_Path rc) (rc_Statements rc) [] [] s.

(** ** Structured evaluation *)

(** The meaning of a block-structured program: commands in order until the
    first error; of an IF the first branch whose condition holds, later
    conditions not evaluated. *)
Fixpoint eval (rt : runtime) (rc_path : string) (p : prog) (s : rstate) : option run_err * rstate :=
  match p with
  | PNil => (None, s)
  | PCmd st p' =>
      match run_stmt rt rc_path st s with
      | (Some e, s') => (Some e, s')
      | (None, s') => eval rt rc_path p' s'
      end
  | PIf st body a rest =>
      match
        (match evalCond st s.1 with
         | Err e => (Some e, s)
         | Ok true => eval rt rc_path body s
         | Ok false => eval_alts rt rc_path a s
         end)
      with
      | (Some e, s') => (Some e, s')
      | (None, s') => eval rt rc_path rest s'
      end
  end
with eval_alts (rt : runtime) (rc_path : string) (a : alts) (s : rstate) : option run_err * rstate :=
  match a with
  | AEnd _ => (None, s)
  | AElse _ body _ => eval rt rc_path body s
  | AElseIf st body a' =>
      match evalCond st s.1 with
      | Err e => (Some e, s)
      | Ok true => eval rt rc_path body s
      | Ok false => eval_alts rt rc_path a' s
      end
  end.

Lemma run_loop_control rt rc_path st l failures stack s :
  s_Control st ≠ CNone →
  run_loop rt rc_path (st :: l) failures stack s =
  match applyControl st s.1 stack with
  | (Some e, stack') =>
      if negb (rt_KeepGoing rt) then (Some e, s) else run_loop rt rc_path l (failures ++ [e]) stack' s
  | (None, stack') => run_loop rt rc_path l failures stack' s
  end.
Proof. intros Hc. cbn [run_loop]. by rewrite bool_decide_false. Qed.

(** A program in a context that is not taken changes nothing, not even the
    memory or the world, and evaluates no condition. *)
Lemma run_skip rt rc_path :
  (∀ p, marked p → ∀ l failures stack s, condActive stack = false →
     run_loop rt rc_path (flatten p ++ l) failures stack s = run_loop rt rc_path l failures stack s) ∧
  (∀ a, marked_alts a → ∀ l failures f stack s, enclosingActive f && negb (anyMatched f) = false →
     run_loop rt rc_path (flatten_alts a ++ l) failures (f :: stack) s = run_loop rt rc_path l failures stack s).
Proof.
  apply prog_alts_ind; simpl flatten; simpl flatten_alts; simpl marked; simpl marked_alts.
  - done.
  - intros st p IH [Hc Hp] l failures stack s Hs. cbn [app run_loop].
    rewrite bool_decide_true by done. rewrite Hs. by apply IH.
  - intros st body IHb a IHa rest IHr (Hc & Hb & Ha & Hr) l failures stack s Hs.
    cbn [app]. rewrite run_loop_control by (by rewrite Hc). unfold applyControl. rewrite Hc, Hs.
    rewrite <-!app_assoc, IHb, IHa, IHr by done. done.
  - intros st Hc l failures f stack s Hf. cbn [app].
    rewrite run_loop_control by (by rewrite Hc). unfold applyControl. by rewrite Hc.
  - intros st body IHb fin (Hc & Hb & Hfin) l failures f stack s Hf. cbn [app].
    rewrite run_loop_control by (by rewrite Hc). unfold applyControl. rewrite Hc, Hf.
    rewrite <-app_assoc, IHb by done. cbn [app].
    rewrite run_loop_control by (by rewrite Hfin). unfold applyControl. by rewrite Hfin.
  - intros st body IHb a IHa (Hc & Hb & Ha) l failures f stack s Hf. cbn [app].
    rewrite run_loop_control by (by rewrite Hc). unfold applyControl. rewrite Hc, Hf.
    rewrite <-app_assoc, IHb by done. by apply IHa.
Qed.

(** In a taken context the loop runs the program's structured meaning. *)
Lemma run_active rt rc_path :
  rt_KeepGoing rt = false →
  (∀ p, marked p → ∀ l stack s, condActive stack = true →
     run_loop rt rc_path (flatten p ++ l) [] stack s =
     match eval rt rc_path p s with
     | (Some e, s') => (Some e, s')
     | (None, s') => run_loop rt rc_path l [] stack s'
     end) ∧
  (∀ a, marked_alts a → ∀ l b stack s,
     run_loop rt rc_path (flatten_alts a ++ l) [] (mkFrame true false b :: stack) s =
     match eval_alts rt rc_path a s with
     | (Some e, s') => (Some e, s')
     | (None, s') => run_loop rt rc_path l [] stack s'
     end).
Proof.
  intros Hk. pose proof (run_skip rt rc_path) as [_ Hskip].
  apply prog_alts_ind; simpl flatten; simpl flatten_alts; simpl marked; simpl marked_alts.
  - done.
  - intros st p IH [Hc Hp] l stack s Hs. cbn [app run_loop eval].
    rewrite bool_decide_true by done. rewrite Hs. cbn [negb].
    destruct (run_stmt rt rc_path st s) as [[e|] s']; [by rewrite Hk|]. by apply IH.
  - intros st body IHb a IHa rest IHr (Hc & Hb & Ha & Hr) l stack s Hs. cbn [app eval].
    rewrite run_loop_control by (by rewrite Hc). unfold applyControl. rewrite Hc, Hs.
    destruct (evalCond st s.1) as [[|]|e]; [| |by rewrite Hk]; rewrite <-!app_assoc.
    + rewrite IHb by done. destruct (eval rt rc_path body s) as [[e|] s']; [done|].
      rewrite Hskip by done. by apply IHr.
    + rewrite (proj1 (run_skip rt rc_path)) by done. rewrite IHa by done.
      destruct (eval_alts rt rc_path a s) as [[e|] s']; [done|]. by apply IHr.
  - intros st Hc l b stack s. cbn [app eval_alts].
    rewrite run_loop_control by (by rewrite Hc). unfold applyControl. by rewrite Hc.
  - intros st body IHb fin (Hc & Hb & Hfin) l b stack s. cbn [app eval_alts].
    rewrite run_loop_control by (by rewrite Hc). unfold applyControl. rewrite Hc. cbn [enclosingActive anyMatched andb negb orb].
    rewrite <-app_assoc, IHb by done. destruct (eval rt rc_path body s) as [[e|] s']; [done|]. cbn [app].
    rewrite run_loop_control by (by rewrite Hfin). unfold applyControl. by rewrite Hfin.
  - intros st body IHb a IHa (Hc & Hb & Ha) l b stack s. cbn [app eval_alts].
    rewrite run_loop_control by (by rewrite Hc). unfold applyControl. rewrite Hc. cbn [enclosingActive anyMatched andb negb].
    destruct (evalCond st s.1) as [[|]|e]; [| |by rewrite Hk]; rewrite <-!app_assoc.
    + rewrite IHb by done. destruct (eval rt rc_path body s) as [[e|] s']; [done|]. by apply Hskip.
    + rewrite (proj1 (run_skip rt rc_path)) by done. by apply IHa.
Qed.

(** C7: The branch stack implements IF / ELSE IF / ELSE: running a
    block-structured recipe (as every parsed one is) is its structured
    evaluation — commands in order until the first error; of each block exactly
    the first branch whose condition holds; conditions after it and anything in
    a skipped branch, nested blocks included, neither evaluated nor executed. *)
Theorem run_is_structured (rt : runtime) (rc : Recipe) (p : prog) (s : rstate) :
  rt_KeepGoing rt = false → rt_DryRun rt = false → marked p → rc_Statements rc = flatten p →
  Run rt rc s = eval rt (rc_Path rc) p s.
Proof.
  intros Hk Hd Hm Hs. unfold Run. rewrite Hd, Hs, <-(app_nil_r (flatten p)).
  rewrite (proj1 (run_active rt (rc_Path rc) Hk) p Hm) by done.
  by destruct (eval rt (rc_Path rc) p s) as [[e|] s'].
Qed.

(** With KeepGoing a condition that cannot be evaluated does not skip its
    block: for IF <bad> BEGIN cmd END the error is recorded but no frame is
    pushed, so the guarded command runs anyway, and the END fails as unmatched. *)
Theorem keepgoing_failed_if_runs_body (rt : runtime) (rc : Recipe) (i c e : Statement) (s s' : rstate) err :
  rt_KeepGoing rt = true → rt_DryRun rt = false → rc_Statements rc = [i; c; e] →
  s_Control i = CIf → s_Control c = CNone → s_Control e = CEnd →
  evalCond i s.1 = Err err → run_stmt rt (rc_Path rc) c s = (None, s') →
  Run rt rc s = (Some (RFailures [err; RWithoutIf (s_Src e) (s_Line e) CEnd]), s').
Proof.
  intros Hk Hd Hrc Hi Hc He Herr Hrun. unfold Run. rewrite Hd, Hrc.
  rewrite run_loop_control by (by rewrite Hi). unfold applyControl at 1. rewrite Hi. cbn [condActive].
  rewrite Herr, Hk. cbn [negb run_loop]. rewrite (bool_decide_true _ Hc). cbn [negb condActive].
  rewrite Hrun. rewrite bool_decide_false by (by rewrite He). unfold applyControl. rewrite He. cbn [negb].
  by rewrite Hk.
Qed.

(** The chain-attack guards hold whatever was expanded: a statement whose
    first word expands to "recipe", or to "market install", is refused without
    touching the memory or the outside world, captured or not, in-process or
    forked. *)
Theorem install_guards (rt : runtime) (st : Statement) (argv : list string) (s : rstate) :
  (argv !! 0%nat = Some "recipe"%string ∨
   (argv !! 0%nat = Some "market"%string ∧ argv !! 1%nat = Some "install"%string)) →
  (execStatement rt st argv s).2 = s ∧ (execStatement rt st argv s).1 ≠ None.
Proof.
  unfold execStatement. destruct argv as [|cmd args]; [by intros [|[]]|].
  intros [[= ->]|[[= ->] Ha]]; [done|]. destruct args as [|a args]; [done|]. by injection Ha as ->.
Qed.
End runtime.

(** ** Witnesses *)

#[local] Existing Instances ascii_tables toy_format.

(** A world that logs the commands it runs. *)
Definition toy_host : Host := {|
  world := list (list string);
  getenv := λ _, ""%string;
  dispatch := λ argv w, (true, None, w ++ [argv]);
  open_pipe := λ w, (None, w);
  dispatch_capture := λ argv w, (true, None, ""%string, w ++ [argv]);
  fork := λ argv w, (None, w ++ [argv]);
  fork_capture := λ argv w, (None, ""%string, w ++ [argv]);
  read_stdin := λ _ w, (Ok ""%string, w);
  write_stderr := λ _ w, (None, w);
  sleep_for := λ _ w, w;
  parse_duration := λ _, None;
  json_unmarshal := λ _, None
|}.
#[local] Existing Instance toy_host.

Definition demo_stmt (l : Z) (argv : list string) : Statement := mkStmt l argv "" "r.ian" CNone [].
Definition demo_marker (l : Z) (c : control) (cond : list string) : Statement := mkStmt l [] "" "r.ian" c cond.
Definition demo_prog : prog :=
  PIf (demo_marker 1 CIf ["no"%string]) (PCmd (demo_stmt 2 ["docker"; "rm"]%string) PNil)
    (AElse (demo_marker 3 CElse []) (PCmd (demo_stmt 4 ["docker"; "ps"]%string) PNil) (demo_marker 5 CEnd []))
    (PCmd (demo_stmt 6 ["list"; "nodes"]%string) PNil).
Definition start : rstate := (∅, ([] : list (list string))).
Definition after_rm : rstate := (∅, ([["docker"; "rm"]] : list (list string))%string).
Definition demo_recipe (stmts : list Statement) : Recipe := mkRecipe "r.ian" "0.1.0" ∅ None stmts.

Lemma run_is_structured_witness :
  (Run (mkRt false false false true) (demo_recipe (flatten demo_prog)) start).2.2 =
  [["docker"; "ps"]; ["list"; "nodes"]]%string.
Proof.
  assert (marked demo_prog) as Hm by (repeat split).
  rewrite (run_is_structured (mkRt false false false true) (demo_recipe (flatten demo_prog)) demo_prog start
             eq_refl eq_refl Hm eq_refl).
  reflexivity.
Defined.

Lemma keepgoing_failed_if_runs_body_witness :
  let i := demo_marker 1 CIf ["${missing}"%string] in
  let c := demo_stmt 2 ["docker"; "rm"]%string in
  let e := demo_marker 3 CEnd [] in
  ∃ err, Run (mkRt true false false true) (demo_recipe [i; c; e]) start =
    (Some (RFailures [err; RWithoutIf "r.ian" 3 CEnd]), after_rm).
Proof.
  eexists.
  apply (keepgoing_failed_if_runs_body (mkRt true false false true)
           (demo_recipe [demo_marker 1 CIf ["${missing}"%string]; demo_stmt 2 ["docker"; "rm"]%string;
                         demo_marker 3 CEnd []])
           (demo_marker 1 CIf ["${missing}"%string]) (demo_stmt 2 ["docker"; "rm"]%string) (demo_marker 3 CEnd [])
           start after_rm); reflexivity.
Defined.

Lemma install_guards_witness :
  (execStatement (mkRt false false true true) (demo_stmt 1 []) ["market"; "install"; "x"]%string start).2 = start ∧
  (execStatement (mkRt false false true true) (demo_stmt 1 []) ["market"; "install"; "x"]%string start).1 ≠ None.
Proof.
  apply (install_guards (mkRt false false true true) (demo_stmt 1 []) ["market"; "install"; "x"]%string start).
  right. split; reflexivity.
Defined.

(** * pkg/recipe/runtime.go: standard input and the plan

    [func read] takes its lines from a buffered reader the runtime keeps between
    statements; the operating system hands the input over in chunks of its own
    choosing.  The theorems: the lines read are the lines of the whole input
    whatever the chunks, and what the reader has read ahead is not there for a
    command forked afterwards.  The plan of a dry run has a line per statement. *)

Close Scope Z_scope.

(** ** The plan *)

(** pkg/recipe/runtime.go:262-274 [controlRepr] *)
Definition controlRepr (st : Statement) : string :=
  match s_Control st with
  | CIf => "IF " ++s join_str " " (s_Cond st) ++s " BEGIN"
  | CElseIf => "ELSE IF " ++s join_str " " (s_Cond st) ++s " BEGIN"
  | CElse => "ELSE BEGIN"
  | CEnd => "END"
  | CNone => ""
  end.

(** pkg/recipe/runtime.go:85-99 [Runtime.Run part]: the plan of a dry run. *)
Definition plan_line (n i : nat) (st : Statement) : string :=
  "  [" ++s format_int (Z.of_nat (S i)) ++s "/" ++s format_int (Z.of_nat n) ++s "] " ++s
  match s_Control st with
  | CNone => (if s_Capture st =s? "" then "" else s_Capture st ++s " := ") ++s join_str " " (s_Argv st)
  | _ => controlRepr st
  end.
Definition dry_run_plan (stmts : list Statement) : list string :=
  "[plan]"%string :: imap (plan_line (length stmts)) stmts.

Lemma plan_covers stmts : length (dry_run_plan stmts) = S (length stmts).
Proof. unfold dry_run_plan. cbn [length]. by rewrite length_imap. Qed.

(** ** Standard input *)

(** What the reader has buffered and what the operating system still holds, in
    the chunks its reads will return. *)
Record stdin := mkStdin { in_buf : string; in_os : list string }.

(** [bufio.Reader.ReadString]: up to the newline, or all there is. *)
Fixpoint read_string (buf : string) (os : list string) : string * stdin :=
  match index_byte buf newline with
  | Some i => (take_str (S i) buf, mkStdin (drop_str (S i) buf) os)
  | None => match os with
            | [] => (buf, mkStdin "" [])
            | c :: os => read_string (buf ++s c) os
            end
  end.

Definition is_crlf (c : ascii) : bool := (c =c? ch 13) || (c =c? newline).

(** pkg/recipe/runtime.go:533-553 [Runtime.readStdinLine]: [password] is what
    the terminal answers when the input is one and the read is secret. *)
Definition readStdinLine (secret : bool) (password : option (result string string)) (s : stdin)
  : result string string * stdin :=
  match secret, password with
  | true, Some r => (r, s)
  | _, _ => let '(line, s) := read_string (in_buf s) (in_os s) in (Ok (trim_right_pred is_crlf line), s)
  end.

(** The input a forked command finds: the reader's buffer is not part of it. *)
Definition child_stdin (s : stdin) : string := join_str "" (in_os s).

(** ** The lines *)

Definition whole (s : stdin) : string := in_buf s ++s join_str "" (in_os s).

Lemma take_line a b : take_str (S (String.length a)) (a ++s String newline b) = a ++s str1 newline.
Proof.
  rewrite <-(take_str_app (a ++s str1 newline) b), sapp_assoc, slength_app. by rewrite Nat.add_1_r.
Qed.

Lemma join_cons c (l : list string) : join_str "" (c :: l) = c ++s join_str "" l.
Proof. destruct l; [by rewrite sapp_nil_r|done]. Qed.

(** One read takes the whole input's first line, wherever the chunks end. *)
Lemma read_string_whole buf os line s :
  read_string buf os = (line, s) →
  let '(a, b, ok) := cut_byte newline (buf ++s join_str "" os) in
  line = (if ok then a ++s str1 newline else a) ∧ whole s = b.
Proof.
  revert buf. induction os as [|c os IH]; intros buf; cbn [read_string];
    destruct (index_byte buf newline) as [i|] eqn:Ei.
  - destruct (index_byte_Some _ _ _ Ei) as (a & b & -> & <- & Ha). rewrite take_line, drop_str_S_app. intros [= <- <-].
    change (join_str "" []) with ""%string. rewrite sapp_nil_r, cut_byte_app by done.
    split; [done|apply sapp_nil_r].
  - intros [= <- <-]. cbn [join_str]. rewrite sapp_nil_r. unfold cut_byte. by rewrite Ei.
  - destruct (index_byte_Some _ _ _ Ei) as (a & b & -> & <- & Ha). rewrite take_line, drop_str_S_app. intros [= <- <-].
    rewrite sapp_assoc. cbn [String.append]. by rewrite cut_byte_app.
  - intros H. rewrite join_cons, <-sapp_assoc. by apply IH.
Qed.

Lemma trim_line a : trim_right_pred is_crlf (a ++s str1 newline) = trim_right_pred is_crlf a.
Proof. unfold trim_right_pred. rewrite srev_app_distr. reflexivity. Qed.

Lemma read_line_whole s :
  let '(a, b, _) := cut_byte newline (whole s) in
  (readStdinLine false None s).1 = Ok (trim_right_pred is_crlf a) ∧ whole (readStdinLine false None s).2 = b.
Proof.
  unfold readStdinLine. destruct (read_string (in_buf s) (in_os s)) as [line s'] eqn:E.
  apply read_string_whole in E. change (in_buf s ++s _) with (whole s) in E.
  destruct (cut_byte newline (whole s)) as [[a b] ok]. destruct E as [-> H]. cbn [fst snd].
  split; [|done]. destruct ok; [by rewrite trim_line|done].
Qed.

(** Reading [n] times. *)
Fixpoint read_lines (n : nat) (s : stdin) : list (result string string) :=
  match n with
  | 0 => []
  | S n => let '(r, s) := readStdinLine false None s in r :: read_lines n s
  end.

Lemma take_padded {A} (x : A) n l : take n (l ++ replicate (S n) x) = take n (l ++ replicate n x).
Proof.
  rewrite !firstn_app. f_equal. change (take (n - length l) (replicate (S n) x) = take (n - length l) (replicate n x)).
  rewrite !take_replicate. f_equal. lia.
Qed.

(** The reads return the lines of the whole input in order, without their line
    ends, and blank lines without an error once it is used up: how the operating
    system cuts the input into chunks does not show. *)
Theorem reads_are_lines n s :
  read_lines n s =
  map (λ l, Ok (trim_right_pred is_crlf l)) (take n (split_byte newline (whole s) ++ replicate n ""%string)).
Proof.
  revert s. induction n as [|n IH]; intros s; [done|]. cbn [read_lines].
  pose proof (read_line_whole s) as Hr. destruct (readStdinLine false None s) as [r s']. cbn [fst snd] in Hr.
  rewrite IH. clear IH. destruct (cut_byte newline (whole s)) as [[a b] ok] eqn:Ec. destruct Hr as [-> ->].
  destruct ok.
  - apply cut_byte_true in Ec as [-> Ha]. rewrite split_byte_app by done.
    change (take (S n) ((a :: ?l) ++ ?m)) with (a :: take n (l ++ m)). cbn [app take map]. f_equal. by rewrite take_padded.
  - unfold cut_byte in Ec. destruct (index_byte (whole s) newline) eqn:Ei; [done|].
    injection Ec as <- <-. apply index_byte_None in Ei. rewrite (split_byte_plain _ (whole s)) by done.
    cbn [app take map split_byte]. done.
Qed.

(** A command forked after a read does not find the rest of the chunk the read
    took: it stays in the runner's buffer. *)
Theorem forked_command_misses_input a b os :
  contains_byte newline a = false →
  let '(r, s) := readStdinLine false None (mkStdin "" ((a ++s String newline b) :: os)) in
  r = Ok (trim_right_pred is_crlf a) ∧ child_stdin s = join_str "" os ∧ in_buf s = b.
Proof.
  intros Ha. unfold readStdinLine. cbn [in_buf in_os read_string index_byte String.append].
  assert (read_string (a ++s String newline b) os = (a ++s str1 newline, mkStdin b os)) as ->.
  { unfold read_string. destruct os; by rewrite index_byte_app, take_line, drop_str_S_app. }
  by rewrite trim_line.
Qed.

Example answers :
  read_lines 4 (mkStdin "" ["ye"; "s" ++s String (ch 13) (str1 newline) ++s "no"; "pe"]%string)
  = [Ok "yes"; Ok "nope"; Ok ""; Ok ""]%string.
Proof. vm_compute. reflexivity. Qed.
