(* ===== verification/MarketServer.v ===== *)
(** * pkg/market: the HTTP server

    Signature verification with its nonce cache, the metadata derived from the
    uploaded recipe, and the handlers.  They are written against the [Store]
    interface and over any type of computations that can call it and spend
    nonces ([ServerM]): as functions of the nonces, the tables and a schedule of
    statement failures ([Hn]), or as programs whose steps interleave with other
    requests' ([MarketServerConc]).  A handler ends in a reply; store errors are
    values it inspects.  JSON decoding of request bodies is the class [MarketJSON]; HTTP
    itself (routing by the mux, header canonicalisation, CORS) is outside. *)

From S2P Require Import Prelude GoStrings GoStringsFacts Strconv Hardware GoTime Auth Tunnel.
From S2P Require Import MarketStore MarketApi RecipeParser.
From Stdlib Require Import ZArith Lia ZifyBool Bool Ascii String SpecFloat.
From stdpp Require Import base option list gmap strings.

Open Scope go_scope.
Open Scope Z_scope.

(** ** Data *)

(** pkg/market/config.go:34-45 [Config part]: the fields the handlers read. *)
Record market_config := mkMC { mc_ReplayWinS : Z; mc_DevInsecureSkipAuth : bool }.

(** pkg/market/config.go:73-75 [Config.applyDefaults part]: the replay window. *)
Definition default_window (win : Z) : Z := if win <=? 0 then 300 else win.

(** pkg/market/models.go:17-21 [ValidTypes] *)
Definition ValidTypes (t : string) : bool :=
  existsb (λ x, x =s? t) ["preset"; "skill"; "profile"; "recipe"; "app"; "model"; "mesh"; "package"]%string.

(** A request: the body as read under the handler's limit, with whether reading
    failed. *)
Record http_request := mkHReq {
  h_method : string; h_path : string; h_uri : string; h_header : string → string;
  h_query : string → string; h_body : string; h_body_err : bool
}.

(** pkg/market/server.go:324-328 [Server.handlePrice part]: the struct decoded from a price body. *)
Record price_body := mkPB { pb_Price : string; pb_Token : string; pb_Free : bool }.

(** [json.Unmarshal] into the handlers' structs; [None] is an error. *)
Class MarketJSON := {
  json_push : string → option string;
  json_visibility : string → option string;
  json_price : string → option price_body;
  json_meta : string → option (option string * option string);
  json_string_array : string → option (list string);
  json_string : string → option string
}.

(** What is written: an error with its status and detail, or a body. *)
Inductive reply :=
  | RErr (status : Z) (code : string)
  | RBadRecipe (e : recipe_err)
  | RNone
  | RItems (items : list Asset) (page limit total : Z)
  | RMeta (a : Asset) (versions : list Version)
  | RVersions (versions : list Version)
  | RBody (body sha : string)
  | RCreated (a : option Asset)
  | RAsset (a : Asset)
  | RStatus (status : string).

(** ** Metadata from the recipe *)

(** pkg/market/recipe_app_validate.go:64-81 [validatePlatformList] *)
Definition validatePlatformList (l : string) : bool :=
  (fix go (items seen : list string) : bool :=
     match items with
     | [] => true
     | item :: items' =>
         let item := trim_space item in
         if item =s? "" then go items' seen
         else
           let '(os, arch, ok) := cut_byte "/" item in
           if negb ok || (os =s? "") || (arch =s? "") then false
           else if existsb (String.eqb item) seen then false
           else go items' (item :: seen)
     end) (split_byte "," l) [].

(** pkg/market/recipe_app_validate.go:31-45 [ValidateAppRecipe part]: the switch over the fields after "app pull": the url and the platforms. *)
Fixpoint scan_pull (skip : nat) (fs : list string) (url platforms : string) : string * string :=
  match fs with
  | [] => (url, platforms)
  | f :: fs' =>
      match skip with
      | S k => scan_pull k fs' url platforms
      | O =>
          match fs' with
          | v :: _ =>
              if f =s? "--platforms" then scan_pull 1 fs' url v
              else if (f =s? "--name") || (f =s? "--sha256") then scan_pull 1 fs' url platforms
              else if negb (has_prefix f "-") && (url =s? "") then scan_pull 0 fs' f platforms
              else scan_pull 0 fs' url platforms
          | [] =>
              if negb (has_prefix f "-") && (url =s? "") then (f, platforms) else (url, platforms)
          end
      end
  end.

(** pkg/market/recipe_app_validate.go:26-57 [ValidateAppRecipe part]: one line of the scan. *)
Definition app_line_ok (raw : string) : bool :=
  let line := trim_space (trim_suffix (trim_space raw) ";") in
  if negb (has_prefix line "app pull") then true
  else
    let '(url, platforms) := scan_pull 0 (drop 2 (fields line)) "" "" in
    let hasTokens := contains_str url "{os}" && contains_str url "{arch}" in
    if hasTokens && (platforms =s? "") then false
    else if negb (platforms =s? "") then
      if negb hasTokens then false else validatePlatformList platforms
    else true.

(** pkg/market/recipe_app_validate.go:24-60 [ValidateAppRecipe] *)
Definition ValidateAppRecipe (body : string) : bool :=
  forallb app_line_ok (split_byte newline body).

Inductive meta_err := MRecipe (e : recipe_err) | MNoName | MNoVersion.

(** pkg/market/server.go:534-543 [queryInt] *)
Definition queryInt (s : string) (def : Z) : Z :=
  if s =s? "" then def else match atoi s with (n, None) => n | _ => def end.

(** pkg/market/server.go:545-550 [clampLimit] *)
Definition clampLimit (n : Z) : Z := if (n <=? 0) || (100 <? n) then 20 else n.

(** ** Nonces *)

(** The nonceCache of auth_write.go: nonce to unix expiry. *)
Abbreviation nonceCache := (gmap string Z).

(** pkg/market/auth_write.go:35-49 [nonceCache.useOnce] *)
Definition useOnce (c : nonceCache) (nonce : string) (expiry nowUnix : Z) : bool * nonceCache :=
  let seen := filter (λ kv, nowUnix ≤ kv.2) c in
  match seen !! nonce with
  | Some _ => (false, seen)
  | None => (true, <[nonce := expiry]> seen)
  end.

(** ** Handlers *)

(** What the handlers are written over: a type [T] of store computations, those
    of the [Store] they hold, and a type [F] of handler computations that calls
    the store, spends nonces and goes on. *)
Class ServerM (T F : Type → Type) := {
  sret {A : Type} : A → F A;
  sbind {A B : Type} : F A → (A → F B) → F B;
  sstore {A : Type} : T A → F (result store_err A);
  suse_once : string → Z → Z → F bool
}.

Section server.
Context {U : GoUnicode} {S256 : Sha256} {E : EthCrypto} {J : MarketJSON}
  {PF : ParseFloat} {PO : PathOps}.
Context {T F : Type → Type} {St : Store T} {SM : ServerM T F}.
#[local] Notation "'let~' x := m 'in' k" := (sbind (T:=T) (F:=F) m (λ x, k))
  (at level 10, x pattern, m at level 100, k at level 200,
   format "'let~'  x  :=  m  'in' '//' k") : go_scope.

(** pkg/market/recipe_meta.go:21-54 [ParseRecipeMeta]: the recipe is parsed with
    its includes read from the server's files [fs]. *)
Definition ParseRecipeMeta (fs : gmap string string) (body : string) : result meta_err AssetMeta :=
  match Parse fs "install.ian" body with
  | Err e => Err (MRecipe e)
  | Ok rc =>
      let get k := default ""%string (rc_Meta rc !! k) in
      let summary := if negb (get "summary"%string =s? "") then get "summary"%string
                     else get "description"%string in
      let tags := if negb (get "tags"%string =s? "")
                  then filter (λ t, t ≠ ""%string) (map trim_space (split_byte "," (get "tags"%string)))
                  else [] in
      let m := mkMeta (get "name"%string) (get "author"%string) (get "version"%string) summary
                 (get "license"%string) (rc_MinIsannVersion rc) tags in
      if am_Name m =s? "" then Err MNoName
      else if am_Version m =s? "" then Err MNoVersion
      else Ok m
  end.

(** pkg/market/auth_write.go:54-97 [Server.verifyWrite]: the signer, or the
    error written. *)
Definition verifyWrite (cfg : market_config) (now : Z) (r : http_request) (body target : string)
  : F (result reply string) :=
  let fail := sret (Err (RErr 401 "unauthorized")) in
  if mc_DevInsecureSkipAuth cfg then sret (Ok (to_lower target))
  else
    let authHeader := h_header r "Authorization" in
    if negb (has_prefix authHeader "ISANN ") then fail
    else
      let sig := trim_space (trim_prefix authHeader "ISANN ") in
      let nonce := h_header r "X-ISANN-Nonce" in
      let tsStr := h_header r "X-ISANN-Timestamp" in
      if (nonce =s? "") || (tsStr =s? "") then fail
      else
        match parse_int tsStr with
        | (_, Some _) => fail
        | (ts, None) =>
            let win := mc_ReplayWinS cfg in
            if (ts <? wrap_i64 (now - win)) || (wrap_i64 (now + win) <? ts) then fail
            else
              let canonical := BuildCanonical (h_method r) (h_uri r) (hex_encode (sha256 body))
                                 (to_lower target) nonce tsStr in
              match RecoverAddress canonical sig with
              | Err _ => fail
              | Ok addr =>
                  let~ fresh := suse_once nonce (wrap_i64 (ts + win)) now in
                  if negb fresh then fail else sret (Ok (to_lower addr))
              end
        end.

(** pkg/market/server.go:457-467 [Server.verifyWriteAuthor] *)
Definition verifyWriteAuthor (cfg : market_config) (now : Z) (r : http_request) (body author : string)
  : F (result reply string) :=
  let~ res := verifyWrite cfg now r body author in
  match res with
  | Err e => sret (Err e)
  | Ok signer =>
      if signer =s? "" then sret (Err RNone)
      else if negb (signer =s? author) then sret (Err (RErr 401 "unauthorized"))
      else sret (Ok signer)
  end.

(** pkg/market/server.go:471-480 [Server.privateReadOK]: on failure the caller
    answers 404. *)
Definition privateReadOK (cfg : market_config) (now : Z) (r : http_request) (author : string) : F bool :=
  let~ res := verifyWrite cfg now r "" author in
  match res with
  | Ok signer => sret (signer =s? author)
  | Err _ => sret (("" =s? author))
  end.

Definition not_found : reply := RErr 404 "not_found".
Definition internal : reply := RErr 500 "internal".

(** pkg/market/server.go:72-100 [Server.handleAssetsList] *)
Definition handleAssetsList (r : http_request) : F reply :=
  if negb (h_method r =s? "GET") then sret (RErr 405 "method_not_allowed")
  else
    let q := h_query r in
    let paid := if negb (q "paid"%string =s? "")
                then Some ((q "paid"%string =s? "true") || (q "paid"%string =s? "1")) else None in
    let f := mkFilter (q "type"%string) (q "author"%string) (q "q"%string) paid (q "sort"%string)
               (queryInt (q "page"%string) 1) (queryInt (q "limit"%string) 20) in
    if negb (lf_Type f =s? "") && negb (ValidTypes (lf_Type f)) then sret (RErr 400 "bad_request")
    else
      let~ res := sstore (st_ListAssets f) in
      match res with
      | Err _ => sret internal
      | Ok (items, total) => sret (RItems items (lf_Page f) (clampLimit (lf_Limit f)) total)
      end.

(** pkg/market/server.go:178-197 [Server.handleGetMeta] *)
Definition handleGetMeta (cfg : market_config) (now : Z) (r : http_request) (typ author name : string)
  : F reply :=
  let~ res := sstore (st_GetAsset typ author name (h_query r "version"%string)) in
  match res with
  | Err _ => sret internal
  | Ok None => sret not_found
  | Ok (Some (a, versions)) =>
      if a_Visibility a =s? "private" then
        let~ ok := privateReadOK cfg now r author in
        if ok then sret (RMeta a versions) else sret not_found
      else sret (RMeta a versions)
  end.

(** pkg/market/server.go:199-210 [Server.handleVersions] *)
Definition handleVersions (typ author name : string) : F reply :=
  let~ res := sstore (st_ListVersions typ author name) in
  match res with
  | Err _ => sret internal
  | Ok [] => sret not_found
  | Ok versions => sret (RVersions versions)
  end.

(** pkg/market/server.go:214-233 [Server.handleInstall] *)
Definition handleInstall (cfg : market_config) (now : Z) (r : http_request) (typ author name : string)
  : F reply :=
  let~ res := sstore (st_GetRecipe typ author name (h_query r "version"%string)) in
  match res with
  | Err _ => sret internal
  | Ok None => sret not_found
  | Ok (Some (body, sha, visibility)) =>
      let serve := let~ _ := sstore (st_IncrDownloads typ author name) in sret (RBody body sha) in
      if visibility =s? "private" then
        let~ ok := privateReadOK cfg now r author in
        if ok then serve else sret not_found
      else serve
  end.

(** pkg/market/server.go:237-295 [Server.handlePush] *)
Definition handlePush (cfg : market_config) (fs : gmap string string) (now : Z)
  (r : http_request) (typ author name : string) : F reply :=
  if h_body_err r then sret (RErr 400 "bad_request")
  else
    let body := h_body r in
    let~ res := verifyWrite cfg now r body author in
    match res with
    | Err e => sret e
    | Ok signer =>
        if signer =s? "" then sret RNone
        else if negb (signer =s? author) then sret (RErr 401 "unauthorized")
        else
          match json_push body with
          | None => sret (RErr 400 "bad_request")
          | Some recipe =>
              if recipe =s? "" then sret (RErr 400 "bad_request")
              else
                match ParseRecipeMeta fs recipe with
                | Err (MRecipe e) => sret (RBadRecipe e)
                | Err _ => sret (RErr 400 "bad_request")
                | Ok meta =>
                    if negb (am_Name meta =s? name) then sret (RErr 400 "bad_request")
                    else if negb (am_Author meta =s? "") && negb (equal_fold (am_Author meta) author)
                    then sret (RErr 400 "bad_request")
                    else if (typ =s? "app") && negb (ValidateAppRecipe recipe)
                    then sret (RErr 400 "bad_request")
                    else
                      let inp := mkPush typ author meta recipe (hex_encode (sha256 recipe)) in
                      let~ res := sstore (st_PutAsset inp) in
                      match res with
                      | Err ErrVersionExists => sret (RErr 409 "version_exists")
                      | Err _ => sret internal
                      | Ok a => sret (RCreated a)
                      end
                end
          end
    end.

(** pkg/market/server.go:484-503 [Server.writeMutation] *)
Definition writeMutation (typ author name : string) (res : result store_err bool) : F reply :=
  match res with
  | Err ErrNotFound => sret not_found
  | Err _ => sret internal
  | Ok false => sret (RStatus "skip")
  | Ok true =>
      let~ a := sstore (st_GetAsset typ author name "") in
      match a with
      | Ok (Some (a, _)) => sret (RAsset a)
      | _ => sret (RStatus "ok")
      end
  end.

(** The gate every mutation but the push starts with. *)
Definition gated (cfg : market_config) (now : Z) (r : http_request) (body author : string) (k : F reply)
  : F reply :=
  let~ res := verifyWriteAuthor cfg now r body author in
  match res with Err e => sret e | Ok _ => k end.

(** pkg/market/server.go:298-312 [Server.handleVisibility] *)
Definition handleVisibility (cfg : market_config) (now : Z) (r : http_request)
  (typ author name : string) : F reply :=
  gated cfg now r (h_body r) author
    match json_visibility (h_body r) with
    | None => sret (RErr 400 "bad_request")
    | Some v =>
        if negb (v =s? "public") && negb (v =s? "private") then sret (RErr 400 "bad_request")
        else
          let~ res := sstore (st_SetVisibility typ author name v) in
          writeMutation typ author name res
    end.

(** pkg/market/server.go:315-351 [Server.handlePrice] *)
Definition handlePrice (cfg : market_config) (now : Z) (r : http_request)
  (typ author name : string) : F reply :=
  let set price token :=
    let~ res := sstore (st_SetPrice typ author name price token) in
    writeMutation typ author name res in
  gated cfg now r (h_body r) author
    match json_price (h_body r) with
    | None => sret (RErr 400 "bad_request")
    | Some req =>
        if pb_Free req || (pb_Price req =s? "0") then set "0"%string None
        else if negb (pb_Price req =s? "") then
          if pb_Token req =s? "" then sret (RErr 400 "bad_request")
          else set (pb_Price req) (Some (pb_Token req))
        else sret (RErr 400 "bad_request")
    end.

(** pkg/market/server.go:385-401 [normalizeTags] *)
Definition normalizeTags (raw : string) : string :=
  let join arr := join_str "," (filter (λ t, t ≠ ""%string) (map trim_space arr)) in
  match json_string_array raw with
  | Some arr => join arr
  | None => match json_string raw with
            | None => ""%string
            | Some s => join (split_byte "," s)
            end
  end.

(** pkg/market/server.go:355-381 [Server.handleMeta] *)
Definition handleMeta (cfg : market_config) (now : Z) (r : http_request)
  (typ author name : string) : F reply :=
  gated cfg now r (h_body r) author
    match json_meta (h_body r) with
    | None => sret (RErr 400 "bad_request")
    | Some (tags, summary) =>
        let tags := normalizeTags <$> tags in
        match tags, summary with
        | None, None => sret (RErr 400 "bad_request")
        | _, _ =>
            let~ res := sstore (st_SetMeta typ author name tags summary) in
            writeMutation typ author name res
        end
    end.

(** pkg/market/server.go:404-418 [Server.handleUnpush] *)
Definition handleUnpush (cfg : market_config) (now : Z) (r : http_request) (typ author name : string)
  : F reply :=
  gated cfg now r "" author
    (let~ res := sstore (st_DeleteAsset typ author name) in
     match res with
     | Err _ => sret internal
     | Ok false => sret (RStatus "skip")
     | Ok true => sret (RStatus "deleted")
     end).

(** pkg/market/server.go:421-446 [Server.handleMine] *)
Definition handleMine (cfg : market_config) (now : Z) (r : http_request) : F reply :=
  if negb (h_method r =s? "GET") then sret (RErr 405 "method_not_allowed")
  else
    let~ res := verifyWrite cfg now r "" "mine" in
    match res with
    | Err e => sret e
    | Ok signer =>
        if signer =s? "" then sret RNone
        else
          let signer := if mc_DevInsecureSkipAuth cfg && negb (h_query r "author"%string =s? "")
                        then to_lower (h_query r "author"%string) else signer in
          let f := mkFilter (h_query r "type"%string) "" "" None ""
                     (queryInt (h_query r "page"%string) 1) (queryInt (h_query r "limit"%string) 20) in
          let~ res := sstore (st_ListMine signer f) in
          match res with
          | Err _ => sret internal
          | Ok (items, total) => sret (RItems items (lf_Page f) (clampLimit (lf_Limit f)) total)
          end
    end.

(** pkg/market/server.go:134-173 [Server.handleAssetsPath part]: the dispatch on the subresource and method of one asset. *)
Definition handleAsset (cfg : market_config) (fs : gmap string string) (now : Z)
  (r : http_request) (typ author name sub : string) : F reply :=
  let m := h_method r in
  let not_allowed := sret (RErr 405 "method_not_allowed") in
  if sub =s? "" then
    if m =s? "GET" then handleGetMeta cfg now r typ author name
    else if m =s? "POST" then handlePush cfg fs now r typ author name
    else if m =s? "PATCH" then handleVisibility cfg now r typ author name
    else if m =s? "DELETE" then handleUnpush cfg now r typ author name
    else not_allowed
  else if sub =s? "versions" then
    if negb (m =s? "GET") then not_allowed else handleVersions typ author name
  else if sub =s? "install" then
    if negb (m =s? "GET") then not_allowed else handleInstall cfg now r typ author name
  else if sub =s? "price" then
    if negb (m =s? "PATCH") then not_allowed else handlePrice cfg now r typ author name
  else if sub =s? "meta" then
    if negb (m =s? "PATCH") then not_allowed else handleMeta cfg now r typ author name
  else sret not_found.

(** pkg/market/server.go:104-175 [Server.handleAssetsPath] *)
Definition handleAssetsPath (cfg : market_config) (fs : gmap string string) (now : Z)
  (r : http_request) : F reply :=
  let rest := trim_pred (λ c, (c =c? "/")%char) (trim_prefix (h_path r) "/v1/assets/") in
  if rest =s? "" then sret not_found
  else
    match split_byte "/" rest with
    | [s0] => if s0 =s? "mine" then handleMine cfg now r else sret not_found
    | typ :: author :: name :: subs =>
        match subs with
        | _ :: _ :: _ => sret not_found
        | _ =>
            if negb (ValidTypes typ) then sret (RErr 400 "bad_request")
            else handleAsset cfg fs now r typ (to_lower author) name (default ""%string (head subs))
        end
    | _ => sret not_found
    end.

(** pkg/market/server.go:58-68 [Server.routes part]: the mux: the list, an asset path, the payload stub. *)
Definition serve (cfg : market_config) (fs : gmap string string) (now : Z)
  (r : http_request) : F reply :=
  if h_path r =s? "/v1/assets" then handleAssetsList r
  else if has_prefix (h_path r) "/v1/assets/" then handleAssetsPath cfg fs now r
  else if has_prefix (h_path r) "/v1/blob/" then sret (RErr 501 "not_implemented")
  else sret not_found.
End server.

(** ** Handlers as functions

    A handler step: the nonce cache, the database, the failure schedule. *)

Definition Hn (A : Type) := nonceCache → DB → schedule → A * nonceCache * DB * schedule.
Definition hret {A} (a : A) : Hn A := λ c db fs, (a, c, db, fs).
Definition hbind {A B} (m : Hn A) (k : A → Hn B) : Hn B := λ c db fs,
  let '(a, c', db', fs') := m c db fs in k a c' db' fs'.
Definition hstore {A} (m : M A) : Hn (result store_err A) := λ c db fs,
  let '(r, db', fs') := m db fs in (r, c, db', fs').
Definition huse_once (nonce : string) (expiry now : Z) : Hn bool := λ c db fs,
  let '(fresh, c') := useOnce c nonce expiry now in (fresh, c', db, fs).

#[export] Instance server_functions : ServerM M Hn := {|
  sret := @hret; sbind := @hbind; sstore := @hstore; suse_once := huse_once |}.
