(* ===== verification/MarketConfig.v ===== *)
(** * cmd/market and pkg/market/config.go: configuration and start-up

    The configuration file with its defaults over the file system of [HostFS],
    the choice of the SQL dialect, the start-up sequence of the command and the
    middleware in front of the handlers of [MarketServer].  The theorems: a
    loaded configuration is complete and keeps what the operator wrote; a started
    server listens in the clear only if TLS is off; preflight requests change
    nothing and every other request is the handler's.  Then the schema the
    start-up creates, in both dialects. *)

From S2P Require Import Prelude GoStrings GoStringsFacts Strconv Hardware GoAny GoPath HostFS Auth Base64.
From S2P Require Import CertGen NodeConfig MarketStore RecipeParser MarketServer.
From Stdlib Require Import ZArith Lia ZifyBool Bool Ascii String SpecFloat.
From stdpp Require Import base option list gmap strings.

Open Scope go_scope.
Open Scope Z_scope.

(** pkg/market/config.go:19-23 [TLSConfig] *)
Record MTLSConfig := mkMTLS { mt_Enabled : bool; mt_Cert : string; mt_Key : string }.
(** pkg/market/config.go:26-29 [DBConfig] *)
Record MDBConfig := mkMDB { md_Driver : string; md_DSN : string }.
(** pkg/market/config.go:34-45 [Config]: the log block is read and ignored. *)
Record MConfig := mkMConfig {
  m_Addr : string; m_TLS : MTLSConfig; m_DB : MDBConfig; m_ReplayWinS : Z; m_DevInsecureSkipAuth : bool
}.

(** [json.Unmarshal] into [Config]. *)
Class MarketConfigJSON := { mcfg_dec : string → option MConfig }.

Definition or_default (s d : string) : string := if s =s? "" then d else s.

(** The dialects [NewStore] knows. *)
Inductive dialect := SQLite | MySQL.
Inductive store_open_err := UnsupportedDriver | OpenFailed | MigrateFailed.

(** pkg/market/sqlstore.go:38-61 [NewStore]: [opens] and [migrates] are the
    answers of [sql.Open] and of the DDL statements. *)
Definition NewStore (driver : string) (opens migrates : bool) : result store_open_err dialect :=
  let! d := (if (driver =s? "sqlite") || (driver =s? "") then Ok SQLite
             else if driver =s? "mysql" then Ok MySQL
             else Err UnsupportedDriver) in
  if negb opens then Err OpenFailed else if negb migrates then Err MigrateFailed else Ok d.

(** pkg/market/sqlstore.go:66-71 [sqlStore.now] *)
Definition sql_now (d : dialect) : string :=
  match d with MySQL => "UTC_TIMESTAMP()" | SQLite => "datetime('now')" end.

Inductive market_fatal := MFRead | MFParse | MFStore (e : store_open_err) | MFCert (e : cert_err).

Inductive market_listener := MHTTPS (addr cert key : string) | MHTTP (addr : string).

Section market_start.
Context {J : MarketConfigJSON} (W : loc → bool) (cwd : loc) (now : Z).

(** pkg/market/config.go:63-82 [Config.applyDefaults] *)
Definition applyDefaults (c : MConfig) (fs : hostfs) : MConfig * hostfs :=
  let c := mkMConfig (or_default (m_Addr c) ":8820") (m_TLS c)
             (mkMDB (or_default (md_Driver (m_DB c)) "sqlite") (or_default (md_DSN (m_DB c)) "market.db"))
             (default_window (m_ReplayWinS c)) (m_DevInsecureSkipAuth c) in
  let fs := if md_Driver (m_DB c) =s? "sqlite"
            then let dir := path_dirname (md_DSN (m_DB c)) in
                 if negb (dir =s? ".") && negb (dir =s? "") then (mkdir_all W (resolve cwd dir) fs).2 else fs
            else fs in
  (c, fs).

(** pkg/market/config.go:48-59 [LoadConfig] *)
Definition LoadMarketConfig (path : string) (fs : hostfs) : result market_fatal MConfig * hostfs :=
  match ReadFile (resolve cwd path) fs with
  | ReadOk data =>
      match mcfg_dec data with
      | None => (Err MFParse, fs)
      | Some c => let '(c, fs) := applyDefaults c fs in (Ok c, fs)
      end
  | _ => (Err MFRead, fs)
  end.

(** pkg/market/server.go:38-54 [Server.Run] *)
Definition Run_market (g : keygen) (c : MConfig) (fs : hostfs) : result market_fatal market_listener * hostfs :=
  let t := m_TLS c in
  if mt_Enabled t
  then let '(r, fs) := EnsureSelfSigned W cwd now g (mt_Cert t) (mt_Key t) fs in
       match r with
       | Err e => (Err (MFCert e), fs)
       | Ok _ => (Ok (MHTTPS (m_Addr c) (mt_Cert t) (mt_Key t)), fs)
       end
  else (Ok (MHTTP (m_Addr c)), fs).

(** pkg/market/server.go:31-35 [NewServer]: the configuration the handlers see. *)
Definition handler_config (c : MConfig) : market_config := mkMC (m_ReplayWinS c) (m_DevInsecureSkipAuth c).

(** cmd/market/main.go:18-56 [main]: the listener and the store's dialect; the
    log file is not part of the file system here. *)
Definition market_main (g : keygen) (configPath : string) (opens migrates : bool) (fs : hostfs)
  : result market_fatal (MConfig * dialect * market_listener) * hostfs :=
  match LoadMarketConfig configPath fs with
  | (Err e, fs) => (Err e, fs)
  | (Ok c, fs) =>
      match NewStore (md_Driver (m_DB c)) opens migrates with
      | Err e => (Err (MFStore e), fs)
      | Ok d =>
          match Run_market g c fs with
          | (Err e, fs) => (Err e, fs)
          | (Ok l, fs) => (Ok (c, d, l), fs)
          end
      end
  end.
End market_start.

(** ** In front of the handlers *)

Definition cors_headers : list (string * string) :=
  [("Access-Control-Allow-Origin", "*");
   ("Access-Control-Allow-Methods", "GET, POST, PATCH, DELETE, OPTIONS");
   ("Access-Control-Allow-Headers", "Content-Type, Authorization, X-ISANN-Nonce, X-ISANN-Timestamp");
   ("Access-Control-Expose-Headers", "X-ISANN-Sha256")]%string.
(** pkg/market/server.go:505-517 [Server.corsMiddleware]: the reply headers and
    the reply, [None] the bare 200 of a preflight. *)
Definition corsMiddleware {T F} {SM : ServerM T F} (r : http_request) (next : F reply)
  : F (list (string * string) * option reply)%type :=
  if h_method r =s? "OPTIONS" then sret (T:=T) (F:=F) (cors_headers, None)
  else sbind (T:=T) (F:=F) next (λ a, sret (T:=T) (F:=F) (cors_headers, Some a)).

(** pkg/market/server.go:527-532 [errBody] *)
Definition errBody (code msg : string) : list (string * string) :=
  [("error", code); ("message", if msg =s? "" then code else msg)]%string.

(** ** Theorems *)

Section facts.
Context {J : MarketConfigJSON} (W : loc → bool) (cwd : loc) (now : Z).

(** A value the operator wrote is kept, an absent one is the default. *)
Definition kept (written used dflt : string) : Prop :=
  used ≠ ""%string ∧ (written ≠ ""%string → used = written) ∧ (written = ""%string → used = dflt).

Lemma or_default_kept s d : d ≠ ""%string → kept s (or_default s d) d.
Proof. intros Hd. unfold kept, or_default. destruct (String.eqb_spec s ""); naive_solver. Qed.

Lemma applyDefaults_files c fs l d t :
  (applyDefaults W cwd c fs).2 !! l = Some (NFile d t) ↔ fs !! l = Some (NFile d t).
Proof.
  unfold applyDefaults. cbn zeta. cbn [snd]. repeat case_if; try done. apply mkdir_all_files.
Qed.

(** Loading completes the configuration and nothing more: the address, the
    driver and the DSN are what the file says or the documented default, the
    replay window is positive, TLS and the developer switch are as written, no
    file changes, and for SQLite the database's directory exists if it can be
    made; loading what was loaded changes nothing. *)
Theorem market_config_complete path fs c fs' :
  LoadMarketConfig W cwd path fs = (Ok c, fs') →
  ∃ data w, ReadFile (resolve cwd path) fs = ReadOk data ∧ mcfg_dec data = Some w ∧
    kept (m_Addr w) (m_Addr c) ":8820" ∧ kept (md_Driver (m_DB w)) (md_Driver (m_DB c)) "sqlite" ∧
    kept (md_DSN (m_DB w)) (md_DSN (m_DB c)) "market.db" ∧
    0 < m_ReplayWinS c ∧ (0 < m_ReplayWinS w → m_ReplayWinS c = m_ReplayWinS w) ∧
    m_TLS c = m_TLS w ∧ m_DevInsecureSkipAuth c = m_DevInsecureSkipAuth w ∧
    (∀ l d t, fs' !! l = Some (NFile d t) ↔ fs !! l = Some (NFile d t)) ∧
    (md_Driver (m_DB c) = "sqlite"%string → path_dirname (md_DSN (m_DB c)) ≠ "."%string →
     path_dirname (md_DSN (m_DB c)) ≠ ""%string →
     (∀ l, suffix l (resolve cwd (path_dirname (md_DSN (m_DB c)))) → l ≠ [] →
        W l = true ∧ ∀ d t, fs !! l ≠ Some (NFile d t)) →
     is_dir (resolve cwd (path_dirname (md_DSN (m_DB c)))) fs' = true) ∧
    (applyDefaults W cwd c fs).1 = c.
Proof.
  unfold LoadMarketConfig. destruct (ReadFile _ fs) as [data| |]; [|done..].
  destruct (mcfg_dec data) as [w|] eqn:Ed; [|done].
  pose proof (applyDefaults_files w fs) as Hfiles.
  destruct (applyDefaults W cwd w fs) as [c1 fs1] eqn:Ea. intros [= <- <-].
  exists data, w. split; [done|]. split; [done|].
  unfold applyDefaults in Ea. injection Ea as <- <-. cbn [m_Addr m_DB md_Driver md_DSN m_ReplayWinS m_TLS m_DevInsecureSkipAuth].
  split_and!; try by apply or_default_kept.
  - unfold default_window. case_if; lia.
  - unfold default_window. case_if; lia.
  - done.
  - done.
  - exact Hfiles.
  - intros -> H1%String.eqb_neq H2%String.eqb_neq Hdirs. cbn [String.eqb Ascii.eqb Bool.eqb]. rewrite H1, H2. cbn [negb andb].
    by apply mkdir_all_ok.
  - unfold applyDefaults. cbn [fst m_Addr m_DB md_Driver md_DSN m_ReplayWinS m_TLS m_DevInsecureSkipAuth].
    assert (∀ s d, d ≠ ""%string → or_default (or_default s d) d = or_default s d) as Ho.
    { intros s d Hd. unfold or_default. destruct (String.eqb_spec s ""); [by case_if|].
      destruct (String.eqb_spec s ""); done. }
    rewrite !Ho by done. f_equal. unfold default_window. repeat case_if; lia.
Qed.

Lemma market_config_facts path fs c fs' :
  LoadMarketConfig W cwd path fs = (Ok c, fs') →
  m_Addr c ≠ ""%string ∧ md_Driver (m_DB c) ≠ ""%string ∧ 0 < m_ReplayWinS c.
Proof.
  unfold LoadMarketConfig. destruct (ReadFile _ fs) as [data| |]; [|done..].
  destruct (mcfg_dec data) as [w|]; [|done]. unfold applyDefaults. intros [= <- <-]. cbn [m_Addr m_DB md_Driver m_ReplayWinS].
  split_and!; [by apply or_default_kept..|]. unfold default_window. case_if; lia.
Qed.

(** A market that starts has a known dialect and serves in the clear only when
    TLS is off; with TLS on both files of the pair are in place. *)
Theorem market_started g path opens migrates fs c d l fs' :
  market_main W cwd now g path opens migrates fs = (Ok (c, d, l), fs') →
  (md_Driver (m_DB c) = "sqlite"%string ∧ d = SQLite ∨ md_Driver (m_DB c) = "mysql"%string ∧ d = MySQL) ∧
  0 < mc_ReplayWinS (handler_config c) ∧
  match l with
  | MHTTP addr => mt_Enabled (m_TLS c) = false ∧ addr ≠ ""%string
  | MHTTPS addr cert key => mt_Enabled (m_TLS c) = true ∧ addr ≠ ""%string ∧
      fileExists cwd cert fs' = true ∧ fileExists cwd key fs' = true
  end.
Proof.
  unfold market_main. destruct (LoadMarketConfig W cwd path fs) as [[c1|] fs1] eqn:El; [|done].
  apply market_config_facts in El as (Ha & Hd & Hw).
  destruct (NewStore _ _ _) as [d1|] eqn:En; [|done].
  destruct (Run_market _ _ _ _ _ _) as [[l1|] fs2] eqn:Er; [|done]. intros [= <- <- <- <-].
  split; [|split; [done|]].
  - unfold NewStore in En. apply res_bind_Ok_inv in En as (d2 & Hd2 & En).
    destruct opens, migrates; try done. injection En as <-.
    destruct (String.eqb_spec (md_Driver (m_DB c1)) "sqlite"); [injection Hd2 as <-; by left|].
    destruct (String.eqb_spec (md_Driver (m_DB c1)) ""); [done|]. cbn [orb] in Hd2.
    destruct (String.eqb_spec (md_Driver (m_DB c1)) "mysql"); [injection Hd2 as <-; by right|done].
  - unfold Run_market in Er. destruct (mt_Enabled (m_TLS c1)); [|by injection Er as <- <-].
    destruct (EnsureSelfSigned _ _ _ _ _ _ _) as [[[]|] fs3] eqn:Es; [|done].
    injection Er as <- <-. apply ensure_self_signed in Es as (H1 & H2 & _). done.
Qed.

(** A preflight changes nothing; any other request is the handler's. *)
Lemma cors_transparent r next c db sch :
  corsMiddleware r next c db sch =
  if h_method r =s? "OPTIONS" then ((cors_headers, None), c, db, sch)
  else let '(a, c', db', sch') := next c db sch in ((cors_headers, Some a), c', db', sch').
Proof. unfold corsMiddleware. by case_if. Qed.
End facts.

(** ** Witnesses *)

(** The file's text is the DSN. *)
Definition toy_market_json : MarketConfigJSON := {|
  mcfg_dec := λ d, Some (mkMConfig "" (mkMTLS false "" "") (mkMDB "" d) 0 false)
|}.
Definition demo_market_fs : hostfs :=
  <[["srv"%string] := NDir]> (<[["market.json"; "srv"]%string := NFile "data/m.db" 1]> ∅).
Definition demo_market_config : MConfig :=
  mkMConfig ":8820" (mkMTLS false "" "") (mkMDB "sqlite" "data/m.db") 300 false.

Lemma market_config_complete_witness :
  let fs' := <[["data"; "srv"]%string := NDir]> demo_market_fs in
  @LoadMarketConfig toy_market_json (λ _, true) ["srv"%string] "market.json" demo_market_fs = (Ok demo_market_config, fs') ∧
  (@applyDefaults (λ _, true) ["srv"%string] demo_market_config fs').1 = demo_market_config.
Proof.
  intros fs'. assert (@LoadMarketConfig toy_market_json (λ _, true) ["srv"%string] "market.json" demo_market_fs
                     = (Ok demo_market_config, fs')) as H by vm_refl.
  split; [exact H|].
  destruct (@market_config_complete toy_market_json (λ _, true) ["srv"%string] "market.json" demo_market_fs
              demo_market_config fs' H) as (data & w & _ & _ & _ & _ & _ & _ & _ & _ & _ & _ & _ & He). exact He.
Defined.

Example demo_market_start :
  (@market_main toy_market_json (λ _, true) ["srv"%string] 9 demo_gen "market.json" true true demo_market_fs).1
  = Ok (demo_market_config, SQLite, MHTTP ":8820").
Proof. vm_compute. reflexivity. Qed.

(** * pkg/market/sqlstore.go: the schema

    The DDL of both dialects as the code has it, run at start-up, and what its
    constraints say of the rows [MarketStore] inserts: the [UNIQUE] tests of
    [insert_author], [insert_asset] and [insert_version] are the constraints of
    either schema. *)

Open Scope go_scope.
Open Scope string_scope.
Open Scope list_scope.

(** pkg/market/sqlstore.go:77-83 [sqlStore.migrate part] *)
Definition mysql_authors : string := "CREATE TABLE IF NOT EXISTS authors (
				id           BIGINT AUTO_INCREMENT PRIMARY KEY,
				eoa          CHAR(42) NOT NULL UNIQUE,
				handle       VARCHAR(39) UNIQUE,
				display_name VARCHAR(100) DEFAULT '',
				created_at   DATETIME NOT NULL
			)".
(** pkg/market/sqlstore.go:84-105 [sqlStore.migrate part] *)
Definition mysql_assets : string := "CREATE TABLE IF NOT EXISTS assets (
				id             BIGINT AUTO_INCREMENT PRIMARY KEY,
				type           VARCHAR(16) NOT NULL,
				author_id      BIGINT NOT NULL,
				name           VARCHAR(100) NOT NULL,
				latest_version VARCHAR(32) DEFAULT '',
				summary        VARCHAR(255) DEFAULT '',
				license        VARCHAR(64) DEFAULT '',
				min_isann      VARCHAR(16) DEFAULT '',
				tags           VARCHAR(512) DEFAULT '',
				visibility     VARCHAR(8) NOT NULL DEFAULT 'private',
				price          VARCHAR(32) NOT NULL DEFAULT '0',
				token          VARCHAR(64),
				downloads      BIGINT NOT NULL DEFAULT 0,
				avg_rating     DECIMAL(3,2),
				review_count   INT NOT NULL DEFAULT 0,
				created_at     DATETIME NOT NULL,
				updated_at     DATETIME NOT NULL,
				UNIQUE KEY uq_asset (type, author_id, name),
				INDEX idx_type (type),
				INDEX idx_author (author_id)
			)".
(** pkg/market/sqlstore.go:106-114 [sqlStore.migrate part] *)
Definition mysql_versions : string := "CREATE TABLE IF NOT EXISTS asset_versions (
				id          BIGINT AUTO_INCREMENT PRIMARY KEY,
				asset_id    BIGINT NOT NULL,
				version     VARCHAR(32) NOT NULL,
				sha256      CHAR(64) NOT NULL,
				recipe_body MEDIUMTEXT NOT NULL,
				created_at  DATETIME NOT NULL,
				UNIQUE KEY uq_version (asset_id, version)
			)".
(** pkg/market/sqlstore.go:118-124 [sqlStore.migrate part] *)
Definition sqlite_authors : string := "CREATE TABLE IF NOT EXISTS authors (
				id           INTEGER PRIMARY KEY AUTOINCREMENT,
				eoa          TEXT NOT NULL UNIQUE,
				handle       TEXT UNIQUE,
				display_name TEXT DEFAULT '',
				created_at   TEXT NOT NULL DEFAULT (datetime('now'))
			)".
(** pkg/market/sqlstore.go:125-144 [sqlStore.migrate part] *)
Definition sqlite_assets : string := "CREATE TABLE IF NOT EXISTS assets (
				id             INTEGER PRIMARY KEY AUTOINCREMENT,
				type           TEXT NOT NULL,
				author_id      INTEGER NOT NULL,
				name           TEXT NOT NULL,
				latest_version TEXT DEFAULT '',
				summary        TEXT DEFAULT '',
				license        TEXT DEFAULT '',
				min_isann      TEXT DEFAULT '',
				tags           TEXT DEFAULT '',
				visibility     TEXT NOT NULL DEFAULT 'private',
				price          TEXT NOT NULL DEFAULT '0',
				token          TEXT,
				downloads      INTEGER NOT NULL DEFAULT 0,
				avg_rating     REAL,
				review_count   INTEGER NOT NULL DEFAULT 0,
				created_at     TEXT NOT NULL DEFAULT (datetime('now')),
				updated_at     TEXT NOT NULL DEFAULT (datetime('now')),
				UNIQUE(type, author_id, name)
			)".
(** pkg/market/sqlstore.go:145-145 [sqlStore.migrate part] *)
Definition sqlite_idx_type : string := "CREATE INDEX IF NOT EXISTS idx_assets_type ON assets(type)".
(** pkg/market/sqlstore.go:146-146 [sqlStore.migrate part] *)
Definition sqlite_idx_author : string := "CREATE INDEX IF NOT EXISTS idx_assets_author ON assets(author_id)".
(** pkg/market/sqlstore.go:147-155 [sqlStore.migrate part] *)
Definition sqlite_versions : string := "CREATE TABLE IF NOT EXISTS asset_versions (
				id          INTEGER PRIMARY KEY AUTOINCREMENT,
				asset_id    INTEGER NOT NULL,
				version     TEXT NOT NULL,
				sha256      TEXT NOT NULL,
				recipe_body TEXT NOT NULL,
				created_at  TEXT NOT NULL DEFAULT (datetime('now')),
				UNIQUE(asset_id, version)
			)".

(** pkg/market/sqlstore.go:73-157 [sqlStore.migrate part] *)
Definition migrate_stmts (d : dialect) : list string :=
  match d with
  | MySQL => [mysql_authors; mysql_assets; mysql_versions]
  | SQLite => [sqlite_authors; sqlite_assets; sqlite_idx_type; sqlite_idx_author; sqlite_versions]
  end.

Section migrate.
Context {H : Type} (exec : string → H → bool * H).

(** pkg/market/sqlstore.go:158-163 [sqlStore.migrate part]: [exec] is the
    driver's [Exec], [H] the database behind it; with the statements executed. *)
Fixpoint run_ddl (stmts : list string) (db : H) : bool * H * list string :=
  match stmts with
  | [] => (true, db, [])
  | ddl :: stmts =>
      match exec ddl db with
      | (false, db) => (false, db, [ddl])
      | (true, db) => let '(ok, db, done) := run_ddl stmts db in (ok, db, ddl :: done)
      end
  end.

(** pkg/market/sqlstore.go:73-164 [sqlStore.migrate] *)
Definition migrate (d : dialect) (db : H) : bool * H * list string := run_ddl (migrate_stmts d) db.

(** The statements run in order, all of them or up to the first that fails. *)
Theorem migrate_exact d db :
  let '(ok, db', done) := migrate d db in
  done `prefix_of` migrate_stmts d ∧ (ok = true → done = migrate_stmts d) ∧
  (ok = false → ∃ before ddl db1, done = before ++ [ddl] ∧ exec ddl db1 = (false, db') ∧
     run_ddl before db = (true, db1, before)).
Proof.
  unfold migrate. generalize (migrate_stmts d). intros stmts. revert db.
  induction stmts as [|ddl stmts IH]; intros db; cbn [run_ddl]; [done|].
  destruct (exec ddl db) as [[] db1] eqn:E.
  - specialize (IH db1). destruct (run_ddl stmts db1) as [[ok db2] done]. destruct IH as (Hp & Ht & Hf).
    split_and!; [by apply prefix_cons|by intros ->%Ht|]. intros (before & ddl' & db3 & -> & He & Hr)%Hf.
    exists (ddl :: before), ddl', db3. split_and!; [done|done|]. cbn [run_ddl]. by rewrite E, Hr.
  - split_and!; [apply prefix_cons, prefix_nil|done|]. intros _. by exists [], ddl, db.
Qed.
End migrate.

(** ** Reading the declarations *)

(** A table: its columns and, besides the key the database assigns, the lists of
    columns that are unique together. *)
Record table := mkTable { t_name : string; t_cols : list string; t_key : list string; t_unique : list (list string) }.

(** The words of a line, parentheses and commas apart. *)
Definition ddl_words (line : string) : list string :=
  fields (replace_all (replace_all (replace_all line "(" " ") ")" " ") "," " ").

(** One line of a [CREATE TABLE] of the notation above: a constraint, or a
    column with its attributes. *)
Definition ddl_line (t : table) (line : string) : table :=
  match ddl_words line with
  | [] => t
  | "UNIQUE" :: "KEY" :: _ :: cols => mkTable (t_name t) (t_cols t) (t_key t) (t_unique t ++ [cols])
  | "UNIQUE" :: cols => mkTable (t_name t) (t_cols t) (t_key t) (t_unique t ++ [cols])
  | "INDEX" :: _ => t
  | col :: attrs =>
      let has w := existsb (λ a, a =s? w) attrs in
      mkTable (t_name t) (t_cols t ++ [col]) (if has "PRIMARY" then [col] else t_key t)
        (if has "UNIQUE" then t_unique t ++ [[col]] else t_unique t)
  end.

Definition read_table (ddl : string) : option table :=
  match split_byte "010" ddl with
  | first :: rest =>
      match ddl_words first with
      | ["CREATE"; "TABLE"; "IF"; "NOT"; "EXISTS"; name] =>
          Some (fold_left ddl_line rest (mkTable name [] [] []))
      | _ => None
      end
  | [] => None
  end.

(** The tables of a dialect. *)
Definition schema (d : dialect) : list table := omap read_table (migrate_stmts d).

Definition market_schema : list table := [
  mkTable "authors" ["id"; "eoa"; "handle"; "display_name"; "created_at"] ["id"] [["eoa"]; ["handle"]];
  mkTable "assets" ["id"; "type"; "author_id"; "name"; "latest_version"; "summary"; "license"; "min_isann"; "tags";
    "visibility"; "price"; "token"; "downloads"; "avg_rating"; "review_count"; "created_at"; "updated_at"]
    ["id"] [["type"; "author_id"; "name"]];
  mkTable "asset_versions" ["id"; "asset_id"; "version"; "sha256"; "recipe_body"; "created_at"]
    ["id"] [["asset_id"; "version"]]
].

(** Both dialects declare the same tables, columns and constraints. *)
Lemma schema_dialects d : schema d = market_schema.
Proof. destruct d; vm_compute; reflexivity. Qed.

(** ** Rows and constraints *)

Inductive cell := CNull | CInt (z : Z) | CText (s : string).

(** SQL's equality of a unique index: NULL equals nothing. *)
Definition cell_eqb (a b : cell) : bool :=
  match a, b with
  | CInt x, CInt y => (x =? y)%Z
  | CText x, CText y => x =s? y
  | _, _ => false
  end.

(** A row that a unique constraint of the table refuses beside [rows]. *)
Definition refused {R} (t : table) (get : R → string → cell) (rows : list R) (r : R) : bool :=
  existsb (λ cols, existsb (λ r', forallb (λ col, cell_eqb (get r' col) (get r col)) cols) rows) (t_unique t).

(** The cells of the unique columns. *)
Definition author_cell (r : AuthorRow) (col : string) : cell :=
  if col =s? "eoa" then CText (au_eoa r)
  else if col =s? "handle" then match au_handle r with Some h => CText h | None => CNull end else CNull.
Definition asset_cell (r : AssetRow) (col : string) : cell :=
  if col =s? "type" then CText (as_type r) else if col =s? "author_id" then CInt (as_author_id r)
  else if col =s? "name" then CText (as_name r) else CNull.
Definition version_cell (r : VersionRow) (col : string) : cell :=
  if col =s? "asset_id" then CInt (v_asset_id r) else if col =s? "version" then CText (v_version r) else CNull.

Lemma existsb_same {A} (f g : A → bool) l : (∀ x, f x = g x) → existsb f l = existsb g l.
Proof. intros Hf. induction l as [|x l IH]; cbn; [done|]. by rewrite Hf, IH. Qed.

Lemma existsb_never {A} (f : A → bool) l : (∀ x, f x = false) → existsb f l = false.
Proof. intros Hf. induction l as [|x l IH]; cbn; [done|]. by rewrite Hf. Qed.

(** The store's inserts fail exactly on the rows the schema of the dialect
    refuses, with the driver's message, and leave the tables alone; any other
    row is appended under the next id. *)
Theorem inserts_enforce_schema (d : dialect) (db : DB) :
  ∃ tau tas tve, schema d = [tau; tas; tve] ∧
  (∀ eoa, let r := mkAuthor (next_author db) eoa None in
     insert_author eoa db =
     if refused tau author_cell (authors db) r then (Err (EDriver unique_msg), db)
     else (Ok (next_author db), mkDB (authors db ++ [r]) (assets db) (versions db)
             (next_author db + 1) (next_asset db) (next_version db))) ∧
  (∀ typ author m now,
     let r := mkAssetRow (next_asset db) typ author (am_Name m) (am_Version m) (am_Summary m) (am_License m)
                (am_MinIsann m) (join_str "," (am_Tags m)) "private" "0" None 0 None now now in
     insert_asset typ author m now db =
     if refused tas asset_cell (assets db) r then (Err (EDriver unique_msg), db)
     else (Ok (next_asset db), mkDB (authors db) (assets db ++ [r]) (versions db)
             (next_author db) (next_asset db + 1) (next_version db))) ∧
  (∀ asset version sha body now, let r := mkVersionRow (next_version db) asset version sha body now in
     insert_version asset version sha body now db =
     if refused tve version_cell (versions db) r then (Err (EDriver unique_msg), db)
     else (Ok tt, mkDB (authors db) (assets db) (versions db ++ [r])
             (next_author db) (next_asset db) (next_version db + 1))).
Proof.
  rewrite schema_dialects. eexists _, _, _. split; [reflexivity|]. split_and!.
  - intros eoa r. assert (refused (mkTable "authors" ["id"; "eoa"; "handle"; "display_name"; "created_at"] ["id"]
      [["eoa"]; ["handle"]]) author_cell (authors db) r = existsb (λ r', au_eoa r' =s? eoa) (authors db)) as ->; [|done].
    unfold refused. cbn [t_unique existsb]. rewrite orb_false_r, <-(orb_false_r (existsb (λ r', au_eoa r' =s? eoa) _)).
    f_equal; [apply existsb_same; intros r'; cbn; by rewrite andb_true_r|].
    apply existsb_never. intros r'. cbn. by destruct (au_handle r').
  - intros typ author m now r. unfold insert_asset, refused. cbn [t_unique existsb]. rewrite orb_false_r.
    erewrite (existsb_same (λ r', forallb _ _)); [reflexivity|].
    intros r'. cbn. by rewrite andb_true_r, andb_assoc.
  - intros asset version sha body now r. unfold insert_version, refused. cbn [t_unique existsb].
    rewrite orb_false_r. erewrite (existsb_same (λ r', forallb _ _)); [reflexivity|].
    intros r'. cbn. by rewrite andb_true_r.
Qed.
