(* ===== verification/MarketServerProofs.v ===== *)
(** * pkg/market: who may change and see what

    Every change to the tables other than a download count is covered by a
    fresh signature of the path's author and touches only that author's rows; a
    signed request is accepted once; private assets look absent to readers
    without the author's signature. *)

From S2P Require Import Prelude GoStrings GoStringsFacts Strconv Hardware GoTime Auth Tunnel.
From S2P Require Import MarketStore MarketStoreProofs MarketStoreTheorems MarketApi RecipeParser.
From S2P Require Import MarketServer.
From Stdlib Require Import ZArith Lia ZifyBool Bool Ascii String SpecFloat.
From stdpp Require Import base option list gmap strings.

Open Scope go_scope.
Open Scope Z_scope.

(** ** Store operations touch their author's rows only *)

Section foreign.
Context {U : GoUnicode} {Q : SqlEnv}.

(** Started on [d0], the program leaves the rows of other authors alone. *)
Definition touches {A} (eoa : string) (d0 : DB) (m : M A) : Prop :=
  triple (λ db, db = d0) m (λ _, foreign eoa d0).

Lemma touches_ret {A} eoa d0 (a : A) : touches eoa d0 (ret a).
Proof. apply triple_ret. intros db ->. apply foreign_refl. Qed.
Lemma touches_raise {A} eoa d0 e : touches eoa d0 (raise (A:=A) e).
Proof. apply triple_raise. intros db ->. apply foreign_refl. Qed.

(** After a read, on the same database. *)
Lemma touches_read {A B} eoa d0 (m : M A) (k : A → M B) :
  keeps eq m → (∀ a, touches eoa d0 (k a)) → touches eoa d0 (bind m k).
Proof.
  intros Hm Hk. eapply triple_bind with (R := λ _ db, db = d0); [by apply triple_read|done|].
  intros e db ->. apply foreign_refl.
Qed.

Lemma touches_update {A} eoa d0 id f (a : A) :
  db_wf d0 → owned eoa id d0 → touches eoa d0 (let* _ := exec (update_asset id f) in ret a).
Proof.
  intros Hwf Ho. eapply triple_bind with (R := λ _, foreign eoa d0); [|by intros u; apply triple_ret|done].
  apply triple_stmt; [intros db ->; by apply foreign_update|intros msg db ->; apply foreign_refl].
Qed.

(** The shape of the setters: look the asset up, then act on its id. *)
Lemma touches_assetID {A} d0 typ eoa name (k : Z * string → M A) :
  (∀ id vis, owned (to_lower eoa) id d0 → touches (to_lower eoa) d0 (k (id, vis))) →
  touches (to_lower eoa) d0 (bind (assetIDVis typ eoa name) k).
Proof.
  intros Hk db fs ->. unfold bind. pose proof (assetIDVis_spec typ eoa name d0 fs) as Hs.
  destruct (assetIDVis typ eoa name d0 fs) as [[[[id vis]|e] db1] fs1]; destruct Hs as [-> Hs];
    [|apply foreign_refl].
  destruct Hs as (a & au & Hj & -> & _). apply (Hk (as_id a) vis); [|done]. by eapply joined_owned.
Qed.

Lemma SetVisibility_touches d0 typ eoa name vis now :
  db_wf d0 → touches (to_lower eoa) d0 (SetVisibility typ eoa name vis now).
Proof.
  intros Hwf. apply touches_assetID. intros id cur Ho. cbv beta iota.
  destruct (cur =s? vis); [apply touches_ret|by apply touches_update].
Qed.

Lemma SetPrice_touches d0 typ eoa name price token now :
  db_wf d0 → touches (to_lower eoa) d0 (SetPrice typ eoa name price token now).
Proof.
  intros Hwf. apply touches_assetID. intros id cur Ho. cbv beta iota. apply touches_read; [apply keeps_query_row, _|].
  intros [p t]. cbv beta iota zeta. destruct (_ && _); [apply touches_ret|by apply touches_update].
Qed.

Lemma SetMeta_touches d0 typ eoa name tags summary now :
  db_wf d0 → touches (to_lower eoa) d0 (SetMeta typ eoa name tags summary now).
Proof.
  intros Hwf. apply touches_assetID. intros id cur Ho. cbv beta iota. apply touches_read; [apply keeps_query_row, _|].
  intros [p t]. cbv beta iota zeta.
  destruct (match tags with Some _ => _ | None => _ end), (match summary with Some _ => _ | None => _ end);
    first [apply touches_ret|by apply touches_update].
Qed.

Lemma DeleteAsset_touches d0 typ eoa name :
  db_wf d0 → touches (to_lower eoa) d0 (DeleteAsset typ eoa name).
Proof.
  intros Hwf db fs ->. pose proof (DeleteAsset_cases typ eoa name d0 fs) as Hc.
  destruct (DeleteAsset typ eoa name d0 fs) as [[r db'] fs'].
  destruct Hc as [[-> _]|(_ & a & au & Hj & ->)]; [apply foreign_refl|].
  apply foreign_delete; [done|by eapply joined_owned].
Qed.

Lemma PutAsset_touches d0 inp now :
  db_wf d0 → touches (to_lower (pi_Author inp)) d0 (PutAsset inp now).
Proof.
  intros Hwf. eapply triple_weaken; [apply (PutAsset_triple d0)| |by intros r db [(_ & _ & Hf) _]].
  intros db ->. split; [done|]. split; [by apply evolved_refl|apply foreign_refl].
Qed.
End foreign.

(** ** The handlers as functions of the nonces and the tables *)

#[local] Notation "'let~' x := m 'in' k" := (hbind m (λ x, k))
  (at level 10, x pattern, m at level 100, k at level 200) : go_scope.
#[local] Notation verifyWrite := (MarketServer.verifyWrite (T:=M) (F:=Hn)).
#[local] Notation privateReadOK := (MarketServer.privateReadOK (T:=M) (F:=Hn)).
#[local] Notation gated := (MarketServer.gated (T:=M) (F:=Hn)).
#[local] Notation handleAssetsList dbnow := (MarketServer.handleAssetsList (T:=M) (F:=Hn) (St:=sqlStore dbnow)).
#[local] Notation handleGetMeta dbnow := (MarketServer.handleGetMeta (T:=M) (F:=Hn) (St:=sqlStore dbnow)).
#[local] Notation handleVersions dbnow := (MarketServer.handleVersions (T:=M) (F:=Hn) (St:=sqlStore dbnow)).
#[local] Notation handleInstall dbnow := (MarketServer.handleInstall (T:=M) (F:=Hn) (St:=sqlStore dbnow)).
#[local] Notation handlePush dbnow := (MarketServer.handlePush (T:=M) (F:=Hn) (St:=sqlStore dbnow)).
#[local] Notation writeMutation dbnow := (MarketServer.writeMutation (T:=M) (F:=Hn) (St:=sqlStore dbnow)).
#[local] Notation handleVisibility dbnow := (MarketServer.handleVisibility (T:=M) (F:=Hn) (St:=sqlStore dbnow)).
#[local] Notation handlePrice dbnow := (MarketServer.handlePrice (T:=M) (F:=Hn) (St:=sqlStore dbnow)).
#[local] Notation handleMeta dbnow := (MarketServer.handleMeta (T:=M) (F:=Hn) (St:=sqlStore dbnow)).
#[local] Notation handleUnpush dbnow := (MarketServer.handleUnpush (T:=M) (F:=Hn) (St:=sqlStore dbnow)).
#[local] Notation handleMine dbnow := (MarketServer.handleMine (T:=M) (F:=Hn) (St:=sqlStore dbnow)).
#[local] Notation handleAsset dbnow := (MarketServer.handleAsset (T:=M) (F:=Hn) (St:=sqlStore dbnow)).
#[local] Notation handleAssetsPath dbnow := (MarketServer.handleAssetsPath (T:=M) (F:=Hn) (St:=sqlStore dbnow)).
#[local] Notation serve dbnow := (MarketServer.serve (T:=M) (F:=Hn) (St:=sqlStore dbnow)).

(** Open the classes at their instances. *)
Ltac served :=
  cbn beta iota delta [sret sbind sstore suse_once server_functions sqlStore
    st_ListAssets st_ListMine st_GetAsset st_ListVersions st_GetRecipe st_PutAsset
    st_SetVisibility st_SetPrice st_SetMeta st_DeleteAsset st_IncrDownloads].

(** ** Signatures *)

Section server.
Context {U : GoUnicode} {S256 : Sha256} {E : EthCrypto} {Q : SqlEnv} {J : MarketJSON}
  {PF : ParseFloat} {PO : PathOps}.

(** The request carries, with a timestamp [ts] in the window, a signature of
    [signer] over its method, URI, [body], [target], nonce and timestamp. *)
Definition vouched (cfg : market_config) (now : Z) (r : http_request) (body target signer : string) (ts : Z) : Prop :=
  ∃ sig addr,
    h_header r "Authorization" = "ISANN " ++s sig ∧
    parse_int (h_header r "X-ISANN-Timestamp") = (ts, None) ∧
    wrap_i64 (now - mc_ReplayWinS cfg) ≤ ts ≤ wrap_i64 (now + mc_ReplayWinS cfg) ∧
    RecoverAddress (BuildCanonical (h_method r) (h_uri r) (hex_encode (sha256 body)) (to_lower target)
      (h_header r "X-ISANN-Nonce") (h_header r "X-ISANN-Timestamp")) (trim_space sig) = Ok addr ∧
    to_lower addr = signer.

(** And its nonce is not in the cache. *)
Definition signed (cfg : market_config) (now : Z) (r : http_request) (c : nonceCache)
  (body target signer : string) : Prop :=
  ∃ ts, vouched cfg now r body target signer ts ∧
    (useOnce c (h_header r "X-ISANN-Nonce") (wrap_i64 (ts + mc_ReplayWinS cfg)) now).1 = true.

(** What [verifyWrite] is, over any computations: a refusal, or the use of the
    nonce followed by a refusal or the signer. *)
Lemma verifyWrite_shape {T F} {SM : ServerM T F} cfg now r body target :
  mc_DevInsecureSkipAuth cfg = false →
  let fail := sret (T:=T) (F:=F) (Err (RErr 401 "unauthorized")) in
  MarketServer.verifyWrite (T:=T) (F:=F) cfg now r body target = fail ∨
  ∃ ts signer, vouched cfg now r body target signer ts ∧
    MarketServer.verifyWrite (T:=T) (F:=F) cfg now r body target =
    sbind (T:=T) (F:=F)
      (suse_once (T:=T) (F:=F) (h_header r "X-ISANN-Nonce") (wrap_i64 (ts + mc_ReplayWinS cfg)) now)
      (λ fresh, if negb fresh then fail else sret (T:=T) (F:=F) (Ok signer)).
Proof.
  intros Hd. unfold MarketServer.verifyWrite. rewrite Hd. cbv zeta.
  destruct (negb (has_prefix _ _)) eqn:Ep; [by left|]. apply negb_false_iff in Ep.
  destruct (_ || _); [by left|].
  destruct (parse_int _) as [ts [pe|]] eqn:Ets; [by left|].
  destruct (_ || _) eqn:Ew; [by left|].
  destruct (RecoverAddress _ _) as [addr|] eqn:Er; [|by left].
  right. exists ts, (to_lower addr). split; [|done]. apply has_prefix_spec in Ep as [sig Hsig].
  exists sig, addr. rewrite Hsig, trim_prefix_app in Er. split_and!; try done; lia.
Qed.

Lemma verifyWrite_cases cfg now r body target c db fs :
  mc_DevInsecureSkipAuth cfg = false →
  ∃ res c', verifyWrite cfg now r body target c db fs = (res, c', db, fs) ∧
    match res with Ok signer => signed cfg now r c body target signer | Err e => e = RErr 401 "unauthorized" end.
Proof.
  intros Hd. destruct (verifyWrite_shape (T:=M) (F:=Hn) cfg now r body target Hd) as [-> | (ts & signer & Hv & ->)];
    [by eexists _, _|]. served; unfold hbind, huse_once.
  destruct (useOnce _ _ _ _) as [fresh c'] eqn:Eu. destruct fresh; cbn [negb]; [|by eexists _, _].
  eexists _, _. split; [done|]. exists ts. split; [done|]. by rewrite Eu.
Qed.

Definition downloads_only (db db' : DB) : Prop :=
  db' = db ∨ ∃ id, db' = update_asset id incr_downloads db.

(** What a reply may have done to the tables: nothing but a download count, or a
    change covered by the author's signature, to the author's rows. *)
Definition authorised {A} (cfg : market_config) (now : Z) (r : http_request) (c : nonceCache) (db : DB)
  (out : A * nonceCache * DB * schedule) : Prop :=
  let '(_, _, db', _) := out in
  downloads_only db db' ∨
  ∃ author body, (body = h_body r ∨ body = ""%string) ∧
    signed cfg now r c body author author ∧ foreign author db db'.

Lemma authorised_same {A} cfg now r c db (a : A) c' fs' : authorised cfg now r c db (a, c', db, fs').
Proof. left. by left. Qed.

Lemma hret_authorised {A} cfg now r c0 c db fs (a : A) : authorised cfg now r c0 db (hret a c db fs).
Proof. apply authorised_same. Qed.

(** Reading the store, then continuing on the same tables. *)
Lemma hstore_read {A B} (m : M A) (k : result store_err A → Hn B) (P : B * nonceCache * DB * schedule → Prop)
  c db fs :
  keeps eq m → (∀ res fs', P (k res c db fs')) → P (hbind (hstore m) k c db fs).
Proof.
  intros Hm Hk. unfold hbind, hstore. specialize (Hm db fs).
  destruct (m db fs) as [[res db'] fs']. subst. apply Hk.
Qed.

(** The tail of a mutation: the reply reads the asset back. *)
Lemma writeMutation_db dbnow typ author name res c db fs :
  (writeMutation dbnow typ author name res c db fs).1.2 = db.
Proof.
  unfold MarketServer.writeMutation; served. destruct res as [[|]|[]]; try done.
  apply (hstore_read _ _ (λ out, out.1.2 = db)); [apply GetAsset_keeps, _|].
  intros [[[a vs]|]|e] fs'; done.
Qed.

Lemma mutation_authorised {A} cfg now r c0 c db fs author body (m : M A) (k : result store_err A → Hn reply) :
  (body = h_body r ∨ body = ""%string) → signed cfg now r c0 body author author →
  touches author db m → (∀ res c db fs, (k res c db fs).1.2 = db) →
  authorised cfg now r c0 db (hbind (hstore m) k c db fs).
Proof.
  intros Hb Hs Ht Hk. unfold hbind, hstore. specialize (Ht db fs eq_refl).
  destruct (m db fs) as [[res db'] fs']. specialize (Hk res c db' fs').
  destruct (k res c db' fs') as [[[a c'] db''] fs'']. simpl in Hk. subst. right. by exists author, body.
Qed.

Lemma gated_authorised cfg now r c db fs author body k :
  mc_DevInsecureSkipAuth cfg = false →
  (∀ c', signed cfg now r c body author author → authorised cfg now r c db (k c' db fs)) →
  authorised cfg now r c db (gated cfg now r body author k c db fs).
Proof.
  intros Hd Hk. unfold MarketServer.gated, verifyWriteAuthor; served; unfold hbind.
  destruct (verifyWrite_cases cfg now r body author c db fs Hd) as (res & c' & -> & Hres).
  destruct res as [signer|e]; [|apply hret_authorised].
  destruct (signer =s? ""); [apply hret_authorised|].
  destruct (String.eqb_spec signer author) as [-> |]; [by apply Hk|apply hret_authorised].
Qed.

Lemma privateReadOK_db cfg now r author c db fs :
  mc_DevInsecureSkipAuth cfg = false →
  ∃ ok c', privateReadOK cfg now r author c db fs = (ok, c', db, fs) ∧
    (ok = true → author ≠ ""%string → signed cfg now r c "" author author).
Proof.
  intros Hd. unfold MarketServer.privateReadOK; served; unfold hbind.
  destruct (verifyWrite_cases cfg now r "" author c db fs Hd) as (res & c' & -> & Hres).
  destruct res as [signer|e]; eexists _, _; (split; [done|]).
  - by intros ->%String.eqb_eq.
  - by intros <-%String.eqb_eq.
Qed.

Lemma handleGetMeta_db dbnow cfg now r typ author name c db fs :
  mc_DevInsecureSkipAuth cfg = false → (handleGetMeta dbnow cfg now r typ author name c db fs).1.2 = db.
Proof.
  intros Hd. unfold MarketServer.handleGetMeta; served. apply (hstore_read _ _ (λ out, out.1.2 = db)); [apply GetAsset_keeps, _|].
  intros [[[a vs]|]|e] fs'; try done. case_if; [|done]. unfold hbind.
  destruct (privateReadOK_db cfg now r author c db fs' Hd) as (ok & c' & -> & _). by destruct ok.
Qed.

Lemma handleInstall_db dbnow cfg now r typ author name c db fs :
  mc_DevInsecureSkipAuth cfg = false →
  downloads_only db (handleInstall dbnow cfg now r typ author name c db fs).1.2.
Proof.
  intros Hd. unfold MarketServer.handleInstall; served.
  apply (hstore_read _ _ (λ out, downloads_only db out.1.2)); [apply GetRecipe_keeps, _|].
  assert (∀ body sha c fs, downloads_only db
    ((let~ _ := hstore (IncrDownloads typ author name) in hret (RBody body sha)) c db fs).1.2) as Hserve.
  { intros body sha c' fs'. unfold hbind, hstore, IncrDownloads, exec, stmt.
    destruct fs' as [|[msg|] fs']; simpl; [|by left|];
      (destruct (asset_joined _ _ _ _) as [[a au]|]; [right; by eexists|by left]). }
  intros [[[[body sha] vis]|]|e] fs'; try by left. case_if; [|apply Hserve]. unfold hbind at 1.
  destruct (privateReadOK_db cfg now r author c db fs' Hd) as (ok & c' & -> & _).
  destruct ok; [apply Hserve|by left].
Qed.

Lemma handlePush_authorised dbnow cfg files now r typ author name c db fs :
  mc_DevInsecureSkipAuth cfg = false → db_wf db → to_lower author = author →
  authorised cfg now r c db (handlePush dbnow cfg files now r typ author name c db fs).
Proof.
  intros Hd Hwf Hlow. unfold MarketServer.handlePush; served. destruct (h_body_err r); [apply hret_authorised|].
  cbv zeta. unfold hbind at 1.
  destruct (verifyWrite_cases cfg now r (h_body r) author c db fs Hd) as (res & c' & -> & Hres).
  destruct res as [signer|e]; [|apply hret_authorised].
  destruct (signer =s? ""); [apply hret_authorised|].
  destruct (String.eqb_spec signer author) as [-> |]; cbn [negb]; [|apply hret_authorised].
  destruct (json_push _) as [recipe|]; [|apply hret_authorised].
  destruct (recipe =s? ""); [apply hret_authorised|].
  destruct (ParseRecipeMeta files recipe) as [meta|[]]; try apply hret_authorised.
  destruct (negb (am_Name meta =s? name)); [apply hret_authorised|].
  destruct (_ && _); [apply hret_authorised|]. destruct (_ && _); [apply hret_authorised|].
  apply mutation_authorised with (author := author) (body := h_body r); [by left|done| |].
  - rewrite <-Hlow at 1. by apply (PutAsset_touches db (mkPush typ author meta recipe _)).
  - by intros [a|[]].
Qed.

Lemma mutations_authorised dbnow cfg now r typ author name c db fs :
  mc_DevInsecureSkipAuth cfg = false → db_wf db → to_lower author = author →
  authorised cfg now r c db (handleVisibility dbnow cfg now r typ author name c db fs) ∧
  authorised cfg now r c db (handlePrice dbnow cfg now r typ author name c db fs) ∧
  authorised cfg now r c db (handleMeta dbnow cfg now r typ author name c db fs) ∧
  authorised cfg now r c db (handleUnpush dbnow cfg now r typ author name c db fs).
Proof.
  intros Hd Hwf Hlow. split_and!.
  - apply gated_authorised; [done|]. intros c' Hs. destruct (json_visibility _); [|apply hret_authorised].
    destruct (_ && _); [apply hret_authorised|].
    apply mutation_authorised with (author := author) (body := h_body r); [by left|done| |];
      [|intros; apply writeMutation_db]. rewrite <-Hlow at 1. by apply SetVisibility_touches.
  - assert (∀ price token c', signed cfg now r c (h_body r) author author → authorised cfg now r c db
      ((let~ res := hstore (SetPrice typ author name price token dbnow) in
        writeMutation dbnow typ author name res) c' db fs)) as Hset.
    { intros price token c' Hs.
      apply mutation_authorised with (author := author) (body := h_body r); [by left|done| |];
        [|intros; apply writeMutation_db]. rewrite <-Hlow at 1. by apply SetPrice_touches. }
    apply gated_authorised; [done|]. intros c' Hs. destruct (json_price _) as [b|]; [|apply hret_authorised].
    destruct (_ || _); [by apply Hset|]. destruct (negb _); [|apply hret_authorised].
    destruct (pb_Token b =s? ""); [apply hret_authorised|by apply Hset].
  - apply gated_authorised; [done|]. intros c' Hs. destruct (json_meta _) as [[tags summary]|]; [|apply hret_authorised].
    assert (∀ t s c', authorised cfg now r c db
      ((let~ res := hstore (SetMeta typ author name t s dbnow) in writeMutation dbnow typ author name res) c' db fs)) as Hset.
    { intros t s c2.
      apply mutation_authorised with (author := author) (body := h_body r); [by left|done| |];
        [|intros; apply writeMutation_db]. rewrite <-Hlow at 1. by apply SetMeta_touches. }
    destruct (normalizeTags <$> tags), summary; first [apply Hset|apply hret_authorised].
  - apply gated_authorised; [done|]. intros c' Hs.
    apply mutation_authorised with (author := author) (body := ""%string); [by right|done| |by intros [[|]|]].
    rewrite <-Hlow at 1. by apply DeleteAsset_touches.
Qed.

Lemma of_db {A} cfg now r c db (out : A * nonceCache * DB * schedule) :
  downloads_only db out.1.2 → authorised cfg now r c db out.
Proof. destruct out as [[[a c'] db'] fs']. by left. Qed.

Lemma of_same {A} cfg now r c db (out : A * nonceCache * DB * schedule) :
  out.1.2 = db → authorised cfg now r c db out.
Proof. intros He. apply of_db. by left. Qed.

(** Only the author writes: whatever the request, whatever statements fail,
    a server that is not in the insecure development mode changes the tables in
    one of two ways — it counts a download, or the request carries a fresh,
    in-window signature over its method, URI and body, recovered to the author
    named in the path, and then every row of every other author (author,
    assets, versions) stays exactly as it was. *)
Theorem only_author_writes {L : GoUnicodeLaws U} (cfg : market_config) (files : gmap string string) (now : Z)
  (dbnow : string) (r : http_request) (c : nonceCache) (db : DB) (fs : schedule) :
  mc_DevInsecureSkipAuth cfg = false → db_wf db →
  authorised cfg now r c db (serve dbnow cfg files now r c db fs).
Proof.
  intros Hd Hwf. unfold MarketServer.serve. case_if.
  { unfold MarketServer.handleAssetsList; served. case_if; [apply hret_authorised|]. cbv zeta.
    destruct (_ && _); [apply hret_authorised|]. apply hstore_read; [apply list_assets_keeps, _|].
    intros [[items total]|e] fs'; apply hret_authorised. }
  case_if; [|by case_if; apply hret_authorised]. unfold MarketServer.handleAssetsPath; served. cbv zeta.
  destruct (_ =s? ""); [apply hret_authorised|].
  assert (∀ typ author name sub, authorised cfg now r c db
    (handleAsset dbnow cfg files now r typ (to_lower author) name sub c db fs)) as Hasset.
  { intros typ author name sub.
    destruct (mutations_authorised dbnow cfg now r typ (to_lower author) name c db fs Hd Hwf
                (to_lower_idem author)) as (Hv & Hp & Hm & Hu).
    unfold MarketServer.handleAsset; served. cbv zeta.
    repeat match goal with |- context [if ?b then _ else _] => destruct b end;
      first [apply hret_authorised
            |by apply of_same, handleGetMeta_db
            |by apply handlePush_authorised; [done..|apply to_lower_idem]
            |done
            |by apply of_db, handleInstall_db
            |unfold MarketServer.handleVersions; served; apply hstore_read; [apply ListVersions_keeps, _|intros [[|]|] fs'; apply hret_authorised]]. }
  destruct (split_byte _ _) as [|s0 [|s1 [|s2 [|s3 [|s4 ?]]]]]; try apply hret_authorised.
  - destruct (s0 =s? "mine"); [|apply hret_authorised]. unfold MarketServer.handleMine; served. case_if; [apply hret_authorised|].
    unfold hbind at 1.
    destruct (verifyWrite_cases cfg now r "" "mine" c db fs Hd) as (res & c' & -> & _).
    destruct res as [signer|e]; [|apply hret_authorised].
    destruct (signer =s? ""); [apply hret_authorised|]. cbv zeta. apply of_same.
    apply (hstore_read _ _ (λ out, out.1.2 = db)); [apply list_assets_keeps, _|].
    by intros [[items total]|e] fs'.
  - destruct (negb (ValidTypes s0)); [apply hret_authorised|apply Hasset].
  - destruct (negb (ValidTypes s0)); [apply hret_authorised|apply Hasset].
Qed.

(** ** Replay *)

(** A clock value far from the ends of int64, with the window added or
    subtracted. *)
Definition sane (cfg : market_config) (now : Z) : Prop :=
  in_i64 (now - mc_ReplayWinS cfg) ∧ in_i64 (now + mc_ReplayWinS cfg) ∧
  in_i64 (now + mc_ReplayWinS cfg + mc_ReplayWinS cfg).

(** The nonce cache after further verifications, each at its own time. *)
Definition verify_all (cfg : market_config)
  (l : list (Z * http_request * string * string)) (c : nonceCache) (db : DB) (fs : schedule) : nonceCache :=
  fold_left (λ c '(now, r, body, target), (verifyWrite cfg now r body target c db fs).1.1.2) l c.

Lemma useOnce_keeps c nonce' expiry' now k e :
  c !! k = Some e → now ≤ e → (useOnce c nonce' expiry' now).2 !! k = Some e.
Proof.
  intros Hk He. unfold useOnce.
  assert (filter (λ kv, now ≤ kv.2) c !! k = Some e) as Hf by (by apply map_lookup_filter_Some).
  destruct (filter (λ kv, now ≤ kv.2) c !! nonce') eqn:En; [done|]. cbn [snd].
  rewrite lookup_insert_ne; [done|]. intros ->. congruence.
Qed.

Lemma verifyWrite_keeps cfg now r body target c db fs k e :
  mc_DevInsecureSkipAuth cfg = false →
  c !! k = Some e → now ≤ e → (verifyWrite cfg now r body target c db fs).1.1.2 !! k = Some e.
Proof.
  intros Hd Hk He. destruct (verifyWrite_shape (T:=M) (F:=Hn) cfg now r body target Hd) as [-> | (ts & signer & _ & ->)];
    [done|]. served; unfold hbind, huse_once.
  pose proof (useOnce_keeps c (h_header r "X-ISANN-Nonce") (wrap_i64 (ts + mc_ReplayWinS cfg)) now k e Hk He).
  destruct (useOnce _ _ _ _) as [fresh c']. by destruct fresh.
Qed.

(** With a sane clock the window is what it says. *)
Lemma vouched_window cfg now r body target signer ts :
  sane cfg now → 0 ≤ mc_ReplayWinS cfg → vouched cfg now r body target signer ts →
  now ≤ ts + mc_ReplayWinS cfg ∧ in_i64 (ts + mc_ReplayWinS cfg).
Proof.
  intros (S1 & S2 & S3) Hw (_ & _ & _ & _ & [W1 W2] & _).
  rewrite wrap_i64_id in W1 by done. rewrite wrap_i64_id in W2 by done. unfold in_i64 in *. lia.
Qed.

(** An accepted request leaves its nonce in the cache until the end of its
    window. *)
Lemma verifyWrite_records cfg now r body target c db fs signer c' db' fs' :
  mc_DevInsecureSkipAuth cfg = false → sane cfg now → 0 ≤ mc_ReplayWinS cfg →
  verifyWrite cfg now r body target c db fs = (Ok signer, c', db', fs') →
  ∃ ts, parse_int (h_header r "X-ISANN-Timestamp") = (ts, None) ∧
    now ≤ ts + mc_ReplayWinS cfg ∧ in_i64 (ts + mc_ReplayWinS cfg) ∧
    c' !! h_header r "X-ISANN-Nonce" = Some (ts + mc_ReplayWinS cfg).
Proof.
  intros Hd Hs Hw. destruct (verifyWrite_shape (T:=M) (F:=Hn) cfg now r body target Hd) as [-> | (ts & sg & Hv & ->)];
    [done|]. served; unfold hbind, huse_once, useOnce.
  destruct (vouched_window _ _ _ _ _ _ _ Hs Hw Hv) as [Hle Hts]. rewrite (wrap_i64_id (ts + _)) by done.
  destruct (filter _ c !! _) eqn:Ef; cbn [negb]; [done|]. intros [= _ <- _ _].
  exists ts. destruct Hv as (_ & _ & _ & Hp & _). split_and!; [done..|]. apply lookup_insert_eq.
Qed.

(** A signed request is accepted at most once: after a server (not in
    development mode) accepts a request, then verifies any other requests in
    between, as long as the clock does not go back, the same nonce and timestamp
    are refused for ever, whatever body, path or signature they come with —
    either the timestamp has left the window or the nonce is still in the
    cache, since entries are dropped only after their window. *)
Theorem no_replay (cfg : market_config) (t1 t2 : Z) (r1 r2 : http_request) body1 body2 target1 target2
  (mid : list (Z * http_request * string * string)) (c c1 : nonceCache) (db : DB) (fs : schedule) signer db1 fs1 :
  mc_DevInsecureSkipAuth cfg = false → 0 ≤ mc_ReplayWinS cfg → sane cfg t1 → sane cfg t2 →
  verifyWrite cfg t1 r1 body1 target1 c db fs = (Ok signer, c1, db1, fs1) →
  Forall (λ x, x.1.1.1 ≤ t2) mid →
  h_header r2 "X-ISANN-Nonce" = h_header r1 "X-ISANN-Nonce" →
  h_header r2 "X-ISANN-Timestamp" = h_header r1 "X-ISANN-Timestamp" →
  (verifyWrite cfg t2 r2 body2 target2 (verify_all cfg mid c1 db fs) db fs).1.1.1 =
    Err (RErr 401 "unauthorized").
Proof.
  intros Hd Hw Hs1 Hs2 Hv Hmid Hn Ht.
  destruct (verifyWrite_records _ _ _ _ _ _ _ _ _ _ _ _ Hd Hs1 Hw Hv) as (ts & Hts & Hle & Hin & Hc1).
  destruct (verifyWrite_cases cfg t2 r2 body2 target2 (verify_all cfg mid c1 db fs) db fs Hd)
    as (res & c' & -> & Hres). simpl. destruct res as [signer2|e]; [exfalso|by rewrite Hres].
  destruct Hres as (ts' & (sig & addr & _ & Hts' & [Hwin _] & _ & _) & Hfresh).
  rewrite Ht, Hts in Hts'. injection Hts' as <-.
  destruct Hs2 as (S1 & S2 & S3). rewrite wrap_i64_id in Hwin by done.
  assert (verify_all cfg mid c1 db fs !! h_header r1 "X-ISANN-Nonce" = Some (ts + mc_ReplayWinS cfg)) as Hc.
  { unfold verify_all. clear Hfresh Hv; revert c1 Hc1. induction Hmid as [|[[[now r] body] target] mid Hx Hmid IH];
      intros c1 Hc1; [done|]. cbn [fold_left]. simpl in Hx. apply IH.
    apply verifyWrite_keeps; [done..|]. lia. }
  rewrite Hn in Hfresh. unfold useOnce in Hfresh.
  assert (filter (λ kv, t2 ≤ kv.2) (verify_all cfg mid c1 db fs) !! h_header r1 "X-ISANN-Nonce" =
    Some (ts + mc_ReplayWinS cfg)) as Hf by (apply map_lookup_filter_Some; split; [done|simpl; lia]).
  by rewrite Hf in Hfresh.
Qed.

(** ** Private assets *)


(** ** Pushing *)

(** C31: What a push stores is what was signed and declared: when a push answers
    "created", the decoded recipe was parsed by the server itself, declares the
    path's name and, if any, the path's author, for an app passes the platform
    check, and the database holds that version with exactly the recipe text and
    its SHA-256. *)
Theorem push_stores_declared (cfg : market_config) (files : gmap string string) (now : Z) (dbnow : string)
  (r : http_request) (typ author name : string) (c c' : nonceCache) (db db' : DB) (fs fs' : schedule) a :
  db_wf db →
  handlePush dbnow cfg files now r typ author name c db fs = (RCreated a, c', db', fs') →
  ∃ recipe meta, json_push (h_body r) = Some recipe ∧ ParseRecipeMeta files recipe = Ok meta ∧
    am_Name meta = name ∧ (am_Author meta = ""%string ∨ equal_fold (am_Author meta) author = true) ∧
    (typ = "app"%string → ValidateAppRecipe recipe = true) ∧
    ∃ aid id, published (mkPush typ author meta recipe (hex_encode (sha256 recipe))) aid id db'.
Proof.
  intros Hwf. unfold MarketServer.handlePush; served. destruct (h_body_err r); [done|]. cbv zeta. unfold hbind at 1.
  assert (∃ res c0, verifyWrite cfg now r (h_body r) author c db fs = (res, c0, db, fs) ∧
    match res with Ok _ => True | Err e => e = RErr 401 "unauthorized" end) as (res & c0 & -> & Hres).
  { destruct (mc_DevInsecureSkipAuth cfg) eqn:Hd; [unfold MarketServer.verifyWrite; served; unfold hbind, huse_once; rewrite Hd; by eexists _, _|].
    destruct (verifyWrite_cases cfg now r (h_body r) author c db fs Hd) as (res & c0 & -> & Hres).
    eexists _, _. split; [done|]. by destruct res. }
  destruct res as [signer|e]; [|by rewrite Hres].
  destruct (signer =s? ""); [done|]. destruct (negb (signer =s? author)); [done|].
  destruct (json_push _) as [recipe|]; [|done]. destruct (recipe =s? ""); [done|].
  destruct (ParseRecipeMeta files recipe) as [meta|[]] eqn:Em; try done.
  destruct (String.eqb_spec (am_Name meta) name) as [Hn|]; cbn [negb]; [|done].
  destruct (negb (am_Author meta =s? "") && _) eqn:Ea; [done|].
  destruct ((typ =s? "app") && _) eqn:Et; [done|].
  unfold hbind, hstore.
  pose proof (PutAsset_triple db (mkPush typ author meta recipe (hex_encode (sha256 recipe))) dbnow db fs) as Ht.
  destruct (PutAsset _ dbnow db fs) as [[res2 d2] f2].
  destruct res2 as [a2|[]]; try done. intros [= -> -> -> ->].
  destruct Ht as [_ (aid & id & Hp)]; [split; [done|]; split; [by apply evolved_refl|apply foreign_refl]|].
  exists recipe, meta. split_and!; try done; [| |by eauto].
  - apply andb_false_iff in Ea as [Ha%negb_false_iff%String.eqb_eq|Ha%negb_false_iff]; auto.
  - intros ->. simpl in Et. by apply negb_false_iff in Et.
Qed.

(** ** Includes on the server *)

(** A two-line upload including an absolute path of the server. *)
Definition include_upload : string :=
  "#pragma ISANN 0.1.0" ++s str1 newline ++s "include /etc/passwd;" ++s str1 newline.

(** A pushed recipe can read the server's files: the metadata of an upload
    is parsed with its includes resolved on the server, so an include of an
    absolute path makes the server open that file, and the error sent back to
    the client quotes the file's first line. *)
Theorem push_discloses_file (files : gmap string string) (data line : string) (rest : list string) :
  path_is_abs "/etc/passwd" = true → path_abs "/etc/passwd" = "/etc/passwd"%string →
  path_abs "install.ian" ≠ "/etc/passwd"%string →
  files !! "/etc/passwd"%string = Some data →
  split_byte RecipeParser.newline (replace_all data crlf (str1 RecipeParser.newline)) = line :: rest →
  has_prefix (trim_space line) "#pragma" = false →
  ParseRecipeMeta files include_upload = Err (MRecipe (EFirstLine "/etc/passwd" line)).
Proof.
  intros Habs Hp Hne Hf Hl Hpr. unfold ParseRecipeMeta, Parse.
  assert (parseFile "install.ian" include_upload = Ok (mkRecipe "install.ian" "0.1.0" ∅ None
    [mkStmt 2 ["include"; "/etc/passwd"]%string "" "install.ian" CNone []])) as -> by reflexivity.
  cbn [res_bind rc_Statements resolveIncludes s_Argv head default String.eqb Ascii.eqb Bool.eqb negb].
  rewrite Habs. cbn [negb]. rewrite Hp, bool_decide_false by set_solver. rewrite Hf.
  assert (parseFile "/etc/passwd" data = Err (EFirstLine "/etc/passwd" line)) as ->; [|done].
  unfold parseFile. rewrite Hl. cbn [parsePragma]. rewrite Hpr. cbn [negb]. by rewrite orb_true_r.
Qed.
End server.

(** ** Witnesses *)

#[local] Existing Instances ascii_tables toy_sql.
Definition toy_hash : Sha256 := {| sha256 := λ s, s |}.
Definition toy_mjson : MarketJSON := {|
  json_push := λ s, Some s; json_visibility := λ s, Some s;
  json_price := λ s, Some (mkPB s "" false); json_meta := λ s, Some (Some s, None);
  json_string_array := λ _, None; json_string := λ s, Some s |}.
Definition toy_pf : ParseFloat := {| parse_float := λ _, None |}.
Definition toy_po : PathOps := {|
  path_abs := λ p, p; path_dir := λ _, ""%string; path_join := λ _ p, p; path_is_abs := λ _, true |}.
#[local] Existing Instances toy_hash toy_eth toy_mjson toy_pf toy_po.

Definition prod_config : market_config := mkMC 300 false.
Definition dev_config : market_config := mkMC 300 true.
Definition demo_get : http_request :=
  mkHReq "GET" "/v1/assets/agent/0xab/bot" "/v1/assets/agent/0xab/bot" (λ _, ""%string) (λ _, ""%string) "" false.

Lemma only_author_writes_witness :
  authorised prod_config 1000 demo_get ∅ demo_db (serve "t" prod_config ∅ 1000 demo_get ∅ demo_db []).
Proof. apply (only_author_writes prod_config ∅ 1000 "t" demo_get ∅ demo_db []); [reflexivity|exact demo_db_wf]. Defined.

Definition signed_request (ts : string) : http_request :=
  mkHReq "GET" "/v1/assets/mine" "/v1/assets/mine"
    (λ h, if h =s? "Authorization" then "ISANN " ++s hex_encode (be_bytes 20 7 ++s be_bytes 45 0)
          else if h =s? "X-ISANN-Nonce" then "n1" else ts) (λ _, ""%string) "" false.

Lemma no_replay_witness :
  let '(res, c1, db1, fs1) := verifyWrite prod_config 1000 (signed_request "1000") "" "mine" ∅ demo_db [] in
  is_ok res = true ∧
  (verifyWrite prod_config 1200 (signed_request "1000") "" "mine"
     (verify_all prod_config [(1100, demo_get, "", "mine")]%string c1 demo_db []) demo_db []).1.1.1 =
    Err (RErr 401 "unauthorized").
Proof.
  destruct (verifyWrite prod_config 1000 (signed_request "1000") "" "mine" ∅ demo_db [])
    as [[[[signer|e] c1] db1] fs1] eqn:Ev; [|vm_compute in Ev; discriminate Ev].
  split; [reflexivity|].
  apply (no_replay prod_config 1000 1200 (signed_request "1000") (signed_request "1000") "" "" "mine" "mine"
           [(1100, demo_get, "", "mine")]%string ∅ c1 demo_db [] signer db1 fs1
           eq_refl ltac:(discriminate) ltac:(repeat split; discriminate) ltac:(repeat split; discriminate)
           Ev ltac:(repeat constructor; discriminate) eq_refl eq_refl).
Defined.


Definition demo_recipe : string :=
  "#pragma ISANN 0.1.0" ++s str1 newline ++s "# name: bot" ++s str1 newline ++s "# version: 3.0" ++s str1 newline
  ++s "echo hi;".

Lemma push_stores_declared_witness :
  let r := mkHReq "POST" "" "" (λ _, ""%string) (λ _, ""%string) demo_recipe false in
  ∃ recipe meta, json_push demo_recipe = Some recipe ∧ ParseRecipeMeta ∅ recipe = Ok meta ∧
    am_Name meta = "bot"%string ∧ am_Version meta = "3.0"%string.
Proof.
  cbv zeta. set (r := mkHReq "POST" "" "" (λ _, ""%string) (λ _, ""%string) demo_recipe false).
  destruct (handlePush "t" dev_config ∅ 0 r "agent" "0xab" "bot" ∅ demo_db []) as [[[rep c'] db'] fs'] eqn:E.
  assert (∃ a, rep = RCreated a) as [a ->] by (vm_compute in E; injection E as <- _ _ _; eexists; reflexivity).
  destruct (push_stores_declared dev_config ∅ 0 "t" r "agent" "0xab" "bot" ∅ c' demo_db db' [] fs' a demo_db_wf E)
    as (recipe & meta & H1 & H2 & H3 & _).
  exists recipe, meta. split; [exact H1|]. split; [exact H2|]. split; [exact H3|].
  injection H1 as <-. vm_compute in H2. injection H2 as <-. reflexivity.
Defined.

Lemma push_discloses_file_witness :
  ParseRecipeMeta {[ "/etc/passwd"%string := "root:x:0:0" ++s str1 newline ++s "bin:x:1:1" ]} include_upload =
  Err (MRecipe (EFirstLine "/etc/passwd" "root:x:0:0")).
Proof.
  apply (push_discloses_file {[ "/etc/passwd"%string := "root:x:0:0" ++s str1 newline ++s "bin:x:1:1" ]}
           ("root:x:0:0" ++s str1 newline ++s "bin:x:1:1") "root:x:0:0" ["bin:x:1:1"%string]);
    try reflexivity. discriminate.
Defined.
