(* ===== verification/MarketServerConc.v ===== *)
(** * pkg/market: the HTTP server under concurrent requests

    net/http serves each request on a goroutine of its own.  What two requests
    share is the nonce cache, used under its lock, and the database, which
    executes a statement or a transaction as one; between two such actions any
    other request may act.  A request is here the handler of [MarketServer] as a
    program of these actions — the same definition that [MarketServer] runs as a
    function — and a history is the sequence of arrivals and single actions.
    The clock is read between two actions, not under the lock: each arrival
    says what its request will read. *)

From S2P Require Import Prelude GoStrings GoStringsFacts Strconv Hardware GoTime Auth Tunnel.
From S2P Require Import MarketStore MarketStoreTheorems MarketConc MarketApi RecipeParser MarketServer.
From Stdlib Require Import ZArith Lia ZifyBool Bool Ascii String SpecFloat.
From stdpp Require Import base option list gmap strings.

Open Scope go_scope.
Open Scope Z_scope.

(** ** Handlers as programs *)

(** [HNonce]: the goroutine takes the cache's lock, uses the nonce and goes on
    with the outcome; [HStmt]: the database executes [m] in one go. *)
Inductive hprog (A : Type) : Type :=
  | HDone (a : A)
  | HNonce (nonce : string) (expiry now : Z) (k : bool → hprog A)
  | HStmt {B : Type} (m : M B) (k : result store_err B → hprog A).
Arguments HDone {A} a.
Arguments HNonce {A} nonce expiry now k.
Arguments HStmt {A B} m k.

Fixpoint hp_bind {A B} (p : hprog A) (k : A → hprog B) : hprog B :=
  match p with
  | HDone a => k a
  | HNonce nonce expiry now h => HNonce nonce expiry now (λ b, hp_bind (h b) k)
  | HStmt m h => HStmt m (λ r, hp_bind (h r) k)
  end.

(** A method of the store, action by action. *)
Fixpoint hp_store {A} (p : prog A) : hprog (result store_err A) :=
  match p with
  | Done r => HDone r
  | Step m k => HStmt m (λ r, hp_store (k r))
  end.

#[export] Instance server_programs : ServerM prog hprog := {|
  sret := @HDone; sbind := @hp_bind; sstore := @hp_store;
  suse_once nonce expiry now := HNonce nonce expiry now HDone |}.

(** A program run to its end with nobody in between. *)
Fixpoint hrun {A} (p : hprog A) : Hn A := λ c db fs,
  match p with
  | HDone a => (a, c, db, fs)
  | HNonce nonce expiry now k =>
      let '(fresh, c') := useOnce c nonce expiry now in hrun (k fresh) c' db fs
  | HStmt m k => let '(r, db', fs') := m db fs in hrun (k r) c db' fs'
  end.

(** ** The server with requests in flight *)

Section machine.
Context {U : GoUnicode} {Q : SqlEnv} {S256 : Sha256} {E : EthCrypto} {J : MarketJSON}
  {PF : ParseFloat} {PO : PathOps}.

Record hthread := mkHT { ht_req : http_request; ht_now : Z; ht_prog : hprog reply }.

(** One use of the nonce cache: by which request, with what, and its outcome. *)
Record nonce_use := mkUse { nu_by : nat; nu_nonce : string; nu_expiry : Z; nu_now : Z; nu_ok : bool }.

(** The uses in the order the lock was taken, the last first. *)
Record hstate := mkHS {
  hs_nonces : nonceCache; hs_db : DB; hs_threads : list hthread; hs_uses : list nonce_use
}.

Definition hstart (db : DB) : hstate := mkHS ∅ db [] [].

(** A request arrives — [now] is the time its handler will read, [dbnow] the
    database's —, or the i-th request executes its next action, the statements
    failing as [fs] says. *)
Inductive hevent :=
  | Arrive (r : http_request) (now : Z) (dbnow : string)
  | Act (i : nat) (fs : schedule).

Definition serveP (cfg : market_config) (files : gmap string string) (now : Z) (dbnow : string)
  (r : http_request) : hprog reply :=
  serve (T:=prog) (F:=hprog) (St:=sqlStoreP dbnow) cfg files now r.

Definition hstep (cfg : market_config) (files : gmap string string) (s : hstate) (e : hevent) : hstate :=
  match e with
  | Arrive r now dbnow =>
      mkHS (hs_nonces s) (hs_db s) (hs_threads s ++ [mkHT r now (serveP cfg files now dbnow r)]) (hs_uses s)
  | Act i fs =>
      match hs_threads s !! i with
      | Some (mkHT r now (HNonce nonce expiry t k)) =>
          let '(fresh, c') := useOnce (hs_nonces s) nonce expiry t in
          mkHS c' (hs_db s) (<[i := mkHT r now (k fresh)]> (hs_threads s))
            (mkUse i nonce expiry t fresh :: hs_uses s)
      | Some (mkHT r now (HStmt m k)) =>
          let '(res, db', _) := m (hs_db s) fs in
          mkHS (hs_nonces s) db' (<[i := mkHT r now (k res)]> (hs_threads s)) (hs_uses s)
      | _ => s
      end
  end.

Definition hcrun (cfg : market_config) (files : gmap string string) (h : list hevent) (s : hstate) : hstate :=
  fold_left (hstep cfg files) h s.

(** The reply of the i-th request, once it is written. *)
Definition replied (s : hstate) (i : nat) : option reply :=
  match hs_threads s !! i with Some (mkHT _ _ (HDone a)) => Some a | _ => None end.
End machine.

(** ** A request that is alone *)

(** Open the classes at their instances. *)
Ltac opened :=
  cbn beta iota delta [sret sbind sstore suse_once server_functions server_programs sqlStore sqlStoreP
    st_ListAssets st_ListMine st_GetAsset st_ListVersions st_GetRecipe st_PutAsset
    st_SetVisibility st_SetPrice st_SetMeta st_DeleteAsset st_IncrDownloads].

Section alone.
Context {U : GoUnicode} {Q : SqlEnv} {S256 : Sha256} {E : EthCrypto} {J : MarketJSON}
  {PF : ParseFloat} {PO : PathOps}.

(** Equal as functions. *)
Definition same {A} (p : hprog A) (m : Hn A) : Prop := ∀ c db fs, hrun p c db fs = m c db fs.

Lemma hrun_bind {A B} (p : hprog A) (k : A → hprog B) c db fs :
  hrun (hp_bind p k) c db fs = hbind (hrun p) (λ a, hrun (k a)) c db fs.
Proof.
  revert c db fs. induction p as [a|nonce expiry now h IH|C m h IH]; intros c db fs; [done|simpl; unfold hbind; simpl..].
  - destruct (useOnce _ _ _ _) as [fresh c']. apply IH.
  - destruct (m db fs) as [[r db'] fs']. apply IH.
Qed.

Lemma hrun_store {A} (p : prog A) c db fs : hrun (hp_store p) c db fs = hstore (run p) c db fs.
Proof.
  revert db fs. induction p as [r|B m k IH]; intros db fs; [done|]. simpl. unfold hstore. simpl.
  destruct (m db fs) as [[r db'] fs']. apply IH.
Qed.

Lemma same_ret {A} (a : A) : same (HDone a) (hret a).
Proof. done. Qed.

Lemma same_bind {A B} (p : hprog A) (m : Hn A) (k : A → hprog B) (h : A → Hn B) :
  same p m → (∀ a, same (k a) (h a)) → same (hp_bind p k) (hbind m h).
Proof.
  intros Hm Hk c db fs. rewrite hrun_bind. unfold hbind. rewrite Hm.
  destruct (m c db fs) as [[[a c'] db'] fs']. apply Hk.
Qed.

Lemma same_store {A} (p : prog A) (m : M A) :
  (∀ db fs, run p db fs = m db fs) → same (hp_store p) (hstore m).
Proof. intros Hm c db fs. rewrite hrun_store. unfold hstore. by rewrite Hm. Qed.

Lemma same_use nonce expiry now : same (HNonce nonce expiry now HDone) (huse_once nonce expiry now).
Proof. intros c db fs. simpl. unfold huse_once. by destruct (useOnce _ _ _ _). Qed.

(** Walk both down together. *)
Ltac same_step :=
  match goal with
  | |- same (let x := ?v in _) _ => cbv zeta
  | |- same (HDone _) _ => apply same_ret
  | |- same (hp_bind _ _) _ => apply same_bind; [|intros ?]
  | |- same (HNonce _ _ _ HDone) _ => apply same_use
  | |- same (hp_store _) _ => apply same_store; intros ? ?
  | |- same (if ?b then _ else _) _ => destruct b
  | |- same (match ?x with _ => _ end) _ => destruct x
  end.
Ltac same_tac := opened; repeat same_step.

Lemma verifyWrite_alone cfg now r body target :
  same (verifyWrite (T:=prog) (F:=hprog) cfg now r body target) (verifyWrite (T:=M) (F:=Hn) cfg now r body target).
Proof. unfold verifyWrite. same_tac. Qed.

Lemma gated_alone cfg now r body author k h :
  same k h →
  same (gated (T:=prog) (F:=hprog) cfg now r body author k) (gated (T:=M) (F:=Hn) cfg now r body author h).
Proof.
  intros Hk. unfold gated, verifyWriteAuthor. opened. repeat first [apply verifyWrite_alone|done|same_step].
Qed.

Lemma privateReadOK_alone cfg now r author :
  same (privateReadOK (T:=prog) (F:=hprog) cfg now r author) (privateReadOK (T:=M) (F:=Hn) cfg now r author).
Proof. unfold privateReadOK. opened. repeat first [apply verifyWrite_alone|same_step]. Qed.

Section store.
Context (now : string).
#[local] Instance parts : Store prog := sqlStoreP now.
#[local] Instance wholes : Store M := sqlStore now.

Lemma mutation_alone typ author name (p : prog bool) (m : M bool) :
  (∀ db fs, run p db fs = m db fs) →
  same (hp_bind (hp_store p) (writeMutation (T:=prog) (F:=hprog) typ author name))
    (hbind (hstore m) (writeMutation (T:=M) (F:=Hn) typ author name)).
Proof.
  intros Hm. apply same_bind; [by apply same_store|]. intros r. unfold writeMutation, parts, wholes. same_tac.
  apply GetAsset_alone.
Qed.
End store.

Ltac handler_tac :=
  opened; repeat first [apply verifyWrite_alone|apply privateReadOK_alone|apply gated_alone
    |apply mutation_alone; intros ? ?|same_step];
  first [apply list_assets_alone|apply GetAsset_alone|apply GetRecipe_alone|apply run_atomic
        |apply PutAsset_alone|apply SetVisibility_alone|apply SetPrice_alone|apply SetMeta_alone
        |apply DeleteAsset_alone].

(** Nobody in between, the program is the function: the definition the theorems
    of [MarketServerProofs] are about. *)
Theorem serve_alone cfg files now dbnow r :
  same (serveP cfg files now dbnow r) (serve (T:=M) (F:=Hn) (St:=sqlStore dbnow) cfg files now r).
Proof.
  unfold serveP, serve, handleAssetsPath, handleMine, handleAsset, handleGetMeta, handleVersions, handleInstall,
    handlePush, handleVisibility, handlePrice, handleMeta, handleUnpush, handleAssetsList.
  handler_tac.
Qed.
End alone.
