(* ===== verification/MarketServerConcProofs.v ===== *)
(** * pkg/market: who may change what, whatever the interleaving

    For every history of [MarketServerConc]: an action that changes more than a
    download count belongs to a request whose signature covers the path's author
    and whose nonce the cache has accepted, and reaches only what is stored under
    that author; a nonce is accepted once as long as the lock is taken in the
    order of the clock readings — and twice when it is not. *)

From S2P Require Import Prelude GoStrings GoStringsFacts Strconv Hardware GoTime Auth Tunnel.
From S2P Require Import MarketStore MarketStoreProofs MarketStoreTheorems MarketConc MarketConcLogic.
From S2P Require Import MarketConcProofs MarketConcPut MarketApi RecipeParser MarketServer.
From S2P Require Import MarketServerProofs MarketServerConc.
From Stdlib Require Import ZArith Lia ZifyBool Bool Ascii String SpecFloat Sorting.Sorted.
From stdpp Require Import base option list gmap strings sorting.

Open Scope go_scope.
Open Scope Z_scope.

(** ** Programs that only read *)

Fixpoint reads {A} (p : prog A) : Prop :=
  match p with
  | Done _ => True
  | Step m k => (∀ db fs, (m db fs).1.2 = db) ∧ ∀ r, reads (k r)
  end.

Lemma reads_atomic {A} (m : M A) : (∀ db fs, (m db fs).1.2 = db) → reads (atomic m).
Proof. done. Qed.
Lemma reads_bind {A B} (p : prog A) (k : A → prog B) : reads p → (∀ a, reads (k a)) → reads (pbind p k).
Proof. intros Hp Hk. induction p as [[a|e]|C m h IH]; simpl in *; [apply Hk|done|]. split; [apply Hp|]. intros r. by apply IH, Hp. Qed.
Lemma reads_catch {A} (p : prog A) : reads p → reads (pcatch p).
Proof. intros Hp. induction p as [r|C m h IH]; simpl in *; [done|]. split; [apply Hp|]. intros r. by apply IH, Hp. Qed.

Ltac reads_step :=
  match goal with
  | |- reads (let x := _ in _) => cbv zeta
  | |- reads (pret _) => done
  | |- reads (praise _) => done
  | |- reads (pbind _ _) => apply reads_bind; [|intros ?]
  | |- reads (pcatch _) => apply reads_catch
  | |- reads (atomic (query _)) => apply reads_atomic, query_same
  | |- reads (atomic (query_row _)) => apply reads_atomic, query_row_same
  | |- reads (atomic (ListVersions _ _ _)) => apply reads_atomic, ListVersions_same
  | |- reads (if ?b then _ else _) => destruct b
  | |- reads (match ?x with _ => _ end) => destruct x
  end.

Section secure.
Context {U : GoUnicode} {Q : SqlEnv} {S256 : Sha256} {E : EthCrypto} {J : MarketJSON}
  {PF : ParseFloat} {PO : PathOps}.

Lemma list_assetsP_reads f mine pub : reads (list_assetsP f mine pub).
Proof. unfold list_assetsP. repeat reads_step. Qed.
Lemma GetAssetP_reads typ eoa name version : reads (GetAssetP typ eoa name version).
Proof. unfold GetAssetP. repeat reads_step. Qed.
Lemma GetRecipeP_reads typ eoa name version : reads (GetRecipeP typ eoa name version).
Proof. unfold GetRecipeP. repeat reads_step. Qed.
Lemma ListVersions_reads typ eoa name : reads (atomic (ListVersions typ eoa name)).
Proof. repeat reads_step. Qed.

(** ** Programs that write under a signature *)

(** What an action may do to the tables for a request that speaks for [v]. *)
Definition own_rows (a : string) (db db' : DB) : Prop :=
  grown db db' ∧ ∀ K : nkey, K.1.2 ≠ a → insulated K db db'.
Definition allowed (v : option string) (db db' : DB) : Prop :=
  downloads_only db db' ∨ ∃ a, v = Some a ∧ own_rows a db db'.

(** Others: nothing but the keys is asked of them. *)
Notation others := (rely (λ _ : nkey, false)).

Lemma downloads_grown db db' : db_keys db → downloads_only db db' → grown db db'.
Proof. intros Hk [-> | [id ->]]; [by apply grown_refl|]. by apply guar_incr. Qed.

Lemma allowed_grown v db db' : db_keys db → allowed v db db' → grown db db'.
Proof. intros Hk [H|(a & _ & H & _)]; [by apply downloads_grown|done]. Qed.

Lemma allowed_others v db db' : allowed v db db' → others db db'.
Proof. intros H Hk. split; [by eapply allowed_grown|done]. Qed.

Context (cfg : market_config) (now : Z) (r : http_request).

(** The request carries its author's signature over what it was sent. *)
Definition speaks_for (a : string) (ts : Z) : Prop :=
  ∃ body, (body = h_body r ∨ body = ""%string) ∧ vouched cfg now r body a a ts.

(** From [db], whatever the others do before each action: every action is
    allowed, a nonce is used only after its signature was checked, and the
    request speaks for an author only once its nonce is accepted. *)
Fixpoint secure {A} (P : option string → A → Prop) (v : option string) (p : hprog A) (db : DB) : Prop :=
  match p with
  | HDone a => P v a
  | HNonce nonce expiry t k =>
      nonce = h_header r "X-ISANN-Nonce" ∧ t = now ∧
      ∃ body target signer ts, vouched cfg now r body target signer ts ∧
        expiry = wrap_i64 (ts + mc_ReplayWinS cfg) ∧
      ∃ v', (v' = v ∨ ∃ a, v' = Some a ∧ speaks_for a ts) ∧
      ∀ db', others db db' → secure P v' (k true) db' ∧ secure P v (k false) db'
  | HStmt m k => ∀ db' fs, others db db' →
      let '(res, db'', _) := m db' fs in allowed v db' db'' ∧ secure P v (k res) db''
  end.

Lemma secure_stable {A} P v (p : hprog A) db db' : others db db' → secure P v p db → secure P v p db'.
Proof.
  intros HR. destruct p as [a|nonce expiry t k|B m k]; simpl; [done| |].
  - intros (Hn & Ht & body & target & signer & ts & Hv & He & v' & Hv' & Hk). split_and!; [done..|].
    exists body, target, signer, ts. split_and!; [done..|]. exists v'. split; [done|].
    intros d Hd. apply Hk. by etrans.
  - intros H d fs Hd. apply H. by etrans.
Qed.

(** From any database in order. *)
Definition secures {A} (v : option string) (p : hprog A) (P : option string → A → Prop) : Prop :=
  ∀ db, db_keys db → secure P v p db.
Notation any := (λ _ _, True).

Lemma secures_ret {A} v (a : A) (P : option string → A → Prop) : P v a → secures v (HDone a) P.
Proof. by intros H db _. Qed.

Lemma secures_bind {A B} v (p : hprog A) (k : A → hprog B) P1 P :
  secures v p P1 → (∀ v' a, P1 v' a → secures v' (k a) P) → secures v (hp_bind p k) P.
Proof.
  intros Hp Hk db Hdb. specialize (Hp db Hdb). revert v db Hdb Hp.
  induction p as [a|nonce expiry t h IH|C m h IH]; intros v db Hdb Hp; simpl in *; [by apply (Hk v a)| |].
  - destruct Hp as (Hn & Ht & body & target & signer & ts & Hv & He & v' & Hv' & Hh). split_and!; [done..|].
    exists body, target, signer, ts. split_and!; [done..|]. exists v'. split; [done|].
    intros d Hd. pose proof (ev_dbkeys _ _ (proj1 (Hd Hdb))). destruct (Hh d Hd) as [H1 H2]. by split; apply IH.
  - intros d fs Hd. specialize (Hp d fs Hd). pose proof (ev_dbkeys _ _ (proj1 (Hd Hdb))) as Hkd.
    destruct (m d fs) as [[res d'] fs']. destruct Hp as [Ha Hs]. split; [done|]. apply IH; [|done].
    by apply ev_dbkeys with d, allowed_grown with v.
Qed.

Lemma secures_read {A} v (p : prog A) : reads p → secures v (hp_store p) any.
Proof.
  intros Hp db _. revert db. induction p as [res|B m k IH]; intros db; simpl in *; [done|].
  intros d fs _. destruct Hp as [Hm Hk]. specialize (Hm d fs). destruct (m d fs) as [[res d'] fs']. simpl in Hm. subst d'.
  split; [by left; left|]. by apply IH.
Qed.

(** A method of the store under the author's name, by its guarantee. *)
Lemma secures_write {A} a (K : nkey) del Ev (p : prog A) QQ :
  rt others (guar (Some K) del) Ev (λ _ db, db_keys db ∧ True) p QQ → K.1.2 = a →
  secures (Some a) (hp_store p) any.
Proof.
  intros Hp Ha db Hk. specialize (Hp false db (conj Hk I)). clear Hk. revert Hp. set (w := false) at 2. clearbody w.
  revert db w. induction p as [res|B m k IH]; intros db w Hp; simpl in *; [done|].
  intros d fs Hd. specialize (Hp d fs Hd). destruct (m d fs) as [[res d'] fs']. destruct Hp as (HG & w' & _ & Hrg).
  split; [|by apply (IH _ _ w')]. right. exists a. split; [done|]. split; [apply HG|].
  intros K' HK'. apply (gu_insulated _ _ _ _ HG). congruence.
Qed.

Lemma secures_incr v typ eoa name : secures v (hp_store (atomic (IncrDownloads typ eoa name))) any.
Proof.
  intros db _. simpl. intros d fs _. unfold IncrDownloads, exec, stmt.
  destruct fs as [|[msg|] fs]; simpl; (split; [|done]); left; try (by left);
    (destruct (asset_joined _ _ _ _) as [[b bu]|]; [right; by eexists|by left]).
Qed.

(** *** The handlers *)

Context (Hprod : mc_DevInsecureSkipAuth cfg = false).
Notation verifyWriteP := (verifyWrite (T:=prog) (F:=hprog) cfg now r).

Lemma verifyWrite_secures v body target :
  body = h_body r ∨ body = ""%string →
  secures v (verifyWriteP body target) (λ v' res, res = Ok target → v' = Some target).
Proof.
  intros Hb. destruct (verifyWrite_shape (T:=prog) (F:=hprog) cfg now r body target Hprod)
    as [-> | (ts & signer & Hv & ->)]; opened; [by apply secures_ret|].
  intros db _. simpl. split_and!; [done..|]. exists body, target, signer, ts. split_and!; [done..|].
  destruct (String.eqb_spec signer target) as [-> | Hne].
  - exists (Some target). split; [right; exists target; split; [done|by exists body]|].
    intros db' _. by split.
  - exists v. split; [by left|]. intros db' _. split; simpl; [congruence|done].
Qed.

Lemma any_bind {A B} v (p : hprog A) (k : A → hprog B) :
  secures v p any → (∀ v a, secures v (k a) any) → secures v (hp_bind p k) any.
Proof. intros Hp Hk. by eapply secures_bind; [apply Hp|]. Qed.

Lemma privateReadOK_secures v author :
  secures v (privateReadOK (T:=prog) (F:=hprog) cfg now r author) any.
Proof.
  unfold privateReadOK. opened. eapply secures_bind; [apply verifyWrite_secures; by right|].
  intros v' [signer|e] _; by apply secures_ret.
Qed.

Lemma gated_secures v body author k :
  body = h_body r ∨ body = ""%string → secures (Some author) k any →
  secures v (gated (T:=prog) (F:=hprog) cfg now r body author k) any.
Proof.
  intros Hb Hk. unfold gated, verifyWriteAuthor. opened.
  eapply secures_bind with (P1 := λ v' res, is_ok res = true → v' = Some author).
  - eapply secures_bind; [by apply verifyWrite_secures|]. intros v' [signer|e] Hv; [|by apply secures_ret].
    destruct (signer =s? ""); [by apply secures_ret|].
    destruct (String.eqb_spec signer author) as [-> |]; apply secures_ret; [auto|done].
  - intros v' [signer|e] Hv; [|by apply secures_ret]. by rewrite (Hv eq_refl).
Qed.

Section methods.
Context (dbnow : string).
#[local] Instance methods : Store prog := sqlStoreP dbnow.

Lemma writeMutation_secures v typ author name res :
  secures v (writeMutation (T:=prog) (F:=hprog) typ author name res) any.
Proof.
  unfold writeMutation, methods. opened. destruct res as [[|]|[]]; try by apply secures_ret.
  apply any_bind; [apply secures_read, GetAssetP_reads|]. intros v' [[[a vs]|]|e]; by apply secures_ret.
Qed.
End methods.
End secure.

Notation any := (λ _ _, True).

(** Walk a handler down to its store calls. *)
Ltac secures_step :=
  match goal with
  | |- secures _ _ _ _ (let x := _ in _) _ => cbv zeta
  | |- secures _ _ _ _ (HDone _) _ => by apply secures_ret
  | |- secures _ _ _ _ (hp_store (atomic (IncrDownloads _ _ _))) _ => apply secures_incr
  | |- secures _ _ _ _ (hp_bind _ _) _ => apply any_bind; [|intros ? ?]
  | |- secures _ _ _ _ (writeMutation _ _ _ _) _ => apply writeMutation_secures
  | |- secures _ _ _ _ (privateReadOK _ _ _ _) _ => by apply privateReadOK_secures
  | |- secures _ _ _ _ (gated _ _ _ _ _ _) _ => apply gated_secures; [done|auto|]
  | |- secures _ _ _ _ (if ?b then _ else _) _ => destruct b
  | |- secures _ _ _ _ (match ?x with _ => _ end) _ => destruct x
  end.

Section handlers.
Context {U : GoUnicode} {L : GoUnicodeLaws U} {Q : SqlEnv} {S256 : Sha256} {E : EthCrypto} {J : MarketJSON}
  {PF : ParseFloat} {PO : PathOps}.
Context (cfg : market_config) (now : Z) (r : http_request) (dbnow : string).
Context (Hprod : mc_DevInsecureSkipAuth cfg = false).
#[local] Instance calls_on : Store prog := sqlStoreP dbnow.
#[local] Notation secures := (secures cfg now r).

Lemma reading_secures v typ author name :
  secures v (handleGetMeta (F:=hprog) cfg now r typ author name) any ∧
  secures v (handleInstall (F:=hprog) cfg now r typ author name) any ∧
  secures v (handleVersions (F:=hprog) typ author name) any.
Proof.
  unfold handleGetMeta, handleInstall, handleVersions, calls_on. split_and!; opened; repeat secures_step;
    apply secures_read; first [apply GetAssetP_reads|apply GetRecipeP_reads|apply ListVersions_reads].
Qed.

Lemma handlePush_secures v files typ author name :
  to_lower author = author → secures v (handlePush (F:=hprog) cfg files now r typ author name) any.
Proof.
  intros Hlow. unfold handlePush, calls_on. opened. destruct (h_body_err r); [by apply secures_ret|]. cbv zeta.
  eapply secures_bind; [apply verifyWrite_secures; auto|]. intros v' [signer|e] Hv; [|by apply secures_ret].
  destruct (signer =s? ""); [by apply secures_ret|].
  destruct (String.eqb_spec signer author) as [-> |]; cbn [negb]; [|by apply secures_ret].
  rewrite (Hv eq_refl). repeat secures_step.
  eapply secures_write; [apply (PutAssetP_rt (λ _, false))|]. done.
Qed.

(** A mutation: the gate, a method under the author's name, the reply. *)
Lemma mutations_secures v typ author name :
  to_lower author = author →
  secures v (handleVisibility (F:=hprog) cfg now r typ author name) any ∧
  secures v (handlePrice (F:=hprog) cfg now r typ author name) any ∧
  secures v (handleMeta (F:=hprog) cfg now r typ author name) any ∧
  secures v (handleUnpush (F:=hprog) cfg now r typ author name) any.
Proof.
  intros Hlow.
  unfold handleVisibility, handlePrice, handleMeta, handleUnpush, calls_on. split_and!; opened;
    repeat secures_step;
    (eapply (secures_write _ _ _ author (typ, to_lower author, name) (Some (typ, to_lower author, name))
       (λ _ _, False)); [|done]);
    first [by apply SetVisibilityP_rt|by apply SetPriceP_rt|by apply SetMetaP_rt|by apply DeleteAssetP_rt].
Qed.

(** Every request, from its arrival. *)
Lemma serve_secures files : secures None (serveP cfg files now dbnow r) any.
Proof.
  unfold serveP, serve. opened. case_if.
  { unfold handleAssetsList. opened. repeat secures_step. apply secures_read, list_assetsP_reads. }
  case_if; [|by case_if; apply secures_ret]. unfold handleAssetsPath. opened. cbv zeta.
  destruct (_ =s? ""); [by apply secures_ret|].
  assert (∀ typ author name sub, secures None
    (handleAsset (T:=prog) (F:=hprog) (St:=sqlStoreP dbnow) cfg files now r typ (to_lower author) name sub) any) as Hasset.
  { intros typ author name sub.
    pose proof (to_lower_idem author) as Hlow.
    destruct (reading_secures None typ (to_lower author) name) as (H1 & H2 & H3).
    destruct (mutations_secures None typ (to_lower author) name Hlow) as (H4 & H5 & H6 & H7).
    pose proof (handlePush_secures None files typ (to_lower author) name Hlow) as H8.
    unfold handleAsset. cbv zeta.
    repeat match goal with |- context [if ?b then _ else _] => destruct b end;
      first [assumption|by apply secures_ret]. }
  destruct (split_byte _ _) as [|s0 [|s1 [|s2 [|s3 [|s4 ?]]]]]; try by apply secures_ret.
  - destruct (s0 =s? "mine"); [|by apply secures_ret]. unfold handleMine. opened.
    case_if; [by apply secures_ret|]. eapply secures_bind; [apply verifyWrite_secures; auto|].
    intros v [signer|e] _; repeat secures_step. apply secures_read, list_assetsP_reads.
  - destruct (negb (ValidTypes s0)); [by apply secures_ret|apply Hasset].
  - destruct (negb (ValidTypes s0)); [by apply secures_ret|apply Hasset].
Qed.
End handlers.

(** ** The machine *)

Section machine.
Context {U : GoUnicode} {L : GoUnicodeLaws U} {Q : SqlEnv} {S256 : Sha256} {E : EthCrypto} {J : MarketJSON}
  {PF : ParseFloat} {PO : PathOps}.
Context (cfg : market_config) (files : gmap string string).
Context (Hprod : mc_DevInsecureSkipAuth cfg = false).
Notation others := (rely (λ _ : nkey, false)).

(** The cache has accepted the nonce of request [i], signed with [ts]. *)
Definition accepted (uses : list nonce_use) (i : nat) (t : hthread) (ts : Z) : Prop :=
  ∃ u, u ∈ uses ∧ nu_by u = i ∧ nu_ok u = true ∧ nu_nonce u = h_header (ht_req t) "X-ISANN-Nonce" ∧
    nu_expiry u = wrap_i64 (ts + mc_ReplayWinS cfg).

(** What request [i] may do, it is entitled to. *)
Definition entitled (uses : list nonce_use) (i : nat) (t : hthread) (v : option string) : Prop :=
  ∀ a, v = Some a → ∃ ts, speaks_for cfg (ht_now t) (ht_req t) a ts ∧ accepted uses i t ts.

Definition in_order (db : DB) (uses : list nonce_use) (i : nat) (t : hthread) : Prop :=
  ∃ v, secure cfg (ht_now t) (ht_req t) any v (ht_prog t) db ∧ entitled uses i t v.

(** A use is that of a request whose signature was checked. *)
Definition use_of (threads : list hthread) (u : nonce_use) : Prop :=
  ∃ t body target signer ts, threads !! nu_by u = Some t ∧ vouched cfg (ht_now t) (ht_req t) body target signer ts ∧
    nu_nonce u = h_header (ht_req t) "X-ISANN-Nonce" ∧ nu_now u = ht_now t ∧
    nu_expiry u = wrap_i64 (ts + mc_ReplayWinS cfg).

Record hinv (s : hstate) : Prop := {
  hi_keys : db_keys (hs_db s);
  hi_threads : ∀ i t, hs_threads s !! i = Some t → in_order (hs_db s) (hs_uses s) i t;
  hi_uses : ∀ u, u ∈ hs_uses s → use_of (hs_threads s) u
}.

Lemma hinv_start db : db_keys db → hinv (hstart db).
Proof. intros Hk. split; [done|by intros [|]|]. intros u Hu. by apply elem_of_nil in Hu. Qed.

Lemma in_order_mono db db' uses uses' i t :
  others db db' → (∀ u, u ∈ uses → u ∈ uses') → in_order db uses i t → in_order db' uses' i t.
Proof.
  intros HR Hu (v & Hs & He). exists v. split; [by apply (secure_stable _ _ _ _ _ _ db)|].
  intros a Ha. destruct (He a Ha) as (ts & Hsp & u & Hin & H). exists ts. split; [done|]. exists u. auto.
Qed.

(** The request of a thread never changes. *)
Lemma use_of_mono threads threads' u :
  (∀ i t, threads !! i = Some t → ∃ t', threads' !! i = Some t' ∧ ht_req t' = ht_req t ∧ ht_now t' = ht_now t) →
  use_of threads u → use_of threads' u.
Proof.
  intros Hm (t & body & target & signer & ts & Ht & Hv & H1 & H2 & H3).
  destruct (Hm _ _ Ht) as (t' & Ht' & Hr & Hn). exists t', body, target, signer, ts. rewrite Hr, Hn. by split_and!.
Qed.

Lemma insert_same_req (threads : list hthread) j t0 p :
  threads !! j = Some t0 →
  ∀ i t, threads !! i = Some t → ∃ t', <[j := mkHT (ht_req t0) (ht_now t0) p]> threads !! i = Some t' ∧
    ht_req t' = ht_req t ∧ ht_now t' = ht_now t.
Proof.
  intros Ht0 i t Ht. destruct (decide (i = j)) as [-> | Hne].
  - eexists. split; [apply list_lookup_insert_eq; by eapply lookup_lt_Some|]. simpl. by simplify_eq.
  - exists t. by rewrite list_lookup_insert_ne.
Qed.

Lemma entitled_mono uses uses' i t t' v :
  ht_req t' = ht_req t → ht_now t' = ht_now t → (∀ u, u ∈ uses → u ∈ uses') →
  entitled uses i t v → entitled uses' i t' v.
Proof.
  intros Hr Hn Hu He a Ha. destruct (He a Ha) as (ts & Hsp & u & Hin & H). exists ts. rewrite Hr, Hn.
  split; [done|]. exists u. rewrite Hr. auto.
Qed.

(** After one action of thread [j] its new program is in order, and so are the
    other threads. *)
Lemma hinv_insert s c db uses j t0 p :
  hinv s → hs_threads s !! j = Some t0 → others (hs_db s) db →
  (∀ u, u ∈ hs_uses s → u ∈ uses) → (∀ u, u ∈ uses → u ∈ hs_uses s ∨ use_of (hs_threads s) u) →
  in_order db uses j (mkHT (ht_req t0) (ht_now t0) p) →
  hinv (mkHS c db (<[j := mkHT (ht_req t0) (ht_now t0) p]> (hs_threads s)) uses).
Proof.
  intros [Hk Ht Hu] Hj HR Hsub Hnew Hord. split; simpl.
  - apply ev_dbkeys with (hs_db s), (HR Hk).
  - intros i t Hi. destruct (decide (i = j)) as [-> | Hne].
    + rewrite list_lookup_insert_eq in Hi by (by eapply lookup_lt_Some). by simplify_eq.
    + rewrite list_lookup_insert_ne in Hi by done. by eapply in_order_mono, Ht.
  - intros u Hin. eapply use_of_mono; [by apply insert_same_req|]. destruct (Hnew u Hin) as [?|?]; auto.
Qed.

(** The change an action of thread [i] may make. *)
Definition justified (s : hstate) (i : nat) (db' : DB) : Prop :=
  downloads_only (hs_db s) db' ∨
  ∃ t a ts, hs_threads s !! i = Some t ∧ speaks_for cfg (ht_now t) (ht_req t) a ts ∧
    accepted (hs_uses s) i t ts ∧ own_rows a (hs_db s) db'.

Lemma hinv_act s i fs : hinv s →
  hinv (hstep cfg files s (Act i fs)) ∧ justified s i (hs_db (hstep cfg files s (Act i fs))).
Proof.
  intros Hi. simpl. destruct (hs_threads s !! i) as [[r now p]|] eqn:Ht; [|by split; [|left; left]].
  destruct (hi_threads s Hi i _ Ht) as (v & Hs & He). simpl in Hs.
  destruct p as [a|nonce expiry t k|B m k]; [by split; [|left; left]| |].
  - simpl in Hs. destruct Hs as (-> & -> & body & target & signer & ts & Hv & -> & v' & Hv' & Hk).
    destruct (useOnce _ _ _ _) as [fresh c'] eqn:Eu. split; [|by left; left].
    eapply (hinv_insert s c' (hs_db s) _ i _ (k fresh)) in Ht as Hins; [apply Hins|done|done|..]; simpl.
    + intros u Hu. by right.
    + intros u [-> | Hu]%elem_of_cons; [right|by left]. eexists _, body, target, signer, ts. by split_and!.
    + destruct (Hk (hs_db s) ltac:(reflexivity)) as [Hk1 Hk0]. destruct fresh.
      * exists v'. split; [done|]. destruct Hv' as [-> | (a & -> & Hsp)]; [by eapply entitled_mono; [..|apply He]; try done; by right|].
        intros b [= <-]. exists ts. split; [done|]. eexists. split; [by left|done].
      * exists v. split; [done|]. by eapply entitled_mono; [..|apply He]; try done; by right.
  - simpl in Hs. specialize (Hs (hs_db s) fs ltac:(reflexivity)).
    destruct (m (hs_db s) fs) as [[res db'] fs']. destruct Hs as [Ha Hs]. split.
    + eapply (hinv_insert s _ db' _ i _ (k res)) in Ht as Hins; [apply Hins|done|by eapply allowed_others|done|by left|].
      by exists v.
    + destruct Ha as [Ha|(a & -> & Ha)]; [by left|right]. destruct (He a eq_refl) as (ts & Hsp & Hacc).
      by exists (mkHT r now (HStmt m k)), a, ts.
Qed.

Lemma hinv_step s e : hinv s → hinv (hstep cfg files s e).
Proof.
  intros Hi. destruct e as [r now dbnow|i fs]; [|by apply hinv_act]. destruct Hi as [Hk Ht Hu]. split; simpl; [done| |].
  - intros i t [Hl|[_ Hl]]%lookup_app_Some; [by apply Ht|]. apply list_lookup_singleton_Some in Hl as [_ <-].
    exists None. split; [|done]. simpl. by apply serve_secures.
  - intros u Hin. eapply use_of_mono; [|by apply Hu]. intros i t Hi. exists t. split; [|done].
    by apply lookup_app_l_Some.
Qed.

Lemma hinv_run h s : hinv s → hinv (hcrun cfg files h s).
Proof. revert s. induction h as [|e h IH]; intros s Hi; [done|]. by apply IH, hinv_step. Qed.


(** ** Replay *)

Context (Hwin : 0 ≤ mc_ReplayWinS cfg).

Definition sane_arrival (e : hevent) : Prop :=
  match e with Arrive _ now _ => sane cfg now | Act _ _ => True end.

(** The lock was taken in the order of the clock readings; the last use is the
    head. *)
Definition clock_ordered (uses : list nonce_use) : Prop :=
  StronglySorted (λ u u', nu_now u' ≤ nu_now u) uses.

Definition same_use (u u' : nonce_use) : Prop :=
  nu_nonce u = nu_nonce u' ∧ nu_expiry u = nu_expiry u' ∧ nu_ok u = true ∧ nu_ok u' = true.

(** An accepted use is in the cache until a later clock reading passes its
    expiry, and is the only one of its nonce and expiry. *)
Record once (c : nonceCache) (uses : list nonce_use) : Prop := {
  on_kept : ∀ u, u ∈ uses → nu_ok u = true →
    c !! nu_nonce u = Some (nu_expiry u) ∨ ∃ u', u' ∈ uses ∧ nu_expiry u < nu_now u';
  on_unique : ∀ p q u u', uses !! p = Some u → uses !! q = Some u' → same_use u u' → p = q
}.

Lemma once_use c uses i nonce expiry t :
  let '(fresh, c') := useOnce c nonce expiry t in
  let uses' := mkUse i nonce expiry t fresh :: uses in
  t ≤ expiry → clock_ordered uses' → once c uses → once c' uses'.
Proof.
  destruct (useOnce c nonce expiry t) as [fresh c'] eqn:Eu. intros uses' Hexp Hclock Ho. destruct Ho as [Hkept Huniq].
  apply StronglySorted_inv in Hclock as [_ Hlast]. rewrite Forall_forall in Hlast. simpl in Hlast.
  assert (∀ u, u ∈ uses → nu_ok u = true → nu_nonce u = nonce → nu_expiry u = expiry → fresh = false) as Hused.
  { intros u Hu Hok Hn He. destruct (Hkept u Hu Hok) as [Hc|(u' & Hu' & Hlt)].
    - unfold useOnce in Eu. rewrite Hn, He in Hc.
      assert (filter (λ kv, t ≤ kv.2) c !! nonce = Some expiry) as Hf by (by apply map_lookup_filter_Some).
      rewrite Hf in Eu. by injection Eu.
    - specialize (Hlast u' Hu'). lia. }
  split.
  - intros u [-> | Hu]%elem_of_cons Hok; simpl in *.
    + left. unfold useOnce in Eu. destruct (filter _ c !! nonce); [congruence|]. injection Eu as <- <-. apply lookup_insert_eq.
    + destruct (Hkept u Hu Hok) as [Hc|(u' & Hu' & Hlt)]; [|right; exists u'; split; [by right|done]].
      destruct (Z.le_gt_cases t (nu_expiry u)) as [Hle|Hgt].
      * left. pose proof (useOnce_keeps c nonce expiry t _ _ Hc Hle) as Hk. by rewrite Eu in Hk.
      * right. eexists. split; [by left|]. simpl. lia.
  - intros [|p] [|q] u u' Hu Hu' (Hn & He & H1 & H2); simpl in Hu, Hu'; [done| | |].
    + injection Hu as <-. simpl in *. rewrite (Hused u') in H1; [done|by eapply list_elem_of_lookup_2|done..].
    + injection Hu' as <-. simpl in *. rewrite (Hused u) in H2; [done|by eapply list_elem_of_lookup_2|done..].
    + f_equal. by apply (Huniq p q u u').
Qed.

Definition sane_threads (s : hstate) : Prop := ∀ i t, hs_threads s !! i = Some t → sane cfg (ht_now t).

Lemma hstep_sane s e : sane_arrival e → sane_threads s → sane_threads (hstep cfg files s e).
Proof.
  intros He Hs i t. destruct e as [r now dbnow|j fs]; simpl.
  { intros [Ht|[_ Ht]]%lookup_app_Some; [by apply (Hs i)|]. by apply list_lookup_singleton_Some in Ht as [_ <-]. }
  assert (∀ r now p p', hs_threads s !! j = Some (mkHT r now p) →
    <[j := mkHT r now p']> (hs_threads s) !! i = Some t → sane cfg (ht_now t)) as Hins.
  { intros r now p p' Hj [(-> & <- & _)|[_ Ht]]%list_lookup_insert_Some; [by apply (Hs _ _ Hj)|by apply (Hs i)]. }
  destruct (hs_threads s !! j) as [[r now [a|nonce expiry tt k|B m k]]|] eqn:Hj; try by apply Hs.
  - destruct (useOnce _ _ _ _) as [fresh c']. by eapply Hins.
  - destruct (m _ _) as [[res db'] fs']. by eapply Hins.
Qed.

Lemma hstep_uses s e : ∃ l, hs_uses (hstep cfg files s e) = l ++ hs_uses s.
Proof.
  destruct e as [r now dbnow|j fs]; simpl; [by exists []|].
  destruct (hs_threads s !! j) as [[r now [a|nonce expiry t k|B m k]]|]; try (by exists []).
  - destruct (useOnce _ _ _ _) as [fresh c']. by exists [mkUse j nonce expiry t fresh].
  - destruct (m _ _) as [[res db'] fs']. by exists [].
Qed.

Lemma once_step s e :
  hinv s → sane_threads s → clock_ordered (hs_uses (hstep cfg files s e)) →
  once (hs_nonces s) (hs_uses s) → once (hs_nonces (hstep cfg files s e)) (hs_uses (hstep cfg files s e)).
Proof.
  intros Hi Hs Hc Ho. destruct e as [r now dbnow|j fs]; simpl in *; [done|].
  destruct (hs_threads s !! j) as [[r now [a|nonce expiry t k|B m k]]|] eqn:Hj; try done.
  - destruct (hi_threads s Hi j _ Hj) as (v & Hsec & _). simpl in Hsec.
    destruct Hsec as (-> & -> & body & target & signer & ts & Hv & -> & _).
    pose proof (once_use (hs_nonces s) (hs_uses s) j (h_header r "X-ISANN-Nonce") (wrap_i64 (ts + mc_ReplayWinS cfg)) now) as H.
    destruct (useOnce _ _ _ _) as [fresh c']. simpl in *. apply H; [|done..].
    destruct (vouched_window _ _ _ _ _ _ _ (Hs _ _ Hj) Hwin Hv) as [Hle Hin]. simpl in Hle. by rewrite wrap_i64_id.
  - destruct (m _ _) as [[res db'] fs']. done.
Qed.

Lemma once_run h db0 :
  db_keys db0 → Forall sane_arrival h →
  clock_ordered (hs_uses (hcrun cfg files h (hstart db0))) →
  sane_threads (hcrun cfg files h (hstart db0)) ∧
  once (hs_nonces (hcrun cfg files h (hstart db0))) (hs_uses (hcrun cfg files h (hstart db0))).
Proof.
  intros Hk. induction h as [|e h IH] using rev_ind; intros Hh Hc.
  { split; [by intros [|]|]. split; [|by intros [|]]. intros u Hu. by apply elem_of_nil in Hu. }
  apply Forall_app in Hh as [Hh [He _]%Forall_cons]. unfold hcrun in *. rewrite fold_left_app in *. simpl in *.
  set (s := fold_left (hstep cfg files) h (hstart db0)) in *.
  destruct (hstep_uses s e) as [l Hl].
  assert (clock_ordered (hs_uses s)) as Hc'.
  { unfold clock_ordered in Hc. rewrite Hl in Hc. by apply StronglySorted_app in Hc as (_ & _ & ?). }
  destruct (IH Hh Hc') as [Hs Ho]. split; [by apply hstep_sane|].
  apply once_step; [|done..]. by apply hinv_run, hinv_start.
Qed.

(** C8: A signed request is accepted at most once, however requests
    interleave, provided the nonce cache's lock is taken in the order in which
    the handlers read the clock: once a use of the cache has succeeded, every
    other use, earlier or later, by a request with the same nonce and timestamp
    headers is refused, whatever method, body, path or signature it carries. *)
Theorem no_replay_interleaved (db0 : DB) (h : list hevent) (p q : nat) (u u' : nonce_use) (t t' : hthread) :
  db_keys db0 → Forall sane_arrival h →
  let s := hcrun cfg files h (hstart db0) in
  clock_ordered (hs_uses s) →
  hs_uses s !! p = Some u → hs_threads s !! nu_by u = Some t →
  hs_uses s !! q = Some u' → hs_threads s !! nu_by u' = Some t' →
  h_header (ht_req t) "X-ISANN-Nonce" = h_header (ht_req t') "X-ISANN-Nonce" →
  h_header (ht_req t) "X-ISANN-Timestamp" = h_header (ht_req t') "X-ISANN-Timestamp" →
  p ≠ q → nu_ok u = true → nu_ok u' = false.
Proof.
  intros Hk Hh s Hc Hu Ht Hu' Ht' Hn Hts Hpq Hok. destruct (nu_ok u') eqn:Hok'; [exfalso; apply Hpq|done].
  destruct (once_run h db0 Hk Hh Hc) as [_ [_ Huniq]]. apply (Huniq p q u u'); [done..|].
  assert (hinv s) as Hi by (by apply hinv_run, hinv_start).
  destruct (hi_uses s Hi u) as (t1 & b & tg & sg & ts & Ht1 & Hv & Hn1 & _ & He1); [by eapply list_elem_of_lookup_2|].
  destruct (hi_uses s Hi u') as (t2 & b2 & tg2 & sg2 & ts2 & Ht2 & Hv2 & Hn2 & _ & He2); [by eapply list_elem_of_lookup_2|].
  simplify_eq. destruct Hv as (_ & _ & _ & Hp & _), Hv2 as (_ & _ & _ & Hp2 & _).
  rewrite Hts, Hp2 in Hp. injection Hp as ->. split_and!; congruence.
Qed.
End machine.

(** ** Histories *)

#[local] Existing Instances ascii_tables toy_sql toy_hash toy_eth toy_mjson toy_pf toy_po.

(** A request signed by the address 7. *)
Definition author7 : string := "0x" ++s hex_encode (be_bytes 20 7).
Definition signed_by7 (method path body nonce ts : string) : http_request :=
  mkHReq method path path
    (λ h, if h =s? "Authorization" then "ISANN " ++s hex_encode (be_bytes 20 7 ++s be_bytes 45 0)
          else if h =s? "X-ISANN-Nonce" then nonce else ts) (λ _, ""%string) body false.
Definition mine (nonce ts : string) : http_request := signed_by7 "GET" "/v1/assets/mine" "" nonce ts.
Definition acts (i n : nat) : list hevent := replicate n (Act i []).

(** The request [mine "n1" "1000"] is served; a copy of it arrives in the last
    second of the window, reads the clock and stops before the lock; a request
    with another nonce, a second later, sweeps the expired nonce; the copy goes
    on. *)
Definition replay_history : list hevent :=
  Arrive (mine "n1" "1000") 1000 "t" :: acts 0 3 ++ Arrive (mine "n1" "1000") 1300 "t" ::
  Arrive (mine "n2" "1301") 1301 "t" :: acts 2 3 ++ acts 1 3.

Definition arrival_times (h : list hevent) : list Z :=
  omap (λ e, match e with Arrive _ now _ => Some now | Act _ _ => None end) h.

(** A replay that works: verifyWrite reads the clock before useOnce takes the
    lock, and useOnce sweeps with the caller's reading.  A request whose
    goroutine is held up between the two, across the end of the window, while
    another request sweeps, is accepted a second time: both copies, with the
    same nonce, are answered with the signer's list. *)
Theorem replay_race :
  ∃ h i j, let s := hcrun prod_config ∅ h (hstart empty_db) in
    Sorted Z.le (arrival_times h) ∧ i ≠ j ∧
    ht_req <$> hs_threads s !! i = Some (mine "n1" "1000") ∧ ht_req <$> hs_threads s !! j = Some (mine "n1" "1000") ∧
    replied s i = Some (RItems [] 1 20 0) ∧ replied s j = Some (RItems [] 1 20 0).
Proof.
  exists replay_history, 0%nat, 1%nat. split; [by repeat constructor|]. split; [done|].
  split; [reflexivity|]. split; [reflexivity|]. split; by vm_compute.
Qed.

(** ** Witnesses *)

Definition push7 : http_request :=
  signed_by7 "POST" ("/v1/assets/skill/" ++s author7 ++s "/bot") demo_recipe "n1" "1000".

(** A push with a request of nobody's in between: the action that inserts the
    asset row. *)
Definition push_history : list hevent :=
  Arrive push7 1000 "t" :: Arrive demo_get 1000 "t" :: acts 0 3 ++ acts 1 1 ++ acts 0 1.


(** The copy and the sweeper in the order of their clock readings. *)
Definition refused_history : list hevent :=
  Arrive (mine "n1" "1000") 1000 "t" :: Arrive (mine "n1" "1000") 1300 "t" :: acts 0 1 ++ acts 1 1.

Lemma no_replay_interleaved_witness :
  ∃ u u', hs_uses (hcrun prod_config ∅ refused_history (hstart empty_db)) = [u'; u] ∧
    nu_by u = 0%nat ∧ nu_by u' = 1%nat ∧ nu_ok u = true ∧ nu_ok u' = false.
Proof.
  set (u := mkUse 0 "n1" 1300 1000 true). set (u' := mkUse 1 "n1" 1300 1300 false).
  exists u, u'. split; [by vm_compute|]. split; [reflexivity|]. split; [reflexivity|]. split; [reflexivity|].
  eapply (no_replay_interleaved prod_config ∅ eq_refl ltac:(discriminate) empty_db refused_history 1 0 u u');
    [apply keys_empty|by repeat constructor|by repeat constructor|reflexivity..|discriminate|reflexivity].
Defined.
