(* ===== verification/MarketServerRefines.v ===== *)
(** * pkg/market: the HTTP server is a client of the concurrent store

    Every history of [MarketServerConc] is, seen from the database, a history of
    the concurrent store of [MarketConc]: each request makes its store calls one
    after the other, and the server's actions are the actions of these calls.
    What the store guarantees to any requests it therefore guarantees to HTTP
    clients; of the HTTP pushes of one version at most one is answered 201, and
    what it pushed is what later installs give. *)

From S2P Require Import Prelude GoStrings GoStringsFacts Strconv Hardware GoTime Auth Tunnel.
From S2P Require Import MarketStore MarketStoreProofs MarketStoreTheorems MarketConc MarketConcLogic.
From S2P Require Import MarketConcProofs MarketConcPut MarketConcTheorems MarketConcRuns MarketApi.
From S2P Require Import RecipeParser MarketServer MarketServerProofs MarketServerConc MarketServerConcProofs.
From Stdlib Require Import ZArith Lia ZifyBool Bool Ascii String SpecFloat.
From stdpp Require Import base option list gmap strings.

Open Scope go_scope.
Open Scope Z_scope.

(** A call of the store, with its answer. *)
Notation call := (store_op * result store_err answer)%type.

(** ** Programs that call the store *)

Section flow.
Context {U : GoUnicode} {Q : SqlEnv}.
Context {A : Type} (ok : store_op → Prop) (P : list call → A → Prop).

(** The calls made, once the current one is over. *)
Definition settled (calls : list call) (cur : option (store_op * prog answer)) : option (list call) :=
  match cur with
  | None => Some calls
  | Some (op, Done r) => Some (calls ++ [(op, r)])
  | Some (_, Step _ _) => None
  end.

(** The program has made [calls] and is inside the call [cur]: each of its
    database actions is the next one of this call or the first of a new one. *)
Fixpoint flow (calls : list call) (cur : option (store_op * prog answer)) (p : hprog A) : Prop :=
  match p with
  | HDone a => ∃ cs, settled calls cur = Some cs ∧ P cs a
  | HNonce _ _ _ k => ∃ cs, settled calls cur = Some cs ∧ ∀ fresh, flow cs None (k fresh)
  | HStmt m k => ∃ op k',
      (cur = Some (op, Step m k') ∧ ∀ r, flow calls (Some (op, k' r)) (k r)) ∨
      (∃ cs now, settled calls cur = Some cs ∧ ok op ∧ prog_of op now = Step m k' ∧
         ∀ r, flow cs (Some (op, k' r)) (k r))
  end.

Lemma flow_settle calls cur cs p : settled calls cur = Some cs → flow cs None p → flow calls cur p.
Proof.
  intros Hs. destruct p as [a|nonce expiry t k|B m k]; simpl.
  - intros (cs' & [= <-] & HP). by exists cs.
  - intros (cs' & [= <-] & Hk). by exists cs.
  - intros (op & k' & [[? _]|(cs' & now & [= <-] & H)]); [done|]. exists op, k'. right. by exists cs, now.
Qed.
End flow.

(** From no call in progress. *)
Definition flows {U : GoUnicode} {Q : SqlEnv} {A} (ok : store_op → Prop) (calls : list call) (p : hprog A)
  (P : list call → A → Prop) : Prop := flow ok P calls None p.

Section rules.
Context {U : GoUnicode} {Q : SqlEnv} (ok : store_op → Prop).

Lemma flows_ret {A} calls (a : A) (P : list call → A → Prop) : P calls a → flows ok calls (HDone a) P.
Proof. intros H. by exists calls. Qed.

Lemma flows_bind {A B} calls (p : hprog A) (k : A → hprog B) P1 P :
  flows ok calls p P1 → (∀ cs a, P1 cs a → flows ok cs (k a) P) → flows ok calls (hp_bind p k) P.
Proof.
  intros Hp Hk. unfold flows in Hp |- *. revert Hp. generalize (@None (store_op * prog answer)) as cur. revert calls.
  induction p as [a|nonce expiry t h IH|C m h IH]; intros calls cur; simpl.
  - intros (cs & Hs & HP). eapply flow_settle; [done|]. by apply Hk.
  - intros (cs & Hs & Hh). exists cs. split; [done|]. intros fresh. by apply IH.
  - intros (op & k' & [[Hc Hh]|(cs & now & Hs & Hok & Hop & Hh)]); exists op, k'; [left|right; exists cs, now];
      (split_and!; [done..|]); intros r; by apply IH.
Qed.

Lemma flows_use {A} calls nonce expiry now (k : bool → hprog A) P :
  (∀ fresh, flows ok calls (k fresh) P) → flows ok calls (HNonce nonce expiry now k) P.
Proof. intros H. by exists calls. Qed.

(** A call of the store: the request [op], whose answer is put into its sum. *)
Lemma flow_call {A} calls op (p : prog A) (kk : A → prog answer) (inj : A → answer) :
  (∀ a, kk a = Done (Ok (inj a))) →
  flow ok (λ cs r, cs = calls ++ [(op, res_map inj r)]) calls (Some (op, pbind p kk)) (hp_store p).
Proof.
  intros Hk. induction p as [[a|e]|B m h IH]; simpl.
  - rewrite Hk. by eexists.
  - by eexists.
  - exists op. eexists. left. split; [done|]. apply IH.
Qed.

Lemma flows_store {A} calls op now (p : prog A) (kk : A → prog answer) (inj : A → answer) :
  ok op → prog_of op now = pbind p kk → (∀ a, kk a = Done (Ok (inj a))) →
  match p with Done _ => False | Step _ _ => True end →
  flows ok calls (hp_store p) (λ cs r, cs = calls ++ [(op, res_map inj r)]).
Proof.
  intros Hok Hop Hk Hp. destruct p as [|B m h]; [done|]. simpl in Hop. unfold flows. simpl.
  exists op. eexists. right. exists calls, now. split_and!; [done..|]. intros r. by apply flow_call.
Qed.
End rules.

(** ** What a request asks of the store *)

Section requests.
Context {U : GoUnicode} {L : GoUnicodeLaws U} {Q : SqlEnv} {S256 : Sha256} {E : EthCrypto} {J : MarketJSON}
  {PF : ParseFloat} {PO : PathOps}.

(** The asset and subresource a path names. *)
Definition asset_path (path : string) : option (string * string * string * string) :=
  if (path =s? "/v1/assets") || negb (has_prefix path "/v1/assets/") then None
  else
    match split_byte "/" (trim_pred (λ c, (c =c? "/")%char) (trim_prefix path "/v1/assets/")) with
    | typ :: author :: name :: subs =>
        match subs with _ :: _ :: _ => None
        | _ => Some (typ, to_lower author, name, default ""%string (head subs)) end
    | _ => None
    end.

(** The push a POST of an asset asks for, if its recipe declares the path's name. *)
Definition pushed_by (files : gmap string string) (r : http_request) : option PushInput :=
  match asset_path (h_path r) with
  | Some (typ, author, name, sub) =>
      if (sub =s? "") && (h_method r =s? "POST") then
        match json_push (h_body r) with
        | Some recipe =>
            match ParseRecipeMeta files recipe with
            | Ok meta => if am_Name meta =s? name
                         then Some (mkPush typ author meta recipe (hex_encode (sha256 recipe))) else None
            | Err _ => None
            end
        | None => None
        end
      else None
  | None => None
  end.

(** The name a DELETE of an asset removes. *)
Definition deleted_by (r : http_request) : option nkey :=
  match asset_path (h_path r) with
  | Some (typ, author, name, sub) =>
      if (sub =s? "") && (h_method r =s? "DELETE") then Some (typ, author, name) else None
  | None => None
  end.

(** The store calls the request may make. *)
Definition issues (files : gmap string string) (r : http_request) (op : store_op) : Prop :=
  (∀ inp, op = OpPut inp → pushed_by files r = Some inp) ∧
  (∀ K, deletes op = Some K → deleted_by r = Some K).

(** The asset whose recipe a GET asks for. *)
Definition installs (r : http_request) : option nkey :=
  match asset_path (h_path r) with
  | Some (typ, author, name, sub) =>
      if (sub =s? "install") && (h_method r =s? "GET") && ValidTypes typ then Some (typ, author, name) else None
  | None => None
  end.

(** How an install answers what the store answered. *)
Definition install_reply (res : result store_err (option (string * string * string))) (a : reply) : Prop :=
  match res with
  | Ok (Some (body, sha, vis)) => a = RBody body sha ∨ (vis = "private"%string ∧ a = not_found)
  | Ok None => a = not_found
  | Err _ => a = internal
  end.

(** A 201 reports a push of the store that was answered with the asset; an
    install reports the answer to a fetch of the path's asset. *)
Definition reports (files : gmap string string) (r : http_request) (calls : list call) (a : reply) : Prop :=
  (∀ x, a = RCreated x → ∃ inp, pushed_by files r = Some inp ∧ (OpPut inp, Ok (AAsset x)) ∈ calls) ∧
  (∀ typ author name, installs r = Some (typ, author, name) → ∃ res,
     (OpRecipe typ author name (h_query r "version"%string), res_map ARecipe res) ∈ calls ∧ install_reply res a).

Definition plain_reply (a : reply) : Prop := match a with RCreated _ => False | _ => True end.

Context (cfg : market_config) (files : gmap string string) (now : Z) (r : http_request) (dbnow : string).
#[local] Instance on_calls : Store prog := sqlStoreP dbnow.
#[local] Notation flows := (flows (issues files r)).

(** A call that neither pushes nor deletes. *)
Definition plain (op : store_op) : bool :=
  match op with OpPut _ | OpDelete _ _ _ => false | _ => true end.
Lemma plain_issues op : plain op = true → issues files r op.
Proof. by destruct op. Qed.

Lemma flows_any {A} calls (p : hprog A) (P : list call → A → Prop) :
  flows calls p P → flows calls p (λ _ _, True).
Proof.
  intros H. unfold MarketServerRefines.flows in *. revert H. generalize (@None (store_op * prog answer)) as cur. revert calls.
  induction p as [a|nonce expiry t h IH|C m h IH]; intros calls cur; simpl.
  - intros (cs & Hs & _). by exists cs.
  - intros (cs & Hs & Hh). exists cs. split; [done|]. intros fresh. by apply IH.
  - intros (op & k' & [[Hc Hh]|(cs & t & Hs & Hok & Hop & Hh)]); exists op, k'; [left|right; exists cs, t];
      (split_and!; [done..|]); intros res; by apply IH.
Qed.

Ltac store_call op inj :=
  eapply (flows_store _ _ op dbnow _ _ inj);
    [first [assumption|by apply plain_issues]|reflexivity|by try intros []|try done].

Lemma list_flows calls f : flows calls (hp_store (list_assetsP f "" true)) (λ _ _, True).
Proof. eapply flows_any. store_call (OpList f) (λ x : list Asset * Z, AList x.1 x.2). Qed.
Lemma mine_flows calls eoa f : flows calls (hp_store (list_assetsP f (to_lower eoa) false)) (λ _ _, True).
Proof. eapply flows_any. store_call (OpMine eoa f) (λ x : list Asset * Z, AList x.1 x.2). Qed.
Lemma get_flows calls typ eoa name v : flows calls (hp_store (GetAssetP typ eoa name v)) (λ _ _, True).
Proof. eapply flows_any. store_call (OpGet typ eoa name v) AFull. Qed.
Lemma versions_flows calls typ eoa name : flows calls (hp_store (atomic (ListVersions typ eoa name))) (λ _ _, True).
Proof. eapply flows_any. store_call (OpVersions typ eoa name) AVersions. Qed.
Lemma recipe_flows calls typ eoa name v : flows calls (hp_store (GetRecipeP typ eoa name v)) (λ _ _, True).
Proof. eapply flows_any. store_call (OpRecipe typ eoa name v) ARecipe. unfold GetRecipeP. by destruct (v =s? ""). Qed.
Lemma incr_flows calls typ eoa name : flows calls (hp_store (atomic (IncrDownloads typ eoa name))) (λ _ _, True).
Proof. eapply flows_any. store_call (OpIncr typ eoa name) (λ _ : unit, ADone). Qed.
Lemma visibility_flows calls typ eoa name vis : flows calls (hp_store (SetVisibilityP typ eoa name vis dbnow)) (λ _ _, True).
Proof. eapply flows_any. store_call (OpVisibility typ eoa name vis) AFlag. Qed.
Lemma price_flows calls typ eoa name price token : flows calls (hp_store (SetPriceP typ eoa name price token dbnow)) (λ _ _, True).
Proof. eapply flows_any. store_call (OpPrice typ eoa name price token) AFlag. Qed.
Lemma meta_flows calls typ eoa name tags summary : flows calls (hp_store (SetMetaP typ eoa name tags summary dbnow)) (λ _ _, True).
Proof. eapply flows_any. store_call (OpMeta typ eoa name tags summary) AFlag. Qed.
Lemma delete_flows calls typ eoa name :
  issues files r (OpDelete typ eoa name) → flows calls (hp_store (DeleteAssetP typ eoa name)) (λ _ _, True).
Proof. intros Hi. eapply flows_any. store_call (OpDelete typ eoa name) AFlag. Qed.

(** The signature check calls nothing. *)
Lemma verifyWrite_flows calls body target :
  flows calls (verifyWrite (T:=prog) (F:=hprog) cfg now r body target) (λ cs res, cs = calls ∧ match res with Err e => plain_reply e | Ok _ => True end).
Proof.
  unfold verifyWrite. opened.
  repeat match goal with
  | |- flows _ (let x := _ in _) _ => cbv zeta
  | |- flows _ (if ?b then _ else _) _ => destruct b
  | |- flows _ (match ?x with _ => _ end) _ => destruct x
  | |- flows _ (HDone _) _ => by apply flows_ret
  | |- flows _ (hp_bind (HNonce _ _ _ _) _) _ => apply flows_use; intros fresh; simpl
  end.
Qed.

#[local] Notation quiet := (λ _ a, plain_reply a).

Lemma quiet_bind {B} calls (p : hprog B) (k : B → hprog reply) :
  flows calls p (λ _ _, True) → (∀ cs b, flows cs (k b) quiet) → flows calls (hp_bind p k) quiet.
Proof. intros Hp Hk. by eapply flows_bind; [apply Hp|]. Qed.

Lemma gated_flows calls body author k :
  (∀ cs, flows cs k quiet) → flows calls (gated (T:=prog) (F:=hprog) cfg now r body author k) quiet.
Proof.
  intros Hk. unfold gated, verifyWriteAuthor. opened.
  eapply flows_bind with (P1 := λ _ (res : result reply string), match res with Err e => plain_reply e | Ok _ => True end); [|intros cs [s|e] He].
  - eapply flows_bind; [apply verifyWrite_flows|]. intros cs [signer|e] [_ He]; [|by apply flows_ret].
    destruct (signer =s? ""); [by apply flows_ret|].
    by destruct (negb _); apply flows_ret.
  - apply Hk.
  - by apply flows_ret.
Qed.

Lemma privateReadOK_flows calls author :
  flows calls (privateReadOK (T:=prog) (F:=hprog) cfg now r author) (λ cs _, cs = calls).
Proof.
  unfold privateReadOK. opened. eapply flows_bind; [apply verifyWrite_flows|]. intros cs [s|e] [-> _]; by apply flows_ret.
Qed.

Lemma writeMutation_flows calls typ author name res :
  flows calls (writeMutation (T:=prog) (F:=hprog) typ author name res) quiet.
Proof.
  unfold writeMutation, on_calls. opened. destruct res as [[|]|[]]; try by apply flows_ret.
  apply quiet_bind; [apply get_flows|]. intros cs [[[a vs]|]|e]; by apply flows_ret.
Qed.

Ltac quiet_step :=
  match goal with
  | |- MarketServerRefines.flows _ _ (let x := _ in _) _ => cbv zeta
  | |- MarketServerRefines.flows _ _ (HDone _) _ => by apply flows_ret
  | |- MarketServerRefines.flows _ _ (hp_store (list_assetsP _ _ true)) _ => apply list_flows
  | |- MarketServerRefines.flows _ _ (hp_store (list_assetsP _ _ false)) _ => apply mine_flows
  | |- MarketServerRefines.flows _ _ (hp_store (GetAssetP _ _ _ _)) _ => apply get_flows
  | |- MarketServerRefines.flows _ _ (hp_store (atomic (ListVersions _ _ _))) _ => apply versions_flows
  | |- MarketServerRefines.flows _ _ (hp_store (GetRecipeP _ _ _ _)) _ => apply recipe_flows
  | |- MarketServerRefines.flows _ _ (hp_store (atomic (IncrDownloads _ _ _))) _ => apply incr_flows
  | |- MarketServerRefines.flows _ _ (hp_store (SetVisibilityP _ _ _ _ _)) _ => apply visibility_flows
  | |- MarketServerRefines.flows _ _ (hp_store (SetPriceP _ _ _ _ _ _)) _ => apply price_flows
  | |- MarketServerRefines.flows _ _ (hp_store (SetMetaP _ _ _ _ _ _)) _ => apply meta_flows
  | |- MarketServerRefines.flows _ _ (hp_store (DeleteAssetP _ _ _)) _ => by apply delete_flows
  | |- MarketServerRefines.flows _ _ (privateReadOK _ _ _ _) _ => eapply flows_any, privateReadOK_flows
  | |- MarketServerRefines.flows _ _ (verifyWrite _ _ _ _ _) _ => eapply flows_any, verifyWrite_flows
  | |- MarketServerRefines.flows _ _ (writeMutation _ _ _ _) _ => apply writeMutation_flows
  | |- MarketServerRefines.flows _ _ (gated _ _ _ _ _ _) _ => apply gated_flows; intros ?
  | |- MarketServerRefines.flows _ _ (hp_bind _ _) _ => apply quiet_bind; [|intros ? ?]
  | |- MarketServerRefines.flows _ _ (if ?b then _ else _) _ => destruct b
  | |- MarketServerRefines.flows _ _ (match ?x with _ => _ end) _ => destruct x
  end.

Lemma quiet_handlers calls typ author name :
  flows calls (handleAssetsList (F:=hprog) r) quiet ∧
  flows calls (handleGetMeta (F:=hprog) cfg now r typ author name) quiet ∧
  flows calls (handleVersions (F:=hprog) typ author name) quiet ∧
  flows calls (handleVisibility (F:=hprog) cfg now r typ author name) quiet ∧
  flows calls (handlePrice (F:=hprog) cfg now r typ author name) quiet ∧
  flows calls (handleMeta (F:=hprog) cfg now r typ author name) quiet ∧
  (issues files r (OpDelete typ author name) → flows calls (handleUnpush (F:=hprog) cfg now r typ author name) quiet).
Proof.
  unfold handleAssetsList, handleGetMeta, handleVersions, handleVisibility, handlePrice, handleMeta,
    handleUnpush, on_calls.
  split_and!; intros; opened; repeat quiet_step.
Qed.

Lemma flow_weaken {A} calls cur (p : hprog A) (P P' : list call → A → Prop) :
  (∀ cs a, P cs a → P' cs a) → flow (issues files r) P calls cur p → flow (issues files r) P' calls cur p.
Proof.
  intros HP. revert calls cur. induction p as [a|nonce expiry t h IH|C m h IH]; intros calls cur; simpl.
  - intros (cs & Hs & H). exists cs. auto.
  - intros (cs & Hs & Hh). exists cs. split; [done|]. intros fresh. by apply IH.
  - intros (op & k' & [[Hc Hh]|(cs & t & Hs & Hok & Hop & Hh)]); exists op, k'; [left|right; exists cs, t];
      (split_and!; [done..|]); intros res; by apply IH.
Qed.

Lemma quiet_reports calls p : installs r = None → flows calls p quiet → flows calls p (reports files r).
Proof. intros Hi. apply flow_weaken. intros cs a Ha. split; [by intros x ->|congruence]. Qed.

Ltac quiet := apply quiet_reports; [done|by apply flows_ret].

(** The path and method decide what is not an install. *)
Lemma installs_spec typ author name sub :
  asset_path (h_path r) = Some (typ, author, name, sub) →
  sub ≠ "install"%string ∨ h_method r ≠ "GET"%string ∨ ValidTypes typ = false → installs r = None.
Proof.
  intros Hpath Hno. unfold installs. rewrite Hpath.
  destruct (_ && _) eqn:Hc; [|done]. breflect_all. destruct Hno as [?|[?|?]]; congruence.
Qed.

Lemma handlePush_flows calls typ author name :
  h_method r = "POST"%string → asset_path (h_path r) = Some (typ, author, name, ""%string) →
  flows calls (handlePush (F:=hprog) cfg files now r typ author name) (reports files r).
Proof.
  intros Hm Hpath. assert (installs r = None) as Hi by (eapply installs_spec; [done|by left]).
  unfold handlePush, on_calls. opened. destruct (h_body_err r); [quiet|]. cbv zeta.
  eapply flows_bind; [apply verifyWrite_flows|]. intros cs [signer|e] [_ He];
    [|by apply quiet_reports; [|apply flows_ret]].
  destruct (signer =s? ""); [quiet|]. destruct (negb (signer =s? author)); [quiet|].
  destruct (json_push _) as [recipe|] eqn:Hj; [|quiet]. destruct (recipe =s? ""); [quiet|].
  destruct (ParseRecipeMeta files recipe) as [meta|[]] eqn:Hpr; [|quiet..].
  destruct (am_Name meta =s? name) eqn:Hn; cbn [negb]; [|quiet].
  destruct (_ && _); [quiet|]. destruct (_ && _); [quiet|].
  set (inp := mkPush typ author meta recipe (hex_encode (sha256 recipe))).
  assert (pushed_by files r = Some inp) as Hinp.
  { unfold pushed_by. rewrite Hpath, Hm, Hj, Hpr, Hn. done. }
  eapply flows_bind.
  - eapply (flows_store _ _ (OpPut inp) dbnow _ _ AAsset); [|reflexivity|done|done]. split; [by intros ? [= <-]|done].
  - intros cs' res ->. destruct res as [a|[]]; try quiet. apply flows_ret. split; [|congruence].
    intros x [= <-]. exists inp. split; [done|]. apply elem_of_app. right. by left.
Qed.

Lemma reports_install calls typ author name res a l :
  asset_path (h_path r) = Some (typ, author, name, "install"%string) →
  plain_reply a → install_reply res a →
  reports files r (calls ++ (OpRecipe typ author name (h_query r "version"%string), res_map ARecipe res) :: l) a.
Proof.
  intros Hpath Ha Hres. split; [by intros x ->|]. intros t u n. unfold installs. rewrite Hpath.
  destruct (_ && _); [|done]. intros [= <- <- <-]. exists res. split; [|done]. apply elem_of_app. right. by left.
Qed.

Lemma handleInstall_flows calls typ author name :
  asset_path (h_path r) = Some (typ, author, name, "install"%string) →
  flows calls (handleInstall (F:=hprog) cfg now r typ author name) (reports files r).
Proof.
  intros Hpath. unfold handleInstall, on_calls. opened. eapply flows_bind.
  { eapply (flows_store _ _ (OpRecipe typ author name _) dbnow _ _ ARecipe); [by apply plain_issues|reflexivity|done|].
    unfold GetRecipeP. by destruct (_ =s? ""). }
  intros cs res ->. pose proof (λ a l, reports_install calls typ author name res a l Hpath) as Hrep.
  destruct res as [[[[body sha] vis]|]|e]; [|by apply flows_ret, Hrep..]. cbv zeta.
  assert (∀ cs, cs = calls ++ [(OpRecipe typ author name (h_query r "version"%string), res_map ARecipe (Ok (Some (body, sha, vis))))] →
    flows cs (hp_bind (hp_store (atomic (IncrDownloads typ author name))) (λ _, HDone (RBody body sha))) (reports files r)) as Hserve.
  { intros cs ->. eapply flows_bind.
    - eapply (flows_store _ _ (OpIncr typ author name) dbnow _ _ (λ _ : unit, ADone)); [by apply plain_issues|reflexivity|done|done].
    - intros cs res ->. apply flows_ret. rewrite <-app_assoc. apply Hrep; [done|]. by left. }
  destruct (String.eqb_spec vis "private") as [-> | ]; [|by apply Hserve].
  eapply flows_bind; [apply privateReadOK_flows|]. intros cs [|] ->; [by apply Hserve|].
  apply flows_ret, Hrep; [done|]. by right.
Qed.

(** What every request does with the store, from its arrival. *)
Lemma serve_flows : flows [] (serveP cfg files now dbnow r) (reports files r).
Proof.
  assert (asset_path (h_path r) = None → installs r = None) as Hnone by (unfold installs; by intros ->).
  unfold serveP, serve. opened. destruct (h_path r =s? "/v1/assets") eqn:H0.
  { apply quiet_reports, (quiet_handlers [] "" "" ""). apply Hnone. unfold asset_path. by rewrite H0. }
  destruct (has_prefix (h_path r) "/v1/assets/") eqn:H1;
    [|assert (installs r = None) by (apply Hnone; unfold asset_path; by rewrite H0, H1); by case_if; quiet].
  assert (∀ typ author name sub, asset_path (h_path r) = Some (typ, author, name, sub) → to_lower author = author →
    flows [] (handleAsset (T:=prog) (F:=hprog) (St:=sqlStoreP dbnow) cfg files now r typ author name sub)
      (reports files r)) as Hasset.
  { intros typ author name sub Hpath Hlow. destruct (quiet_handlers [] typ author name) as (_ & A1 & A3 & A4 & A5 & A6 & A7).
    pose proof (installs_spec typ author name sub Hpath) as Hni. unfold handleAsset. cbv zeta.
    repeat match goal with |- MarketServerRefines.flows _ _ (if ?b then _ else _) _ => destruct b eqn:? end;
      breflect_all; subst; first
      [by apply handlePush_flows|by apply handleInstall_flows
      |apply quiet_reports; [apply Hni; first [by left|by right; left]|first [done|by apply flows_ret|apply A7]]].
    split; [done|]. intros K. simpl. rewrite Hlow. intros [= <-]. unfold deleted_by. rewrite Hpath.
    match goal with H : h_method r = "DELETE"%string |- _ => by rewrite H end. }
  pose proof (installs_spec) as Hni.
  unfold handleAssetsPath. opened. cbv zeta.
  unfold asset_path in Hasset, Hnone, Hni. rewrite H0, H1 in Hasset, Hnone, Hni. cbn [orb negb] in Hasset, Hnone, Hni.
  destruct (trim_pred _ _ =s? "") eqn:H2.
  { breflect_all. rewrite H2 in Hnone. specialize (Hnone eq_refl). quiet. }
  destruct (split_byte _ _) as [|s0 [|s1 [|s2 subs]]]; [specialize (Hnone eq_refl); quiet| |specialize (Hnone eq_refl); quiet|].
  - specialize (Hnone eq_refl). destruct (s0 =s? "mine"); [|quiet]. apply quiet_reports; [done|]. unfold handleMine. opened.
    destruct (negb _); [by apply flows_ret|]. eapply flows_bind; [apply verifyWrite_flows|].
    intros cs [signer|e] [_ He]; [|by apply flows_ret]. repeat quiet_step.
  - destruct subs as [|s3 [|s4 ?]]; [| |specialize (Hnone eq_refl); quiet];
      (destruct (ValidTypes s0) eqn:Hvt; cbn [negb];
       [apply Hasset; [done|apply to_lower_idem]|]);
      (apply quiet_reports; [eapply Hni; [reflexivity|auto]|by apply flows_ret]).
Qed.
End requests.

(** ** The simulation *)

Section simulation.
Context {U : GoUnicode} {L : GoUnicodeLaws U} {Q : SqlEnv} {S256 : Sha256} {E : EthCrypto} {J : MarketJSON}
  {PF : ParseFloat} {PO : PathOps}.
Context (cfg : market_config) (files : gmap string string).

(** [own] says which request made each call of the store's history.  The calls
    of request [i] are finished there, the one it is in is as far. *)
Definition recorded (own : list nat) (cs : cstate) (i : nat) (op : store_op) (p : prog answer) : Prop :=
  ∃ j, own !! j = Some i ∧ c_threads cs !! j = Some (mkThread op p).

Definition follows (own : list nat) (cs : cstate) (i : nat) (t : hthread) : Prop :=
  ∃ calls cur, flow (issues files (ht_req t)) (reports files (ht_req t)) calls cur (ht_prog t) ∧
    (∀ op r, (op, r) ∈ calls → recorded own cs i op (Done r)) ∧
    (∀ op p, cur = Some (op, p) → recorded own cs i op p).

Record sim (own : list nat) (s : hstate) (cs : cstate) : Prop := {
  sim_db : c_db cs = hs_db s;
  sim_own : length own = length (c_threads cs);
  sim_threads : ∀ i t, hs_threads s !! i = Some t → follows own cs i t;
  sim_ops : ∀ j t, c_threads cs !! j = Some t → ∃ i ht, own !! j = Some i ∧ hs_threads s !! i = Some ht ∧
    issues files (ht_req ht) (th_op t)
}.

Lemma settled_recorded own cs i calls cur l :
  settled calls cur = Some l →
  (∀ op r, (op, r) ∈ calls → recorded own cs i op (Done r)) →
  (∀ op p, cur = Some (op, p) → recorded own cs i op p) →
  ∀ op r, (op, r) ∈ l → recorded own cs i op (Done r).
Proof.
  intros Hs Hcalls Hcur op r Hin. destruct cur as [[o [res|]]|]; simpl in Hs; [|done|by simplify_eq; auto].
  injection Hs as <-. apply elem_of_app in Hin as [Hin|Hin%list_elem_of_singleton]; [by apply Hcalls|].
  injection Hin as -> ->. by apply Hcur.
Qed.

Lemma follows_mono own cs own' cs' i t :
  (∀ op p, recorded own cs i op p → recorded own' cs' i op p) → follows own cs i t → follows own' cs' i t.
Proof. intros Hm (calls & cur & Hf & H1 & H2). exists calls, cur. split_and!; [done|auto..]. Qed.

(** The store's history goes on: an arrival, or a step of the call of [i]. *)
Lemma recorded_start own cs i' i op0 now op p :
  length own = length (c_threads cs) →
  recorded own cs i op p → recorded (own ++ [i']) (cstep cs (Start op0 now)) i op p.
Proof. intros _ (j & Hj & Ht). exists j. split; by apply lookup_app_l_Some. Qed.

Lemma cstep_at cs j op {B} (m : M B) k fs :
  c_threads cs !! j = Some (mkThread op (Step m k)) →
  cstep cs (Run j fs) = let '(r, db', _) := m (c_db cs) fs in mkC db' (<[j := mkThread op (k r)]> (c_threads cs)).
Proof. intros Hj. simpl. by rewrite Hj. Qed.

(** Another request's calls, and this one's finished calls, are as they were. *)
Lemma recorded_insert own cs i0 j0 op0 (B : Type) (m : M B) k p0 db i op p :
  own !! j0 = Some i0 → c_threads cs !! j0 = Some (mkThread op0 (Step m k)) →
  (i ≠ i0 ∨ ∃ r, p = Done r) → recorded own cs i op p →
  recorded own (mkC db (<[j0 := mkThread op0 p0]> (c_threads cs))) i op p.
Proof.
  intros Hown Hj0 Hor (j & Hj & Ht). exists j. split; [done|]. simpl. rewrite list_lookup_insert_ne; [done|].
  intros ->. destruct Hor as [Hne|[r ->]]; congruence.
Qed.

(** A request's database action is an action of its call [j]. *)
Lemma sim_action own s cs i ht j op (B : Type) (m : M B) k k' calls fs :
  sim own s cs → hs_threads s !! i = Some ht → ht_prog ht = HStmt m k →
  own !! j = Some i → c_threads cs !! j = Some (mkThread op (Step m k')) →
  (∀ o r, (o, r) ∈ calls → recorded own cs i o (Done r)) →
  (∀ r, flow (issues files (ht_req ht)) (reports files (ht_req ht)) calls (Some (op, k' r)) (k r)) →
  sim own (hstep cfg files s (Act i fs)) (cstep cs (Run j fs)).
Proof.
  intros [Hdb Hlen Hts Hops] Hi Hp Hown Hj Hcalls Hk. rewrite (cstep_at _ _ _ _ _ _ Hj).
  destruct ht as [r now p]. simpl in Hp. subst p. simpl. rewrite Hi, <-Hdb. destruct (m (c_db cs) fs) as [[res db'] fs'].
  split; simpl; [done|by rewrite length_insert| |].
  - intros i' t' [(-> & <- & _)|[Hne Ht']]%list_lookup_insert_Some.
    + exists calls, (Some (op, k' res)). split; [apply Hk|]. split.
      * intros o x Hin. eapply recorded_insert; [done..|right; by eexists|by apply Hcalls].
      * intros o x [= <- <-]. exists j. split; [done|]. simpl. apply list_lookup_insert_eq. by eapply lookup_lt_Some.
    + eapply follows_mono; [|by apply Hts]. intros o x. by apply (recorded_insert _ _ i _ _ B m k'); [..|left].
  - intros j' t' Ht'.
    assert (∃ t0, c_threads cs !! j' = Some t0 ∧ th_op t' = th_op t0) as (t0 & Ht0 & ->).
    { apply list_lookup_insert_Some in Ht' as [(-> & <- & _)|[Hne Ht']]; by eexists. }
    destruct (Hops j' t0 Ht0) as (i' & ht & Ho & Hht & His).
    destruct (insert_same_req (hs_threads s) i (mkHT r now (HStmt m k)) (k res) Hi i' ht Hht) as (ht' & Hht' & Hr & _).
    exists i', ht'. rewrite Hr. by split_and!.
Qed.

(** A request in between its calls makes the next one. *)
Lemma sim_start own s cs i ht op now :
  sim own s cs → hs_threads s !! i = Some ht → issues files (ht_req ht) op →
  sim (own ++ [i]) s (cstep cs (Start op now)) ∧
  recorded (own ++ [i]) (cstep cs (Start op now)) i op (prog_of op now) ∧
  (own ++ [i]) !! length own = Some i ∧
  c_threads (cstep cs (Start op now)) !! length own = Some (mkThread op (prog_of op now)).
Proof.
  intros [Hdb Hlen Hts Hops] Hi His.
  assert ((own ++ [i]) !! length own = Some i) as H1 by (by apply list_lookup_middle).
  assert (c_threads (cstep cs (Start op now)) !! length own = Some (mkThread op (prog_of op now))) as H2
    by (rewrite Hlen; by apply list_lookup_middle).
  split_and!; [|by eexists|done..]. split; simpl; [done|rewrite !length_app; simpl; lia| |].
  - intros i' t Ht. eapply follows_mono; [|by apply Hts]. intros o p. by apply recorded_start.
  - intros j t [Ht|[Hle Ht]]%lookup_app_Some.
    + destruct (Hops j t Ht) as (i' & ht' & Ho & H). exists i', ht'. split; [by apply lookup_app_l_Some|done].
    + apply list_lookup_singleton_Some in Ht as [Hj <-]. assert (j = length own) as -> by lia. by exists i, ht.
Qed.

(** Nothing happens in the database: the store's history stands still. *)
Lemma sim_still own s cs c uses i ht p calls :
  sim own s cs → hs_threads s !! i = Some ht →
  (∀ o r, (o, r) ∈ calls → recorded own cs i o (Done r)) →
  flow (issues files (ht_req ht)) (reports files (ht_req ht)) calls None p →
  sim own (mkHS c (hs_db s) (<[i := mkHT (ht_req ht) (ht_now ht) p]> (hs_threads s)) uses) cs.
Proof.
  intros [Hdb Hlen Hts Hops] Hi Hcalls Hf. split; simpl; [done|done| |].
  - intros i' t' [(-> & <- & _)|[Hne Ht']]%list_lookup_insert_Some; [|by apply Hts]. by exists calls, None.
  - intros j t Ht. destruct (Hops j t Ht) as (i' & ht' & Ho & Hht & His).
    destruct (insert_same_req (hs_threads s) i ht p Hi i' ht' Hht) as (ht2 & Hht2 & Hr & _).
    exists i', ht2. rewrite Hr. by split_and!.
Qed.

Lemma sim_step own s cs e : sim own s cs → ∃ l ch, sim (own ++ l) (hstep cfg files s e) (crun ch cs).
Proof.
  intros Hsim. destruct e as [r now dbnow|i fs].
  { exists [], []. rewrite app_nil_r. destruct Hsim as [Hdb Hlen Hts Hops]. split; simpl; [done|done| |].
    - intros i t [Ht|[_ Ht]]%lookup_app_Some; [by apply Hts|]. apply list_lookup_singleton_Some in Ht as [_ <-].
      exists [], None. split; [apply serve_flows|]. split; [|done]. intros op x Hin. by apply elem_of_nil in Hin.
    - intros j t Ht. destruct (Hops j t Ht) as (i & ht & Ho & Hht & His). exists i, ht.
      split_and!; [done|by apply lookup_app_l_Some|done]. }
  destruct (hs_threads s !! i) as [[r now p]|] eqn:Hi; [|exists [], []; rewrite app_nil_r; simpl; by rewrite Hi].
  destruct (sim_threads _ _ _ Hsim i _ Hi) as (calls & cur & Hf & Hcalls & Hcur). simpl in Hf.
  destruct p as [a|nonce expiry t k|B m k].
  - exists [], []. rewrite app_nil_r. simpl. by rewrite Hi.
  - destruct Hf as (l & Hl & Hk). exists [], []. rewrite app_nil_r. simpl. rewrite Hi.
    destruct (useOnce _ _ _ _) as [fresh c'].
    apply (sim_still own s cs c' _ i (mkHT r now (HNonce nonce expiry t k)) (k fresh) l); [done..| |apply Hk].
    by eapply settled_recorded.
  - destruct Hf as (op & k' & [[-> Hk]|(l & dbnow & Hl & Hok & Hop & Hk)]).
    + destruct (Hcur op _ eq_refl) as (j & Hown & Hj). exists [], [Run j fs]. rewrite app_nil_r.
      by eapply (sim_action own s cs i (mkHT r now (HStmt m k)) j op B m k k' calls).
    + destruct (sim_start own s cs i (mkHT r now (HStmt m k)) op dbnow Hsim Hi Hok) as (Hsim' & _ & Hown & Hj).
      exists [i], [Start op dbnow; Run (length own) fs]. rewrite Hop in Hj.
      eapply (sim_action (own ++ [i]) s (cstep cs (Start op dbnow)) i (mkHT r now (HStmt m k)) (length own) op B m k k' l);
        [done..| |done].
      intros o x Hin. eapply recorded_start; [apply (sim_own _ _ _ Hsim)|]. by eapply settled_recorded.
Qed.

Lemma sim_run own s cs h : sim own s cs → ∃ l ch, sim (own ++ l) (hcrun cfg files h s) (crun ch cs).
Proof.
  revert own s cs. induction h as [|e h IH]; intros own s cs Hsim; [exists [], []; by rewrite app_nil_r|].
  destruct (sim_step own s cs e Hsim) as (l1 & ch1 & Hsim1). destruct (IH _ _ _ Hsim1) as (l2 & ch2 & Hsim2).
  exists (l1 ++ l2), (ch1 ++ ch2). by rewrite crun_app, app_assoc.
Qed.

Lemma sim_init : sim [] (hstart empty_db) start_state.
Proof. by split. Qed.

(** A 201 was a push of the store. *)
Lemma sim_created own s cs i t a :
  sim own s cs → hs_threads s !! i = Some t → replied s i = Some (RCreated a) →
  ∃ j inp, own !! j = Some i ∧ pushed_by files (ht_req t) = Some inp ∧ finished cs j = Some (OpPut inp, Ok (AAsset a)).
Proof.
  intros Hsim Hi Hr. destruct (sim_threads _ _ _ Hsim i t Hi) as (calls & cur & Hf & Hcalls & Hcur).
  unfold replied in Hr. rewrite Hi in Hr. destruct t as [r now p]. destruct p as [x|?|? ?]; [|done..].
  injection Hr as ->. destruct Hf as (l & Hl & Hrep & _). destruct (Hrep a eq_refl) as (inp & Hinp & Hin).
  destruct (settled_recorded _ _ _ _ _ _ Hl Hcalls Hcur _ _ Hin) as (j & Hown & Hj).
  exists j, inp. split_and!; [done..|]. unfold finished. by rewrite Hj.
Qed.

(** An install was a fetch of the store. *)
Lemma sim_installed own s cs i t a typ author name :
  sim own s cs → hs_threads s !! i = Some t → replied s i = Some a → installs (ht_req t) = Some (typ, author, name) →
  ∃ j res, own !! j = Some i ∧ install_reply res a ∧
    finished cs j = Some (OpRecipe typ author name (h_query (ht_req t) "version"%string), res_map ARecipe res).
Proof.
  intros Hsim Hi Hr Hin. destruct (sim_threads _ _ _ Hsim i t Hi) as (calls & cur & Hf & Hcalls & Hcur).
  unfold replied in Hr. rewrite Hi in Hr. destruct t as [r now p]. destruct p as [x|?|? ?]; [|done..].
  injection Hr as ->. destruct Hf as (l & Hl & _ & Hrep). destruct (Hrep typ author name Hin) as (res & Hc & Hres).
  destruct (settled_recorded _ _ _ _ _ _ Hl Hcalls Hcur _ _ Hc) as (j & Hown & Hj).
  exists j, res. split_and!; [done..|]. unfold finished. by rewrite Hj.
Qed.


(** ** Concurrent pushes over HTTP *)

Lemma started_ops ch cs op now :
  Start op now ∈ ch → ∃ t, t ∈ c_threads (crun ch cs) ∧ th_op t = op.
Proof.
  assert (∀ ch cs t, t ∈ c_threads cs → ∃ t', t' ∈ c_threads (crun ch cs) ∧ th_op t' = th_op t) as Hkeep.
  { clear. induction ch as [|e ch IH]; intros cs t Ht; [by exists t|].
    assert (∃ t', t' ∈ c_threads (cstep cs e) ∧ th_op t' = th_op t) as (t' & Ht' & <-); [|by apply IH].
    destruct e as [op now|i fs]; [exists t; simpl; split; [apply elem_of_app; by left|done]|].
    destruct (cstep_run cs i fs) as [-> | (op & B & m & k & r & db' & fs' & Hi & _ & ->)]; [by exists t|]. simpl.
    apply list_elem_of_lookup in Ht as [j Hj]. destruct (decide (j = i)) as [-> | Hne].
    - exists (mkThread op (k r)). split; [|by simplify_eq]. eapply list_elem_of_lookup_2, list_lookup_insert_eq.
      by eapply lookup_lt_Some.
    - exists t. split; [|done]. eapply list_elem_of_lookup_2. by rewrite list_lookup_insert_ne. }
  intros (ch1 & ch2 & ->)%list_elem_of_split. rewrite crun_app.
  apply (Hkeep ch2 (cstep (crun ch1 cs) (Start op now)) (mkThread op (prog_of op now))).
  simpl. apply elem_of_app. right. by left.
Qed.

(** No request deletes the asset, so no call does. *)
Lemma sim_no_delete own s ch K :
  sim own s (crun ch start_state) → (∀ ht, ht ∈ hs_threads s → deleted_by (ht_req ht) ≠ Some K) → no_delete K ch.
Proof.
  intros Hsim Hdel. apply Forall_forall. intros [op now|i fs] Hin; [|done]. intros Hd.
  destruct (started_ops ch start_state op now Hin) as (th & (k & Hk)%list_elem_of_lookup & <-).
  destruct (sim_ops _ _ _ Hsim k th Hk) as (i & ht & _ & Hht & [_ His]).
  apply (Hdel ht); [by eapply list_elem_of_lookup_2|]. by apply His.
Qed.

(** C3: Of any number of HTTP pushes of one version at most one is answered 201:
    however their actions interleave with each other and with any other
    requests, and whichever statements fail, as long as no request deletes the
    asset, a POST answered 201 is answered with the asset and the database holds
    under the path's name exactly the recipe text and digest it carried; and no
    two POSTs of the same type, author, name and version are both answered 201. *)
Theorem http_one_push_wins (h : list hevent) (i j : nat) (t t' : hthread) (p q : PushInput) (a : option Asset) :
  let s := hcrun cfg files h (hstart empty_db) in
  (∀ ht, ht ∈ hs_threads s → deleted_by (ht_req ht) ≠ Some (put_key p)) →
  hs_threads s !! i = Some t → pushed_by files (ht_req t) = Some p → replied s i = Some (RCreated a) →
  hs_threads s !! j = Some t' → pushed_by files (ht_req t') = Some q →
  put_key q = put_key p → am_Version (pi_Meta q) = am_Version (pi_Meta p) →
  is_Some a ∧ (∃ id, kept p (put_key p) id (hs_db s)) ∧ (∀ b, replied s j = Some (RCreated b) → i = j).
Proof.
  intros s Hdel Hi Hp Hri Hj Hq HK Hv.
  destruct (sim_run _ _ _ h sim_init) as (own & ch & Hsim). fold s in Hsim.
  pose proof (sim_no_delete _ _ _ _ Hsim Hdel) as Hnd.
  destruct (sim_created _ _ _ i t a Hsim Hi Hri) as (ji & p' & Hoi & Hp' & Hfi).
  assert (p' = p) as -> by congruence.
  destruct (one_push_wins_at ch ji ji p p (AAsset a) (Ok (AAsset a)) Hnd Hfi Hfi eq_refl eq_refl)
    as ((b & Hb) & Hkept & _). injection Hb as ->.
  rewrite (sim_db _ _ _ Hsim) in Hkept. split; [by eexists|]. split; [done|]. intros b' Hrj.
  destruct (sim_created _ _ _ j t' b' Hsim Hj Hrj) as (jj & q' & Hoj & Hq' & Hfj).
  assert (q' = q) as -> by congruence.
  destruct (one_push_wins_at ch ji jj p q (AAsset (Some b)) (Ok (AAsset b')) Hnd Hfi Hfj HK Hv) as (_ & _ & Hsame).
  specialize (Hsame eq_refl). congruence.
Qed.

(** ** From a push to an install over HTTP *)

Lemma pushed_version r p : pushed_by files r = Some p → am_Version (pi_Meta p) ≠ ""%string.
Proof.
  unfold pushed_by. destruct (asset_path _) as [[[[typ author] name] sub]|]; [|done].
  destruct (_ && _); [|done]. destruct (json_push _) as [recipe|]; [|done].
  destruct (ParseRecipeMeta files recipe) as [meta|] eqn:Hp; [|done]. destruct (_ =s? name); [|done].
  intros [= <-]. simpl. unfold ParseRecipeMeta in Hp. destruct (Parse _ _ _); [|done]. cbv zeta in Hp. simpl in Hp.
  destruct (_ =s? ""); [done|]. match type of Hp with (if ?v =s? "" then _ else _) = _ => destruct (String.eqb_spec v "") end;
    [done|]. injection Hp as <-. done.
Qed.

Lemma asset_path_lower path typ author name sub :
  asset_path path = Some (typ, author, name, sub) → to_lower author = author.
Proof.
  unfold asset_path. destruct (_ || _); [done|]. destruct (split_byte _ _) as [|? [|? [|? subs]]]; [done..|].
  destruct subs as [|? [|]]; [| |done]; intros [= _ <- _ _]; apply to_lower_idem.
Qed.

End simulation.
