(* ===== verification/MarketServerRuns.v ===== *)
(** * pkg/market: every HTTP request is answered

    A handler has no loop: eleven of its own actions — one use of the nonce
    cache and ten statements, for a push — take any request to its reply,
    whatever the others do.  Then concrete histories for the theorems of
    [MarketServerRefines]. *)

From S2P Require Import Prelude GoStrings GoStringsFacts Strconv Hardware GoTime Auth Tunnel.
From S2P Require Import MarketStore MarketStoreProofs MarketStoreTheorems MarketConc MarketConcLogic.
From S2P Require Import MarketConcProofs MarketConcRuns MarketApi RecipeParser MarketServer.
From S2P Require Import MarketServerProofs MarketServerConc MarketServerConcProofs MarketServerRefines.
From Stdlib Require Import ZArith Lia ZifyBool Bool Ascii String SpecFloat.
From stdpp Require Import base option list gmap strings.

Open Scope go_scope.
Open Scope Z_scope.

(** ** Bounded handlers *)

(** The handler is over after at most [n] actions, whatever they answer. *)
Fixpoint hwithin {A} (n : nat) (p : hprog A) {struct p} : Prop :=
  match p with
  | HDone _ => True
  | HNonce _ _ _ k => match n with O => False | S n' => ∀ b, hwithin n' (k b) end
  | HStmt m k => match n with O => False | S n' => ∀ r, hwithin n' (k r) end
  end.

Lemma hwithin_mono {A} (p : hprog A) n n' : (n ≤ n')%nat → hwithin n p → hwithin n' p.
Proof.
  revert n n'. induction p as [a|nonce expiry t k IH|B m k IH]; [done|..];
    (intros n n' Hle H; destruct n as [|n]; [done|]; destruct n' as [|n']; [lia|]; intros r;
     apply (IH r n); [lia|apply H]).
Qed.

Lemma hwithin_bind {A B} (p : hprog A) (k : A → hprog B) n n' :
  hwithin n p → (∀ a, hwithin n' (k a)) → hwithin (n + n') (hp_bind p k).
Proof.
  intros Hp Hk. revert n Hp. induction p as [a|nonce expiry t h IH|C m h IH]; intros n Hp; simpl.
  - apply hwithin_mono with n'; [lia|apply Hk].
  - destruct n as [|n]; [done|]. simpl. intros b. apply IH, Hp.
  - destruct n as [|n]; [done|]. simpl. intros r. apply IH, Hp.
Qed.

Lemma hwithin_store {A} (p : prog A) n : within n p → hwithin n (hp_store p).
Proof. revert n. induction p as [r|B m k IH]; intros [|n]; simpl; [done..|]. intros H r. apply IH, H. Qed.

Section bounds.
Context {U : GoUnicode} {Q : SqlEnv} {S256 : Sha256} {E : EthCrypto} {J : MarketJSON}
  {PF : ParseFloat} {PO : PathOps}.

Lemma list_assetsP_within f mine pub : within 2 (list_assetsP f mine pub).
Proof. apply (within_bind _ _ 1 1); [|intros ?]; within_tac. Qed.
Lemma GetRecipeP_within typ eoa name v : within 2 (GetRecipeP typ eoa name v).
Proof. unfold GetRecipeP. within_tac. Qed.
Lemma SetVisibilityP_within typ eoa name vis now : within 2 (SetVisibilityP typ eoa name vis now).
Proof. apply (within_bind _ _ 1 1); [|intros ?]; within_tac. Qed.
Lemma SetPriceP_within typ eoa name price token now : within 3 (SetPriceP typ eoa name price token now).
Proof. apply (within_bind _ _ 1 2); [|intros ?]; within_tac. Qed.
Lemma SetMetaP_within typ eoa name tags summary now : within 3 (SetMetaP typ eoa name tags summary now).
Proof. apply (within_bind _ _ 1 2); [|intros ?]; within_tac. Qed.
Lemma DeleteAssetP_within typ eoa name : within 2 (DeleteAssetP typ eoa name).
Proof. apply (within_bind _ _ 1 1); [|intros ?]; within_tac. Qed.

Context (cfg : market_config) (files : gmap string string) (now : Z) (r : http_request) (dbnow : string).
#[local] Instance methods_of : Store prog := sqlStoreP dbnow.

Lemma verifyWrite_within body target : hwithin 1 (verifyWrite (T:=prog) (F:=hprog) cfg now r body target).
Proof.
  unfold verifyWrite. opened.
  repeat match goal with
  | |- hwithin _ (let x := _ in _) => cbv zeta
  | |- hwithin _ (if ?b then _ else _) => destruct b
  | |- hwithin _ (match ?x with _ => _ end) => destruct x
  | |- hwithin _ (HDone _) => done
  | |- hwithin _ (hp_bind _ _) => intros []; done
  end.
Qed.

Lemma privateReadOK_within author : hwithin 1 (privateReadOK (T:=prog) (F:=hprog) cfg now r author).
Proof.
  apply (hwithin_bind _ _ 1 0); [apply verifyWrite_within|]. by intros [].
Qed.

Lemma gated_within body author k n :
  hwithin n k → hwithin (1 + n) (gated (T:=prog) (F:=hprog) cfg now r body author k).
Proof.
  intros Hk. apply (hwithin_bind _ _ 1 n); [|by intros []].
  apply (hwithin_bind _ _ 1 0); [apply verifyWrite_within|]. intros [s|e]; [|done]. opened.
  destruct (s =s? ""); [done|]. by destruct (negb _).
Qed.

Lemma writeMutation_within typ author name res :
  hwithin 2 (writeMutation (T:=prog) (F:=hprog) typ author name res).
Proof.
  unfold writeMutation, methods_of. opened. destruct res as [[|]|[]]; try done.
  apply (hwithin_bind _ _ 2 0); [apply hwithin_store, GetAssetP_within|]. by intros [[[a vs]|]|e].
Qed.

(** A mutation: the gate, a method of at most three actions, the reply. *)
Lemma mutation_within typ author name (p : prog bool) :
  within 3 p → hwithin 5 (hp_bind (hp_store p) (writeMutation (T:=prog) (F:=hprog) typ author name)).
Proof. intros Hp. apply (hwithin_bind _ _ 3 2); [by apply hwithin_store|]. intros res. apply writeMutation_within. Qed.

Ltac hwithin_step :=
  match goal with
  | |- hwithin _ (let x := _ in _) => cbv zeta
  | |- hwithin _ (HDone _) => done
  | |- hwithin 11 (gated _ _ _ _ _ _) => apply (hwithin_mono _ 6); [lia|apply gated_within]
  | |- hwithin 5 (hp_bind (hp_store _) (λ x, writeMutation _ _ _ x)) => apply mutation_within
  | |- hwithin 5 (hp_bind (hp_store _) (writeMutation _ _ _)) => apply mutation_within
  | |- hwithin ?n (hp_bind (hp_store (PutAssetP _ _)) _) =>
      apply (hwithin_bind _ _ 10 (n - 10)); [apply hwithin_store, PutAssetP_within|intros ?]
  | |- hwithin ?n (hp_bind (hp_store (atomic _)) _) =>
      apply (hwithin_bind _ _ 1 (n - 1)); [apply hwithin_store; done|intros ?]
  | |- hwithin ?n (hp_bind (hp_store _) _) =>
      apply (hwithin_bind _ _ 2 (n - 2)); [apply hwithin_store; first
        [apply list_assetsP_within|apply GetAssetP_within|apply GetRecipeP_within|apply DeleteAssetP_within]|intros ?]
  | |- hwithin ?n (hp_bind (verifyWrite _ _ _ _ _) _) =>
      apply (hwithin_bind _ _ 1 (n - 1)); [apply verifyWrite_within|intros ?]
  | |- hwithin ?n (hp_bind (privateReadOK _ _ _ _) _) =>
      apply (hwithin_bind _ _ 1 (n - 1)); [apply privateReadOK_within|intros ?]
  | |- hwithin _ (if ?b then _ else _) => destruct b
  | |- hwithin _ (match ?x with _ => _ end) => destruct x
  end.

Lemma serve_within : hwithin 11 (serveP cfg files now dbnow r).
Proof.
  unfold serveP, serve, handleAssetsPath, handleMine, handleAsset, handleGetMeta, handleVersions, handleInstall,
    handlePush, handleVisibility, handlePrice, handleMeta, handleUnpush, handleAssetsList.
  opened. repeat hwithin_step;
    first [apply within_mono with 2%nat; [lia|apply SetVisibilityP_within]|apply SetPriceP_within|apply SetMetaP_within].
Qed.
End bounds.

(** ** Every request is answered *)

Section ends.
Context {U : GoUnicode} {Q : SqlEnv} {S256 : Sha256} {E : EthCrypto} {J : MarketJSON}
  {PF : ParseFloat} {PO : PathOps}.
Context (cfg : market_config) (files : gmap string string).

(** The actions a history gives to request [i]. *)
Definition is_act (i : nat) (e : hevent) : bool :=
  match e with Act j _ => (j =? i)%nat | Arrive _ _ _ => false end.
Definition actions (i : nat) (h : list hevent) : nat := length (List.filter (is_act i) h).

Lemma actions_cons i e h : actions i (e :: h) = ((if is_act i e then 1 else 0) + actions i h)%nat.
Proof. unfold actions. simpl. by destruct (is_act i e). Qed.

Lemma hstep_within s e i t n :
  hs_threads s !! i = Some t → hwithin ((if is_act i e then 1 else 0) + n) (ht_prog t) →
  ∃ t', hs_threads (hstep cfg files s e) !! i = Some t' ∧ hwithin n (ht_prog t').
Proof.
  intros Ht Hw. destruct e as [r now dbnow|j fs]; simpl in *; [exists t; split; [by apply lookup_app_l_Some|done]|].
  destruct (Nat.eqb_spec j i) as [-> | Hne]; simpl in Hw.
  - rewrite Ht. destruct t as [r now [a|nonce expiry t k|B m k]]; [by eexists|..].
    + destruct (useOnce _ _ _ _) as [fresh c']. simpl in *. exists (mkHT r now (k fresh)).
      split; [apply list_lookup_insert_eq; by eapply lookup_lt_Some|apply Hw].
    + destruct (m _ fs) as [[res db'] fs']. simpl in *. exists (mkHT r now (k res)).
      split; [apply list_lookup_insert_eq; by eapply lookup_lt_Some|apply Hw].
  - exists t. split; [|done].
    destruct (hs_threads s !! j) as [[r now [a|nonce expiry tt k|B m k]]|]; try done.
    + destruct (useOnce _ _ _ _) as [fresh c']. simpl. by rewrite list_lookup_insert_ne.
    + destruct (m _ fs) as [[res db'] fs']. simpl. by rewrite list_lookup_insert_ne.
Qed.

Lemma hcrun_within h s i t n :
  hs_threads s !! i = Some t → hwithin (actions i h + n) (ht_prog t) →
  ∃ t', hs_threads (hcrun cfg files h s) !! i = Some t' ∧ hwithin n (ht_prog t').
Proof.
  revert s t. induction h as [|e h IH]; intros s t Ht Hw; [by exists t|].
  rewrite actions_cons, <-Nat.add_assoc in Hw. destruct (hstep_within s e i t _ Ht Hw) as (t1 & Ht1 & Hw1).
  by destruct (IH (hstep cfg files s e) t1 Ht1 Hw1) as (t2 & Ht2 & Hw2); exists t2.
Qed.

End ends.

(** ** Histories *)

#[local] Existing Instances ascii_tables toy_sql toy_hash toy_eth toy_mjson toy_pf toy_po.

Definition push7_as (nonce : string) : http_request :=
  signed_by7 "POST" ("/v1/assets/skill/" ++s author7 ++s "/bot") demo_recipe nonce "1000".

(** Two pushes of one version, action by action in turn. *)
Definition http_duel : list hevent :=
  Arrive (push7_as "n1") 1000 "t" :: Arrive (push7_as "n2") 1000 "t" ::
  concat (replicate 11 [Act 0 []; Act 1 []]).

(** What both ask for. *)
Definition bot3 : PushInput :=
  mkPush "skill" author7 (mkMeta "bot" "" "3.0" "" "" "0.1.0" []) demo_recipe (hex_encode demo_recipe).

Definition duel_asset : option Asset :=
  match replied (hcrun prod_config ∅ http_duel (hstart empty_db)) 0 with Some (RCreated a) => a | _ => None end.

Lemma http_one_push_wins_witness :
  let s := hcrun prod_config ∅ http_duel (hstart empty_db) in
  is_Some duel_asset ∧ (∃ id, kept bot3 (put_key bot3) id (hs_db s)) ∧
  (∀ b, replied s 1 = Some (RCreated b) → 0%nat = 1%nat) ∧
  replied s 1 = Some (RErr 409 "version_exists").
Proof.
  cbv zeta.
  assert (∃ t, hs_threads (hcrun prod_config ∅ http_duel (hstart empty_db)) !! 0%nat = Some t ∧
    ht_req t = push7_as "n1") as (t & Ht & Hr) by (eexists; split; [vm_compute; reflexivity|reflexivity]).
  assert (∃ t, hs_threads (hcrun prod_config ∅ http_duel (hstart empty_db)) !! 1%nat = Some t ∧
    ht_req t = push7_as "n2") as (t' & Ht' & Hr') by (eexists; split; [vm_compute; reflexivity|reflexivity]).
  destruct (http_one_push_wins prod_config ∅ http_duel 0 1 t t' bot3 bot3 duel_asset) as (H1 & H2 & H3);
    [|exact Ht|by rewrite Hr; vm_compute|by vm_compute|exact Ht'|by rewrite Hr'; vm_compute|done|done|].
  - intros ht [[|[|i]] Hi]%list_elem_of_lookup.
    + rewrite Ht in Hi. injection Hi as <-. rewrite Hr. vm_compute. discriminate.
    + rewrite Ht' in Hi. injection Hi as <-. rewrite Hr'. vm_compute. discriminate.
    + vm_compute in Hi. discriminate.
  - split; [exact H1|]. split; [exact H2|]. split; [exact H3|]. by vm_compute.
Defined.


(** The author fetches the version while another push of it is under way. *)
Definition install7 : http_request :=
  mkHReq "GET" ("/v1/assets/skill/" ++s author7 ++s "/bot/install") ("/v1/assets/skill/" ++s author7 ++s "/bot/install")
    (h_header (push7_as "n2")) (λ q, if q =s? "version" then "3.0"%string else ""%string) "" false.

Definition served_push : list hevent := Arrive (push7_as "n1") 1000 "t" :: acts 0 11.
Definition fetch_during_push : list hevent :=
  Arrive install7 1001 "t" :: Arrive (push7_as "n3") 1001 "t" :: concat (replicate 11 [Act 1 []; Act 2 []]).

Definition served_asset : option Asset :=
  match replied (hcrun prod_config ∅ served_push (hstart empty_db)) 0 with Some (RCreated a) => a | _ => None end.


